(* ===== verification/_CoqProject ===== *)
-Q . S2P
Prelude.v
DList.v
Table.v
Memory.v
Hashtable.v
Mm.v
Mcache.v
Sched.v
SchedSteps.v
Watchdog.v
Workqueue.v
PathStr.v
Fs.v
FsDir.v
Gpio.v
Drivers.v
Devnum.v
Tty.v
Kprintf.v
Manifest.v
Greybus.v
GreybusInv.v
RingBuf.v
I2s.v
Irq.v
Unipro.v
UniproSend.v
Switch.v
SwitchEs2.v
SwitchNcp.v
Svc.v
I2c.v
Tca64xx.v
GbI2c.v
GbGpio.v
GbAp.v
