(* ===== verification/Prelude.v ===== *)
(** * Phabos: a verification of the kernel, its drivers and its Greybus stack

    Phabos is the kernel that runs on the bridges and on the supervisory
    controller (SVC) of a modular phone.  This library translates the C code of
    its core into functions and proves what makes that code correct.  The
    translation is shallow: a C function is a function here, with the name it
    has in the source; the state it changes is a record that goes in and comes
    out; what it does to hardware or to another component is a call of an
    interface (a type class) or an entry of a trace.

    ** How C is modelled

    Every operation that can go wrong returns an [outcome] (below): [Ret] for a
    normal return, [Fault] for an access C must not make (NULL, freed memory, an
    index out of bounds, a division by zero), [Hang] for a loop that is not over
    within the fuel it was given.  Error codes are values: 0 or [- ENOMEM] and
    the like.  Machine integers are [Z] with the wrap-around written out
    ([wrap8], [wrap16], [wrap32], [wrap64], [sint32]).  Structures that are
    shared or linked live at addresses, in a finite map; NULL is 0.

    Sections that run with the interrupts masked or under a lock are one step,
    and what can happen between two steps is made of sequences of events that
    the theorems quantify over.  Where code does its work without masking
    anything, its shared accesses are steps of their own: [SchedSteps]
    (semaphores, exits and changes of policy), [Workqueue] (every point of
    producers, timeouts, waiters and workers), [Greybus] (the queueing, the
    transmission and the withdrawal of a request), [UniproSend] (the queueing
    and the [semaphore_up] of a client), [Tty] and [I2s].  In these theorems
    three things stay one step although nothing masks interrupts around them:
    a round of the Greybus worker, which walks a queue unlocked; an operation of
    a client, or a tick, on the watchdogs; and, in [SchedSteps], the wake of a
    waiter after the test that there is one, whose window an example shows to be
    a fault.  The other components (file systems, registries, the SVC, the
    expanders) are run one complete call after the other.

    Fuel is never an assumption of a theorem: where a definition takes fuel its
    caller passes enough, and the theorems conclude [Ret].
    - [Hashtable]: the resizing of an insertion nests one level, and the probes
      take as many steps as there are slots; where every slot has been used a
      lookup of a missing key does run for ever, and the theorems say how many
      insertions are too many;
    - [Mm]: orders go up to 31, so 32 rounds split or merge any block;
    - [Drivers]: [device_driver_probe_all] takes [l * l + 2] rounds for [l]
      waiting devices when some device is ready in every set of them, and runs
      for ever when none is: both are proved;
    - [Manifest]: a descriptor has at least one byte, the length of the manifest
      is enough;
    - [Kprintf]: a 32-bit number has at most 32 digits in any base;
    - [RingBuf], [I2s]: a walk visits each entry once, and an interrupt fills at
      most the room in the FIFO; polling registers stops at the limit of the
      source;
    - [SwitchEs2], [SwitchNcp]: the theorems hold for any fuel above the patience
      of the switch (how often it says that nothing is there yet), a parameter
      of its specification; its [slowness], the null words before a confirmation,
      is another, and is at most 12 in the theorem, since the driver misreads
      later ones that its comments allow;
    - [Svc] walks a list of events once; [Tca64xx] takes eight or more of 32 bits
      in every pass.

    ** Parts, files and sources

    Base library ([src/lib], [src/kernel]):
    - [DList]: [lib/list.c], [list.h].  A pointer heap; each operation is the
      loads and stores of the source.  Any program of list operations refines
      operations on sequences.
    - [Table], [Hashtable]: [lib/hashtable.c].  [Table] is the interface clients
      are proved against, [Hashtable] discharges it: programs of operations
      refine a finite map while there are slots that were never used, iteration
      visits each binding once, and from an empty table any run of insertions
      returns, or stops at the first table memory has no room for; tables full
      of removed slots make a lookup run for ever.  Sizes wrap at 32 bits.
    - [Memory], [Mm], [Mcache]: [kernel/mm.c], [kernel/mcache.c].  The buddy
      allocator keeps live blocks disjoint, aligned and large enough, merges
      what is freed back into whole regions and fails only when it must;
      it discharges the interface [Memory] that the object caches are proved
      against: allocated objects are disjoint, freed ones are found.
    - [Sched]: [kernel/scheduler.c], [scheduler-rr.c], [scheduler-fifo.c],
      [task.c], [lib/semaphore.c], each operation in one piece: the highest
      priority runs, round robin is fair and semaphores exclude.
    - [SchedSteps]: the same with the unmasked operations in the pieces an
      interrupt or another task can come between: a task is in one list and the
      queues hold what they should, with what goes wrong in the windows
      ([semaphore_unlock] and the wait lists) shown by examples.
    - [Watchdog], [Workqueue]: [arch/arm/arm-v7m/watchdog.c], [lib/workqueue.c].
      Timers due within 2^31 ticks fire when due, once and in order; a worker
      woken up finds work, whatever comes between two accesses to a queue.
    - [PathStr], [Kprintf]: [lib/string.c], [lib/kprintf.c].

    Files ([src/fs]):
    - [Fs], [FsDir]: [inode.c], [ramfs.c], [devfs.c], [procfs.c], [fs.c], [fd.c].
      Walking a path is following its components; what is made is found; what is
      written is read; descriptors are the least free numbers and are given back;
      a directory is listed completely.

    Drivers ([src/drivers]):
    - [Drivers], [Devnum]: [core.c].  Probing with retries; device numbers, over
      [Table].
    - [Gpio]: [gpio/core.c].  A global numbering of the lines of controllers.
    - [Tty]: [serial/tty.c], [char/core.c].  An interrupt and readers share a
      bounded queue.
    - [Greybus], [GreybusInv]: [greybus/greybus-core.c].  Operations with
      reference counts, queues of requests, time-outs, workers.  The safety
      theorem covers every interleaving of the steps of clients and sends,
      messages, time and workers, with enough buffers and no send failing after
      its answer.
    - [Manifest]: [greybus/ap/manifest.c].  The parser against a reference
      description of manifests, on any bytes.
    - [RingBuf], [I2s]: [ara/lib_ring_buf.c], [ara/ring_buf.h],
      [arch/arm/mach-tsb/i2s.c] (transmit side),
      [greybus/module/i2s.c] (receiver).  Audio messages reach the FIFO of the
      controller in order, with silence for what is missing.
    - [Irq]: [arch/arm/arm-v7m/irq.c].  Enabling, pending and nested masking of
      interrupt lines.
    - [I2c], [Tca64xx]: [i2c/core.c], [gpio/tca64xx.c].  The lines of an expander
      over its registers on a bus that may fail, and the interrupts of its
      ports, line by line; [Tca64xx] discharges the interface [Gpio] asks of a
      controller.
    - [GbGpio], [GbI2c]: [greybus/module/gpio.c], [i2c.c].  Requests of a host
      decoded, carried out by [Gpio] or [I2c] and answered; what each type of
      request asks for and answers is written down apart from the handlers.
    - [GbAp]: [greybus/ap] (svc.c, control.c, cport.c, interface.c,
      gpio.c, i2c.c).  The other end: CPorts given out and connected, and the lines of
      another module driven as if they were local.

    The network ([src/drivers/unipro], [src/apps/svc]):
    - [Unipro], [UniproSend]: [unipro/core.c], [unipro-tsb-es2.c].  CPorts of a
      bridge, their set-up, reception and interrupts; under any interleaving
      messages leave a CPort whole and in order.
    - [Switch]: [apps/svc/tsb_switch.c], over a table of switch operations.
      Connections, routes and device identifiers.
    - [SwitchEs2], [SwitchNcp]: [tsb_switch_es2.c] and the transfers of its SPI
      controller.  Frames and their status, commands, reception, start-up.
    - [Svc]: [apps/svc/svc.c], [interface.c], [drivers/greybus/svc/svc.c].  The
      events of the daemon, what the AP is told of each, and the requests the
      AP makes of it.

    A Coq name is the C name; a helper that names a part of a C function is
    introduced where it is used.  Each file opens with what its state stands for.

    ** What is not modelled

    Vendored code (the dwc2 USB controller, newlib) and code that only moves
    values between registers and structures (boards, pin muxes, clocks, UART,
    and I2C controllers, power supplies), since the state that makes such code
    right or wrong is in the hardware.  Context switches, interrupt entry and
    the MPU are assembly or depend on it.  The shells and test commands of
    [src/apps] print.  Of the parts above: the link power modes of the switch,
    whose structures the repository does not have; the driver of the first
    switch chip; the test traffic at the end of [gb_interface_init]; the
    serial driver of the AP, which is that of GPIO lines over again; the protocols of modules whose
    answers are constants or counters.  The call of the ELF loader is compiled
    out.  The memory of tasks, and the bytes behind most pointers, appear only
    where a component reads back what it wrote.  Loops that wait for an
    interrupt are steps that are enabled when the interrupt has come. *)
From Stdlib Require Export ZArith Lia.
From stdpp Require Export base tactics gmap numbers option list.

#[global] Arguments Nat.div : simpl never.
#[global] Arguments Nat.modulo : simpl never.

(** ** Outcomes of C code

    [Ret] is a normal return, [Fault] an access the C code must not make (a
    NULL or wild dereference, an out-of-range index), [Hang] a loop or a
    recursion that did not end within the fuel it was given. *)
Inductive outcome (A : Type) : Type :=
  | Ret (a : A)
  | Fault
  | Hang.
Arguments Ret {A} a.
Arguments Fault {A}.
Arguments Hang {A}.

#[export] Instance outcome_ret : MRet outcome := fun A a => Ret a.
#[export] Instance outcome_bind : MBind outcome := fun A B f m =>
  match m with
  | Ret a => f a
  | Fault => Fault
  | Hang => Hang
  end.

(** Dereferencing: an absent cell is a fault. *)
Definition deref {A : Type} (o : option A) : outcome A :=
  match o with
  | Some a => Ret a
  | None => Fault
  end.

(** Iterating a fallible step over a list, in order. *)
Fixpoint foldO {A S : Type} (f : S -> A -> outcome S) (s : S) (l : list A) : outcome S :=
  match l with
  | [] => Ret s
  | a :: l' => match f s a with
               | Ret s' => foldO f s' l'
               | Fault => Fault
               | Hang => Hang
               end
  end.

Lemma bind_ret_inv {A B} (f : A -> outcome B) (m : outcome A) (b : B) :
  m ≫= f = Ret b -> exists a, m = Ret a /\ f a = Ret b.
Proof. destruct m as [a| |]; [|done..]. by exists a. Qed.
(** What holds of the result of a computation that has one, as a test. *)
Definition returns {A} (P : A -> bool) (m : outcome A) : bool := match m with Ret a => P a | _ => false end.
Lemma returns_ret {A} (P : A -> bool) (m : outcome A) (a : A) : m = Ret a -> returns P m = true -> P a = true.
Proof. by intros ->. Qed.
Lemma returns_ex {A} (m : outcome A) : returns (fun _ => true) m = true -> exists a, m = Ret a.
Proof. destruct m as [a| |]; [by exists a|done..]. Qed.
Lemma deref_ret {A} (o : option A) (a : A) : deref o = Ret a <-> o = Some a.
Proof. destruct o; simpl; naive_solver. Qed.

(** [x ← m; f x] has returned: so has [m]. *)
Ltac bind_ret H x E :=
  apply bind_ret_inv in H as (x & E & H).

(** ** Lists *)

Lemma filter_id {A} (P : A -> Prop) `{forall x, Decision (P x)} (l : list A) :
  (forall x, x ∈ l -> P x) -> filter P l = l.
Proof.
  induction l as [|x l IH]; intros Hl; [done|].
  rewrite filter_cons_True by (apply Hl; set_solver). f_equal. apply IH. set_solver.
Qed.

Lemma filter_ext_in {A} (P Q : A -> Prop) `{forall x, Decision (P x), forall x, Decision (Q x)} (l : list A) :
  (forall x, x ∈ l -> P x <-> Q x) -> filter P l = filter Q l.
Proof.
  induction l as [|x l IH]; intros Hl; [done|]. rewrite !filter_cons.
  assert (Hx : P x <-> Q x) by (apply Hl; left). rewrite IH by (intros y Hy; apply Hl; by right).
  repeat case_decide; tauto.
Qed.

(** Removing the one occurrence of [x]. *)
Lemma filter_middle `{EqDecision A} (l1 l2 : list A) (x : A) :
  NoDup (l1 ++ x :: l2) -> filter (fun y => y <> x) (l1 ++ x :: l2) = l1 ++ l2.
Proof.
  intros Hnd. apply NoDup_app in Hnd as (_ & H1 & H2). apply NoDup_cons in H2 as [H2 _].
  rewrite filter_app, filter_cons_False by auto. f_equal; apply filter_id; set_solver.
Qed.

(** How many elements of [l] satisfy [P]. *)
Definition count_if {A} (P : A -> bool) (l : list A) : nat := length (filter P l).

Lemma count_if_app {A} (P : A -> bool) (l1 l2 : list A) :
  count_if P (l1 ++ l2) = (count_if P l1 + count_if P l2)%nat.
Proof. unfold count_if. by rewrite filter_app, length_app. Qed.

Lemma count_if_cons {A} (P : A -> bool) (x : A) (l : list A) :
  count_if P (x :: l) = ((if P x then 1 else 0) + count_if P l)%nat.
Proof. unfold count_if. rewrite filter_cons. destruct (P x); simpl; by repeat case_decide. Qed.

Lemma count_if_insert {A} (P : A -> bool) (l : list A) (i : nat) (x y : A) :
  l !! i = Some x ->
  (count_if P (<[i:=y]> l) + (if P x then 1 else 0) = count_if P l + (if P y then 1 else 0))%nat.
Proof.
  revert i; induction l as [|z l IH]; intros [|i] Hi; simplify_eq/=; rewrite !count_if_cons; [lia|].
  specialize (IH i Hi). lia.
Qed.

Lemma count_if_pos {A} (P : A -> bool) (l : list A) (i : nat) (x : A) :
  l !! i = Some x -> P x = true -> (0 < count_if P l)%nat.
Proof.
  revert i; induction l as [|z l IH]; intros [|i] Hi Hx; simplify_eq/=; rewrite count_if_cons.
  - rewrite Hx. lia.
  - specialize (IH i Hi Hx). lia.
Qed.

Lemma count_if_exists {A} (P : A -> bool) (l : list A) :
  (0 < count_if P l)%nat -> exists i x, l !! i = Some x /\ P x = true.
Proof.
  induction l as [|z l IH]; rewrite ?count_if_cons; intros Hc; [unfold count_if in Hc; simpl in Hc; lia|].
  destruct (P z) eqn:E; [by exists 0%nat, z|]. destruct IH as (i & x & ? & ?); [lia|]. by exists (S i), x.
Qed.

Lemma count_if_replicate {A} (P : A -> bool) (n : nat) (x : A) :
  count_if P (replicate n x) = if P x then n else 0%nat.
Proof.
  induction n as [|n IH]; simpl; rewrite ?count_if_cons, ?IH; destruct (P x); done.
Qed.

(** ** Machine integers: 32-bit (and 8/16/64-bit) words held in [Z] *)
#[local] Open Scope Z_scope.

Definition wrap8 (z : Z) : Z := z mod 2 ^ 8.
Definition wrap16 (z : Z) : Z := z mod 2 ^ 16.
Definition wrap32 (z : Z) : Z := z mod 2 ^ 32.
Definition wrap64 (z : Z) : Z := z mod 2 ^ 64.

(** Reading a 32-bit pattern as an [int]. *)
Definition sint32 (z : Z) : Z :=
  let w := wrap32 z in if bool_decide (w < 2 ^ 31) then w else w - 2 ^ 32.

Lemma wrap32_range z : 0 <= wrap32 z < 2 ^ 32.
Proof. apply Z.mod_pos_bound. lia. Qed.
Lemma wrap32_small z : 0 <= z < 2 ^ 32 -> wrap32 z = z.
Proof. apply Z.mod_small. Qed.
Lemma wrap16_range z : 0 <= wrap16 z < 2 ^ 16.
Proof. apply Z.mod_pos_bound. lia. Qed.
Lemma wrap16_small z : 0 <= z < 2 ^ 16 -> wrap16 z = z.
Proof. apply Z.mod_small. Qed.
Lemma wrap8_range z : 0 <= wrap8 z < 2 ^ 8.
Proof. apply Z.mod_pos_bound. lia. Qed.
Lemma wrap8_small z : 0 <= z < 2 ^ 8 -> wrap8 z = z.
Proof. apply Z.mod_small. Qed.
Lemma wrap64_range z : 0 <= wrap64 z < 2 ^ 64.
Proof. apply Z.mod_pos_bound. lia. Qed.
Lemma wrap64_small z : 0 <= z < 2 ^ 64 -> wrap64 z = z.
Proof. apply Z.mod_small. Qed.

Lemma wrap16_wrap32 z : wrap16 (wrap32 z) = wrap16 z.
Proof. unfold wrap16, wrap32. apply Z.mod_mod_divide. by exists (2 ^ 16). Qed.

Lemma sint32_range z : - 2 ^ 31 <= sint32 z < 2 ^ 31.
Proof. unfold sint32. pose proof (wrap32_range z). case_bool_decide; lia. Qed.
Lemma sint32_small z : - 2 ^ 31 <= z < 2 ^ 31 -> sint32 z = z.
Proof.
  intros Hz. unfold sint32, wrap32. destruct (decide (0 <= z)).
  - rewrite Z.mod_small by lia. case_bool_decide; lia.
  - rewrite <- (Z_mod_plus_full z 1), Z.mod_small by lia. case_bool_decide; lia.
Qed.
Lemma sint32_zero z : sint32 z = 0 <-> wrap32 z = 0.
Proof. unfold sint32. pose proof (wrap32_range z). case_bool_decide; lia. Qed.

(** Arithmetic on words: what is in range is not changed by wrapping. *)
Create HintDb words.
#[export] Hint Resolve wrap8_range wrap16_range wrap32_range wrap64_range sint32_range : words.
#[export] Hint Rewrite wrap8_small wrap16_small wrap32_small wrap64_small sint32_small using lia : words.
Ltac words := autorewrite with words.

(** ** Least witnesses and cyclic positions *)
#[local] Close Scope Z_scope.

Lemma least_nat (P : nat -> bool) (n : nat) :
  P n = true -> exists j, j <= n /\ P j = true /\ forall i, i < j -> P i = false.
Proof.
  revert P. induction n as [|n IH]; intros P Hn; [exists 0; split_and!; [lia|done|lia]|].
  destruct (P 0) eqn:E0; [exists 0; split_and!; [lia|done|lia]|].
  destruct (IH (fun i => P (S i)) Hn) as (j & ? & ? & Hl).
  exists (S j). split_and!; [lia|done|]. intros [|i] ?; [done|]. apply Hl. lia.
Qed.

(** The [j]-th slot of a cyclic walk over [sz] slots from [h]. *)
Definition cyc (sz h j : nat) : nat := (h + j) mod sz.

Lemma cyc_lt sz h j : 0 < sz -> cyc sz h j < sz.
Proof. intros. apply Nat.mod_upper_bound. lia. Qed.
Lemma cyc_0 sz h : h < sz -> cyc sz h 0 = h.
Proof. intros. unfold cyc. rewrite Nat.add_0_r. by apply Nat.mod_small. Qed.
Lemma cyc_S sz h j : cyc sz ((h + 1) mod sz) j = cyc sz h (S j).
Proof. unfold cyc. rewrite Nat.Div0.add_mod_idemp_l. f_equal. lia. Qed.
Lemma cyc_inj sz h j j' : j < sz -> j' < sz -> cyc sz h j = cyc sz h j' -> j = j'.
Proof.
  unfold cyc. intros Hj Hj' E.
  pose proof (Nat.div_mod_eq (h + j) sz). pose proof (Nat.div_mod_eq (h + j') sz).
  rewrite E in *. set (q := (h + j) / sz) in *. set (q' := (h + j') / sz) in *.
  destruct (Nat.lt_trichotomy q q') as [?|[?|?]]; [nia|nia|nia].
Qed.
Lemma cyc_surj sz h p : h < sz -> p < sz -> exists j, j < sz /\ cyc sz h j = p.
Proof.
  intros. exists ((p + (sz - h)) mod sz). split; [apply Nat.mod_upper_bound; lia|].
  unfold cyc. rewrite Nat.Div0.add_mod_idemp_r. replace (h + (p + (sz - h))) with (p + 1 * sz) by lia.
  rewrite Nat.Div0.mod_add. by apply Nat.mod_small.
Qed.

(** ** [errno] values (newlib's numbering) *)
#[local] Open Scope Z_scope.
Definition ENOENT : Z := 2.
Definition ESRCH : Z := 3.
Definition EINTR : Z := 4.
Definition EIO : Z := 5.
Definition ENXIO : Z := 6.
Definition EBADF : Z := 9.
Definition EAGAIN : Z := 11.
Definition ENOMEM : Z := 12.
Definition EBUSY : Z := 16.
Definition EEXIST : Z := 17.
Definition ENODEV : Z := 19.
Definition ENOTDIR : Z := 20.
Definition EINVAL : Z := 22.
Definition ENOSPC : Z := 28.
Definition EPIPE : Z := 32.
Definition ENOMSG : Z := 35.
Definition EOPNOTSUPP : Z := 95.
Definition EPROTO : Z := 71.
Definition ENOSYS : Z := 88.
Definition ETIMEDOUT : Z := 116.
Definition ENOTCONN : Z := 128.
Definition ENOTSUP : Z := 134.
Definition EOVERFLOW : Z := 139.
#[local] Close Scope Z_scope.
