(* ===== verification/DList.v ===== *)
(** The circular doubly linked list of [src/lib/list.c] and
    [src/include/phabos/list.h], on an explicit pointer heap: every operation
    is the C sequence of loads and stores, and the theorems relate the heap
    after it to the abstract sequence of nodes ([dlist]). *)
From S2P Require Import Prelude.
#[local] Open Scope Z_scope.

Module DList.

(** ** The heap: [struct list_head] cells at addresses *)

Record list_head := mk_list_head { prev : Z; next : Z }.

Abbreviation heap := (gmap Z list_head).

Definition get_prev (h : heap) (p : Z) : outcome Z := n ← deref (h !! p); Ret (prev n).
Definition get_next (h : heap) (p : Z) : outcome Z := n ← deref (h !! p); Ret (next n).
Definition set_prev (h : heap) (p v : Z) : outcome heap :=
  n ← deref (h !! p); Ret (<[p := mk_list_head v (next n)]> h).
Definition set_next (h : heap) (p v : Z) : outcome heap :=
  n ← deref (h !! p); Ret (<[p := mk_list_head (prev n) v]> h).

(** ** Operations *)

Definition list_init (h : heap) (head : Z) : heap := <[head := mk_list_head head head]> h.

Definition list_is_empty (h : heap) (head : Z) : outcome bool :=
  n ← get_next h head; Ret (bool_decide (head = n)).

Definition list_add (h : heap) (head node : Z) : outcome heap :=
  h ← set_next h node head;
  hp ← get_prev h head;
  h ← set_prev h node hp;
  hp ← get_prev h head;
  h ← set_next h hp node;
  set_prev h head node.

Definition list_del (h : heap) (head : Z) : outcome heap :=
  p ← get_prev h head;
  n ← get_next h head;
  h ← set_next h p n;
  n ← get_next h head;
  p ← get_prev h head;
  h ← set_prev h n p;
  h ← set_next h head head;
  set_prev h head head.

Definition list_rotate_anticlockwise (h : heap) (head : Z) : outcome heap :=
  first ← get_next h head;
  h ← list_del h head;
  fn ← get_next h first;
  list_add h fn head.

Definition list_rotate_clockwise (h : heap) (head : Z) : outcome heap :=
  last ← get_prev h head;
  h ← list_del h head;
  list_add h last head.

(** The [list_foreach] of [list_sorted_add]: the first node, in list order,
    that [node] compares strictly below, or [head] when there is none.  The
    fuel [n] bounds the number of nodes visited. *)
Fixpoint sorted_position (n : nat) (compare : Z -> Z -> Z) (h : heap)
    (head node iter : Z) : outcome Z :=
  if bool_decide (iter = head) then Ret head else
  match n with
  | O => Hang
  | S n =>
      if bool_decide (0 <= compare node iter)%Z
      then iter' ← get_next h iter; sorted_position n compare h head node iter'
      else Ret iter
  end.

Definition list_sorted_add (n : nat) (compare : Z -> Z -> Z) (h : heap)
    (head node : Z) : outcome heap :=
  first ← get_next h head;
  new_head ← sorted_position n compare h head node first;
  list_add h new_head node.

(** [list_foreach]: the next node is read from the current one after the body. *)
Fixpoint foreach_from (n : nat) (body : heap -> Z -> outcome heap) (h : heap)
    (head iter : Z) : outcome heap :=
  if bool_decide (iter = head) then Ret h else
  match n with
  | O => Hang
  | S n =>
      h ← body h iter;
      iter' ← get_next h iter;
      foreach_from n body h head iter'
  end.

Definition list_foreach (n : nat) (body : heap -> Z -> outcome heap) (h : heap)
    (head : Z) : outcome heap :=
  iter ← get_next h head; foreach_from n body h head iter.

(** [list_foreach_safe]: the successor [niter] is saved before the body runs. *)
Fixpoint foreach_safe_from (n : nat) (body : heap -> Z -> outcome heap) (h : heap)
    (head iter niter : Z) : outcome heap :=
  if bool_decide (iter = head) then Ret h else
  match n with
  | O => Hang
  | S n =>
      h ← body h iter;
      niter' ← get_next h niter;
      foreach_safe_from n body h head niter niter'
  end.

Definition list_foreach_safe (n : nat) (body : heap -> Z -> outcome heap) (h : heap)
    (head : Z) : outcome heap :=
  iter ← get_next h head;
  niter ← get_next h iter;
  foreach_safe_from n body h head iter niter.

(** ** Representation: the heap holds the ring [head, l1, ..., ln] *)

Definition nxt (h : heap) (p : Z) : option Z := next <$> h !! p.
Definition prv (h : heap) (p : Z) : option Z := prev <$> h !! p.

Definition link (h : heap) (a b : Z) : Prop := nxt h a = Some b /\ prv h b = Some a.

Fixpoint linked (h : heap) (a : Z) (l : list Z) : Prop :=
  match l with
  | [] => True
  | b :: l => link h a b /\ linked h b l
  end.

Definition dlist (h : heap) (head : Z) (l : list Z) : Prop :=
  NoDup (head :: l) /\ linked h head (l ++ [head]).

(** Everything outside the node set [ns] is left alone. *)
Definition same_outside (ns : list Z) (h h' : heap) : Prop :=
  forall p, p ∉ ns -> h' !! p = h !! p.

(** Functional counterpart of [list_sorted_add]. *)
Fixpoint sorted_insert (compare : Z -> Z -> Z) (node : Z) (l : list Z) : list Z :=
  match l with
  | [] => [node]
  | x :: l' =>
      if bool_decide (0 <= compare node x)%Z
      then x :: sorted_insert compare node l'
      else node :: l
  end.

(** ** Sequences of operations, on the heap and on the abstract list *)

Inductive list_op :=
  | OpAdd (node : Z)
  | OpDel (node : Z)
  | OpSortedAdd (node : Z)
  | OpRotateAnticlockwise
  | OpRotateClockwise.

Definition exec_op (n : nat) (compare : Z -> Z -> Z) (head : Z) (h : heap) (op : list_op) : outcome heap :=
  match op with
  | OpAdd node => list_add h head node
  | OpDel node => list_del h node
  | OpSortedAdd node => list_sorted_add n compare h head node
  | OpRotateAnticlockwise => list_rotate_anticlockwise h head
  | OpRotateClockwise => list_rotate_clockwise h head
  end.

Definition abs_op (compare : Z -> Z -> Z) (l : list Z) (op : list_op) : list Z :=
  match op with
  | OpAdd node => l ++ [node]
  | OpDel node => filter (fun x => x <> node) l
  | OpSortedAdd node => sorted_insert compare node l
  | OpRotateAnticlockwise => match l with [] => [] | x :: l' => l' ++ [x] end
  | OpRotateClockwise => match reverse l with [] => [] | x :: l' => x :: reverse l' end
  end.

(** Callers add nodes of the pool [ns] that are not in the list, and delete
    nodes that are. *)
Definition op_ok (ns : list Z) (head : Z) (l : list Z) (op : list_op) : Prop :=
  match op with
  | OpAdd node | OpSortedAdd node => node ∈ ns /\ node ∉ head :: l
  | OpDel node => node ∈ l
  | _ => True
  end.

Fixpoint ops_ok (compare : Z -> Z -> Z) (ns : list Z) (head : Z) (l : list Z) (ops : list list_op) : Prop :=
  match ops with
  | [] => True
  | op :: ops => op_ok ns head l op /\ ops_ok compare ns head (abs_op compare l op) ops
  end.

(** ** Pointer-level lemmas *)

Lemma linked_app h a l1 b l2 :
  linked h a (l1 ++ b :: l2) <-> linked h a (l1 ++ [b]) /\ linked h b l2.
Proof. revert a; induction l1 as [|x l1 IH]; intros a; simpl; [tauto|]. rewrite IH. tauto. Qed.

Lemma dlist_rotate h a l1 b l2 : dlist h a (l1 ++ b :: l2) -> dlist h b (l2 ++ a :: l1).
Proof.
  intros [Hnd Hl]. split.
  - replace (b :: l2 ++ a :: l1) with ((b :: l2) ++ (a :: l1)) by done.
    eapply NoDup_Permutation_proper; [apply (Permutation_app_comm (b :: l2))|done].
  - rewrite <- app_assoc in *. simpl in *. apply linked_app in Hl. apply linked_app. tauto.
Qed.

Lemma linked_frame h h' a l z :
  linked h a (l ++ [z]) ->
  (forall x, x ∈ a :: l -> nxt h' x = nxt h x) ->
  (forall x, x ∈ l ++ [z] -> prv h' x = prv h x) ->
  linked h' a (l ++ [z]).
Proof.
  revert a; induction l as [|x l IH]; simpl; intros a [[H1 H2] Hl] Hn Hp.
  - repeat split; [rewrite Hn|rewrite Hp]; set_solver.
  - split; [split; [rewrite Hn|rewrite Hp]; set_solver|]. apply IH; set_solver.
Qed.

Lemma nxt_cell h p v : nxt h p = Some v -> exists n, h !! p = Some n /\ next n = v.
Proof. unfold nxt. destruct (h !! p) as [n|]; simpl; naive_solver. Qed.
Lemma prv_cell h p v : prv h p = Some v -> exists n, h !! p = Some n /\ prev n = v.
Proof. unfold prv. destruct (h !! p) as [n|]; simpl; naive_solver. Qed.

Lemma get_next_nxt h p v : nxt h p = Some v -> get_next h p = Ret v.
Proof. intros (n & H & <-)%nxt_cell. unfold get_next. by rewrite H. Qed.
Lemma get_prev_prv h p v : prv h p = Some v -> get_prev h p = Ret v.
Proof. intros (n & H & <-)%prv_cell. unfold get_prev. by rewrite H. Qed.


(** A store, as an update of the [nxt]/[prv] views of the heap. *)
Definition stored (h h' : heap) (p : Z) (fn fp : Z -> option Z) : Prop :=
  (forall x, nxt h' x = fn x) /\ (forall x, prv h' x = fp x) /\ same_outside [p] h h'.

Lemma set_next_spec h p v : is_Some (nxt h p) -> exists h', set_next h p v = Ret h' /\
  stored h h' p (fun x => if decide (x = p) then Some v else nxt h x) (prv h).
Proof.
  unfold set_next, stored, same_outside, nxt, prv. intros [w Hw].
  destruct (h !! p) as [n|] eqn:Hp; [|done]. simpl. eexists; split; [done|]. split_and!.
  - intros x. destruct (decide (x = p)) as [->|]; simplify_map_eq; done.
  - intros x. destruct (decide (x = p)) as [->|]; simplify_map_eq; done.
  - intros x Hx. rewrite lookup_insert_ne; set_solver.
Qed.

Lemma set_prev_spec h p v : is_Some (prv h p) -> exists h', set_prev h p v = Ret h' /\
  stored h h' p (nxt h) (fun x => if decide (x = p) then Some v else prv h x).
Proof.
  unfold set_prev, stored, same_outside, nxt, prv. intros [w Hw].
  destruct (h !! p) as [n|] eqn:Hp; [|done]. simpl. eexists; split; [done|]. split_and!.
  - intros x. destruct (decide (x = p)) as [->|]; simplify_map_eq; done.
  - intros x. destruct (decide (x = p)) as [->|]; simplify_map_eq; done.
  - intros x Hx. rewrite lookup_insert_ne; set_solver.
Qed.

Lemma same_outside_trans l1 l2 l h1 h2 h3 :
  same_outside l1 h1 h2 -> same_outside l2 h2 h3 -> l1 ⊆ l -> l2 ⊆ l -> same_outside l h1 h3.
Proof.
  unfold same_outside. intros H1 H2 S1 S2 p Hp. rewrite H2, H1; [done| |]; set_solver.
Qed.

Lemma cell_views h p : is_Some (nxt h p) <-> is_Some (prv h p).
Proof. unfold nxt, prv. by rewrite !fmap_is_Some. Qed.

(** The last node of a ring is the predecessor of its head. *)
Lemma dlist_last h a l : dlist h a l -> prv h a = Some (default a (last l)).
Proof.
  intros [_ Hl]. destruct l as [|x l _] using rev_ind; [by destruct Hl as [[_ ?] _]|].
  rewrite last_snoc. rewrite <- app_assoc in Hl. apply linked_app in Hl as [_ [[_ ?] _]]. done.
Qed.

Lemma dlist_first h a l : dlist h a l -> nxt h a = Some (default a (head l)).
Proof. intros [_ Hl]. destruct l; by destruct Hl as [[? _] _]. Qed.

(** One store: replace the heap by its successor and record what it holds. *)
Ltac store_step :=
  lazymatch goal with
  | |- context [set_next ?h ?p ?v] =>
      let h' := fresh "h" in let E := fresh "E" in let S := fresh "S" in
      destruct (set_next_spec h p v) as (h' & E & S);
      [|rewrite E; simpl; destruct S as (?Hn & ?Hp & ?Hs)]
  | |- context [set_prev ?h ?p ?v] =>
      let h' := fresh "h" in let E := fresh "E" in let S := fresh "S" in
      destruct (set_prev_spec h p v) as (h' & E & S);
      [|rewrite E; simpl; destruct S as (?Hn & ?Hp & ?Hs)]
  end.

(** Evaluate a view of a chain of stores. *)
Ltac view := repeat first [case_decide | progress simplify_eq | done
  | match goal with
    | H : forall x, nxt ?h x = _ |- context [nxt ?h _] => rewrite H
    | H : forall x, prv ?h x = _ |- context [prv ?h _] => rewrite H
    end].


(** The views of the heap after [list_add], [z] being the old last node. *)
Lemma list_add_views h a n z :
  prv h a = Some z -> is_Some (nxt h z) -> is_Some (h !! n) -> n <> a -> n <> z ->
  exists h', list_add h a n = Ret h' /\
    (forall x, nxt h' x = if decide (x = z) then Some n else if decide (x = n) then Some a else nxt h x) /\
    (forall x, prv h' x = if decide (x = a) then Some n else if decide (x = n) then Some z else prv h x) /\
    same_outside [n; z; a] h h'.
Proof.
  intros Hz Hzn Hc Hne Hnz.
  assert (Hnc : is_Some (nxt h n)) by (unfold nxt; by rewrite fmap_is_Some).
  assert (Hnp : is_Some (prv h n)) by (by apply cell_views).
  unfold list_add. store_step; [done|].
  rewrite (get_prev_prv _ a z) by (by rewrite Hp). simpl.
  store_step; [by rewrite Hp|].
  rewrite (get_prev_prv _ a z) by (rewrite Hp0; view). simpl.
  store_step; [rewrite Hn0; view|].
  store_step; [rewrite Hp1; view|].
  eexists; split; [done|]. split_and!; [intros x; view|intros x; view|].
  unfold same_outside in *. intros p Hq. rewrite Hs2, Hs1, Hs0, Hs; set_solver.
Qed.

(** [list_add] appends: the node becomes the last of the ring. *)
Lemma list_add_spec h a l n :
  dlist h a l -> n ∉ a :: l -> is_Some (h !! n) ->
  exists h', list_add h a n = Ret h' /\ dlist h' a (l ++ [n]) /\
    same_outside (n :: a :: l) h h'.
Proof.
  intros D Hn Hc. pose proof (dlist_last _ _ _ D) as Hlast. destruct D as [Hnd Hl].
  assert (Hz : default a (last l) ∈ a :: l).
  { destruct (last l) eqn:E; simpl; [|set_solver]. apply last_Some_elem_of in E. set_solver. }
  assert (Hlk : linked h a (l ++ [a]) /\ is_Some (nxt h (default a (last l)))).
  { split; [done|]. destruct l as [|x l _] using rev_ind; simpl in *; [by destruct Hl as [[-> _] _]|].
    rewrite last_snoc. simpl. rewrite <- app_assoc in Hl. by apply linked_app in Hl as [_ [[-> _] _]]. }
  destruct Hlk as [_ Hzn].
  destruct (list_add_views h a n _ Hlast Hzn Hc) as (h' & E & Hnx & Hpv & Hso); [set_solver..|].
  exists h'. split; [done|]. split; [split|].
  - apply NoDup_cons in Hnd as [Hal Hnd]. apply NoDup_cons. split; [set_solver|].
    apply NoDup_app. split_and!; [done|set_solver|apply NoDup_singleton].
  - rewrite <- app_assoc. simpl. apply linked_app.
    split; [|simpl; split; [|done]; unfold link; rewrite Hnx, Hpv; view; set_solver].
    destruct l as [|x l _] using rev_ind; simpl in *.
    + unfold link. rewrite Hnx, Hpv. view; set_solver.
    + rewrite <- app_assoc in Hl |- *. simpl in *. apply linked_app in Hl as [Hl _].
      apply NoDup_cons in Hnd as [Ha Hnd]. apply NoDup_app in Hnd as (Hnd & Hx & _).
      rewrite last_snoc in *. simpl in *.
      apply linked_app. simpl. split.
      * eapply linked_frame; [done|intros y Hy; rewrite Hnx; view; set_solver
          |intros y Hy; rewrite Hpv; view; set_solver].
      * unfold link. rewrite Hnx, Hpv. view; set_solver.
  - unfold same_outside in *. intros p Hp. apply Hso. set_solver.
Qed.

(** The views of the heap after [list_del] of a node between [p] and [q]. *)
Lemma list_del_views h x p q :
  prv h x = Some p -> nxt h x = Some q -> is_Some (nxt h p) -> is_Some (prv h q) ->
  exists h', list_del h x = Ret h' /\
    (forall w, nxt h' w = if decide (w = x) then Some x else if decide (w = p) then Some q else nxt h w) /\
    (forall w, prv h' w = if decide (w = x) then Some x else if decide (w = q) then Some p else prv h w) /\
    same_outside [x; p; q] h h'.
Proof.
  intros Hp Hq Hpc Hqc. unfold list_del.
  rewrite (get_prev_prv _ _ _ Hp), (get_next_nxt _ _ _ Hq). simpl.
  store_step; [done|].
  rewrite (get_next_nxt _ x q) by (rewrite Hn; view).
  rewrite (get_prev_prv _ x p) by (by rewrite Hp0). simpl.
  store_step; [by rewrite Hp0|].
  store_step; [rewrite Hn0, Hn; view|].
  store_step; [rewrite Hp2, Hp1, Hp0; view|].
  eexists; split; [done|]. split_and!; [intros w; view|intros w; view|].
  unfold same_outside in *. intros w Hw. rewrite Hs2, Hs1, Hs0, Hs; set_solver.
Qed.

(** Deleting the head of a ring leaves the ring of the others, and a detached node. *)
Lemma list_del_ring h x y l :
  dlist h x (y :: l) ->
  exists h', list_del h x = Ret h' /\ dlist h' y l /\ dlist h' x [] /\
    same_outside (x :: y :: l) h h'.
Proof.
  intros D. pose proof (dlist_last _ _ _ D) as Hp. pose proof (dlist_first _ _ _ D) as Hq.
  simpl in Hq. destruct D as [Hnd Hl].
  assert (Hlast : default x (last (y :: l)) ∈ y :: l).
  { destruct (last (y :: l)) eqn:E; simpl; [by apply last_Some_elem_of in E|].
    by apply last_None in E. }
  set (p := default x (last (y :: l))) in *.
  assert (Hpc : is_Some (nxt h p)).
  { unfold p. destruct (exists_last (l := y :: l)) as (l' & z & Hl'); [done|].
    rewrite Hl' in *. rewrite last_snoc. simpl. rewrite <- app_assoc in Hl.
    by apply linked_app in Hl as [_ [[-> _] _]]. }
  destruct (list_del_views h x p y Hp Hq Hpc) as (h' & E & Hnx & Hpv & Hso).
  { by destruct Hl as [[_ ->] _]. }
  exists h'. split; [done|].
  apply NoDup_cons in Hnd as [Hx Hnd]. split; [split|split]; [done| | |].
  - assert (Hlk : linked h y (l ++ [x])) by apply Hl. clear Hl.
    destruct l as [|z l _] using rev_ind; simpl in *.
    + unfold link. rewrite Hnx, Hpv. view; set_solver.
    + unfold p in *. rewrite app_comm_cons, last_snoc in *. simpl in *.
      rewrite <- app_assoc in *. simpl in *.
      apply NoDup_cons in Hnd as [Hy Hnd]. apply NoDup_app in Hnd as (Hnd & Hz & _).
      apply linked_app in Hlk as [Hlk _]. apply linked_app. split.
      * eapply linked_frame; [done|intros w Hw; rewrite Hnx; view; set_solver
          |intros w Hw; rewrite Hpv; view; set_solver].
      * simpl. split; [|done]. unfold link. rewrite Hnx, Hpv. view; set_solver.
  - split; [apply NoDup_singleton|]. simpl. split; [|done]. unfold link. rewrite Hnx, Hpv. view.
  - unfold same_outside in *. intros w Hw. apply Hso. set_solver.
Qed.

(** [list_del] removes a node from wherever it stands in a list. *)
Lemma list_del_spec h a l1 x l2 :
  dlist h a (l1 ++ x :: l2) ->
  exists h', list_del h x = Ret h' /\ dlist h' a (l1 ++ l2) /\ dlist h' x [] /\
    same_outside (a :: l1 ++ x :: l2) h h'.
Proof.
  intros D. apply dlist_rotate in D.
  destruct l2 as [|y l2]; simpl in D;
    destruct (list_del_ring _ _ _ _ D) as (h' & E & D' & Dx & Hso); exists h'; split; [done| |done|];
    (split; [|split; [done|]]).
  - by rewrite app_nil_r.
  - unfold same_outside in *. intros p Hp. apply Hso. set_solver.
  - by apply dlist_rotate.
  - unfold same_outside in *. intros p Hp. apply Hso. set_solver.
Qed.

(** A detached node can be deleted again. *)
Lemma list_del_detached h x :
  dlist h x [] -> exists h', list_del h x = Ret h' /\ dlist h' x [] /\ same_outside [x] h h'.
Proof.
  intros D. pose proof (dlist_last _ _ _ D) as Hp. pose proof (dlist_first _ _ _ D) as Hq.
  simpl in *.
  destruct (list_del_views h x x x) as (h' & E & Hnx & Hpv & Hso); [done|done|by rewrite Hq|by rewrite Hp|].
  exists h'. split_and!; [done|split; [apply NoDup_singleton|simpl; split; [|done]]|].
  - unfold link. rewrite Hnx, Hpv. view.
  - unfold same_outside in *. intros w Hw. apply Hso. set_solver.
Qed.

(** The links of a ring depend on its own nodes only. *)
Lemma dlist_frame h h' ns a l :
  dlist h a l -> same_outside ns h h' -> (forall x, x ∈ a :: l -> x ∉ ns) -> dlist h' a l.
Proof.
  intros [Hnd Hl] Hso Hdis. split; [done|].
  eapply linked_frame; [done| |]; intros x Hx; unfold nxt, prv; rewrite Hso; set_solver.
Qed.

Lemma dlist_cell h a l x : dlist h a l -> x ∈ a :: l -> is_Some (h !! x).
Proof.
  intros D Hx.
  assert (Ha : forall b k, dlist h b k -> is_Some (h !! b)).
  { intros b k Db. apply dlist_first, nxt_cell in Db as (c & -> & _). done. }
  apply elem_of_cons in Hx as [->|Hx]; [by eapply Ha|].
  apply list_elem_of_split in Hx as (l1 & l2 & ->). eapply Ha, dlist_rotate, D.
Qed.

Lemma dlist_disjoint_head h a l : dlist h a l -> a ∉ l.
Proof. intros [Hnd _]. by apply NoDup_cons in Hnd as [? _]. Qed.

Lemma dlist_NoDup h a l : dlist h a l -> NoDup (a :: l).
Proof. by intros [Hnd _]. Qed.

#[local] Hint Resolve dlist_cell dlist_rotate : core.

(** Adding before a node [b] of the list (the ring seen from [b]). *)
Lemma list_add_before h a l1 b l2 n :
  dlist h a (l1 ++ b :: l2) -> n ∉ a :: l1 ++ b :: l2 -> is_Some (h !! n) ->
  exists h', list_add h b n = Ret h' /\ dlist h' a (l1 ++ n :: b :: l2) /\
    same_outside (n :: a :: l1 ++ b :: l2) h h'.
Proof.
  intros D Hn Hc. apply dlist_rotate in D.
  destruct (list_add_spec h b (l2 ++ a :: l1) n D) as (h' & E & D' & Hso); [set_solver|done|].
  exists h'. split; [done|]. split.
  - replace ((l2 ++ a :: l1) ++ [n]) with (l2 ++ a :: (l1 ++ [n])) in D' by by rewrite <- app_assoc.
    apply dlist_rotate in D'. by rewrite <- app_assoc in D'.
  - unfold same_outside in *. intros p Hp. apply Hso. set_solver.
Qed.

Lemma rotate_anticlockwise_spec h a x l :
  dlist h a (x :: l) ->
  exists h', list_rotate_anticlockwise h a = Ret h' /\ dlist h' a (l ++ [x]) /\
    same_outside (a :: x :: l) h h'.
Proof.
  intros D. unfold list_rotate_anticlockwise.
  rewrite (get_next_nxt h a x) by (by apply dlist_first in D). simpl.
  destruct (list_del_ring _ _ _ _ D) as (h1 & -> & D1 & Da & Hso). simpl.
  rewrite (get_next_nxt _ _ _ (dlist_first _ _ _ D1)). simpl.
  apply dlist_NoDup in D as Hnd. rewrite !NoDup_cons in Hnd. destruct Hnd as (Ha & Hx & Hl).
  assert (Hac : is_Some (h1 !! a)) by (eapply dlist_cell; [exact Da|set_solver]).
  destruct l as [|y l]; simpl.
  - destruct (list_add_spec h1 x [] a D1) as (h2 & -> & D2 & Hso2); [set_solver|done|].
    exists h2. split; [done|]. split; [by apply (dlist_rotate _ _ [] _ []) in D2|].
    eapply same_outside_trans; [exact Hso|exact Hso2|set_solver..].
  - apply (dlist_rotate _ _ []) in D1.
    destruct (list_add_spec h1 y (l ++ [x]) a D1) as (h2 & -> & D2 & Hso2); [set_solver|done|].
    exists h2. split; [done|]. split; [by apply dlist_rotate in D2|].
    eapply same_outside_trans; [exact Hso|exact Hso2|set_solver..].
Qed.

Lemma rotate_clockwise_spec h a l x :
  dlist h a (l ++ [x]) ->
  exists h', list_rotate_clockwise h a = Ret h' /\ dlist h' a (x :: l) /\
    same_outside (a :: x :: l) h h'.
Proof.
  intros D. unfold list_rotate_clockwise.
  rewrite (get_prev_prv h a x) by (apply dlist_last in D; by rewrite last_snoc in D). simpl.
  pose proof (dlist_NoDup _ _ _ D) as Hnd.
  assert (D0 : exists y k, l ++ [x] = y :: k) by (destruct l; simpl; eauto).
  destruct D0 as (y & k & E). rewrite E in D.
  destruct (list_del_ring _ _ _ _ D) as (h1 & -> & D1 & Da & Hso). simpl.
  rewrite E in Hnd. rewrite !NoDup_cons in Hnd. destruct Hnd as (Ha & Hy & Hk).
  assert (Hac : is_Some (h1 !! a)) by (eapply dlist_cell; [exact Da|set_solver]).
  assert (Dx : dlist h1 x l).
  { destruct l as [|z l]; simplify_eq/=; [done|]. by apply dlist_rotate in D1. }
  destruct (list_add_spec h1 x l a Dx) as (h2 & -> & D2 & Hso2);
    [rewrite <- E in Ha; set_solver|done|].
  exists h2. split; [done|]. split; [by apply dlist_rotate in D2|].
  rewrite <- E in Hso.
  eapply same_outside_trans; [exact Hso|exact Hso2|set_solver..].
Qed.

(** Where [list_sorted_add] inserts, seen from a point of the traversal. *)
Lemma sorted_position_spec compare h a node l1 l2 n :
  dlist h a (l1 ++ l2) -> (length l2 <= n)%nat ->
  exists l2a l2b, l2 = l2a ++ l2b /\
    sorted_position n compare h a node (default a (head l2)) = Ret (default a (head l2b)) /\
    sorted_insert compare node l2 = l2a ++ node :: l2b.
Proof.
  revert l1 n. induction l2 as [|x l2 IH]; intros l1 n D Hn; simpl in *.
  - exists [], []. split_and!; [done| |done]. destruct n; simpl; by rewrite bool_decide_eq_true_2.
  - assert (Hxa : x <> a). { apply dlist_disjoint_head in D. set_solver. }
    destruct n as [|n]; [lia|]. simpl. rewrite (bool_decide_eq_false_2 (x = a)) by done.
    case_bool_decide.
    + rewrite (get_next_nxt h x (default a (head l2))).
      2:{ apply dlist_rotate, dlist_first in D. by destruct l2. }
      simpl. destruct (IH (l1 ++ [x]) n) as (l2a & l2b & -> & E1 & E2); [by rewrite <- app_assoc|lia|].
      exists (x :: l2a), l2b. by rewrite E1, E2.
    + by exists [], (x :: l2).
Qed.

Lemma sorted_add_spec compare h a l node n :
  dlist h a l -> node ∉ a :: l -> is_Some (h !! node) -> (length l <= n)%nat ->
  exists h', list_sorted_add n compare h a node = Ret h' /\
    dlist h' a (sorted_insert compare node l) /\ same_outside (node :: a :: l) h h'.
Proof.
  intros D Hnode Hc Hn. unfold list_sorted_add.
  rewrite (get_next_nxt _ _ _ (dlist_first _ _ _ D)). simpl.
  destruct (sorted_position_spec compare h a node [] l n D Hn) as (l1 & l2 & -> & -> & ->). simpl.
  destruct l2 as [|b l2]; simpl.
  - rewrite app_nil_r in *. by apply list_add_spec.
  - by apply list_add_before.
Qed.

(** Deleting every node under [list_foreach_safe] empties the list. *)
Lemma foreach_safe_del_from n h a l :
  dlist h a l -> (length l <= n)%nat ->
  exists h', foreach_safe_from n list_del h a (default a (head l)) (default a (head (tail l))) = Ret h' /\
    dlist h' a [] /\ (forall x, x ∈ l -> dlist h' x []) /\ same_outside (a :: l) h h'.
Proof.
  revert h n. induction l as [|x l IH]; intros h n D Hn; simpl in *.
  - exists h. destruct n; simpl; rewrite bool_decide_eq_true_2 by done; (split_and!; [done|done|set_solver|done]).
  - assert (Hnd := dlist_NoDup _ _ _ D). rewrite !NoDup_cons in Hnd. destruct Hnd as (Ha & Hx & Hl).
    destruct n as [|n]; [lia|]. simpl. rewrite bool_decide_eq_false_2 by set_solver.
    destruct (list_del_spec h a [] x l D) as (h1 & -> & D1 & Dx & Hso). simpl in *.
    assert (Hnx : nxt h1 (default a (head l)) = Some (default a (head (tail l)))).
    { destruct l as [|y l]; simpl; [by apply dlist_first in D1|].
      apply (dlist_rotate _ _ []), dlist_first in D1. by destruct l. }
    rewrite (get_next_nxt _ _ _ Hnx). simpl.
    destruct (IH h1 n D1) as (h2 & -> & D2 & Hall & Hso2); [lia|].
    exists h2. split_and!; [done|done| |].
    + intros y [->|Hy]%elem_of_cons; [|by apply Hall].
      eapply dlist_frame; [exact Dx|exact Hso2|set_solver].
    + eapply same_outside_trans; [exact Hso|exact Hso2|set_solver..].
Qed.

Lemma list_is_empty_spec h a l :
  dlist h a l -> list_is_empty h a = Ret (bool_decide (l = [])).
Proof.
  intros D. unfold list_is_empty. rewrite (get_next_nxt _ _ _ (dlist_first _ _ _ D)). simpl.
  f_equal. apply bool_decide_ext. apply dlist_disjoint_head in D.
  destruct l; simpl; set_solver.
Qed.

(** ** Simulation of operation sequences *)

Lemma list_add_self h a : dlist h a [] -> exists h', list_add h a a = Ret h' /\ dlist h' a [] /\ same_outside [a] h h'.
Proof.
  intros D. pose proof (dlist_last _ _ _ D) as Hp. pose proof (dlist_first _ _ _ D) as Hq. simpl in *.
  unfold list_add. store_step; [by rewrite Hq|].
  rewrite (get_prev_prv _ a a) by (by rewrite Hp0). simpl.
  store_step; [by rewrite Hp0, Hp|].
  rewrite (get_prev_prv _ a a) by (rewrite Hp1; view). simpl.
  store_step; [rewrite Hn0, Hn; view|].
  store_step; [rewrite Hp2, Hp1; view|].
  eexists; split; [done|]. split.
  - split; [apply NoDup_singleton|]. simpl. split; [|done]. split; view.
  - unfold same_outside in *. intros w Hw. rewrite Hs2, Hs1, Hs0, Hs; set_solver.
Qed.

Lemma sorted_insert_elem compare n l x : x ∈ sorted_insert compare n l <-> x = n \/ x ∈ l.
Proof. induction l as [|y l IH]; simpl; [set_solver|]. case_bool_decide; set_solver. Qed.

Lemma abs_op_pool compare ns a l op :
  op_ok ns a l op -> l ⊆ ns -> abs_op compare l op ⊆ ns.
Proof.
  destruct op; simpl; intros Hok Hl x.
  - set_solver.
  - rewrite list_elem_of_filter. set_solver.
  - rewrite sorted_insert_elem. set_solver.
  - destruct l; set_solver.
  - destruct (reverse l) as [|y k] eqn:E; [set_solver|].
    assert (Hr : forall z, z ∈ l <-> z ∈ y :: k) by (intros z; by rewrite <- E, elem_of_reverse).
    rewrite elem_of_cons, elem_of_reverse. set_solver.
Qed.

Lemma exec_op_spec n compare h a l ns op :
  dlist h a l -> (forall x, x ∈ ns -> is_Some (h !! x)) -> op_ok ns a l op -> (length l <= n)%nat ->
  exists h', exec_op n compare a h op = Ret h' /\ dlist h' a (abs_op compare l op) /\
    (forall x, x ∈ ns -> is_Some (h' !! x)).
Proof.
  intros D Hns Hok Hn.
  assert (Hcells : forall h' l' k, dlist h' a l' -> same_outside k h h' ->
    (forall y, y ∈ k -> is_Some (h' !! y) \/ y ∈ a :: l') -> forall x, x ∈ ns -> is_Some (h' !! x)).
  { intros h' l' k D' Hso Hk x Hx. destruct (decide (x ∈ k)) as [Hxk|Hxk].
    - destruct (Hk x Hxk); [done|]. by eapply dlist_cell.
    - rewrite Hso by done. by apply Hns. }
  destruct op as [x|x|x| |]; simpl in *.
  - destruct Hok as [Hx Hf]. destruct (list_add_spec h a l x D Hf (Hns _ Hx)) as (h' & E & D' & Hso).
    exists h'. split_and!; [done|done|]. eapply Hcells; [done..|]. set_solver.
  - apply list_elem_of_split in Hok as (l1 & l2 & ->).
    destruct (list_del_spec _ _ _ _ _ D) as (h' & E & D' & Dx & Hso).
    exists h'. rewrite filter_middle by (eapply NoDup_cons_1_2, dlist_NoDup, D).
    split_and!; [done|done|]. eapply Hcells; [done..|]. intros y Hy.
    assert (is_Some (h' !! x)) by (eapply dlist_cell; [done|set_solver]).
    destruct (decide (y = x)) as [->|]; set_solver.
  - destruct Hok as [Hx Hf].
    destruct (sorted_add_spec compare h a l x n D Hf (Hns _ Hx) Hn) as (h' & E & D' & Hso).
    exists h'. split_and!; [done|done|]. eapply Hcells; [done..|]. intros y Hy. right.
    rewrite elem_of_cons, sorted_insert_elem. set_solver.
  - destruct l as [|x l].
    + unfold list_rotate_anticlockwise. rewrite (get_next_nxt _ _ _ (dlist_first _ _ _ D)). simpl.
      destruct (list_del_detached _ _ D) as (h1 & -> & D1 & Hso). simpl.
      rewrite (get_next_nxt _ _ _ (dlist_first _ _ _ D1)). simpl.
      destruct (list_add_self _ _ D1) as (h2 & -> & D2 & Hso2). exists h2. split_and!; [done|done|].
      eapply Hcells; [done|eapply same_outside_trans; [exact Hso|exact Hso2|reflexivity..]|set_solver].
    + destruct (rotate_anticlockwise_spec _ _ _ _ D) as (h' & E & D' & Hso).
      exists h'. split_and!; [done|done|]. eapply Hcells; [done..|]. set_solver.
  - destruct l as [|x l _] using rev_ind; simpl.
    + unfold list_rotate_clockwise. rewrite (get_prev_prv _ _ _ (dlist_last _ _ _ D)). simpl.
      destruct (list_del_detached _ _ D) as (h1 & -> & D1 & Hso). simpl.
      destruct (list_add_self _ _ D1) as (h2 & -> & D2 & Hso2). exists h2. split_and!; [done|done|].
      eapply Hcells; [done|eapply same_outside_trans; [exact Hso|exact Hso2|reflexivity..]|set_solver].
    + destruct (rotate_clockwise_spec _ _ _ _ D) as (h' & E & D' & Hso).
      exists h'. rewrite reverse_snoc, reverse_involutive. split_and!; [done|done|].
      eapply Hcells; [done..|]. set_solver.
Qed.

(** C1. Any sequence of [list_add], [list_del], [list_sorted_add] and the two
    rotations, run on the pointer heap, returns and leaves exactly the ring of
    the abstract sequence that the same operations compute on lists: append at
    the tail, remove, insert before the first node compared above, move the
    first node to the end, move the last node to the front. *)
Theorem list_ops_refine compare h a l ns ops :
  dlist h a l -> l ⊆ ns -> (forall x, x ∈ ns -> is_Some (h !! x)) ->
  ops_ok compare ns a l ops ->
  exists h', foldO (exec_op (length ns) compare a) h ops = Ret h' /\
    dlist h' a (foldl (abs_op compare) l ops).
Proof.
  revert h l. induction ops as [|op ops IH]; intros h l D Hl Hns Hok; simpl; [by exists h|].
  destruct Hok as [Hop Hok].
  assert (Hlen : (length l <= length ns)%nat).
  { apply submseteq_length, NoDup_submseteq; [|done]. by apply dlist_NoDup, NoDup_cons in D as [_ ?]. }
  destruct (exec_op_spec (length ns) compare h a l ns op D Hns Hop Hlen) as (h' & -> & D' & Hns').
  apply IH; [done| |done|done]. by eapply abs_op_pool.
Qed.

Lemma list_ops_refine_witness :
  let h := list_init (list_init (list_init (list_init ∅ 10) 1) 2) 3 in
  let ops := [OpAdd 2; OpSortedAdd 1; OpSortedAdd 3; OpRotateAnticlockwise; OpDel 3] in
  exists h', foldO (exec_op 3 Z.sub 10) h ops = Ret h' /\ dlist h' 10 [2; 1].
Proof.
  intros h ops.
  apply (list_ops_refine Z.sub h 10 [] [1; 2; 3] ops).
  - split; [apply NoDup_singleton|]. repeat split.
  - set_solver.
  - intros x Hx. repeat (apply elem_of_cons in Hx as [->|Hx]; [vm_compute; by eexists|]). set_solver.
  - simpl. repeat case_bool_decide; try lia. set_solver.
Defined.

End DList.
