(* ===== verification/Table.v ===== *)
(** The interface between the hash table of [src/lib/hashtable.c] and its
    clients (the file-descriptor table of a task, the task table, the device
    and driver tables, the Greybus CPort maps): a finite map with a NULL value
    and a {e room}, the number of insertions of new keys the table is known to
    accept while every lookup still terminates. *)
From S2P Require Import Prelude.

(** The NULL pointer of a type of [void *] values. *)
Class Null (V : Type) := null : V.

Class TableOps (K V T : Type) := {
  tbl_get : T -> K -> outcome V;
  tbl_has : T -> K -> outcome bool;
  tbl_add : T -> K -> V -> outcome T;
  tbl_remove : T -> K -> outcome T;
}.

Class TableSpec (K V T : Type) `{Countable K, Null V, EqDecision V, TableOps K V T} := {
  tbl_key_ok : K -> Prop;
  tbl_rep : T -> gmap K V -> nat -> Prop;
  tbl_rep_weaken t m r r' : tbl_rep t m r -> (r' <= r)%nat -> tbl_rep t m r';
  tbl_get_ok t m r k : tbl_rep t m (S r) -> tbl_key_ok k ->
    tbl_get t k = Ret (default null (m !! k));
  tbl_has_ok t m r k : tbl_rep t m (S r) -> tbl_key_ok k ->
    tbl_has t k = Ret (bool_decide (default null (m !! k) <> null));
  tbl_add_ok t m r k v : tbl_rep t m (S r) -> tbl_key_ok k ->
    exists t', tbl_add t k v = Ret t' /\ tbl_rep t' (<[k:=v]> m) r;
  tbl_remove_ok t m r k : tbl_rep t m (S r) -> tbl_key_ok k ->
    exists t', tbl_remove t k = Ret t' /\ tbl_rep t' (delete k m) (S r);
}.
