(* ===== verification/Memory.v ===== *)
(** What the memory allocator promises its clients: [kmalloc], [kfree] and
    [page_alloc] over a set of live blocks.  [Mm] discharges it. *)
From S2P Require Import Prelude.
#[local] Open Scope Z_scope.

(** The bytes [kmalloc] keeps before what it returns. *)
Definition block_header : Z := 16.

(** NULL as [page_alloc] hands it on: the header's size is taken from it. *)
Definition page_null : Z := 2 ^ 32 - 16.

Class MemOps (M : Type) := {
  mem_kmalloc : M -> Z -> Z -> outcome (M * Z);
  mem_kfree : M -> Z -> outcome M;
  mem_page_alloc : M -> Z -> Z -> outcome (M * Z);
  mem_page_free : M -> Z -> Z -> outcome M;
}.

(** [mem_rep m A]: the live blocks are those of [A], by address and order. *)
Class MemSpec (M : Type) `{MemOps M} := {
  mem_rep : M -> gmap Z nat -> Prop;
  (** some free block can serve [page_alloc flags order] *)
  mem_has_pages : M -> Z -> Z -> Prop;
  mem_disjoint m A b o b' o' :
    mem_rep m A -> A !! b = Some o -> A !! b' = Some o' -> b <> b' ->
    b + 2 ^ Z.of_nat o <= b' \/ b' + 2 ^ Z.of_nat o' <= b;
  mem_bounds m A b o :
    mem_rep m A -> A !! b = Some o -> 0 < b /\ b + 2 ^ Z.of_nat o <= 2 ^ 32;
  mem_kmalloc_spec m A size fl :
    mem_rep m A -> 0 < size < 2 ^ 32 - block_header ->
    exists m' p, mem_kmalloc m size fl = Ret (m', p) /\
      ((p = 0 /\ mem_rep m' A) \/
       exists b o, p = b + block_header /\ A !! b = None /\ size + block_header <= 2 ^ Z.of_nat o /\
         mem_rep m' (<[b := o]> A));
  mem_page_alloc_spec m A fl (order : nat) :
    mem_rep m A -> (order <= 23)%nat ->
    exists m' b, mem_page_alloc m fl (Z.of_nat order) = Ret (m', b) /\
      ((~ mem_has_pages m fl (Z.of_nat order) /\ b = page_null /\ mem_rep m' A) \/
       (0 < b /\ A !! b = None /\ mem_rep m' (<[b := (8 + order)%nat]> A)));
  mem_kfree_spec m A b o :
    mem_rep m A -> A !! b = Some o ->
    exists m', mem_kfree m (b + block_header) = Ret m' /\ mem_rep m' (delete b A);
}.

(** ** The blocks of a client

    A client holds the blocks at the keys of [bs] (as [kmalloc] returned them),
    and whatever [A0] holds besides is not touched. *)
Section Holds.
Context {M : Type} `{MemSpec M} {B : Type}.
Implicit Types (bs : gmap Z B).

Definition mem_holds (A0 : gmap Z nat) (m : M) bs : Prop :=
  exists A, mem_rep m A /\
    forall b, if decide (is_Some (bs !! (b + block_header))) then is_Some (A !! b) /\ A0 !! b = None else A !! b = A0 !! b.

Lemma mem_holds_free A0 m bs p b :
  mem_holds A0 m bs -> bs !! p = Some b -> p <> 0 /\ exists m', mem_kfree m p = Ret m' /\ mem_holds A0 m' (delete p bs).
Proof.
  intros (A & Hr & Hb) Hp. pose proof (Hb (p - block_header)) as Hp0.
  replace (p - block_header + block_header) with p in Hp0 by lia.
  rewrite decide_True in Hp0 by eauto. destruct Hp0 as [[o Ho] Hn].
  split; [pose proof (mem_bounds m A _ o Hr Ho); unfold block_header in *; lia|].
  destruct (mem_kfree_spec m A _ o Hr Ho) as (m' & E' & Hr').
  replace (p - block_header + block_header) with p in E' by lia. exists m'. split; [done|].
  exists (delete (p - block_header) A). split; [done|]. intros x. pose proof (Hb x) as Hx.
  destruct (decide (x = p - block_header)) as [->|Hne].
  - replace (p - block_header + block_header) with p by lia.
    rewrite decide_False by (rewrite lookup_delete_eq; by intros [??]). by rewrite lookup_delete_eq.
  - rewrite lookup_delete_ne by lia. rewrite (lookup_delete_ne A) by done. done.
Qed.

Lemma mem_holds_alloc A0 m bs size fl :
  mem_holds A0 m bs -> 0 < size < 2 ^ 32 - block_header ->
  exists m' p, mem_kmalloc m size fl = Ret (m', p) /\
    ((p = 0 /\ mem_holds A0 m' bs) \/
     (0 < p /\ bs !! p = None /\ forall b, mem_holds A0 m' (<[p := b]> bs))).
Proof.
  intros (A & Hr & Hb) Hs. destruct (mem_kmalloc_spec m A size fl Hr Hs) as (m' & p & E' & Hc).
  exists m', p. split; [done|]. destruct Hc as [[-> Hr']|(b0 & o & -> & Hn & _ & Hr')].
  - left. split; [done|]. by exists A.
  - right. pose proof (mem_bounds m' _ b0 o Hr' (lookup_insert_eq _ _ _)) as Hpos.
    split; [unfold block_header; lia|]. pose proof (Hb b0) as Hb0.
    assert (Hbn : bs !! (b0 + block_header) = None).
    { destruct (bs !! (b0 + block_header)) eqn:Eb; [|done]. rewrite decide_True in Hb0 by eauto. rewrite Hn in Hb0.
      by destruct Hb0 as [[??] _]. }
    split; [done|]. rewrite decide_False in Hb0 by (rewrite Hbn; by intros [??]).
    intros b. exists (<[b0 := o]> A). split; [done|]. intros x. pose proof (Hb x) as Hx.
    destruct (decide (x = b0)) as [->|Hne].
    + rewrite decide_True by (rewrite lookup_insert_eq; eauto). rewrite lookup_insert_eq. split; [eauto|congruence].
    + rewrite lookup_insert_ne by lia. by rewrite (lookup_insert_ne A) by done.
Qed.
End Holds.
