(* ===== verification/Hashtable.v ===== *)
(** The open-addressing hash table of [src/lib/hashtable.c]. *)
From stdpp Require Import strings.
From S2P Require Import Prelude Table.

Module Hashtable.

Definition HASHTABLE_MIN_SIZE : nat := 8.

(** [ht->hash] and [ht->compare]; the hash reads [ht->size] only. *)
Class HashKey (K : Type) := {
  hash : nat -> K -> nat;
  compare : K -> K -> Z;
}.

(** What the table needs from them, on the keys its callers use. *)
Class HashKeyOk (K : Type) `{HashKey K} := {
  key_ok : K -> Prop;
  hash_lt n k : 0 < n -> hash n k < n;
  compare_eq k1 k2 : key_ok k1 -> key_ok k2 -> compare k1 k2 = 0%Z <-> k1 = k2;
}.

Section hashtable.
Context {K V : Type} `{!HashKey K, !Null V}.

Record node := mk_node {
  key : option K;       (* NULL in a free slot *)
  value : V;
  is_used : bool;
  is_deleted : bool;
}.

Record hashtable := mk_hashtable {
  table : option (list node);   (* NULL when its allocation failed *)
  size : nat;
  count : nat;
}.

(** A slot of freshly zeroed memory. *)
Definition zero_node : node := mk_node None null false false.

(** [sizeof(struct hashtable_node)]: two pointers and two booleans. *)
Definition sizeof_node : Z := 12.

(** [size * sizeof(struct hashtable_node)], on 32 bits, and the slots that fit
    in a block of that size. *)
Definition table_bytes (sz : nat) : Z := wrap32 (Z.of_nat sz * sizeof_node).
Definition slots_of (bytes : Z) : nat := Z.to_nat (bytes / sizeof_node).

(** [ht->size * 2], on 32 bits. *)
Definition double (sz : nat) : nat := Z.to_nat (wrap32 (Z.of_nat sz * 2)).

(** The loop condition of [hashtable_get_node]: whether slot [nd] is passed over. *)
Definition key_differs (nd : node) (k : K) : bool :=
  match key nd with
  | Some k' => bool_decide (compare k' k <> 0%Z)
  | None => true
  end.

Definition skips (nd : node) (k : K) (find_deleted : bool) : bool :=
  (is_used nd && key_differs nd k) || (is_deleted nd && negb find_deleted).

Fixpoint probe (n : nat) (tbl : list node) (sz : nat) (k : K) (find_deleted : bool) (h : nat) : outcome nat :=
  nd ← deref (tbl !! h);
  if skips nd k find_deleted then
    match n with
    | O => Hang
    | S n => probe n tbl sz k find_deleted ((h + 1) mod sz)
    end
  else Ret h.

(** The index of the slot; [size] iterations visit every slot. *)
Definition hashtable_get_node (ht : hashtable) (k : K) (find_deleted : bool) : outcome nat :=
  tbl ← deref (table ht);
  probe (size ht) tbl (size ht) k find_deleted (hash (size ht) k).

(** [hashtable_add] up to the load check. *)
Definition hashtable_put (ht : hashtable) (k : K) (v : V) : outcome hashtable :=
  i ← hashtable_get_node ht k false;
  tbl ← deref (table ht);
  nd ← deref (tbl !! i);
  i ← (if is_used nd then Ret i else hashtable_get_node ht k true);
  nd ← deref (tbl !! i);
  let tbl' := <[i := mk_node (Some k) v true false]> tbl in
  Ret (mk_hashtable (Some tbl') (size ht) (if is_used nd then count ht else count ht + 1)).

(** [hashtable_resize], given the [hashtable_add] it calls and whether [zalloc]
    serves a block of [n] bytes. *)
Definition hashtable_resize (add : hashtable -> K -> V -> outcome hashtable)
    (alloc : Z -> bool) (ht : hashtable) (sz : nat) : outcome hashtable :=
  old ← deref (table ht);
  let bytes := table_bytes sz in
  let fresh := mk_hashtable (if alloc bytes then Some (replicate (slots_of bytes) zero_node) else None) sz 0 in
  foldO (fun t nd =>
    if is_used nd then k ← deref (key nd); add t k (value nd) else Ret t) fresh old.

(** [hashtable_add] and [hashtable_resize] are mutually recursive; [n] bounds
    the nesting of resizes. *)
Fixpoint hashtable_add_n (n : nat) (alloc : Z -> bool) (ht : hashtable) (k : K) (v : V) : outcome hashtable :=
  ht ← hashtable_put ht k v;
  if bool_decide (size ht / 2 <= count ht)
  then match n with
       | O => Hang
       | S n => hashtable_resize (hashtable_add_n n alloc) alloc ht (double (size ht))
       end
  else Ret ht.

Definition hashtable_add := hashtable_add_n 1.

(** Allocation failures of the two [kzalloc]s return NULL. *)
Definition hashtable_create (alloc_ht : bool) (alloc : Z -> bool) : option hashtable :=
  if alloc_ht then
    let bytes := table_bytes HASHTABLE_MIN_SIZE in
    if alloc bytes
    then Some (mk_hashtable (Some (replicate (slots_of bytes) zero_node)) HASHTABLE_MIN_SIZE 0)
    else None
  else None.

Definition hashtable_get (ht : hashtable) (k : K) : outcome V :=
  i ← hashtable_get_node ht k false;
  tbl ← deref (table ht);
  nd ← deref (tbl !! i);
  Ret (if is_used nd then value nd else null).

Definition hashtable_has `{EqDecision V} (ht : hashtable) (k : K) : outcome bool :=
  v ← hashtable_get ht k; Ret (bool_decide (v <> null)).

Definition hashtable_remove (ht : hashtable) (k : K) : outcome hashtable :=
  i ← hashtable_get_node ht k false;
  tbl ← deref (table ht);
  nd ← deref (tbl !! i);
  if is_used nd
  then Ret (mk_hashtable (Some (<[i := mk_node None null false true]> tbl)) (size ht) (count ht - 1))
  else Ret ht.

(** [struct hashtable_iterator] *)
Record iterator := mk_iterator {
  iter_i : nat;
  iter_key : option K;
  iter_value : V;
}.

Definition HASHTABLE_ITERATOR_INIT : iterator := mk_iterator 0 None null.

(** The [for] loop of [hashtable_iterate]: the first used slot at or after [i]. *)
Fixpoint next_used (tbl : list node) (i : nat) : nat :=
  match tbl with
  | [] => i
  | nd :: tbl => if is_used nd then i else next_used tbl (S i)
  end.

Definition hashtable_iterate (ht : hashtable) (iter : iterator) : outcome (bool * iterator) :=
  if bool_decide (size ht <= iter_i iter) then Ret (false, iter) else
  tbl ← deref (table ht);
  let i := next_used (drop (iter_i iter) tbl) (iter_i iter) in
  if bool_decide (size ht <= i) then Ret (false, mk_iterator (i + 1) (iter_key iter) (iter_value iter))
  else nd ← deref (tbl !! i); Ret (true, mk_iterator (i + 1) (key nd) (value nd)).

(** The clients' [while (hashtable_iterate(ht, &iter))] loop, collecting what
    each round yields. *)
Fixpoint iterate_all (n : nat) (ht : hashtable) (iter : iterator) : outcome (list (option K * V)) :=
  r ← hashtable_iterate ht iter;
  let '(more, iter) := (r : bool * iterator) in
  if more then
    match n with
    | O => Hang
    | S n => rest ← iterate_all n ht iter; Ret ((iter_key iter, iter_value iter) :: rest)
    end
  else Ret [].

End hashtable.

Arguments node : clear implicits.
Arguments hashtable : clear implicits.
Arguments iterator : clear implicits.

(** ** Key types *)

(** [hash_uint], [hashtable_key_compare_uint]: the pointer is the number. *)
Definition hash_uint (sz : nat) (k : Z) : nat := Z.to_nat (wrap32 k mod Z.of_nat sz).
Definition hashtable_key_compare_uint (k1 k2 : Z) : Z := sint32 (wrap32 k1 - wrap32 k2).

(** A C string is its characters before the NUL. *)
Definition char_val (c : Ascii.ascii) : Z := Z.of_N (Ascii.N_of_ascii c).

Fixpoint string_sum (s : string) (h : Z) : Z :=
  match s with
  | EmptyString => h
  | String c s => string_sum s (wrap32 (h + char_val c))
  end.

Definition hash_string (sz : nat) (k : string) : nat := Z.to_nat (string_sum k 0 mod Z.of_nat sz).

(** [strcmp]: the difference at the first mismatch. *)
Fixpoint strcmp (s1 s2 : string) : Z :=
  match s1, s2 with
  | EmptyString, EmptyString => 0
  | EmptyString, String c _ => - char_val c
  | String c _, EmptyString => char_val c
  | String c s1, String d s2 =>
      if bool_decide (c = d) then strcmp s1 s2 else char_val c - char_val d
  end.

Definition hashtable_key_compare_string (k1 k2 : string) : Z := strcmp k1 k2.

#[export] Instance uint_key : HashKey Z := {
  hash := hash_uint; compare := hashtable_key_compare_uint }.
#[export] Instance string_key : HashKey string := {
  hash := hash_string; compare := hashtable_key_compare_string }.

(** ** Programs over a table, and their meaning on finite maps *)

Inductive table_op (K V : Type) :=
  | OpAdd (k : K) (v : V)
  | OpGet (k : K)
  | OpHas (k : K)
  | OpRemove (k : K).
Arguments OpAdd {K V} k v.
Arguments OpGet {K V} k.
Arguments OpHas {K V} k.
Arguments OpRemove {K V} k.

(** What a caller sees. *)
Inductive observation (V : Type) :=
  | Done
  | Got (v : V)
  | Has (b : bool).
Arguments Done {V}.
Arguments Got {V} v.
Arguments Has {V} b.

Definition op_key {K V} (op : table_op K V) : K :=
  match op with OpAdd k _ | OpGet k | OpHas k | OpRemove k => k end.

Definition is_add {K V} (op : table_op K V) : bool :=
  match op with OpAdd _ _ => true | _ => false end.

Definition run_op {K V} `{HashKey K, Null V, EqDecision V} (alloc : Z -> bool)
    (s : hashtable K V * list (observation V)) (op : table_op K V) :
    outcome (hashtable K V * list (observation V)) :=
  let '(ht, obs) := s in
  match op with
  | OpAdd k v => ht ← hashtable_add alloc ht k v; Ret (ht, obs ++ [Done])
  | OpGet k => v ← hashtable_get ht k; Ret (ht, obs ++ [Got v])
  | OpHas k => b ← hashtable_has ht k; Ret (ht, obs ++ [Has b])
  | OpRemove k => ht ← hashtable_remove ht k; Ret (ht, obs ++ [Done])
  end.

Definition spec_op {K V} `{Countable K, Null V, EqDecision V}
    (s : gmap K V * list (observation V)) (op : table_op K V) : gmap K V * list (observation V) :=
  let '(m, obs) := s in
  match op with
  | OpAdd k v => (<[k := v]> m, obs ++ [Done])
  | OpGet k => (m, obs ++ [Got (default null (m !! k))])
  | OpHas k => (m, obs ++ [Has (bool_decide (default null (m !! k) <> null))])
  | OpRemove k => (delete k m, obs ++ [Done])
  end.

(** ** Invariant *)

Section invariant.
Context {K V : Type} `{Countable K, !HashKey K, !HashKeyOk K, !Null V}.
Implicit Types (tbl : list (node K V)) (m : gmap K V) (ht : hashtable K V).

(** Slot [i] is the [j]-th probed for [k], and the probe passes over the
    earlier ones. *)
Definition reaches tbl (k : K) (i : nat) : Prop :=
  exists j, j < length tbl /\ i = cyc (length tbl) (hash (length tbl) k) j /\
    forall j', j' < j -> exists nd, tbl !! cyc (length tbl) (hash (length tbl) k) j' = Some nd /\
      skips nd k false = true.

Definition slot_ok tbl m (i : nat) (nd : node K V) : Prop :=
  is_used nd = true -> is_deleted nd = false /\
  exists k, key nd = Some k /\ key_ok k /\ m !! k = Some (value nd) /\ reaches tbl k i.

Definition tbl_wf tbl m : Prop :=
  (forall i nd, tbl !! i = Some nd -> slot_ok tbl m i nd) /\
  (forall k v, m !! k = Some v -> exists i nd, tbl !! i = Some nd /\ is_used nd = true /\ key nd = Some k).

Definition is_clean (nd : node K V) : bool := negb (is_used nd) && negb (is_deleted nd).

(** The number of slots never used since the table was allocated. *)
Definition clean ht : nat :=
  match table ht with Some tbl => count_if is_clean tbl | None => 0 end.

(** Everything but the load bound. *)
Definition ht_wf ht m : Prop :=
  exists tbl, table ht = Some tbl /\ size ht = length tbl /\ 2 <= length tbl /\
    tbl_wf tbl m /\ count ht = count_if is_used tbl /\ count ht = base.size m.

(** The sizes for which neither [size * 2] nor the size in bytes of the doubled
    table wraps. *)
Definition max_size : Z := 2 ^ 28.

Definition ht_inv ht m : Prop :=
  ht_wf ht m /\ count ht < size ht / 2 /\ (Z.of_nat (size ht) <= max_size)%Z.

(** With fewer bindings than this a table never grows past [max_size]. *)
Definition max_bindings : Z := 2 ^ 26.

End invariant.

(** ** Probing *)

Section lemmas.
Context {K V : Type} `{Countable K, !HashKey K, !HashKeyOk K, !Null V}.
Implicit Types (tbl : list (node K V)) (m : gmap K V) (ht : hashtable K V).

Lemma key_differs_iff (nd : node K V) k k' :
  key nd = Some k' -> key_ok k' -> key_ok k -> key_differs nd k = bool_decide (k' <> k).
Proof.
  intros E H1 H2. unfold key_differs. rewrite E. apply bool_decide_ext.
  by rewrite compare_eq.
Qed.

Lemma probe_spec tbl k fd n h j nd :
  h < length tbl ->
  (forall j', j' < j -> exists nd', tbl !! cyc (length tbl) h j' = Some nd' /\ skips nd' k fd = true) ->
  tbl !! cyc (length tbl) h j = Some nd -> skips nd k fd = false -> j <= n ->
  probe n tbl (length tbl) k fd h = Ret (cyc (length tbl) h j).
Proof.
  revert n h. induction j as [|j IH]; intros n h Hh Hsk Hnd Hst Hn.
  - rewrite cyc_0 in * by done. destruct n; simpl; rewrite Hnd; simpl; by rewrite Hst.
  - destruct (Hsk 0) as (nd' & E & Hs); [lia|]. rewrite cyc_0 in E by done.
    destruct n as [|n]; [lia|]. simpl. rewrite E. simpl. rewrite Hs.
    rewrite <- cyc_S in *. apply IH; [apply Nat.mod_upper_bound; lia| |done|done|lia].
    intros j' Hj'. rewrite cyc_S. apply Hsk. lia.
Qed.

(** When every slot is passed over, no amount of fuel makes the loop return. *)
Lemma probe_hangs tbl k fd n h :
  h < length tbl -> (forall i nd, tbl !! i = Some nd -> skips nd k fd = true) ->
  probe n tbl (length tbl) k fd h = Hang.
Proof.
  revert h. induction n as [|n IH]; intros h Hh Hall; simpl;
    (destruct (lookup_lt_is_Some_2 tbl h Hh) as [nd Hnd]; rewrite Hnd; simpl; rewrite (Hall _ _ Hnd)).
  - done.
  - apply IH; [|done]. apply Nat.mod_upper_bound. lia.
Qed.

(** The first slot where the probe for [k] stops, if some slot stops it. *)
Lemma first_stop tbl k fd p nd :
  2 <= length tbl -> tbl !! p = Some nd -> skips nd k fd = false ->
  exists j nd', j < length tbl /\ tbl !! cyc (length tbl) (hash (length tbl) k) j = Some nd' /\
    skips nd' k fd = false /\
    forall j', j' < j -> exists nd'', tbl !! cyc (length tbl) (hash (length tbl) k) j' = Some nd'' /\
      skips nd'' k fd = true.
Proof.
  intros Hsz Hp Hst. set (sz := length tbl) in *. set (h := hash sz k).
  assert (Hh : h < sz) by (apply hash_lt; lia).
  destruct (cyc_surj sz h p Hh) as (j0 & Hj0 & Ej0); [by eapply lookup_lt_Some|].
  destruct (least_nat (fun j => match tbl !! cyc sz h j with
    Some nd => negb (skips nd k fd) | None => false end) j0) as (j & Hj & Hs & Hl).
  { by rewrite Ej0, Hp, Hst. }
  destruct (tbl !! cyc sz h j) as [nd'|] eqn:E; [|done]. apply negb_true_iff in Hs.
  exists j, nd'. split_and!; [lia|done|done|]. intros j' Hj'.
  destruct (lookup_lt_is_Some_2 tbl (cyc sz h j')) as [nd'' E']; [apply cyc_lt; lia|].
  exists nd''. split; [done|]. specialize (Hl j' Hj'). rewrite E' in Hl. by apply negb_false_iff.
Qed.

Lemma get_node_stop ht tbl k fd j nd :
  table ht = Some tbl -> size ht = length tbl -> 2 <= length tbl -> j < length tbl ->
  tbl !! cyc (length tbl) (hash (length tbl) k) j = Some nd -> skips nd k fd = false ->
  (forall j', j' < j -> exists nd', tbl !! cyc (length tbl) (hash (length tbl) k) j' = Some nd' /\
    skips nd' k fd = true) ->
  hashtable_get_node ht k fd = Ret (cyc (length tbl) (hash (length tbl) k) j).
Proof.
  intros Ht Hsz H2 Hj Hnd Hst Hsk. unfold hashtable_get_node. rewrite Ht, Hsz. simpl.
  eapply probe_spec; [apply hash_lt; lia|done|done|done|lia].
Qed.

(** Two slots cannot hold the same key. *)
Lemma reaches_unique tbl m i i' nd nd' k :
  tbl_wf tbl m -> key_ok k -> tbl !! i = Some nd -> tbl !! i' = Some nd' ->
  is_used nd = true -> is_used nd' = true -> key nd = Some k -> key nd' = Some k -> i = i'.
Proof.
  intros [Hs _] Hk Hi Hi' Hu Hu' Ek Ek'.
  destruct (Hs i nd Hi Hu) as (Hd & k1 & E1 & _ & _ & j & Hj & -> & Hsk).
  destruct (Hs i' nd' Hi' Hu') as (Hd' & k2 & E2 & _ & _ & j' & Hj' & -> & Hsk').
  simplify_eq. destruct (Nat.lt_trichotomy j j') as [Hlt|[->|Hlt]]; [|done|].
  - destruct (Hsk' _ Hlt) as (nd2 & E & Hs2). assert (nd2 = nd) as -> by congruence. unfold skips in Hs2.
    rewrite (key_differs_iff nd k k), bool_decide_eq_false_2, Hd in Hs2 by naive_solver.
    by rewrite andb_false_r in Hs2.
  - destruct (Hsk _ Hlt) as (nd2 & E & Hs2). assert (nd2 = nd') as -> by congruence. unfold skips in Hs2.
    rewrite (key_differs_iff nd' k k), bool_decide_eq_false_2, Hd' in Hs2 by naive_solver.
    by rewrite andb_false_r in Hs2.
Qed.

(** ** Where the probe for a key stops *)

Lemma used_skips tbl m i nd k :
  tbl_wf tbl m -> tbl !! i = Some nd -> is_used nd = true -> key_ok k ->
  forall fd, skips nd k fd = bool_decide (key nd <> Some k).
Proof.
  intros [Hs _] Hi Hu Hk fd. destruct (Hs i nd Hi Hu) as (Hd & k' & E & Hk' & _).
  unfold skips. rewrite Hu, Hd, (key_differs_iff nd k k'), E by done. simpl. rewrite orb_false_r.
  apply bool_decide_ext. naive_solver.
Qed.

Lemma stop_present tbl m k v :
  tbl_wf tbl m -> m !! k = Some v -> key_ok k ->
  exists j nd, j < length tbl /\ tbl !! cyc (length tbl) (hash (length tbl) k) j = Some nd /\
    is_used nd = true /\ key nd = Some k /\ value nd = v /\ skips nd k false = false /\
    forall j', j' < j -> exists nd', tbl !! cyc (length tbl) (hash (length tbl) k) j' = Some nd' /\
      skips nd' k false = true.
Proof.
  intros Hwf Hk Hok. pose proof Hwf as [Hs Hm]. destruct (Hm k v Hk) as (i & nd & Hi & Hu & Ek).
  destruct (Hs i nd Hi Hu) as (Hd & k' & Ek' & _ & Hv & j & Hj & -> & Hsk). simplify_eq.
  exists j, nd. split_and!; try done.
  rewrite (used_skips _ _ _ _ _ Hwf Hi Hu Hok). by apply bool_decide_eq_false_2; intros ?.
Qed.

Lemma stop_absent tbl m k i nd fd :
  tbl_wf tbl m -> m !! k = None -> key_ok k ->
  tbl !! i = Some nd -> skips nd k fd = false -> is_used nd = false.
Proof.
  intros Hwf Hk Hok Hi Hst. destruct (is_used nd) eqn:Hu; [|done].
  rewrite (used_skips _ _ _ _ _ Hwf Hi Hu Hok) in Hst. apply bool_decide_eq_false in Hst.
  destruct Hwf as [Hs _]. destruct (Hs i nd Hi Hu) as (_ & k' & Ek & _ & Hv & _).
  destruct (decide (key nd = Some k)); naive_solver.
Qed.

Lemma clean_stops (nd : node K V) k : is_clean nd = true -> skips nd k false = false.
Proof. unfold is_clean, skips. destruct (is_used nd), (is_deleted nd); done. Qed.

Lemma unused_stops (nd : node K V) k : is_used nd = false -> skips nd k true = false.
Proof. unfold skips. intros ->. by rewrite andb_false_r. Qed.

Lemma find_clean ht tbl m :
  table ht = Some tbl -> 0 < clean ht -> exists p nd, tbl !! p = Some nd /\ is_clean nd = true.
Proof. unfold clean. intros -> Hc. by apply count_if_exists. Qed.

(** ** Lookup *)

Lemma get_node_present ht tbl m k v :
  table ht = Some tbl -> size ht = length tbl -> 2 <= length tbl -> tbl_wf tbl m ->
  m !! k = Some v -> key_ok k ->
  exists i nd, hashtable_get_node ht k false = Ret i /\ tbl !! i = Some nd /\
    is_used nd = true /\ key nd = Some k /\ value nd = v /\ reaches tbl k i.
Proof.
  intros Ht Hsz H2 Hwf Hk Hok.
  destruct (stop_present _ _ _ _ Hwf Hk Hok) as (j & nd & Hj & Hnd & Hu & Ek & Hv & Hst & Hsk).
  eexists _, nd. split_and!; [by eapply get_node_stop|done..|]. by exists j.
Qed.

Lemma get_node_absent ht tbl m k :
  table ht = Some tbl -> size ht = length tbl -> 2 <= length tbl -> tbl_wf tbl m ->
  m !! k = None -> key_ok k -> 0 < clean ht ->
  exists i nd, hashtable_get_node ht k false = Ret i /\ tbl !! i = Some nd /\ is_used nd = false.
Proof.
  intros Ht Hsz H2 Hwf Hk Hok Hc. destruct (find_clean _ _ m Ht Hc) as (p & ndp & Hp & Hcl).
  destruct (first_stop tbl k false p ndp) as (j & nd & Hj & Hnd & Hst & Hsk);
    [done|done|by apply clean_stops|].
  eexists _, nd. split_and!; [by eapply get_node_stop|done|by eapply stop_absent].
Qed.

Lemma get_spec ht m k :
  ht_wf ht m -> key_ok k -> 0 < clean ht -> hashtable_get ht k = Ret (default null (m !! k)).
Proof.
  intros (tbl & Ht & Hsz & H2 & Hwf & _) Hok Hc. unfold hashtable_get.
  destruct (m !! k) as [v|] eqn:Hk.
  - destruct (get_node_present ht tbl m k v) as (i & nd & -> & Hi & Hu & _ & <- & _); try done.
    rewrite Ht. simpl. rewrite Hi. simpl. by rewrite Hu.
  - destruct (get_node_absent ht tbl m k) as (i & nd & -> & Hi & Hu); try done.
    rewrite Ht. simpl. rewrite Hi. simpl. by rewrite Hu.
Qed.

(** ** Storing into a slot *)

(** Overwriting slot [i], where the probe for [k] arrives, by an entry for [k]. *)
Lemma tbl_wf_put tbl m k v i nd :
  tbl_wf tbl m -> key_ok k -> tbl !! i = Some nd -> reaches tbl k i ->
  (is_used nd = true -> key nd = Some k) -> (is_used nd = false -> m !! k = None) ->
  tbl_wf (<[i := mk_node (Some k) v true false]> tbl) (<[k := v]> m).
Proof.
  intros Hwf Hok Hi Hr Hu Hf. pose proof Hwf as [Hs Hm]. pose proof (lookup_lt_Some _ _ _ Hi) as Hlt.
  set (new := mk_node (Some k) v true false). split.
  - intros i' nd' Hi' Hu'. destruct (decide (i = i')) as [<-|Hne].
    + rewrite list_lookup_insert_eq in Hi' by done. simplify_eq/=. split; [done|].
      exists k. rewrite lookup_insert_eq. split_and!; [done..|].
      destruct Hr as (j & Hj & -> & Hsk). exists j. rewrite length_insert. split_and!; [done..|].
      intros j' Hj'. destruct (Hsk j' Hj') as (nd' & Hnd' & Hst). exists nd'. split; [|done].
      rewrite list_lookup_insert_ne; [done|]. intros E%cyc_inj; lia.
    + rewrite list_lookup_insert_ne in Hi' by done.
      destruct (Hs i' nd' Hi' Hu') as (Hd & k' & Ek' & Hk' & Hv & j & Hj & Ei & Hsk).
      assert (k' <> k).
      { intros ->. destruct (is_used nd) eqn:E; [|by rewrite Hf in Hv by done].
        apply Hne. by eapply (reaches_unique tbl m i i' nd nd' k); eauto. }
      split; [done|]. exists k'. rewrite lookup_insert_ne by done. split_and!; [done..|].
      exists j. rewrite length_insert. split_and!; [done..|]. intros j' Hj'.
      destruct (decide (i = cyc (length tbl) (hash (length tbl) k') j')) as [->|Hp].
      * exists new. rewrite list_lookup_insert_eq by done. split; [done|].
        unfold skips. rewrite (key_differs_iff new k' k) by done. by rewrite bool_decide_eq_true_2.
      * rewrite list_lookup_insert_ne by done. by apply Hsk.
  - intros k' v' Hk'. destruct (decide (k' = k)) as [->|Hne].
    + exists i, new. by rewrite list_lookup_insert_eq.
    + rewrite lookup_insert_ne in Hk' by done. destruct (Hm k' v' Hk') as (i' & nd' & Hi' & Hu' & Ek').
      exists i', nd'. split_and!; [|done..]. rewrite list_lookup_insert_ne; [done|].
      intros <-. simplify_eq. naive_solver.
Qed.

(** Turning the slot of [k] into a tombstone. *)
Lemma tbl_wf_remove tbl m k i nd :
  tbl_wf tbl m -> key_ok k -> tbl !! i = Some nd -> is_used nd = true -> key nd = Some k ->
  tbl_wf (<[i := mk_node None null false true]> tbl) (delete k m).
Proof.
  intros Hwf Hok Hi Hu Hk. pose proof Hwf as [Hs Hm]. pose proof (lookup_lt_Some _ _ _ Hi) as Hlt.
  split.
  - intros i' nd' Hi' Hu'. destruct (decide (i = i')) as [<-|Hne].
    { rewrite list_lookup_insert_eq in Hi' by done. by simplify_eq/=. }
    rewrite list_lookup_insert_ne in Hi' by done.
    destruct (Hs i' nd' Hi' Hu') as (Hd & k' & Ek' & Hk' & Hv & j & Hj & Ei & Hsk).
    assert (k' <> k).
    { intros ->. apply Hne. by eapply (reaches_unique tbl m i i' nd nd' k). }
    split; [done|]. exists k'. rewrite lookup_delete_ne by done. split_and!; [done..|].
    exists j. rewrite length_insert. split_and!; [done..|]. intros j' Hj'.
    destruct (decide (i = cyc (length tbl) (hash (length tbl) k') j')) as [->|Hp].
    + eexists. by rewrite list_lookup_insert_eq.
    + rewrite list_lookup_insert_ne by done. by apply Hsk.
  - intros k' v' [Hne Hk']%lookup_delete_Some. destruct (Hm k' v' Hk') as (i' & nd' & Hi' & Hu' & Ek').
    exists i', nd'. split_and!; [|done..]. rewrite list_lookup_insert_ne; [done|].
    intros <-. simplify_eq.
Qed.

(** ** Insertion *)

Lemma skips_weaken (nd : node K V) k : skips nd k true = true -> skips nd k false = true.
Proof. unfold skips. destruct (is_used nd && _), (is_deleted nd); done. Qed.

(** How replacing an entry changes the two slot counts. *)
Lemma put_counts tbl i nd k v :
  tbl !! i = Some nd -> (is_used nd = true -> is_deleted nd = false) ->
  let tbl' := <[i := mk_node (Some k) v true false]> tbl in
  count_if is_used tbl' = (if is_used nd then count_if is_used tbl else count_if is_used tbl + 1) /\
  count_if is_clean tbl <= S (count_if is_clean tbl') /\
  count_if is_clean tbl + count_if is_used tbl <= count_if is_clean tbl' + count_if is_used tbl'.
Proof.
  intros Hi Hd tbl'. unfold tbl'.
  pose proof (count_if_insert is_used tbl i nd (mk_node (Some k) v true false) Hi) as Hu.
  pose proof (count_if_insert is_clean tbl i nd (mk_node (Some k) v true false) Hi) as Hc.
  unfold is_clean at 2 4 in Hc. simpl in *. destruct (is_used nd), (is_deleted nd); simpl in *; lia.
Qed.

Lemma put_spec ht m k v :
  ht_wf ht m -> key_ok k -> 0 < clean ht ->
  exists ht', hashtable_put ht k v = Ret ht' /\ ht_wf ht' (<[k := v]> m) /\
    size ht' = size ht /\ clean ht <= S (clean ht') /\
    clean ht + count ht <= clean ht' + count ht' /\ count ht' <= S (count ht).
Proof.
  intros (tbl & Ht & Hsz & H2 & Hwf & Hcu & Hcm) Hok Hc. unfold hashtable_put.
  assert (Hgoal : forall i nd, tbl !! i = Some nd -> reaches tbl k i ->
    (is_used nd = true -> key nd = Some k) -> is_used nd = bool_decide (is_Some (m !! k)) ->
    let ht' := mk_hashtable (Some (<[i := mk_node (Some k) v true false]> tbl)) (size ht)
      (if is_used nd then count ht else count ht + 1) in
    ht_wf ht' (<[k := v]> m) /\ size ht' = size ht /\ clean ht <= S (clean ht') /\
    clean ht + count ht <= clean ht' + count ht' /\ count ht' <= S (count ht)).
  { intros i nd Hi Hr Hu Hb ht'. unfold ht'.
    destruct (put_counts tbl i nd k v Hi) as (E1 & E2 & E3).
    { intros Hu'. by destruct (proj1 Hwf i nd Hi Hu') as [? _]. }
    unfold clean. rewrite Ht. simpl. split_and!; [|done|lia|destruct (is_used nd); lia|destruct (is_used nd); lia].
    eexists. split_and!; [done|by rewrite length_insert|by rewrite length_insert| | |].
    - eapply tbl_wf_put; try done. intros E. rewrite E in Hb. symmetry in Hb.
      apply bool_decide_eq_false in Hb. by apply eq_None_not_Some.
    - simpl. rewrite E1. destruct (is_used nd); lia.
    - simpl. destruct (is_used nd); symmetry in Hb.
      + apply bool_decide_eq_true in Hb. by rewrite map_size_insert_Some.
      + apply bool_decide_eq_false, eq_None_not_Some in Hb. rewrite map_size_insert_None by done. lia. }
  destruct (m !! k) as [v0|] eqn:Hk.
  - destruct (get_node_present ht tbl m k v0) as (i & nd & -> & Hi & Hu & Ek & <- & Hr); try done.
    rewrite Ht. simpl. rewrite Hi. simpl. rewrite Hu. simpl. rewrite Hi. simpl. rewrite Hu.
    eexists. split; [done|]. specialize (Hgoal i nd Hi Hr). rewrite Hu in Hgoal. by apply Hgoal.
  - destruct (get_node_absent ht tbl m k) as (i & nd & -> & Hi & Hu); try done.
    rewrite Ht. simpl. rewrite Hi. simpl. rewrite Hu.
    destruct (first_stop tbl k true i nd) as (j & nd' & Hj & Hnd' & Hst & Hsk);
      [done|done|by apply unused_stops|].
    rewrite (get_node_stop ht tbl k true j nd') by done. simpl. rewrite Hnd'. simpl.
    assert (Hu' : is_used nd' = false) by (by eapply stop_absent).
    rewrite Hu'. eexists. split; [done|].
    specialize (Hgoal _ nd' Hnd'). rewrite Hu' in Hgoal. apply Hgoal; [|done|done].
    exists j. split_and!; [done..|]. intros j' Hj'. destruct (Hsk j' Hj') as (nd'' & ? & ?).
    exists nd''. split; [done|by apply skips_weaken].
Qed.

Lemma map_size_insert_le m k v : base.size (<[k := v]> m) <= S (base.size m).
Proof. rewrite map_size_insert. destruct (m !! k); simpl; lia. Qed.

Lemma map_size_delete_le m k : base.size (delete k m) <= base.size m.
Proof. rewrite map_size_delete. destruct (m !! k); simpl; lia. Qed.

(** ** Resizing *)

Lemma fresh_wf n : 2 <= n -> ht_wf (mk_hashtable (Some (replicate n zero_node)) n 0) (∅ : gmap K V).
Proof.
  intros Hn. eexists. split_and!; [done|by rewrite length_replicate|by rewrite length_replicate| | |].
  - split; [|done]. intros i nd [-> _]%lookup_replicate Hu. done.
  - by rewrite count_if_replicate.
  - by rewrite map_size_empty.
Qed.

Lemma fresh_clean n : clean (mk_hashtable (Some (replicate n (zero_node (K:=K)))) n 0) = n.
Proof. unfold clean. simpl. by rewrite count_if_replicate. Qed.

(** Re-inserting a list of slots into a table with room for them never
    triggers a nested resize. *)
Lemma rehash_spec n alloc (l : list (node K V)) ht m0 m s :
  ht_wf ht m0 -> m0 ⊆ m -> size ht = s * 2 -> 2 <= s -> s * 2 <= clean ht + count ht ->
  count ht + count_if is_used l < s ->
  (forall nd, nd ∈ l -> is_used nd = true ->
     exists k, key nd = Some k /\ key_ok k /\ m !! k = Some (value nd)) ->
  exists ht' m', foldO (fun t nd => if is_used nd
      then k ← deref (key nd); hashtable_add_n n alloc t k (value nd) else Ret t) ht l = Ret ht' /\
    ht_wf ht' m' /\ m0 ⊆ m' /\ m' ⊆ m /\ size ht' = s * 2 /\ s * 2 <= clean ht' + count ht' /\
    (forall nd k, nd ∈ l -> is_used nd = true -> key nd = Some k -> is_Some (m' !! k)).
Proof.
  revert ht m0. induction l as [|nd l IH]; intros ht m0 Hwf Hm0 Hsz Hs Hcc Hcnt Hl; simpl.
  - exists ht, m0. split_and!; try done. set_solver.
  - rewrite count_if_cons in Hcnt. destruct (is_used nd) eqn:Hu.
    + destruct (Hl nd) as (k & Ek & Hok & Hv); [set_solver|done|]. rewrite Ek. simpl.
      destruct (put_spec ht m0 k (value nd) Hwf Hok) as (ht1 & E & Hwf1 & Hsz1 & _ & Hcc1 & Hc1); [lia|].
      assert (Eadd : hashtable_add_n n alloc ht k (value nd) = Ret ht1).
      { destruct n; simpl; rewrite E; simpl; rewrite bool_decide_eq_false_2; try done;
          rewrite Hsz1, Hsz, Nat.div_mul by lia; lia. }
      rewrite Eadd.
      destruct (IH ht1 (<[k:=value nd]> m0)) as (ht' & m' & -> & Hwf' & H1 & H2 & H3 & H4 & H5);
        [done|by apply insert_subseteq_l|lia|lia|lia|lia|intros; apply Hl; set_solver|].
      exists ht', m'. split_and!; try done.
      * etrans; [|exact H1]. destruct (m0 !! k) as [w|] eqn:Ew; [|by apply insert_subseteq].
        assert (w = value nd) as -> by (eapply lookup_weaken in Ew; [|exact Hm0]; congruence).
        by rewrite insert_id.
      * intros nd' k' [->|Hin]%elem_of_cons Hu' Ek'; [|by eapply H5].
        simplify_eq. exists (value nd). eapply lookup_weaken; [|exact H1]. by rewrite lookup_insert_eq.
    + destruct (IH ht m0) as (ht' & m' & -> & Hwf' & H1 & H2 & H3 & H4 & H5);
        [done|done|done|lia|done|lia|intros; apply Hl; set_solver|].
      exists ht', m'. split_and!; try done.
      intros nd' k' [->|Hin]%elem_of_cons Hu' Ek'; [congruence|by eapply H5].
Qed.

Lemma table_bytes_small sz : (Z.of_nat sz <= max_size)%Z -> table_bytes sz = (Z.of_nat sz * 12)%Z.
Proof. intros. unfold table_bytes, sizeof_node, max_size in *. apply wrap32_small. lia. Qed.

Lemma slots_of_table sz : (Z.of_nat sz <= max_size)%Z -> slots_of (table_bytes sz) = sz.
Proof.
  intros. unfold slots_of. rewrite table_bytes_small by done. unfold sizeof_node.
  rewrite Z.div_mul by done. lia.
Qed.

Lemma double_small sz : (Z.of_nat sz <= max_size)%Z -> double sz = sz * 2.
Proof. intros. unfold double, max_size in *. rewrite wrap32_small; lia. Qed.

Lemma deref_none {A} : deref (None : option A) = Fault.
Proof. done. Qed.

Lemma rehash_null n alloc sz c (l : list (node K V)) m :
  (forall nd, nd ∈ l -> is_used nd = true -> exists k, key nd = Some k /\ key_ok k /\ m !! k = Some (value nd)) ->
  0 < count_if is_used l ->
  foldO (fun t nd => if is_used nd
      then k ← deref (key nd); hashtable_add_n n alloc t k (value nd) else Ret t)
    (mk_hashtable None sz c) l = Fault.
Proof.
  induction l as [|nd l IH]; intros Hl Hc; [by apply Nat.lt_irrefl in Hc|]. cbn [foldO]. rewrite count_if_cons in Hc.
  destruct (is_used nd) eqn:Hu; simpl in *.
  - destruct (Hl nd) as (k & -> & _); [set_solver|done|]. by destruct n.
  - apply IH; [|lia]. intros nd' Hin. apply Hl. set_solver.
Qed.

(** A resize keeps the map, or faults when there is no memory for the new table. *)
Lemma resize_spec n alloc ht m :
  ht_wf ht m -> (Z.of_nat (size ht * 2) <= max_size)%Z -> 0 < count ht < size ht ->
  match hashtable_resize (hashtable_add_n n alloc) alloc ht (size ht * 2) with
  | Ret ht' => ht_wf ht' m /\ size ht' = size ht * 2 /\ size ht * 2 <= clean ht' + count ht' /\ count ht' = count ht
  | Fault => alloc (table_bytes (size ht * 2)) = false
  | Hang => False
  end.
Proof.
  intros (tbl & Ht & Hsz & H2 & Hwf & Hcu & Hcm) Hmax Hcnt. unfold hashtable_resize.
  assert (Hl : forall nd, nd ∈ tbl -> is_used nd = true ->
    exists k, key nd = Some k /\ key_ok k /\ m !! k = Some (value nd)).
  { intros nd Hin Hu. apply list_elem_of_lookup in Hin as [i Hi].
    destruct (proj1 Hwf i nd Hi Hu) as (_ & k & ? & ? & ? & _). eauto. }
  rewrite Ht. simpl. rewrite slots_of_table by done. destruct (alloc _) eqn:Ha.
  2: { by rewrite (rehash_null _ _ _ _ _ m) by (done || lia). }
  destruct (rehash_spec n alloc tbl (mk_hashtable (Some (replicate (size ht * 2) zero_node)) (size ht * 2) 0)
    ∅ m (size ht)) as (ht' & m' & -> & Hwf' & _ & Hsub & Hs' & Hcc & Hall);
    [apply fresh_wf; lia|apply map_empty_subseteq|done|lia|rewrite fresh_clean; simpl; lia|simpl; lia|done|].
  assert (m' = m) as ->.
  { apply (anti_symm (⊆)); [done|]. apply map_subseteq_spec. intros k v Hv.
    destruct (proj2 Hwf k v Hv) as (i & nd & Hi & Hu & Ek).
    destruct (Hall nd k) as [w Hw]; [by eapply list_elem_of_lookup_2|done|done|].
    rewrite Hw. f_equal. eapply lookup_weaken in Hw; [|exact Hsub]. congruence. }
  split_and!; [done..|]. destruct Hwf' as (? & _ & _ & _ & _ & _ & ->). done.
Qed.

Lemma clean_count_le ht m : ht_wf ht m -> clean ht + count ht <= size ht.
Proof.
  intros (tbl & Ht & Hsz & _ & _ & Hcu & _). unfold clean. rewrite Ht, Hsz, Hcu. clear.
  induction tbl as [|nd tbl IH]; [done|]. rewrite !count_if_cons. unfold is_clean at 1.
  destruct (is_used nd), (is_deleted nd); simpl; lia.
Qed.

Lemma add_spec alloc ht m k v :
  ht_inv ht m -> key_ok k -> 0 < clean ht -> (Z.of_nat (S (base.size m)) < max_bindings)%Z ->
  match hashtable_add alloc ht k v with
  | Ret ht' => ht_inv ht' (<[k := v]> m) /\ clean ht <= S (clean ht') /\
      (size ht <= clean ht + count ht -> size ht' <= clean ht' + count ht')
  | Fault => exists sz, sz <= 4 * S (base.size m) + 2 /\ alloc (table_bytes sz) = false
  | Hang => False
  end.
Proof.
  intros (Hwf & Hload & Hmax) Hok Hc Hb. unfold hashtable_add. simpl.
  pose proof Hwf as (tbl0 & _ & Hsz & H2 & _ & _ & Hcm).
  destruct (put_spec ht m k v Hwf Hok Hc) as (ht1 & -> & Hwf1 & Hsz1 & Hc1 & Hcc1 & Hcnt1). simpl.
  pose proof (Nat.div_mod_eq (size ht) 2). pose proof (Nat.mod_upper_bound (size ht) 2).
  unfold max_bindings, max_size in *.
  case_bool_decide as Hfull; rewrite Hsz1 in *.
  - rewrite double_small by done. rewrite <- Hsz1.
    assert (0 < size ht / 2) by (apply Nat.div_str_pos; lia).
    pose proof (resize_spec 0 alloc ht1 _ Hwf1) as Hr. rewrite Hsz1 in *.
    destruct (hashtable_resize _ _ _ _) as [ht2| |].
    + destruct Hr as (Hwf2 & Hsz' & Hcc2 & Hcnt2); [unfold max_size; lia|lia|].
      pose proof (clean_count_le _ _ Hwf).
      split; [|lia]. split; [done|]. rewrite Hcnt2, Hsz', Nat.div_mul by lia. unfold max_size. lia.
    + exists (size ht * 2). split; [lia|]. apply Hr; unfold max_size; lia.
    + apply Hr; unfold max_size; lia.
  - split; [|lia]. split; [done|]. rewrite Hsz1. unfold max_size. lia.
Qed.

(** ** Removal *)

Lemma remove_spec ht m k :
  ht_inv ht m -> key_ok k -> 0 < clean ht ->
  exists ht', hashtable_remove ht k = Ret ht' /\ ht_inv ht' (delete k m) /\ clean ht' = clean ht.
Proof.
  intros ((tbl & Ht & Hsz & H2 & Hwf & Hcu & Hcm) & Hload & Hmax) Hok Hc. unfold hashtable_remove.
  destruct (m !! k) as [v|] eqn:Hk.
  - destruct (get_node_present ht tbl m k v) as (i & nd & -> & Hi & Hu & Ek & <- & Hr); try done.
    rewrite Ht. simpl. rewrite Hi. simpl. rewrite Hu. eexists. split; [done|].
    pose proof (proj1 (proj1 Hwf i nd Hi Hu)) as Hd.
    pose proof (count_if_insert is_used tbl i nd (mk_node None null false true) Hi) as Eu.
    pose proof (count_if_insert is_clean tbl i nd (mk_node None null false true) Hi) as Ec.
    unfold is_clean at 2 4 in Ec. rewrite Hu in *. simpl in *.
    split; [split; [|split; [|exact Hmax]]|].
    + eexists. split_and!; [done|by rewrite length_insert|by rewrite length_insert| |simpl; lia|].
      * by eapply tbl_wf_remove.
      * simpl. rewrite map_size_delete_Some by done. lia.
    + simpl. lia.
    + unfold clean. rewrite Ht. simpl. lia.
  - destruct (get_node_absent ht tbl m k) as (i & nd & -> & Hi & Hu); try done.
    rewrite Ht. simpl. rewrite Hi. simpl. rewrite Hu. exists ht. split_and!; [done| |done].
    rewrite delete_id by done. split; [|done]. exists tbl. done.
Qed.

(** ** Iteration *)

Lemma next_used_spec (l : list (node K V)) i :
  (exists l1 nd l2, l = l1 ++ nd :: l2 /\ is_used nd = true /\
     Forall (fun nd => is_used nd = false) l1 /\ next_used l i = i + length l1) \/
  (Forall (fun nd => is_used nd = false) l /\ next_used l i = i + length l).
Proof.
  revert i; induction l as [|nd l IH]; intros i; simpl; [right; split; [done|lia]|].
  destruct (is_used nd) eqn:Hu; [left; exists [], nd, l; split_and!; simpl; [done..|lia]|].
  destruct (IH (S i)) as [(l1 & nd' & l2 & -> & Hu' & Hl1 & ->)|[Hl ->]].
  - left. exists (nd :: l1), nd', l2. split_and!; [done|done|by constructor|simpl; lia].
  - right. split; [by constructor|lia].
Qed.

Definition entries (l : list (node K V)) : list (option K * V) :=
  (fun nd => (key nd, value nd)) <$> filter (fun nd => is_used nd) l.

Lemma entries_app (l1 l2 : list (node K V)) : entries (l1 ++ l2) = entries l1 ++ entries l2.
Proof. unfold entries. by rewrite filter_app, fmap_app. Qed.

Lemma entries_unused (l : list (node K V)) : Forall (fun nd => is_used nd = false) l -> entries l = [].
Proof.
  unfold entries. induction 1 as [|nd l Hu _ IH]; [done|].
  by rewrite filter_cons_False by (rewrite Hu; auto).
Qed.

(** One step: the iterator is past the last entry, or goes to the next one. *)
Lemma iterate_step ht tbl iter : table ht = Some tbl -> size ht = length tbl ->
  (exists iter', hashtable_iterate ht iter = Ret (false, iter') /\ entries (drop (iter_i iter) tbl) = []) \/
  (exists j kv, hashtable_iterate ht iter = Ret (true, mk_iterator (j + 1) (fst kv) (snd kv)) /\
     iter_i iter <= j < length tbl /\ entries (drop (iter_i iter) tbl) = kv :: entries (drop (j + 1) tbl)).
Proof.
  intros Ht Hsz. unfold hashtable_iterate. rewrite Hsz.
  case_bool_decide as Hge; [left; eexists; by rewrite drop_ge by lia|]. rewrite Ht. simpl.
  assert (Hlen := length_drop tbl (iter_i iter)).
  destruct (next_used_spec (drop (iter_i iter) tbl) (iter_i iter))
    as [(l1 & nd & l2 & E & Hu & Hl1 & ->)|[Hl ->]].
  - right. exists (iter_i iter + length l1), (key nd, value nd). rewrite E, length_app in Hlen. simpl in Hlen.
    rewrite bool_decide_eq_false_2 by lia. split_and!; [|lia..|].
    + by rewrite <- lookup_drop, E, list_lookup_middle.
    + rewrite <- Nat.add_assoc, <- drop_drop, E, drop_app_ge, entries_app, (entries_unused l1) by (done || lia).
      replace (length l1 + 1 - length l1) with 1 by lia. unfold entries. by rewrite filter_cons_True by (by rewrite Hu).
  - left. rewrite bool_decide_eq_true_2 by lia. eexists. by rewrite entries_unused.
Qed.

Lemma iterate_all_spec n ht tbl iter :
  table ht = Some tbl -> size ht = length tbl -> length tbl <= iter_i iter + n ->
  iterate_all n ht iter = Ret (entries (drop (iter_i iter) tbl)).
Proof.
  revert iter. induction n as [|n IH]; intros iter Ht Hsz Hn; simpl;
    destruct (iterate_step ht tbl iter Ht Hsz) as [(iter' & -> & ->)|(j & kv & -> & Hj & ->)]; simpl; try done; [lia|].
  rewrite IH; [|done|done|simpl; lia]. by destruct kv.
Qed.

Lemma NoDup_filter_lookup {A} (P : A -> Prop) `{forall x, Decision (P x)} (l : list A) :
  (forall i i' x, l !! i = Some x -> l !! i' = Some x -> P x -> i = i') -> NoDup (filter P l).
Proof.
  induction l as [|x l IH]; intros Hl; [by apply NoDup_nil|].
  assert (NoDup (filter P l)).
  { apply IH. intros i i' y Hi Hi' Hy. assert (S i = S i') by (by eapply Hl). lia. }
  rewrite filter_cons. case_decide; [|done]. apply NoDup_cons. split; [|done].
  rewrite list_elem_of_filter, list_elem_of_lookup. intros [_ [i Hi]].
  by specialize (Hl 0 (S i) x eq_refl Hi ltac:(done)).
Qed.

Lemma entries_perm tbl m :
  tbl_wf tbl m -> entries tbl ≡ₚ (fun '(k, v) => (Some k, v)) <$> map_to_list m.
Proof.
  intros Hwf. apply NoDup_Permutation.
  - unfold entries. apply NoDup_fmap_2_strong.
    + intros x y [Hux Hx]%list_elem_of_filter [Huy Hy]%list_elem_of_filter E.
      apply list_elem_of_lookup in Hx as [i Hi], Hy as [i' Hi'].
      destruct (proj1 Hwf i x Hi) as (_ & k & Ek & Hok & _); [by apply Is_true_true|].
      assert (i = i'); [|congruence].
      eapply (reaches_unique tbl m i i' x y k); try done; try by apply Is_true_true. congruence.
    + apply NoDup_filter_lookup. intros i i' x Hi Hi' Hu%Is_true_true.
      destruct (proj1 Hwf i x Hi Hu) as (_ & k & Ek & Hok & _).
      by eapply (reaches_unique tbl m i i' x x k).
  - apply NoDup_fmap_2; [|apply NoDup_map_to_list]. intros [k1 v1] [k2 v2]. by intros [= -> ->].
  - intros [k v]. unfold entries. rewrite !list_elem_of_fmap. split.
    + intros (nd & [= -> ->] & [Hu Hin]%list_elem_of_filter).
      apply list_elem_of_lookup in Hin as [i Hi]. apply Is_true_true in Hu.
      destruct (proj1 Hwf i nd Hi Hu) as (_ & k' & -> & _ & Hv & _).
      exists (k', value nd). by rewrite elem_of_map_to_list.
    + intros ([k' v'] & [= -> ->] & Hin%elem_of_map_to_list).
      destruct (proj2 Hwf _ _ Hin) as (i & nd & Hi & Hu & Ek). exists nd.
      destruct (proj1 Hwf i nd Hi Hu) as (_ & k2 & Ek2 & _ & Hv & _).
      split; [congruence|]. rewrite list_elem_of_filter, Hu. split; [done|].
      by eapply list_elem_of_lookup_2.
Qed.

End lemmas.

(** ** The two key types satisfy the hash table's requirements *)

Lemma mod_index_lt (x : Z) (n : nat) : 0 < n -> Z.to_nat (x mod Z.of_nat n) < n.
Proof. intros Hn. pose proof (Z.mod_pos_bound x (Z.of_nat n)). lia. Qed.

#[export, refine] Instance uint_key_ok : HashKeyOk Z := {
  key_ok k := (0 <= k < 2 ^ 32)%Z }.
Proof.
  - intros n k Hn. by apply mod_index_lt.
  - intros k1 k2 H1 H2. simpl. unfold hashtable_key_compare_uint.
    rewrite !wrap32_small, sint32_zero by done. unfold wrap32. split; [|intros ->; by rewrite Z.sub_diag].
    intros E%Z.mod_divide; [|done]. destruct E as [q E]. nia.
Defined.

Fixpoint no_nul (s : string) : Prop :=
  match s with
  | EmptyString => True
  | String c s => char_val c <> 0%Z /\ no_nul s
  end.

Lemma char_val_inj c d : char_val c = char_val d -> c = d.
Proof.
  unfold char_val. intros E%N2Z.inj.
  rewrite <- (Ascii.ascii_N_embedding c), <- (Ascii.ascii_N_embedding d). by f_equal.
Qed.

Lemma char_val_range c : (0 <= char_val c < 256)%Z.
Proof. unfold char_val. pose proof (Ascii.N_ascii_bounded c). lia. Qed.

Lemma strcmp_eq s1 s2 : no_nul s1 -> no_nul s2 -> strcmp s1 s2 = 0%Z <-> s1 = s2.
Proof.
  revert s2. induction s1 as [|c s1 IH]; intros [|d s2]; simpl; intros H1 H2.
  - done.
  - pose proof (char_val_range d). split; [lia|done].
  - pose proof (char_val_range c). split; [lia|done].
  - case_bool_decide as E.
    + subst d. rewrite IH by tauto. split; [by intros ->|by intros [= ->]].
    + split; [|by intros [= ? ?]]. intros Hz. exfalso. apply E, char_val_inj. lia.
Qed.

#[export, refine] Instance string_key_ok : HashKeyOk string := { key_ok := no_nul }.
Proof.
  - intros n k Hn. by apply mod_index_lt.
  - intros k1 k2 H1 H2. by apply strcmp_eq.
Defined.

(** ** The table interface, implemented (memory being available) *)

Section interface.
Context {K V : Type} `{Countable K, !HashKey K, !HashKeyOk K, !Null V, !EqDecision V}.

#[export] Instance hashtable_ops : TableOps K V (hashtable K V) := {
  tbl_get := hashtable_get;
  tbl_has := hashtable_has;
  tbl_add := hashtable_add (fun _ => true);
  tbl_remove := hashtable_remove }.

#[export, refine] Instance hashtable_spec : TableSpec K V (hashtable K V) := {
  tbl_key_ok := key_ok;
  tbl_rep ht m r := ht_inv ht m /\ r <= clean ht /\ (Z.of_nat (base.size m + r) < max_bindings)%Z }.
Proof.
  - intros ht m r r' (? & ? & ?) ?. split_and!; [done|lia|lia].
  - intros ht m r k ([? _] & ? & _) ?. apply get_spec; [done|done|lia].
  - intros ht m r k ([? _] & ? & _) ?. simpl. unfold hashtable_has. by rewrite (get_spec ht m k) by (done || lia).
  - intros ht m r k v (? & ? & ?) ?. pose proof (add_spec (fun _ => true) ht m k v) as Ha. simpl.
    destruct (hashtable_add _ ht k v) as [ht'| |].
    + exists ht'. destruct Ha as (? & ? & _); [done|done|lia|lia|].
      pose proof (map_size_insert_le m k v). split_and!; [done|done|lia|lia].
    + destruct Ha as (? & _ & ?); [done|done|lia|lia|done].
    + destruct Ha; [done|done|lia|lia].
  - intros ht m r k (? & ? & ?) ?.
    destruct (remove_spec ht m k) as (ht' & E & ? & ?); [done|done|lia|].
    pose proof (map_size_delete_le m k). exists ht'. split_and!; [done|done|lia|lia].
Defined.

Lemma create_inv alloc ht :
  hashtable_create true alloc = Some ht -> ht_inv ht (∅ : gmap K V) /\ clean ht = HASHTABLE_MIN_SIZE /\ size ht = HASHTABLE_MIN_SIZE.
Proof.
  unfold hashtable_create, HASHTABLE_MIN_SIZE. cbv zeta. rewrite slots_of_table by (unfold max_size; lia).
  destruct (alloc _); [|done]. intros E. injection E as <-.
  split; [split; [apply (fresh_wf 8); lia|split; [by apply Nat.ltb_lt|unfold max_size; simpl; lia]]|].
  split; [apply (fresh_clean 8)|done].
Qed.

(** What a run may end in, from a table that holds [m] with [added] additions
    to come: never a loop, and a fault only when there is no memory for a larger
    table. *)
Definition returns_or_no_memory {A} (alloc : Z -> bool) (bound : nat) (r : outcome A) (P : A -> Prop) : Prop :=
  match r with
  | Ret a => P a
  | Fault => exists sz, sz <= bound /\ alloc (table_bytes sz) = false
  | Hang => False
  end.

Lemma run_op_spec alloc ht m obs op :
  ht_inv ht m -> key_ok (op_key op) -> 0 < clean ht ->
  (Z.of_nat (base.size m + (if is_add op then 1 else 0)) < max_bindings)%Z ->
  returns_or_no_memory alloc (4 * S (base.size m) + 2) (run_op alloc (ht, obs) op) (fun r =>
    r = (fst r, snd (spec_op (m, obs) op)) /\ ht_inv (fst r) (fst (spec_op (m, obs) op)) /\
    clean ht <= (if is_add op then 1 else 0) + clean (fst r) /\
    base.size (fst (spec_op (m, obs) op)) <= base.size m + (if is_add op then 1 else 0)).
Proof.
  intros Hinv Hok Hc Hb. destruct op as [k v|k|k|k]; simpl in *.
  - pose proof (add_spec alloc ht m k v Hinv Hok Hc) as Ha. pose proof (map_size_insert_le m k v).
    destruct (hashtable_add alloc ht k v); simpl; [destruct Ha as (? & ? & _)|..]; try (apply Ha); try lia.
    split_and!; [done|done|done|lia].
  - rewrite (get_spec ht m k) by (done || by destruct Hinv). simpl. split_and!; [done|done|lia|lia].
  - unfold hashtable_has. rewrite (get_spec ht m k) by (done || by destruct Hinv). simpl. split_and!; [done|done|lia|lia].
  - destruct (remove_spec ht m k) as (ht' & -> & ? & E); [done..|]. simpl.
    pose proof (map_size_delete_le m k). split_and!; [done|done|lia|lia].
Qed.

(** Additions alone, in a table without tombstones. *)
Lemma additions_spec alloc ht m (kvs : list (K * V)) n :
  size ht <= clean ht + count ht -> ht_inv ht m -> Forall (fun p => key_ok (fst p)) kvs ->
  base.size m + length kvs <= n -> (Z.of_nat n < max_bindings)%Z ->
  returns_or_no_memory alloc (4 * n + 6)
    (foldO (fun t p => hashtable_add alloc t (fst p) (snd p)) ht kvs) (fun ht' =>
    ht_inv ht' (foldl (fun m p => <[fst p := snd p]> m) m kvs)).
Proof.
  revert ht m. induction kvs as [|[k v] kvs IH]; intros ht m Hsum Hinv Hok Hn Hb; cbn [foldO foldl]; [done|].
  apply Forall_cons in Hok as [Hk Hok]. pose proof Hinv as (_ & Hload & _). simpl in *.
  pose proof (Nat.mul_div_le (size ht) 2). pose proof (map_size_insert_le m k v).
  pose proof (add_spec alloc ht m k v Hinv Hk) as Ha.
  destruct (hashtable_add alloc ht k v) as [ht'| |]; simpl.
  - destruct Ha as (Hinv' & _ & Hsum'); [lia|lia|]. apply IH; [lia|done|done|lia|lia].
  - destruct Ha as (sz & ? & ?); [lia|lia|]. exists sz. split; [lia|done].
  - apply Ha; lia.
Qed.

End interface.

(** ** Properties *)

Section properties.
Context {K V : Type} `{Countable K, !HashKey K, !HashKeyOk K, !Null V, !EqDecision V}.

(** C2. The hash table refines a finite map: in any program of additions,
    lookups, membership tests and removals of keys the comparison tells apart,
    whose additions are fewer than the never-used slots of the table (removed
    slots are not reclaimed before a resize) and would make fewer than 2^26
    bindings, no probe runs forever, and the program faults only when there is
    no memory for a larger table.  Otherwise every observation is the one the
    map gives, and the invariant holds at the end.  Resizes happen in between as
    the load demands. *)
Theorem hashtable_refines_map alloc (ht : hashtable K V) (m : gmap K V) ops obs :
  ht_inv ht m -> Forall (fun op => key_ok (op_key op)) ops -> count_if is_add ops < clean ht ->
  (Z.of_nat (base.size m + count_if is_add ops) < max_bindings)%Z ->
  returns_or_no_memory alloc (4 * (base.size m + count_if is_add ops) + 6) (foldO (run_op alloc) (ht, obs) ops) (fun r =>
    snd r = snd (foldl spec_op (m, obs) ops) /\ ht_inv (fst r) (fst (foldl spec_op (m, obs) ops))).
Proof.
  revert ht m obs. induction ops as [|op ops IH]; intros ht m obs Hinv Hok Hc Hb; cbn [foldO foldl]; [done|].
  apply Forall_cons in Hok as [Hop Hok]. rewrite count_if_cons in *.
  pose proof (run_op_spec alloc ht m obs op Hinv Hop) as Hr.
  destruct (spec_op (m, obs) op) as [m' obs''].
  destruct (run_op alloc (ht, obs) op) as [[ht' obs']| |]; cbn [returns_or_no_memory fst snd] in *.
  - destruct Hr as ([= ->] & Hinv' & Hc' & Hs); [lia|lia|].
    specialize (IH ht' m' obs'' Hinv' Hok). unfold returns_or_no_memory in *.
    destruct (foldO _ _ _); [apply IH; lia| |apply IH; lia].
    destruct IH as (sz & ? & ?); [lia|lia|]. exists sz. split; [lia|done].
  - destruct Hr as (sz & ? & ?); [lia|lia|]. exists sz. split; [lia|done].
  - apply Hr; lia.
Qed.

(** C3. A [while (hashtable_iterate(...))] loop started from
    [HASHTABLE_ITERATOR_INIT] ends and yields every binding of the table
    exactly once. *)
Theorem iterate_visits_once (ht : hashtable K V) (m : gmap K V) :
  ht_inv ht m ->
  exists l, iterate_all (size ht) ht HASHTABLE_ITERATOR_INIT = Ret l /\
    l ≡ₚ (fun '(k, v) => (Some k, v)) <$> map_to_list m.
Proof.
  intros [(tbl & Ht & Hsz & H2 & Hwf & _) _]. eexists. split.
  - apply iterate_all_spec; [done|done|]. simpl. lia.
  - by apply entries_perm.
Qed.

(** C4. A table that only grows never gets stuck: from [hashtable_create], any
    number of additions below 2^26, whatever the keys (ones the comparison tells
    apart) and the allocator, either return the map of the last value added for
    each key, or stop at a table of at most four times as many slots (and six)
    for which there is no memory, where [hashtable_resize] uses the NULL that
    [zalloc] gave it. *)
Theorem insertions_always_return alloc ht (kvs : list (K * V)) :
  hashtable_create true alloc = Some ht -> Forall (fun p => key_ok (fst p)) kvs ->
  (Z.of_nat (length kvs) < max_bindings)%Z ->
  returns_or_no_memory alloc (4 * length kvs + 6)
    (foldO (fun t p => hashtable_add alloc t (fst p) (snd p)) ht kvs) (fun ht' =>
    ht_inv ht' (foldl (fun m p => <[fst p := snd p]> m) ∅ kvs)).
Proof.
  intros Hcr Hok Hb. destruct (create_inv alloc ht Hcr) as (Hinv & Hcl & Hsz).
  apply additions_spec; [lia|done|done|by rewrite map_size_empty|done].
Qed.

(** A defect: removed entries leave tombstones that are never reclaimed
    before the next resize and do not count towards it.  Once every slot of the
    table is a tombstone or holds another key, the probe for [k] never ends, so
    neither [hashtable_get] nor [hashtable_add] returns, whatever the load. *)
Theorem tombstones_hang alloc (ht : hashtable K V) tbl k v :
  table ht = Some tbl -> size ht = length tbl -> 0 < length tbl ->
  Forall (fun nd => is_deleted nd = true \/ (is_used nd = true /\ key_differs nd k = true)) tbl ->
  (forall n, probe n tbl (size ht) k false (hash (size ht) k) = Hang) /\
  hashtable_get ht k = Hang /\ hashtable_add alloc ht k v = Hang.
Proof.
  intros Ht Hsz Hpos Hall.
  assert (Hh : forall n, probe n tbl (size ht) k false (hash (size ht) k) = Hang).
  { intros n. rewrite Hsz. apply probe_hangs; [by apply hash_lt|]. intros i nd Hi.
    rewrite Forall_lookup in Hall. unfold skips.
    destruct (Hall i nd Hi) as [->|[-> ->]]; [by rewrite orb_true_r|done]. }
  split_and!; [done| |].
  - unfold hashtable_get, hashtable_get_node. rewrite Ht. simpl. by rewrite Hh.
  - unfold hashtable_add. simpl. unfold hashtable_put, hashtable_get_node. rewrite Ht. simpl. by rewrite Hh.
Qed.

End properties.

(** ** Concrete runs *)

#[local] Instance null_Z : Null Z := 0%Z.

Definition new_uint : hashtable Z Z := mk_hashtable (Some (replicate 8 zero_node)) 8 0.

(** Adding and removing the keys 0 to 7 one after the other. *)
Definition churn : list (table_op Z Z) :=
  mjoin ((fun k => [OpAdd k 1%Z; OpRemove k]) <$> [0; 1; 2; 3; 4; 5; 6; 7]%Z).

(** The table [churn] leaves: eight tombstones, no entry. *)
Definition churned : hashtable Z Z :=
  mk_hashtable (Some (replicate 8 (mk_node None 0%Z false true))) 8 0.

(** Three keys of the same hash, with a resize, a removal and a tombstone. *)
Definition mixed : list (table_op Z Z) :=
  [OpAdd 3 7; OpAdd 11 8; OpGet 11; OpRemove 3; OpGet 3; OpHas 11; OpAdd 19 5; OpAdd 4 6; OpGet 19]%Z.

(** Past [max_size] the size in bytes wraps: the table of 2^29 slots that follows
    it gets a block of 2^31 bytes, a third of what its slots need. *)
Example table_size_wraps : table_bytes (Z.to_nat (2 ^ 29)) = (2 ^ 31)%Z.
Proof. unfold table_bytes. by rewrite Z2Nat.id. Qed.

Lemma new_uint_inv : ht_inv new_uint ∅ /\ clean new_uint = 8.
Proof. destruct (create_inv (K:=Z) (V:=Z) (fun _ => true) new_uint eq_refl) as (Hinv & Hcl & _). done. Qed.

Lemma hashtable_refines_map_witness :
  count_if is_add mixed = 4 /\ exists ht', foldO (run_op (fun n => (n <=? 1000)%Z)) (new_uint, []) mixed =
    Ret (ht', [Done; Done; Got 8; Done; Got 0; Has true; Done; Done; Got 5]%Z) /\
    ht_inv ht' {[11 := 8; 19 := 5; 4 := 6]}%Z.
Proof.
  split; [reflexivity|]. destruct new_uint_inv as [Hinv Hcl].
  pose proof (hashtable_refines_map (fun n => (n <=? 1000)%Z) new_uint ∅ mixed [] Hinv) as H.
  eexists. split; [vm_compute; reflexivity|].
  assert (H' := H ltac:(repeat constructor; simpl; lia) ltac:(rewrite Hcl; vm_compute; lia) eq_refl).
  vm_compute foldO in H'. exact (proj2 H').
Defined.

(** Keys 3 and 11 hash to slot 3: once 3 is removed, its slot is a tombstone,
    and 11 is in slot 4, after it. *)
Definition with_tombstone : hashtable Z Z :=
  match foldO (run_op (fun _ => true)) (new_uint, []) [OpAdd 3 7; OpAdd 11 8; OpRemove 3; OpAdd 6 9]%Z with
  | Ret (ht, _) => ht
  | _ => new_uint
  end.

Lemma with_tombstone_inv : ht_inv with_tombstone {[11 := 8; 6 := 9]}%Z.
Proof.
  destruct new_uint_inv as [H0 _].
  destruct (run_op_spec (fun _ => true) new_uint ∅ [] (OpAdd 3 7)%Z H0) as (_ & H1 & _);
    [simpl; lia|apply Nat.ltb_lt; reflexivity|reflexivity|].
  destruct (run_op_spec (fun _ => true) _ _ [] (OpAdd 11 8)%Z H1) as (_ & H2 & _);
    [simpl; lia|apply Nat.ltb_lt; reflexivity|reflexivity|].
  destruct (run_op_spec (fun _ => true) _ _ [] (OpRemove 3)%Z H2) as (_ & H3 & _);
    [simpl; lia|apply Nat.ltb_lt; reflexivity|reflexivity|].
  destruct (run_op_spec (fun _ => true) _ _ [] (OpAdd 6 9)%Z H3) as (_ & H4 & _);
    [simpl; lia|apply Nat.ltb_lt; reflexivity|reflexivity|].
  exact H4.
Qed.

Lemma iterate_visits_once_witness :
  (is_deleted <$> default [] (table with_tombstone)) !! 3 = Some true /\
  exists l, iterate_all (size with_tombstone) with_tombstone HASHTABLE_ITERATOR_INIT = Ret l /\
    l = [(Some 11, 8); (Some 6, 9)]%Z /\
    l ≡ₚ (fun '(k, v) => (Some k, v)) <$> map_to_list ({[11 := 8; 6 := 9]} : gmap Z Z)%Z.
Proof.
  split; [reflexivity|].
  destruct (iterate_visits_once with_tombstone _ with_tombstone_inv) as (l & E & Hp).
  exists l. split; [exact E|]. split; [|exact Hp]. vm_compute in E. by injection E as <-.
Defined.

(** The same additions with memory for every table and for none but the first. *)
Lemma insertions_always_return_witness :
  (exists ht', foldO (fun t p => hashtable_add (fun _ => true) t (fst p) (snd p)) new_uint
    [(1, 10); (9, 20); (17, 30); (25, 40); (33, 50)]%Z = Ret ht' /\ size ht' = 16 /\
    ht_inv ht' {[1 := 10; 9 := 20; 17 := 30; 25 := 40; 33 := 50]}%Z) /\
  foldO (fun t p => hashtable_add (fun n => (n <=? 100)%Z) t (fst p) (snd p)) new_uint
    [(1, 10); (9, 20); (17, 30); (25, 40); (33, 50)]%Z = Fault.
Proof.
  split; [|vm_compute; reflexivity].
  pose proof (insertions_always_return (fun _ => true) new_uint [(1, 10); (9, 20); (17, 30); (25, 40); (33, 50)]%Z
    eq_refl ltac:(repeat constructor; simpl; lia) eq_refl) as H.
  eexists. split; [vm_compute; reflexivity|]. split; [reflexivity|]. exact H.
Defined.

Lemma tombstones_hang_witness :
  exists ht obs, foldO (run_op (fun _ => true)) (new_uint, []) churn = Ret (ht, obs) /\
    count ht = 0 /\ hashtable_get ht 42%Z = Hang /\ hashtable_add (fun _ => true) ht 42%Z 1%Z = Hang.
Proof.
  exists churned. eexists. split; [vm_compute; reflexivity|]. split; [reflexivity|].
  refine (proj2 (tombstones_hang (fun _ => true) churned _ 42%Z 1%Z eq_refl eq_refl _ _)); [simpl; lia|].
  apply (Forall_replicate _ 8). by left.
Defined.

End Hashtable.
