(* ===== verification/Mm.v ===== *)
(** The buddy allocator of [src/kernel/mm.c]. *)
From S2P Require Import Prelude.
From S2P Require Import Memory.
#[local] Open Scope Z_scope.

Module Mm.

(** ** Data *)

Definition MAX_ADDRESSABLE_MEM_ORDER : nat := 31.
Definition PAGE_ORDER : Z := 8.
Definition PAGE_SIZE : Z := Z.shiftl 1 PAGE_ORDER.
Definition MIN_REGION_ORDER : Z := PAGE_ORDER.
Definition MM_DMA : Z := Z.shiftl 1 0.
Definition MM_KERNEL : Z := Z.shiftl 1 1.

(** [sizeof(struct mm_buffer)] on the 32-bit target: a [uint32_t], a pointer
    and a [struct list_head]. *)
Definition sizeof_mm_buffer : Z := 16.

Record mm_region := mk_region { start : Z; rsize : Z; flags : Z }.

(** The header at the start of a block; its list links are the membership of
    its address in one of the [mm_bucket] lists.  A region pointer is the
    region's position in [mm_region_list]. *)
Record mm_buffer := mk_buffer { bucket : nat; region : nat }.

Record mm := mk_mm {
  mm_bucket : list (list Z);        (* [] until [is_initialized] *)
  mm_region_list : list mm_region;
  headers : gmap Z mm_buffer;
  total : Z;                        (* mm_usage *)
  used : Z;
}.

Definition set_bucket (s : mm) (v : list (list Z)) : mm :=
  mk_mm v (mm_region_list s) (headers s) (total s) (used s).
Definition set_header (s : mm) (b : Z) (h : mm_buffer) : mm :=
  mk_mm (mm_bucket s) (mm_region_list s) (<[b := h]> (headers s)) (total s) (used s).
Definition add_used (s : mm) (n : Z) : mm :=
  mk_mm (mm_bucket s) (mm_region_list s) (headers s) (total s) (wrap32 (used s + n)).

(** [list_del(&buffer->list)] and [list_add(&mm_bucket[order], &buffer->list)] *)
Definition list_del (s : mm) (b : Z) : mm :=
  set_bucket s ((fun l => filter (fun x => x <> b) l) <$> mm_bucket s).
Definition list_add (s : mm) (order : nat) (b : Z) : outcome mm :=
  l ← deref (mm_bucket s !! order);
  Ret (set_bucket s (<[order := l ++ [b]]> (mm_bucket s))).

(** [buffer->list.prev == buffer->list.next]: the node is detached, or alone in
    its bucket with the list head. *)
Definition links_equal (s : mm) (b : Z) : bool :=
  forallb (fun l => bool_decide (b ∉ l) || bool_decide (length l = 1%nat)) (mm_bucket s).

(** ** Orders and sizes *)

Definition order_to_size (order : nat) : Z := wrap32 (Z.shiftl 1 (Z.of_nat order)).

(** [n] bounds the number of bits of [val]. *)
Fixpoint count_bit_set_n (n : nat) (val : Z) : Z :=
  match n with
  | O => 0
  | S n => if bool_decide (val = 0) then 0
           else (if Z.testbit val 0 then 1 else 0) + count_bit_set_n n (Z.shiftr val 1)
  end.
Definition count_bit_set (val : Z) : Z := count_bit_set_n 32 val.

Fixpoint size_to_order_n (n : nat) (size order bit_set_count : Z) : Z * Z :=
  match n with
  | O => (order, bit_set_count)
  | S n =>
      if bool_decide (size = 0) then (order, bit_set_count)
      else size_to_order_n n (Z.shiftr size 1) (order + 1)
             (bit_set_count + if Z.testbit size 0 then 1 else 0)
  end.
Definition size_to_order (size : Z) : Z :=
  let '(order, bit_set_count) := size_to_order_n 32 size (-1) 0 in
  if bool_decide (bit_set_count = 1) then order else order + 1.

(** ** Regions *)

Definition mm_add_region (s : mm) (reg : mm_region) : outcome (mm * Z) :=
  if bool_decide (count_bit_set (rsize reg) <> 1) then Ret (s, - EINVAL) else
  let buckets := if bool_decide (mm_bucket s = []) then replicate 32 [] else mm_bucket s in
  let s := mk_mm buckets (mm_region_list s ++ [reg]) (headers s) (wrap32 (total s + rsize reg)) (used s) in
  let order := Z.to_nat (size_to_order (rsize reg)) in
  let s := set_header s (start reg) (mk_buffer order (length (mm_region_list s) - 1)) in
  s ← list_add s order (start reg);
  Ret (s, 0).

(** ** Finding, splitting and merging buffers *)

Fixpoint find_buffer_iter (s : mm) (l : list Z) (fl : Z) : outcome (option Z) :=
  match l with
  | [] => Ret None
  | b :: l =>
      h ← deref (headers s !! b);
      reg ← deref (mm_region_list s !! region h);
      if bool_decide (Z.land (flags reg) fl = fl) then Ret (Some b) else find_buffer_iter s l fl
  end.

Definition find_buffer_in_bucket (s : mm) (order : nat) (fl : Z) : outcome (option Z) :=
  if bool_decide (MAX_ADDRESSABLE_MEM_ORDER < order)%nat then Ret None else
  l ← deref (mm_bucket s !! order);
  if bool_decide (l = []) then Ret None else find_buffer_iter s l fl.

(** The end of [fill_bucket]: [buffer1] becomes two buffers of [order]. *)
Definition split_buffer (s : mm) (order : nat) (buffer1 : Z) : outcome mm :=
  let s := list_del s buffer1 in
  let buffer2 := wrap32 (buffer1 + order_to_size order) in
  h1 ← deref (headers s !! buffer1);
  let s := set_header s buffer2 (mk_buffer order (region h1)) in
  let s := set_header s buffer1 (mk_buffer order (region h1)) in
  s ← list_add s order buffer1;
  list_add s order buffer2.

Fixpoint fill_bucket (n : nat) (s : mm) (order : nat) (fl : Z) : outcome (mm * Z) :=
  if bool_decide (MAX_ADDRESSABLE_MEM_ORDER < order)%nat then Ret (s, - ENOMEM) else
  buffer1 ← find_buffer_in_bucket s (order + 1) fl;
  match buffer1 with
  | Some buffer1 => s ← split_buffer s order buffer1; Ret (s, 0)
  | None =>
      match n with
      | O => Hang
      | S n =>
          r ← fill_bucket n s (order + 1) fl;
          let '(s, retval) := (r : mm * Z) in
          if bool_decide (retval <> 0) then Ret (s, retval) else
          buffer1 ← find_buffer_in_bucket s (order + 1) fl;
          match buffer1 with
          | None => Ret (s, - ENOMEM)
          | Some buffer1 => s ← split_buffer s order buffer1; Ret (s, 0)
          end
      end
  end.

Fixpoint defragment (n : nat) (s : mm) (buffer : Z) : outcome mm :=
  h ← deref (headers s !! buffer);
  l ← deref (mm_bucket s !! bucket h);
  if bool_decide (l = []) then Ret s else
  let size := order_to_size (bucket h) in
  let '(low, high, buffer2) :=
    if bool_decide (Z.land buffer (Z.shiftl 1 (Z.of_nat (bucket h))) <> 0)
    then (wrap32 (buffer - size), buffer, wrap32 (buffer - size))
    else (buffer, wrap32 (buffer + size), wrap32 (buffer + size)) in
  if bool_decide (buffer2 ∈ l) then
    hl ← deref (headers s !! low);
    hh ← deref (headers s !! high);
    if bool_decide (region hl <> region hh) then Ret s else
    let s := list_del (list_del s low) high in
    let s := set_header s low (mk_buffer (bucket hl + 1) (region hl)) in
    s ← list_add s (bucket hl + 1) low;
    match n with
    | O => Hang
    | S n => defragment n s low
    end
  else Ret s.

Fixpoint get_buffer (n : nat) (s : mm) (order : nat) (fl : Z) : outcome (mm * option Z) :=
  buffer ← find_buffer_in_bucket s order fl;
  match buffer with
  | Some b => Ret (s, Some b)
  | None =>
      r ← fill_bucket 32 s order fl;
      let '(s, retval) := (r : mm * Z) in
      if bool_decide (retval = 0) then
        buffer ← find_buffer_in_bucket s order fl; Ret (s, buffer)
      else if bool_decide (Z.land fl MM_DMA <> 0) then Ret (s, None)
      else match n with
           | O => Hang
           | S n => get_buffer n s order MM_DMA
           end
  end.

(** ** The allocator's interface; NULL is [0] *)

Definition kmalloc (s : mm) (size : Z) (fl : Z) : outcome (mm * Z) :=
  if bool_decide (size = 0) then Ret (s, 0) else
  let size := wrap32 (size + sizeof_mm_buffer) in
  let order := size_to_order size in
  if bool_decide (order < 0) then Ret (s, 0) else
  let order := Z.to_nat order in
  let s := add_used s (order_to_size order) in
  if bool_decide (MAX_ADDRESSABLE_MEM_ORDER < order)%nat then Ret (s, 0) else
  r ← get_buffer 1 s order fl;
  let '(s, buffer) := (r : mm * option Z) in
  match buffer with
  | None => Ret (s, 0)
  | Some b => Ret (list_del s b, wrap32 (b + sizeof_mm_buffer))
  end.

Definition kfree (s : mm) (ptr : Z) : outcome mm :=
  if bool_decide (ptr = 0) then Ret s else
  let buffer := wrap32 (ptr - sizeof_mm_buffer) in
  if negb (links_equal s buffer) then Ret s else
  h ← deref (headers s !! buffer);
  let s := add_used s (- order_to_size (bucket h)) in
  s ← list_add s (bucket h) buffer;
  defragment 32 s buffer.

Definition page_alloc (s : mm) (fl : Z) (order : Z) : outcome (mm * Z) :=
  let size := wrap32 (Z.shiftl (Z.shiftl 1 order) PAGE_ORDER - sizeof_mm_buffer) in
  r ← kmalloc s size fl;
  let '(s, buffer) := (r : mm * Z) in
  Ret (s, wrap32 (buffer - sizeof_mm_buffer)).

(** The region whose range holds [ptr], with its position. *)
Fixpoint region_of (regs : list mm_region) (i : nat) (ptr : Z) : option (nat * mm_region) :=
  match regs with
  | [] => None
  | reg :: regs =>
      if bool_decide (start reg <= ptr) && bool_decide (ptr < wrap32 (start reg + rsize reg))
      then Some (i, reg) else region_of regs (S i) ptr
  end.

Definition page_free (s : mm) (ptr : Z) (order : Z) : outcome mm :=
  let size := wrap32 (Z.shiftl 1 order * PAGE_SIZE) in
  match region_of (mm_region_list s) 0 ptr with
  | None => Ret s
  | Some (i, reg) =>
      if bool_decide (wrap32 (start reg + rsize reg) < wrap32 (ptr + size)) then Ret s else
      let s := set_header s ptr (mk_buffer (Z.to_nat (size_to_order size)) i) in
      kfree s (wrap32 (ptr + sizeof_mm_buffer))
  end.

(** ** Carving the heap into regions *)

Fixpoint find_msb_from (i : nat) (x : Z) : Z :=
  if Z.testbit x (Z.of_nat i) then Z.of_nat i
  else match i with O => - EINVAL | S i => find_msb_from i x end.
Definition find_msb (x : Z) : Z := find_msb_from 31 x.

(** The [do ... while (msb--)] loop: the biggest aligned region that fits. *)
Fixpoint fit_region (n : nat) (mm_start mm_end msb : Z) (fl : Z) : option mm_region :=
  let region_size := wrap32 (Z.shiftl 1 msb) in
  if bool_decide (region_size < Z.shiftl 1 MIN_REGION_ORDER) then None else
  let region_start := Z.ldiff mm_start (region_size - 1) in
  let region_start :=
    if bool_decide (region_start < mm_start) then wrap32 (region_start + region_size) else region_start in
  if bool_decide (mm_start <= region_start) && bool_decide (wrap32 (region_start + region_size) <= mm_end)
  then Some (mk_region region_start region_size fl)
  else match n with
       | O => None
       | S n => fit_region n mm_start mm_end (msb - 1) fl
       end.

(** The loop of [mm_init] over the [n] remaining entries of [stm32_mm_regions]. *)
Fixpoint mm_init_regions (n : nat) (s : mm) (mm_start mm_end mm_available fl : Z) : outcome mm :=
  match n with
  | O => Ret s
  | S n =>
      match fit_region 31 mm_start mm_end (find_msb mm_available) fl with
      | None => Ret s
      | Some reg =>
          r ← mm_add_region s reg;
          let '(s, _) := (r : mm * Z) in
          mm_init_regions n s mm_start mm_end (wrap32 (mm_available - rsize reg)) fl
      end
  end.

Definition mm_init (s : mm) (mm_start mm_end fl : Z) : outcome mm :=
  mm_init_regions 10 s mm_start mm_end (wrap32 (mm_end - mm_start)) fl.

Definition mm_initial : mm := mk_mm [] [] ∅ 0 0.

(** ** Specification state: free and allocated blocks

    [A] records the live allocations: block address to order. *)

Definition is_free (s : mm) (b : Z) (o : nat) : Prop :=
  exists l, mm_bucket s !! o = Some l /\ b ∈ l.

Definition is_block (s : mm) (A : gmap Z nat) (b : Z) (o : nat) : Prop :=
  is_free s b o \/ A !! b = Some o.

(** The block's header names its order and a region that contains it. *)
Definition in_region (s : mm) (b : Z) (o : nat) : Prop :=
  exists h reg, headers s !! b = Some h /\ bucket h = o /\
    mm_region_list s !! region h = Some reg /\
    start reg <= b /\ b + 2 ^ Z.of_nat o <= start reg + rsize reg.

Record mm_inv (s : mm) (A : gmap Z nat) : Prop := {
  inv_len : length (mm_bucket s) = 32%nat;
  inv_regions i reg : mm_region_list s !! i = Some reg ->
    0 < start reg /\ start reg + rsize reg <= 2 ^ 32 /\ rsize reg <= 2 ^ 31;
  inv_block b o : is_block s A b o -> in_region s b o /\ (2 ^ Z.of_nat o | b) /\ (4 <= o)%nat;
  inv_disj b o b' o' : is_block s A b o -> is_block s A b' o' ->
    (b = b' /\ o = o') \/ b + 2 ^ Z.of_nat o <= b' \/ b' + 2 ^ Z.of_nat o' <= b;
  inv_nodup o l : mm_bucket s !! o = Some l -> NoDup l;
  inv_excl b o o' : is_free s b o -> A !! b = Some o' -> False;
  inv_cover i reg x : mm_region_list s !! i = Some reg ->
    start reg <= x < start reg + rsize reg ->
    exists b o, is_block s A b o /\ b <= x < b + 2 ^ Z.of_nat o;
}.

(** The other half of the block of order [o + 1] that [b] is a half of. *)
Definition buddy (b : Z) (o : nat) : Z :=
  if Z.testbit b (Z.of_nat o) then b - 2 ^ Z.of_nat o else b + 2 ^ Z.of_nat o.

Definition region_id (s : mm) (b : Z) : option nat := region <$> headers s !! b.

(** No two free buddies of one region, except at the block [ex]. *)
Definition coalesced (s : mm) (ex : option (Z * nat)) : Prop :=
  forall b o, is_free s b o -> is_free s (buddy b o) o ->
    region_id s b = region_id s (buddy b o) ->
    ex = Some (b, o) \/ ex = Some (buddy b o, o).

(** The block's region has all the flags asked for. *)
Definition matches (s : mm) (fl : Z) (b : Z) : Prop :=
  exists r reg, region_id s b = Some r /\ mm_region_list s !! r = Some reg /\ Z.land (flags reg) fl = fl.

(** Some free block could serve a request of [order] with [fl]. *)
Definition serves (s : mm) (order : nat) (fl : Z) : Prop :=
  exists b o, (order <= o)%nat /\ is_free s b o /\ matches s fl b.

(** ** Orders *)

Lemma order_to_size_pow o : (o <= 31)%nat -> order_to_size o = 2 ^ Z.of_nat o.
Proof.
  intros Ho. unfold order_to_size. rewrite Z.shiftl_1_l. apply wrap32_small.
  split; [apply Z.pow_nonneg; lia|]. apply Z.pow_lt_mono_r; lia.
Qed.

Lemma half_bit s : 0 <= s -> s = 2 * Z.shiftr s 1 + (if Z.testbit s 0 then 1 else 0).
Proof.
  intros Hs. rewrite Z.shiftr_div_pow2, Z.bit0_odd by lia.
  change (2 ^ 1) with 2. pose proof (Z.div2_odd s) as E. rewrite Z.div2_div in E.
  unfold Z.b2z in E. destruct (Z.odd s); lia.
Qed.

Lemma half_range n s : 0 <= s < 2 ^ Z.of_nat (S n) -> 0 <= Z.shiftr s 1 < 2 ^ Z.of_nat n.
Proof.
  intros Hs. rewrite Nat2Z.inj_succ, Z.pow_succ_r in Hs by lia.
  pose proof (half_bit s). destruct (Z.testbit s 0); lia.
Qed.

Lemma log2_half s : 1 < s -> Z.log2 s = 1 + Z.log2 (Z.shiftr s 1).
Proof.
  intros Hs. rewrite Z.log2_shiftr by lia. pose proof (Z.log2_pos s). lia.
Qed.

(** Exactly one bit is set in the powers of two. *)
Lemma popcount_pow2 n s :
  0 < s < 2 ^ Z.of_nat n ->
  1 <= count_bit_set_n n s /\ (count_bit_set_n n s = 1 <-> s = 2 ^ Z.log2 s).
Proof.
  revert s. induction n as [|n IH]; intros s Hs; [simpl in Hs; lia|]. cbn [count_bit_set_n].
  rewrite bool_decide_eq_false_2 by lia.
  pose proof (half_bit s) as Hb. pose proof (half_range n s) as Hr.
  destruct (decide (Z.shiftr s 1 = 0)) as [E|E].
  - rewrite E in *. assert (s = 1) as -> by (destruct (Z.testbit s 0); lia).
    destruct n; simpl; split; done || lia.
  - destruct (IH (Z.shiftr s 1)) as [IH1 IH2]; [lia|].
    rewrite (log2_half s), Z.pow_add_r by (try apply Z.log2_nonneg; destruct (Z.testbit s 0); lia).
    pose proof (Z.log2_nonneg (Z.shiftr s 1)) as Hl.
    destruct (Z.testbit s 0).
    + split; [lia|]. split; [lia|]. intros Hodd. exfalso.
      pose proof (Z.pow_pos_nonneg 2 (Z.log2 (Z.shiftr s 1))). lia.
    + rewrite Z.add_0_l. split; [lia|]. rewrite IH2. lia.
Qed.

Lemma size_to_order_n_spec n s order cnt :
  0 <= s < 2 ^ Z.of_nat n ->
  size_to_order_n n s order cnt =
    (if bool_decide (s = 0) then order else order + 1 + Z.log2 s, cnt + count_bit_set_n n s).
Proof.
  revert s order cnt. induction n as [|n IH]; intros s order cnt Hs; cbn [size_to_order_n count_bit_set_n].
  - simpl in Hs. rewrite bool_decide_eq_true_2 by lia. f_equal. lia.
  - case_bool_decide as E; [f_equal; lia|]. rewrite IH by (by apply half_range).
    pose proof (half_bit s). case_bool_decide as E'.
    + assert (s = 1) as -> by (rewrite E' in *; destruct (Z.testbit s 0); lia).
      f_equal; simpl; lia.
    + rewrite (log2_half s) by (pose proof (half_range n s); destruct (Z.testbit s 0); lia). f_equal; lia.
Qed.

(** [size_to_order] is the ceiling of the base-2 logarithm. *)
Lemma size_to_order_log2_up s : 1 <= s < 2 ^ 32 -> size_to_order s = Z.log2_up s.
Proof.
  intros Hs. unfold size_to_order. rewrite (size_to_order_n_spec 32) by (simpl; lia).
  rewrite (bool_decide_eq_false_2 (s = 0)), Z.add_0_l by lia.
  destruct (popcount_pow2 32 s) as [_ Hp]; [simpl; lia|].
  pose proof (Z.log2_log2_up_exact s) as Hx. pose proof (Z.le_log2_log2_up s).
  pose proof (Z.le_log2_up_succ_log2 s). case_bool_decide as E.
  - assert (Z.log2 s = Z.log2_up s); [|lia]. apply Hx; [lia|]. eexists. by apply Hp.
  - assert (Z.log2 s <> Z.log2_up s); [|lia]. intros E'. apply E, Hp.
    destruct (proj1 (Hx ltac:(lia)) E') as [b Hb].
    assert (0 <= b) by (destruct (decide (0 <= b)); [done|rewrite Z.pow_neg_r in Hb; lia]).
    rewrite Hb at 2. by rewrite Z.log2_pow2.
Qed.

Lemma size_to_order_fits s : 1 <= s < 2 ^ 32 -> s <= 2 ^ size_to_order s.
Proof.
  intros Hs. rewrite size_to_order_log2_up by done.
  destruct (decide (s = 1)) as [->|]; [by vm_compute|]. apply Z.log2_up_spec. lia.
Qed.

Lemma size_to_order_pow2 k : 0 <= k < 32 -> size_to_order (2 ^ k) = k.
Proof.
  intros Hk. rewrite size_to_order_log2_up; [apply Z.log2_up_pow2; lia|].
  pose proof (Z.pow_pos_nonneg 2 k). pose proof (Z.pow_lt_mono_r 2 k 32). lia.
Qed.

(** ** Bucket updates *)

Lemma pow_pos (o : nat) : 0 < 2 ^ Z.of_nat o.
Proof. apply Z.pow_pos_nonneg; lia. Qed.

Lemma pow_S (o : nat) : 2 ^ Z.of_nat (S o) = 2 * 2 ^ Z.of_nat o.
Proof. rewrite Nat2Z.inj_succ, Z.pow_succ_r; lia. Qed.

#[local] Hint Resolve pow_pos : core.

Lemma is_free_del s b x o : is_free (list_del s b) x o <-> is_free s x o /\ x <> b.
Proof.
  unfold is_free, list_del. simpl. rewrite list_lookup_fmap. split.
  - intros (l & Hl & Hx). destruct (mm_bucket s !! o) as [l0|] eqn:E; simplify_eq/=.
    apply list_elem_of_filter in Hx as [? ?]. eauto.
  - intros [(l & -> & Hx) Hne]. simpl. eexists. split; [done|]. by apply list_elem_of_filter.
Qed.

Definition add_bucket (s : mm) (o : nat) (b : Z) : mm :=
  set_bucket s (alter (fun l => l ++ [b]) o (mm_bucket s)).

Lemma list_add_eq s o b :
  length (mm_bucket s) = 32%nat -> (o < 32)%nat -> list_add s o b = Ret (add_bucket s o b).
Proof.
  intros Hl Ho. unfold list_add, add_bucket.
  destruct (lookup_lt_is_Some_2 (mm_bucket s) o) as [l E]; [lia|]. rewrite E. simpl.
  do 2 f_equal. apply list_eq. intros i. destruct (decide (i = o)) as [->|].
  - rewrite list_lookup_insert_eq by lia. by rewrite list_lookup_alter_eq, E.
  - by rewrite list_lookup_insert_ne, list_lookup_alter_ne.
Qed.

Lemma is_free_add s o b x o' :
  length (mm_bucket s) = 32%nat -> (o < 32)%nat ->
  is_free (add_bucket s o b) x o' <-> is_free s x o' \/ (x = b /\ o' = o).
Proof.
  intros Hl Ho. unfold is_free, add_bucket. simpl.
  destruct (lookup_lt_is_Some_2 (mm_bucket s) o) as [l E]; [lia|].
  destruct (decide (o' = o)) as [->|Hne].
  - rewrite list_lookup_alter_eq, E. simpl. split.
    + intros (l' & [= <-] & Hx). rewrite elem_of_app, list_elem_of_singleton in Hx. naive_solver.
    + intros [(l' & [= <-] & Hx)|[-> _]]; eexists; (split; [done|]); set_solver.
  - rewrite list_lookup_alter_ne by done. naive_solver.
Qed.

Lemma is_free_lt s A b o : mm_inv s A -> is_free s b o -> (o < 32)%nat.
Proof. intros Hi (l & Hl & _). apply lookup_lt_Some in Hl. rewrite (inv_len _ _ Hi) in Hl. done. Qed.

Lemma nodup_del s b o l :
  (forall o l, mm_bucket s !! o = Some l -> NoDup l) ->
  mm_bucket (list_del s b) !! o = Some l -> NoDup l.
Proof.
  intros Hn. unfold list_del. simpl. rewrite list_lookup_fmap.
  destruct (mm_bucket s !! o) as [l0|] eqn:E; simpl; [|done]. intros [= <-].
  apply NoDup_filter. by eapply Hn.
Qed.

Lemma nodup_add s o' b o l :
  (forall o l, mm_bucket s !! o = Some l -> NoDup l) -> ~ is_free s b o' ->
  mm_bucket (add_bucket s o' b) !! o = Some l -> NoDup l.
Proof.
  intros Hn Hf. unfold add_bucket. simpl. destruct (decide (o = o')) as [->|Hne].
  - rewrite list_lookup_alter_eq. destruct (mm_bucket s !! o') as [l0|] eqn:E; simpl; [|done].
    intros [= <-]. apply NoDup_app. split_and!; [by eapply Hn| |apply NoDup_singleton].
    intros x Hx ->%list_elem_of_singleton. apply Hf. by exists l0.
  - rewrite list_lookup_alter_ne by done. by apply Hn.
Qed.

(** The blocks are the same, only who owns them changed. *)
Lemma inv_same_blocks s A s' A' :
  mm_inv s A -> (forall b o, is_block s' A' b o <-> is_block s A b o) ->
  headers s' = headers s -> mm_region_list s' = mm_region_list s ->
  length (mm_bucket s') = 32%nat ->
  (forall o l, mm_bucket s' !! o = Some l -> NoDup l) ->
  (forall b o o', is_free s' b o -> A' !! b = Some o' -> False) ->
  mm_inv s' A'.
Proof.
  intros Hi Hb Hh Hr Hl Hn Hx. split; try done.
  - intros i reg. rewrite Hr. apply (inv_regions _ _ Hi).
  - intros b o Hbo%Hb. destruct (inv_block _ _ Hi _ _ Hbo) as [Hreg ?]. split; [|done].
    unfold in_region in *. by rewrite Hh, Hr.
  - intros b o b' o' H1%Hb H2%Hb. by eapply (inv_disj _ _ Hi).
  - intros i reg x. rewrite Hr. intros H1 H2.
    destruct (inv_cover _ _ Hi _ _ _ H1 H2) as (b & o & Hbo%Hb & ?). eauto.
Qed.

Lemma block_order_unique s A b o o' :
  mm_inv s A -> is_block s A b o -> is_block s A b o' -> o = o'.
Proof.
  intros Hi H1 H2. pose proof (pow_pos o). pose proof (pow_pos o').
  destruct (inv_disj _ _ Hi _ _ _ _ H1 H2) as [[_ ?]|[?|?]]; [done|lia|lia].
Qed.

Lemma inv_take s A b o :
  mm_inv s A -> is_free s b o -> mm_inv (list_del s b) (<[b := o]> A).
Proof.
  intros Hi Hf. eapply inv_same_blocks; [exact Hi| |done|done| | |].
  - intros x p. unfold is_block. rewrite is_free_del. destruct (decide (x = b)) as [->|Hne].
    + rewrite lookup_insert_eq. split.
      * intros [[_ ?]|[= <-]]; [done|by left].
      * intros Hx. right. f_equal. eapply block_order_unique; [done|by left|exact Hx].
    + rewrite lookup_insert_ne by done. naive_solver.
  - unfold list_del. simpl. rewrite length_fmap. apply (inv_len _ _ Hi).
  - intros p l. apply nodup_del, (inv_nodup _ _ Hi).
  - intros x p p' [Hx Hne]%is_free_del. rewrite lookup_insert_ne by done. by apply (inv_excl _ _ Hi) with p.
Qed.

Lemma inv_put s A b o :
  mm_inv s A -> A !! b = Some o -> mm_inv (add_bucket s o b) (delete b A) /\ (o < 32)%nat.
Proof.
  intros Hi HA.
  assert (Ho : (o < 32)%nat).
  { destruct (inv_block _ _ Hi b o) as [(h & reg & _ & _ & Hreg & ? & ?) _]; [by right|].
    destruct (inv_regions _ _ Hi _ _ Hreg) as (_ & _ & Hsz).
    assert (Hp : 2 ^ Z.of_nat o <= 2 ^ 31) by lia. apply Z.pow_le_mono_r_iff in Hp; lia. }
  pose proof (inv_len _ _ Hi) as Hlen.
  split; [|done]. eapply inv_same_blocks; [exact Hi| |done|done| | |].
  - intros x p. unfold is_block. rewrite is_free_add by done. destruct (decide (x = b)) as [->|Hne].
    + rewrite lookup_delete_eq. naive_solver.
    + rewrite lookup_delete_ne by done. naive_solver.
  - unfold add_bucket. simpl. by rewrite length_alter.
  - intros p l. apply nodup_add; [apply (inv_nodup _ _ Hi)|]. intros Hf. by eapply (inv_excl _ _ Hi).
  - intros x p p' [Hx|[-> ->]]%is_free_add; [| by rewrite lookup_delete_eq|done|done].
    intros [_ ?]%lookup_delete_Some. by eapply (inv_excl _ _ Hi).
Qed.

Lemma inv_used s A n : mm_inv (add_used s n) A <-> mm_inv s A.
Proof. split; intros []; split; done. Qed.

(** ** Splitting *)

Lemma block_bounds s A b o :
  mm_inv s A -> is_block s A b o -> 0 < b /\ b + 2 ^ Z.of_nat o <= 2 ^ 32 /\ (o < 32)%nat.
Proof.
  intros Hi Hb. destruct (inv_block _ _ Hi _ _ Hb) as [(h & reg & _ & _ & Hr & ? & ?) _].
  destruct (inv_regions _ _ Hi _ _ Hr) as (? & ? & ?). split_and!; [lia|lia|].
  assert (Hp : 2 ^ Z.of_nat o <= 2 ^ 31) by lia. apply Z.pow_le_mono_r_iff in Hp; lia.
Qed.

(** The state after [split_buffer], [r] being the region of the block. *)
Definition split_state (s : mm) (o : nat) (b : Z) (r : nat) : mm :=
  let b2 := b + 2 ^ Z.of_nat o in
  add_bucket (add_bucket (set_header (set_header (list_del s b) b2 (mk_buffer o r)) b (mk_buffer o r)) o b) o b2.

Lemma length_del s b : length (mm_bucket (list_del s b)) = length (mm_bucket s).
Proof. unfold list_del. simpl. by rewrite length_fmap. Qed.
Lemma length_add s o b : length (mm_bucket (add_bucket s o b)) = length (mm_bucket s).
Proof. unfold add_bucket. simpl. by rewrite length_alter. Qed.
Lemma is_free_set_header s x h b o : is_free (set_header s x h) b o <-> is_free s b o.
Proof. done. Qed.

Lemma split_buffer_eq s A b o :
  mm_inv s A -> is_free s b (S o) ->
  exists h, headers s !! b = Some h /\ split_buffer s o b = Ret (split_state s o b (region h)).
Proof.
  intros Hi Hf. destruct (block_bounds s A b (S o)) as (? & Hb & ?); [done|by left|].
  destruct (inv_block _ _ Hi b (S o)) as [(h & reg & Hh & _) _]; [by left|].
  exists h. split; [done|]. unfold split_buffer. rewrite order_to_size_pow by lia.
  rewrite pow_S in Hb. pose proof (pow_pos o). rewrite wrap32_small by lia.
  unfold list_del at 1. simpl. rewrite Hh. simpl.
  pose proof (inv_len _ _ Hi) as Hlen.
  rewrite list_add_eq; [|simpl; by rewrite length_fmap|lia]. simpl.
  rewrite list_add_eq; [|rewrite length_add; simpl; by rewrite length_fmap|lia]. done.
Qed.

Lemma split_free s A b o r x p :
  mm_inv s A -> is_free s b (S o) ->
  is_free (split_state s o b r) x p <->
    (is_free s x p /\ x <> b) \/ (x = b /\ p = o) \/ (x = b + 2 ^ Z.of_nat o /\ p = o).
Proof.
  intros Hi Hf. pose proof (inv_len _ _ Hi) as Hlen. pose proof (is_free_lt _ _ _ _ Hi Hf).
  unfold split_state. rewrite is_free_add, is_free_add, !is_free_set_header, is_free_del; [tauto| | | |];
    rewrite ?length_add; simpl; rewrite ?length_fmap; (lia || done).
Qed.

Lemma split_block s A b o r x p :
  mm_inv s A -> is_free s b (S o) ->
  is_block (split_state s o b r) A x p <->
    (is_block s A x p /\ x <> b) \/ (x = b /\ p = o) \/ (x = b + 2 ^ Z.of_nat o /\ p = o).
Proof.
  intros Hi Hf. unfold is_block. rewrite (split_free s A) by done.
  assert (A !! b = None) by (destruct (A !! b) eqn:E; [by destruct (inv_excl _ _ Hi _ _ _ Hf E)|done]).
  assert (A !! x = Some p -> x <> b) by (intros ? ->; congruence). tauto.
Qed.

(** Other blocks' headers are not the two that the split writes. *)
Lemma split_header s A b o r x p :
  mm_inv s A -> is_free s b (S o) -> is_block s A x p -> x <> b ->
  headers (split_state s o b r) !! x = headers s !! x.
Proof.
  intros Hi Hf Hx Hne. unfold split_state. simpl.
  rewrite !lookup_insert_ne; [done| |done]. intros <-.
  pose proof (pow_pos o). pose proof (pow_pos p). pose proof (pow_S o).
  destruct (inv_disj _ _ Hi b (S o) (b + 2 ^ Z.of_nat o) p) as [[??]|[?|?]]; [by left|done|lia..].
Qed.

Lemma inv_split s A b o h :
  mm_inv s A -> is_free s b (S o) -> headers s !! b = Some h -> (4 <= o)%nat ->
  mm_inv (split_state s o b (region h)) A.
Proof.
  intros Hi Hf Hh Ho. set (s' := split_state s o b (region h)).
  assert (HB := fun x p => split_block s A b o (region h) x p Hi Hf). fold s' in HB.
  assert (Hblk : is_block s A b (S o)) by (by left).
  destruct (inv_block _ _ Hi _ _ Hblk) as [(h' & reg & Hh' & Hbk & Hreg & Hlo & Hhi) [Hal _]].
  assert (h' = h) as -> by congruence. rewrite pow_S in Hhi, Hal. pose proof (pow_pos o) as Hpo.
  assert (Hal' : (2 ^ Z.of_nat o | b)) by (etrans; [|exact Hal]; apply Z.divide_factor_r).
  split.
  - unfold s', split_state. rewrite !length_add. simpl. rewrite length_fmap. apply (inv_len _ _ Hi).
  - apply (inv_regions _ _ Hi).
  - intros x p [[Hx Hne]|[[-> ->]|[-> ->]]]%HB.
    + destruct (inv_block _ _ Hi _ _ Hx) as [Hin ?]. split; [|done].
      unfold in_region in *. unfold s'. rewrite (split_header s A _ _ _ _ p) by done. exact Hin.
    + split_and!; [|done|done]. exists (mk_buffer o (region h)), reg. unfold s', split_state. simpl.
      rewrite lookup_insert_eq. split_and!; done || lia.
    + split_and!; [| |done].
      * exists (mk_buffer o (region h)), reg. unfold s', split_state. simpl.
        rewrite lookup_insert_ne, lookup_insert_eq by lia. split_and!; done || lia.
      * apply Z.divide_add_r; [done|]. reflexivity.
  - assert (Hold : forall x p, is_block s A x p -> x <> b ->
      x + 2 ^ Z.of_nat p <= b \/ b + 2 * 2 ^ Z.of_nat o <= x).
    { intros x p Hx Hne. destruct (inv_disj _ _ Hi _ _ _ _ Hx Hblk) as [[? _]|[?|?]]; [done|by left|].
      rewrite pow_S in *. by right. }
    intros x p y q Hx%HB Hy%HB. pose proof (pow_pos p). pose proof (pow_pos q).
    destruct Hx as [[Hx Hxn]|[[-> ->]|[-> ->]]], Hy as [[Hy Hyn]|[[-> ->]|[-> ->]]];
      try (destruct (Hold _ _ Hx Hxn)); try (destruct (Hold _ _ Hy Hyn)); try lia.
    all: by apply (inv_disj _ _ Hi).
  - intros p l. unfold s', split_state. apply nodup_add; [intros p' l'; apply nodup_add|].
    + intros p'' l''. apply (nodup_del s), (inv_nodup _ _ Hi).
    + rewrite !is_free_set_header, is_free_del. naive_solver.
    + rewrite is_free_add, !is_free_set_header, is_free_del; [|simpl; rewrite length_fmap; apply (inv_len _ _ Hi)|].
      * intros [[Hx _]|[? _]]; [|lia].
        destruct (inv_disj _ _ Hi b (S o) (b + 2 ^ Z.of_nat o) o) as [[??]|[E|E]];
          [done|by left|lia|rewrite pow_S in E; lia|lia].
      * pose proof (is_free_lt _ _ _ _ Hi Hf). lia.
  - intros x p p' Hx HA. assert (Hxb : is_block s' A x p) by (by left).
    apply (split_free s A) in Hx; [|done|done].
    assert (HxA : is_block s A x p') by (by right).
    destruct Hx as [[Hx _]|[[-> _]|[-> _]]].
    + by eapply (inv_excl _ _ Hi).
    + by eapply (inv_excl _ _ Hi).
    + pose proof (pow_pos p').
      destruct (inv_disj _ _ Hi _ _ _ _ Hblk HxA) as [[??]|[E|E]]; [lia|rewrite pow_S in E; lia|lia].
  - intros i reg' x Hr Hx. destruct (inv_cover _ _ Hi _ _ _ Hr Hx) as (y & q & Hy & Hyx).
    destruct (decide (y = b)) as [->|Hne].
    + assert (q = S o) as -> by (eapply block_order_unique; done). rewrite pow_S in Hyx.
      destruct (decide (x < b + 2 ^ Z.of_nat o)).
      * exists b, o. split; [|lia]. apply HB. tauto.
      * exists (b + 2 ^ Z.of_nat o), o. split; [|lia]. apply HB. tauto.
    + exists y, q. split; [|done]. apply HB. tauto.
Qed.

(** ** Merging *)

(** The state after [defragment] joined the free buddies [low] and [high]. *)
Definition merge_state (s : mm) (o : nat) (low : Z) (r : nat) : mm :=
  add_bucket (set_header (list_del (list_del s low) (low + 2 ^ Z.of_nat o)) low (mk_buffer (S o) r)) (S o) low.

Section merge.
Context (s : mm) (A : gmap Z nat) (low : Z) (o : nat) (hl hh : mm_buffer).
Context (Hi : mm_inv s A).
Context (Hlow : is_free s low o) (Hhigh : is_free s (low + 2 ^ Z.of_nat o) o).
Context (Hhl : headers s !! low = Some hl) (Hhh : headers s !! (low + 2 ^ Z.of_nat o) = Some hh).
Context (Hreg : region hl = region hh) (Hal : (2 ^ Z.of_nat (S o) | low)).

Lemma merge_region : exists reg, mm_region_list s !! region hl = Some reg /\
  start reg <= low /\ low + 2 ^ Z.of_nat (S o) <= start reg + rsize reg /\ (S o < 32)%nat /\ (4 <= o)%nat.
Proof.
  destruct (inv_block _ _ Hi _ _ (or_introl Hlow)) as [(h1 & r1 & E1 & _ & Hr1 & ? & ?) [_ ?]].
  destruct (inv_block _ _ Hi _ _ (or_introl Hhigh)) as [(h2 & r2 & E2 & _ & Hr2 & ? & ?) _].
  assert (h1 = hl) as -> by congruence. assert (h2 = hh) as -> by congruence.
  assert (r2 = r1) as -> by congruence. exists r1. rewrite pow_S.
  destruct (inv_regions _ _ Hi _ _ Hr1) as (_ & _ & ?). split_and!; try done; try lia.
  assert (Hp : 2 ^ Z.of_nat (S o) <= 2 ^ 31) by (rewrite pow_S; lia).
  apply Z.pow_le_mono_r_iff in Hp; lia.
Qed.

Lemma merge_len : length (mm_bucket (set_header (list_del (list_del s low) (low + 2 ^ Z.of_nat o)) low
  (mk_buffer (S o) (region hl)))) = 32%nat.
Proof. simpl. rewrite !length_fmap. apply (inv_len _ _ Hi). Qed.

Lemma merge_free x p :
  is_free (merge_state s o low (region hl)) x p <->
    (is_free s x p /\ x <> low /\ x <> low + 2 ^ Z.of_nat o) \/ (x = low /\ p = S o).
Proof.
  destruct merge_region as (_ & _ & _ & _ & ? & _). unfold merge_state.
  rewrite is_free_add, is_free_set_header, !is_free_del by (apply merge_len || lia). tauto.
Qed.

Lemma merge_block x p :
  is_block (merge_state s o low (region hl)) A x p <->
    (is_block s A x p /\ x <> low /\ x <> low + 2 ^ Z.of_nat o) \/ (x = low /\ p = S o).
Proof.
  unfold is_block. rewrite merge_free.
  assert (A !! x = Some p -> x <> low) by (intros HA ->; exact (inv_excl _ _ Hi _ _ _ Hlow HA)).
  assert (A !! x = Some p -> x <> low + 2 ^ Z.of_nat o)
    by (intros HA ->; exact (inv_excl _ _ Hi _ _ _ Hhigh HA)).
  tauto.
Qed.

(** A block other than the two buddies lies outside their union. *)
Lemma merge_outside x p :
  is_block s A x p -> x <> low -> x <> low + 2 ^ Z.of_nat o ->
  x + 2 ^ Z.of_nat p <= low \/ low + 2 ^ Z.of_nat (S o) <= x.
Proof.
  intros Hx H1 H2. pose proof (pow_pos o). pose proof (pow_pos p). rewrite pow_S.
  destruct (inv_disj _ _ Hi _ _ _ _ Hx (or_introl Hlow)) as [[? _]|[?|?]]; [done|lia|].
  destruct (inv_disj _ _ Hi _ _ _ _ Hx (or_introl Hhigh)) as [[? _]|[?|?]]; [done|lia|lia].
Qed.

Lemma inv_merge : mm_inv (merge_state s o low (region hl)) A.
Proof.
  destruct merge_region as (reg & Hr & Hlo & Hhi & Ho & Ho4).
  pose proof (pow_pos o) as Hpo. split.
  - unfold merge_state. rewrite length_add. apply merge_len.
  - apply (inv_regions _ _ Hi).
  - intros x p [(Hx & Hx1 & Hx2)|[-> ->]]%merge_block.
    + destruct (inv_block _ _ Hi _ _ Hx) as [Hin ?]. split; [|done].
      unfold in_region in *. unfold merge_state. simpl. by rewrite lookup_insert_ne.
    + split_and!; [|done|lia]. exists (mk_buffer (S o) (region hl)), reg. simpl.
      rewrite lookup_insert_eq. done.
  - intros x p y q [(Hx & Hx1 & Hx2)|[-> ->]]%merge_block [(Hy & Hy1 & Hy2)|[-> ->]]%merge_block.
    + by apply (inv_disj _ _ Hi).
    + destruct (merge_outside x p); tauto.
    + destruct (merge_outside y q); tauto.
    + by left.
  - intros p l. apply nodup_add.
    + intros p' l'. apply nodup_del. intros p'' l''. apply nodup_del, (inv_nodup _ _ Hi).
    + rewrite is_free_set_header, !is_free_del. tauto.
  - intros x p p' [(Hx & _)|[-> _]]%merge_free HA;
      [exact (inv_excl _ _ Hi _ _ _ Hx HA)|exact (inv_excl _ _ Hi _ _ _ Hlow HA)].
  - intros i reg' x Hr' Hx. destruct (inv_cover _ _ Hi _ _ _ Hr' Hx) as (y & q & Hy & Hyx).
    destruct (decide (y = low)) as [->|H1]; [|destruct (decide (y = low + 2 ^ Z.of_nat o)) as [->|H2]].
    + assert (q = o) as -> by (eapply block_order_unique; [done|done|by left]).
      exists low, (S o). rewrite merge_block, pow_S. split; [tauto|lia].
    + assert (q = o) as -> by (eapply block_order_unique; [done|done|by left]).
      exists low, (S o). rewrite merge_block, pow_S. split; [tauto|lia].
    + exists y, q. rewrite merge_block. split; [tauto|done].
Qed.

End merge.

(** ** Buddies *)

Lemma testbit_aligned b o : (2 ^ Z.of_nat o | b) ->
  exists q, b = q * 2 ^ Z.of_nat o /\ Z.testbit b (Z.of_nat o) = Z.odd q.
Proof.
  intros [q ->]. exists q. split; [done|].
  rewrite Z.mul_pow2_bits, Z.sub_diag, Z.bit0_odd by lia. done.
Qed.

(** An aligned block is the low half of its parent iff bit [o] is clear. *)
Lemma buddy_low b o : (2 ^ Z.of_nat o | b) -> Z.testbit b (Z.of_nat o) = false ->
  (2 ^ Z.of_nat (S o) | b).
Proof.
  intros (q & -> & ->)%testbit_aligned Hq. rewrite pow_S.
  pose proof (Z.div2_odd q) as E. rewrite Hq in E. simpl in E.
  exists (Z.div2 q). rewrite E at 1. lia.
Qed.

Lemma buddy_high b o : (2 ^ Z.of_nat o | b) -> Z.testbit b (Z.of_nat o) = true ->
  (2 ^ Z.of_nat (S o) | b - 2 ^ Z.of_nat o).
Proof.
  intros (q & -> & ->)%testbit_aligned Hq. rewrite pow_S.
  pose proof (Z.div2_odd q) as E. rewrite Hq in E. simpl in E.
  exists (Z.div2 q). rewrite E at 1. lia.
Qed.

Lemma testbit_parent b o : (2 ^ Z.of_nat (S o) | b) ->
  Z.testbit b (Z.of_nat o) = false /\ Z.testbit (b + 2 ^ Z.of_nat o) (Z.of_nat o) = true.
Proof.
  intros [q ->]. rewrite pow_S. split.
  - replace (q * (2 * 2 ^ Z.of_nat o)) with ((2 * q) * 2 ^ Z.of_nat o) by lia.
    rewrite Z.mul_pow2_bits, Z.sub_diag, Z.bit0_odd, Z.odd_mul by lia. done.
  - replace (q * (2 * 2 ^ Z.of_nat o) + 2 ^ Z.of_nat o) with ((1 + 2 * q) * 2 ^ Z.of_nat o) by lia.
    rewrite Z.mul_pow2_bits, Z.sub_diag, Z.bit0_odd, Z.odd_add_mul_2 by lia. done.
Qed.

Lemma buddy_aligned b o : (2 ^ Z.of_nat o | b) -> (2 ^ Z.of_nat o | buddy b o).
Proof.
  intros H. unfold buddy. destruct (Z.testbit _ _).
  - apply Z.divide_sub_r; [done|reflexivity].
  - apply Z.divide_add_r; [done|reflexivity].
Qed.

Lemma buddy_involutive b o : (2 ^ Z.of_nat o | b) -> buddy (buddy b o) o = b.
Proof.
  intros H. unfold buddy at 2. destruct (Z.testbit b (Z.of_nat o)) eqn:E.
  - apply buddy_high in E; [|done]. apply testbit_parent in E as [E _].
    unfold buddy. rewrite E. lia.
  - apply buddy_low in E; [|done]. apply testbit_parent in E as [_ E].
    unfold buddy. rewrite E. lia.
Qed.

Lemma land_pow2_testbit b o : bool_decide (Z.land b (Z.shiftl 1 (Z.of_nat o)) <> 0) = Z.testbit b (Z.of_nat o).
Proof.
  rewrite Z.shiftl_1_l. destruct (Z.testbit b (Z.of_nat o)) eqn:E.
  - apply bool_decide_eq_true_2. intros Hz.
    assert (Hb : Z.testbit (Z.land b (2 ^ Z.of_nat o)) (Z.of_nat o) = true)
      by (rewrite Z.land_spec, E, Z.pow2_bits_true by lia; done).
    by rewrite Hz, Z.bits_0 in Hb.
  - apply bool_decide_eq_false_2. intros Hz. apply Hz. apply Z.bits_inj'. intros n Hn.
    rewrite Z.land_spec, Z.bits_0. destruct (decide (n = Z.of_nat o)) as [->|].
    + by rewrite E.
    + rewrite Z.pow2_bits_false by lia. by rewrite andb_false_r.
Qed.

(** ** Searching a bucket *)

Lemma find_iter_spec s l fl :
  (forall b, b ∈ l -> exists r reg, region_id s b = Some r /\ mm_region_list s !! r = Some reg) ->
  exists res, find_buffer_iter s l fl = Ret res /\
    match res with
    | None => forall b, b ∈ l -> ~ matches s fl b
    | Some b => b ∈ l /\ matches s fl b
    end.
Proof.
  induction l as [|b l IH]; intros Hl; simpl; [eexists; split; [done|set_solver]|].
  destruct (Hl b) as (r & reg & Hr & Hreg); [set_solver|].
  assert (Hm : matches s fl b <-> Z.land (flags reg) fl = fl).
  { unfold matches. rewrite Hr. split; [intros (? & ? & ? & ? & ?); simplify_eq; congruence|eauto]. }
  unfold region_id in Hr. destruct (headers s !! b) as [h|]; simplify_eq/=. rewrite Hreg. simpl.
  case_bool_decide as E; [exists (Some b); split; [done|split; [set_solver|tauto]]|].
  destruct IH as (res & -> & Hres); [intros; apply Hl; set_solver|]. exists res. split; [done|].
  destruct res; [set_solver|]. intros x [->|Hx]%elem_of_cons; [tauto|by apply Hres].
Qed.

(** The search returns the first match. *)
Lemma find_iter_first s l1 b l2 fl :
  (forall x, x ∈ l1 -> ~ matches s fl x /\ exists r reg, region_id s x = Some r /\ mm_region_list s !! r = Some reg) ->
  matches s fl b -> find_buffer_iter s (l1 ++ b :: l2) fl = Ret (Some b).
Proof.
  intros Hl1 (r & reg & Hr & Hreg & Hfl). induction l1 as [|x l1 IH]; simpl.
  - unfold region_id in Hr. destruct (headers s !! b); simplify_eq/=. rewrite Hreg. simpl.
    by rewrite bool_decide_eq_true_2.
  - destruct (Hl1 x) as (Hn & rx & regx & Hrx & Hregx); [set_solver|].
    assert (Hne : Z.land (flags regx) fl <> fl) by (intros ?; apply Hn; by exists rx, regx).
    unfold region_id in Hrx. destruct (headers s !! x); simplify_eq/=. rewrite Hregx. simpl.
    rewrite bool_decide_eq_false_2 by done. apply IH. intros; apply Hl1; set_solver.
Qed.

Lemma block_region s A b o : mm_inv s A -> is_block s A b o ->
  exists r reg, region_id s b = Some r /\ mm_region_list s !! r = Some reg.
Proof.
  intros Hi Hb. destruct (inv_block _ _ Hi _ _ Hb) as [(h & reg & Hh & _ & Hr & _) _].
  exists (region h), reg. unfold region_id. by rewrite Hh.
Qed.

Lemma find_bucket_spec s A o fl : mm_inv s A ->
  exists res, find_buffer_in_bucket s o fl = Ret res /\
    match res with
    | None => forall b, is_free s b o -> ~ matches s fl b
    | Some b => is_free s b o /\ matches s fl b /\ (o <= 31)%nat
    end.
Proof.
  intros Hi. unfold find_buffer_in_bucket. case_bool_decide as Ho; unfold MAX_ADDRESSABLE_MEM_ORDER in Ho.
  { exists None. split; [done|]. intros b Hb. apply (is_free_lt _ _ _ _ Hi) in Hb. lia. }
  pose proof (inv_len _ _ Hi) as Hlen.
  destruct (lookup_lt_is_Some_2 (mm_bucket s) o) as [l Hl]; [lia|]. rewrite Hl. simpl.
  case_bool_decide as Hnil.
  { exists None. split; [done|]. intros b (l' & E & Hb). simplify_eq. by apply elem_of_nil in Hb. }
  destruct (find_iter_spec s l fl) as (res & -> & Hres).
  { intros b Hb. apply (block_region s A b o Hi). left. by exists l. }
  exists res. split; [done|]. destruct res as [b|].
  - destruct Hres. split_and!; [by exists l|done|lia].
  - intros b (l' & E & Hb). simplify_eq. by apply Hres.
Qed.

(** ** The split, seen by the search and by the buddies *)

Lemma split_region_id s A b o h x p :
  mm_inv s A -> is_free s b (S o) -> headers s !! b = Some h -> is_block s A x p ->
  region_id (split_state s o b (region h)) x = region_id s x.
Proof.
  intros Hi Hf Hh Hx. unfold region_id. destruct (decide (x = b)) as [->|Hne].
  - unfold split_state. simpl. by rewrite lookup_insert_eq, Hh.
  - by rewrite (split_header s A b o (region h) x p).
Qed.

Lemma split_bucket s A b o r p l :
  mm_inv s A -> is_free s b (S o) -> mm_bucket s !! p = Some l -> (p <= o)%nat ->
  mm_bucket (split_state s o b r) !! p =
    Some (if decide (p = o) then l ++ [b; b + 2 ^ Z.of_nat o] else l).
Proof.
  intros Hi Hf Hl Hp.
  assert (Hbl : filter (fun x => x <> b) l = l).
  { apply filter_id. intros x Hx ->.
    assert (p = S o); [|lia]. apply (block_order_unique s A b p (S o) Hi); [left; by exists l|by left]. }
  unfold split_state, add_bucket. simpl. destruct (decide (p = o)) as [->|Hne].
  - by rewrite !list_lookup_alter_eq, list_lookup_fmap, Hl; simpl; rewrite Hbl, <- app_assoc.
  - rewrite !list_lookup_alter_ne, list_lookup_fmap, Hl by done. simpl. by rewrite Hbl.
Qed.

Lemma coalesced_weaken s ex : coalesced s None -> coalesced s ex.
Proof. intros Hc b o H1 H2 H3. by destruct (Hc b o H1 H2 H3). Qed.

Lemma coalesced_split s A b o h :
  mm_inv s A -> is_free s b (S o) -> headers s !! b = Some h ->
  coalesced s (Some (b, S o)) -> coalesced (split_state s o b (region h)) (Some (b, o)).
Proof.
  intros Hi Hf Hh Hc x p Hx Hy Hr. rewrite (split_free s A) in Hx, Hy by done.
  destruct (inv_block _ _ Hi _ _ (or_introl Hf)) as [_ [Hal _]].
  apply testbit_parent in Hal as [E1 E2].
  destruct Hx as [[Hx Hxn]|[[-> ->]|[-> ->]]]; [|by left|].
  - destruct (inv_block _ _ Hi _ _ (or_introl Hx)) as [_ [Hxal _]].
    destruct Hy as [[Hy Hyn]|[[Ey ->]|[Ey ->]]].
    + rewrite !(split_region_id s A b o h _ p) in Hr by (done || by left).
      destruct (Hc x p Hx Hy Hr); naive_solver.
    + right. by rewrite Ey.
    + exfalso. apply Hxn. rewrite <- (buddy_involutive x o Hxal), Ey. unfold buddy. rewrite E2. lia.
  - right. unfold buddy. rewrite E2. do 2 f_equal. lia.
Qed.

Lemma coalesced_take s b o : coalesced s (Some (b, o)) -> coalesced (list_del s b) None.
Proof.
  intros Hc x p [Hx Hxn]%is_free_del [Hy Hyn]%is_free_del Hr.
  destruct (Hc x p Hx Hy Hr); naive_solver.
Qed.

(** ** [fill_bucket] *)

(** What a successful split or fill leaves alone. *)
Record same_below (s : mm) (A : gmap Z nat) (o : nat) (s' : mm) : Prop := {
  sb_regions : mm_region_list s' = mm_region_list s;
  sb_used : used s' = used s;
  sb_total : total s' = total s;
  sb_bucket p : (p < o)%nat -> mm_bucket s' !! p = mm_bucket s !! p;
  sb_region_id x p : is_block s A x p -> (p < o)%nat -> is_block s' A x p /\ region_id s' x = region_id s x;
}.

Lemma same_below_matches s A o s' x p fl :
  same_below s A o s' -> is_block s A x p -> (p < o)%nat -> matches s' fl x <-> matches s fl x.
Proof.
  intros Hs Hx Hp. unfold matches. destruct (sb_region_id _ _ _ _ Hs x p Hx Hp) as [_ ->].
  by rewrite (sb_regions _ _ _ _ Hs).
Qed.

(** Splitting the first match one order up, after [s0] became [s] above [o]. *)
Lemma split_step s0 s A o fl b :
  mm_inv s0 A -> find_buffer_in_bucket s0 o fl = Ret None -> (o <= 31)%nat ->
  same_below s0 A (S o) s -> mm_inv s A -> (4 <= o)%nat ->
  is_free s b (S o) -> matches s fl b -> coalesced s (Some (b, S o)) ->
  exists s', split_buffer s o b = Ret s' /\ mm_inv s' A /\ same_below s0 A o s' /\
    find_buffer_in_bucket s' o fl = Ret (Some b) /\ coalesced s' (Some (b, o)).
Proof.
  intros Hi0 Hnone Ho Hsb Hi Ho4 Hf Hm Hc.
  destruct (split_buffer_eq s A b o Hi Hf) as (h & Hh & ->).
  set (s' := split_state s o b (region h)). exists s'.
  assert (Hlow : forall x p, is_block s0 A x p -> (p <= o)%nat ->
    is_block s' A x p /\ region_id s' x = region_id s0 x).
  { intros x p Hx Hp. destruct (sb_region_id _ _ _ _ Hsb x p Hx) as [Hx' E]; [lia|]. split.
    - apply split_block; [done|done|]. left. split; [done|]. intros ->.
      assert (p = S o) by (eapply block_order_unique; [exact Hi|exact Hx'|by left]). lia.
    - unfold s'. by rewrite (split_region_id s A b o h x p). }
  split; [done|]. split; [by apply inv_split|]. split; [|split; [|by apply (coalesced_split s A)]].
  - split; [apply Hsb|apply Hsb|apply Hsb| |].
    + intros p Hp. pose proof (inv_len _ _ Hi) as Hlen.
      destruct (lookup_lt_is_Some_2 (mm_bucket s) p) as [l Hl]; [lia|].
      unfold s'. rewrite (split_bucket s A b o (region h) p l) by (done || lia).
      rewrite decide_False by lia. rewrite <- Hl. apply (sb_bucket _ _ _ _ Hsb). lia.
    + intros x p Hx Hp. apply Hlow; [done|lia].
  - destruct (find_bucket_spec s0 A o fl Hi0) as (res & E & Hres). rewrite Hnone in E. simplify_eq.
    pose proof (inv_len _ _ Hi0) as Hlen.
    destruct (lookup_lt_is_Some_2 (mm_bucket s0) o) as [l Hl]; [lia|].
    unfold find_buffer_in_bucket. unfold MAX_ADDRESSABLE_MEM_ORDER.
    rewrite bool_decide_eq_false_2 by lia.
    unfold s'. rewrite (split_bucket s A b o (region h) o l); [|done|done| |done].
    2:{ rewrite (sb_bucket _ _ _ _ Hsb) by lia. done. }
    rewrite decide_True by done. simpl. rewrite bool_decide_eq_false_2 by (by destruct l).
    apply find_iter_first.
    + intros x Hx. assert (Hxf : is_block s0 A x o) by (left; by exists l).
      destruct (Hlow x o Hxf) as [Hx' E]; [done|]. fold s'. split.
      * unfold matches. rewrite E. intros Hm'. apply (Hres x); [by exists l|].
        unfold matches. by rewrite <- (sb_regions _ _ _ _ Hsb).
      * apply (block_region s' A x o); [by apply inv_split|done].
    + unfold matches in *. rewrite (split_region_id s A b o h b (S o)); [exact Hm|done|done|done|by left].
Qed.

Lemma fill_bucket_spec n s A o fl :
  mm_inv s A -> (4 <= o)%nat -> (32 <= n + o)%nat -> coalesced s None ->
  find_buffer_in_bucket s o fl = Ret None ->
  exists s' r, fill_bucket n s o fl = Ret (s', r) /\
    ((r = - ENOMEM /\ s' = s /\ ~ serves s o fl) \/
     (r = 0 /\ mm_inv s' A /\ same_below s A o s' /\
      exists b, find_buffer_in_bucket s' o fl = Ret (Some b) /\ coalesced s' (Some (b, o)))).
Proof.
  revert s o. induction n as [|n IH]; intros s o Hi Ho4 Hn Hc Hnone; cbn [fill_bucket];
    unfold MAX_ADDRESSABLE_MEM_ORDER in *; case_bool_decide as Ho.
  1, 3: eexists _, _; split; [done|]; left; split_and!; [done..|];
    intros (b & p & Hp & Hf & _); apply (is_free_lt _ _ _ _ Hi) in Hf; lia.
  1: lia.
  destruct (find_bucket_spec s A o fl Hi) as (res0 & E0 & Hres0). rewrite Hnone in E0. simplify_eq.
  rewrite Nat.add_1_r.
  destruct (find_bucket_spec s A (S o) fl Hi) as (res & Efind & Hres). rewrite Efind. simpl.
  assert (Hrefl : same_below s A (S o) s) by (split; done).
  destruct res as [b|].
  - destruct Hres as (Hf & Hm & _).
    destruct (split_step s s A o fl b) as (s' & -> & ? & ? & ? & ?); try done; [lia|by apply coalesced_weaken|].
    simpl. eexists _, _. split; [done|]. right. eauto 10.
  - destruct (IH s (S o) Hi) as (s1 & r1 & -> & Hcase); [lia|lia|done|done|]. simpl.
    destruct Hcase as [(-> & -> & Hns)|(-> & Hi1 & Hsb1 & b & Hfb & Hc1)].
    + rewrite bool_decide_eq_true_2 by done. eexists _, _. split; [done|]. left. split_and!; [done..|].
      intros (b & p & Hp & Hf & Hm). destruct (decide (p = o)) as [->|]; [by apply (Hres0 b)|].
      apply Hns. exists b, p. split; [lia|done].
    + rewrite bool_decide_eq_false_2 by lia. rewrite Hfb. simpl.
      destruct (find_bucket_spec s1 A (S o) fl Hi1) as (res1 & E1 & Hres1). rewrite Hfb in E1. simplify_eq.
      destruct Hres1 as (Hf & Hm & _).
      destruct (split_step s s1 A o fl b) as (s' & -> & ? & ? & ? & ?); try done; [lia|].
      simpl. eexists _, _. split; [done|]. right. eauto 10.
Qed.

(** ** [get_buffer] *)

#[local] Arguments fill_bucket : simpl never.

Lemma get_buffer_spec (n : nat) s A (o : nat) fl :
  mm_inv s A -> (4 <= o)%nat -> coalesced s None -> (Z.land fl MM_DMA = 0 -> (0 < n)%nat) ->
  exists s' res, get_buffer n s o fl = Ret (s', res) /\
    match res with
    | None => s' = s /\ ~ serves s o fl /\ (Z.land fl MM_DMA = 0 -> ~ serves s o MM_DMA)
    | Some b => mm_inv s' A /\ is_free s' b o /\ coalesced s' (Some (b, o)) /\
        mm_region_list s' = mm_region_list s /\ used s' = used s /\
        (matches s' fl b \/ Z.land fl MM_DMA = 0 /\ ~ serves s o fl /\ matches s' MM_DMA b)
    end.
Proof.
  revert fl. induction n as [|n IH]; intros fl Hi Ho Hc Hn; cbn [get_buffer];
    destruct (find_bucket_spec s A o fl Hi) as (res & E & Hres); rewrite E; simpl.
  all: destruct res as [b|]; [destruct Hres as (Hf & Hm & _); eexists _, _; split; [done|];
    split_and!; try done; [by apply coalesced_weaken|by left]|].
  all: destruct (fill_bucket_spec 32 s A o fl Hi Ho ltac:(lia) Hc E)
    as (s1 & r & -> & [(-> & -> & Hns)|(-> & Hi1 & Hsb & b & Hfb & Hc1)]); simpl.
  2, 4: rewrite Hfb; simpl; destruct (find_bucket_spec s1 A o fl Hi1) as (res & E1 & Hres1);
    rewrite Hfb in E1; simplify_eq; destruct Hres1 as (Hf & Hm & _); eexists _, _; split; [done|];
    split_and!; try done; [apply Hsb|apply Hsb|by left].
  - rewrite bool_decide_eq_true_2; [|intros Hz; specialize (Hn Hz); lia].
    eexists _, _. split; [done|]. split_and!; [done..|]. intros Hz. specialize (Hn Hz). lia.
  - case_bool_decide as Hd; [eexists _, _; split; [done|]; split_and!; done|].
    assert (Hz : Z.land fl MM_DMA = 0) by (destruct (decide (Z.land fl MM_DMA = 0)); tauto).
    destruct (IH MM_DMA Hi Ho Hc) as (s' & res & -> & Hcase); [done|].
    eexists _, _. split; [done|]. destruct res as [b|].
    + destruct Hcase as (? & ? & ? & ? & ? & [Hm|[? _]]); [|done]. split_and!; try done. by right.
    + by destruct Hcase as (-> & ? & _).
Qed.

(** ** [kmalloc] *)

Definition alloc_order (size : Z) : nat := Z.to_nat (size_to_order (size + sizeof_mm_buffer)).

Lemma alloc_order_spec size : 0 < size < 2 ^ 32 - sizeof_mm_buffer ->
  (5 <= alloc_order size <= 32)%nat /\ size + sizeof_mm_buffer <= 2 ^ Z.of_nat (alloc_order size) /\
  0 <= size_to_order (size + sizeof_mm_buffer).
Proof.
  unfold alloc_order, sizeof_mm_buffer. intros Hs.
  pose proof (size_to_order_fits (size + 16)) as Hfit.
  rewrite (size_to_order_log2_up (size + 16)) in * by lia.
  assert (Z.log2_up 17 <= Z.log2_up (size + 16)) by (apply Z.log2_up_le_mono; lia).
  assert (Z.log2_up (size + 16) <= Z.log2_up (2 ^ 32)) by (apply Z.log2_up_le_mono; lia).
  rewrite Z.log2_up_pow2 in * by lia. change (Z.log2_up 17) with 5 in *.
  rewrite Z2Nat.id by lia. lia.
Qed.

Lemma kmalloc_spec s A size fl :
  mm_inv s A -> coalesced s None -> 0 < size < 2 ^ 32 - sizeof_mm_buffer ->
  let o := alloc_order size in
  (exists s' b, kmalloc s size fl = Ret (s', b + sizeof_mm_buffer) /\ 0 < b /\
     A !! b = None /\ mm_inv s' (<[b := o]> A) /\ coalesced s' None /\
     mm_region_list s' = mm_region_list s /\ used s' = wrap32 (used s + order_to_size o) /\
     (matches s' fl b \/ Z.land fl MM_DMA = 0 /\ ~ serves s o fl /\ matches s' MM_DMA b)) \/
  (kmalloc s size fl = Ret (add_used s (order_to_size o), 0) /\ ~ serves s o fl /\
     (Z.land fl MM_DMA = 0 -> ~ serves s o MM_DMA)).
Proof.
  intros Hi Hc Hs o. destruct (alloc_order_spec size Hs) as (Ho & Hfit & H0). fold o in Ho, Hfit.
  unfold kmalloc. unfold sizeof_mm_buffer in *. rewrite bool_decide_eq_false_2 by lia.
  rewrite (wrap32_small (size + 16)) by lia. rewrite bool_decide_eq_false_2 by lia.
  change (Z.to_nat (size_to_order (size + 16))) with o. unfold MAX_ADDRESSABLE_MEM_ORDER.
  assert (Hnone : (31 < o)%nat -> forall f, ~ serves s o f).
  { intros Hlt f (b & p & Hp & Hf & _). apply (is_free_lt _ _ _ _ Hi) in Hf. lia. }
  case_bool_decide as Hbig; [right; split_and!; [done|by apply Hnone|by intros _; apply Hnone]|].
  set (s1 := add_used s (order_to_size o)).
  assert (Hi1 : mm_inv s1 A) by (by apply inv_used).
  destruct (get_buffer_spec 1 s1 A o fl Hi1) as (s2 & res & -> & Hres); [lia|done|lia|]. simpl.
  destruct res as [b|].
  - left. destruct Hres as (Hi2 & Hf & Hc2 & Hr & Hu & Hm).
    destruct (block_bounds s2 A b o Hi2) as (Hb & Hb2 & _); [by left|].
    assert (32 <= 2 ^ Z.of_nat o) by (change 32 with (2 ^ 5); apply Z.pow_le_mono_r; lia).
    exists (list_del s2 b), b. rewrite wrap32_small by lia. split; [done|]. split; [done|].
    split; [destruct (A !! b) eqn:E; [by destruct (inv_excl _ _ Hi2 _ _ _ Hf E)|done]|].
    split; [by apply inv_take|]. split; [by eapply coalesced_take|]. split; [done|]. split; [done|]. exact Hm.
  - right. destruct Hres as (-> & ? & ?). done.
Qed.

(** ** [defragment] and [kfree] *)

Lemma coalesced_alone s b o :
  coalesced s (Some (b, o)) -> (forall x p, is_free s x p -> (2 ^ Z.of_nat p | x)) ->
  (is_free s (buddy b o) o -> region_id s b = region_id s (buddy b o) -> False) ->
  coalesced s None.
Proof.
  intros Hc Hal Hno x p Hx Hy Hr. exfalso.
  destruct (Hc x p Hx Hy Hr) as [E|E]; simplify_eq; [by apply Hno|].
  apply Hno; rewrite (buddy_involutive x p) by (by apply Hal); done.
Qed.

Lemma coalesced_merge s A low o hl hh b :
  mm_inv s A -> is_free s low o -> is_free s (low + 2 ^ Z.of_nat o) o ->
  headers s !! low = Some hl -> headers s !! (low + 2 ^ Z.of_nat o) = Some hh -> region hl = region hh ->
  (2 ^ Z.of_nat (S o) | low) -> (b = low \/ b = low + 2 ^ Z.of_nat o) ->
  coalesced s (Some (b, o)) -> coalesced (merge_state s o low (region hl)) (Some (low, S o)).
Proof.
  intros Hi Hl Hh Ehl Ehh Hreg Hal Hb Hc x p Hx Hy Hr.
  rewrite (merge_free s A low o hl hh) in Hx, Hy by done.
  destruct Hx as [(Hx & Hx1 & Hx2)|[-> ->]]; [|by left].
  destruct Hy as [(Hy & Hy1 & Hy2)|[Ey ->]]; [|by right; rewrite Ey].
  exfalso. unfold region_id, merge_state in Hr. simpl in Hr. rewrite !lookup_insert_ne in Hr by done.
  destruct (Hc x p Hx Hy Hr); naive_solver.
Qed.

Lemma coalesced_put s b o :
  length (mm_bucket s) = 32%nat -> (o < 32)%nat -> coalesced s None ->
  coalesced (add_bucket s o b) (Some (b, o)).
Proof.
  intros Hl Ho Hc x p [Hx|[-> ->]]%is_free_add Hy Hr; [|by left|done|done].
  apply is_free_add in Hy as [Hy|[Ey ->]]; [|by right; rewrite Ey|done|done].
  by destruct (Hc x p Hx Hy Hr).
Qed.

(** One merge, as [defragment] writes it. *)
Lemma merge_code s A low o hl hh :
  mm_inv s A -> is_free s low o -> is_free s (low + 2 ^ Z.of_nat o) o ->
  headers s !! low = Some hl -> headers s !! (low + 2 ^ Z.of_nat o) = Some hh -> region hl = region hh ->
  (2 ^ Z.of_nat (S o) | low) ->
  list_add (set_header (list_del (list_del s low) (low + 2 ^ Z.of_nat o)) low
    (mk_buffer (bucket hl + 1) (region hl))) (bucket hl + 1) low = Ret (merge_state s o low (region hl)).
Proof.
  intros Hi Hl Hh Ehl Ehh Hreg Hal.
  destruct (inv_block _ _ Hi _ _ (or_introl Hl)) as [(h & _ & E & Hb & _) _].
  assert (h = hl) as -> by congruence. rewrite Hb, Nat.add_1_r.
  apply list_add_eq; [by apply (merge_len s A)|].
  by destruct (merge_region s A low o hl hh) as (_ & _ & _ & _ & ? & _).
Qed.

Lemma defragment_spec (n : nat) s A b (o : nat) :
  mm_inv s A -> is_free s b o -> coalesced s (Some (b, o)) -> (32 <= n + o)%nat ->
  exists s', defragment n s b = Ret s' /\ mm_inv s' A /\ coalesced s' None /\
    mm_region_list s' = mm_region_list s /\ used s' = used s.
Proof.
  revert s b o. induction n as [|n IH]; intros s b o Hi Hf Hc Hn;
    pose proof (is_free_lt _ _ _ _ Hi Hf) as Ho; [lia|].
  destruct (block_bounds s A b o Hi) as (Hb & Hb2 & _); [by left|].
  destruct (inv_block _ _ Hi _ _ (or_introl Hf)) as [(h & reg & Hh & Hbk & Hreg & _) [Hal _]].
  assert (Hals : forall x p, is_free s x p -> (2 ^ Z.of_nat p | x))
    by (intros x p Hx; apply (inv_block _ _ Hi x p); by left).
  destruct Hf as (l & Hl & Hbl). cbn [defragment]. rewrite Hh. simpl. rewrite Hbk, Hl. simpl.
  rewrite bool_decide_eq_false_2 by (intros ->; by apply elem_of_nil in Hbl).
  assert (Hf : is_free s b o) by (by exists l).
  rewrite land_pow2_testbit, order_to_size_pow by lia. pose proof (pow_pos o) as Hpo.
  assert (Hstop : ((is_free s (buddy b o) o -> region_id s b = region_id s (buddy b o) -> False) ->
    exists s', Ret s = Ret s' /\ mm_inv s' A /\ coalesced s' None /\
      mm_region_list s' = mm_region_list s /\ used s' = used s)).
  { intros Hno. exists s. split_and!; try done. by eapply coalesced_alone. }
  assert (Hfl : forall x, x ∈ l <-> is_free s x o).
  { intros x. split; [intros Hx; by exists l|]. intros (l' & E & Hx). by simplify_eq. }
  assert (Hgo : forall low hl hh, is_free s low o -> is_free s (low + 2 ^ Z.of_nat o) o ->
    headers s !! low = Some hl -> headers s !! (low + 2 ^ Z.of_nat o) = Some hh -> region hl = region hh ->
    (2 ^ Z.of_nat (S o) | low) -> (b = low \/ b = low + 2 ^ Z.of_nat o) ->
    exists s', defragment n (merge_state s o low (region hl)) low = Ret s' /\ mm_inv s' A /\
      coalesced s' None /\ mm_region_list s' = mm_region_list s /\ used s' = used s).
  { intros low hl hh H1 H2 E1 E2 Er Ha Hbb.
    destruct (IH (merge_state s o low (region hl)) low (S o)) as (s' & E & ? & ? & Hr' & Hu').
    - by apply (inv_merge s A low o hl hh).
    - apply (merge_free s A low o hl hh); try done. by right.
    - by apply (coalesced_merge s A low o hl hh b).
    - lia.
    - exists s'. split_and!; done. }
  unfold buddy in Hstop. destruct (Z.testbit b (Z.of_nat o)) eqn:Et.
  - pose proof (buddy_high b o Hal Et) as Halp.
    assert (0 <= b - 2 ^ Z.of_nat o) by (apply Z.divide_pos_le in Hal; lia).
    set (low := b - 2 ^ Z.of_nat o) in *. assert (Eb : b = low + 2 ^ Z.of_nat o) by (unfold low; lia).
    clearbody low. subst b. rewrite wrap32_small by lia.
    case_bool_decide as Hin; [|apply Hstop; intros Hx%Hfl; done].
    assert (Hlf : is_free s low o) by (by apply Hfl).
    destruct (inv_block _ _ Hi _ _ (or_introl Hlf)) as [(hl & _ & Ehl & _) _].
    rewrite Ehl. simpl. rewrite Hh. simpl. case_bool_decide as Hrn.
    { apply Hstop. intros _. unfold region_id. rewrite Hh, Ehl. simpl. congruence. }
    assert (Hrr : region hl = region h) by (destruct (decide (region hl = region h)); tauto).
    rewrite (merge_code s A low o hl h) by done. simpl. apply (Hgo _ _ h); try done. by right.
  - pose proof (buddy_low b o Hal Et) as Halp.
    destruct (decide (b + 2 ^ Z.of_nat o = 2 ^ 32)) as [Ew|Ew].
    { rewrite Ew. change (wrap32 (2 ^ 32)) with 0. rewrite bool_decide_eq_false_2.
      - apply Hstop. intros Hx. destruct (block_bounds s A (b + 2 ^ Z.of_nat o) o Hi); [by left|lia].
      - intros Hx%Hfl. destruct (block_bounds s A 0 o Hi); [by left|lia]. }
    rewrite wrap32_small by lia.
    case_bool_decide as Hin; [|apply Hstop; intros Hx%Hfl; done].
    assert (Hhf : is_free s (b + 2 ^ Z.of_nat o) o) by (by apply Hfl).
    destruct (inv_block _ _ Hi _ _ (or_introl Hhf)) as [(hh & _ & Ehh & _) _].
    rewrite Hh. simpl. rewrite Ehh. simpl. case_bool_decide as Hrn.
    { apply Hstop. intros _. unfold region_id. rewrite Hh, Ehh. simpl. congruence. }
    assert (Hrr : region h = region hh) by (destruct (decide (region h = region hh)); tauto).
    rewrite (merge_code s A b o h hh) by done. simpl. apply (Hgo _ _ hh); try done. by left.
Qed.

#[local] Arguments defragment : simpl never.

Lemma kfree_spec s A b o :
  mm_inv s A -> coalesced s None -> A !! b = Some o ->
  exists s', kfree s (b + sizeof_mm_buffer) = Ret s' /\ mm_inv s' (delete b A) /\ coalesced s' None /\
    mm_region_list s' = mm_region_list s /\ used s' = wrap32 (used s - order_to_size o).
Proof.
  intros Hi Hc HA. destruct (block_bounds s A b o Hi) as (Hb & Hb2 & Ho); [by right|].
  destruct (inv_block _ _ Hi b o) as [(h & reg & Hh & Hbk & _) _]; [by right|].
  unfold kfree. unfold sizeof_mm_buffer. rewrite bool_decide_eq_false_2 by lia.
  replace (b + 16 - 16) with b by lia. pose proof (pow_pos o). rewrite wrap32_small by lia.
  assert (Hle : links_equal s b = true).
  { unfold links_equal. apply forallb_forall. intros l Hl%list_elem_of_In.
    apply list_elem_of_lookup in Hl as [p Hp]. rewrite bool_decide_eq_true_2; [done|].
    intros Hbl. eapply (inv_excl _ _ Hi b p); [by exists l|done]. }
  rewrite Hle. simpl. rewrite Hh. simpl. rewrite Hbk.
  set (s1 := add_used s (- order_to_size o)).
  assert (Hi1 : mm_inv s1 A) by (by apply inv_used).
  pose proof (inv_len _ _ Hi1) as Hlen.
  rewrite list_add_eq by done. simpl.
  destruct (inv_put s1 A b o Hi1 HA) as [Hi2 _].
  destruct (defragment_spec 32 (add_bucket s1 o b) (delete b A) b o Hi2) as (s' & -> & ? & ? & ? & ?).
  - apply is_free_add; [done|done|by right].
  - apply coalesced_put; [done|done|exact Hc].
  - lia.
  - exists s'. split_and!; done.
Qed.

(** ** Regions *)

Definition region_ok (reg : mm_region) : Prop :=
  exists k : nat, (4 <= k <= 31)%nat /\ rsize reg = 2 ^ Z.of_nat k /\ (2 ^ Z.of_nat k | start reg) /\
    0 < start reg /\ start reg + rsize reg <= 2 ^ 32.

Definition disjoint_regions (r r' : mm_region) : Prop :=
  start r + rsize r <= start r' \/ start r' + rsize r' <= start r.

(** What [mm_add_region]'s callers must establish of the regions they hand in. *)
Definition regions_ok (regs : list mm_region) : Prop :=
  (forall i r, regs !! i = Some r -> region_ok r) /\
  (forall i j r r', regs !! i = Some r -> regs !! j = Some r' -> i <> j -> disjoint_regions r r').

(** The buckets as the first [mm_add_region] finds them. *)
Definition init_buckets (s : mm) : mm :=
  set_bucket s (if bool_decide (mm_bucket s = []) then replicate 32 [] else mm_bucket s).

Lemma count_bit_set_pow2 (k : nat) : (k < 32)%nat -> count_bit_set (2 ^ Z.of_nat k) = 1.
Proof.
  intros Hk. apply popcount_pow2; [|by rewrite Z.log2_pow2 by lia].
  pose proof (pow_pos k). split; [lia|]. apply Z.pow_lt_mono_r; lia.
Qed.

Lemma mm_add_region_spec s A reg :
  mm_inv (init_buckets s) A -> coalesced (init_buckets s) None -> regions_ok (mm_region_list s ++ [reg]) ->
  exists s', mm_add_region s reg = Ret (s', 0) /\ mm_inv s' A /\ coalesced s' None /\
    mm_region_list s' = mm_region_list s ++ [reg] /\ used s' = used s /\
    total s' = wrap32 (total s + rsize reg).
Proof.
  intros Hi Hc [Hok Hdj].
  set (n := length (mm_region_list s)).
  destruct (Hok n reg) as (k & Hk & Hsz & Hal & H0 & Hend); [by apply list_lookup_middle|].
  pose proof (pow_pos k) as Hpk. pose proof (inv_len _ _ Hi) as Hlen.
  unfold mm_add_region. rewrite Hsz, count_bit_set_pow2 by lia. simpl.
  rewrite size_to_order_pow2, Nat2Z.id, length_app by lia. simpl. fold n. rewrite Nat.add_1_r. simpl.
  rewrite Nat.sub_0_r.
  set (bk := if bool_decide (mm_bucket s = []) then _ else _) in *.
  set (s1 := set_header (mk_mm bk (mm_region_list s ++ [reg]) (headers s) (wrap32 (total s + 2 ^ Z.of_nat k)) (used s))
    (start reg) (mk_buffer k n)).
  rewrite list_add_eq by (done || lia). simpl. eexists. split; [done|].
  assert (Hfree : forall b o, is_free s1 b o <-> is_free (init_buckets s) b o) by done.
  assert (Hold : forall b o, is_block (init_buckets s) A b o ->
    in_region s1 b o /\ b <> start reg /\ (b + 2 ^ Z.of_nat o <= start reg \/ start reg + rsize reg <= b) /\
    region_id s1 b = region_id (init_buckets s) b).
  { intros b o Hb. destruct (inv_block _ _ Hi _ _ Hb) as [(h & r & Hh & Hbk & Hr & Hlo & Hhi) _].
    pose proof (lookup_lt_Some _ _ _ Hr) as Hlt. simpl in Hr, Hlt.
    pose proof (pow_pos o).
    destruct (Hdj (region h) n r reg) as [Hd|Hd];
      [by rewrite lookup_app_l|by apply list_lookup_middle|unfold n; lia| |].
    all: assert (b <> start reg) by lia; split_and!; [|done|lia|unfold region_id; simpl; by rewrite lookup_insert_ne].
    all: exists h, r; simpl; rewrite lookup_insert_ne by done; split_and!; try done; by rewrite lookup_app_l. }
  assert (Hblk : forall b o, is_block (add_bucket s1 k (start reg)) A b o <->
    is_block (init_buckets s) A b o \/ (b = start reg /\ o = k)).
  { intros b o. unfold is_block. rewrite is_free_add by (done || lia). rewrite Hfree. tauto. }
  assert (Hnew : in_region (add_bucket s1 k (start reg)) (start reg) k).
  { exists (mk_buffer k n), reg. simpl. rewrite lookup_insert_eq. split_and!; try done; try (by apply list_lookup_middle); lia. }
  split; [split|split; [|done]].
  - simpl. by rewrite length_alter.
  - intros i r Hr. destruct (Hok i r Hr) as (k' & Hk' & -> & _ & ? & ?). split_and!; [done|done|].
    apply Z.pow_le_mono_r; lia.
  - intros b o [Hb|[-> ->]]%Hblk; [|split_and!; [done|done|lia]].
    split; [by apply Hold|]. apply (inv_block _ _ Hi _ _ Hb).
  - intros b o b' o' [Hb|[-> ->]]%Hblk [Hb'|[-> ->]]%Hblk.
    + by apply (inv_disj _ _ Hi).
    + destruct (Hold _ _ Hb) as (_ & _ & ? & _). lia.
    + destruct (Hold _ _ Hb') as (_ & _ & ? & _). lia.
    + by left.
  - intros o l. apply nodup_add; [apply (inv_nodup _ _ Hi)|]. intros Hf.
    by destruct (Hold (start reg) k) as (_ & ? & _); [left|].
  - intros b o o' [Hf|[-> ->]]%is_free_add Ha; [by eapply (inv_excl _ _ Hi)| |done|lia].
    by destruct (Hold (start reg) o') as (_ & ? & _); [right|].
  - intros i r x Hr Hx. apply lookup_app_Some in Hr as [Hr|[_ Hr]].
    + destruct (inv_cover _ _ Hi i r x Hr Hx) as (b & o & ? & ?). exists b, o. split; [apply Hblk; by left|done].
    + apply list_lookup_singleton_Some in Hr as [_ <-]. exists (start reg), k. rewrite Hblk. split; [by right|lia].
  - assert (Hrid : forall b o, is_block (init_buckets s) A b o -> region_id s1 b <> Some n).
    { intros b o Hb E. destruct (Hold b o Hb) as (_ & _ & _ & E'). rewrite E in E'. symmetry in E'.
      destruct (block_region _ _ _ _ Hi Hb) as (r & reg' & E2 & Hr). rewrite E2 in E'. simplify_eq.
      apply lookup_lt_Some in Hr. simpl in Hr. unfold n in Hr. lia. }
    assert (Hnid : region_id s1 (start reg) = Some n) by (unfold region_id; simpl; by rewrite lookup_insert_eq).
    intros b o Hf Hb Hr. change (region_id s1 b = region_id s1 (buddy b o)) in Hr.
    rewrite is_free_add in Hf, Hb by (done || lia).
    destruct Hf as [Hf|[-> ->]]; destruct Hb as [Hb|[Hb E]].
    + apply (Hc b o Hf Hb). destruct (Hold b o) as (_ & _ & _ & E); [by left|].
      destruct (Hold (buddy b o) o) as (_ & _ & _ & E'); [by left|]. congruence.
    + exfalso. subst o. eapply (Hrid b k); [by left|]. by rewrite Hr, Hb.
    + exfalso. eapply (Hrid (buddy (start reg) k) k); [by left|]. by rewrite <- Hr.
    + exfalso. unfold buddy in Hb. destruct (Z.testbit (start reg) (Z.of_nat k)); lia.
Qed.

(** ** Full coalescing

    When nothing is allocated, every aligned range of a region lies in one
    free block at least as large. *)

Lemma aligned_contains b x (o p : nat) :
  (2 ^ Z.of_nat o | b) -> (2 ^ Z.of_nat p | x) -> (p <= o)%nat ->
  b <= x < b + 2 ^ Z.of_nat o -> x + 2 ^ Z.of_nat p <= b + 2 ^ Z.of_nat o.
Proof.
  intros [q ->] [r ->] Hp Hx. pose proof (pow_pos p).
  assert (E : 2 ^ Z.of_nat o = 2 ^ Z.of_nat (o - p) * 2 ^ Z.of_nat p).
  { rewrite <- Z.pow_add_r by lia. f_equal. lia. }
  rewrite E in *. set (e := 2 ^ Z.of_nat (o - p)) in *. set (w := 2 ^ Z.of_nat p) in *.
  assert (Hr : r < q * e + e) by (apply (Z.mul_lt_mono_pos_r w); lia).
  assert (Hr' : (r + 1) * w <= (q * e + e) * w) by (apply Z.mul_le_mono_nonneg_r; lia). lia.
Qed.

Lemma block_in_region s A b o i reg x :
  mm_inv s A -> regions_ok (mm_region_list s) -> mm_region_list s !! i = Some reg ->
  start reg <= x < start reg + rsize reg -> is_block s A b o -> b <= x < b + 2 ^ Z.of_nat o ->
  region_id s b = Some i /\ start reg <= b /\ b + 2 ^ Z.of_nat o <= start reg + rsize reg.
Proof.
  intros Hi [_ Hdj] Hr Hx Hb Hbx.
  destruct (inv_block _ _ Hi _ _ Hb) as [(h & r & Hh & _ & Hr' & Hlo & Hhi) _].
  destruct (decide (region h = i)) as [E|Hne].
  - subst i. unfold region_id. rewrite Hh. simplify_eq/=. done.
  - destruct (Hdj _ _ _ _ Hr' Hr Hne); lia.
Qed.

Lemma coalesced_covers s i reg (p : nat) x :
  mm_inv s ∅ -> coalesced s None -> regions_ok (mm_region_list s) -> mm_region_list s !! i = Some reg ->
  (2 ^ Z.of_nat p | x) -> start reg <= x -> x + 2 ^ Z.of_nat p <= start reg + rsize reg ->
  exists b o, is_free s b o /\ (p <= o)%nat /\ b <= x < b + 2 ^ Z.of_nat o.
Proof.
  intros Hi Hc Hok Hr. assert (Hfree : forall b o, is_block s ∅ b o -> is_free s b o).
  { intros b o [?|Hx]; [done|]. by rewrite lookup_empty in Hx. }
  assert (Hal : forall b o, is_free s b o -> (2 ^ Z.of_nat o | b)).
  { intros b o Hf. apply (inv_block _ _ Hi b o). by left. }
  revert x. induction p as [|p IH]; intros x Hx Hlo Hhi.
  - destruct (inv_cover _ _ Hi i reg x Hr) as (b & o & Hb & ?); [simpl in *; lia|].
    exists b, o. split_and!; [by apply Hfree|lia|lia|lia].
  - pose proof (pow_S p) as Hp. pose proof (pow_pos p). rewrite Hp in Hx, Hhi.
    assert (Hx1 : (2 ^ Z.of_nat p | x)) by (destruct Hx as [q ->]; exists (q * 2); lia).
    destruct (IH x Hx1) as (b & o & Hb & Hpo & Hbx); [lia|lia|].
    destruct (decide (S p <= o)%nat) as [Ho|Ho]; [by exists b, o|].
    assert (o = p) as -> by lia. pose proof (aligned_contains b x p p (Hal _ _ Hb) Hx1) as E.
    assert (b = x) as -> by lia. clear Ho Hpo E.
    destruct (IH (x + 2 ^ Z.of_nat p)) as (b' & o' & Hb' & Hpo & Hbx');
      [apply Z.divide_add_r; [done|reflexivity]|lia|lia|].
    destruct (decide (S p <= o')%nat) as [Ho|Ho].
    + exfalso. destruct (inv_disj _ _ Hi x p b' o') as [[-> ->]|[?|?]]; [by left|by left|lia| |lia].
      assert (b' = x + 2 ^ Z.of_nat p) as -> by lia.
      pose proof (Hal _ _ Hb') as Ha. rewrite <- Hp in Hx. apply testbit_parent in Hx as [_ Hx].
      assert (Ha' : (2 ^ Z.of_nat (S p) | x + 2 ^ Z.of_nat p)).
      { etransitivity; [|exact Ha]. exists (2 ^ Z.of_nat (o' - S p)).
        rewrite <- Z.pow_add_r by lia. f_equal. lia. }
      apply testbit_parent in Ha' as [Ha' _]. congruence.
    + exfalso. assert (o' = p) as -> by lia.
      assert (b' = x + 2 ^ Z.of_nat p) as ->.
      { destruct (inv_disj _ _ Hi x p b' p) as [[-> _]|[?|?]]; [by left|by left| | |]; try lia. }
      rewrite <- Hp in Hx. pose proof Hx as Hx2. apply testbit_parent in Hx as [Hx _].
      destruct (block_in_region s ∅ x p i reg x) as [E1 _]; try done; try (by left); try lia.
      destruct (block_in_region s ∅ (x + 2 ^ Z.of_nat p) p i reg (x + 2 ^ Z.of_nat p)) as [E2 _];
        try done; try (by left); try lia.
      destruct (Hc x p) as [?|?]; try done; unfold buddy; rewrite Hx; [done|congruence].
Qed.

Lemma region_whole s i reg :
  mm_inv s ∅ -> coalesced s None -> regions_ok (mm_region_list s) -> mm_region_list s !! i = Some reg ->
  exists k, rsize reg = 2 ^ Z.of_nat k /\ is_free s (start reg) k.
Proof.
  intros Hi Hc Hok Hr. destruct (proj1 Hok i reg Hr) as (k & Hk & Hsz & Hal & H0 & Hend).
  pose proof (pow_pos k). exists k. split; [done|].
  destruct (coalesced_covers s i reg k (start reg)) as (b & o & Hf & Hko & Hb); try done; [lia|].
  destruct (block_in_region s ∅ b o i reg (start reg)) as (_ & ? & Hle); try done; try (by left); try lia.
  assert (b = start reg) as -> by lia. rewrite Hsz in Hle.
  assert (Hp : 2 ^ Z.of_nat o <= 2 ^ Z.of_nat k) by lia.
  apply Z.pow_le_mono_r_iff in Hp; [|lia|lia]. by replace k with o by lia.
Qed.

(** ** The C library's entry points *)

Definition malloc (s : mm) (size : Z) : outcome (mm * Z) := kmalloc s size 0.
Definition free (s : mm) (ptr : Z) : outcome mm := kfree s ptr.
Definition __wrap__malloc_r (s : mm) (size : Z) : outcome (mm * Z) := kmalloc s size 0.
(** The source allocates here too. *)
Definition __wrap__free_r (s : mm) (size : Z) : outcome (mm * Z) := kmalloc s size 0.

(** The third result is the [memcpy (dst, src, n)] performed. *)
Definition __wrap__realloc_r (s : mm) (ptr size : Z) : outcome (mm * Z * option (Z * Z * Z)) :=
  r ← kmalloc s size 0;
  let '(s, newptr) := (r : mm * Z) in
  if bool_decide (ptr = 0) then Ret (s, newptr, None) else
  if bool_decide (newptr = 0) then Ret (s, 0, None) else
  let buffer := wrap32 (ptr - sizeof_mm_buffer) in
  if negb (links_equal s buffer) then Ret (s, 0, None) else
  h ← deref (headers s !! buffer);
  let old_size := wrap32 (order_to_size (bucket h) - sizeof_mm_buffer) in
  let copy := (newptr, ptr, Z.min old_size size) in
  s ← kfree s ptr;
  Ret (s, newptr, Some copy).

(** ** Runs of a client that frees only what it holds *)

Inductive op : Type :=
  | Alloc (size fl : Z)
  | Free (i : nat).

(** [live] holds the pointers [kmalloc] returned and the client still owns,
    each with the size the client asked for. *)
Fixpoint run (s : mm) (live : list (Z * Z)) (ops : list op) : outcome (mm * list (Z * Z)) :=
  match ops with
  | [] => Ret (s, live)
  | Alloc size fl :: ops =>
      r ← kmalloc s size fl;
      let '(s, ptr) := (r : mm * Z) in
      run s (if bool_decide (ptr = 0) then live else live ++ [(ptr, size)]) ops
  | Free i :: ops =>
      match live !! i with
      | Some (ptr, _) => s ← kfree s ptr; run s (delete i live) ops
      | None => run s live ops
      end
  end.

Definition op_ok (o : op) : Prop :=
  match o with
  | Alloc size _ => 0 <= size < 2 ^ 32 - sizeof_mm_buffer
  | Free _ => True
  end.

Fixpoint add_regions (s : mm) (regs : list mm_region) : outcome mm :=
  match regs with
  | [] => Ret s
  | reg :: regs => r ← mm_add_region s reg; let '(s, _) := (r : mm * Z) in add_regions s regs
  end.

(** The pointers the client holds are those of the live blocks, which hold what
    was asked for and the header. *)
Record owns (A : gmap Z nat) (live : list (Z * Z)) : Prop := {
  owns_nodup : NoDup live.*1;
  owns_iff p : p ∈ live.*1 <-> is_Some (A !! (p - sizeof_mm_buffer));
  owns_size p n : (p, n) ∈ live -> exists o, A !! (p - sizeof_mm_buffer) = Some o /\ n + sizeof_mm_buffer <= 2 ^ Z.of_nat o;
}.

Lemma owns_add A live b o n : owns A live -> A !! b = None -> n + sizeof_mm_buffer <= 2 ^ Z.of_nat o ->
  owns (<[b := o]> A) (live ++ [(b + sizeof_mm_buffer, n)]).
Proof.
  intros [Hnd Hiff Hsz] Hb Hn. split.
  - rewrite fmap_app. apply NoDup_app. split_and!; [done| |apply NoDup_singleton].
    intros p Hp%Hiff ->%list_elem_of_singleton. simpl in Hp. rewrite Z.add_simpl_r, Hb in Hp. by destruct Hp.
  - intros p. rewrite fmap_app, fmap_cons, fmap_nil, elem_of_app, list_elem_of_singleton, Hiff. simpl.
    destruct (decide (p = b + sizeof_mm_buffer)) as [->|Hne].
    + rewrite Z.add_simpl_r, lookup_insert_eq. naive_solver.
    + rewrite lookup_insert_ne by lia. naive_solver.
  - intros p m [Hp|[= -> ->]%list_elem_of_singleton]%elem_of_app.
    + destruct (Hsz p m Hp) as (o' & HA & ?). exists o'. rewrite lookup_insert_ne by congruence. done.
    + exists o. by rewrite Z.add_simpl_r, lookup_insert_eq.
Qed.

Lemma owns_del A live i p n : owns A live -> live !! i = Some (p, n) ->
  owns (delete (p - sizeof_mm_buffer) A) (delete i live).
Proof.
  intros [Hnd Hiff Hsz] Hp. apply list_elem_of_split_length in Hp as (l1 & l2 & -> & ->).
  rewrite fmap_app, fmap_cons in Hnd. cbn [fst] in Hnd.
  assert (Hiff' : forall q, q ∈ l1.*1 ++ p :: l2.*1 <-> is_Some (A !! (q - sizeof_mm_buffer)))
    by (intros q; rewrite <- Hiff, fmap_app; done).
  pose proof (NoDup_app l1.*1 (p :: l2.*1)) as [(Hn1 & Hd & Hn2)%(fun f => f Hnd) _].
  apply NoDup_cons in Hn2 as [Hp2 Hn2].
  rewrite delete_middle. split.
  - rewrite fmap_app. apply NoDup_app. split_and!; [done| |done]. intros x Hx Hx'. eapply Hd; [done|]. by right.
  - intros q. rewrite fmap_app. destruct (decide (q = p)) as [->|Hne].
    + rewrite lookup_delete_eq, elem_of_app. split; [|by intros [? ?]].
      intros [Hq|Hq]; [|done]. by destruct (Hd p Hq); left.
    + rewrite lookup_delete_ne by lia. rewrite <- Hiff', !elem_of_app, elem_of_cons. naive_solver.
  - intros q m Hq. destruct (Hsz q m) as (o & HA & ?); [set_solver|].
    exists o. rewrite lookup_delete_ne; [done|]. intros E. assert (q = p) as -> by lia.
    apply elem_of_app in Hq as [Hq|Hq]; apply (list_elem_of_fmap_2 fst) in Hq; cbn [fst] in Hq; [|done].
    apply (Hd p Hq). by left.
Qed.

Lemma run_spec s A live ops :
  mm_inv s A -> coalesced s None -> owns A live -> Forall op_ok ops ->
  exists s' A' live', run s live ops = Ret (s', live') /\ mm_inv s' A' /\ coalesced s' None /\
    owns A' live' /\ mm_region_list s' = mm_region_list s.
Proof.
  revert s A live. induction ops as [|op ops IH]; intros s A live Hi Hc Ho Hops; [by exists s, A, live|].
  apply Forall_cons in Hops as [Hop Hops]. destruct op as [size fl|i]; simpl in *.
  - destruct (decide (size = 0)) as [->|Hne].
    { unfold kmalloc. simpl. by apply (IH s A live). }
    destruct (alloc_order_spec size) as (_ & Hfit & _); [lia|].
    destruct (kmalloc_spec s A size fl Hi Hc) as [(s1 & b & -> & Hb & Hf & Hi1 & Hc1 & Hr1 & _)|(-> & _)];
      [lia| |].
    + simpl. rewrite bool_decide_eq_false_2 by (unfold sizeof_mm_buffer; lia).
      destruct (IH s1 _ (live ++ [(b + sizeof_mm_buffer, size)]) Hi1 Hc1) as (s' & A' & live' & ? & ? & ? & ? & E);
        [by apply owns_add|done|]. exists s', A', live'. rewrite Hr1 in E. done.
    + simpl. destruct (IH (add_used s (order_to_size (alloc_order size))) A live) as (s' & A' & live' & ?);
        [by apply inv_used|done..|]. by exists s', A', live'.
  - destruct (live !! i) as [[p n]|] eqn:E; [|by apply (IH s A live)].
    destruct (owns_size _ _ Ho p n) as (o & HA & _); [by eapply list_elem_of_lookup_2|].
    destruct (kfree_spec s A _ o Hi Hc HA) as (s1 & Hk & Hi1 & Hc1 & Hr1 & _).
    rewrite Z.sub_add in Hk. rewrite Hk. simpl.
    destruct (IH s1 _ (delete i live) Hi1 Hc1) as (s' & A' & live' & ? & ? & ? & ? & E');
      [by eapply owns_del|done|]. exists s', A', live'. rewrite Hr1 in E'. done.
Qed.

Lemma init_buckets_id s A : mm_inv s A -> init_buckets s = s.
Proof.
  intros Hi. pose proof (inv_len _ _ Hi). unfold init_buckets. destruct s as [[|] ? ? ? ?]; simpl in *; [lia|done].
Qed.

Lemma add_regions_spec s regs :
  mm_inv (init_buckets s) ∅ -> coalesced (init_buckets s) None -> regions_ok (mm_region_list s ++ regs) ->
  regs <> [] ->
  exists s', add_regions s regs = Ret s' /\ mm_inv s' ∅ /\ coalesced s' None /\
    mm_region_list s' = mm_region_list s ++ regs.
Proof.
  revert s. induction regs as [|reg regs IH]; intros s Hi Hc Hok Hne; [done|]. simpl.
  rewrite cons_middle, app_assoc in Hok.
  assert (Hok1 : regions_ok (mm_region_list s ++ [reg])).
  { destruct Hok as [H1 H2]. split.
    - intros i r Hr. apply (H1 i). by apply lookup_app_l_Some.
    - intros i j r r' Hr Hr'. apply H2; by apply lookup_app_l_Some. }
  destruct (mm_add_region_spec s ∅ reg Hi Hc Hok1) as (s1 & -> & Hi1 & Hc1 & Hr1 & _). simpl.
  destruct (decide (regs = [])) as [->|Hne'].
  - exists s1. simpl. by rewrite Hr1.
  - destruct (IH s1) as (s' & -> & ? & ? & E); try done.
    + by rewrite (init_buckets_id s1 ∅).
    + by rewrite (init_buckets_id s1 ∅).
    + by rewrite Hr1.
    + exists s'. rewrite E, Hr1, <- app_assoc. done.
Qed.

Lemma initial_inv : mm_inv (init_buckets mm_initial) ∅ /\ coalesced (init_buckets mm_initial) None.
Proof.
  assert (Hf : forall b o, ~ is_free (init_buckets mm_initial) b o).
  { intros b o (l & [-> _]%lookup_replicate & Hb). by apply elem_of_nil in Hb. }
  assert (Hb : forall b o, ~ is_block (init_buckets mm_initial) ∅ b o).
  { intros b o [H|H]; [by eapply Hf|by rewrite lookup_empty in H]. }
  split; [split|].
  - done.
  - intros i reg H. discriminate H.
  - intros b o H. by destruct (Hb b o).
  - intros b o b' o' H. by destruct (Hb b o).
  - intros o l [-> _]%lookup_replicate. apply NoDup_nil_2.
  - intros b o o' H. by destruct (Hf b o).
  - intros i reg x H. discriminate H.
  - intros b o H. by destruct (Hf b o).
Qed.

(** ** The memory interface *)

Lemma page_alloc_spec s A fl (order : nat) :
  mm_inv s A -> coalesced s None -> (order <= 23)%nat ->
  let o := (8 + order)%nat in
  (exists s' b, page_alloc s fl (Z.of_nat order) = Ret (s', b) /\ 0 < b /\ A !! b = None /\
     mm_inv s' (<[b := o]> A) /\ coalesced s' None) \/
  (page_alloc s fl (Z.of_nat order) = Ret (add_used s (order_to_size o), page_null) /\ ~ serves s o fl).
Proof.
  intros Hi Hc Hord o. unfold page_alloc, PAGE_ORDER.
  assert (E : Z.shiftl (Z.shiftl 1 (Z.of_nat order)) 8 = 2 ^ Z.of_nat o).
  { rewrite Z.shiftl_shiftl, Z.shiftl_1_l by lia. f_equal. lia. }
  rewrite E. pose proof (pow_pos o).
  assert (2 ^ Z.of_nat 8 <= 2 ^ Z.of_nat o) by (apply Z.pow_le_mono_r; lia).
  assert (2 ^ Z.of_nat o <= 2 ^ 31) by (apply Z.pow_le_mono_r; lia).
  unfold sizeof_mm_buffer. rewrite wrap32_small by lia.
  assert (Eo : alloc_order (2 ^ Z.of_nat o - 16) = o).
  { unfold alloc_order, sizeof_mm_buffer. rewrite Z.sub_add, size_to_order_pow2 by lia. lia. }
  destruct (kmalloc_spec s A (2 ^ Z.of_nat o - 16) fl Hi Hc) as
    [(s' & b & E' & Hb & Hf & Hi' & Hc' & _)|(E' & Hn & _)]; [unfold sizeof_mm_buffer; lia| |]; rewrite Eo in *.
  - left. exists s', b. rewrite E'. simpl. unfold sizeof_mm_buffer.
    destruct (block_bounds s' _ b o Hi') as (? & ? & _); [right; apply lookup_insert_eq|].
    rewrite Z.add_simpl_r, wrap32_small by lia. done.
  - right. rewrite E'. simpl. done.
Qed.

#[export] Instance mm_mem_ops : MemOps mm := {|
  mem_kmalloc := kmalloc;
  mem_kfree := kfree;
  mem_page_alloc := page_alloc;
  mem_page_free := page_free;
|}.

#[export] Program Instance mm_mem_spec : MemSpec mm := {|
  mem_rep s A := mm_inv s A /\ coalesced s None;
  mem_has_pages s fl order := serves s (8 + Z.to_nat order)%nat fl;
|}.
Next Obligation.
  intros s A b o b' o' [Hi _] H H' Hne.
  destruct (inv_disj _ _ Hi b o b' o') as [[? _]|?]; [by right|by right|done|done].
Qed.
Next Obligation. intros s A b o [Hi _] H. destruct (block_bounds s A b o Hi) as (? & ? & _); [by right|done]. Qed.
Next Obligation.
  intros s A size fl [Hi Hc] Hs. destruct (alloc_order_spec size Hs) as (_ & Hfit & _). simpl.
  destruct (kmalloc_spec s A size fl Hi Hc Hs) as [(s' & b & -> & ? & ? & ? & ? & _)|(-> & _)];
    eexists _, _; (split; [reflexivity|]).
  - right. exists b, (alloc_order size). done.
  - left. split; [done|]. by rewrite inv_used.
Qed.
Next Obligation.
  intros s A fl order [Hi Hc] Ho. simpl. rewrite Nat2Z.id.
  destruct (page_alloc_spec s A fl order Hi Hc Ho) as [(s' & b & -> & ? & ? & ?)|(-> & ?)];
    eexists _, _; (split; [reflexivity|]).
  - by right.
  - left. split_and!; try done. by apply inv_used.
Qed.
Next Obligation.
  intros s A b o [Hi Hc] H. destruct (kfree_spec s A b o Hi Hc H) as (s' & E & ? & ? & _).
  exists s'. split; [exact E|done].
Qed.

(** ** Properties *)

(** C5.  For any set of regions that are aligned powers of two and disjoint,
    and any sequence of allocations (of less than 4 GiB less a header) and of
    frees of pointers the client holds, the allocator returns: no wild access,
    no endless split or merge.  Every pointer the client holds is followed, in
    one of the regions, by as many bytes as it asked for; these and the header
    before the pointer overlap those of no other pointer held; and once nothing
    is held each region is again one free block. *)
Theorem allocator_safe regs ops :
  regs <> [] -> regions_ok regs -> Forall op_ok ops ->
  exists s0 s live,
    add_regions mm_initial regs = Ret s0 /\ run s0 [] ops = Ret (s, live) /\
    (forall p n, (p, n) ∈ live -> exists reg, reg ∈ regs /\
       start reg <= p - sizeof_mm_buffer /\ p + n <= start reg + rsize reg) /\
    (forall i j p n q m, live !! i = Some (p, n) -> live !! j = Some (q, m) -> i <> j ->
       p + n <= q - sizeof_mm_buffer \/ q + m <= p - sizeof_mm_buffer) /\
    (live = [] -> forall i reg, regs !! i = Some reg ->
       exists k, rsize reg = 2 ^ Z.of_nat k /\ is_free s (start reg) k).
Proof.
  intros Hne Hok Hops. destruct initial_inv as [Hi Hc].
  destruct (add_regions_spec mm_initial regs Hi Hc Hok Hne) as (s0 & E0 & Hi0 & Hc0 & Hr0).
  destruct (run_spec s0 ∅ [] ops Hi0 Hc0) as (s & A & live & E & Hi' & Hc' & Ho & Hr); [|done|].
  { split; [apply NoDup_nil_2| |by intros p n ?%elem_of_nil].
    intros p. rewrite lookup_empty. split; [by intros ?%elem_of_nil|by intros [? ?]]. }
  simpl in Hr0. exists s0, s, live. split; [done|]. split; [done|]. split_and!.
  - intros p n Hp. destruct (owns_size _ _ Ho p n Hp) as (o & HA & Hn).
    destruct (inv_block _ _ Hi' (p - sizeof_mm_buffer) o) as [(h & reg & _ & _ & Hreg & ? & ?) _]; [by right|].
    exists reg. split; [rewrite <- Hr0, <- Hr; by eapply list_elem_of_lookup_2|lia].
  - intros i j p n q m Hp Hq Hij.
    destruct (owns_size _ _ Ho p n) as (o & HA & Hn); [by eapply list_elem_of_lookup_2|].
    destruct (owns_size _ _ Ho q m) as (o' & HA' & Hm); [by eapply list_elem_of_lookup_2|].
    destruct (inv_disj _ _ Hi' _ o _ o' (or_intror HA) (or_intror HA')) as [[Hpq _]|?]; [|lia].
    exfalso. apply Hij. eapply (NoDup_lookup live.*1); [apply Ho|by rewrite list_lookup_fmap, Hp|].
    rewrite list_lookup_fmap, Hq. simpl. do 2 f_equal. lia.
  - intros -> i reg Hreg. apply (region_whole s i); [|done| |]; rewrite ?Hr, ?Hr0; try done.
    replace (∅ : gmap Z nat) with A; [done|]. apply map_empty. intros b.
    destruct (A !! b) eqn:E'; [|done]. exfalso.
    apply (not_elem_of_nil (b + sizeof_mm_buffer)), (owns_iff _ _ Ho). rewrite Z.add_simpl_r. by eexists.
Qed.

Definition region_ex : mm_region := mk_region 1024 1024 0.

Lemma region_ex_ok : regions_ok [region_ex].
Proof.
  split.
  - intros [|i] r [= <-]. exists 10%nat. simpl. split_and!; try lia; try done; by exists 1.
  - intros [|i] [|j] r r' [= <-] [=]; done.
Qed.

Lemma allocator_safe_witness :
  [region_ex] <> [] /\ Forall op_ok [Alloc 100 0; Alloc 20 0; Alloc 4 0; Free 0; Free 1; Free 0] /\
  (exists s0 s live, add_regions mm_initial [region_ex] = Ret s0 /\
    run s0 [] [Alloc 100 0; Alloc 20 0; Alloc 4 0; Free 0] = Ret (s, live) /\ live = [(1168, 20); (1232, 4)] /\
    (1168 + 20 <= 1232 - 16 \/ 1232 + 4 <= 1168 - 16)) /\
  exists s0 s live,
    add_regions mm_initial [region_ex] = Ret s0 /\
    run s0 [] [Alloc 100 0; Alloc 20 0; Alloc 4 0; Free 0; Free 1; Free 0] = Ret (s, live) /\ live = [] /\
    exists k, rsize region_ex = 2 ^ Z.of_nat k /\ is_free s (start region_ex) k.
Proof.
  split; [done|]. assert (Hops : Forall op_ok [Alloc 100 0; Alloc 20 0; Alloc 4 0; Free 0; Free 1; Free 0])
    by (repeat constructor; simpl; unfold sizeof_mm_buffer; lia).
  split; [exact Hops|]. split.
  - destruct (allocator_safe [region_ex] [Alloc 100 0; Alloc 20 0; Alloc 4 0; Free 0]) as
      (s0 & s & live & E0 & E & _ & Hd & _); [done|apply region_ex_ok|by apply (Forall_take _ 4) in Hops|].
    exists s0, s, live. split; [done|]. split; [done|].
    assert (live = [(1168, 20); (1232, 4)]) as ->.
    { vm_compute in E0. injection E0 as <-. vm_compute in E. by injection E. }
    split; [done|]. by apply (Hd 0%nat 1%nat).
  - destruct (allocator_safe [region_ex] [Alloc 100 0; Alloc 20 0; Alloc 4 0; Free 0; Free 1; Free 0]) as
      (s0 & s & live & E0 & E & _ & _ & Hw); [done|apply region_ex_ok|exact Hops|].
    exists s0, s, live. split; [done|]. split; [done|].
    assert (live = []) as ->.
    { vm_compute in E0. injection E0 as <-. vm_compute in E. by injection E. }
    split; [done|]. by apply (Hw eq_refl 0%nat).
Defined.

(** C6.  [kmalloc] hands out a block of the free area, large enough for the
    request and its header, aligned to its size and disjoint from every live
    block, keeping the heap's invariant; it returns NULL, leaving the heap as it
    was, only when no free block of any order could serve the request, even
    with the DMA fallback. *)
Theorem kmalloc_correct s A size fl :
  mm_inv s A -> coalesced s None -> 0 < size < 2 ^ 32 - sizeof_mm_buffer ->
  let o := alloc_order size in
  (exists s' b, kmalloc s size fl = Ret (s', b + sizeof_mm_buffer) /\
     size + sizeof_mm_buffer <= 2 ^ Z.of_nat o /\ (2 ^ Z.of_nat o | b) /\
     (forall b' o', A !! b' = Some o' -> b + 2 ^ Z.of_nat o <= b' \/ b' + 2 ^ Z.of_nat o' <= b) /\
     mm_inv s' (<[b := o]> A) /\ coalesced s' None /\
     (matches s' fl b \/ Z.land fl MM_DMA = 0 /\ ~ serves s o fl /\ matches s' MM_DMA b)) \/
  (kmalloc s size fl = Ret (add_used s (order_to_size o), 0) /\ ~ serves s o fl /\
     (Z.land fl MM_DMA = 0 -> ~ serves s o MM_DMA)).
Proof.
  intros Hi Hc Hs o. destruct (alloc_order_spec size Hs) as (_ & Hfit & _).
  destruct (kmalloc_spec s A size fl Hi Hc Hs) as [(s' & b & E & Hb & Hf & Hi' & Hc' & _ & _ & Hm)|?];
    [left|by right].
  exists s', b. split; [done|]. split; [done|].
  assert (Hblk : is_block s' (<[b := o]> A) b o) by (right; apply lookup_insert_eq).
  split; [apply (inv_block _ _ Hi' _ _ Hblk)|]. split; [|done].
  intros b' o' Ha. assert (b <> b') by congruence.
  destruct (inv_disj _ _ Hi' b o b' o') as [[? _]|?]; try done. right. by rewrite lookup_insert_ne.
Qed.

Lemma kmalloc_correct_witness :
  exists s, mm_inv s ∅ /\ coalesced s None /\
    exists s', kmalloc s 100 0 = Ret (s', 1040) /\ mm_inv s' {[1024 := 7%nat]}.
Proof.
  destruct initial_inv as [Hi Hc].
  destruct (add_regions_spec mm_initial [region_ex] Hi Hc region_ex_ok) as (s & E & Hi0 & Hc0 & _); [done|].
  exists s. split; [done|]. split; [done|].
  destruct (kmalloc_correct s ∅ 100 0 Hi0 Hc0) as [(s' & b & E' & _ & _ & _ & Hi' & _)|[E' _]];
    [unfold sizeof_mm_buffer; lia| |].
  - vm_compute in E. injection E as <-.
    match type of E' with ?k = _ => assert (Hk : exists s2, k = Ret (s2, 1040)) by (eexists; vm_compute; reflexivity) end.
    destruct Hk as [s2 Hk]. rewrite Hk in E'. injection E' as -> Hb. unfold sizeof_mm_buffer in Hb.
    assert (b = 1024) as -> by lia. exists s'. split; [exact Hk|exact Hi'].
  - exfalso. vm_compute in E. injection E as <-. vm_compute in E'. discriminate E'.
Defined.

(** ** Behaviours the code does not mean to have *)

(** [mm_init] never moves [mm_start] past the region it just made: a heap of
    3 KiB at 0x1000 gives two regions at the same address. *)
Example mm_init_overlap :
  exists s, mm_init mm_initial 0x1000 0x1c00 0 = Ret s /\
    start <$> mm_region_list s = [0x1000; 0x1000] /\ rsize <$> mm_region_list s = [2048; 1024].
Proof. eexists. split; [vm_compute; reflexivity|]. done. Qed.

(** The size wraps before the order is computed: a request for 4 GiB - 15 gets
    a one-byte block. *)
Example kmalloc_size_wraps :
  exists s s', add_regions mm_initial [region_ex] = Ret s /\ kmalloc s (2 ^ 32 - 15) 0 = Ret (s', 1040).
Proof. eexists _, _. split; [vm_compute; reflexivity|vm_compute; reflexivity]. Qed.

(** A failed [page_alloc] is not NULL: the header's size is taken from it. *)
Example page_alloc_null :
  exists s s', add_regions mm_initial [region_ex] = Ret s /\ page_alloc s 0 8 = Ret (s', 2 ^ 32 - 16).
Proof. eexists _, _. split; [vm_compute; reflexivity|vm_compute; reflexivity]. Qed.

(** A failed allocation is counted as used memory all the same. *)
Example failed_kmalloc_used :
  exists s s', add_regions mm_initial [region_ex] = Ret s /\ used s = 0 /\
    kmalloc s 5000 0 = Ret (s', 0) /\ used s' = 8192.
Proof. eexists _, _. split; [vm_compute; reflexivity|]. split; [done|]. split; [vm_compute; reflexivity|vm_compute; reflexivity]. Qed.

End Mm.
