(* ===== verification/Mcache.v ===== *)
(** The object caches of [src/kernel/mcache.c], over the memory interface. *)
From S2P Require Import Prelude.
From S2P Require Import Memory.
From S2P Require Import Mm.
#[local] Open Scope Z_scope.

Module Mcache.

(** ** Data *)

Record mcache_slab := mk_slab {
  size : Z;
  buffer : Z;
  refcount : Z;
  bitmap : list Z;   (* bytes *)
}.

(** The slab lists hold the addresses of the slab structures. *)
Record mcache := mk_mcache {
  obj_size : Z;
  flags : Z;
  ctor : bool;       (* is there one? *)
  dtor : bool;
  empty_slabs_list : list Z;
  partial_slabs_list : list Z;
  full_slabs_list : list Z;
}.

Inductive callback := Ctor (ptr : Z) | Dtor (ptr : Z).

Definition sizeof_mcache : Z := 44.
Definition sizeof_mcache_slab : Z := 24.

(** A cache and what it works on: the allocator, the slab structures, the
    [cached] counter of the memory usage, the constructor and destructor calls. *)
Record world (M : Type) := mk_world {
  mem : M;
  slabs : gmap Z mcache_slab;
  cached : Z;
  calls : list callback;
  cache : mcache;
}.
Arguments mk_world {M}.
Arguments mem {M}.
Arguments slabs {M}.
Arguments cached {M}.
Arguments calls {M}.
Arguments cache {M}.

Section Operations.
Context {M : Type} `{MemOps M}.

Definition set_mem (w : world M) (m : M) : world M :=
  mk_world m (slabs w) (cached w) (calls w) (cache w).
Definition set_slab (w : world M) (a : Z) (s : mcache_slab) : world M :=
  mk_world (mem w) (<[a := s]> (slabs w)) (cached w) (calls w) (cache w).
Definition add_cached (w : world M) (n : Z) : world M :=
  mk_world (mem w) (slabs w) (wrap32 (cached w + n)) (calls w) (cache w).
Definition add_calls (w : world M) (l : list callback) : world M :=
  mk_world (mem w) (slabs w) (cached w) (calls w ++ l) (cache w).
Definition set_lists (w : world M) (e p f : list Z) : world M :=
  let c := cache w in
  mk_world (mem w) (slabs w) (cached w) (calls w)
    (mk_mcache (obj_size c) (flags c) (ctor c) (dtor c) e p f).

(** [list_del] of a slab's node, whatever list holds it, and [list_add] at the
    end of one of the three lists. *)
Definition slab_del (w : world M) (a : Z) : world M :=
  let out := filter (fun x => x <> a) in
  set_lists w (out (empty_slabs_list (cache w))) (out (partial_slabs_list (cache w)))
    (out (full_slabs_list (cache w))).
Definition add_empty (w : world M) (a : Z) : world M :=
  set_lists w (empty_slabs_list (cache w) ++ [a]) (partial_slabs_list (cache w)) (full_slabs_list (cache w)).
Definition add_partial (w : world M) (a : Z) : world M :=
  set_lists w (empty_slabs_list (cache w)) (partial_slabs_list (cache w) ++ [a]) (full_slabs_list (cache w)).
Definition add_full (w : world M) (a : Z) : world M :=
  set_lists w (empty_slabs_list (cache w)) (partial_slabs_list (cache w)) (full_slabs_list (cache w) ++ [a]).

(** The cache's address, and the new world; NULL is [0]. *)
Definition mcache_create (m : M) (sz align fl : Z) (has_ctor has_dtor : bool) : outcome (Z * world M) :=
  r ← mem_kmalloc m sizeof_mcache 0;
  let '(m, p) := (r : M * Z) in
  Ret (p, mk_world m ∅ 0 [] (mk_mcache (Z.max sz align) fl has_ctor has_dtor [] [] [])).

(** ** Allocating *)

(** The addresses of a slab's [n] objects. *)
Definition objects (b sz : Z) (n : nat) : list Z :=
  (fun i : nat => b + Z.of_nat i * sz) <$> seq 0 n.

Definition mcache_allocate_new_slab (w : world M) : outcome (world M * Z) :=
  let num_objects := 5 in
  let bitmap_size := num_objects / 8 + (if bool_decide (num_objects mod 8 = 0) then 0 else 1) in
  let buffer_size := wrap32 (num_objects * obj_size (cache w)) in
  let pages := buffer_size / Mm.PAGE_SIZE + (if bool_decide (buffer_size mod Mm.PAGE_SIZE = 0) then 0 else 1) in
  r ← mem_page_alloc (mem w) (flags (cache w)) (Mm.size_to_order pages);
  let '(m, buffer) := (r : M * Z) in
  let w := set_mem w m in
  if bool_decide (buffer = 0) then Ret (w, 0) else
  let w := add_cached w buffer_size in
  r ← mem_kmalloc (mem w) (sizeof_mcache_slab + bitmap_size) 0;
  let '(m, slab) := (r : M * Z) in
  let w := set_mem w m in
  if bool_decide (slab = 0) then Ret (w, 0) else
  let w := set_slab w slab (mk_slab buffer_size buffer 0 (replicate (Z.to_nat bitmap_size) 0)) in
  let w := if ctor (cache w)
           then add_calls w (Ctor <$> objects buffer (obj_size (cache w)) (Z.to_nat num_objects)) else w in
  Ret (w, slab).

Definition mcache_move_empty_slab_to_partial_list (w : world M) : outcome (world M * Z) :=
  r ← match empty_slabs_list (cache w) with
      | [] => mcache_allocate_new_slab w
      | slab :: _ => Ret (w, slab)
      end;
  let '(w, slab) := (r : world M * Z) in
  if bool_decide (slab = 0) then Ret (w, 0) else
  Ret (add_partial (slab_del w slab) slab, slab).

(** The scan of the bitmap from object [i], [n] objects left. *)
Fixpoint first_clear (bm : list Z) (i n : nat) : outcome (option nat) :=
  match n with
  | O => Ret None
  | S n =>
      byte ← deref (bm !! (i / 8)%nat);
      if bool_decide (Z.land byte (Z.shiftl 1 (Z.of_nat (i mod 8))) <> 0) then first_clear bm (S i) n
      else Ret (Some i)
  end.

Definition slab_alloc_object (w : world M) (a : Z) : outcome (world M * Z) :=
  slab ← deref (slabs w !! a);
  let num_object := Z.to_nat (size slab / obj_size (cache w)) in
  o ← first_clear (bitmap slab) 0 num_object;
  let '(slab', buf) :=
    match o with
    | Some i =>
        (mk_slab (size slab) (buffer slab) (wrap32 (refcount slab + 1))
           (alter (fun byte => Z.lor byte (Z.shiftl 1 (Z.of_nat (i mod 8)))) (i / 8)%nat (bitmap slab)),
         wrap32 (buffer slab + obj_size (cache w) * Z.of_nat i))
    | None => (slab, 0)
    end in
  let w := set_slab w a slab' in
  let w := if bool_decide (refcount slab' = Z.of_nat num_object) then add_full (slab_del w a) a else w in
  Ret (w, buf).

Definition mcache_alloc (w : world M) : outcome (world M * Z) :=
  r ← match partial_slabs_list (cache w) with
      | [] => mcache_move_empty_slab_to_partial_list w
      | slab :: _ => Ret (w, slab)
      end;
  let '(w, slab) := (r : world M * Z) in
  if bool_decide (slab = 0) then Ret (w, 0) else slab_alloc_object w slab.

(** ** Freeing *)

Definition slab_free_object (w : world M) (a ptr : Z) : outcome (world M) :=
  slab ← deref (slabs w !! a);
  let offset := wrap32 (ptr - buffer slab) in
  let object := offset / obj_size (cache w) in
  let byte := wrap8 (object / 8) in
  let bit := wrap8 (object mod 8) in
  _ ← deref (bitmap slab !! Z.to_nat byte);
  let slab' := mk_slab (size slab) (buffer slab) (wrap32 (refcount slab - 1))
    (alter (fun b => Z.ldiff b (Z.shiftl 1 bit)) (Z.to_nat byte) (bitmap slab)) in
  let w := add_partial (slab_del (set_slab w a slab') a) a in
  Ret (if bool_decide (refcount slab' = 0) then add_empty (slab_del w a) a else w).

Fixpoint find_buffer_slab_in_list (w : world M) (ptr : Z) (l : list Z) : outcome (option Z) :=
  match l with
  | [] => Ret None
  | a :: l =>
      slab ← deref (slabs w !! a);
      if bool_decide (buffer slab <= ptr) && bool_decide (ptr < wrap32 (buffer slab + size slab))
      then Ret (Some a) else find_buffer_slab_in_list w ptr l
  end.

Definition find_buffer_slab (w : world M) (ptr : Z) : outcome (option Z) :=
  slab ← find_buffer_slab_in_list w ptr (partial_slabs_list (cache w));
  match slab with
  | Some a => Ret (Some a)
  | None => find_buffer_slab_in_list w ptr (full_slabs_list (cache w))
  end.

Definition mcache_free (w : world M) (ptr : Z) : outcome (world M) :=
  if bool_decide (ptr = 0) then Ret w else
  slab ← find_buffer_slab w ptr;
  match slab with
  | None => Ret w
  | Some a => slab_free_object w a ptr
  end.

(** ** Destroying *)

(** The freed slab leaves [slabs]: reading it again is a fault. *)
Definition mcache_destroy_slab (w : world M) (a : Z) : outcome (world M) :=
  slab ← deref (slabs w !! a);
  let num_object := Z.to_nat (size slab / obj_size (cache w)) in
  let w := if dtor (cache w)
           then add_calls w (Dtor <$> objects (buffer slab) (obj_size (cache w)) num_object) else w in
  let w := add_cached w (- Mm.size_to_order (size slab)) in
  m ← mem_page_free (mem w) (buffer slab) (Mm.size_to_order (size slab));
  m ← mem_kfree m a;
  Ret (mk_world m (delete a (slabs w)) (cached w) (calls w) (cache w)).

(** [list_foreach] reads the node's [next] after the body has freed the slab:
    the loop reads freed memory unless the slab struct was read before. *)
Fixpoint destroy_list (w : world M) (l : list Z) : outcome (world M) :=
  match l with
  | [] => Ret w
  | a :: l =>
      w ← mcache_destroy_slab w a;
      _ ← deref (slabs w !! a);
      destroy_list w l
  end.

Definition mcache_destroy (w : world M) (addr : Z) : outcome M :=
  if bool_decide (addr = 0) then Ret (mem w) else
  w ← destroy_list w (full_slabs_list (cache w));
  w ← destroy_list w (partial_slabs_list (cache w));
  w ← destroy_list w (empty_slabs_list (cache w));
  mem_kfree (mem w) addr.

End Operations.

(** ** Invariant *)

(** The number of objects of a slab, and its use of the bitmap's one byte. *)
Definition bit (b : Z) (i : nat) : bool := Z.testbit b (Z.of_nat i).
Definition count5 (b : Z) : Z := Z.of_nat (count_if (bit b) (seq 0 5)).

Lemma byte_cases (P : Z -> Prop) : Forall P (Z.of_nat <$> seq 0 32) -> forall b, 0 <= b < 32 -> P b.
Proof.
  intros HP b Hb. rewrite Forall_forall in HP. apply HP. apply list_elem_of_fmap. exists (Z.to_nat b).
  split; [lia|]. apply elem_of_seq. lia.
Qed.

Lemma first_clear_found b : 0 <= b < 32 -> count5 b < 5 ->
  exists i, first_clear [b] 0 5 = Ret (Some i) /\ (i < 5)%nat /\ bit b i = false /\
    0 <= Z.lor b (Z.shiftl 1 (Z.of_nat i)) < 32 /\
    count5 (Z.lor b (Z.shiftl 1 (Z.of_nat i))) = count5 b + 1.
Proof.
  intros Hb. pattern b. apply byte_cases; [|exact Hb]. clear b Hb. cbn [fmap list_fmap seq].
  repeat first [apply Forall_nil_2|apply Forall_cons_2]; intros Hc; try by vm_compute in Hc.
  all: first [exists 0%nat; split; [vm_compute; reflexivity|]
    |exists 1%nat; split; [vm_compute; reflexivity|]|exists 2%nat; split; [vm_compute; reflexivity|]
    |exists 3%nat; split; [vm_compute; reflexivity|]|exists 4%nat; split; [vm_compute; reflexivity|]].
  all: vm_compute; repeat split; done || lia.
Qed.

Lemma clear_bit b (i : nat) : 0 <= b < 32 -> (i < 5)%nat -> bit b i = true ->
  0 <= Z.ldiff b (Z.shiftl 1 (Z.of_nat i)) < 32 /\
  count5 (Z.ldiff b (Z.shiftl 1 (Z.of_nat i))) = count5 b - 1.
Proof.
  intros Hb. revert i. pattern b. apply byte_cases; [|exact Hb]. clear b Hb. cbn [fmap list_fmap seq].
  repeat first [apply Forall_nil_2|apply Forall_cons_2]; intros i Hi Hbit; do 5 (destruct i as [|i]; [vm_compute in *; repeat split; done || lia|]); lia.
Qed.

Lemma bit_set b (i j : nat) : bit (Z.lor b (Z.shiftl 1 (Z.of_nat i))) j = bit b j || bool_decide (j = i).
Proof.
  unfold bit. rewrite Z.lor_spec, Z.shiftl_1_l. f_equal. case_bool_decide as E.
  - subst. apply Z.pow2_bits_true. lia.
  - apply Z.pow2_bits_false. lia.
Qed.

Lemma bit_clear b (i j : nat) : bit (Z.ldiff b (Z.shiftl 1 (Z.of_nat i))) j = bit b j && bool_decide (j <> i).
Proof.
  unfold bit. rewrite Z.ldiff_spec, Z.shiftl_1_l. f_equal. case_bool_decide as E.
  - rewrite Z.pow2_bits_false by lia. done.
  - assert (j = i) as -> by lia. by rewrite Z.pow2_bits_true by lia.
Qed.

Section Invariant.
Context {M : Type} `{MemSpec M}.

Definition all_slabs (w : world M) : list Z :=
  empty_slabs_list (cache w) ++ partial_slabs_list (cache w) ++ full_slabs_list (cache w).

(** A slab structure and its objects are live blocks of the allocator. *)
Record slab_ok (w : world M) (A : gmap Z nat) (a : Z) (sl : mcache_slab) : Prop := {
  so_size : size sl = 5 * obj_size (cache w);
  so_byte : exists b, bitmap sl = [b] /\ 0 <= b < 32 /\ refcount sl = count5 b;
  so_buffer : exists o, A !! buffer sl = Some o /\ size sl <= 2 ^ Z.of_nat o;
  so_struct : is_Some (A !! (a - block_header));
}.

(** [ex] is a slab just moved to the partial list, with nothing allocated. *)
Record cache_inv (w : world M) (A : gmap Z nat) (ex : option Z) : Prop := {
  ci_rep : mem_rep (mem w) A;
  ci_obj : 0 < obj_size (cache w) /\ 5 * obj_size (cache w) <= 2 ^ 31;
  ci_slab a sl : slabs w !! a = Some sl -> slab_ok w A a sl;
  ci_inj a a' sl sl' : slabs w !! a = Some sl -> slabs w !! a' = Some sl' -> buffer sl = buffer sl' -> a = a';
  ci_nodup : NoDup (all_slabs w);
  ci_in a : a ∈ all_slabs w <-> is_Some (slabs w !! a);
  ci_empty a sl : a ∈ empty_slabs_list (cache w) -> slabs w !! a = Some sl -> refcount sl = 0;
  ci_partial a sl : a ∈ partial_slabs_list (cache w) -> slabs w !! a = Some sl ->
    refcount sl < 5 /\ (refcount sl = 0 -> ex = Some a);
  ci_full a sl : a ∈ full_slabs_list (cache w) -> slabs w !! a = Some sl -> refcount sl = 5;
}.

(** The objects handed out and not given back. *)
Definition live (w : world M) (p : Z) : Prop :=
  exists a sl b i, slabs w !! a = Some sl /\ bitmap sl = [b] /\ (i < 5)%nat /\ bit b i = true /\
    p = buffer sl + obj_size (cache w) * Z.of_nat i.

Lemma count5_range b : 0 <= count5 b <= 5.
Proof.
  unfold count5, count_if. pose proof (length_filter (bit b) (seq 0 5)) as Hl.
  simpl in *. lia.
Qed.

Lemma pow2_not_5 (o : nat) z : 2 ^ Z.of_nat o <> 5 * z.
Proof.
  assert (Hm : 2 ^ Z.of_nat o mod 5 <> 0).
  { induction o as [|o IH]; [done|]. rewrite Nat2Z.inj_succ, Z.pow_succ_r by lia.
    revert IH. generalize (2 ^ Z.of_nat o). intros x. Z.to_euclidean_division_equations. lia. }
  intros E. rewrite E, Z.mul_comm, Z.mod_mul in Hm; lia.
Qed.

Lemma slab_bounds w A ex a sl :
  cache_inv w A ex -> slabs w !! a = Some sl -> 0 < buffer sl /\ buffer sl + size sl < 2 ^ 32.
Proof.
  intros Hi Ha. destruct (ci_slab _ _ _ Hi a sl Ha) as [Hs _ (o & Ho & Hle) _].
  destruct (mem_bounds _ _ _ _ (ci_rep _ _ _ Hi) Ho). pose proof (pow2_not_5 o (obj_size (cache w))).
  pose proof (pow2_not_5 32 (obj_size (cache w))). split; [done|].
  destruct (decide (buffer sl + size sl = 2 ^ 32)); [|lia].
  assert (2 ^ Z.of_nat o = size sl) by lia. lia.
Qed.

(** Two slabs' objects do not overlap. *)
Lemma slabs_disjoint w A ex a a' sl sl' :
  cache_inv w A ex -> slabs w !! a = Some sl -> slabs w !! a' = Some sl' -> a <> a' ->
  buffer sl + size sl <= buffer sl' \/ buffer sl' + size sl' <= buffer sl.
Proof.
  intros Hi Ha Ha' Hne. destruct (ci_slab _ _ _ Hi a sl Ha) as [_ _ (o & Ho & Hle) _].
  destruct (ci_slab _ _ _ Hi a' sl' Ha') as [_ _ (o' & Ho' & Hle') _].
  destruct (mem_disjoint _ _ _ _ _ _ (ci_rep _ _ _ Hi) Ho Ho'); [|lia|lia].
  intros E. by apply Hne, (ci_inj _ _ _ Hi a a' sl sl').
Qed.

Lemma live_disjoint w A ex p q :
  cache_inv w A ex -> live w p -> live w q -> p <> q ->
  p + obj_size (cache w) <= q \/ q + obj_size (cache w) <= p.
Proof.
  intros Hi (a & sl & b & i & Ha & Hb & Hi5 & _ & ->) (a' & sl' & b' & i' & Ha' & Hb' & Hi5' & _ & ->) Hne.
  destruct (ci_obj _ _ _ Hi) as [Hz _]. destruct (ci_slab _ _ _ Hi a sl Ha) as [Hs _ _ _].
  destruct (ci_slab _ _ _ Hi a' sl' Ha') as [Hs' _ _ _]. destruct (decide (a = a')) as [<-|Haa].
  - simplify_eq. assert (i <> i') by congruence. nia.
  - destruct (slabs_disjoint w A ex a a' sl sl' Hi Ha Ha' Haa); nia.
Qed.

(** The slab whose range holds [p] is the one [find_buffer_slab_in_list] stops at. *)
Lemma find_in_list_spec w A ex a sl p l :
  cache_inv w A ex -> slabs w !! a = Some sl -> buffer sl <= p < buffer sl + size sl ->
  (forall x, x ∈ l -> is_Some (slabs w !! x)) ->
  find_buffer_slab_in_list w p l = Ret (if bool_decide (a ∈ l) then Some a else None).
Proof.
  intros Hi Ha Hp. induction l as [|x l IH]; intros Hl; [done|]. simpl.
  destruct (Hl x) as [sx Hx]; [by left|]. rewrite Hx. simpl.
  destruct (slab_bounds w A ex x sx Hi Hx) as [? ?].
  destruct (ci_slab _ _ _ Hi x sx Hx) as [Hs _ _ _]. destruct (ci_obj _ _ _ Hi).
  rewrite wrap32_small by lia. destruct (decide (x = a)) as [->|Hne].
  - simplify_eq. rewrite !bool_decide_eq_true_2 by (lia || by left). done.
  - destruct (slabs_disjoint w A ex x a sx sl Hi Hx Ha Hne).
    + rewrite (bool_decide_eq_false_2 (p < _)), andb_false_r by lia. rewrite IH by (intros; apply Hl; by right).
      by rewrite (bool_decide_ext (a ∈ x :: l) (a ∈ l)) by (rewrite elem_of_cons; naive_solver).
    + rewrite (bool_decide_eq_false_2 (buffer sx <= p)) by lia. simpl.
      rewrite IH by (intros; apply Hl; by right).
      by rewrite (bool_decide_ext (a ∈ x :: l) (a ∈ l)) by (rewrite elem_of_cons; naive_solver).
Qed.

Lemma in_range_object sl sz (i : nat) : 0 < sz -> size sl = 5 * sz -> (i < 5)%nat ->
  buffer sl <= buffer sl + sz * Z.of_nat i < buffer sl + size sl.
Proof. nia. Qed.

(** One slab changes its bitmap and, maybe, its list. *)
Lemma inv_update w w' A ex ex' a sl sl' b' :
  cache_inv w A ex -> slabs w !! a = Some sl ->
  mem w' = mem w -> obj_size (cache w') = obj_size (cache w) -> slabs w' = <[a := sl']> (slabs w) ->
  size sl' = size sl -> buffer sl' = buffer sl -> bitmap sl' = [b'] -> 0 <= b' < 32 -> refcount sl' = count5 b' ->
  NoDup (all_slabs w') -> a ∈ all_slabs w' ->
  (forall x, x <> a -> (x ∈ empty_slabs_list (cache w') <-> x ∈ empty_slabs_list (cache w)) /\
    (x ∈ partial_slabs_list (cache w') <-> x ∈ partial_slabs_list (cache w)) /\
    (x ∈ full_slabs_list (cache w') <-> x ∈ full_slabs_list (cache w))) ->
  (a ∈ empty_slabs_list (cache w') -> refcount sl' = 0) ->
  (a ∈ partial_slabs_list (cache w') -> refcount sl' < 5 /\ (refcount sl' = 0 -> ex' = Some a)) ->
  (a ∈ full_slabs_list (cache w') -> refcount sl' = 5) ->
  (forall x, ex = Some x -> x = a) ->
  cache_inv w' A ex'.
Proof.
  intros Hi Ha Hm Ho Hs Hsz Hbf Hbm Hb Hrc Hnd Hin Hx He Hp Hf Hex.
  assert (Hall : forall x, x <> a -> x ∈ all_slabs w' <-> x ∈ all_slabs w).
  { intros x Hne. unfold all_slabs. rewrite !elem_of_app. destruct (Hx x Hne) as (-> & -> & ->). done. }
  split; rewrite ?Hm, ?Ho, ?Hs; try apply Hi; try done.
  - intros x sx [[<- <-]|[Hne Hsx]]%lookup_insert_Some.
    + destruct (ci_slab _ _ _ Hi a sl Ha) as [? _ (o & ? & ?) ?]. split; [congruence| |exists o; split; congruence|done].
      by exists b'.
    + destruct (ci_slab _ _ _ Hi x sx Hsx). split; [congruence|done..].
  - intros x x' sx sx' Hsx Hsx' E.
    assert (Hg : forall y sy, <[a := sl']> (slabs w) !! y = Some sy -> exists sy0, slabs w !! y = Some sy0 /\ buffer sy0 = buffer sy).
    { intros y sy [[<- <-]|[_ Hy]]%lookup_insert_Some; eauto. }
    destruct (Hg _ _ Hsx) as (s1 & ? & ?). destruct (Hg _ _ Hsx') as (s2 & ? & ?).
    apply (ci_inj _ _ _ Hi x x' s1 s2); congruence.
  - intros x. destruct (decide (x = a)) as [->|Hne].
    + rewrite lookup_insert_eq. by split; [eexists|].
    + rewrite lookup_insert_ne, Hall by done. apply (ci_in _ _ _ Hi).
  - intros x sx Hxe. destruct (decide (x = a)) as [->|Hne]; [rewrite lookup_insert_eq; intros [= <-]; auto|].
    rewrite lookup_insert_ne by done. apply (ci_empty _ _ _ Hi). by apply Hx.
  - intros x sx Hxe. destruct (decide (x = a)) as [->|Hne]; [rewrite lookup_insert_eq; intros [= <-]; auto|].
    rewrite lookup_insert_ne by done. apply Hx in Hxe as Hxp; [|done]. intros Hsx.
    destruct (ci_partial _ _ _ Hi x sx Hxp Hsx) as [? Hz]. split; [done|]. intros E.
    by destruct Hne; apply Hex, Hz.
  - intros x sx Hxe. destruct (decide (x = a)) as [->|Hne]; [rewrite lookup_insert_eq; intros [= <-]; auto|].
    rewrite lookup_insert_ne by done. apply (ci_full _ _ _ Hi). by apply Hx.
Qed.

(** [w'] is [w] with slab [a]'s bitmap changed at object [i] to [v]. *)
Lemma live_update w w' A ex a sl sl' b b' (i : nat) (v : bool) q :
  cache_inv w A ex -> slabs w !! a = Some sl -> bitmap sl = [b] -> (i < 5)%nat ->
  obj_size (cache w') = obj_size (cache w) -> slabs w' = <[a := sl']> (slabs w) ->
  buffer sl' = buffer sl -> bitmap sl' = [b'] ->
  (forall j, bit b' j = if decide (j = i) then v else bit b j) ->
  let p := buffer sl + obj_size (cache w) * Z.of_nat i in
  live w' q <-> (q = p /\ v = true) \/ (live w q /\ q <> p).
Proof.
  intros Hi Ha Hb Hi5 Ho Hs Hbf Hbm Hbit p. destruct (ci_obj _ _ _ Hi) as [Hz _].
  destruct (ci_slab _ _ _ Hi a sl Ha) as [Hsz _ _ _].
  assert (Hother : forall x sx j, slabs w !! x = Some sx -> x <> a -> (j < 5)%nat ->
    buffer sx + obj_size (cache w) * Z.of_nat j <> p).
  { intros x sx j Hx Hne Hj E. destruct (ci_slab _ _ _ Hi x sx Hx) as [Hszx _ _ _].
    pose proof (in_range_object sl _ i Hz Hsz Hi5). pose proof (in_range_object sx _ j Hz Hszx Hj).
    destruct (slabs_disjoint w A ex x a sx sl Hi Hx Ha Hne); unfold p in E; lia. }
  unfold live. rewrite Hs, Ho. split.
  - intros (x & sx & bx & j & Hx & Hbx & Hj & Hbj & ->). apply lookup_insert_Some in Hx as [[<- <-]|[Hne Hx]].
    + rewrite Hbm in Hbx. injection Hbx as <-. rewrite Hbit in Hbj. rewrite Hbf. case_decide as E.
      * left. by subst.
      * right. split; [by exists a, sl, b, j|]. unfold p. nia.
    + right. split; [by exists x, sx, bx, j|]. by apply (Hother x).
  - intros [[-> ->]|[(x & sx & bx & j & Hx & Hbx & Hj & Hbj & ->) Hne]].
    + exists a, sl', b', i. rewrite lookup_insert_eq, Hbit, decide_True, Hbf by done. done.
    + destruct (decide (x = a)) as [->|Hxa].
      * simplify_eq. assert (bx = b) as -> by congruence. exists a, sl', b', j.
        rewrite lookup_insert_eq, Hbit, Hbf, decide_False by (intros ->; done). done.
      * exists x, sx, bx, j. by rewrite lookup_insert_ne.
Qed.

(** The list that holds a slab is the one its reference count says. *)
Lemma slab_where w A ex a sl :
  cache_inv w A ex -> slabs w !! a = Some sl ->
  (a ∈ empty_slabs_list (cache w) /\ refcount sl = 0) \/
  (a ∈ partial_slabs_list (cache w) /\ refcount sl < 5 /\ (refcount sl = 0 -> ex = Some a)) \/
  (a ∈ full_slabs_list (cache w) /\ refcount sl = 5).
Proof.
  intros Hi Ha. assert (Hin : a ∈ all_slabs w) by (apply (ci_in _ _ _ Hi); eauto).
  unfold all_slabs in Hin. rewrite !elem_of_app in Hin. destruct Hin as [Hx|[Hx|Hx]].
  - left. split; [done|]. by apply (ci_empty _ _ _ Hi a).
  - right. left. split; [done|]. by apply (ci_partial _ _ _ Hi a).
  - right. right. split; [done|]. by apply (ci_full _ _ _ Hi a).
Qed.

(** Moving a slab's node. *)
Lemma all_slabs_del w a : all_slabs (slab_del w a) = filter (fun x => x <> a) (all_slabs w).
Proof. unfold all_slabs, slab_del. simpl. by rewrite !filter_app. Qed.

Lemma moved_nodup w a (l : list Z) : NoDup (all_slabs w) ->
  l ≡ₚ a :: filter (fun x => x <> a) (all_slabs w) -> NoDup l /\ a ∈ l.
Proof.
  intros Hnd ->. split; [|by left]. constructor; [|by apply NoDup_filter].
  intros [? _]%list_elem_of_filter. done.
Qed.

Lemma slab_alloc_object_spec w A ex a sl :
  cache_inv w A ex -> a ∈ partial_slabs_list (cache w) -> slabs w !! a = Some sl ->
  (forall x, ex = Some x -> x = a) ->
  exists w' p, slab_alloc_object w a = Ret (w', p) /\ cache_inv w' A None /\
    0 < p /\ ~ live w p /\ (forall q, live w' q <-> live w q \/ q = p) /\
    obj_size (cache w') = obj_size (cache w) /\ calls w' = calls w.
Proof.
  intros Hi Hp Ha Hex. destruct (ci_obj _ _ _ Hi) as [Hz Hz2].
  destruct (ci_slab _ _ _ Hi a sl Ha) as [Hsz (b & Hbm & Hb & Hrc) _ _].
  destruct (ci_partial _ _ _ Hi a sl Hp Ha) as [Hlt _].
  destruct (first_clear_found b Hb) as (i & Hfc & Hi5 & Hbi & Hb' & Hc'); [lia|].
  destruct (slab_bounds w A ex a sl Hi Ha) as [Hpos Hend].
  pose proof (in_range_object sl _ i Hz Hsz Hi5) as Hr. pose proof (count5_range b).
  set (b' := Z.lor b (Z.shiftl 1 (Z.of_nat i))) in *.
  set (sl' := mk_slab (size sl) (buffer sl) (wrap32 (refcount sl + 1)) [b']).
  assert (Hrc' : refcount sl' = count5 b') by (unfold sl'; simpl; rewrite wrap32_small; lia).
  set (p := buffer sl + obj_size (cache w) * Z.of_nat i) in *.
  unfold slab_alloc_object. rewrite Ha. simpl. rewrite Hbm.
  replace (Z.to_nat (size sl / obj_size (cache w))) with 5%nat by (rewrite Hsz, Z.div_mul; lia).
  rewrite Hfc. simpl. rewrite Nat.div_small, Nat.mod_small by lia. simpl. fold b' sl' p.
  rewrite (wrap32_small p) by lia.
  assert (Hbit : forall j, bit b' j = if decide (j = i) then true else bit b j).
  { intros j. unfold b'. rewrite bit_set. case_decide; [subst; by rewrite bool_decide_eq_true_2, orb_true_r|].
    by rewrite bool_decide_eq_false_2, orb_false_r. }
  assert (Hnl : ~ live w p).
  { intros (x & sx & bx & j & Hx & Hbx & Hj & Hbj & E). destruct (decide (x = a)) as [->|Hne].
    - assert (sx = sl) as -> by congruence. assert (bx = b) as -> by congruence.
      assert (j = i) as -> by (unfold p in E; nia). congruence.
    - destruct (ci_slab _ _ _ Hi x sx Hx) as [Hszx _ _ _]. pose proof (in_range_object sx _ j Hz Hszx Hj).
      destruct (slabs_disjoint w A ex x a sx sl Hi Hx Ha Hne); lia. }
  set (w1 := set_slab w a sl').
  match goal with |- exists w' p, Ret (?ww, _) = _ /\ _ => set (w2 := ww) end.
  assert (Hw2 : mem w2 = mem w /\ obj_size (cache w2) = obj_size (cache w) /\
    slabs w2 = <[a := sl']> (slabs w) /\ calls w2 = calls w) by (unfold w2; by destruct (bool_decide _)).
  destruct Hw2 as (Hm & Ho & Hs & Hcl). exists w2, p. split; [done|].
  assert (Hlive : forall q, live w2 q <-> live w q \/ q = p).
  { intros q. rewrite (live_update w w2 A ex a sl sl' b b' i true q) by done. fold p.
    destruct (decide (q = p)) as [->|]; naive_solver. }
  split; [|split_and!; done || lia].
  pose proof (ci_nodup _ _ _ Hi) as Hnd.
  pose proof (fun l => moved_nodup w a l Hnd) as Hmv. pose proof (all_slabs_del w1 a) as Had.
  assert (Hpa : a ∈ all_slabs w) by (unfold all_slabs; rewrite !elem_of_app; auto).
  eapply (inv_update w w2 A ex None a sl sl' b'); try done; unfold w2; fold w1; case_bool_decide as Hfull.
  - apply Hmv. unfold all_slabs in *. simpl in *. rewrite !app_assoc in *. rewrite Permutation_app_comm. simpl.
    by rewrite Had.
  - done.
  - unfold all_slabs; simpl. rewrite !elem_of_app, list_elem_of_singleton. auto.
  - done.
  - intros x Hne. simpl. rewrite elem_of_app, list_elem_of_singleton, !list_elem_of_filter. naive_solver.
  - done.
  - simpl. rewrite list_elem_of_filter. naive_solver.
  - simpl. intros He. exfalso. apply NoDup_app in Hnd as (_ & Hd & _). apply (Hd a He).
    rewrite elem_of_app. by left.
  - simpl. rewrite list_elem_of_filter. naive_solver.
  - intros _. pose proof (count5_range b'). assert (refcount sl' <> Z.of_nat 5) by (exact Hfull). lia.
  - intros _. assert (refcount sl' = Z.of_nat 5) as -> by (exact Hfull). lia.
  - simpl. intros Hf. exfalso. apply NoDup_app in Hnd as (_ & _ & Hd). apply NoDup_app in Hd as (_ & Hd & _).
    by apply (Hd a).
Qed.

(** The pages of a new slab. *)
Definition slab_order (sz : Z) : Z :=
  let buffer_size := wrap32 (5 * sz) in
  Mm.size_to_order (buffer_size / Mm.PAGE_SIZE + (if bool_decide (buffer_size mod Mm.PAGE_SIZE = 0) then 0 else 1)).

Lemma slab_order_spec sz : 0 < sz -> 5 * sz <= 2 ^ 31 ->
  exists n : nat, slab_order sz = Z.of_nat n /\ (n <= 23)%nat /\ 5 * sz <= 2 ^ Z.of_nat (8 + n).
Proof.
  intros Hz Hz2. unfold slab_order. rewrite wrap32_small by lia. change Mm.PAGE_SIZE with 256.
  set (pages := 5 * sz / 256 + _).
  assert (Hp : 1 <= pages <= 2 ^ 23 /\ 5 * sz <= pages * 256).
  { unfold pages. pose proof (Z.div_mod (5 * sz) 256). pose proof (Z.mod_pos_bound (5 * sz) 256).
    case_bool_decide; lia. }
  rewrite Mm.size_to_order_log2_up by lia.
  assert (Z.log2_up pages <= Z.log2_up (2 ^ 23)) by (apply Z.log2_up_le_mono; lia).
  rewrite Z.log2_up_pow2 in * by lia. pose proof (Z.log2_up_nonneg pages).
  exists (Z.to_nat (Z.log2_up pages)). split; [lia|]. split; [lia|].
  rewrite Nat2Z.inj_add, Z2Nat.id, Z.pow_add_r by lia. change (2 ^ Z.of_nat 8) with 256.
  assert (pages <= 2 ^ Z.log2_up pages); [|lia]. destruct (decide (pages = 1)) as [->|]; [done|].
  apply Z.log2_up_spec. lia.
Qed.

(** More blocks live in the allocator. *)
Lemma inv_mono w w' A A' ex :
  cache_inv w A ex -> slabs w' = slabs w -> cache w' = cache w -> mem_rep (mem w') A' ->
  (forall b o, A !! b = Some o -> A' !! b = Some o) -> cache_inv w' A' ex.
Proof.
  intros Hi Hs Hc Hm Hsub. destruct Hi. split; unfold all_slabs in *; rewrite ?Hs, ?Hc; try done.
  intros a sl Ha. destruct (ci_slab0 a sl Ha) as [? ? (o & ? & ?) [o' ?]].
  split; rewrite ?Hc; [done|done|exists o; auto|eexists; by apply Hsub].
Qed.

Lemma live_ext w w' q : slabs w' = slabs w -> cache w' = cache w -> live w' q <-> live w q.
Proof. unfold live. by intros -> ->. Qed.

Definition ctor_calls (w : world M) (b : Z) : list callback :=
  if ctor (cache w) then Ctor <$> objects b (obj_size (cache w)) 5 else [].

(** The cache after a slab [sl] of unused objects joined the partial list. *)
Lemma inv_new_slab w w' A A' a sl :
  cache_inv w A None -> slabs w !! a = None -> mem_rep (mem w') A' ->
  (forall b o, A !! b = Some o -> A' !! b = Some o) ->
  slab_ok w A' a sl -> refcount sl = 0 -> A !! buffer sl = None ->
  slabs w' = <[a := sl]> (slabs w) -> obj_size (cache w') = obj_size (cache w) ->
  empty_slabs_list (cache w') = empty_slabs_list (cache w) ->
  partial_slabs_list (cache w') = partial_slabs_list (cache w) ++ [a] ->
  full_slabs_list (cache w') = full_slabs_list (cache w) -> cache_inv w' A' (Some a).
Proof.
  intros Hi Ha Hm Hsub Hok Hrc Hfresh Hs Ho He Hp Hf.
  assert (Hi' := inv_mono w (set_mem w (mem w')) A A' None Hi eq_refl eq_refl Hm Hsub).
  assert (Hna : a ∉ all_slabs w) by (intros Hx%(ci_in _ _ _ Hi); rewrite Ha in Hx; by destruct Hx).
  assert (Hall : all_slabs w' ≡ₚ a :: all_slabs w).
  { unfold all_slabs. rewrite He, Hp, Hf, !app_assoc, <- app_assoc, (Permutation_app_comm [a]), app_assoc.
    by rewrite Permutation_app_comm. }
  assert (Hbuf : forall x sx, slabs w !! x = Some sx -> buffer sx <> buffer sl).
  { intros x sx Hx E. destruct (ci_slab _ _ _ Hi x sx Hx) as [_ _ (o & Hso & _) _]. congruence. }
  split; rewrite ?Hs, ?Ho; try apply Hi; try done.
  - intros x sx [[<- <-]|[Hne Hx]]%lookup_insert_Some.
    + destruct Hok. split; rewrite ?Ho; done.
    + destruct (ci_slab _ _ _ Hi' x sx Hx). split; rewrite ?Ho; done.
  - intros x x' sx sx' [[<- <-]|[Hne Hx]]%lookup_insert_Some [[<- <-]|[Hne' Hx']]%lookup_insert_Some E.
    + done.
    + by destruct (Hbuf _ _ Hx').
    + by destruct (Hbuf _ _ Hx).
    + by apply (ci_inj _ _ _ Hi x x' sx sx').
  - rewrite Hall. constructor; [done|apply (ci_nodup _ _ _ Hi)].
  - intros x. rewrite Hall, elem_of_cons, (ci_in _ _ _ Hi). rewrite lookup_insert_is_Some'. naive_solver.
  - intros x sx. rewrite He. intros Hx. rewrite lookup_insert_ne by (intros <-; apply Hna; unfold all_slabs; set_solver).
    by apply (ci_empty _ _ _ Hi).
  - intros x sx. rewrite Hp, elem_of_app, list_elem_of_singleton.
    intros Hx [[<- <-]|[Hne Hsx]]%lookup_insert_Some; [rewrite Hrc; split; [lia|done]|].
    destruct Hx as [Hx| ->]; [|done]. destruct (ci_partial _ _ _ Hi x sx Hx Hsx). naive_solver.
  - intros x sx. rewrite Hf. intros Hx. rewrite lookup_insert_ne by (intros <-; apply Hna; unfold all_slabs; set_solver).
    by apply (ci_full _ _ _ Hi).
Qed.

Definition has_pages (w : world M) : Prop :=
  mem_has_pages (mem w) (flags (cache w)) (slab_order (obj_size (cache w))).

(** A slab joins the partial list, or no memory for its structure is left. *)
(** The memory allocator has no block for the structure of a new slab, once it
    has given the pages. *)
Definition no_slab_memory (w : world M) : Prop :=
  exists m1 b m2, mem_page_alloc (mem w) (flags (cache w)) (slab_order (obj_size (cache w))) = Ret (m1, b) /\
    mem_kmalloc m1 (sizeof_mcache_slab + 1) 0 = Ret (m2, 0).

Lemma new_slab_spec w A :
  cache_inv w A None -> empty_slabs_list (cache w) = [] -> has_pages w ->
  exists w' a A', mcache_move_empty_slab_to_partial_list w = Ret (w', a) /\
    (forall q, live w' q <-> live w q) /\ obj_size (cache w') = obj_size (cache w) /\
    ((a = 0 /\ cache_inv w' A' None /\ no_slab_memory w) \/
     (0 < a /\ cache_inv w' A' (Some a) /\ a ∈ partial_slabs_list (cache w'))).
Proof.
  intros Hi He Hpg. destruct (ci_obj _ _ _ Hi) as [Hz Hz2].
  destruct (slab_order_spec _ Hz Hz2) as (n & En & Hn & Hsz).
  unfold mcache_move_empty_slab_to_partial_list. rewrite He.
  unfold mcache_allocate_new_slab, has_pages in *. fold (slab_order (obj_size (cache w))). rewrite En in *.
  destruct (mem_page_alloc_spec _ _ (flags (cache w)) n (ci_rep _ _ _ Hi) Hn) as (m1 & b & Eb & [[? _]|(Hb & Hfr & Hm1)]);
    [done|]. rewrite Eb. simpl. rewrite bool_decide_eq_false_2 by lia.
  assert (Hsub1 : forall x o, A !! x = Some o -> <[b := (8 + n)%nat]> A !! x = Some o).
  { intros x o Hx. rewrite lookup_insert_ne by congruence. done. }
  destruct (mem_kmalloc_spec m1 (<[b:=(8 + n)%nat]> A) (sizeof_mcache_slab + 1) 0 Hm1) as
    (m2 & p & Ek & Hp); [unfold sizeof_mcache_slab, block_header; lia|].
  simpl. match goal with |- context [mem_kmalloc m1 ?x 0] => change x with (sizeof_mcache_slab + 1) end.
  rewrite Ek. simpl.
  destruct Hp as [[-> Hm2]|(b2 & o2 & -> & Hfr2 & Ho2 & Hm2)]; simpl.
  - eexists _, 0, _. split; [reflexivity|]. split; [by intros q; apply live_ext|]. split; [done|]. left. split; [done|].
    split; [by eapply (inv_mono w _ A _ None Hi)|]. exists m1, b, m2. rewrite En. done.
  - set (a := b2 + block_header) in *.
    destruct (mem_bounds _ _ b2 o2 Hm2) as [Hb2 _]; [apply lookup_insert_eq|].
    rewrite bool_decide_eq_false_2 by (unfold a, block_header; lia). simpl.
    rewrite bool_decide_eq_false_2 by (unfold a, block_header; lia).
    assert (Hsub2 : forall x o, A !! x = Some o -> <[b2:=o2]> (<[b := (8 + n)%nat]> A) !! x = Some o).
    { intros x o Hx%Hsub1. rewrite lookup_insert_ne by congruence. done. }
    assert (Ha : slabs w !! a = None).
    { destruct (slabs w !! a) as [sa|] eqn:Es; [exfalso|done].
      destruct (ci_slab _ _ _ Hi a sa Es) as [_ _ _ [o Hso]]. apply Hsub1 in Hso.
      replace (a - block_header) with b2 in Hso by (unfold a; lia). congruence. }
    assert (Hna : a ∉ all_slabs w) by (intros Hx%(ci_in _ _ _ Hi); rewrite Ha in Hx; by destruct Hx).
    assert (Hdel : forall l : list Z, (forall x, x ∈ l -> x ∈ all_slabs w) -> filter (fun x : Z => x <> a) l = l).
    { intros l Hl. apply filter_id. intros x Hx ->. by apply Hna, Hl. }
    set (sl := mk_slab (wrap32 (5 * obj_size (cache w))) b 0 [0]).
    eexists _, a, (<[b2:=o2]> (<[b := (8 + n)%nat]> A)). split; [reflexivity|].
    match goal with |- (forall q, live ?w' q <-> _) /\ _ => set (w2 := w') end.
    assert (Hs2 : slabs w2 = <[a := sl]> (slabs w)) by (unfold w2; simpl; by destruct (ctor _)).
    assert (Ho2' : obj_size (cache w2) = obj_size (cache w)) by (unfold w2; simpl; by destruct (ctor _)).
    assert (Hl2 : empty_slabs_list (cache w2) = empty_slabs_list (cache w) /\
      partial_slabs_list (cache w2) = partial_slabs_list (cache w) ++ [a] /\
      full_slabs_list (cache w2) = full_slabs_list (cache w)).
    { unfold w2. simpl. destruct (ctor _); simpl; split_and!; rewrite ?Hdel; try done; unfold all_slabs; set_solver. }
    assert (Hm : mem w2 = m2) by (unfold w2; simpl; by destruct (ctor _)).
    destruct Hl2 as (Hl2e & Hl2p & Hl2f). split; [|split; [done|]].
    + intros q. unfold live. rewrite Hs2, Ho2'. split.
      * intros (x & sx & bx & j & [[<- <-]|[_ Hx]]%lookup_insert_Some & Hbx & Hj & Hbj & ->).
        -- injection Hbx as <-. unfold bit in Hbj. by rewrite Z.bits_0 in Hbj.
        -- by exists x, sx, bx, j.
      * intros (x & sx & bx & j & Hx & ?). exists x, sx, bx, j. rewrite lookup_insert_ne by congruence. done.
    + right. split; [unfold a, block_header; lia|]. rewrite Hl2p. split; [|set_solver].
      eapply (inv_new_slab w w2 A _ a sl); try done; [by rewrite Hm|].
      split; simpl; [apply wrap32_small; lia|by exists 0| |].
      * exists (8 + n)%nat. rewrite lookup_insert_ne by (intros <-; rewrite lookup_insert_eq in Hfr2; done).
        rewrite lookup_insert_eq. split; [done|]. rewrite wrap32_small by lia. exact Hsz.
      * unfold a. rewrite Z.add_simpl_r, lookup_insert_eq. by eexists.
Qed.

(** An empty slab joins the partial list. *)
Lemma reuse_slab_spec w A a l :
  cache_inv w A None -> empty_slabs_list (cache w) = a :: l ->
  exists w', mcache_move_empty_slab_to_partial_list w = Ret (w', a) /\ 0 < a /\
    (forall q, live w' q <-> live w q) /\ obj_size (cache w') = obj_size (cache w) /\
    cache_inv w' A (Some a) /\ a ∈ partial_slabs_list (cache w').
Proof.
  intros Hi He. unfold mcache_move_empty_slab_to_partial_list. rewrite He. simpl.
  assert (Hae : a ∈ empty_slabs_list (cache w)) by (rewrite He; by left).
  destruct (proj1 (ci_in _ _ _ Hi a)) as [sl Ha]; [unfold all_slabs; set_solver|].
  destruct (ci_slab _ _ _ Hi a sl Ha) as [Hsz (b & Hbm & Hb & Hrc) _ [o Hs]].
  destruct (mem_bounds _ _ _ _ (ci_rep _ _ _ Hi) Hs) as [Hpos _]. unfold block_header in Hpos.
  rewrite bool_decide_eq_false_2 by lia. eexists. split; [done|]. split; [lia|].
  split; [by intros q|]. split; [done|]. split; [|simpl; set_solver].
  pose proof (ci_nodup _ _ _ Hi) as Hnd. pose proof (all_slabs_del w a) as Had.
  assert (Hrc0 : refcount sl = 0) by (by apply (ci_empty _ _ _ Hi a)).
  assert (Hmv : NoDup (all_slabs (add_partial (slab_del w a) a)) /\ a ∈ all_slabs (add_partial (slab_del w a) a)).
  { apply (moved_nodup w a _ Hnd). rewrite <- Had. unfold all_slabs. simpl.
    rewrite !app_assoc, <- app_assoc, (Permutation_app_comm [a]), app_assoc. by rewrite Permutation_app_comm. }
  destruct Hmv as [Hmv1 Hmv2].
  eapply (inv_update w _ A None (Some a) a sl sl b); try done.
  - simpl. by rewrite insert_id.
  - intros x Hne. simpl. rewrite elem_of_app, list_elem_of_singleton, !list_elem_of_filter. naive_solver.
  - simpl. intros _. split; [lia|done].
  - simpl. rewrite list_elem_of_filter. naive_solver.
Qed.

Lemma slab_free_spec w A a sl (i : nat) b :
  cache_inv w A None -> slabs w !! a = Some sl -> bitmap sl = [b] -> (i < 5)%nat -> bit b i = true ->
  let p := buffer sl + obj_size (cache w) * Z.of_nat i in
  exists w', slab_free_object w a p = Ret w' /\ cache_inv w' A None /\
    (forall q, live w' q <-> live w q /\ q <> p).
Proof.
  intros Hi Ha Hbm Hi5 Hbi p. destruct (ci_obj _ _ _ Hi) as [Hz Hz2].
  destruct (ci_slab _ _ _ Hi a sl Ha) as [Hsz (b0 & Hb0 & Hb & Hrc) _ _].
  assert (b0 = b) as -> by congruence. clear Hb0.
  destruct (clear_bit b i Hb Hi5 Hbi) as [Hb' Hc']. pose proof (count5_range b).
  pose proof (in_range_object sl _ i Hz Hsz Hi5) as Hr. destruct (slab_bounds w A None a sl Hi Ha) as [Hpos Hend].
  unfold slab_free_object. rewrite Ha. simpl.
  replace (wrap32 (p - buffer sl)) with (obj_size (cache w) * Z.of_nat i)
    by (unfold p; rewrite wrap32_small; lia).
  rewrite Z.mul_comm, Z.div_mul, Z.div_small, Z.mod_small, Hbm by lia.
  rewrite (wrap8_small (Z.of_nat i)) by lia. change (Z.to_nat (wrap8 0)) with 0%nat. simpl.
  set (b' := Z.ldiff b (Z.shiftl 1 (Z.of_nat i))) in *.
  set (sl' := mk_slab (size sl) (buffer sl) (wrap32 (refcount sl - 1)) [b']).
  pose proof (count5_range b') as Hcr.
  assert (Hrc' : refcount sl' = count5 b') by (unfold sl'; simpl; rewrite wrap32_small; lia).
  change (wrap32 (refcount sl - 1)) with (refcount sl').
  assert (Hbit : forall j, bit b' j = if decide (j = i) then false else bit b j).
  { intros j. unfold b'. rewrite bit_clear. case_decide; [subst; by rewrite bool_decide_eq_false_2, andb_false_r by (intros ?; done)|].
    by rewrite bool_decide_eq_true_2, andb_true_r. }
  match goal with |- exists w', Ret ?ww = _ /\ _ => set (w2 := ww) end.
  assert (Hw2 : mem w2 = mem w /\ obj_size (cache w2) = obj_size (cache w) /\
    slabs w2 = <[a := sl']> (slabs w)) by (unfold w2; by destruct (bool_decide _)).
  destruct Hw2 as (Hm & Ho & Hs). exists w2. split; [done|].
  pose proof (ci_nodup _ _ _ Hi) as Hnd.
  pose proof (fun l => moved_nodup w a l Hnd) as Hmv. pose proof (all_slabs_del (set_slab w a sl') a) as Had.
  assert (Hall : all_slabs w2 ≡ₚ a :: filter (fun x => x <> a) (all_slabs w)).
  { change (filter (fun x => x <> a) (all_slabs w)) with (filter (fun x => x <> a) (all_slabs (set_slab w a sl'))).
    rewrite <- Had. unfold w2. case_bool_decide; unfold all_slabs; simpl.
    - rewrite filter_app, filter_cons_False, filter_nil, app_nil_r by (intros ?; done).
      rewrite !(filter_id (fun x => x <> a) (filter _ _)) by (by intros x [? _]%list_elem_of_filter).
      rewrite <- app_assoc. symmetry. apply Permutation_middle.
    - rewrite !app_assoc, <- app_assoc, (Permutation_app_comm [a]), app_assoc. by rewrite Permutation_app_comm. }
  destruct (Hmv _ Hall) as [Hmv1 Hmv2]. split.
  - eapply (inv_update w w2 A None None a sl sl' b'); try done; unfold w2; case_bool_decide as Hz0.
    + intros x Hne. simpl. repeat rewrite ?elem_of_app, ?list_elem_of_singleton, ?list_elem_of_filter. naive_solver.
    + intros x Hne. simpl. repeat rewrite ?elem_of_app, ?list_elem_of_singleton, ?list_elem_of_filter. naive_solver.
    + done.
    + simpl. rewrite list_elem_of_filter. naive_solver.
    + simpl. rewrite list_elem_of_filter. naive_solver.
    + intros _. split; [lia|]. intros E. done.
    + simpl. rewrite !list_elem_of_filter. naive_solver.
    + simpl. rewrite !list_elem_of_filter. naive_solver.
  - intros q. rewrite (live_update w w2 A None a sl sl' b b' i false q) by done. naive_solver.
Qed.

Lemma inv_weaken w A ex : cache_inv w A None -> cache_inv w A ex.
Proof.
  intros Hi. split; try apply Hi. intros a sl Hp Ha. destruct (ci_partial _ _ _ Hi a sl Hp Ha) as [? Hz].
  split; [done|]. by intros ?%Hz.
Qed.

(** C7.  [mcache_alloc] on a cache whose slabs are consistent returns an object
    that no client holds and that overlaps no held object, and then holds
    exactly one object more.  It returns NULL, holding the same objects, only
    when no slab has a free object and the memory allocator refused the
    structure of a new one.  (Where a new slab is needed, the allocator is assumed
    to have its pages: see [alloc_out_of_pages].) *)
Theorem mcache_alloc_correct w A :
  cache_inv w A None ->
  (partial_slabs_list (cache w) = [] -> empty_slabs_list (cache w) = [] -> has_pages w) ->
  exists w' p A', mcache_alloc w = Ret (w', p) /\ cache_inv w' A' None /\
    ((p = 0 /\ (forall q, live w' q <-> live w q) /\ partial_slabs_list (cache w) = [] /\
      empty_slabs_list (cache w) = [] /\ no_slab_memory w) \/
     (0 < p /\ ~ live w p /\ (forall q, live w' q <-> live w q \/ q = p) /\
      forall q, live w q -> p + obj_size (cache w) <= q \/ q + obj_size (cache w) <= p)).
Proof.
  intros Hi Hpg.
  assert (Hobj : forall w1 A1 a ex, cache_inv w1 A1 ex -> (ex = None \/ ex = Some a) ->
    a ∈ partial_slabs_list (cache w1) -> (forall q, live w1 q <-> live w q) ->
    obj_size (cache w1) = obj_size (cache w) ->
    exists w' p A', slab_alloc_object w1 a = Ret (w', p) /\ cache_inv w' A' None /\
     0 < p /\ ~ live w p /\ (forall q, live w' q <-> live w q \/ q = p) /\
      forall q, live w q -> p + obj_size (cache w) <= q \/ q + obj_size (cache w) <= p).
  { intros w1 A1 a ex Hi1 Hex Hp Hl Ho.
    destruct (proj1 (ci_in _ _ _ Hi1 a)) as [sl Ha]; [unfold all_slabs; set_solver|].
    destruct (slab_alloc_object_spec w1 A1 ex a sl Hi1 Hp Ha) as (w' & p & -> & Hi' & H0p & Hn & Hl' & Ho' & _).
    { intros x ->. by destruct Hex as [?|[= ->]]. }
    exists w', p, A1. split; [done|]. split; [done|]. rewrite <- Hl. split; [done|]. split; [done|].
    assert (Hl2 : forall q, live w' q <-> live w q \/ q = p) by (intros q; by rewrite Hl', Hl).
    split; [done|]. intros q Hq. rewrite <- Ho, <- Ho'.
    apply (live_disjoint w' A1 None p q Hi'); [apply Hl2; by right|apply Hl2; by left|].
    intros ->. apply Hn. by apply Hl. }
  unfold mcache_alloc. destruct (partial_slabs_list (cache w)) as [|a l] eqn:Ep.
  - destruct (empty_slabs_list (cache w)) as [|a l] eqn:Ee.
    + destruct (new_slab_spec w A Hi Ee (Hpg eq_refl eq_refl)) as (w1 & a & A1 & -> & Hl & Ho & [(-> & Hi1 & Hno)|(Ha & Hi1 & Hp)]).
      * simpl. exists w1, 0, A1. split_and!; [done..|]. by left.
      * simpl. rewrite bool_decide_eq_false_2 by lia. destruct (Hobj w1 A1 a (Some a)) as (w' & p & A' & -> & ? & ?); [auto..|]. exists w', p, A'. auto.
    + destruct (reuse_slab_spec w A a l Hi Ee) as (w1 & -> & Ha & Hl & Ho & Hi1 & Hp).
      simpl. rewrite bool_decide_eq_false_2 by lia. destruct (Hobj w1 A a (Some a)) as (w' & p & A' & -> & ? & ?); [auto..|]. exists w', p, A'. auto.
  - assert (Hp : a ∈ partial_slabs_list (cache w)) by (rewrite Ep; by left).
    destruct (proj1 (ci_in _ _ _ Hi a)) as [sl Ha]; [unfold all_slabs; set_solver|].
    destruct (ci_slab _ _ _ Hi a sl Ha) as [_ _ _ [o Hs]].
    destruct (mem_bounds _ _ _ _ (ci_rep _ _ _ Hi) Hs) as [Hpos _]. unfold block_header in Hpos.
    simpl. rewrite bool_decide_eq_false_2 by lia. destruct (Hobj w A a None) as (w' & p & A' & -> & ? & ?); [auto..|]. exists w', p, A'. auto.
Qed.

(** [mcache_free] of an object the client holds finds its slab and gives
    back exactly that object; the slab moves to the list its number of objects
    in use says. *)
Theorem mcache_free_correct w A p :
  cache_inv w A None -> live w p ->
  exists w', mcache_free w p = Ret w' /\ cache_inv w' A None /\ (forall q, live w' q <-> live w q /\ q <> p).
Proof.
  intros Hi (a & sl & b & i & Ha & Hbm & Hi5 & Hbi & ->). destruct (ci_obj _ _ _ Hi) as [Hz _].
  destruct (ci_slab _ _ _ Hi a sl Ha) as [Hsz (b0 & Hb0 & Hb & Hrc) _ _].
  destruct (slab_bounds w A None a sl Hi Ha) as [Hpos _].
  pose proof (in_range_object sl _ i Hz Hsz Hi5) as Hr.
  assert (Hlist : forall l, (forall x, x ∈ l -> x ∈ all_slabs w) ->
    find_buffer_slab_in_list w (buffer sl + obj_size (cache w) * Z.of_nat i) l =
    Ret (if bool_decide (a ∈ l) then Some a else None)).
  { intros l Hl. apply (find_in_list_spec w A None a sl); try done. intros x Hx. by apply (ci_in _ _ _ Hi), Hl. }
  assert (Hfind : find_buffer_slab w (buffer sl + obj_size (cache w) * Z.of_nat i) = Ret (Some a)).
  { unfold find_buffer_slab. rewrite (Hlist (partial_slabs_list (cache w))) by (unfold all_slabs; set_solver). simpl.
    destruct (slab_where w A None a sl Hi Ha) as [[_ E]|[[? _]|[? _]]].
    - assert (b0 = b) as -> by congruence. destruct (clear_bit b i Hb Hi5 Hbi) as [_ E'].
      pose proof (count5_range (Z.ldiff b (Z.shiftl 1 (Z.of_nat i)))). lia.
    - by case_bool_decide.
    - case_bool_decide; [done|]; simpl. rewrite Hlist by (unfold all_slabs; set_solver). by case_bool_decide. }
  unfold mcache_free. rewrite bool_decide_eq_false_2 by lia. rewrite Hfind. simpl.
  by apply (slab_free_spec w A a sl i b).
Qed.

(** A new cache holds nothing. *)
Lemma mcache_create_inv (m : M) A sz align fl c d :
  mem_rep m A -> 0 < Z.max sz align -> 5 * Z.max sz align <= 2 ^ 31 ->
  exists p w A', mcache_create m sz align fl c d = Ret (p, w) /\ cache_inv w A' None /\ forall q, ~ live w q.
Proof.
  intros Hm Hz Hz2. unfold mcache_create.
  destruct (mem_kmalloc_spec m A sizeof_mcache 0 Hm) as (m' & p & -> & Hp);
    [unfold sizeof_mcache, block_header; lia|]. simpl.
  assert (Hrep : exists A', mem_rep m' A') by (destruct Hp as [[_ ?]|(? & ? & _ & _ & _ & ?)]; eauto).
  destruct Hrep as [A' Hrep]. eexists _, _, A'. split; [done|]. split.
  - split; simpl; try done; try (intros ? ? []%elem_of_nil); try (intros *; rewrite ?lookup_empty; done).
    + apply NoDup_nil_2.
    + intros a. rewrite lookup_empty. split; [intros []%elem_of_nil|by intros [? ?]].
  - intros q (a & sl & b & i & Ha & _). simpl in Ha. by rewrite lookup_empty in Ha.
Qed.

End Invariant.

(** ** Witnesses: a cache of 32-byte objects over the buddy allocator *)

#[local] Existing Instance Mm.mm_mem_ops.
#[local] Existing Instance Mm.mm_mem_spec.

Definition heap_ex : Mm.mm :=
  match Mm.add_regions Mm.mm_initial [Mm.mk_region 8192 8192 0] with Ret s => s | _ => Mm.mm_initial end.

Lemma heap_ex_rep : mem_rep heap_ex ∅.
Proof.
  destruct Mm.initial_inv as [Hi Hc].
  destruct (Mm.add_regions_spec Mm.mm_initial [Mm.mk_region 8192 8192 0] Hi Hc) as (s & E & Hi0 & Hc0 & _); [|done|].
  - split.
    + intros [|i] r [= <-]. exists 13%nat. simpl. split_and!; try lia; try done; by exists 1.
    + intros [|i] [|j] r r' [= <-] [=]; done.
  - unfold heap_ex. rewrite E. done.
Qed.

Definition cache_ex : world Mm.mm :=
  match mcache_create heap_ex 32 4 0 true true with
  | Ret (_, w) => w
  | _ => mk_world heap_ex ∅ 0 [] (mk_mcache 32 0 true true [] [] [])
  end.

Lemma cache_ex_inv : exists A, cache_inv cache_ex A None.
Proof.
  destruct (mcache_create_inv heap_ex ∅ 32 4 0 true true heap_ex_rep) as (p & w & A & E & Hi & _); [lia|lia|].
  exists A. unfold cache_ex. by rewrite E.
Qed.

#[local] Opaque cache_ex.

Lemma cache_ex_pages : has_pages cache_ex.
Proof.
  exists 12288, 12%nat. split; [vm_compute; lia|]. split.
  - exists [12288]. split; [vm_compute; reflexivity|by left].
  - exists 0%nat, (Mm.mk_region 8192 8192 0). split_and!; vm_compute; reflexivity.
Qed.

Lemma mcache_alloc_correct_witness :
  has_pages cache_ex /\ exists w' p A', mcache_alloc cache_ex = Ret (w', p) /\ 0 < p /\ cache_inv w' A' None /\ live w' p.
Proof.
  split; [exact cache_ex_pages|]. destruct cache_ex_inv as [A Hi].
  destruct (mcache_alloc_correct cache_ex A Hi (fun _ _ => cache_ex_pages)) as (w' & p & A' & E & Hi' & [[-> _]|(Hp & _ & Hl & _)]).
  - exfalso. assert (Hc : match mcache_alloc cache_ex with Ret (_, p) => bool_decide (p = 0) | _ => true end = false)
      by (vm_compute; reflexivity). rewrite E in Hc. discriminate Hc.
  - exists w', p, A'. split; [exact E|]. split; [exact Hp|]. split; [exact Hi'|]. apply Hl. by right.
Defined.

(** Holding one object of the example cache. *)
Lemma cache_ex_held : exists w A p, cache_inv w A None /\ live w p.
Proof.
  destruct cache_ex_inv as [A Hi].
  destruct (new_slab_spec cache_ex A Hi) as (w1 & a & A1 & E & Hl & Ho & Hc);
    [vm_compute; reflexivity|exact cache_ex_pages|].
  destruct Hc as [(-> & _)|(Ha & Hi1 & Hp)].
  - exfalso. assert (Hz : match mcache_move_empty_slab_to_partial_list cache_ex with
      Ret (_, p) => bool_decide (p = 0) | _ => true end = false) by (vm_compute; reflexivity).
    rewrite E in Hz. discriminate Hz.
  - clear E. destruct (proj1 (ci_in _ _ _ Hi1 a)) as [sl Hsl]; [unfold all_slabs; rewrite !elem_of_app; auto|].
    destruct (slab_alloc_object_spec w1 A1 (Some a) a sl Hi1 Hp Hsl) as (w' & p & _ & Hi' & _ & _ & Hl' & _); [congruence|].
    exists w', A1, p. split; [exact Hi'|]. apply Hl'. by right.
Qed.

Lemma mcache_free_correct_witness :
  exists w A p, cache_inv w A None /\ live w p /\ exists w', mcache_free w p = Ret w' /\ ~ live w' p.
Proof.
  destruct cache_ex_held as (w & A & p & Hi & Hp). exists w, A, p. split; [exact Hi|]. split; [exact Hp|].
  destruct (mcache_free_correct w A p Hi Hp) as (w' & E & _ & Hl). exists w'. split; [exact E|].
  intros [_ Hn]%Hl. by apply Hn.
Defined.

(** ** Behaviours the code does not mean to have *)

(** Out of pages: [page_alloc] does not return NULL, and [mcache_alloc] hands out
    an object of a slab at the top of the address space. *)
Example alloc_out_of_pages :
  match Mm.add_regions Mm.mm_initial [Mm.mk_region 256 256 0] with
  | Ret h => match mcache_create h 32 4 0 false false with
             | Ret (_, w) => match mcache_alloc w with Ret (_, p) => p | _ => 0 end
             | _ => 0
             end
  | _ => 0
  end = page_null.
Proof. vm_compute. reflexivity. Qed.

(** [mcache_destroy] reads the link of a slab it has just freed. *)
Example destroy_uses_freed_slab :
  match mcache_alloc cache_ex with Ret (w, _) => mcache_destroy w 8208 | _ => Hang end = Fault.
Proof. vm_compute. reflexivity. Qed.

End Mcache.
