(* ===== verification/Sched.v ===== *)
(** The scheduler of [src/kernel/scheduler.c] with its two policies
    ([scheduler-rr.c], [scheduler-fifo.c]), the wait lists of
    [src/kernel/task.c] and the semaphores of [src/lib/semaphore.c].

    Tasks and semaphores are named by numbers that stand for their addresses.
    A task's [list] node is in at most one list: a run queue or a wait list. *)
From S2P Require Import Prelude.
#[local] Open Scope Z_scope.

Module Sched.

(** ** Data *)

Definition NUM_PRIORITIES : nat := 32.   (* CONFIG_SCHED_NUM_*_PRIORITIES *)
Definition TASK_RUNNING : Z := Z.shiftl 1 1.
Definition SCHED_FIFO : Z := 1.
Definition SCHED_RR : Z := 2.
Definition HZ : Z := 1000.               (* mach-tsb *)

Inductive policy := RR | FIFO.
#[export] Instance policy_eq_dec : EqDecision policy.
Proof. solve_decision. Defined.

(** [unlock]: has the task an [unlock] callback ([semaphore_interrupt])?
    [lock_handle]: the semaphore it waits for. *)
Record task := mk_task {
  id : Z;
  priority : Z;
  state : Z;
  tpolicy : option policy;
  unlock : bool;
  lock_handle : option nat;
  lock_interrupted : bool;
}.

Record sched := mk_sched {
  tasks : gmap nat task;
  rr_runqueue : list (list nat);
  fifo_runqueue : list (list nat);
  wait_lists : gmap nat (list nat);   (* by semaphore or condition *)
  counts : gmap nat Z;                (* semaphore counts *)
  current : option nat;
  idle_task : nat;
  need_resched : bool;
  kill_task : bool;
  is_locked : Z;
}.

Definition set_tasks (s : sched) (v : gmap nat task) : sched :=
  mk_sched v (rr_runqueue s) (fifo_runqueue s) (wait_lists s) (counts s) (current s) (idle_task s)
    (need_resched s) (kill_task s) (is_locked s).
Definition set_task (s : sched) (t : nat) (v : task) : sched := set_tasks s (<[t := v]> (tasks s)).
Definition set_queues (s : sched) (rr fifo : list (list nat)) (w : gmap nat (list nat)) : sched :=
  mk_sched (tasks s) rr fifo w (counts s) (current s) (idle_task s) (need_resched s) (kill_task s) (is_locked s).
Definition set_count (s : sched) (m : nat) (c : Z) : sched :=
  mk_sched (tasks s) (rr_runqueue s) (fifo_runqueue s) (wait_lists s) (<[m := wrap32 c]> (counts s)) (current s)
    (idle_task s) (need_resched s) (kill_task s) (is_locked s).
Definition set_current (s : sched) (c : option nat) : sched :=
  mk_sched (tasks s) (rr_runqueue s) (fifo_runqueue s) (wait_lists s) (counts s) c
    (idle_task s) (need_resched s) (kill_task s) (is_locked s).
Definition set_flags (s : sched) (resched kill : bool) (locked : Z) : sched :=
  mk_sched (tasks s) (rr_runqueue s) (fifo_runqueue s) (wait_lists s) (counts s) (current s)
    (idle_task s) resched kill locked.

Definition with_state (k : task) (v : Z) : task :=
  mk_task (id k) (priority k) v (tpolicy k) (unlock k) (lock_handle k) (lock_interrupted k).
Definition with_policy (k : task) (v : policy) : task :=
  mk_task (id k) (priority k) (state k) (Some v) (unlock k) (lock_handle k) (lock_interrupted k).
Definition with_lock (k : task) (u : bool) (h : option nat) : task :=
  mk_task (id k) (priority k) (state k) (tpolicy k) u h (lock_interrupted k).
Definition with_interrupted (k : task) (v : bool) : task :=
  mk_task (id k) (priority k) (state k) (tpolicy k) (unlock k) (lock_handle k) v.

(** ** List nodes *)

(** [list_del(&task->list)]: out of whatever list holds it. *)
Definition drop (t : nat) (l : list nat) : list nat := filter (fun x => x <> t) l.
Definition list_del (s : sched) (t : nat) : sched :=
  set_queues s (drop t <$> rr_runqueue s) (drop t <$> fifo_runqueue s) (drop t <$> wait_lists s).

(** Is the node in a list?  Adding a node that is would corrupt both lists. *)
Definition holds (t : nat) (l : list nat) : bool := bool_decide (t ∈ l).
Definition attached (s : sched) (t : nat) : bool :=
  existsb (holds t) (rr_runqueue s) || existsb (holds t) (fifo_runqueue s) ||
  existsb (holds t) (map_to_list (wait_lists s)).*2.

Definition add_rr (s : sched) (p t : nat) : outcome sched :=
  if attached s t then Fault else
  l ← deref (rr_runqueue s !! p);
  Ret (set_queues s (<[p := l ++ [t]]> (rr_runqueue s)) (fifo_runqueue s) (wait_lists s)).
Definition add_fifo (s : sched) (p t : nat) : outcome sched :=
  if attached s t then Fault else
  l ← deref (fifo_runqueue s !! p);
  Ret (set_queues s (rr_runqueue s) (<[p := l ++ [t]]> (fifo_runqueue s)) (wait_lists s)).
Definition add_wait (s : sched) (w t : nat) : outcome sched :=
  if attached s t then Fault else
  l ← deref (wait_lists s !! w);
  Ret (set_queues s (rr_runqueue s) (fifo_runqueue s) (<[w := l ++ [t]]> (wait_lists s))).

(** ** The policies *)

Definition sched_rr_get_priority_min : Z := 0.
Definition sched_rr_get_priority_max : Z := Z.of_nat NUM_PRIORITIES - 1.
Definition sched_fifo_get_priority_min : Z := 0.
Definition sched_fifo_get_priority_max : Z := Z.of_nat NUM_PRIORITIES - 1.

(** The highest non-empty queue below [n]. *)
Fixpoint highest (q : list (list nat)) (n : nat) : option nat :=
  match n with
  | O => None
  | S i => match q !! i with
           | Some [] | None => highest q i
           | Some (_ :: _) => Some i
           end
  end.

Definition rotate (l : list nat) : list nat :=
  match l with [] => [] | x :: l => l ++ [x] end.

Definition sched_rr_pick_task (s : sched) : sched * option nat :=
  match highest (rr_runqueue s) NUM_PRIORITIES with
  | None => (s, None)
  | Some i =>
      let q := alter rotate i (rr_runqueue s) in
      (set_queues s q (fifo_runqueue s) (wait_lists s), l ← q !! i; head l)
  end.

Definition sched_fifo_pick_task (s : sched) : sched * option nat :=
  match highest (fifo_runqueue s) NUM_PRIORITIES with
  | None => (s, None)
  | Some i => (s, l ← fifo_runqueue s !! i; head l)
  end.

Definition sched_rr_enqueue_task (s : sched) (t : nat) : outcome (sched * Z) :=
  k ← deref (tasks s !! t);
  if bool_decide (priority k < sched_rr_get_priority_min) then Ret (s, - EINVAL) else
  if bool_decide (sched_rr_get_priority_max < priority k) then Ret (s, - EINVAL) else
  s ← add_rr s (Z.to_nat (priority k)) t; Ret (s, 0).

Definition sched_fifo_enqueue_task (s : sched) (t : nat) : outcome (sched * Z) :=
  k ← deref (tasks s !! t);
  if bool_decide (priority k < sched_fifo_get_priority_min) then Ret (s, - EINVAL) else
  if bool_decide (sched_fifo_get_priority_max < priority k) then Ret (s, - EINVAL) else
  s ← add_fifo s (Z.to_nat (priority k)) t; Ret (s, 0).

Definition sched_rr_dequeue_task (s : sched) (t : nat) : sched * Z := (list_del s t, 0).
Definition sched_fifo_dequeue_task (s : sched) (t : nat) : sched * Z := (list_del s t, 0).

(** The seconds and nanoseconds of a time slice. *)
Definition sched_rr_get_interval : Z * Z :=
  if bool_decide (HZ = 1) then (1, 0) else (0, 1000000000 / HZ).

(** A [struct sched_policy]; FIFO leaves [rr_get_interval] NULL. *)
Record sched_policy := mk_policy {
  pick_task : sched -> sched * option nat;
  enqueue_task : sched -> nat -> outcome (sched * Z);
  dequeue_task : sched -> nat -> sched * Z;
  get_priority_min : Z;
  get_priority_max : Z;
  rr_get_interval : option (Z * Z);
}.

Definition sched_rr_policy : sched_policy :=
  mk_policy sched_rr_pick_task sched_rr_enqueue_task sched_rr_dequeue_task
    sched_rr_get_priority_min sched_rr_get_priority_max (Some sched_rr_get_interval).
Definition sched_fifo_policy : sched_policy :=
  mk_policy sched_fifo_pick_task sched_fifo_enqueue_task sched_fifo_dequeue_task
    sched_fifo_get_priority_min sched_fifo_get_priority_max None.
Definition ops_of (p : policy) : sched_policy :=
  match p with RR => sched_rr_policy | FIFO => sched_fifo_policy end.

(** Both policies configured, FIFO first. *)
Definition policies : list policy := [FIFO; RR].

(** ** Run queues *)

Definition sched_yield (s : sched) : sched := set_flags s true (kill_task s) (is_locked s).

Definition sched_add_to_runqueue (s : sched) (t : nat) : outcome (sched * Z) :=
  k ← deref (tasks s !! t);
  let p := default RR (tpolicy k) in
  let s := set_task s t (with_state (with_policy k p) TASK_RUNNING) in
  r ← enqueue_task (ops_of p) s t;
  let '(s, retval) := (r : sched * Z) in
  if bool_decide (retval <> 0) then Ret (s, retval) else
  c ← deref (current s);
  kc ← deref (tasks s !! c);
  Ret (if bool_decide (priority kc < priority k) then sched_yield s else s, 0).

Definition sched_rm_from_runqueue (s : sched) (t : nat) : outcome (sched * Z) :=
  k ← deref (tasks s !! t);
  match tpolicy k with
  | None => Ret (s, - EINVAL)
  | Some p => Ret (dequeue_task (ops_of p) (set_task s t (with_state k (Z.ldiff (state k) TASK_RUNNING))) t)
  end.

(** ** Wait lists *)

Definition task_add_to_wait_list (s : sched) (t w : nat) : outcome sched :=
  r ← sched_rm_from_runqueue s t;
  add_wait (r : sched * Z).1 w t.

Definition task_remove_from_wait_list (s : sched) (t : nat) : outcome sched :=
  r ← sched_add_to_runqueue (list_del s t) t;
  Ret (r : sched * Z).1.

(** [list_first_entry] of an empty list is not a task. *)
Definition first_waiter (s : sched) (w : nat) : outcome nat :=
  l ← deref (wait_lists s !! w); deref (head l).

Definition task_cond_init (s : sched) (w : nat) : sched :=
  set_queues s (rr_runqueue s) (fifo_runqueue s) (<[w := []]> (wait_lists s)).
Definition task_cond_signal (s : sched) (w : nat) : outcome sched :=
  t ← first_waiter s w; task_remove_from_wait_list s t.
Definition task_cond_broadcast (s : sched) (w : nat) : outcome sched :=
  l ← deref (wait_lists s !! w); foldO task_remove_from_wait_list s l.

(** ** Choosing the next task *)

(** The loop over the policies; [cur] is [current] as it goes. *)
Fixpoint pick_best (s : sched) (ps : list policy) (cur : option nat) : outcome (sched * option nat) :=
  match ps with
  | [] => Ret (s, cur)
  | p :: ps =>
      let '(s, new_task) := pick_task (ops_of p) s in
      match new_task, cur with
      | None, _ => pick_best s ps cur
      | Some t, None => pick_best s ps (Some t)
      | Some t, Some c =>
          k ← deref (tasks s !! t);
          kc ← deref (tasks s !! c);
          pick_best s ps (if bool_decide (priority kc < priority k) then Some t else cur)
      end
  end.

(** The end of a task that is not running: its node and its memory go. *)
Definition reap (s : sched) (t : nat) : sched :=
  set_tasks (list_del s t) (delete t (tasks s)).

(** [task_annihilate(task)] for a task that is not [current]; the idle task (id
    0) survives. *)
Definition task_annihilate (s : sched) (t : nat) : outcome sched :=
  k ← deref (tasks s !! t);
  if bool_decide (id k = 0) then Ret s else
  if bool_decide (current s = Some t) then Fault (* panic after task_exit *) else
  Ret (reap s t).

Definition schedule (s : sched) : outcome sched :=
  if bool_decide (is_locked s <> 0) then Ret s else
  current_saved ← deref (current s);
  r ← pick_best (set_current s None) policies None;
  let '(s, best) := (r : sched * option nat) in
  s ← match best with
      | Some t => Ret (set_current s (Some t))
      | None =>
          k ← deref (tasks s !! idle_task s);
          if bool_decide (state k <> TASK_RUNNING) then Fault (* panic *)
          else Ret (set_current s (Some (idle_task s)))
      end;
  let s := set_flags s false (kill_task s) (is_locked s) in
  if kill_task s then task_annihilate (set_flags s false false (is_locked s)) current_saved
  else Ret s.

Definition sched_lock (s : sched) : sched :=
  set_flags s (need_resched s) (kill_task s) (wrap32 (is_locked s + 1)).
Definition sched_unlock (s : sched) : sched :=
  set_flags s (need_resched s) (kill_task s) (wrap32 (is_locked s - 1)).

(** [kill_task = true]. *)
Definition set_kill (s : sched) : sched := set_flags s (need_resched s) true (is_locked s).

(** Leaving: the waiters of the task's condition [cond] are woken.  The steps
    between which the code can be interrupted are in [SchedSteps]. *)
Definition task_exit (s : sched) (cond : nat) : outcome sched :=
  c ← deref (current s);
  r ← sched_rm_from_runqueue s c;
  s ← task_cond_broadcast (r : sched * Z).1 cond;
  Ret (sched_yield (set_kill s)).

(** ** System calls; [find_task_by_id] is the task table's lookup *)

Section Syscalls.
Context (find_task_by_id : Z -> option nat).

Definition policy_of (pol : Z) : option policy :=
  if bool_decide (pol = SCHED_RR) then Some RR
  else if bool_decide (pol = SCHED_FIFO) then Some FIFO else None.

Definition sys_sched_get_priority_max (pol : Z) : Z :=
  match policy_of pol with Some p => get_priority_max (ops_of p) | None => - EINVAL end.
Definition sys_sched_get_priority_min (pol : Z) : Z :=
  match policy_of pol with Some p => get_priority_min (ops_of p) | None => - EINVAL end.

Definition lookup_pid (s : sched) (pid : Z) : option nat :=
  if bool_decide (pid = 0) then current s else if bool_decide (pid < 0) then None else find_task_by_id pid.

(** The result and, on success, the interval stored; calling a NULL
    [rr_get_interval] is a fault. *)
Definition sys_sched_rr_get_interval (s : sched) (pid : Z) (timespec : bool) : outcome (Z * option (Z * Z)) :=
  if negb timespec then Ret (- EINVAL, None) else
  match lookup_pid s pid with
  | None => Ret (- ESRCH, None)
  | Some t =>
      k ← deref (tasks s !! t);
      match tpolicy k with
      | None => Ret (- EINVAL, None)
      | Some p => i ← deref (rr_get_interval (ops_of p)); Ret (0, Some i)
      end
  end.

Definition sys_sched_getscheduler (s : sched) (pid : Z) : outcome Z :=
  match lookup_pid s pid with
  | None => Ret (- ESRCH)
  | Some t =>
      k ← deref (tasks s !! t);
      Ret match tpolicy k with
          | None => - EINVAL
          | Some RR => SCHED_RR
          | Some FIFO => SCHED_FIFO
          end
  end.

(** The switch over the policies of [sys_sched_setscheduler]. *)
Definition change_policy (s : sched) (t : nat) (pol : Z) : outcome (sched * Z) :=
  k ← deref (tasks s !! t);
  Ret match policy_of pol with
      | Some p => (set_task s t (with_policy k p), 0)
      | None => (s, - EINVAL)
      end.

Definition sys_sched_setscheduler (s : sched) (pid pol : Z) : outcome (sched * Z) :=
  match lookup_pid s pid with
  | None => Ret (s, - ESRCH)
  | Some t =>
      k ← deref (tasks s !! t);
      match tpolicy k with
      | None => Ret (s, - EINVAL)
      | Some _ =>
          r ← sched_rm_from_runqueue s t;
          r ← change_policy (r : sched * Z).1 t pol;
          let '(s, retval) := (r : sched * Z) in
          r ← sched_add_to_runqueue s t;
          Ret ((r : sched * Z).1, retval)
      end
  end.
End Syscalls.

(** ** Semaphores *)

Definition semaphore_init (s : sched) (m : nat) (val : Z) : sched :=
  set_count (set_queues s (rr_runqueue s) (fifo_runqueue s) (<[m := []]> (wait_lists s))) m val.

(** How a pass through the body of [__semaphore_down_interruptible] ends. *)
Inductive down_result := Blocked | Done (retval : Z).

(** One pass of the running task [t] through the loop, from [irq_disable] to
    the next [sched_yield] or to the end.  [atomic_get] is unsigned: the test
    [<= 0] is a test for zero. *)
Definition down_pass (s : sched) (t m : nat) (cb : bool) : outcome (sched * down_result) :=
  count ← deref (counts s !! m);
  k ← deref (tasks s !! t);
  if bool_decide (count <= 0) && negb (lock_interrupted k) then
    s ← task_add_to_wait_list s t m;
    k ← deref (tasks s !! t);
    Ret (sched_yield (set_task s t (with_lock k cb (Some m))), Blocked)
  else
    let s := set_task s t (with_lock k false None) in
    let s := set_count s m (count - 1) in
    if lock_interrupted k then
      Ret (set_task s t (with_interrupted (with_lock k false None) false), Done (- EINTR))
    else Ret (s, Done 0).

(** The first pass, which clears [lock_interrupted]. *)
Definition semaphore_down (s : sched) (t m : nat) (cb : bool) : outcome (sched * down_result) :=
  k ← deref (tasks s !! t);
  down_pass (set_task s t (with_interrupted k false)) t m cb.

Definition _semaphore_down_interruptible (s : sched) (t m : nat) := semaphore_down s t m true.
Definition _semaphore_lock (s : sched) (t m : nat) := semaphore_down s t m false.

Definition _semaphore_trylock (s : sched) (t m : nat) : outcome (sched * bool) :=
  count ← deref (counts s !! m);
  if bool_decide (count <= 0) then Ret (s, false) else
  r ← _semaphore_lock s t m;
  Ret ((r : sched * down_result).1, true).

Definition semaphore_interrupt (s : sched) (t : nat) : outcome sched :=
  k ← deref (tasks s !! t);
  task_remove_from_wait_list (set_task s t (with_interrupted k true)) t.

(** The three parts of [semaphore_unlock], which masks no interrupt around
    them: [atomic_inc], [list_is_empty], and [list_first_entry] with
    [task_remove_from_wait_list]. *)
Definition semaphore_count_up (s : sched) (m : nat) : outcome sched :=
  count ← deref (counts s !! m);
  Ret (set_count s m ((count : Z) + 1)).
Definition has_waiter (s : sched) (m : nat) : outcome bool :=
  l ← deref (wait_lists s !! m); Ret (negb (bool_decide (l = []))).
Definition wake_first (s : sched) (m : nat) : outcome sched :=
  t ← first_waiter s m; task_remove_from_wait_list s t.

Definition semaphore_unlock (s : sched) (m : nat) : outcome sched :=
  s ← semaphore_count_up s m;
  b ← has_waiter s m;
  if (b : bool) then wake_first s m else Ret s.

Definition semaphore_get_value (s : sched) (m : nat) : outcome Z := deref (counts s !! m).

(** ** A uniform view of the queues *)

Inductive place := InRR (p : nat) | InFIFO (p : nat) | InWait (w : nat).
#[export] Instance place_eq_dec : EqDecision place.
Proof. solve_decision. Defined.

Definition queue (s : sched) (pl : place) : option (list nat) :=
  match pl with
  | InRR p => rr_runqueue s !! p
  | InFIFO p => fifo_runqueue s !! p
  | InWait w => wait_lists s !! w
  end.

Definition sits (s : sched) (t : nat) (pl : place) : Prop := exists l, queue s pl = Some l /\ t ∈ l.

(** What a task must look like to sit at a place. *)
Definition fits (k : task) (pl : place) : Prop :=
  match pl with
  | InRR p => priority k = Z.of_nat p /\ tpolicy k = Some RR /\ state k = TASK_RUNNING
  | InFIFO p => priority k = Z.of_nat p /\ tpolicy k = Some FIFO /\ state k = TASK_RUNNING
  | InWait _ => state k = 0 /\ is_Some (tpolicy k)
  end.

Definition task_ok (k : task) : Prop :=
  0 <= priority k < 32 /\ (state k = 0 \/ state k = TASK_RUNNING).

Record inv (s : sched) : Prop := {
  i_rr : length (rr_runqueue s) = 32%nat;
  i_fifo : length (fifo_runqueue s) = 32%nat;
  i_nodup pl l : queue s pl = Some l -> NoDup l;
  i_uniq t pl pl' : sits s t pl -> sits s t pl' -> pl = pl';
  i_fits t pl : sits s t pl -> exists k, tasks s !! t = Some k /\ fits k pl;
  i_task t k : tasks s !! t = Some k -> task_ok k;
  i_idle : exists k, tasks s !! idle_task s = Some k /\ state k = TASK_RUNNING /\ id k = 0;
  i_idle_out pl : ~ sits s (idle_task s) pl;
  i_id t k : tasks s !! t = Some k -> id k = 0 -> t = idle_task s;
  i_current : exists c, current s = Some c /\ is_Some (tasks s !! c);
  i_kill : kill_task s = true -> forall c, current s = Some c -> c <> idle_task s /\ forall pl, ~ sits s c pl;
}.

Lemma queue_del s t pl : queue (list_del s t) pl = drop t <$> queue s pl.
Proof. destruct pl; simpl; by rewrite ?list_lookup_fmap, ?lookup_fmap. Qed.

Lemma sits_del s t x pl : sits (list_del s t) x pl <-> sits s x pl /\ x <> t.
Proof.
  unfold sits. rewrite queue_del. unfold drop. destruct (queue s pl) as [l|]; simpl; [|naive_solver].
  split.
  - intros (l' & [= <-] & [? ?]%list_elem_of_filter). split; [by exists l|done].
  - intros [(l' & [= <-] & ?) ?]. eexists. split; [done|]. by apply list_elem_of_filter.
Qed.

Lemma attached_spec s t : attached s t = true <-> exists pl, sits s t pl.
Proof.
  assert (Hl : forall L : list (list nat), existsb (holds t) L = true <-> exists l, l ∈ L /\ t ∈ l).
  { intros L. rewrite existsb_exists. split; intros (l & Hl & Ht); exists l; (split; [by apply list_elem_of_In|]);
      unfold holds in *; first [by apply bool_decide_eq_true in Ht|by apply bool_decide_eq_true_2]. }
  unfold attached. rewrite !orb_true_iff, !Hl. split.
  - intros [[(l & [p Hp]%list_elem_of_lookup & Ht)|(l & [p Hp]%list_elem_of_lookup & Ht)]|(l & Hw & Ht)].
    + by exists (InRR p), l.
    + by exists (InFIFO p), l.
    + apply list_elem_of_fmap in Hw as ([w l'] & -> & Hw%elem_of_map_to_list). by exists (InWait w), l'.
  - intros ([p|p|w] & l & Hl' & Ht); simpl in Hl'.
    + left. left. exists l. split; [by eapply list_elem_of_lookup_2|done].
    + left. right. exists l. split; [by eapply list_elem_of_lookup_2|done].
    + right. exists l. split; [|done]. apply list_elem_of_fmap. exists (w, l). split; [done|]. by apply elem_of_map_to_list.
Qed.

(** Adding a detached node at the end of the queue at [pl]. *)
Definition add_at (s : sched) (pl : place) (t : nat) : outcome sched :=
  match pl with InRR p => add_rr s p t | InFIFO p => add_fifo s p t | InWait w => add_wait s w t end.
Definition put (s : sched) (pl : place) (q : list nat) : sched :=
  match pl with
  | InRR p => set_queues s (<[p := q]> (rr_runqueue s)) (fifo_runqueue s) (wait_lists s)
  | InFIFO p => set_queues s (rr_runqueue s) (<[p := q]> (fifo_runqueue s)) (wait_lists s)
  | InWait w => set_queues s (rr_runqueue s) (fifo_runqueue s) (<[w := q]> (wait_lists s))
  end.

Lemma add_at_eq s pl t l : (forall pl, ~ sits s t pl) -> queue s pl = Some l ->
  add_at s pl t = Ret (put s pl (l ++ [t])).
Proof.
  intros Hn Hl. assert (Ha : attached s t = false).
  { destruct (attached s t) eqn:E; [|done]. apply attached_spec in E as [pl' ?]. by destruct (Hn pl'). }
  destruct pl; simpl in *; unfold add_rr, add_fifo, add_wait; rewrite Ha, Hl; done.
Qed.

Lemma queue_put s pl q pl' : is_Some (queue s pl) ->
  queue (put s pl q) pl' = if decide (pl = pl') then Some q else queue s pl'.
Proof.
  intros [l Hl]. destruct pl as [p|p|w], pl' as [p'|p'|w']; simpl in *; try done.
  - case_decide as E; simplify_eq; [apply list_lookup_insert_eq; by eapply lookup_lt_Some|].
    apply list_lookup_insert_ne. congruence.
  - case_decide as E; simplify_eq; [apply list_lookup_insert_eq; by eapply lookup_lt_Some|].
    apply list_lookup_insert_ne. congruence.
  - case_decide as E; simplify_eq; [apply lookup_insert_eq|]. apply lookup_insert_ne. congruence.
Qed.

(** ** Invariant preservation, one primitive at a time *)

Definition detached (s : sched) (t : nat) : Prop := forall pl, ~ sits s t pl.

Lemma sits_put s pl l t x pl' : queue s pl = Some l ->
  sits (put s pl (l ++ [t])) x pl' <-> sits s x pl' \/ (x = t /\ pl' = pl).
Proof.
  intros Hl. unfold sits. rewrite queue_put by eauto. case_decide as E; [subst pl'|].
  - rewrite Hl. split.
    + intros (? & [= <-] & [?|?%list_elem_of_singleton]%elem_of_app); [left; eauto|by right].
    + intros [(? & [= <-] & ?)|[-> _]]; eexists; (split; [done|]); rewrite elem_of_app, list_elem_of_singleton; auto.
  - split; [by left|]. intros [?|[_ ->]]; done.
Qed.

Lemma put_fields s pl q : tasks (put s pl q) = tasks s /\ counts (put s pl q) = counts s /\
  current (put s pl q) = current s /\ idle_task (put s pl q) = idle_task s /\
  kill_task (put s pl q) = kill_task s /\ is_locked (put s pl q) = is_locked s /\
  need_resched (put s pl q) = need_resched s.
Proof. by destruct pl. Qed.

Lemma inv_detach s t : inv s -> inv (list_del s t).
Proof.
  intros Hi. split; simpl; try apply Hi.
  - by rewrite length_fmap, (i_rr _ Hi).
  - by rewrite length_fmap, (i_fifo _ Hi).
  - intros pl l. rewrite queue_del. intros (l' & Hl' & ->)%fmap_Some. by eapply NoDup_filter, (i_nodup _ Hi).
  - intros x pl pl' [H1 _]%sits_del [H2 _]%sits_del. by eapply (i_uniq _ Hi).
  - intros x pl [H1 _]%sits_del. by apply (i_fits _ Hi).
  - intros pl [H1 _]%sits_del. by apply (i_idle_out _ Hi pl).
  - intros Hk c Hc. destruct (i_kill _ Hi Hk c Hc) as [? Hd]. split; [done|]. intros pl [? _]%sits_del. by apply (Hd pl).
Qed.

Lemma inv_set_detached s t k k' : inv s -> detached s t -> tasks s !! t = Some k -> task_ok k' -> id k' = id k ->
  (t = idle_task s -> state k' = TASK_RUNNING) -> inv (set_task s t k').
Proof.
  intros Hi Hd Hk Hok Hid Hidle. split; simpl; try apply Hi.
  - intros x pl Hx. destruct (i_fits _ Hi x pl Hx) as (kx & ? & ?). exists kx. split; [|done].
    rewrite lookup_insert_ne; [done|]. intros <-. by apply (Hd pl).
  - intros x kx [[<- <-]|[_ ?]]%lookup_insert_Some; [done|by eapply (i_task _ Hi)].
  - destruct (i_idle _ Hi) as (ki & Hki & ? & ?). destruct (decide (t = idle_task s)) as [->|Hne].
    + exists k'. rewrite lookup_insert_eq. split_and!; try done; [by apply Hidle|congruence].
    + exists ki. by rewrite lookup_insert_ne.
  - intros x kx [[<- <-]|[_ ?]]%lookup_insert_Some E; [|by eapply (i_id _ Hi)].
    apply (i_id _ Hi t k Hk). congruence.
  - destruct (i_current _ Hi) as (c & Hc & ?). exists c. split; [done|]. by apply lookup_insert_is_Some'; right.
Qed.

(** Fields that no queue depends on. *)
Lemma inv_set_task s t k k' : inv s -> tasks s !! t = Some k -> id k' = id k -> priority k' = priority k ->
  state k' = state k -> tpolicy k' = tpolicy k -> inv (set_task s t k').
Proof.
  intros Hi Hk Hid Hp Hs Hpo.
  assert (Hfits : forall pl, fits k' pl <-> fits k pl) by (intros []; simpl; by rewrite ?Hp, ?Hs, ?Hpo).
  split; simpl; try apply Hi.
  - intros x pl Hx. destruct (i_fits _ Hi x pl Hx) as (kx & Hkx & ?). destruct (decide (x = t)) as [->|Hne].
    + exists k'. rewrite lookup_insert_eq, Hfits. split; [done|]. congruence.
    + exists kx. by rewrite lookup_insert_ne.
  - intros x kx [[<- <-]|[_ ?]]%lookup_insert_Some; [|by eapply (i_task _ Hi)].
    unfold task_ok. rewrite Hp, Hs. by apply (i_task _ Hi t).
  - destruct (i_idle _ Hi) as (ki & Hki & ? & ?). destruct (decide (t = idle_task s)) as [->|Hne].
    + exists k'. rewrite lookup_insert_eq. simplify_eq. split_and!; congruence.
    + exists ki. by rewrite lookup_insert_ne.
  - intros x kx [[<- <-]|[_ ?]]%lookup_insert_Some E; [|by eapply (i_id _ Hi)].
    apply (i_id _ Hi t k Hk). congruence.
  - destruct (i_current _ Hi) as (c & Hc & ?). exists c. split; [done|]. by apply lookup_insert_is_Some'; right.
Qed.

Lemma inv_attach s t pl l k : inv s -> detached s t -> queue s pl = Some l -> tasks s !! t = Some k -> fits k pl ->
  t <> idle_task s -> (kill_task s = true -> current s <> Some t) -> inv (put s pl (l ++ [t])).
Proof.
  intros Hi Hd Hl Hk Hf Hne Hkill.
  assert (Hs : forall x pl', sits (put s pl (l ++ [t])) x pl' <-> sits s x pl' \/ (x = t /\ pl' = pl))
    by (intros; by apply sits_put).
  destruct (put_fields s pl (l ++ [t])) as (Et & Ec & Ecu & Eid & Eki & _).
  split; rewrite ?Et, ?Ecu, ?Eid, ?Eki; try apply Hi.
  - destruct pl; simpl; rewrite ?length_insert; apply Hi.
  - destruct pl; simpl; rewrite ?length_insert; apply Hi.
  - intros pl' l'. rewrite queue_put by eauto. case_decide as E; [|apply (i_nodup _ Hi)].
    intros [= <-]. apply NoDup_app. split_and!; [by eapply (i_nodup _ Hi)| |apply NoDup_singleton].
    intros x Hx ->%list_elem_of_singleton. apply (Hd pl). by exists l.
  - intros x p1 p2. rewrite !Hs. intros [H1|[-> ->]] [H2|[H2 ->]]; [by eapply (i_uniq _ Hi)| | |done].
    + subst x. by destruct (Hd p1).
    + by destruct (Hd p2).
  - intros x p1. rewrite Hs. intros [H1|[-> ->]]; [by apply (i_fits _ Hi)|by exists k].
  - intros p1. rewrite Hs. intros [H1|[E _]]; [by apply (i_idle_out _ Hi p1)|by apply Hne].
  - intros Hkt c Hc. destruct (i_kill _ Hi Hkt c Hc) as [? Hdc]. split; [done|]. intros p1. rewrite Hs.
    intros [?|[-> _]]; [by apply (Hdc p1)|by apply Hkill].
Qed.

Lemma inv_flags s r n : inv s -> inv (set_flags s r (kill_task s) n).
Proof. intros []. by split. Qed.
Lemma inv_yield s : inv s -> inv (sched_yield s).
Proof. apply inv_flags. Qed.
Lemma inv_count s m c : inv s -> inv (set_count s m c).
Proof. intros []. by split. Qed.

(** ** What each operation does *)

Definition run_place (k : task) : place :=
  match default RR (tpolicy k) with
  | RR => InRR (Z.to_nat (priority k))
  | FIFO => InFIFO (Z.to_nat (priority k))
  end.

Definition runnable_task (k : task) : task := with_state (with_policy k (default RR (tpolicy k))) TASK_RUNNING.

(** Everything but the queues, one task and [need_resched] is as it was. *)
Definition same_but (s s' : sched) (t : nat) (k' : task) : Prop :=
  tasks s' = <[t := k']> (tasks s) /\ counts s' = counts s /\ current s' = current s /\
  idle_task s' = idle_task s /\ kill_task s' = kill_task s /\ is_locked s' = is_locked s.

Lemma fits_run_place k : 0 <= priority k < 32 -> fits (runnable_task k) (run_place (runnable_task k)).
Proof.
  intros Hp. unfold run_place, runnable_task. simpl. destruct (tpolicy k) as [[|]|]; simpl; split_and!; try done; lia.
Qed.

Lemma run_queue_some s k : inv s -> 0 <= priority k < 32 -> is_Some (queue s (run_place k)).
Proof.
  intros Hi Hp. unfold run_place. destruct (default RR (tpolicy k)); apply lookup_lt_is_Some_2;
    rewrite ?(i_rr _ Hi), ?(i_fifo _ Hi); lia.
Qed.

Lemma enqueue_eq s t k p : tasks s !! t = Some k -> tpolicy k = Some p -> 0 <= priority k < 32 ->
  enqueue_task (ops_of p) s t = (s' ← add_at s (run_place k) t; Ret (s', 0)).
Proof.
  intros Hk Hp Hr. unfold run_place. rewrite Hp. simpl.
  destruct p; simpl; unfold sched_rr_enqueue_task, sched_fifo_enqueue_task; rewrite Hk; simpl;
    rewrite !bool_decide_eq_false_2; try done; unfold sched_rr_get_priority_min, sched_rr_get_priority_max,
    sched_fifo_get_priority_min, sched_fifo_get_priority_max, NUM_PRIORITIES; lia.
Qed.

Lemma add_runqueue_spec s t k :
  inv s -> detached s t -> tasks s !! t = Some k -> t <> idle_task s ->
  (kill_task s = true -> current s <> Some t) ->
  exists s' l, sched_add_to_runqueue s t = Ret (s', 0) /\ inv s' /\ same_but s s' t (runnable_task k) /\
    queue s (run_place k) = Some l /\
    (forall pl, queue s' pl = if decide (run_place k = pl) then Some (l ++ [t]) else queue s pl).
Proof.
  intros Hi Hd Hk Hne Hkill. pose proof (i_task _ Hi t k Hk) as [Hp _].
  destruct (run_queue_some s k Hi Hp) as [l Hl].
  unfold sched_add_to_runqueue. rewrite Hk. simpl. fold (runnable_task k).
  set (s1 := set_task s t (runnable_task k)).
  assert (Hi1 : inv s1) by (eapply (inv_set_detached s t k); try done; split; [done|by right]).
  assert (Hk1 : tasks s1 !! t = Some (runnable_task k)) by apply lookup_insert_eq.
  assert (Hl1 : queue s1 (run_place (runnable_task k)) = Some l) by done.
  rewrite (enqueue_eq s1 t (runnable_task k)) by done.
  rewrite (add_at_eq s1 _ t l) by done. simpl.
  set (pl := run_place (runnable_task k)) in *. set (s2 := put s1 pl (l ++ [t])).
  assert (Hi2 : inv s2).
  { apply (inv_attach s1 t pl l (runnable_task k)); try done.
    by apply fits_run_place. }
  destruct (i_current _ Hi2) as (c & Hc & kc & Hkc). rewrite Hc. simpl. rewrite Hkc. simpl.
  destruct (put_fields s1 pl (l ++ [t])) as (E1 & E2 & E3 & E4 & E5 & E6 & _).
  eexists _, l. split; [done|]. split; [case_bool_decide; [by apply inv_yield|done]|].
  split; [|split; [done|]].
  - destruct (bool_decide _); unfold same_but, s2; simpl; rewrite ?E1, ?E2, ?E3, ?E4, ?E5, ?E6; done.
  - intros pl'. replace (queue _ pl') with (queue s2 pl') by (by destruct (bool_decide _), pl').
    unfold s2. rewrite queue_put by eauto. done.
Qed.

Lemma rm_runqueue_spec s t k p :
  inv s -> tasks s !! t = Some k -> tpolicy k = Some p -> t <> idle_task s ->
  exists s', sched_rm_from_runqueue s t = Ret (s', 0) /\ inv s' /\ same_but s s' t (with_state k 0) /\
    (forall pl, queue s' pl = drop t <$> queue s pl).
Proof.
  intros Hi Hk Hp Hne. unfold sched_rm_from_runqueue. rewrite Hk. simpl. rewrite Hp. simpl.
  assert (Hst : Z.ldiff (state k) TASK_RUNNING = 0).
  { by destruct (i_task _ Hi t k Hk) as [_ [-> | ->]]. }
  rewrite Hst. set (k0 := with_state k 0).
  assert (E : dequeue_task (ops_of p) (set_task s t k0) t = (set_task (list_del s t) t k0, 0)) by (by destruct p).
  rewrite E. eexists. split; [done|]. split; [|split; [by split_and!|intros pl; apply (queue_del s t pl)]].
  apply (inv_set_detached (list_del s t) t k); try done; [by apply inv_detach|by intros pl [_ ?]%sits_del|].
  destruct (i_task _ Hi t k Hk). split; [done|by left].
Qed.

Lemma wait_spec s t k p w l :
  inv s -> tasks s !! t = Some k -> tpolicy k = Some p -> t <> idle_task s -> kill_task s = false ->
  queue s (InWait w) = Some l ->
  exists s', task_add_to_wait_list s t w = Ret s' /\ inv s' /\ same_but s s' t (with_state k 0) /\
    (forall pl, queue s' pl = if decide (InWait w = pl) then Some (drop t l ++ [t]) else drop t <$> queue s pl).
Proof.
  intros Hi Hk Hp Hne Hkill Hl. unfold task_add_to_wait_list.
  destruct (rm_runqueue_spec s t k p Hi Hk Hp Hne) as (s1 & -> & Hi1 & (E1 & E2 & E3 & E4 & E5 & E6) & Hq). simpl.
  assert (Hd : detached s1 t).
  { intros pl (l' & Hl' & Ht). rewrite Hq in Hl'. apply fmap_Some in Hl' as (l0 & _ & ->).
    by apply list_elem_of_filter in Ht as [? _]. }
  assert (Hl1 : queue s1 (InWait w) = Some (drop t l)) by (by rewrite Hq, Hl).
  rewrite (add_at_eq s1 (InWait w) t _ Hd Hl1 : add_wait s1 w t = _).
  eexists. split; [done|]. split; [|split].
  - eapply (inv_attach s1 t (InWait w) _ (with_state k 0)); try done; try (rewrite E1, lookup_insert_eq; done); try congruence.
  - by split_and!.
  - intros pl. rewrite (queue_put s1 (InWait w)) by eauto. by rewrite Hq.
Qed.

Lemma wake_spec s t k :
  inv s -> tasks s !! t = Some k -> t <> idle_task s -> (kill_task s = true -> current s <> Some t) ->
  exists s' l, task_remove_from_wait_list s t = Ret s' /\ inv s' /\ same_but s s' t (runnable_task k) /\
    queue s (run_place k) = Some l /\
    (forall pl, queue s' pl = if decide (run_place k = pl) then Some (drop t l ++ [t]) else drop t <$> queue s pl).
Proof.
  intros Hi Hk Hne Hkill. unfold task_remove_from_wait_list.
  destruct (add_runqueue_spec (list_del s t) t k) as (s' & l' & -> & Hi' & Hs & Hl & Hq); try done.
  { by apply inv_detach. }
  { by intros pl [_ ?]%sits_del. }
  rewrite queue_del in Hl. apply fmap_Some in Hl as (l & Hl & ->). exists s', l. split_and!; try done; try apply Hs.
  intros pl. rewrite Hq. by rewrite queue_del.
Qed.

(** ** Picking *)

Definition runnable (s : sched) (t : nat) : Prop := exists p, sits s t (InRR p) \/ sits s t (InFIFO p).

Lemma highest_spec (q : list (list nat)) n :
  match highest q n with
  | Some i => (i < n)%nat /\ (exists x l, q !! i = Some (x :: l)) /\
      forall j y l, (i < j < n)%nat -> q !! j <> Some (y :: l)
  | None => forall j y l, (j < n)%nat -> q !! j <> Some (y :: l)
  end.
Proof.
  induction n as [|n IH]; simpl; [lia|]. destruct (q !! n) as [[|x l]|] eqn:E.
  2: { split; [lia|]. split; [by exists x, l|]. intros j y l' Hj. lia. }
  all: destruct (highest q n) as [i|]; [destruct IH as (Hi & ? & IH); split; [lia|]; split; [done|]|].
  all: intros j y l' Hj; destruct (decide (j = n)) as [->|]; [rewrite E; congruence|apply IH; lia].
Qed.

#[local] Arguments highest : simpl never.
#[local] Opaque highest.

Lemma fifo_pick_spec s : inv s -> exists r, sched_fifo_pick_task s = (s, r) /\
  match r with
  | Some t => exists p l, queue s (InFIFO p) = Some (t :: l) /\ forall x p', sits s x (InFIFO p') -> (p' <= p)%nat
  | None => forall x p', ~ sits s x (InFIFO p')
  end.
Proof.
  intros Hi. unfold sched_fifo_pick_task. pose proof (highest_spec (fifo_runqueue s) NUM_PRIORITIES) as Hh.
  assert (Hlt : forall x p' l, fifo_runqueue s !! p' = Some l -> x ∈ l -> (p' < NUM_PRIORITIES)%nat /\ exists y l', l = y :: l').
  { intros x p' l Hp' Hx. split; [apply lookup_lt_Some in Hp'; by rewrite (i_fifo _ Hi) in Hp'|].
    destruct l; [by apply elem_of_nil in Hx|eauto]. }
  destruct (highest _ _) as [i|].
  - destruct Hh as (Hin & (t & l & Hl) & Hmax). rewrite Hl. simpl. eexists. split; [done|].
    exists i, l. split; [done|]. intros x p' (l' & Hl' & Hx). simpl in Hl'.
    destruct (Hlt x p' l' Hl' Hx) as (Hb & y & l2 & ->).
    destruct (decide (p' <= i)%nat); [done|]. exfalso. apply (Hmax p' y l2); [lia|done].
  - eexists. split; [done|]. intros x p' (l' & Hl' & Hx). simpl in Hl'.
    destruct (Hlt x p' l' Hl' Hx) as (Hb & y & l2 & ->). by apply (Hh p' y l2).
Qed.

Lemma rr_pick_spec s : inv s ->
  match (sched_rr_pick_task s).2 with
  | Some t => exists p x l, queue s (InRR p) = Some (x :: l) /\ head (l ++ [x]) = Some t /\
      sched_rr_pick_task s = (put s (InRR p) (l ++ [x]), Some t) /\ forall y p', sits s y (InRR p') -> (p' <= p)%nat
  | None => sched_rr_pick_task s = (s, None) /\ forall x p', ~ sits s x (InRR p')
  end.
Proof.
  intros Hi. unfold sched_rr_pick_task. pose proof (highest_spec (rr_runqueue s) NUM_PRIORITIES) as Hh.
  assert (Hlt : forall x p' l, rr_runqueue s !! p' = Some l -> x ∈ l -> (p' < NUM_PRIORITIES)%nat /\ exists y l', l = y :: l').
  { intros x p' l Hp' Hx. split; [apply lookup_lt_Some in Hp'; by rewrite (i_rr _ Hi) in Hp'|].
    destruct l; [by apply elem_of_nil in Hx|eauto]. }
  destruct (highest _ _) as [i|].
  - destruct Hh as (Hin & (x & l & Hl) & Hmax). simpl.
    rewrite list_lookup_alter_eq, Hl. simpl.
    assert (Hhd : exists t, head (l ++ [x]) = Some t) by (destruct l; simpl; eauto). destruct Hhd as [t Ht].
    rewrite Ht. exists i, x, l. split; [done|]. split; [done|]. split.
    + f_equal. unfold put, set_queues. f_equal. apply list_eq. intros j. destruct (decide (i = j)) as [<-|].
      * rewrite list_lookup_alter_eq, Hl, list_lookup_insert_eq; [done|by eapply lookup_lt_Some].
      * by rewrite list_lookup_alter_ne, list_lookup_insert_ne.
    + intros y p' (l' & Hl' & Hy). simpl in Hl'. destruct (Hlt y p' l' Hl' Hy) as (Hb & z & l2 & ->).
      destruct (decide (p' <= i)%nat); [done|]. exfalso. apply (Hmax p' z l2); [lia|done].
  - split; [done|]. intros x p' (l' & Hl' & Hx). simpl in Hl'.
    destruct (Hlt x p' l' Hl' Hx) as (Hb & y & l2 & ->). by apply (Hh p' y l2).
Qed.

Lemma sits_perm s pl l l' x pl' : queue s pl = Some l -> l' ≡ₚ l -> sits (put s pl l') x pl' <-> sits s x pl'.
Proof.
  intros Hl Hp. unfold sits. rewrite queue_put by eauto. case_decide as E; [subst pl'|done]. rewrite Hl.
  split; intros (? & [= <-] & ?); eexists; (split; [done|]); by rewrite ?Hp in *.
Qed.

Lemma inv_perm s pl l l' : inv s -> queue s pl = Some l -> l' ≡ₚ l -> inv (put s pl l').
Proof.
  intros Hi Hl Hp. assert (Hs : forall x pl', sits (put s pl l') x pl' <-> sits s x pl') by (intros; by eapply sits_perm).
  destruct (put_fields s pl l') as (Et & Ec & Ecu & Eid & Eki & _).
  split; rewrite ?Et, ?Ecu, ?Eid, ?Eki; try apply Hi.
  - destruct pl; simpl; rewrite ?length_insert; apply Hi.
  - destruct pl; simpl; rewrite ?length_insert; apply Hi.
  - intros pl' l2. rewrite queue_put by eauto. case_decide; [|apply (i_nodup _ Hi)].
    intros [= <-]. rewrite Hp. by eapply (i_nodup _ Hi).
  - intros x p1 p2. rewrite !Hs. apply (i_uniq _ Hi).
  - intros x p1. rewrite Hs. apply (i_fits _ Hi).
  - intros p1. rewrite Hs. apply (i_idle_out _ Hi).
  - intros Hk c Hc. destruct (i_kill _ Hi Hk c Hc). split; [done|]. intros p1. by rewrite Hs.
Qed.

(** What [schedule] must choose: a task of the highest priority among all that
    can run, a FIFO task before a round-robin one. *)
Definition best_choice (s : sched) (r : option nat) : Prop :=
  match r with
  | None => forall x, ~ runnable s x
  | Some t => runnable s t /\ forall x kx kt, runnable s x -> tasks s !! x = Some kx -> tasks s !! t = Some kt ->
      priority kx <= priority kt /\
      (priority kx = priority kt -> (exists p, sits s x (InFIFO p)) -> exists p, sits s t (InFIFO p))
  end.

(** The queues after the round-robin policy was asked for a task. *)
Definition rotated (s s' : sched) : Prop :=
  s' = s \/ exists p x l, queue s (InRR p) = Some (x :: l) /\ s' = put s (InRR p) (l ++ [x]).

Lemma rotated_inv s s' : inv s -> rotated s s' ->
  inv s' /\ tasks s' = tasks s /\ counts s' = counts s /\ current s' = current s /\ idle_task s' = idle_task s /\
  kill_task s' = kill_task s /\ is_locked s' = is_locked s /\ (forall x pl, sits s' x pl <-> sits s x pl) /\
  (forall w, queue s' (InWait w) = queue s (InWait w)).
Proof.
  intros Hi [->|(p & x & l & Hl & ->)]; [done|].
  assert (Hp : l ++ [x] ≡ₚ x :: l) by (by rewrite Permutation_app_comm).
  split; [by eapply inv_perm|]. split_and!; try done. intros y pl. by eapply sits_perm.
Qed.

Lemma pick_rr_current s c :
  sched_rr_pick_task (set_current s c) = (set_current (sched_rr_pick_task s).1 c, (sched_rr_pick_task s).2).
Proof. unfold sched_rr_pick_task. simpl. by destruct (highest _ _). Qed.

Lemma pick_fifo_current s c :
  sched_fifo_pick_task (set_current s c) = (set_current (sched_fifo_pick_task s).1 c, (sched_fifo_pick_task s).2).
Proof. unfold sched_fifo_pick_task. simpl. by destruct (highest _ _). Qed.

Lemma pick_spec s : inv s ->
  exists s' r, pick_best (set_current s None) policies None = Ret (set_current s' None, r) /\
    rotated s s' /\ best_choice s r.
Proof.
  intros Hi. unfold policies. cbn [pick_best]. simpl. rewrite pick_fifo_current.
  destruct (fifo_pick_spec s Hi) as (rf & Ef & Hf). rewrite Ef. simpl. rewrite pick_rr_current.
  pose proof (rr_pick_spec s Hi) as Hr.
  destruct (sched_rr_pick_task s) as [s' rr] eqn:Er. simpl in Hr |- *.
  assert (Hprio : forall x p kx, sits s x (InRR p) \/ sits s x (InFIFO p) -> tasks s !! x = Some kx -> priority kx = Z.of_nat p).
  { intros x p kx [Hx|Hx] Hkx; destruct (i_fits _ Hi x _ Hx) as (k' & Hk' & Hfit); simpl in Hfit; simplify_eq; apply Hfit. }
  assert (Hsplit : forall t l p, queue s (InRR p) = Some l -> t ∈ l -> sits s t (InRR p)) by (intros; by eexists).
  destruct rr as [t|].
  - destruct Hr as (p & x & l & Hl & Hhd & E & Hmax). injection E as ->.
    assert (Ht : sits s t (InRR p)).
    { eexists. split; [exact Hl|]. destruct l; simpl in Hhd; simplify_eq; set_solver. }
    assert (Hrot : rotated s (put s (InRR p) (l ++ [x]))) by (right; by exists p, x, l).
    destruct rf as [tf|].
    + destruct Hf as (pf & lf & Hlf & Hmaxf).
      assert (Htf : sits s tf (InFIFO pf)) by (eexists; split; [exact Hlf|by left]).
      destruct (i_fits _ Hi t _ Ht) as (kt & Hkt & _). destruct (i_fits _ Hi tf _ Htf) as (ktf & Hktf & _).
      simpl. rewrite Hkt. simpl. rewrite Hktf. simpl.
      rewrite (Hprio t p kt), (Hprio tf pf ktf) by auto.
      eexists _, _. split; [done|]. split; [done|]. case_bool_decide as Hlt.
      * split; [exists p; auto|]. intros y ky kt' [q Hq] Hky Hkt'. rewrite (Hprio y q ky), (Hprio t p kt') by auto.
        destruct Hq as [Hq|Hq]; [pose proof (Hmax _ _ Hq)|pose proof (Hmaxf _ _ Hq)]; (split; [lia|]).
        -- intros _ [q' Hq']. by pose proof (i_uniq _ Hi _ _ _ Hq Hq').
        -- lia.
      * split; [exists pf; auto|]. intros y ky kt' [q Hq] Hky Hkt'. rewrite (Hprio y q ky), (Hprio tf pf kt') by auto.
        split; [|by exists pf]. destruct Hq as [Hq|Hq]; [pose proof (Hmax _ _ Hq)|pose proof (Hmaxf _ _ Hq)]; lia.
    + simpl. eexists _, _. split; [done|]. split; [done|]. split; [exists p; auto|].
      intros y ky kt' [q Hq] Hky Hkt'. rewrite (Hprio y q ky), (Hprio t p kt') by auto.
      destruct Hq as [Hq|Hq]; [pose proof (Hmax _ _ Hq)|by destruct (Hf _ _ Hq)].
      split; [lia|]. intros _ [q' Hq']. by destruct (Hf _ _ Hq').
  - destruct Hr as [E Hno]. injection E as ->. destruct rf as [tf|]; simpl.
    + destruct Hf as (pf & lf & Hlf & Hmaxf).
      assert (Htf : sits s tf (InFIFO pf)) by (eexists; split; [exact Hlf|by left]).
      eexists _, _. split; [done|]. split; [by left|]. split; [exists pf; auto|].
      intros y ky kt' [q Hq] Hky Hkt'. rewrite (Hprio y q ky), (Hprio tf pf kt') by auto.
      split; [|by exists pf]. destruct Hq as [Hq|Hq]; [by destruct (Hno _ _ Hq)|pose proof (Hmaxf _ _ Hq)]. lia.
    + eexists _, _. split; [done|]. split; [by left|]. intros x [q [Hq|Hq]]; [by eapply Hno|by eapply Hf].
Qed.

Lemma inv_current s t n : inv s -> is_Some (tasks s !! t) -> inv (set_flags (set_current s (Some t)) false false n).
Proof.
  intros Hi Ht. destruct Hi. split; try done. simpl. by exists t.
Qed.

Lemma inv_reap s c : inv s -> detached s c -> c <> idle_task s -> current s <> Some c -> kill_task s = false ->
  inv (reap s c).
Proof.
  intros Hi Hd Hne Hc Hk. pose proof (inv_detach s c Hi) as Hi'. unfold reap.
  split; simpl; try apply Hi'.
  - intros x pl Hx. destruct (i_fits _ Hi' x pl Hx) as (k & ? & ?). exists k. split; [|done].
    rewrite lookup_delete_ne; [done|]. intros <-. apply sits_del in Hx as [Hx _]. by apply (Hd pl).
  - intros x k [_ ?]%lookup_delete_Some. by apply (i_task _ Hi x).
  - destruct (i_idle _ Hi) as (k & ? & ?). exists k. by rewrite lookup_delete_ne.
  - intros x k [_ ?]%lookup_delete_Some. by apply (i_id _ Hi).
  - destruct (i_current _ Hi) as (t & Ht & ?). exists t. split; [done|]. rewrite lookup_delete_ne; [done|congruence].
Qed.

Lemma best_exists s r : inv s -> best_choice s r -> is_Some (tasks s !! default (idle_task s) r).
Proof.
  intros Hi Hb. destruct r as [t|]; simpl.
  - destruct Hb as [[p [Ht|Ht]] _]; destruct (i_fits _ Hi t _ Ht) as (k & ? & _); eauto.
  - destruct (i_idle _ Hi) as (k & ? & _); eauto.
Qed.

(** [schedule], in full: nothing under [sched_lock]; otherwise the best choice
    becomes [current], and a task that called [task_exit] is freed. *)
Lemma schedule_spec s : inv s ->
  (is_locked s <> 0 /\ schedule s = Ret s) \/
  (is_locked s = 0 /\ exists s1 r c, rotated s s1 /\ best_choice s r /\ current s = Some c /\
     let s2 := set_flags (set_current s1 (Some (default (idle_task s) r))) false false (is_locked s) in
     inv s2 /\ schedule s = Ret (if kill_task s then reap s2 c else s2) /\
     (kill_task s = true -> inv (reap s2 c))).
Proof.
  intros Hi. unfold schedule. remember (pick_best (set_current s None) policies None) as o eqn:Eo.
  case_bool_decide as Hl; [by left|right].
  split; [lia|]. destruct (i_current _ Hi) as (c & Hc & Hct).
  destruct (pick_spec s Hi) as (s1 & r & E & Hrot & Hb). exists s1, r, c.
  split; [done|]. split; [done|]. split; [done|].
  destruct (rotated_inv s s1 Hi Hrot) as (Hi1 & Et & Ec & Ecu & Eid & Ek & El & Hsits & _).
  set (t := default (idle_task s) r).
  assert (Ht : is_Some (tasks s1 !! t)) by (rewrite Et; by apply best_exists).
  assert (Hi2 : inv (set_flags (set_current s1 (Some t)) false false (is_locked s))) by (by apply inv_current).
  split; [exact Hi2|]. rewrite E in Eo. subst o. rewrite Hc. cbn [mbind outcome_bind deref]. cbn [mbind outcome_bind].
  assert (Hset : (match r with
      | Some t => Ret (set_current (set_current s1 None) (Some t))
      | None => k ← deref (tasks (set_current s1 None) !! idle_task (set_current s1 None));
          if bool_decide (state k <> TASK_RUNNING) then Fault
          else Ret (set_current (set_current s1 None) (Some (idle_task (set_current s1 None))))
      end) = Ret (set_current s1 (Some t))).
  { unfold t. destruct r as [x|]; [done|]. simpl. destruct (i_idle _ Hi1) as (k & Hk & Hst & _).
    rewrite Hk. simpl. rewrite bool_decide_eq_false_2 by auto. by rewrite Eid. }
  rewrite Hset. cbn [mbind outcome_bind]. simpl. rewrite Ek, El. destruct (kill_task s) eqn:Hk; [|done].
  destruct (i_kill _ Hi Hk c Hc) as [Hci Hcd].
  assert (Hne : t <> c).
  { unfold t. destruct r as [x|]; simpl; [|congruence]. intros ->. destruct Hb as [[p [Hx|Hx]] _]; by eapply Hcd. }
  destruct Hct as [kc Hkc]. unfold task_annihilate. simpl. rewrite Et, Hkc. simpl.
  rewrite bool_decide_eq_false_2 by (intros E0; by apply Hci, (i_id _ Hi c kc)).
  rewrite bool_decide_eq_false_2 by congruence. split; [done|]. intros _.
  apply inv_reap; try done; simpl; [|congruence|congruence].
  intros pl Hx. apply (Hcd pl). by apply Hsits.
Qed.

(** ** Semaphores *)

(** A pass of the running task through the loop of a lock. *)
Lemma down_pass_spec s t k p m cb l n :
  inv s -> tasks s !! t = Some k -> tpolicy k = Some p -> t <> idle_task s -> kill_task s = false ->
  queue s (InWait m) = Some l -> counts s !! m = Some n -> 0 <= n ->
  exists s' r, down_pass s t m cb = Ret (s', r) /\ inv s' /\
    ((n = 0 /\ lock_interrupted k = false /\ r = Blocked /\ counts s' = counts s /\
        queue s' (InWait m) = Some (drop t l ++ [t])) \/
     ((n <> 0 \/ lock_interrupted k = true) /\ r = Done (if lock_interrupted k then - EINTR else 0) /\
        counts s' = <[m := wrap32 (n - 1)]> (counts s) /\ forall pl, queue s' pl = queue s pl)).
Proof.
  intros Hi Hk Hp Hne Hkill Hl Hn Hn0. unfold down_pass. rewrite Hn. simpl. rewrite Hk. simpl.
  destruct (bool_decide (n <= 0) && negb (lock_interrupted k)) eqn:Eb.
  - apply andb_true_iff in Eb as [Hz%bool_decide_eq_true Hint%negb_true_iff].
    destruct (wait_spec s t k p m l Hi Hk Hp Hne Hkill Hl) as (s1 & -> & Hi1 & (E1 & E2 & E3 & E4 & E5 & E6) & Hq).
    simpl. rewrite E1, lookup_insert_eq. simpl. eexists _, _. split; [done|].
    split; [|left; split_and!; try done; [lia|]].
    + apply inv_yield. eapply (inv_set_task s1 t (with_state k 0)); try done. by rewrite E1, lookup_insert_eq.
    + change (queue s1 (InWait m) = Some (drop t l ++ [t])). rewrite Hq. by rewrite decide_True.
  - set (s1 := set_count (set_task s t (with_lock k false None)) m (n - 1)).
    assert (Hi1 : inv s1) by (apply inv_count; by eapply inv_set_task).
    assert (Hcase : n <> 0 \/ lock_interrupted k = true).
    { apply andb_false_iff in Eb as [Hz%bool_decide_eq_false|Hz%negb_false_iff]; [left; lia|by right]. }
    destruct (lock_interrupted k) eqn:Hint.
    + eexists _, _. split; [done|]. split; [|right; by split_and!].
      eapply (inv_set_task s1 t (with_lock k false None)); try done. apply lookup_insert_eq.
    + eexists _, _. split; [done|]. split; [done|]. right. by split_and!.
Qed.

(** ** The kernel as a state machine *)

(** What tasks and interrupt handlers ask of the scheduler; [Again] is a task's
    later pass through a lock's loop, [CondWait] the blocking part of
    [task_cond_wait]. *)
Inductive event : Type :=
  | Schedule
  | Spawn (t : nat) (k : task)
  | Down (m : nat) (cb : bool)
  | Again (m : nat) (cb : bool)
  | Up (m : nat)
  | Interrupt (t : nat)
  | CondWait (w : nat)
  | Signal (w : nat)
  | Broadcast (w : nat)
  | SetScheduler (pol : Z)
  | Exit (cond : nat)
  | NewSemaphore (m : nat) (val : Z)
  | NewCond (w : nat).

Definition exec (ev : event) (s : sched) : outcome sched :=
  match ev with
  | Schedule => schedule s
  | Spawn t k => r ← sched_add_to_runqueue (set_task s t k) t; Ret (r : sched * Z).1
  | Down m cb => t ← deref (current s); r ← semaphore_down s t m cb; Ret (r : sched * down_result).1
  | Again m cb => t ← deref (current s); r ← down_pass s t m cb; Ret (r : sched * down_result).1
  | Up m => semaphore_unlock s m
  | Interrupt t => semaphore_interrupt s t
  | CondWait w => t ← deref (current s); s ← task_add_to_wait_list s t w; Ret (sched_yield s)
  | Signal w => task_cond_signal s w
  | Broadcast w => task_cond_broadcast s w
  | SetScheduler pol => r ← sys_sched_setscheduler (fun _ => None) s 0 pol; Ret (r : sched * Z).1
  | Exit cond => task_exit s cond
  | NewSemaphore m val => Ret (semaphore_init s m val)
  | NewCond w => Ret (task_cond_init s w)
  end.

(** The running task acts: it is not the idle task, it does not wait, and it
    has not called [task_exit]. *)
Definition acting (s : sched) : Prop :=
  kill_task s = false /\ exists t k, current s = Some t /\ t <> idle_task s /\ tasks s !! t = Some k /\
    state k = TASK_RUNNING /\ is_Some (tpolicy k).

Definition enabled (ev : event) (s : sched) : Prop :=
  match ev with
  | Schedule => True
  | Spawn t k => tasks s !! t = None /\ task_ok k /\ id k <> 0
  | Down m _ | Again m _ => acting s /\ is_Some (counts s !! m)
  | Up m => is_Some (counts s !! m)
  | Interrupt t => exists m, sits s t (InWait m)
  | CondWait w => acting s /\ is_Some (wait_lists s !! w)
  | Signal w => exists t l, wait_lists s !! w = Some (t :: l)
  | Broadcast w => is_Some (wait_lists s !! w)
  | SetScheduler _ => acting s
  | Exit w => acting s /\ is_Some (wait_lists s !! w)
  | NewSemaphore w _ | NewCond w => wait_lists s !! w = None
  end.

(** Every semaphore has its wait list, and an unsigned count. *)
Definition sems_ok (s : sched) : Prop :=
  forall m n, counts s !! m = Some n -> 0 <= n /\ is_Some (wait_lists s !! m).

Definition good (s : sched) : Prop := inv s /\ sems_ok s.

Lemma sems_same s s' : sems_ok s -> (forall m n, counts s' !! m = Some n -> 0 <= n /\ is_Some (counts s !! m)) ->
  (forall w, is_Some (queue s (InWait w)) -> is_Some (queue s' (InWait w))) -> sems_ok s'.
Proof. intros Hs Hc Hw m n Hm. destruct (Hc m n Hm) as [? [n' Hn']]. split; [done|]. by apply Hw, (Hs m n'). Qed.

Lemma sems_counts s s' : sems_ok s -> counts s' = counts s ->
  (forall w, is_Some (queue s (InWait w)) -> is_Some (queue s' (InWait w))) -> sems_ok s'.
Proof. intros Hs E. apply (sems_same s); [done|]. intros m n. rewrite E. intros Hm. split; [by apply (Hs m n)|eauto]. Qed.

(** Moving one task's node keeps every wait list. *)
Lemma moved_waits (s s' : sched) t pl0 l0 : is_Some (queue s pl0) ->
  (forall pl, queue s' pl = if decide (pl0 = pl) then Some l0 else drop t <$> queue s pl) ->
  forall w, is_Some (queue s (InWait w)) -> is_Some (queue s' (InWait w)).
Proof. intros H0 Hq w [l Hl]. rewrite Hq. case_decide; [eauto|]. rewrite Hl. eauto. Qed.

Lemma good_wake s t : good s -> (exists w, sits s t (InWait w)) ->
  exists s', task_remove_from_wait_list s t = Ret s' /\ good s' /\ counts s' = counts s /\
    current s' = current s /\ idle_task s' = idle_task s /\ kill_task s' = kill_task s /\
    (forall x pl, sits s' x pl -> x = t \/ sits s x pl) /\
    (forall x pl, x <> t -> sits s x pl -> sits s' x pl) /\
    (forall w, queue s' (InWait w) = drop t <$> queue s (InWait w)) /\
    (forall x, x <> t -> tasks s' !! x = tasks s !! x).
Proof.
  intros [Hi Hs] [w Hw]. destruct (i_fits _ Hi t _ Hw) as (k & Hk & _).
  assert (Hne : t <> idle_task s) by (intros ->; by apply (i_idle_out _ Hi (InWait w))).
  destruct (wake_spec s t k Hi Hk Hne) as (s' & l & -> & Hi' & (E1 & E2 & E3 & E4 & E5 & _) & Hl & Hq).
  { intros Hkt Hc. destruct (i_kill _ Hi Hkt t Hc) as [_ Hd]. by apply (Hd (InWait w)). }
  assert (Hrw : forall w, run_place k <> InWait w) by (intros w'; unfold run_place; by destruct (default RR (tpolicy k))).
  exists s'. split; [done|]. split; [split; [done|]|].
  { apply (sems_counts s); [done..|]. by eapply moved_waits; eauto. }
  split_and!; try done.
  - intros x pl (l' & Hl' & Hx). rewrite Hq in Hl'. case_decide as E.
    + injection Hl' as <-. apply elem_of_app in Hx as [Hx|?%list_elem_of_singleton]; [|by left].
      apply list_elem_of_filter in Hx as [_ Hx]. right. subst pl. by exists l.
    + apply fmap_Some in Hl' as (l2 & ? & ->). apply list_elem_of_filter in Hx as [_ Hx]. right. by exists l2.
  - intros x pl Hx (l' & Hl' & Hin). unfold sits. rewrite Hq. case_decide as E.
    + subst pl. simplify_eq. eexists. split; [done|]. apply elem_of_app. left. by apply list_elem_of_filter.
    + rewrite Hl'. eexists. split; [done|]. by apply list_elem_of_filter.
  - intros w'. rewrite Hq, decide_False by done. done.
  - intros x Hx. by rewrite E1, lookup_insert_ne.
Qed.

Lemma good_wake_all s w l : good s -> NoDup l -> (forall t, t ∈ l -> sits s t (InWait w)) ->
  exists s', foldO task_remove_from_wait_list s l = Ret s' /\ good s' /\ counts s' = counts s /\
    current s' = current s /\ kill_task s' = kill_task s /\ idle_task s' = idle_task s /\
    (forall x pl, sits s' x pl -> x ∈ l \/ sits s x pl).
Proof.
  revert s. induction l as [|t l IH]; intros s Hg Hnd Hl; [exists s; split_and!; auto|].
  apply NoDup_cons in Hnd as [Ht Hnd].
  destruct (good_wake s t Hg) as (s1 & E1 & Hg1 & Hc1 & Hcu1 & Hid1 & Hk1 & Hfr1 & Hst1 & _);
    [exists w; apply Hl; by left|].
  destruct (IH s1 Hg1 Hnd) as (s' & E' & Hg' & Hc' & Hcu' & Hk' & Hid' & Hfr').
  { intros x Hx. apply Hst1; [by intros ->|]. apply Hl. by right. }
  exists s'. simpl. rewrite E1, E'. split_and!; try done; try congruence.
  intros x pl [?|[->|?]%Hfr1]%Hfr'; [left; by right|left; by left|by right].
Qed.

Lemma good_flags s r n : good s -> good (set_flags s r (kill_task s) n).
Proof. intros [? ?]. split; [by apply inv_flags|done]. Qed.

Lemma good_set_task s t k k' : good s -> tasks s !! t = Some k -> id k' = id k -> priority k' = priority k ->
  state k' = state k -> tpolicy k' = tpolicy k -> good (set_task s t k').
Proof. intros [Hi Hs] ? ? ? ? ?. split; [by eapply inv_set_task|done]. Qed.

Lemma good_pass s m cb : good s -> acting s -> is_Some (counts s !! m) ->
  exists t s' r, current s = Some t /\ down_pass s t m cb = Ret (s', r) /\ good s'.
Proof.
  intros [Hi Hs] (Hkl & t & k & Hc & Hne & Hk & _ & [p Hp]) [n Hn]. destruct (Hs m n Hn) as [Hn0 [l Hl]].
  destruct (down_pass_spec s t k p m cb l n Hi Hk Hp Hne Hkl Hl Hn Hn0) as (s' & r & E & Hi' & Hcase).
  exists t, s', r. split; [done|]. split; [done|]. split; [done|].
  unfold down_pass in E. rewrite Hn in E. simpl in E. rewrite Hk in E. simpl in E.
  destruct Hcase as [(Hz & Hint & -> & Hcs & Hq)|(_ & _ & Hcs & Hq)].
  - apply (sems_counts s); [done..|]. destruct (wait_spec s t k p m l Hi Hk Hp Hne Hkl Hl) as (s1 & E1 & _ & _ & Hq1).
    rewrite Hint, bool_decide_eq_true_2, E1 in E by lia. simpl in E.
    destruct (tasks s1 !! t); simplify_eq/=.
    intros w [lw Hlw]. change (is_Some (queue s1 (InWait w))). rewrite Hq1. case_decide; [eauto|]. simpl in *. rewrite Hlw. eauto.
  - apply (sems_same s); [done| |intros w; by rewrite Hq]. intros m' n'. rewrite Hcs.
    intros [[<- <-]|[_ Hm']]%lookup_insert_Some; [split; [apply wrap32_range|eauto]|split; [by apply (Hs m' n')|eauto]].
Qed.

Lemma semaphore_unlock_eq s m n l : counts s !! m = Some n -> wait_lists s !! m = Some l ->
  semaphore_unlock s m = match l with
    | [] => Ret (set_count s m (n + 1))
    | t :: _ => task_remove_from_wait_list (set_count s m (n + 1)) t
    end.
Proof.
  intros Hn Hl. unfold semaphore_unlock, semaphore_count_up. rewrite Hn. cbn [mbind outcome_bind deref].
  unfold has_waiter, wake_first, first_waiter. change (wait_lists (set_count s m (n + 1))) with (wait_lists s).
  rewrite Hl. by destruct l.
Qed.

Lemma good_unlock s m : good s -> is_Some (counts s !! m) ->
  exists s', semaphore_unlock s m = Ret s' /\ good s' /\
    exists n, counts s !! m = Some n /\ counts s' = <[m := wrap32 (n + 1)]> (counts s).
Proof.
  intros [Hi Hs] [n Hn]. destruct (Hs m n Hn) as [Hn0 [l Hl]]. rewrite (semaphore_unlock_eq s m n l Hn Hl).
  assert (Hg1 : good (set_count s m (n + 1))).
  { split; [by apply inv_count|]. apply (sems_same s); [done| |done]. intros m' n' Hm'. simpl in Hm'.
    apply lookup_insert_Some in Hm' as [[<- <-]|[_ Hm']]; [split; [apply wrap32_range|eauto]|split; [by apply (Hs m' n')|eauto]]. }
  destruct l as [|t l].
  - eexists. split; [done|]. split; [done|]. by exists n.
  - destruct (good_wake (set_count s m (n + 1)) t Hg1) as (s' & -> & Hg' & Hc' & _).
    { exists m, (t :: l). split; [done|by left]. }
    exists s'. split; [done|]. split; [done|]. by exists n.
Qed.

Lemma good_add s t k : good s -> detached s t -> tasks s !! t = Some k -> t <> idle_task s ->
  (kill_task s = true -> current s <> Some t) ->
  exists s' r, sched_add_to_runqueue s t = Ret (s', r) /\ good s' /\ counts s' = counts s.
Proof.
  intros [Hi Hs] Hd Hk Hne Hkc.
  destruct (add_runqueue_spec s t k Hi Hd Hk Hne Hkc) as (s' & l & E & Hi' & (_ & E2 & _) & Hl & Hq).
  exists s', 0. split; [done|]. split; [split; [done|]|done].
  apply (sems_counts s); [done..|]. intros w Hw. rewrite Hq. by case_decide; eauto.
Qed.

(** A task that is not in the table yet. *)
Lemma inv_new_task s t k : inv s -> tasks s !! t = None -> task_ok k -> id k <> 0 -> inv (set_task s t k).
Proof.
  intros Hi Ht Hok Hid. split; simpl; try apply Hi.
  - intros x pl Hx. destruct (i_fits _ Hi x pl Hx) as (kx & ? & ?). exists kx. split; [|done].
    rewrite lookup_insert_ne; congruence.
  - intros x kx [[<- <-]|[_ ?]]%lookup_insert_Some; [done|by eapply (i_task _ Hi)].
  - destruct (i_idle _ Hi) as (ki & ? & ?). exists ki. rewrite lookup_insert_ne; [done|congruence].
  - intros x kx [[<- <-]|[_ ?]]%lookup_insert_Some E; [done|by eapply (i_id _ Hi)].
  - destruct (i_current _ Hi) as (c & ? & ?). exists c. split; [done|]. apply lookup_insert_is_Some'. by right.
Qed.

Lemma new_task_detached s t : inv s -> tasks s !! t = None -> detached s t /\ t <> idle_task s /\ current s <> Some t.
Proof.
  intros Hi Ht. split_and!.
  - intros pl Hp. destruct (i_fits _ Hi t pl Hp) as (? & ? & _). congruence.
  - intros ->. destruct (i_idle _ Hi) as (? & ? & _). congruence.
  - intros Hc. destruct (i_current _ Hi) as (c & ? & [? ?]). congruence.
Qed.

Lemma good_spawn s t k : good s -> tasks s !! t = None -> task_ok k -> id k <> 0 ->
  exists s', exec (Spawn t k) s = Ret s' /\ good s' /\ counts s' = counts s.
Proof.
  intros [Hi Hs] Ht Hok Hid. destruct (new_task_detached s t Hi Ht) as (Hd & Hne & Hc).
  pose proof (inv_new_task s t k Hi Ht Hok Hid) as Hi1.
  destruct (good_add (set_task s t k) t k) as (s' & r & E & Hg & Hcs); try done.
  - apply lookup_insert_eq.
  - exists s'. simpl. rewrite E. done.
Qed.

Lemma good_rm s t k p : good s -> tasks s !! t = Some k -> tpolicy k = Some p -> t <> idle_task s ->
  exists s', sched_rm_from_runqueue s t = Ret (s', 0) /\ good s' /\ counts s' = counts s /\ current s' = current s /\
    idle_task s' = idle_task s /\ kill_task s' = kill_task s /\ detached s' t /\
    tasks s' !! t = Some (with_state k 0) /\ (forall pl, queue s' pl = drop t <$> queue s pl).
Proof.
  intros [Hi Hs] Hk Hp Hne.
  destruct (rm_runqueue_spec s t k p Hi Hk Hp Hne) as (s' & E & Hi' & (E1 & E2 & E3 & E4 & E5 & _) & Hq).
  exists s'. split; [done|]. split_and!; try done.
  - split; [done|]. apply (sems_counts s); [done..|]. intros w [l Hl]. rewrite Hq, Hl. eauto.
  - intros pl (l & Hl & Ht). rewrite Hq in Hl. apply fmap_Some in Hl as (l0 & _ & ->).
    by apply list_elem_of_filter in Ht as [? _].
  - by rewrite E1, lookup_insert_eq.
Qed.

Lemma good_setscheduler s pol : good s -> acting s ->
  exists s', exec (SetScheduler pol) s = Ret s' /\ good s' /\ counts s' = counts s.
Proof.
  intros Hg (Hkl & t & k & Hc & Hne & Hk & Hst & [p Hp]). simpl. unfold sys_sched_setscheduler, change_policy, lookup_pid. rewrite bool_decide_eq_true_2 by done.
  rewrite Hc. simpl. rewrite Hk. simpl. rewrite Hp.
  destruct (good_rm s t k p Hg Hk Hp Hne) as (s1 & -> & Hg1 & Hcs & Hcu & Hid & Hkt & Hd & Ht & _). simpl. rewrite Ht. simpl.
  destruct (policy_of pol) as [p'|].
  - assert (Hg2 : good (set_task s1 t (with_policy (with_state k 0) p'))).
    { destruct Hg1 as [Hi1 Hs1]. split; [|done].
      apply (inv_set_detached s1 t (with_state k 0)); try done; [|congruence].
      destruct (i_task _ Hi1 t _ Ht). split; [done|by left]. }
    destruct (good_add _ t (with_policy (with_state k 0) p') Hg2) as (s' & r & -> & ? & ?).
    + done.
    + apply lookup_insert_eq.
    + simpl. congruence.
    + simpl. congruence.
    + exists s'. split; [done|]. split; [done|]. etransitivity; [done|exact Hcs].
  - destruct (good_add s1 t (with_state k 0) Hg1 Hd Ht) as (s' & r & -> & ? & ?); [congruence|congruence|].
    exists s'. split; [done|]. split; [done|congruence].
Qed.

Lemma good_exit s w : good s -> acting s -> is_Some (wait_lists s !! w) ->
  exists s', exec (Exit w) s = Ret s' /\ good s' /\ counts s' = counts s.
Proof.
  intros Hg (Hkl & t & k & Hc & Hne & Hk & Hst & [p Hp]) [l Hl]. simpl. unfold task_exit. rewrite Hc. simpl.
  destruct (good_rm s t k p Hg Hk Hp Hne) as (s1 & -> & Hg1 & Hcs & Hcu & Hid & Hkt & Hd & Ht & Hq). simpl.
  assert (Hl1 : queue s1 (InWait w) = Some (drop t l)) by (rewrite Hq; simpl; by rewrite Hl).
  unfold task_cond_broadcast. simpl in Hl1. rewrite Hl1. simpl.
  destruct (good_wake_all s1 w (drop t l) Hg1) as (s2 & -> & [Hi2 Hs2] & Hc2 & Hcu2 & Hk2 & Hid2 & Hfr).
  { destruct Hg1 as [Hi1 _]. by eapply (i_nodup _ Hi1 (InWait w)). }
  { intros x Hx. by exists (drop t l). }
  simpl. eexists. split; [done|]. split; [|simpl; congruence]. split; [|done].
  assert (Hd2 : detached s2 t).
  { intros pl [Hx|Hx]%Hfr; [by apply list_elem_of_filter in Hx as [? _]|by apply (Hd pl)]. }
  pose proof Hi2 as []. split; try done. simpl. intros _ c Hcc. assert (c = t) as -> by congruence.
  split; [congruence|done].
Qed.

Lemma good_schedule s : good s -> exists s', schedule s = Ret s' /\ good s' /\ counts s' = counts s.
Proof.
  intros [Hi Hs]. destruct (schedule_spec s Hi) as [[_ E]|(_ & s1 & r & c & Hrot & Hb & Hc & Hi2 & E & Hi3)];
    [by exists s|].
  destruct (rotated_inv s s1 Hi Hrot) as (Hi1 & Et & Ec & _ & _ & _ & _ & _ & Hw).
  set (s2 := set_flags _ _ _ _) in *. eexists. split; [exact E|]. destruct (kill_task s).
  - split; [split; [auto|]|exact Ec]. apply (sems_counts s); [done|exact Ec|]. intros w [l Hl].
    unfold reap. change (queue _ _) with (queue (list_del s1 c) (InWait w)). rewrite queue_del, Hw, Hl. eauto.
  - split; [split; [auto|]|exact Ec]. apply (sems_counts s); [done|exact Ec|]. intros w Hl.
    change (queue s2 (InWait w)) with (queue s1 (InWait w)). by rewrite Hw.
Qed.

(** ** Round-robin turns *)

(** The round-robin queue of priority [p] is where the next task comes from. *)
Definition rr_top (s : sched) (p : nat) (l : list nat) : Prop :=
  inv s /\ kill_task s = false /\ is_locked s = 0 /\ queue s (InRR p) = Some l /\ l <> [] /\
  (forall x q, sits s x (InRR q) -> (q <= p)%nat) /\ (forall x q, sits s x (InFIFO q) -> (q < p)%nat).

Lemma pick_rr_top s p x l : rr_top s p (x :: l) ->
  exists t, head (l ++ [x]) = Some t /\
  pick_best (set_current s None) policies None = Ret (set_current (put s (InRR p) (l ++ [x])) None, Some t).
Proof.
  intros (Hi & _ & _ & Hl & _ & Hrr & Hff). unfold policies. cbn [pick_best]. simpl. rewrite pick_fifo_current.
  destruct (fifo_pick_spec s Hi) as (rf & Ef & Hf). rewrite Ef. simpl. rewrite pick_rr_current.
  pose proof (rr_pick_spec s Hi) as Hr. destruct (sched_rr_pick_task s) as [s' rr] eqn:Er. simpl in Hr |- *.
  assert (Hx : sits s x (InRR p)) by (exists (x :: l); split; [done|by left]).
  destruct rr as [t|]; [|by destruct Hr as [_ Hno]; destruct (Hno x p)].
  destruct Hr as (p' & x' & l' & Hl' & Hhd & E & Hmax). injection E as ->.
  assert (p' = p) as ->.
  { pose proof (Hmax x p Hx). assert (sits s x' (InRR p')) as Hs' by (exists (x' :: l'); split; [done|by left]).
    pose proof (Hrr x' p' Hs'). lia. }
  change (queue s (InRR p) = Some (x' :: l')) in Hl'. rewrite Hl in Hl'. injection Hl' as <- <-. exists t. split; [done|].
  destruct rf as [tf|]; [|done]. destruct Hf as (pf & lf & Hlf & _).
  assert (Htf : sits s tf (InFIFO pf)) by (exists (tf :: lf); split; [done|by left]).
  assert (Ht : sits s t (InRR p)).
  { exists (x :: l). split; [done|]. destruct l; simpl in Hhd; simplify_eq; set_solver. }
  destruct (i_fits _ Hi tf _ Htf) as (ktf & Hktf & Hpf & _). destruct (i_fits _ Hi t _ Ht) as (kt & Hkt & Hpt & _).
  simpl. rewrite Hkt. simpl. rewrite Hktf. simpl. rewrite bool_decide_eq_true_2; [done|].
  pose proof (Hff tf pf Htf). lia.
Qed.

Lemma schedule_rr_top s p x l : rr_top s p (x :: l) ->
  exists s' t, schedule s = Ret s' /\ head (l ++ [x]) = Some t /\ current s' = Some t /\ rr_top s' p (l ++ [x]).
Proof.
  intros Htop. destruct (pick_rr_top s p x l Htop) as (t & Ht & E). destruct Htop as (Hi & Hk & Hlk & Hl & _ & Hrr & Hff).
  destruct (i_current _ Hi) as (c & Hc & _). unfold schedule.
  remember (pick_best (set_current s None) policies None) as o eqn:Eo. rewrite E in Eo. subst o. rewrite Hc.
  rewrite bool_decide_eq_false_2 by auto. set (s1 := put s (InRR p) (l ++ [x])) in *.
  assert (Hp : l ++ [x] ≡ₚ x :: l) by (by rewrite Permutation_app_comm).
  assert (Hi1 : inv s1) by (by eapply inv_perm).
  assert (Hs : forall y pl, sits s1 y pl <-> sits s y pl) by (intros; by eapply sits_perm).
  assert (Htk : is_Some (tasks s1 !! t)).
  { assert (Hsit : sits s t (InRR p)).
    { exists (x :: l). split; [done|]. destruct l; simpl in Ht; simplify_eq; set_solver. }
    destruct (i_fits _ Hi t _ Hsit) as (k & ? & _). eauto. }
  assert (Hq : queue s1 (InRR p) = Some (l ++ [x])) by (unfold s1; rewrite queue_put by eauto; by rewrite decide_True).
  exists (set_flags (set_current s1 (Some t)) false false (is_locked s)), t.
  cbn [mbind outcome_bind deref]. simpl. rewrite Hk. split; [done|]. split; [done|]. split; [done|].
  split; [by apply inv_current|]. split; [done|]. split; [done|]. split; [exact Hq|].
  split; [by destruct l|]. split; intros y q Hy; [apply (Hrr y)|apply (Hff y)]; by apply Hs.
Qed.

(** The tasks that run in [n] consecutive time slices. *)
Fixpoint slices (n : nat) (s : sched) : outcome (list nat) :=
  match n with
  | O => Ret []
  | S n => s ← schedule s; t ← deref (current s); l ← slices n s; Ret (t :: l)
  end.

Lemma slices_rr p b : forall s a, rr_top s p (b ++ a) -> b <> [] ->
  exists h, head (a ++ b) = Some h /\ slices (length b) s = Ret (tail b ++ [h]).
Proof.
  induction b as [|y b IH]; intros s a Htop Hb; [done|].
  destruct (schedule_rr_top s p y (b ++ a) Htop) as (s' & t & Es & Hhd & Ec & Htop').
  rewrite <- app_assoc in Htop', Hhd. cbn [slices length]. rewrite Es. cbn [mbind outcome_bind]. rewrite Ec.
  cbn [mbind outcome_bind deref]. destruct (decide (b = [])) as [->|Hne].
  - simpl in *. exists t. done.
  - destruct (IH s' (a ++ [y]) Htop' Hne) as (h & Hh & ->). exists h. rewrite <- app_assoc in Hh. split; [done|].
    simpl. destruct b as [|z b]; [done|]. simpl in Hhd |- *. by injection Hhd as ->.
Qed.

(** ** Reachable states *)

Definition idle : task := mk_task 0 0 TASK_RUNNING None false None false.

(** After [sched_init]: the idle task runs, every queue is empty. *)
Definition sched_init : sched :=
  mk_sched {[0%nat := idle]} (replicate NUM_PRIORITIES []) (replicate NUM_PRIORITIES []) ∅ ∅ (Some 0%nat) 0 false false 0.

Inductive reachable : sched -> Prop :=
  | reach_init : reachable sched_init
  | reach_step s ev s' : reachable s -> enabled ev s -> exec ev s = Ret s' -> reachable s'.

Lemma good_init : good sched_init.
Proof.
  assert (Hd : forall t pl, ~ sits sched_init t pl).
  { intros t [p|p|w] (l & Hl & Ht); unfold sched_init in Hl; cbn [queue rr_runqueue fifo_runqueue wait_lists] in Hl.
    - apply lookup_replicate in Hl as [-> _]. by apply elem_of_nil in Ht.
    - apply lookup_replicate in Hl as [-> _]. by apply elem_of_nil in Ht.
    - by rewrite lookup_empty in Hl. }
  assert (Ht : forall t k, tasks sched_init !! t = Some k -> t = 0%nat /\ k = idle).
  { intros t k Hk. simpl in Hk. by apply lookup_singleton_Some in Hk as [<- <-]. }
  split; [split|].
  - done.
  - done.
  - intros [p|p|w] l Hl; unfold sched_init in Hl; cbn [queue rr_runqueue fifo_runqueue wait_lists] in Hl.
    + apply lookup_replicate in Hl as [-> _]. apply NoDup_nil_2.
    + apply lookup_replicate in Hl as [-> _]. apply NoDup_nil_2.
    + by rewrite lookup_empty in Hl.
  - intros t pl pl' H. by destruct (Hd t pl).
  - intros t pl H. by destruct (Hd t pl).
  - intros t k [_ ->]%Ht. split; [done|by right].
  - exists idle. done.
  - intros pl H. by destruct (Hd 0%nat pl).
  - by intros t k [-> _]%Ht _.
  - exists 0%nat. split; [done|]. by exists idle.
  - done.
  - intros m n Hm. simpl in Hm. by rewrite lookup_empty in Hm.
Qed.

Lemma good_new s w : good s -> wait_lists s !! w = None -> good (task_cond_init s w).
Proof.
  intros [Hi Hs] Hw. unfold task_cond_init.
  assert (Hq : forall pl, queue (set_queues s (rr_runqueue s) (fifo_runqueue s) (<[w:=[]]> (wait_lists s))) pl =
    if decide (InWait w = pl) then Some [] else queue s pl).
  { intros [p|p|w']; simpl; [done|done|]. case_decide; simplify_eq; [apply lookup_insert_eq|].
    apply lookup_insert_ne. congruence. }
  assert (Hst : forall t pl, sits (set_queues s (rr_runqueue s) (fifo_runqueue s) (<[w:=[]]> (wait_lists s))) t pl <-> sits s t pl).
  { intros t pl. unfold sits. rewrite Hq. case_decide as E; [subst pl|done]. simpl. rewrite Hw.
    split; [intros (l & [= <-] & []%elem_of_nil)|by intros (l & ? & _)]. }
  split.
  - split; simpl; try apply Hi.
    + intros pl l. rewrite Hq. case_decide; [intros [= <-]; apply NoDup_nil_2|apply (i_nodup _ Hi)].
    + intros t pl pl'. rewrite !Hst. apply (i_uniq _ Hi).
    + intros t pl. rewrite Hst. apply (i_fits _ Hi).
    + intros pl. rewrite Hst. apply (i_idle_out _ Hi).
    + intros Hk c Hc. destruct (i_kill _ Hi Hk c Hc). split; [done|]. intros pl. by rewrite Hst.
  - apply (sems_counts s); [done..|]. intros w' Hw'. rewrite Hq. case_decide; eauto.
Qed.

(** Every enabled event is carried out and keeps the state well formed. *)
Lemma good_step s ev : good s -> enabled ev s -> exists s', exec ev s = Ret s' /\ good s'.
Proof.
  intros Hg Hen. destruct ev as [|t k|m cb|m cb|m|t|w|w|w|pol|w|m val|w]; cbn [enabled] in Hen.
  - destruct (good_schedule s Hg) as (s' & ? & ? & _). eauto.
  - destruct Hen as (? & ? & ?). destruct (good_spawn s t k Hg) as (s' & ? & ? & _); eauto.
  - destruct Hen as [Ha Hm]. pose proof Ha as (Hkl & t & k & Hc & Hne & Hk & Hst & Hp).
    cbn [exec]. rewrite Hc. cbn [mbind outcome_bind deref]. unfold semaphore_down. rewrite Hk. cbn [mbind outcome_bind deref].
    assert (Hg1 : good (set_task s t (with_interrupted k false))) by (by eapply good_set_task).
    destruct (good_pass (set_task s t (with_interrupted k false)) m cb Hg1) as (t' & s' & r & Ht' & E & Hg'); [|done|].
    + split; [done|]. exists t, (with_interrupted k false). simpl. rewrite lookup_insert_eq. done.
    + simpl in Ht'. rewrite Hc in Ht'. injection Ht' as <-. rewrite E. eauto.
  - destruct Hen as [Ha Hm]. destruct (good_pass s m cb Hg Ha Hm) as (t & s' & r & Ht & E & Hg').
    cbn [exec]. rewrite Ht. cbn [mbind outcome_bind deref]. rewrite E. eauto.
  - destruct (good_unlock s m Hg Hen) as (s' & ? & ? & _). eauto.
  - destruct Hen as [m Hm]. pose proof Hg as [Hi _]. destruct (i_fits _ Hi t _ Hm) as (k & Hk & _).
    cbn [exec]. unfold semaphore_interrupt. rewrite Hk. cbn [mbind outcome_bind deref].
    destruct (good_wake (set_task s t (with_interrupted k true)) t) as (s' & ? & ? & _); eauto.
    by eapply good_set_task.
  - destruct Hen as [(Hkl & t & k & Hc & Hne & Hk & Hst & [p Hp]) [l Hl]]. pose proof Hg as [Hi Hs].
    cbn [exec]. rewrite Hc. cbn [mbind outcome_bind deref].
    destruct (wait_spec s t k p w l Hi Hk Hp Hne Hkl Hl) as (s1 & -> & Hi1 & (_ & E2 & _) & Hq).
    eexists. split; [done|]. apply good_flags. split; [done|]. apply (sems_counts s); [done..|].
    eapply (moved_waits s s1 t (InWait w)); [by exists l|exact Hq].
  - destruct Hen as (t & l & Hl). cbn [exec]. unfold task_cond_signal, first_waiter. rewrite Hl. cbn [mbind outcome_bind deref head].
    destruct (good_wake s t Hg) as (s' & ? & ? & _); eauto. exists w, (t :: l). split; [done|by left].
  - destruct Hen as [l Hl]. cbn [exec]. unfold task_cond_broadcast. rewrite Hl. cbn [mbind outcome_bind deref].
    pose proof Hg as [Hi _]. destruct (good_wake_all s w l Hg) as (s' & ? & ? & _); eauto.
    + by apply (i_nodup _ Hi (InWait w)).
    + intros t Ht. by exists l.
  - destruct (good_setscheduler s pol Hg Hen) as (s' & ? & ? & _). eauto.
  - destruct Hen. destruct (good_exit s w Hg) as (s' & ? & ? & _); eauto.
  - eexists. split; [done|]. unfold semaphore_init. destruct (good_new s m Hg Hen) as [Hi1 Hs1].
    split; [by apply inv_count|]. intros m' n' Hm'. simpl in Hm'.
    apply lookup_insert_Some in Hm' as [[<- <-]|[_ Hm']].
    + split; [apply wrap32_range|]. simpl. rewrite lookup_insert_eq. eauto.
    + apply (Hs1 m' n'). exact Hm'.
  - eexists. split; [done|]. by apply good_new.
Qed.

Lemma reachable_good s : reachable s -> good s.
Proof.
  induction 1 as [|s ev s' _ IH Hen E]; [apply good_init|].
  destruct (good_step s ev IH Hen) as (s2 & E2 & Hg). rewrite E in E2. injection E2 as ->. exact Hg.
Qed.

(** ** Holders of a semaphore *)

(** Runs in which semaphore [m], created with [val] units, is taken by
    [_semaphore_lock] and given back only by those that hold it; [held] lists
    the holders. *)
Inductive sem_run (m : nat) (val : Z) : sched -> list nat -> Prop :=
  | sem_init s : good s -> counts s !! m = Some val -> sem_run m val s []
  | sem_pass s held t k s' r : sem_run m val s held -> acting s -> current s = Some t ->
      tasks s !! t = Some k -> lock_interrupted k = false -> down_pass s t m false = Ret (s', r) ->
      sem_run m val s' (match r with Done _ => t :: held | Blocked => held end)
  | sem_release s h1 t h2 s' : sem_run m val s (h1 ++ t :: h2) -> semaphore_unlock s m = Ret s' ->
      sem_run m val s' (h1 ++ h2)
  | sem_other s held ev s' : sem_run m val s held -> enabled ev s -> exec ev s = Ret s' ->
      counts s' !! m = counts s !! m -> sem_run m val s' held.

Lemma sem_run_count m val s held : 0 <= val < 2 ^ 32 -> sem_run m val s held ->
  good s /\ counts s !! m = Some (val - Z.of_nat (length held)).
Proof.
  intros Hv. induction 1 as [s Hg Hc|s held t k s' r _ [Hg Hc] Ha Hcur Hk Hint E|s h1 t h2 s' _ [Hg Hc] E
    |s held ev s' _ [Hg Hc] Hen E Hcs].
  - split; [done|]. simpl. by rewrite Z.sub_0_r.
  - destruct (good_pass s m false Hg Ha) as (t' & s2 & r2 & Hcur' & E2 & Hg2); [eauto|].
    rewrite Hcur in Hcur'. injection Hcur' as <-. rewrite E in E2. injection E2 as -> ->. split; [done|].
    destruct Hg as [Hi Hs]. destruct Ha as (Hkl & t2 & k2 & Hc2 & Hne & Hk2 & _ & [p Hp]).
    rewrite Hcur in Hc2. injection Hc2 as <-. rewrite Hk in Hk2. injection Hk2 as <-.
    destruct (Hs _ _ Hc) as [Hn0 [l Hl]].
    destruct (down_pass_spec s t k p m false l _ Hi Hk Hp Hne Hkl Hl Hc Hn0) as (s3 & r3 & E3 & _ & Hcase).
    rewrite E in E3. injection E3 as -> ->.
    destruct Hcase as [(_ & _ & -> & -> & _)|([Hz|Hz] & -> & -> & _)]; [done| |congruence].
    rewrite lookup_insert_eq. simpl. f_equal. rewrite wrap32_small; lia.
  - destruct (good_unlock s m Hg) as (s2 & E2 & Hg2 & n & Hn & Hc2); [eauto|].
    rewrite E in E2. injection E2 as ->. split; [done|]. rewrite Hc2, lookup_insert_eq. f_equal.
    rewrite Hc in Hn. injection Hn as <-. destruct Hg as [_ Hs]. destruct (Hs _ _ Hc) as [Hn0 _].
    rewrite !length_app in *. simpl in *. rewrite wrap32_small; lia.
  - destruct (good_step s ev Hg Hen) as (s2 & E2 & Hg2). rewrite E in E2. injection E2 as ->. split; [done|].
    by rewrite Hcs.
Qed.

(** ** Properties *)

Definition task_ex (n p : Z) : task := mk_task n p 0 None false None false.
Definition two_tasks : sched :=
  match s ← exec (Spawn 1 (task_ex 1 0)) sched_init; exec (Spawn 2 (task_ex 2 0)) s with Ret s => s | _ => sched_init end.

Lemma two_tasks_reachable : reachable two_tasks.
Proof.
  assert (H1 : exists s, exec (Spawn 1 (task_ex 1 0)) sched_init = Ret s /\
    exists s', exec (Spawn 2 (task_ex 2 0)) s = Ret s' /\ tasks s !! 2%nat = None)
    by (eexists; split; [vm_compute; reflexivity|eexists; split; vm_compute; reflexivity]).
  destruct H1 as (s & E1 & s' & E2 & Hn).
  assert (E : two_tasks = s') by (unfold two_tasks; rewrite E1; cbn [mbind outcome_bind]; by rewrite E2).
  rewrite E. eapply reach_step; [eapply reach_step; [exact reach_init| |exact E1]| |exact E2].
  - split; [done|]. split; [split; [vm_compute; intuition congruence|by left]|done].
  - split; [exact Hn|]. split; [split; [vm_compute; intuition congruence|by left]|done].
Qed.

(** C9.  Unless the scheduler is locked, [schedule] always returns with a task
    of the highest priority among all those that can run (a FIFO task in
    preference to a round-robin one of the same priority), or the idle task
    if none can. *)
Theorem schedule_highest s :
  reachable s -> is_locked s = 0 ->
  exists s' r, schedule s = Ret s' /\ best_choice s r /\ current s' = Some (default (idle_task s) r) /\
    need_resched s' = false.
Proof.
  intros Hr Hl. destruct (reachable_good s Hr) as [Hi _].
  destruct (schedule_spec s Hi) as [[? _]|(_ & s1 & r & c & _ & Hb & _ & _ & E & _)]; [done|].
  eexists _, r. split; [exact E|]. split; [done|]. by destruct (kill_task s).
Qed.

Lemma schedule_highest_witness :
  reachable two_tasks /\ is_locked two_tasks = 0 /\ exists s' r, schedule two_tasks = Ret s' /\ best_choice two_tasks r.
Proof.
  split; [exact two_tasks_reachable|]. split; [vm_compute; reflexivity|].
  destruct (schedule_highest two_tasks two_tasks_reachable) as (s' & r & E & Hb & _); [vm_compute; reflexivity|].
  exists s', r. split; [exact E|exact Hb].
Defined.

(** C10.  Round robin is fair: while a round-robin queue holds the tasks of the
    highest priority, as many time slices as it holds tasks run each of them
    exactly once. *)
Theorem rr_fair s p l :
  rr_top s p l -> exists turns, slices (length l) s = Ret turns /\ turns ≡ₚ l /\ NoDup turns.
Proof.
  intros Htop. pose proof Htop as (Hi & _ & _ & Hl & Hne & _).
  destruct (slices_rr p l s [] ) as (h & Hh & E); [by rewrite app_nil_r|done|]. simpl in Hh.
  exists (tail l ++ [h]). split; [exact E|].
  assert (Hp : tail l ++ [h] ≡ₚ l) by (destruct l; simplify_eq/=; by rewrite Permutation_app_comm).
  split; [done|]. rewrite Hp. by eapply (i_nodup _ Hi).
Qed.

Lemma rr_fair_witness :
  rr_top two_tasks 0 [1%nat; 2%nat] /\ exists turns, slices 2 two_tasks = Ret turns /\ turns ≡ₚ [1%nat; 2%nat].
Proof.
  destruct (reachable_good _ two_tasks_reachable) as [Hi _].
  assert (Ht : rr_top two_tasks 0 [1%nat; 2%nat]).
  { split; [exact Hi|]. split; [vm_compute; reflexivity|]. split; [vm_compute; reflexivity|].
    split; [vm_compute; reflexivity|]. split; [done|]. split.
    - intros x q (l & Hl & Hx). do 32 (destruct q as [|q]; [vm_compute in Hl; injection Hl as <-; first [lia|by apply elem_of_nil in Hx]|]).
      vm_compute in Hl. discriminate Hl.
    - intros x q (l & Hl & Hx). do 32 (destruct q as [|q]; [vm_compute in Hl; injection Hl as <-; by apply elem_of_nil in Hx|]).
      vm_compute in Hl. discriminate Hl. }
  split; [exact Ht|]. destruct (rr_fair two_tasks 0 [1%nat; 2%nat] Ht) as (turns & E & Hp & _).
  exists turns. split; [exact E|exact Hp].
Defined.

(** C11.  A semaphore of [val] units never has more than [val] holders, and its
    counter is exactly the units left; with [val = 1] (a mutex) two tasks never
    hold it together. *)
Theorem semaphore_exclusion m val s held :
  0 <= val < 2 ^ 32 -> sem_run m val s held ->
  Z.of_nat (length held) <= val /\ counts s !! m = Some (val - Z.of_nat (length held)).
Proof.
  intros Hv Hr. destruct (sem_run_count m val s held Hv Hr) as [[_ Hs] Hc]. split; [|done].
  destruct (Hs _ _ Hc). lia.
Qed.

(** A mutex at 7, taken by task 1. *)
Definition mutex_state : sched :=
  match s ← exec (NewSemaphore 7 1) two_tasks; schedule s with Ret s => s | _ => sched_init end.

Lemma semaphore_exclusion_witness :
  exists s held, sem_run 7 1 s held /\ held = [2%nat] /\ counts s !! 7%nat = Some 0.
Proof.
  assert (Hr : reachable mutex_state).
  { assert (H1 : exists s, exec (NewSemaphore 7 1) two_tasks = Ret s /\ exists s', exec Schedule s = Ret s')
      by (eexists; split; [vm_compute; reflexivity|eexists; vm_compute; reflexivity]).
    destruct H1 as (s & E1 & s' & E2).
    assert (E : mutex_state = s') by (unfold mutex_state; rewrite E1; cbn [mbind outcome_bind]; cbn [exec] in E2; by rewrite E2).
    rewrite E. refine (reach_step s Schedule s' (reach_step two_tasks (NewSemaphore 7 1) s two_tasks_reachable _ E1) I E2).
    vm_compute. reflexivity. }
  assert (Hp : exists s' k, down_pass mutex_state 2 7 false = Ret (s', Done 0) /\ current mutex_state = Some 2%nat /\
    kill_task mutex_state = false /\ idle_task mutex_state = 0%nat /\
    tasks mutex_state !! 2%nat = Some k /\ state k = TASK_RUNNING /\ tpolicy k = Some RR /\ lock_interrupted k = false)
    by (eexists _, _; split_and!; vm_compute; reflexivity).
  destruct Hp as (s' & k & E & Hc & Hkl & Hid & Hk & Hst & Hpo & Hli).
  assert (Hrun : sem_run 7 1 s' [2%nat]).
  { refine (sem_pass 7 1 mutex_state [] 2 k s' (Done 0) _ _ Hc Hk Hli E).
    - apply sem_init; [by apply reachable_good|vm_compute; reflexivity].
    - split; [exact Hkl|]. exists 2%nat, k. split_and!; try done; try congruence; by rewrite Hpo. }
  exists s', [2%nat]. split; [exact Hrun|]. split; [reflexivity|].
  apply (semaphore_exclusion 7 1 s' [2%nat]); [lia|exact Hrun].
Defined.

(** ** Behaviours the code does not mean to have *)

(** An interrupted [_semaphore_down_interruptible] takes a unit all the same:
    from zero the counter becomes 2^32 - 1, and the semaphore no longer blocks. *)
Example interrupted_down_underflows :
  match s ← exec (NewSemaphore 7 0) two_tasks;
        s ← schedule s; s ← exec (Down 7 true) s;       (* task 2 blocks *)
        s ← exec (Interrupt 2) s;
        s ← schedule s; exec (Again 7 true) s with
  | Ret s => counts s !! 7%nat
  | _ => None
  end = Some (2 ^ 32 - 1).
Proof. vm_compute. reflexivity. Qed.

(** [sched_rr_get_interval] of a FIFO task calls a NULL function. *)
Example fifo_rr_get_interval_faults :
  match s ← schedule two_tasks; s ← exec (SetScheduler SCHED_FIFO) s;
        sys_sched_rr_get_interval (fun _ => None) s 0 true with
  | Fault => true
  | _ => false
  end = true.
Proof. vm_compute. reflexivity. Qed.

(** [task_cond_signal] with no waiter wakes the list head as if it were a task. *)
Example signal_without_waiter_faults :
  match s ← exec (NewCond 5) two_tasks; exec (Signal 5) s with Fault => true | _ => false end = true.
Proof. vm_compute. reflexivity. Qed.

End Sched.
