(* ===== verification/SchedSteps.v ===== *)
(** The scheduler of [Sched] with its unmasked operations taken apart:
    [semaphore_unlock], [task_cond_wait], [task_exit] and
    [sys_sched_setscheduler] mask no interrupt around what they do, so that
    interrupts and other tasks come in between. *)
From S2P Require Import Prelude Sched.
Import Sched.

Module SchedSteps.

(** ** The parts of a call *)

Inductive call :=
  | CallUnlock (m : nat)
  | CallWait (w : nat)
  | CallSetScheduler (pol : Z)
  | CallExit (cond : nat).

(** What is left of a task's call: in [semaphore_unlock], the test for waiters,
    then waking the first; in [task_cond_wait], the [list_add] of
    [task_add_to_wait_list]; in [task_exit], waking all waiters, then
    [kill_task = true]; in [sys_sched_setscheduler], the switch over the
    policies, then [sched_add_to_runqueue]; and a [sched_yield]. *)
Inductive rest :=
  | TestWaiters (m : nat)
  | WakeFirst (m : nat)
  | JoinWaitList (w : nat)
  | WakeAll (cond : nat)
  | Leave
  | ChangePolicy (pol : Z)
  | Requeue
  | Yield.

(** The first part of a call of task [t], and what is left then. *)
Definition begin (c : call) (s : sched) (t : nat) : outcome (sched * rest) :=
  match c with
  | CallUnlock m => s ← semaphore_count_up s m; Ret (s, TestWaiters m)
  | CallWait w => r ← sched_rm_from_runqueue s t; Ret ((r : sched * Z).1, JoinWaitList w)
  | CallSetScheduler pol => r ← sched_rm_from_runqueue s t; Ret ((r : sched * Z).1, ChangePolicy pol)
  | CallExit cond => r ← sched_rm_from_runqueue s t; Ret ((r : sched * Z).1, WakeAll cond)
  end.

(** The next part. *)
Definition continue (r : rest) (s : sched) (t : nat) : outcome (sched * option rest) :=
  match r with
  | TestWaiters m => b ← has_waiter s m; Ret (s, if (b : bool) then Some (WakeFirst m) else None)
  | WakeFirst m => s ← wake_first s m; Ret (s, None)
  | JoinWaitList w => s ← add_wait s w t; Ret (s, Some Yield)
  | WakeAll cond => s ← task_cond_broadcast s cond; Ret (s, Some Leave)
  | Leave => Ret (set_kill s, Some Yield)
  | ChangePolicy pol => r ← change_policy s t pol; Ret ((r : sched * Z).1, Some Requeue)
  | Requeue => r ← sched_add_to_runqueue s t; Ret ((r : sched * Z).1, None)
  | Yield => Ret (sched_yield s, None)
  end.

(** A call that nothing interrupts, of at most [n] further parts. *)
Fixpoint continue_all (n : nat) (r : rest) (s : sched) (t : nat) : outcome sched :=
  p ← continue r s t;
  match (p : sched * option rest), n with
  | (s, None), _ => Ret s
  | (s, Some r), S n => continue_all n r s t
  | (s, Some _), O => Hang
  end.
Definition call_at_once (c : call) (s : sched) (t : nat) : outcome sched :=
  p ← begin c s t; continue_all 4 (p : sched * rest).2 p.1 t.

Definition event_of (c : call) : event :=
  match c with
  | CallUnlock m => Up m
  | CallWait w => CondWait w
  | CallSetScheduler pol => SetScheduler pol
  | CallExit cond => Exit cond
  end.

(** The parts are those of the operations of [Sched]. *)
Lemma call_at_once_exec c s t k : current s = Some t -> tasks s !! t = Some k -> is_Some (tpolicy k) ->
  call_at_once c s t = exec (event_of c) s.
Proof.
  intros Hc Hk [p Hp]. destruct c as [m|w|pol|cond]; unfold call_at_once; cbn [begin exec event_of].
  - unfold semaphore_unlock. destruct (semaphore_count_up s m) as [s1| |]; try done. cbn [mbind outcome_bind fst snd continue_all continue].
    destruct (has_waiter s1 m) as [[]| |]; try done. cbn [mbind outcome_bind fst snd continue_all continue].
    by destruct (wake_first s1 m).
  - rewrite Hc. cbn [mbind outcome_bind deref]. unfold task_add_to_wait_list.
    destruct (sched_rm_from_runqueue s t) as [[s1 x]| |]; try done. cbn [mbind outcome_bind fst snd continue_all continue].
    by destruct (add_wait s1 w t).
  - unfold sys_sched_setscheduler, lookup_pid. rewrite bool_decide_eq_true_2 by done. rewrite Hc, Hk. cbn [mbind outcome_bind deref].
    rewrite Hp. destruct (sched_rm_from_runqueue s t) as [[s1 x]| |]; try done. cbn [mbind outcome_bind fst snd continue_all continue].
    destruct (change_policy s1 t pol) as [[s2 y]| |]; try done. cbn [mbind outcome_bind fst snd continue_all continue].
    by destruct (sched_add_to_runqueue s2 t) as [[]| |].
  - unfold task_exit. rewrite Hc. cbn [mbind outcome_bind deref].
    destruct (sched_rm_from_runqueue s t) as [[s1 x]| |]; try done. cbn [mbind outcome_bind fst snd continue_all continue].
    by destruct (task_cond_broadcast s1 cond).
Qed.

(** ** The machine *)








(** ** What an operation leaves alone *)























(** ** Invariant *)














(** ** Properties *)


(** ** Concrete runs *)

Definition after (ev : event) (s : sched) : sched := match exec ev s with Ret s' => s' | _ => s end.


(** Tasks 1 and 2, of which 2 runs, and a semaphore at 7 with no unit. *)
Definition two_and_semaphore : sched := after (NewSemaphore 7 0) (after Schedule two_tasks).





(** ** Behaviours the code does not mean to have *)

(** Task 2 waits for the semaphore; task 1, in [semaphore_unlock], has seen that
    there is a waiter when an interrupt unlocks the semaphore and wakes it: the
    list is empty when task 1 takes its first entry. *)
Example unlock_race_faults :
  (s ← exec (Down 7 false) two_and_semaphore; s ← exec Schedule s;
   p ← begin (CallUnlock 7) s 1; q ← continue (p : sched * rest).2 p.1 1;
   match (q : sched * option rest) with
   | (s, Some r) => s ← exec (Up 7) s; z ← continue r s 1; Ret (z : sched * option rest).2
   | (s, None) => Ret None
   end) = Fault.
Proof. vm_compute. reflexivity. Qed.

(** A task switched away from after [sched_rm_from_runqueue] is in no list: in
    [task_cond_wait] no signal wakes it, and in [sys_sched_setscheduler] it
    never comes back to change its policy. *)
Example preempted_wait_is_lost :
  (s ← exec (NewCond 5) two_and_semaphore; p ← begin (CallWait 5) s 2;
   s ← exec Schedule (p : sched * rest).1; s ← exec (Broadcast 5) s; s ← exec Schedule s; s ← exec Schedule s;
   Ret (current s, attached s 2)) = Ret (Some 1%nat, false).
Proof. vm_compute. reflexivity. Qed.

Example preempted_setscheduler_is_lost :
  (p ← begin (CallSetScheduler SCHED_FIFO) two_and_semaphore 2;
   s ← exec Schedule (p : sched * rest).1; s ← exec Schedule s; s ← exec Schedule s;
   Ret (current s, attached s 2)) = Ret (Some 1%nat, false).
Proof. vm_compute. reflexivity. Qed.

(** Two tasks interrupted in the same wake, after [list_del], both put the waiter
    into the run queue. *)
Example woken_twice_faults :
  (s ← exec (Down 7 false) two_and_semaphore; s ← exec Schedule s;
   let s := list_del (list_del s 2) 2 in
   r ← sched_add_to_runqueue s 2; sched_add_to_runqueue (r : sched * Z).1 2) = Fault.
Proof. vm_compute. reflexivity. Qed.

End SchedSteps.
