(* ===== verification/Watchdog.v ===== *)
(** The software watchdogs of [src/arch/arm/arm-v7m/watchdog.c]: timers in a
    list sorted by expiry, on the abstract sequences that [DList] shows the
    pointer lists implement. *)
From S2P Require Import Prelude.
From S2P Require Import DList.
From Stdlib Require Import Sorting.Sorted.
#[local] Open Scope Z_scope.

Module Watchdog.

(** ** Data *)

(** A [struct watchdog_priv]; its [list] node is its membership in [wdog_head]. *)
Record watchdog_priv := mk_wdog { start : Z; end_ : Z }.

Record state := mk_state {
  wdog_head : list Z;              (* watchdogs, by address *)
  privs : gmap Z watchdog_priv;    (* the [priv] of each initialised watchdog *)
  ticks : Z;                       (* [get_ticks()] *)
}.

Definition set_head (s : state) (l : list Z) : state := mk_state l (privs s) (ticks s).
Definition set_priv (s : state) (wd : Z) (w : watchdog_priv) : state :=
  mk_state (wdog_head s) (<[wd := w]> (privs s)) (ticks s).

(** ** Operations *)

Definition expired (w : watchdog_priv) (now : Z) : bool :=
  if bool_decide (start w < end_ w) then bool_decide (end_ w <= now)
  else bool_decide (end_ w <= now) && bool_decide (now < start w).

(** [RET_IF_FAIL(wd->priv, ...)]: an uninitialised watchdog is refused. *)
Definition watchdog_has_expired (s : state) (wd : Z) : bool :=
  match privs s !! wd with Some w => expired w (ticks s) | None => false end.

(** The [uint64_t] difference comes back as an [int]. *)
Definition watchdog_expiration_comparator (s : state) (wd1 wd2 : Z) : Z :=
  match privs s !! wd1, privs s !! wd2 with
  | Some w1, Some w2 => sint32 (wrap64 (end_ w1 - end_ w2))
  | _, _ => 0
  end.

Definition watchdog_get_ticks_until_next_expiration (s : state) : outcome Z :=
  match wdog_head s with
  | [] => Ret (2 ^ 64 - 1)
  | wd :: _ => w ← deref (privs s !! wd); Ret (wrap64 (end_ w - ticks s))
  end.

Definition watchdog_is_active (s : state) (wd : Z) : bool := bool_decide (wd ∈ wdog_head s).

Definition watchdog_cancel (s : state) (wd : Z) : state :=
  match privs s !! wd with
  | None => s
  | Some _ => if watchdog_is_active s wd then set_head s (filter (fun x => x <> wd) (wdog_head s)) else s
  end.

Definition watchdog_start (s : state) (wd nticks : Z) : state :=
  match privs s !! wd with
  | None => s
  | Some _ =>
      if bool_decide (nticks = 0) then s else
      let s := if watchdog_is_active s wd then watchdog_cancel s wd else s in
      let s := set_priv s wd (mk_wdog (ticks s) (wrap64 (ticks s + nticks))) in
      set_head s (DList.sorted_insert (watchdog_expiration_comparator s) wd (wdog_head s))
  end.

(** The loop of [watchdog_check_expired] over the nodes [l] left; the callbacks
    [wd->timeout] are the trace of the watchdogs that fired. *)
Fixpoint check_from (s : state) (l : list Z) : state * list Z :=
  match l with
  | [] => (s, [])
  | wd :: l =>
      if negb (watchdog_has_expired s wd) then (s, [])
      else let '(s, fired) := check_from (watchdog_cancel s wd) l in (s, wd :: fired)
  end.
Definition watchdog_check_expired (s : state) : state * list Z := check_from s (wdog_head s).

(** [block] is what [kmalloc] gives: nothing, which the initialisation of the
    list node then writes to, or a block with whatever was in it. *)
Definition watchdog_init (block : option watchdog_priv) (s : state) (wd : Z) : outcome state :=
  w ← deref block; Ret (set_priv s wd w).

Definition watchdog_delete (s : state) (wd : Z) : state :=
  match privs s !! wd with
  | None => s
  | Some _ => let s := watchdog_cancel s wd in mk_state (wdog_head s) (delete wd (privs s)) (ticks s)
  end.

(** The part of [systick_handler] that is about watchdogs, [increment] being
    [ticks_increment]. *)
Definition systick_handler (s : state) (increment : Z) : state * list Z :=
  watchdog_check_expired (mk_state (wdog_head s) (privs s) (wrap64 (ticks s + increment))).

(** [TICK_IN_*SEC] on a machine of [hz] ticks per second. *)
Section Units.
Context (hz : Z).
Definition round_up (n tick : Z) : Z :=
  let t := n / tick + (if bool_decide (n mod tick = 0) then 0 else 1) in if bool_decide (t = 0) then 1 else t.
Definition watchdog_start_nsec (s : state) (wd nsec : Z) : state := watchdog_start s wd (round_up nsec (1000000000 / hz)).
Definition watchdog_start_usec (s : state) (wd usec : Z) : state := watchdog_start s wd (round_up usec (1000000 / hz)).
Definition watchdog_start_msec (s : state) (wd msec : Z) : state := watchdog_start s wd (round_up msec (1000 / hz)).
Definition watchdog_start_sec (s : state) (wd sec : Z) : state :=
  let t := wrap32 (sec * hz) in watchdog_start s wd (if bool_decide (t = 0) then 1 else t).
End Units.

(** ** Invariant *)

Definition end_of (s : state) (wd : Z) : Z := match privs s !! wd with Some w => end_ w | None => 0 end.

(** The armed watchdogs expire within 2^31 ticks of one another, after [lo]. *)
Record inv (s : state) (lo : Z) : Prop := {
  i_nodup : NoDup (wdog_head s);
  i_priv wd : wd ∈ wdog_head s -> exists w, privs s !! wd = Some w /\ start w < end_ w /\ lo <= end_ w < lo + 2 ^ 31;
  i_sorted : StronglySorted (fun a b => end_of s a <= end_of s b) (wdog_head s);
  i_ticks : 0 <= lo /\ lo + 2 ^ 31 <= 2 ^ 64;
}.

Lemma comparator_window s lo a b : inv s lo -> b ∈ wdog_head s ->
  (exists w, privs s !! a = Some w /\ lo <= end_ w < lo + 2 ^ 31) ->
  bool_decide (0 <= watchdog_expiration_comparator s a b) = bool_decide (end_of s b <= end_of s a).
Proof.
  intros Hi Hb (w & Hw & Hr). destruct (i_priv _ _ Hi b Hb) as (w' & Hw' & _ & Hr').
  unfold watchdog_expiration_comparator, end_of. rewrite Hw, Hw'. destruct (i_ticks _ _ Hi).
  assert (E : sint32 (wrap64 (end_ w - end_ w')) = end_ w - end_ w').
  { unfold sint32, wrap32, wrap64. destruct (decide (0 <= end_ w - end_ w')).
    - rewrite (Z.mod_small _ (2 ^ 64)), Z.mod_small by lia. rewrite bool_decide_eq_true_2; lia.
    - replace ((end_ w - end_ w') mod 2 ^ 64) with (end_ w - end_ w' + 2 ^ 64)
        by (rewrite <- (Z_mod_plus_full _ 1), Z.mod_small; lia).
      replace ((end_ w - end_ w' + 2 ^ 64) mod 2 ^ 32) with (end_ w - end_ w' + 2 ^ 32).
      { rewrite bool_decide_eq_false_2; lia. }
      replace (end_ w - end_ w' + 2 ^ 64) with ((end_ w - end_ w' + 2 ^ 32) + (2 ^ 32 - 1) * 2 ^ 32) by lia.
      rewrite Z_mod_plus_full, Z.mod_small; lia. }
  rewrite E. apply bool_decide_ext. lia.
Qed.

Lemma sorted_insert_perm cmp x l : DList.sorted_insert cmp x l ≡ₚ x :: l.
Proof.
  induction l as [|y l IH]; simpl; [done|]. case_bool_decide; [|done]. rewrite IH. apply perm_swap.
Qed.

Lemma sorted_insert_sorted (f : Z -> Z) cmp x l :
  (forall y, y ∈ l -> bool_decide (0 <= cmp x y) = bool_decide (f y <= f x)) ->
  StronglySorted (fun a b => f a <= f b) l ->
  StronglySorted (fun a b => f a <= f b) (DList.sorted_insert cmp x l).
Proof.
  induction l as [|y l IH]; intros Hc Hs; simpl; [repeat constructor|].
  apply StronglySorted_inv in Hs as [Hs Hy]. rewrite Hc by (by left). case_bool_decide as Hle.
  - constructor; [apply IH; [intros z Hz; apply Hc; by right|done]|].
    rewrite sorted_insert_perm. by constructor.
  - constructor; [by constructor|]. constructor; [lia|]. eapply Forall_impl; [exact Hy|]. simpl. lia.
Qed.

Definition out (wd : Z) (l : list Z) : list Z := filter (fun x => x <> wd) l.

Lemma sorted_filter (R : Z -> Z -> Prop) (P : Z -> Prop) `{forall x, Decision (P x)} l :
  StronglySorted R l -> StronglySorted R (filter P l).
Proof.
  induction 1 as [|x l Hs IH Hx]; [constructor|]. rewrite filter_cons. case_decide; [|done].
  constructor; [done|]. apply Forall_forall. intros y [_ Hy]%list_elem_of_filter. rewrite Forall_forall in Hx. auto.
Qed.

Lemma cancel_head s wd w : privs s !! wd = Some w -> watchdog_cancel s wd = set_head s (out wd (wdog_head s)).
Proof.
  intros Hw. unfold watchdog_cancel. rewrite Hw. unfold watchdog_is_active. case_bool_decide as Hin; [done|].
  unfold out. rewrite filter_id by (intros x Hx ->; done). by destruct s.
Qed.

Lemma inv_out s lo wd : inv s lo -> inv (set_head s (out wd (wdog_head s))) lo.
Proof.
  intros Hi. split; simpl.
  - apply NoDup_filter, (i_nodup _ _ Hi).
  - intros x [_ Hx]%list_elem_of_filter. by apply (i_priv _ _ Hi).
  - apply sorted_filter, (i_sorted _ _ Hi).
  - apply (i_ticks _ _ Hi).
Qed.

(** A watchdog outside the list takes a new deadline and its place in the list. *)
Lemma inv_insert s lo wd n : inv s lo -> wd ∉ wdog_head s -> 0 <= ticks s -> 0 < n ->
  lo <= ticks s + n < lo + 2 ^ 31 ->
  let s1 := set_priv s wd (mk_wdog (ticks s) (wrap64 (ticks s + n))) in
  inv (set_head s1 (DList.sorted_insert (watchdog_expiration_comparator s1) wd (wdog_head s1))) lo.
Proof.
  intros Hi Hwd Ht0 Hn Hw s1. destruct (i_ticks _ _ Hi) as [Hlo Hlo2].
  assert (Hpriv : forall x, x ∈ wdog_head s -> privs s1 !! x = privs s !! x).
  { intros x Hx. apply lookup_insert_ne. by intros ->. }
  assert (Hwdp : privs s1 !! wd = Some (mk_wdog (ticks s) (ticks s + n))).
  { unfold s1. simpl. rewrite lookup_insert_eq, wrap64_small by lia. done. }
  assert (Hi1 : inv s1 lo).
  { split; [apply (i_nodup _ _ Hi)| | |done].
    - intros x Hx. destruct (i_priv _ _ Hi x Hx) as (w & ? & ?). exists w. by rewrite Hpriv.
    - pose proof (i_sorted _ _ Hi) as Hs. simpl. revert Hs Hpriv. generalize (wdog_head s).
      induction 1 as [|x l Hs IH Hx]; intros Hpriv; [constructor|].
      constructor; [apply IH; intros; apply Hpriv; by right|]. rewrite Forall_forall in *. intros y Hy.
      unfold end_of. rewrite !Hpriv by (by left || by right). by apply Hx. }
  split; simpl.
  - rewrite sorted_insert_perm. constructor; [done|]. apply (i_nodup _ _ Hi).
  - intros x Hx. rewrite sorted_insert_perm in Hx. apply elem_of_cons in Hx as [->|Hx].
    + exists (mk_wdog (ticks s) (ticks s + n)). split; [exact Hwdp|]. simpl. lia.
    + by apply (i_priv _ _ Hi1).
  - apply (sorted_insert_sorted (end_of s1)); [|apply (i_sorted _ _ Hi1)].
    intros y Hy. apply (comparator_window s1 lo); [done|done|]. eexists. split; [exact Hwdp|]. done.
  - done.
Qed.

(** ** Expiry *)

Definition due (s : state) (wd : Z) : Prop := end_of s wd <= ticks s.
#[export] Instance due_dec s wd : Decision (due s wd).
Proof. unfold due. apply _. Defined.

Lemma check_from_spec s lo l : inv s lo -> wdog_head s = l ->
  exists s', check_from s l = (s', filter (due s) l) /\ wdog_head s' = filter (fun wd => ~ due s wd) l /\
    privs s' = privs s /\ ticks s' = ticks s /\ inv s' lo.
Proof.
  revert s. induction l as [|wd l IH]; intros s Hi Hl; [by exists s|]. cbn [check_from].
  assert (Hin : wd ∈ wdog_head s) by (rewrite Hl; by left).
  destruct (i_priv _ _ Hi wd Hin) as (w & Hw & Hse & _).
  unfold watchdog_has_expired. rewrite Hw. unfold expired. rewrite bool_decide_eq_true_2 by done.
  assert (Hd : due s wd <-> end_ w <= ticks s) by (unfold due, end_of; by rewrite Hw).
  case_bool_decide as Hexp; simpl.
  - rewrite (cancel_head s wd w Hw), Hl.
    assert (Ho : out wd (wd :: l) = l).
    { unfold out. rewrite filter_cons_False by (intros ?; done). apply filter_id. intros x Hx ->.
      pose proof (i_nodup _ _ Hi) as Hn. rewrite Hl in Hn. by apply NoDup_cons in Hn as [? _]. }
    rewrite Ho. assert (Hi1 : inv (set_head s l) lo) by (pose proof (inv_out s lo wd Hi) as H; by rewrite Hl, Ho in H).
    destruct (IH (set_head s l) Hi1 eq_refl) as (s' & -> & ? & ? & ? & ?). exists s'.
    rewrite filter_cons_True, filter_cons_False by tauto. done.
  - exists s. rewrite filter_cons_False by tauto. rewrite filter_cons_True by tauto.
    assert (Hno : forall x, x ∈ l -> ~ due s x).
    { pose proof (i_sorted _ _ Hi) as Hs. rewrite Hl in Hs. apply StronglySorted_inv in Hs as [_ Hs].
      rewrite Forall_forall in Hs. intros x Hx. pose proof (Hs x Hx) as Hle. unfold due. unfold end_of in Hle at 1.
      rewrite Hw in Hle. lia. }
    split_and!; try done.
    + f_equal. symmetry.
      destruct (filter (due s) l) as [|x k] eqn:E; [done|]. exfalso.
      assert (Hx : x ∈ filter (due s) l) by (rewrite E; by left).
      apply list_elem_of_filter in Hx as [Hx1 Hx2]. by apply (Hno x).
    + rewrite Hl. f_equal. symmetry. apply filter_id. exact Hno.
Qed.

(** ** Properties *)

(** [watchdog_start] arms the watchdog for exactly [n] ticks from now,
    cancelling an earlier deadline of the same watchdog and no other, and the list
    stays sorted by expiry (deadlines within 2^31 ticks of one another). *)
Theorem watchdog_start_arms s lo wd n :
  inv s lo -> is_Some (privs s !! wd) -> 0 <= ticks s -> 0 < n -> lo <= ticks s + n < lo + 2 ^ 31 ->
  let s' := watchdog_start s wd n in
  inv s' lo /\ wdog_head s' ≡ₚ wd :: out wd (wdog_head s) /\ end_of s' wd = ticks s + n /\
  (forall x, x <> wd -> privs s' !! x = privs s !! x) /\ watchdog_is_active s' wd = true.
Proof.
  intros Hi [w Hw] Ht Hn Hwin. unfold watchdog_start. rewrite Hw, bool_decide_eq_false_2 by lia.
  assert (E : (if watchdog_is_active s wd then watchdog_cancel s wd else s) = set_head s (out wd (wdog_head s))).
  { rewrite <- (cancel_head s wd w Hw). destruct (watchdog_is_active s wd) eqn:Ea; [done|].
    unfold watchdog_cancel. by rewrite Hw, Ea. }
  rewrite E. set (s0 := set_head s (out wd (wdog_head s))).
  assert (Hi0 : inv s0 lo) by (by apply inv_out).
  assert (Hout : wd ∉ wdog_head s0) by (by intros [? _]%list_elem_of_filter).
  pose proof (inv_insert s0 lo wd n Hi0 Hout Ht Hn Hwin) as Hi1. simpl in Hi1. destruct (i_ticks _ _ Hi).
  split; [exact Hi1|]. split; [simpl; apply sorted_insert_perm|]. split; [|split].
  - unfold end_of. simpl. rewrite lookup_insert_eq. simpl. apply wrap64_small. lia.
  - intros x Hx. simpl. by rewrite lookup_insert_ne.
  - unfold watchdog_is_active. apply bool_decide_eq_true_2. simpl. rewrite sorted_insert_perm. by left.
Qed.

(** ** Runs *)

(** What happens to a set of initialised watchdogs; each call and each
    interrupt runs to its end. *)
Inductive event :=
  | Start (wd n : Z)
  | Cancel (wd : Z)
  | Tick (increment : Z).

(** The watchdogs that fire, tick after tick. *)
Fixpoint run (s : state) (evs : list event) : list (list Z) :=
  match evs with
  | [] => []
  | Start wd n :: evs => run (watchdog_start s wd n) evs
  | Cancel wd :: evs => run (watchdog_cancel s wd) evs
  | Tick k :: evs => let '(s, fired) := systick_handler s k in fired :: run s evs
  end.

(** What a timer service does, on the deadlines of the armed watchdogs: each
    tick fires those whose deadline it reaches, once and in the order of the
    deadlines, and disarms them. *)
Fixpoint timers (now : Z) (armed : gmap Z Z) (evs : list event) (fired : list (list Z)) : Prop :=
  match evs with
  | [] => fired = []
  | Start wd n :: evs => timers now (if bool_decide (n = 0) then armed else <[wd := now + n]> armed) evs fired
  | Cancel wd :: evs => timers now (delete wd armed) evs fired
  | Tick k :: evs => exists l fired', fired = l :: fired' /\
      NoDup l /\ (forall wd, wd ∈ l <-> exists d, armed !! wd = Some d /\ d <= now + k) /\
      StronglySorted (fun a b => default 0 (armed !! a) <= default 0 (armed !! b)) l /\
      timers (now + k) (filter (fun p => now + k < p.2) armed) evs fired'
  end.

Definition event_ok (s : state) (e : event) : Prop :=
  match e with
  | Start wd n => is_Some (privs s !! wd) /\ 0 <= n < 2 ^ 31
  | Cancel wd => is_Some (privs s !! wd)
  | Tick k => 0 <= k
  end.

Definition elapsed (evs : list event) : Z :=
  foldr (fun e t => match e with Tick k => k + t | _ => t end) 0 evs.

(** The list is that of the armed watchdogs, whose deadlines are to come. *)
Record armed_rep (s : state) (armed : gmap Z Z) : Prop := {
  a_inv : inv s (ticks s + 1);
  a_armed wd : wd ∈ wdog_head s <-> is_Some (armed !! wd);
  a_end wd d : armed !! wd = Some d -> end_of s wd = d;
}.

Lemma elapsed_nonneg s evs : Forall (event_ok s) evs -> 0 <= elapsed evs.
Proof. induction 1 as [|[] evs He _ IH]; simpl in *; lia. Qed.

Lemma event_ok_privs s s' evs : (forall wd, is_Some (privs s !! wd) -> is_Some (privs s' !! wd)) ->
  Forall (event_ok s) evs -> Forall (event_ok s') evs.
Proof. intros Hp H. eapply Forall_impl; [exact H|]. intros [] ?; simpl in *; naive_solver. Qed.

Lemma start_privs s wd n x : is_Some (privs s !! x) -> is_Some (privs (watchdog_start s wd n) !! x).
Proof.
  intros Hx. unfold watchdog_start. destruct (privs s !! wd) as [w|] eqn:E; [|done].
  case_bool_decide; [done|]. unfold watchdog_cancel. rewrite E.
  destruct (watchdog_is_active s wd); simpl;
    (destruct (decide (x = wd)) as [->|?]; [rewrite lookup_insert_eq; eauto|by rewrite lookup_insert_ne]).
Qed.

Lemma start_ticks s wd n : ticks (watchdog_start s wd n) = ticks s.
Proof.
  unfold watchdog_start, watchdog_cancel. destruct (privs s !! wd); [|done]. case_bool_decide; [done|].
  by destruct (watchdog_is_active s wd).
Qed.

Lemma start_rep s armed wd n : armed_rep s armed -> is_Some (privs s !! wd) -> 0 <= ticks s -> 0 < n < 2 ^ 31 ->
  armed_rep (watchdog_start s wd n) (<[wd := ticks s + n]> armed).
Proof.
  intros [Hi Ha He] Hw Ht Hn.
  destruct (watchdog_start_arms s (ticks s + 1) wd n Hi Hw Ht) as (Hi' & Hp & Hd & Hs & _); [lia|lia|].
  assert (Hend : forall x, x <> wd -> end_of (watchdog_start s wd n) x = end_of s x)
    by (intros x Hx; unfold end_of; by rewrite Hs).
  split.
  - by rewrite start_ticks.
  - intros x. rewrite Hp, elem_of_cons. destruct (decide (x = wd)) as [->|Hne].
    + rewrite lookup_insert_eq. naive_solver.
    + rewrite lookup_insert_ne by done. unfold out. rewrite list_elem_of_filter. naive_solver.
  - intros x d [[<- <-]|[Hne Hx]]%lookup_insert_Some; [done|]. rewrite Hend by done. by apply He.
Qed.

Lemma cancel_rep s armed wd : armed_rep s armed -> is_Some (privs s !! wd) ->
  armed_rep (watchdog_cancel s wd) (delete wd armed).
Proof.
  intros [Hi Ha He] [w Hw]. rewrite (cancel_head s wd w Hw). split.
  - by apply inv_out.
  - intros x. simpl. unfold out. rewrite list_elem_of_filter, Ha. destruct (decide (x = wd)) as [->|Hne].
    + rewrite lookup_delete_eq. split; [by intros [? _]|by intros [??]].
    + rewrite lookup_delete_ne by done. naive_solver.
  - intros x d [_ Hx]%lookup_delete_Some. by apply He.
Qed.

Lemma tick_rep s armed k : armed_rep s armed -> 0 <= ticks s -> 0 <= k -> ticks s + k + 1 + 2 ^ 31 <= 2 ^ 64 ->
  exists s' l, systick_handler s k = (s', l) /\ ticks s' = ticks s + k /\ privs s' = privs s /\
    armed_rep s' (filter (fun p => ticks s + k < p.2) armed) /\ NoDup l /\
    (forall wd, wd ∈ l <-> exists d, armed !! wd = Some d /\ d <= ticks s + k) /\
    StronglySorted (fun a b => default 0 (armed !! a) <= default 0 (armed !! b)) l.
Proof.
  intros [Hi Ha He] Ht Hk Hb. unfold systick_handler. rewrite wrap64_small by lia.
  set (s1 := mk_state (wdog_head s) (privs s) (ticks s + k)).
  assert (Hi1 : inv s1 (ticks s + 1)) by (destruct Hi; by split).
  destruct (check_from_spec s1 (ticks s + 1) (wdog_head s) Hi1 eq_refl) as (s' & E & Hh & Hp & Hts & Hi').
  assert (Hdue : forall wd d, armed !! wd = Some d -> due s1 wd <-> d <= ticks s + k)
    by (intros wd d Hd; unfold due; change (end_of s1 wd) with (end_of s wd); by rewrite (He wd d Hd)).
  exists s', (filter (due s1) (wdog_head s)). split_and!; [exact E|done|done| | | |].
  - split.
    + split; [apply (i_nodup _ _ Hi')| |apply (i_sorted _ _ Hi')|rewrite Hts; simpl; lia].
      intros x Hx. destruct (i_priv _ _ Hi' x Hx) as (w & Hw & Hse & Hr). exists w. rewrite Hts. simpl.
      rewrite Hh in Hx. apply list_elem_of_filter in Hx as [Hnd _]. unfold due, end_of in Hnd.
      rewrite Hp in Hw. simpl in Hw, Hnd. rewrite Hw in Hnd. rewrite Hp. simpl. split; [done|lia].
    + intros x. rewrite Hh, list_elem_of_filter, Ha. destruct (armed !! x) as [d|] eqn:Hx.
      * rewrite (Hdue x d Hx). split.
        -- intros [Hn _]. exists d. apply map_lookup_filter_Some. simpl. split; [done|lia].
        -- intros [d' [Hd' Hlt]%map_lookup_filter_Some]. simpl in Hlt. split; [|by eexists].
           assert (d' = d) as -> by congruence. lia.
      * split; [by intros [_ [??]]|]. intros [d' [Hd' _]%map_lookup_filter_Some]. congruence.
    + intros x d [Hd _]%map_lookup_filter_Some. unfold end_of. rewrite Hp. by apply (He x d).
  - apply NoDup_filter, (i_nodup _ _ Hi).
  - intros x. rewrite list_elem_of_filter, Ha. split.
    + intros [Hd [d Hx]]. exists d. split; [done|]. by apply (Hdue x d Hx).
    + intros (d & Hx & Hd). split; [by apply (Hdue x d Hx)|by eexists].
  - assert (Hall : Forall (fun a => default 0 (armed !! a) = end_of s1 a) (filter (due s1) (wdog_head s))).
    { apply Forall_forall. intros x [_ Hx]%list_elem_of_filter. apply Ha in Hx as [d Hx].
      rewrite Hx. simpl. symmetry. by apply (He x d). }
    pose proof (sorted_filter _ (due s1) _ (i_sorted _ _ Hi1)) as Hs. simpl in Hs. revert Hs Hall.
    generalize (filter (due s1) (wdog_head s)). induction 1 as [|x l Hs IH Hx]; intros Hall; [constructor|].
    apply Forall_cons in Hall as [Hx0 Hall]. constructor; [by apply IH|].
    rewrite Forall_forall in *. intros y Hy. rewrite Hx0, (Hall y Hy). by apply Hx.
Qed.

Lemma run_timers evs s armed : armed_rep s armed -> Forall (event_ok s) evs -> 0 <= ticks s ->
  ticks s + elapsed evs + 1 + 2 ^ 31 <= 2 ^ 64 -> timers (ticks s) armed evs (run s evs).
Proof.
  revert s armed. induction evs as [|[wd n|wd|k] evs IH]; intros s armed Hr Hok Ht Hb; [done|..];
    apply Forall_cons in Hok as [He Hok]; cbn [timers run elapsed foldr] in *.
  - destruct He as [Hw Hn]. case_bool_decide as Hz.
    + subst n. assert (E : watchdog_start s wd 0 = s) by (unfold watchdog_start; by destruct (privs s !! wd)).
      rewrite E. by apply IH.
    + rewrite <- (start_ticks s wd n) at 1. apply IH; [apply start_rep; [done|done|done|lia]| |by rewrite start_ticks..].
      eapply event_ok_privs; [|exact Hok]. intros x. apply start_privs.
  - assert (E : ticks (watchdog_cancel s wd) = ticks s /\ privs (watchdog_cancel s wd) = privs s).
    { unfold watchdog_cancel. destruct (privs s !! wd); [|done]. by destruct (watchdog_is_active s wd). }
    destruct E as [E1 E2]. rewrite <- E1 at 1.
    apply IH; [by apply cancel_rep| |by rewrite E1..]. eapply event_ok_privs; [|exact Hok]. by rewrite E2.
  - pose proof (elapsed_nonneg _ _ Hok) as Hel. unfold elapsed in Hel. simpl in He.
    destruct (tick_rep s armed k Hr Ht He) as (s' & l & E & Hts & Hp & Hr' & Hnd & Hin & Hs); [lia|].
    rewrite E. exists l, (run s' evs). split_and!; [done..|]. rewrite <- Hts at 1. apply IH.
    + exact Hr'.
    + eapply event_ok_privs; [|exact Hok]. by rewrite Hp.
    + lia.
    + unfold elapsed. lia.
Qed.

(** C12.  In any run of starts of initialised watchdogs for less than 2^31 ticks,
    of cancellations and of system ticks, each call and interrupt running to
    its end, callbacks leaving the watchdogs alone and the 64-bit tick counter not
    reaching its end, every tick fires exactly the watchdogs whose last deadline
    it reaches, each once and in the order of their deadlines: none before its
    deadline, none lost, none after it was cancelled or started anew. *)
Theorem check_fires_due s evs :
  wdog_head s = [] -> Forall (event_ok s) evs -> 0 <= ticks s ->
  ticks s + elapsed evs + 1 + 2 ^ 31 <= 2 ^ 64 -> timers (ticks s) ∅ evs (run s evs).
Proof.
  intros Hh Hok Ht Hb. pose proof (elapsed_nonneg _ _ Hok). apply run_timers; [|done..]. split.
  - split; rewrite ?Hh; [apply NoDup_nil_2|by intros ? ?%elem_of_nil|constructor|lia].
  - intros x. rewrite Hh, lookup_empty. split; [by intros ?%elem_of_nil|by intros [??]].
  - intros x d Hx. by rewrite lookup_empty in Hx.
Qed.

(** Three watchdogs; the blocks of [kmalloc] are full of junk. *)
Definition three : state :=
  match (s ← watchdog_init (Some (mk_wdog 9 7)) (mk_state [] ∅ 100) 1; s ← watchdog_init (Some (mk_wdog 3 3)) s 2;
         watchdog_init (Some (mk_wdog 0 5)) s 3) with
  | Ret s => s
  | _ => mk_state [] ∅ 0
  end.

Definition events_ex : list event :=
  [Start 1 50; Start 2 20; Tick 10; Start 3 5; Tick 10; Cancel 2; Start 2 1000; Start 1 3; Start 2 2; Tick 7; Tick 100].

Lemma check_fires_due_witness :
  Forall (event_ok three) events_ex /\
  timers 100 ∅ events_ex [[]; [3; 2]; [2; 1]; []].
Proof.
  assert (Hok : Forall (event_ok three) events_ex)
    by (repeat constructor; simpl; try lia; by eexists).
  split; [exact Hok|]. exact (check_fires_due three events_ex eq_refl Hok ltac:(simpl; lia) ltac:(vm_compute; discriminate)).
Defined.

(** A deadline 2^31 ticks after another sorts before it: [watchdog_check_expired]
    then stops at it and the due watchdog does not fire. *)
Example comparator_truncates :
  let s := watchdog_start (watchdog_start three 1 1) 2 (2 ^ 31 + 1) in
  wdog_head s = [2; 1] /\ (systick_handler s 5).2 = [].
Proof. split; vm_compute; reflexivity. Qed.

(** The block for a new watchdog is used without a look at what [kmalloc] gave. *)
Example init_without_memory s wd : watchdog_init None s wd = Fault.
Proof. done. Qed.

End Watchdog.
