(* ===== verification/Workqueue.v ===== *)
(** The work queues of [src/lib/workqueue.c]: the counting semaphore that wakes
    the worker, the list of works and the [work_count]/[empty_semaphore] pair,
    as a state machine whose steps are the sections between two points where
    the code can be interrupted.  Producers, timeouts, waiters and the worker
    each are at a point of their code. *)
From S2P Require Import Prelude.
#[local] Open Scope Z_scope.

Module Workqueue.

(** ** Data *)

(** A [struct work], by its address.  [armed] says its watchdog runs (see
    [Watchdog]); [delayed] remembers whether it was scheduled with a delay. *)
Record work := mk_work { work_id : nat; is_schedulable : bool; armed : bool; delayed : bool }.
#[export] Instance work_eq_dec : EqDecision work.
Proof. solve_decision. Defined.

(** Where a call of [workqueue_schedule] or of [workqueue_delay_timeout] is: before
    [atomic_inc], [semaphore_lock(&wq->empty_semaphore)], [list_add],
    [watchdog_start] or [semaphore_unlock(&wq->semaphore)]. *)
Inductive producer :=
  | AtInc (w : work)
  | AtLock (w : work)
  | AtAdd (w : work)
  | AtStart (id : nat)
  | AtUnlock.

(** Where [workqueue_thread] is: before [semaphore_lock], before the scan, at the
    [i]-th node of the list ([last]: the next node it read is the head), in the
    [entry_point] of a work, before [atomic_dec] (with the work it ran, if it
    found one), or before [semaphore_unlock(&wq->empty_semaphore)]. *)
Inductive worker_state :=
  | Waiting
  | Scanning
  | AtNode (i : nat) (last : bool)
  | Running (w : work)
  | Counting (ran : option work)
  | Emptying.

(** [waiters]: the calls of [workqueue_wait_empty] between lock and unlock;
    [executed] and [added] are the traces of the works whose entry point was
    called, and of those that were listed. *)
Record workqueue := mk_wq {
  wlist : list work;
  semaphore : Z;
  empty_semaphore : Z;
  work_count : Z;
  worker : worker_state;
  producers : list producer;
  waiters : nat;
  executed : list nat;
  added : list nat;
}.

Definition set_wlist wq (l : list work) : workqueue :=
  mk_wq l (semaphore wq) (empty_semaphore wq) (work_count wq) (worker wq) (producers wq) (waiters wq) (executed wq) (added wq).
Definition set_semaphore wq (n : Z) : workqueue :=
  mk_wq (wlist wq) n (empty_semaphore wq) (work_count wq) (worker wq) (producers wq) (waiters wq) (executed wq) (added wq).
Definition set_empty wq (n : Z) : workqueue :=
  mk_wq (wlist wq) (semaphore wq) n (work_count wq) (worker wq) (producers wq) (waiters wq) (executed wq) (added wq).
Definition set_count wq (n : Z) : workqueue :=
  mk_wq (wlist wq) (semaphore wq) (empty_semaphore wq) n (worker wq) (producers wq) (waiters wq) (executed wq) (added wq).
Definition set_worker wq (s : worker_state) : workqueue :=
  mk_wq (wlist wq) (semaphore wq) (empty_semaphore wq) (work_count wq) s (producers wq) (waiters wq) (executed wq) (added wq).
Definition set_producers wq (ps : list producer) : workqueue :=
  mk_wq (wlist wq) (semaphore wq) (empty_semaphore wq) (work_count wq) (worker wq) ps (waiters wq) (executed wq) (added wq).
Definition set_waiters wq (n : nat) : workqueue :=
  mk_wq (wlist wq) (semaphore wq) (empty_semaphore wq) (work_count wq) (worker wq) (producers wq) n (executed wq) (added wq).
Definition set_executed wq (l : list nat) : workqueue :=
  mk_wq (wlist wq) (semaphore wq) (empty_semaphore wq) (work_count wq) (worker wq) (producers wq) (waiters wq) l (added wq).
Definition set_added wq (l : list nat) : workqueue :=
  mk_wq (wlist wq) (semaphore wq) (empty_semaphore wq) (work_count wq) (worker wq) (producers wq) (waiters wq) (executed wq) l.

(** [name], [alloc] and [task]: whether there is a name, memory, and whether
    [task_run] gives a task. *)
Definition workqueue_create (name alloc task : bool) : option workqueue :=
  if negb name then None else
  if negb alloc then None else
  if negb task then None else
  Some (mk_wq [] 0 1 0 Waiting [] 0 [] []).

(** ** Producers *)

(** [workqueue_schedule] up to [atomic_inc]: [alloc] and [wd_alloc] say whether
    there is memory for the work and for its watchdog, which [watchdog_init]
    uses without a test. *)
Definition workqueue_schedule (alloc wd_alloc : bool) (id : nat) (delay : Z) : outcome (option work) :=
  if negb alloc then Ret None else
  if negb wd_alloc then Fault else
  Ret (Some (mk_work id (bool_decide (delay = 0)) false (bool_decide (delay <> 0)))).

Definition workqueue_queue (alloc wd_alloc : bool) (id : nat) : outcome (option work) :=
  workqueue_schedule alloc wd_alloc id 0.

(** The rest of [workqueue_schedule], a section at a time; [None]: the producer
    sleeps.  The second result is where it is then, [None] once it returned. *)
Definition schedule_next (wq : workqueue) (p : producer) : option (workqueue * option producer) :=
  match p with
  | AtInc w =>
      let count := wrap32 (work_count wq + 1) in
      Some (set_count wq count, Some (if bool_decide (count = 1) then AtLock w else AtAdd w))
  | AtLock w =>
      if bool_decide (empty_semaphore wq = 0) then None
      else Some (set_empty wq (wrap32 (empty_semaphore wq - 1)), Some (AtAdd w))
  | AtAdd w =>
      Some (set_added (set_wlist wq (wlist wq ++ [w])) (added wq ++ [work_id w]),
        Some (if delayed w then AtStart (work_id w) else AtUnlock))
  | AtStart id =>
      Some (set_wlist wq ((fun w => if bool_decide (work_id w = id) then mk_work id (is_schedulable w) true (delayed w) else w)
        <$> wlist wq), None)
  | AtUnlock => Some (set_semaphore wq (wrap32 (semaphore wq + 1)), None)
  end.

(** [workqueue_delay_timeout], up to [semaphore_unlock]: the watchdog of the [i]-th
    work fired. *)
Definition workqueue_delay_timeout (wq : workqueue) (i : nat) : workqueue :=
  set_producers (set_wlist wq (alter (fun w => mk_work (work_id w) true false (delayed w)) i (wlist wq)))
    (producers wq ++ [AtUnlock]).

(** ** The worker *)

(** One section of [workqueue_thread]; [None]: it sleeps.  The counter is
    unsigned: [<= 0] is a test for zero. *)
Definition workqueue_thread (wq : workqueue) : outcome (option workqueue) :=
  match worker wq with
  | Waiting =>
      Ret (if bool_decide (semaphore wq = 0) then None
           else Some (set_worker (set_semaphore wq (wrap32 (semaphore wq - 1))) Scanning))
  | Scanning =>
      Ret (Some (set_worker wq (if bool_decide (length (wlist wq) = 0%nat) then Counting None
                                else AtNode 0 (bool_decide (length (wlist wq) = 1%nat)))))
  | AtNode i last =>
      w ← deref (wlist wq !! i);
      Ret (Some (
        if is_schedulable w
        then set_executed (set_worker (set_wlist wq (delete i (wlist wq))) (Running w)) (executed wq ++ [work_id w])
        else set_worker wq (if last then Counting None
                            else AtNode (S i) (bool_decide (length (wlist wq) = S (S i))))))
  | Running w => Ret (Some (set_worker wq (Counting (Some w))))
  | Counting _ =>
      let count := wrap32 (work_count wq - 1) in
      Ret (Some (set_worker (set_count wq count) (if bool_decide (count <= 0) then Emptying else Waiting)))
  | Emptying => Ret (Some (set_worker (set_empty wq (wrap32 (empty_semaphore wq + 1))) Waiting))
  end.

Definition workqueue_has_pending_work (wq : workqueue) : bool := negb (bool_decide (wlist wq = [])).

(** [workqueue_wait_empty]: the lock, where it may sleep, and the unlock. *)
Definition workqueue_wait_empty (wq : workqueue) : option workqueue :=
  if bool_decide (empty_semaphore wq = 0) then None
  else Some (set_waiters (set_empty wq (wrap32 (empty_semaphore wq - 1))) (S (waiters wq))).
Definition wait_empty_unlock (wq : workqueue) : workqueue :=
  set_waiters (set_empty wq (wrap32 (empty_semaphore wq + 1))) (pred (waiters wq)).

(** [workqueue_destroy]: the worker is annihilated wherever it is, then the works
    of the list and the queue are freed.  The work it was running, if any, stays
    allocated; the watchdogs of works that wait are not cancelled. *)
Record remains := mk_remains { freed : list work; leaked : option work }.
Definition workqueue_destroy (wq : workqueue) (has_task : bool) : option remains :=
  if has_task then Some (mk_remains (wlist wq) (match worker wq with Running w => Some w | _ => None end)) else None.

(** [workqueue_delay_timeout] for the [i]-th work that was freed, if its watchdog
    runs: the function stores into the work and into its queue. *)
Definition late_timeout (r : remains) (i : nat) : outcome unit :=
  match freed r !! i with Some w => if armed w then Fault else Ret tt | None => Ret tt end.

(** ** Steps *)

(** The works in the hands of producers. *)
Definition in_hand (p : producer) : list work :=
  match p with AtInc w | AtLock w | AtAdd w => [w] | _ => [] end.
Definition live_ids (wq : workqueue) : list nat := (work_id <$> wlist wq) ++ (work_id <$> (producers wq ≫= in_hand)).

(** A new work has an address of its own; [work_count] does not wrap. *)
Inductive step : workqueue -> workqueue -> Prop :=
  | step_schedule wq id delay w :
      workqueue_schedule true true id delay = Ret (Some w) -> id ∉ live_ids wq ->
      step wq (set_producers wq (producers wq ++ [AtInc w]))
  | step_producer wq ps1 p ps2 wq' p' :
      producers wq = ps1 ++ p :: ps2 -> work_count wq < 2 ^ 32 - 1 -> schedule_next wq p = Some (wq', p') ->
      step wq (set_producers wq' (ps1 ++ option_list p' ++ ps2))
  | step_timeout wq i w : wlist wq !! i = Some w -> armed w = true -> step wq (workqueue_delay_timeout wq i)
  | step_worker wq wq' : workqueue_thread wq = Ret (Some wq') -> step wq wq'
  | step_wait wq wq' : workqueue_wait_empty wq = Some wq' -> step wq wq'
  | step_wait_done wq : waiters wq <> 0%nat -> step wq (wait_empty_unlock wq).

Definition steps : workqueue -> workqueue -> Prop := rtc step.

(** ** Invariant *)

Definition ready (l : list work) : Z := Z.of_nat (count_if is_schedulable l).

(** The worker has a unit of the semaphore and has not taken a work for it. *)
Definition claim (wq : workqueue) : Z := match worker wq with Scanning | AtNode _ _ => 1 | _ => 0 end.
(** The worker has a work that is counted and not listed. *)
Definition holding (wq : workqueue) : Z := match worker wq with Running _ | Counting _ => 1 | _ => 0 end.
Definition emptying (wq : workqueue) : Z := match worker wq with Emptying => 1 | _ => 0 end.

Definition is_unlock (p : producer) : bool := match p with AtUnlock => true | _ => false end.
Definition is_lock (p : producer) : bool := match p with AtLock _ => true | _ => false end.
Definition is_counted (p : producer) : bool := match p with AtLock _ | AtAdd _ => true | _ => false end.
Definition number (f : producer -> bool) (wq : workqueue) : Z := Z.of_nat (count_if f (producers wq)).

Definition worker_ok (wq : workqueue) : Prop :=
  match worker wq with
  | AtNode i last =>
      (exists j w, (i <= j)%nat /\ wlist wq !! j = Some w /\ is_schedulable w = true /\ (last = true -> j = i)) /\
      (last = false -> (S i < length (wlist wq))%nat) /\
      Forall (fun w => delayed w = true) (take i (wlist wq))
  | Counting None => False
  | _ => True
  end.

Definition work_ok (w : work) : Prop :=
  (armed w = true -> is_schedulable w = false) /\ (delayed w = false -> is_schedulable w = true).

(** A work that a producer is about to list, or to start the watchdog of. *)
Definition producer_ok (wq : workqueue) (p : producer) : Prop :=
  match p with
  | AtInc w | AtLock w | AtAdd w => is_schedulable w = negb (delayed w) /\ armed w = false
  | AtStart id => exists w, w ∈ wlist wq /\ work_id w = id /\ is_schedulable w = false /\ armed w = false
  | AtUnlock => True
  end.

Definition start_ids (p : producer) : list nat := match p with AtStart id => [id] | _ => [] end.

Record inv (wq : workqueue) : Prop := {
  i_ready : ready (wlist wq) = semaphore wq + claim wq + number is_unlock wq;
  i_sem : 0 <= semaphore wq;
  i_count : work_count wq = Z.of_nat (length (wlist wq)) + number is_counted wq + holding wq;
  i_bound : work_count wq < 2 ^ 32;
  i_empty : empty_semaphore wq + Z.of_nat (waiters wq) + emptying wq = number is_lock wq + (if bool_decide (work_count wq = 0) then 1 else 0);
  i_empty_nonneg : 0 <= empty_semaphore wq;
  i_lock : number is_lock wq <= 1;
  i_worker : worker_ok wq;
  i_works : Forall work_ok (wlist wq);
  i_producers : Forall (producer_ok wq) (producers wq);
  i_ids : NoDup (live_ids wq);
  i_starts : NoDup (producers wq ≫= start_ids);
  i_trace : executed wq ++ (work_id <$> wlist wq) ≡ₚ added wq;
}.
Lemma ready_le l : 0 <= ready l <= Z.of_nat (length l).
Proof. unfold ready, count_if. pose proof (length_filter is_schedulable l). lia. Qed.

Lemma ready_app l1 l2 : ready (l1 ++ l2) = ready l1 + ready l2.
Proof. unfold ready. rewrite count_if_app. lia. Qed.

Lemma ready_one w : ready [w] = if is_schedulable w then 1 else 0.
Proof. unfold ready. rewrite count_if_cons. by destruct (is_schedulable w). Qed.

Lemma ready_middle l1 w l2 : ready (l1 ++ w :: l2) = ready (l1 ++ l2) + if is_schedulable w then 1 else 0.
Proof. rewrite !ready_app. unfold ready. rewrite count_if_cons. destruct (is_schedulable w); lia. Qed.

Lemma ready_ext (f : work -> work) l : (forall w, w ∈ l -> is_schedulable (f w) = is_schedulable w) -> ready (f <$> l) = ready l.
Proof.
  induction l as [|w l IH]; intros Hf; [done|]. rewrite fmap_cons. unfold ready in *. rewrite !count_if_cons.
  rewrite Hf by (by left). specialize (IH ltac:(intros; apply Hf; by right)). destruct (is_schedulable w); lia.
Qed.

Lemma number_nonneg f wq : 0 <= number f wq.
Proof. unfold number. lia. Qed.

(** Unlocking producers and counted ones among those around [p]. *)
Definition around (f : producer -> bool) (ps1 ps2 : list producer) : Z := Z.of_nat (count_if f (ps1 ++ ps2)).

Lemma number_middle f wq ps1 p ps2 : producers wq = ps1 ++ p :: ps2 ->
  number f wq = around f ps1 ps2 + if f p then 1 else 0.
Proof. unfold number, around. intros ->. rewrite !count_if_app, count_if_cons. destruct (f p); lia. Qed.

Lemma number_replaced f wq ps1 p ps2 : number f (set_producers wq (ps1 ++ option_list p ++ ps2)) =
  around f ps1 ps2 + match p with Some p => if f p then 1 else 0 | None => 0 end.
Proof.
  unfold number, around. simpl. rewrite !count_if_app. destruct p as [p|]; simpl; rewrite ?count_if_cons; [destruct (f p)|];
    unfold count_if; simpl; lia.
Qed.

Lemma number_snoc f wq ps p : number f (set_producers wq (ps ++ [p])) = Z.of_nat (count_if f ps) + if f p then 1 else 0.
Proof. unfold number. simpl. rewrite count_if_app, count_if_cons. unfold count_if at 2. simpl. destruct (f p); lia. Qed.

(** The scan keeps its work in front of it when works are appended, or become
    schedulable. *)
Lemma worker_ok_mono wq wq' : worker wq' = worker wq ->
  (forall i w, wlist wq !! i = Some w -> exists w', wlist wq' !! i = Some w' /\ delayed w' = delayed w /\
    (is_schedulable w = true -> is_schedulable w' = true)) ->
  worker_ok wq -> worker_ok wq'.
Proof.
  intros Ew Hl. unfold worker_ok. rewrite Ew. destruct (worker wq) as [| |i last| | |]; try done.
  intros ((j & w & Hij & Hj & Hs & Hlast) & Hn & Hd). split_and!.
  - destruct (Hl j w Hj) as (w' & Hj' & _ & Hs'). exists j, w'. auto.
  - intros Hf. destruct (lookup_lt_is_Some_2 (wlist wq) (S i) (Hn Hf)) as [x Hx].
    destruct (Hl _ _ Hx) as (x' & Hx' & _). by eapply lookup_lt_Some.
  - rewrite Forall_lookup in *. intros k x Hk. apply lookup_take_Some in Hk as [Hk Hki].
    destruct (lookup_lt_is_Some_2 (wlist wq) k) as [y Hy]; [apply lookup_lt_Some in Hj; lia|].
    destruct (Hl k y Hy) as (y' & Hy' & Ed & _). assert (y' = x) as -> by congruence. rewrite Ed.
    apply (Hd k). by rewrite lookup_take_lt.
Qed.

Lemma holding_range wq : 0 <= holding wq <= 1 /\ 0 <= emptying wq <= 1 /\ 0 <= claim wq <= 1.
Proof. unfold holding, emptying, claim. destruct (worker wq); lia. Qed.

Ltac fields := unfold claim, holding, emptying in *;
  cbn [wlist semaphore empty_semaphore work_count worker producers waiters executed added set_wlist set_semaphore
       set_empty set_count set_worker set_producers set_waiters set_executed set_added] in *.

Lemma inv_schedule wq id delay w : inv wq -> workqueue_schedule true true id delay = Ret (Some w) -> id ∉ live_ids wq ->
  inv (set_producers wq (producers wq ++ [AtInc w])).
Proof.
  intros Hi [= <-] Hid. destruct Hi.
  split; rewrite ?number_snoc; unfold number in *; fields; simpl; try done; try lia.
  - apply Forall_app. split; [done|]. repeat constructor; simpl. by repeat case_bool_decide.
  - unfold live_ids in *. simpl. rewrite bind_app, fmap_app, app_assoc. apply NoDup_app. split_and!; [done| |apply NoDup_singleton].
    intros x Hx ->%list_elem_of_singleton. done.
  - by rewrite bind_app, app_nil_r.
Qed.

Lemma producer_ok_ext wq wq' ps : wlist wq' = wlist wq -> Forall (producer_ok wq) ps -> Forall (producer_ok wq') ps.
Proof. intros E H. eapply Forall_impl; [exact H|]. intros []; simpl; by rewrite ?E. Qed.

Lemma live_ids_middle wq ps1 p ps2 : producers wq = ps1 ++ p :: ps2 ->
  live_ids wq ≡ₚ (work_id <$> in_hand p) ++ (work_id <$> wlist wq) ++ (work_id <$> ((ps1 ++ ps2) ≫= in_hand)).
Proof.
  intros Ep. unfold live_ids. rewrite Ep, !bind_app, bind_cons, !fmap_app, !app_assoc.
  apply Permutation_app_tail. rewrite <- !app_assoc. rewrite Permutation_app_comm. rewrite <- !app_assoc.
  rewrite (Permutation_app_comm (work_id <$> (ps1 ≫= in_hand))). by rewrite <- !app_assoc.
Qed.

Lemma live_ids_replaced wq ps1 p ps2 :
  live_ids (set_producers wq (ps1 ++ option_list p ++ ps2)) ≡ₚ
    (work_id <$> default [] (in_hand <$> p)) ++ (work_id <$> wlist wq) ++ (work_id <$> ((ps1 ++ ps2) ≫= in_hand)).
Proof.
  destruct p as [p|]; simpl; [by apply (live_ids_middle (set_producers wq (ps1 ++ p :: ps2)) ps1 p)|done].
Qed.

Lemma is_lock_counted ps : (count_if is_lock ps <= count_if is_counted ps)%nat.
Proof.
  induction ps as [|p ps IH]; [done|]. rewrite !count_if_cons. destruct p; simpl; lia.
Qed.

(** Setting the [armed] flag of the works at address [id]. *)
Definition arm (id : nat) (w : work) : work :=
  if bool_decide (work_id w = id) then mk_work id (is_schedulable w) true (delayed w) else w.

Lemma arm_same id w : work_id (arm id w) = work_id w /\ is_schedulable (arm id w) = is_schedulable w /\ delayed (arm id w) = delayed w.
Proof. unfold arm. by case_bool_decide. Qed.

Lemma arm_ids id (l : list work) : work_id <$> (arm id <$> l) = work_id <$> l.
Proof. rewrite <- list_fmap_compose. apply list_fmap_ext. intros _ w _. apply arm_same. Qed.

Section producer.
Context (wq : workqueue) (ps1 ps2 : list producer) (p : producer).
Context (Hi : inv wq) (Ep : producers wq = ps1 ++ p :: ps2).

Lemma p_ok : producer_ok wq p /\ Forall (producer_ok wq) (ps1 ++ ps2).
Proof.
  pose proof (i_producers _ Hi) as H. rewrite Ep in H.
  apply Forall_app in H as [H1 [H2 H3]%Forall_cons]. split; [done|]. by apply Forall_app.
Qed.

Lemma ps_ok wq' p' : Forall (producer_ok wq') (ps1 ++ ps2) -> match p' with Some q => producer_ok wq' q | None => True end ->
  Forall (producer_ok wq') (ps1 ++ option_list p' ++ ps2).
Proof.
  intros [H1 H2]%Forall_app Hp. repeat (apply Forall_app; split); try done. destruct p'; simpl; [by repeat constructor|constructor].
Qed.

Lemma ids_middle : NoDup ((work_id <$> in_hand p) ++ (work_id <$> wlist wq) ++ (work_id <$> ((ps1 ++ ps2) ≫= in_hand))).
Proof. rewrite <- (live_ids_middle wq ps1 p ps2 Ep). apply (i_ids _ Hi). Qed.

Lemma starts_middle : NoDup (start_ids p ++ ((ps1 ++ ps2) ≫= start_ids)).
Proof.
  pose proof (i_starts _ Hi) as H. rewrite Ep, bind_app, bind_cons in H. rewrite bind_app, app_assoc.
  rewrite (Permutation_app_comm (start_ids p)). by rewrite <- app_assoc.
Qed.

Lemma starts_replaced (p' : option producer) :
  NoDup (default [] (start_ids <$> p') ++ ((ps1 ++ ps2) ≫= start_ids)) -> NoDup ((ps1 ++ option_list p' ++ ps2) ≫= start_ids).
Proof.
  intros H. rewrite !bind_app in *. rewrite app_assoc in H. rewrite (Permutation_app_comm (default [] _)), <- app_assoc in H.
  destruct p'; simpl in *; [rewrite app_nil_r|]; done.
Qed.

Lemma inv_inc w : p = AtInc w -> work_count wq < 2 ^ 32 - 1 -> forall wq' p', schedule_next wq p = Some (wq', p') ->
  inv (set_producers wq' (ps1 ++ option_list p' ++ ps2)).
Proof.
  pose proof p_ok as Hpok. pose proof ps_ok as Hpso. pose proof starts_replaced as Hstr. pose proof starts_middle as Hst. pose proof ids_middle as Hids.
  intros -> Hb wq' p' E. simpl in E. injection E as <- <-. destruct Hpok as [Hp Hps].
 
  pose proof (number_nonneg is_counted wq). pose proof (holding_range wq).
  pose proof (i_count _ Hi) as Hc. pose proof (is_lock_counted (producers wq)) as Hlc.
  pose proof (number_middle is_unlock wq _ _ _ Ep) as N1. pose proof (number_middle is_counted wq _ _ _ Ep) as N2.
  pose proof (number_middle is_lock wq _ _ _ Ep) as N3. destruct Hi. rewrite wrap32_small by lia.
  assert (Hz : work_count wq = 0 -> number is_lock wq = 0) by (unfold number in *; lia).
  split; rewrite ?number_replaced; fields; rewrite ?N1, ?N2, ?N3 in *; cbn [is_unlock is_counted is_lock] in *; try done; try lia.
  - destruct (bool_decide (work_count wq + 1 = 1)); simpl; lia.
  - destruct (bool_decide (work_count wq + 1 = 1)); simpl; lia.
  - rewrite (bool_decide_eq_false_2 (work_count wq + 1 = 0)) by lia.
    repeat case_bool_decide; simpl; lia.
  - destruct (decide (work_count wq = 0)) as [E|E]; [specialize (Hz E)|]; repeat case_bool_decide; simpl; lia.
  - apply Hpso; [by eapply producer_ok_ext|]. destruct (bool_decide (work_count wq + 1 = 1)); exact Hp.
  - rewrite (live_ids_replaced (set_count wq _)). simpl. destruct (bool_decide (work_count wq + 1 = 1)); exact Hids.
  - apply Hstr.  destruct (bool_decide (work_count wq + 1 = 1)); exact Hst.
Qed.

Lemma inv_lock w : p = AtLock w -> forall wq' p', schedule_next wq p = Some (wq', p') ->
  inv (set_producers wq' (ps1 ++ option_list p' ++ ps2)).
Proof.
  pose proof p_ok as Hpok. pose proof ps_ok as Hpso. pose proof starts_replaced as Hstr. pose proof starts_middle as Hst. pose proof ids_middle as Hids.
  intros -> wq' p' E. simpl in E. case_bool_decide as He; [done|]. injection E as <- <-.
  destruct Hpok as [Hp Hps].
  pose proof (holding_range wq).
  pose proof (number_middle is_unlock wq _ _ _ Ep) as N1. pose proof (number_middle is_counted wq _ _ _ Ep) as N2.
  pose proof (number_middle is_lock wq _ _ _ Ep) as N3. destruct Hi.
  rewrite wrap32_small by (destruct (bool_decide (work_count wq = 0)); lia).
  split; rewrite ?number_replaced; fields; rewrite ?N1, ?N2, ?N3 in *; cbn [is_unlock is_counted is_lock] in *; try done; try lia.
  - apply Hpso; [by eapply producer_ok_ext|done].
  - by rewrite (live_ids_replaced (set_empty wq _)).
  - apply Hstr. exact Hst.
Qed.

Lemma inv_unlock : p = AtUnlock -> forall wq' p', schedule_next wq p = Some (wq', p') ->
  inv (set_producers wq' (ps1 ++ option_list p' ++ ps2)).
Proof.
  pose proof p_ok as Hpok. pose proof ps_ok as Hpso. pose proof starts_replaced as Hstr. pose proof starts_middle as Hst. pose proof ids_middle as Hids.
  intros -> wq' p' E. simpl in E. injection E as <- <-.
  destruct Hpok as [Hp Hps].
  pose proof (holding_range wq). pose proof (ready_le (wlist wq)).
  pose proof (number_nonneg is_counted wq).
  pose proof (number_middle is_unlock wq _ _ _ Ep) as N1. pose proof (number_middle is_counted wq _ _ _ Ep) as N2.
  pose proof (number_middle is_lock wq _ _ _ Ep) as N3. destruct Hi.
  assert (0 <= around is_unlock ps1 ps2) by (unfold around; lia). cbn [is_unlock is_counted is_lock] in *.
  rewrite wrap32_small by lia.
  split; rewrite ?number_replaced; fields; rewrite ?N1, ?N2, ?N3 in *; try done; try lia.
Qed.

Lemma inv_add w : p = AtAdd w -> forall wq' p', schedule_next wq p = Some (wq', p') ->
  inv (set_producers wq' (ps1 ++ option_list p' ++ ps2)).
Proof.
  pose proof p_ok as Hpok. pose proof ps_ok as Hpso. pose proof starts_replaced as Hstr. pose proof starts_middle as Hst. pose proof ids_middle as Hids.
  intros -> wq' p' E. simpl in E. injection E as <- <-. destruct Hpok as [[Hs Ha] Hps].
 
  pose proof (number_middle is_unlock wq _ _ _ Ep) as N1. pose proof (number_middle is_counted wq _ _ _ Ep) as N2.
  pose proof (number_middle is_lock wq _ _ _ Ep) as N3.
  pose proof (worker_ok_mono wq (set_wlist wq (wlist wq ++ [w])) eq_refl) as Hw. destruct Hi.
  set (p' := if delayed w then AtStart (work_id w) else AtUnlock).
  split; rewrite ?number_replaced; fields; rewrite ?N1, ?N2, ?N3 in *; cbn [is_unlock is_counted is_lock] in *; try done; try lia.
  - rewrite ready_app, ready_one, Hs. unfold p'. destruct (delayed w); simpl; lia.
  - rewrite length_app. unfold p'. destruct (delayed w); simpl; lia.
  - unfold p'. destruct (delayed w); simpl; lia.
  - unfold p'. destruct (delayed w); simpl; lia.
  - apply Hw; [|done]. intros i x Hx. exists x. split; [by apply lookup_app_l_Some|done].
  - apply Forall_app. split; [done|]. repeat constructor; [congruence|]. intros E. by rewrite Hs, E.
  - apply Hpso.
    + eapply Forall_impl; [exact Hps|]. intros []; simpl; [done..| |done]. intros (x & Hx & ?). exists x. split; [set_solver|done].
    + unfold p'. destruct (delayed w) eqn:Ed; simpl; [|done]. exists w. split; [set_solver|done].
  - rewrite (live_ids_replaced (set_added (set_wlist wq _) _)). fields. rewrite fmap_app.
    assert (Eh : work_id <$> default [] (in_hand <$> Some p') = []) by (unfold p'; by destruct (delayed w)).
    rewrite Eh, (Permutation_app_comm (work_id <$> wlist wq)), <- app_assoc. exact Hids.
  - apply Hstr.  unfold p'. destruct (delayed w); [|done]. simpl in *.
    apply NoDup_cons. split; [|done]. intros (q & Hq & Hin)%list_elem_of_bind.
    rewrite Forall_forall in Hps. specialize (Hps q Hin). destruct q; simpl in Hq; try by apply elem_of_nil in Hq.
    apply list_elem_of_singleton in Hq as <-. destruct Hps as (x & Hx & Hid & _).
    simpl in Hids. apply NoDup_cons in Hids as [Hn _]. apply Hn. rewrite elem_of_app. left. rewrite <- Hid. by apply list_elem_of_fmap_2.
  - rewrite fmap_app, app_assoc. by apply Permutation_app_tail.
Qed.

Lemma inv_start id : p = AtStart id -> forall wq' p', schedule_next wq p = Some (wq', p') ->
  inv (set_producers wq' (ps1 ++ option_list p' ++ ps2)).
Proof.
  pose proof p_ok as Hpok. pose proof ps_ok as Hpso. pose proof starts_replaced as Hstr. pose proof starts_middle as Hst. pose proof ids_middle as Hids.
  intros -> wq' p' E. simpl in E. injection E as <- <-. fold (arm id). destruct Hpok as [Hp Hps].
 
  pose proof (number_middle is_unlock wq _ _ _ Ep) as N1. pose proof (number_middle is_counted wq _ _ _ Ep) as N2.
  pose proof (number_middle is_lock wq _ _ _ Ep) as N3.
  pose proof (worker_ok_mono wq (set_wlist wq (arm id <$> wlist wq)) eq_refl) as Hw.
  assert (Hwid : NoDup (work_id <$> wlist wq)) by (pose proof (i_ids _ Hi) as H; by apply NoDup_app in H as [? _]).
  destruct Hi.
  split; rewrite ?number_replaced; fields; rewrite ?N1, ?N2, ?N3 in *; cbn [is_unlock is_counted is_lock] in *; try done; try lia.
  - rewrite ready_ext by (intros; apply arm_same). lia.
  - rewrite length_fmap. lia.
  - apply Hw; [|done]. intros i x Hx. exists (arm id x). rewrite list_lookup_fmap, Hx.
    destruct (arm_same id x) as (_ & -> & ->). done.
  - apply Forall_fmap. rewrite Forall_forall in *. intros x Hx. unfold compose. destruct (i_works0 x Hx) as [H1 H2].
    unfold arm. destruct (bool_decide_reflect (work_id x = id)) as [Hid|Hid]; [|by split]. split; simpl; [|done]. intros _.
    destruct Hp as (y & Hy & Hyid & Hys & _). replace x with y; [done|].
    apply list_elem_of_lookup in Hx as [i Hx], Hy as [j Hy].
    assert (i = j) as ->; [|congruence]. eapply (NoDup_lookup (work_id <$> wlist wq)); [done|by rewrite list_lookup_fmap, Hx|].
    rewrite list_lookup_fmap, Hy. simpl. congruence.
  - apply Hpso; [|done]. simpl in Hst. apply NoDup_cons in Hst as [Hst _].
    rewrite Forall_forall in *. intros q Hq. pose proof (Hps q Hq) as Hqok. destruct q as [| | |id'|]; simpl in *; try done.
    destruct Hqok as (x & Hx & Hid & ?). exists x. split; [|done].
    assert (Hne : id' <> id) by (intros ->; apply Hst, list_elem_of_bind; exists (AtStart id); split; [by left|done]).
    apply list_elem_of_fmap. exists x. split; [|done]. unfold arm. by rewrite bool_decide_eq_false_2 by congruence.
  - rewrite (live_ids_replaced (set_wlist wq _)). fields. by rewrite arm_ids.
  - apply Hstr. simpl in *. by apply NoDup_cons in Hst as [_ ?].
  - by rewrite arm_ids.
Qed.
End producer.

Lemma inv_producer wq ps1 p ps2 wq' p' : inv wq -> producers wq = ps1 ++ p :: ps2 -> work_count wq < 2 ^ 32 - 1 ->
  schedule_next wq p = Some (wq', p') -> inv (set_producers wq' (ps1 ++ option_list p' ++ ps2)).
Proof.
  intros Hi Ep Hb E. destruct p as [w|w|w|id|].
  - by apply (inv_inc wq ps1 ps2 _ Hi Ep w eq_refl Hb wq' p' E).
  - by apply (inv_lock wq ps1 ps2 _ Hi Ep w eq_refl wq' p' E).
  - by apply (inv_add wq ps1 ps2 _ Hi Ep w eq_refl wq' p' E).
  - by apply (inv_start wq ps1 ps2 _ Hi Ep id eq_refl wq' p' E).
  - by apply (inv_unlock wq ps1 ps2 _ Hi Ep eq_refl wq' p' E).
Qed.

Definition fire (w : work) : work := mk_work (work_id w) true false (delayed w).

Lemma alter_ids (f : work -> work) i (l : list work) : (forall w, work_id (f w) = work_id w) -> work_id <$> alter f i l = work_id <$> l.
Proof.
  intros Hf. revert i. induction l as [|w l IH]; intros [|i]; try done; simpl; f_equal; [apply Hf|apply IH].
Qed.

Lemma inv_timeout wq i w : inv wq -> wlist wq !! i = Some w -> armed w = true -> inv (workqueue_delay_timeout wq i).
Proof.
  intros Hi Hw Ha. pose proof Hw as Hl. apply list_elem_of_split_length in Hl as (l1 & l2 & El & Ei).
  assert (Hw1 : work_ok w) by (pose proof (i_works _ Hi) as H; rewrite Forall_lookup in H; by apply (H i)).
  assert (Hns : is_schedulable w = false) by (by apply Hw1).
  assert (Ea : alter fire i (wlist wq) = l1 ++ fire w :: l2).
  { rewrite El, Ei, alter_app_r_alt, Nat.sub_diag by lia. done. }
  pose proof (worker_ok_mono wq (set_wlist wq (alter fire i (wlist wq))) eq_refl) as Hm.
  unfold workqueue_delay_timeout. fold fire. destruct Hi.
  assert (Hin : forall x, x ∈ wlist wq -> x <> w -> x ∈ alter fire i (wlist wq)) by (rewrite Ea, El; set_solver).
  split; rewrite ?number_snoc; unfold number in *; fields; cbn [is_unlock is_counted is_lock] in *; try done; try lia.
  - rewrite Ea. rewrite El, ready_middle, Hns in i_ready0. rewrite ready_middle. simpl. lia.
  - rewrite length_alter. lia.
  - apply Hm; [|done]. intros j x Hx. destruct (decide (i = j)) as [->|Hne].
    + exists (fire w). rewrite list_lookup_alter_eq, Hw. by simplify_eq.
    + exists x. rewrite list_lookup_alter_ne; done.
  - rewrite Ea. rewrite El in i_works0. apply Forall_app in i_works0 as [H1 [_ H2]%Forall_cons].
    apply Forall_app. split; [done|]. by constructor.
  - apply Forall_app. split; [|by constructor]. eapply Forall_impl; [exact i_producers0|]. intros []; simpl; try done.
    intros (x & Hx & ? & ? & Hxa). exists x. split; [|done]. apply Hin; [done|]. intros ->. congruence.
  - unfold live_ids in *. fields. rewrite alter_ids by done. by rewrite bind_app, app_nil_r.
  - by rewrite bind_app, app_nil_r.
  - by rewrite alter_ids.
Qed.

(** Taking the [i]-th work. *)
Lemma wq_inv_take wq i last w : inv wq -> worker wq = AtNode i last -> wlist wq !! i = Some w -> is_schedulable w = true ->
  inv (set_executed (set_worker (set_wlist wq (delete i (wlist wq))) (Running w)) (executed wq ++ [work_id w])).
Proof.
  intros Hi Ew Hw Hs. apply list_elem_of_split_length in Hw as (l1 & l2 & El & Ei).
  assert (Ed : delete i (wlist wq) = l1 ++ l2) by (rewrite El, Ei; apply delete_middle).
  rewrite Ed. destruct Hi. rewrite El in *. split; unfold number in *; fields; rewrite ?Ew in *; try done; try lia.
  - rewrite ready_middle, Hs in i_ready0. lia.
  - rewrite length_app in *. simpl in *. lia.
  - rewrite Forall_app, Forall_cons in *. naive_solver.
  - eapply Forall_impl; [exact i_producers0|]. intros []; simpl; try done. fields. rewrite El.
    intros (x & Hx & ? & Hxs & ?). exists x. split; [|done].
    rewrite elem_of_app, elem_of_cons in Hx. rewrite elem_of_app. destruct Hx as [?|[->|?]]; [by left|congruence|by right].
  - unfold live_ids in *. fields. rewrite El, !fmap_app in *. eapply sublist_NoDup; [exact i_ids0|].
    apply sublist_app; [|done]. apply sublist_app; [done|]. simpl. by constructor.
  - rewrite <- i_trace0, <- app_assoc, !fmap_app. apply Permutation_app_head. simpl. apply Permutation_middle.
Qed.

Lemma inv_worker wq wq' : inv wq -> workqueue_thread wq = Ret (Some wq') -> inv wq'.
Proof.
  intros Hi E. unfold workqueue_thread in E. pose proof (number_nonneg is_unlock wq). pose proof (number_nonneg is_counted wq).
  pose proof (ready_le (wlist wq)) as Hrl. pose proof (i_worker _ Hi) as Hw. unfold worker_ok in Hw.
  assert (Hsame : forall x, wlist x = wlist wq -> Forall (producer_ok x) (producers wq))
    by (intros x Hx; eapply producer_ok_ext; [exact Hx|apply (i_producers _ Hi)]).
  destruct (worker wq) as [| |i last|w|[w|]|] eqn:Ew.
  - case_bool_decide as Hz; [done|]. injection E as <-. destruct Hi.
    assert (semaphore wq < 2 ^ 32) by (unfold claim, holding in *; rewrite Ew in *; lia).
    rewrite wrap32_small by lia. split; unfold number in *; fields; rewrite ?Ew in *; try done; try lia; try by apply Hsame.
  - assert (Hl : (0 < length (wlist wq))%nat).
    { pose proof (i_ready _ Hi). pose proof (i_sem _ Hi). unfold claim in *. rewrite Ew in *. lia. }
    rewrite bool_decide_eq_false_2 in E by lia. injection E as <-. destruct Hi.
    split; unfold number in *; fields; rewrite ?Ew in *; try done; try lia; try by apply Hsame.
    unfold worker_ok. fields. split_and!.
    + destruct (count_if_exists is_schedulable (wlist wq)) as (j & x & Hj & Hs); [unfold ready in *; lia|].
      exists j, x. split_and!; [lia|done|done|]. intros Hb%bool_decide_eq_true. apply lookup_lt_Some in Hj. lia.
    + intros Hb%bool_decide_eq_false. lia.
    + constructor.
  - destruct Hw as ((j & x & Hij & Hj & Hjs & Hlast) & Hnext & Hd).
    destruct (wlist wq !! i) as [w|] eqn:Hwi; [|done]. simpl in E. injection E as <-.
    destruct (is_schedulable w) eqn:Hws; [by eapply wq_inv_take|].
    assert (Hne : j <> i) by congruence. destruct last; [by destruct Hne; apply Hlast|]. specialize (Hnext eq_refl).
    destruct Hi. split; unfold number in *; fields; rewrite ?Ew in *; try done; try lia; try by apply Hsame.
    unfold worker_ok. fields. split_and!.
    + exists j, x. split_and!; [lia|done|done|]. intros Hb%bool_decide_eq_true. apply lookup_lt_Some in Hj. lia.
    + intros Hb%bool_decide_eq_false. lia.
    + rewrite (take_S_r _ _ w) by done. apply Forall_app. split; [done|]. repeat constructor.
      destruct (delayed w) eqn:Edw; [done|]. rewrite Forall_lookup in i_works0. destruct (i_works0 i w Hwi) as [_ Hx].
      rewrite Hx in Hws; done.
  - injection E as <-. destruct Hi. split; unfold number in *; fields; rewrite ?Ew in *; try done; try lia; try by apply Hsame.
  - injection E as <-. destruct Hi. unfold holding, emptying in *. rewrite Ew in *.
    rewrite bool_decide_eq_false_2 in i_empty0 by lia. pose proof (is_lock_counted (producers wq)) as Hlc.
    rewrite wrap32_small by lia. destruct (decide (work_count wq = 1)) as [Hz|Hz].
    + rewrite bool_decide_eq_true_2 by lia. split; unfold number in *; fields; rewrite ?Ew in *; try done; try lia; try by apply Hsame.
      rewrite bool_decide_eq_true_2 by lia. lia.
    + rewrite bool_decide_eq_false_2 by lia. split; unfold number in *; fields; rewrite ?Ew in *; try done; try lia; try by apply Hsame.
      rewrite bool_decide_eq_false_2 by lia. lia.
  - done.
  - injection E as <-. destruct Hi. unfold emptying in *. rewrite Ew in *.
    rewrite wrap32_small by (destruct (bool_decide (work_count wq = 0)); lia).
    split; unfold number in *; fields; rewrite ?Ew in *; try done; try lia; try by apply Hsame.
Qed.

Lemma inv_wait wq wq' : inv wq -> workqueue_wait_empty wq = Some wq' -> inv wq'.
Proof.
  intros Hi E. unfold workqueue_wait_empty in E. case_bool_decide as Hz; [done|]. injection E as <-.
  pose proof (i_producers _ Hi) as Hp. destruct Hi. pose proof (holding_range wq).
  rewrite wrap32_small by (destruct (bool_decide (work_count wq = 0)); lia).
  split; unfold number in *; fields; try done; try lia.
Qed.

Lemma inv_wait_done wq : inv wq -> waiters wq <> 0%nat -> inv (wait_empty_unlock wq).
Proof.
  intros Hi Hw. unfold wait_empty_unlock. destruct Hi. pose proof (holding_range wq).
  rewrite wrap32_small by (destruct (bool_decide (work_count wq = 0)); lia).
  split; unfold number in *; fields; try done; try lia.
Qed.

Lemma inv_steps wq wq' : inv wq -> steps wq wq' -> inv wq'.
Proof.
  intros Hi Hs. induction Hs as [|wq1 wq2 wq3 Hstep _ IH]; [done|]. apply IH. clear IH.
  destruct Hstep as [wq id delay w ? ?|wq ps1 p ps2 wq' p' ? ? ?|wq i w ? ?|wq wq' ?|wq wq' ?|wq ?].
  - by eapply inv_schedule.
  - by eapply inv_producer.
  - by eapply inv_timeout.
  - by eapply inv_worker.
  - by eapply inv_wait.
  - by eapply inv_wait_done.
Qed.

Definition created : workqueue := mk_wq [] 0 1 0 Waiting [] 0 [] [].

Lemma inv_create : inv created.
Proof. split; try done; try (by constructor); lia. Qed.

(** ** Properties *)

(** No work is listed, about to be listed, taken or being run. *)
Definition no_work (wq : workqueue) : Prop :=
  wlist wq = [] /\ (forall w, AtLock w ∉ producers wq /\ AtAdd w ∉ producers wq) /\ (worker wq = Waiting \/ worker wq = Emptying).

Lemma number_zero f wq p : number f wq = 0 -> p ∈ producers wq -> f p = false.
Proof.
  intros Hn [i Hi]%list_elem_of_lookup. destruct (f p) eqn:E; [|done].
  pose proof (count_if_pos f (producers wq) i p Hi E). unfold number in Hn. lia.
Qed.

Lemma number_none f wq : (forall p, p ∈ producers wq -> f p = false) -> number f wq = 0.
Proof.
  intros H. unfold number. destruct (count_if f (producers wq)) eqn:E; [done|].
  destruct (count_if_exists f (producers wq)) as (i & p & Hi & Hp); [lia|].
  rewrite (H p) in Hp; [done|]. by eapply list_elem_of_lookup_2.
Qed.

Lemma no_work_iff wq : inv wq -> no_work wq <-> work_count wq = 0.
Proof.
  intros Hi. pose proof (i_count _ Hi) as Hc. pose proof (i_ready _ Hi) as Hr. pose proof (i_sem _ Hi).
  pose proof (number_nonneg is_unlock wq). pose proof (number_nonneg is_counted wq). pose proof (holding_range wq).
  unfold holding, claim in *. split.
  - intros (El & Hp & Hw). rewrite El in *. rewrite Hc, (number_none is_counted wq); [by destruct Hw as [-> | ->]|].
    intros [w|w|w|id|] Hin; try done; by destruct (Hp w).
  - intros Hz. assert (El : wlist wq = []) by (destruct (wlist wq); [done|simpl in *; lia]). rewrite El in *.
    change (ready []) with 0 in Hr. split_and!; [done| |].
    + intros w. split; intros Hin; apply (number_zero is_counted wq) in Hin; (done || lia).
    + destruct (worker wq); try lia; auto.
Qed.

(** C13.  Whatever the interleaving of producers, timeouts, waiters and the worker,
    each of them interrupted between any two accesses to what they share (the
    memory of new works and their watchdogs being there): the worker faults
    nowhere and never leaves a scan without a work; before the work it takes
    there are only delayed ones, so that works without delay run in the order
    they were listed; every work that was listed has been run once or is
    listed; and for a schedulable work the semaphore is up, or about to be, or
    the worker is looking for it.  Unless a producer that made [work_count] 1 has
    not locked [empty_semaphore] yet, a [workqueue_wait_empty] that gets through
    sees the queue without a work listed, about to be listed or run; and when
    there is none it gets through, or another caller or the worker is about to
    unlock. *)
Theorem worker_always_finds_work wq0 wq :
  workqueue_create true true true = Some wq0 -> steps wq0 wq ->
  workqueue_thread wq <> Fault /\ worker wq <> Counting None /\
  (forall i last w, worker wq = AtNode i last -> wlist wq !! i = Some w -> is_schedulable w = true ->
     Forall (fun w => delayed w = true) (take i (wlist wq))) /\
  executed wq ++ (work_id <$> wlist wq) ≡ₚ added wq /\
  (forall w, w ∈ wlist wq -> is_schedulable w = true ->
     semaphore wq <> 0 \/ AtUnlock ∈ producers wq \/ worker wq = Scanning \/ exists i last, worker wq = AtNode i last) /\
  ((forall w, AtLock w ∉ producers wq) -> workqueue_wait_empty wq <> None -> no_work wq) /\
  (no_work wq -> workqueue_wait_empty wq <> None \/ waiters wq <> 0%nat \/ worker wq = Emptying).
Proof.
  intros [= <-] Hs. pose proof (inv_steps _ _ inv_create Hs) as Hi. clear Hs. split_and!.
  - unfold workqueue_thread. pose proof (i_worker _ Hi) as Hw. unfold worker_ok in Hw.
    destruct (worker wq) as [| |i last| | |]; try done.
    destruct Hw as ((j & w & Hij & Hj & _) & _). destruct (lookup_lt_is_Some_2 (wlist wq) i) as [x ->]; [|done].
    apply lookup_lt_Some in Hj. lia.
  - pose proof (i_worker _ Hi) as Hw. unfold worker_ok in Hw. intros E. by rewrite E in Hw.
  - intros i last w Ew Hw Hsch. pose proof (i_worker _ Hi) as Hok. unfold worker_ok in Hok. rewrite Ew in Hok. apply Hok.
  - apply (i_trace _ Hi).
  - intros w [i Hw]%list_elem_of_lookup Hsch. pose proof (i_ready _ Hi) as Hr.
    pose proof (count_if_pos is_schedulable (wlist wq) i w Hw Hsch) as Hpos. unfold ready in Hr. unfold claim in Hr.
    destruct (decide (semaphore wq = 0)) as [Ez|]; [|by left]. right. rewrite Ez in Hr.
    destruct (worker wq) as [| |n last| | |]; eauto; left;
      (destruct (count_if_exists is_unlock (producers wq)) as (k & p & Hk & Hp); [unfold number in Hr; lia|]);
      (destruct p; try done; by eapply list_elem_of_lookup_2).
  - intros Hl Hwait. apply (no_work_iff wq Hi). unfold workqueue_wait_empty in Hwait. pose proof (i_empty _ Hi) as He.
    pose proof (i_empty_nonneg _ Hi). pose proof (holding_range wq). case_bool_decide as Hz; [done|].
    rewrite (number_none is_lock wq) in He by (intros [w|w|w|id|] Hin; try done; by destruct (Hl w)).
    case_bool_decide; [done|lia].
  - intros Hn. pose proof (proj1 (no_work_iff wq Hi) Hn) as Hz. pose proof (i_empty _ Hi) as He.
    rewrite bool_decide_eq_true_2 in He by done. pose proof (number_nonneg is_lock wq).
    unfold workqueue_wait_empty. case_bool_decide as Hz2; [right|by left]. rewrite Hz2 in He.
    destruct (decide (waiters wq = 0%nat)) as [Ew|]; [right|by left]. unfold emptying in He. rewrite Ew in He.
    destruct (worker wq); (done || lia).
Qed.

(** ** Concrete runs *)

(** One move of a participant: a producer starts ([new]), the [i]-th producer, the
    watchdog of the [i]-th work, the worker, or a caller of [workqueue_wait_empty]
    go on. *)
Inductive move := New (id : nat) (delay : Z) | Produce (i : nat) | Expire (i : nat) | Work | Wait | WaitDone.

Definition do_move (wq : workqueue) (m : move) : option workqueue :=
  match m with
  | New id delay => match workqueue_schedule true true id delay with
      | Ret (Some w) => if bool_decide (id ∈ live_ids wq) then None else Some (set_producers wq (producers wq ++ [AtInc w]))
      | _ => None
      end
  | Produce i => p ← producers wq !! i;
      if bool_decide (work_count wq < 2 ^ 32 - 1) then
        '(wq', p') ← schedule_next wq p; Some (set_producers wq' (take i (producers wq) ++ option_list p' ++ drop (S i) (producers wq)))
      else None
  | Expire i => w ← wlist wq !! i; if armed w then Some (workqueue_delay_timeout wq i) else None
  | Work => match workqueue_thread wq with Ret r => r | _ => None end
  | Wait => workqueue_wait_empty wq
  | WaitDone => if bool_decide (waiters wq = 0%nat) then None else Some (wait_empty_unlock wq)
  end.

Fixpoint do_moves (wq : workqueue) (ms : list move) : option workqueue :=
  match ms with [] => Some wq | m :: ms => wq ← do_move wq m; do_moves wq ms end.

Lemma do_move_step wq m wq' : do_move wq m = Some wq' -> step wq wq'.
Proof.
  destruct m as [id delay|i|i| | |]; cbn [do_move].
  - cbn [workqueue_schedule negb]. case_bool_decide as Hid; [done|]. intros [= <-]. by eapply step_schedule.
  - intros (p & Hp & E)%bind_Some. case_bool_decide as Hb; [|done].
    apply bind_Some in E as ([wq1 p'] & E & [= <-]). eapply step_producer; [|done|exact E].
    by rewrite take_drop_middle.
  - intros (w & Hw & E)%bind_Some. destruct (armed w) eqn:Ha; [|done]. injection E as <-. by eapply step_timeout.
  - destruct (workqueue_thread wq) as [r| |] eqn:E; [|done..]. intros ->. by apply step_worker.
  - apply step_wait.
  - case_bool_decide; [done|]. intros [= <-]. by apply step_wait_done.
Qed.

Lemma do_moves_steps ms wq wq' : do_moves wq ms = Some wq' -> steps wq wq'.
Proof.
  revert wq. induction ms as [|m ms IH]; intros wq; simpl; [intros [= <-]; done|].
  intros (wq1 & E & Hs)%bind_Some. eapply rtc_l; [by eapply do_move_step|by apply IH].
Qed.

(** Works 5 (delayed) and 6 listed by two producers that alternate; the worker is
    at the first node when the timer of 5 fires. *)
Definition scanning : workqueue :=
  mk_wq [mk_work 5 true false true; mk_work 6 true false false] 0 0 2 (AtNode 0 false) [AtUnlock] 0 [] [5; 6]%nat.

Lemma scanning_reached : steps created scanning.
Proof.
  apply (do_moves_steps [New 5 30; New 6 0; Produce 0; Produce 0; Produce 1; Produce 0; Produce 0; Produce 0; Produce 0; Work; Work; Expire 0]).
  vm_compute. reflexivity.
Qed.

Lemma worker_always_finds_work_witness :
  worker scanning <> Counting None /\ executed scanning ++ (work_id <$> wlist scanning) ≡ₚ added scanning /\
  (forall w, w ∈ wlist scanning -> is_schedulable w = true ->
     semaphore scanning <> 0 \/ AtUnlock ∈ producers scanning \/ worker scanning = Scanning \/
     exists i last, worker scanning = AtNode i last) /\
  match workqueue_thread scanning with Ret (Some wq') => executed wq' = [5]%nat | _ => False end.
Proof.
  destruct (worker_always_finds_work created scanning eq_refl scanning_reached) as (_ & Hn & _ & Ht & Hs & _).
  split; [exact Hn|]. split; [exact Ht|]. split; [exact Hs|]. reflexivity.
Defined.

(** A defect: a producer that made the count 1 is interrupted before it locks
    [empty_semaphore]; another lists work 6, which the worker is running when
    [workqueue_wait_empty] gets through. *)
Definition half_locked : workqueue :=
  mk_wq [] 0 1 2 (Running (mk_work 6 true false false)) [AtLock (mk_work 5 true false false)] 0 [6]%nat [6]%nat.

Example empty_seen_while_running : steps created half_locked /\ workqueue_wait_empty half_locked <> None.
Proof.
  split; [|done].
  apply (do_moves_steps [New 5 0; New 6 0; Produce 0; Produce 1; Produce 1; Produce 1; Work; Work; Work]).
  vm_compute. reflexivity.
Qed.

(** Without memory for its watchdog, scheduling a work faults. *)
Example schedule_without_watchdog id delay : workqueue_schedule true false id delay = Fault.
Proof. done. Qed.

(** A defect: a queue with a delayed work is destroyed, and the watchdog of the
    work goes on running in freed memory. *)
Lemma destroy_leaves_timers wq r i w : workqueue_destroy wq true = Some r ->
  wlist wq !! i = Some w -> late_timeout r i = Fault <-> armed w = true.
Proof. intros [= <-] Hw. unfold late_timeout. simpl. rewrite Hw. by destruct (armed w). Qed.

Example destroyed_timer_faults :
  exists wq r, steps created wq /\ workqueue_destroy wq true = Some r /\ late_timeout r 0 = Fault.
Proof.
  exists (mk_wq [mk_work 5 false true true] 0 0 1 Waiting [] 0 [] [5]%nat). eexists. split; [|split; reflexivity].
  apply (do_moves_steps [New 5 30; Produce 0; Produce 0; Produce 0; Produce 0]). vm_compute. reflexivity.
Qed.

End Workqueue.
