(* ===== verification/PathStr.v ===== *)
(** Path strings: [adirname] and [abasename] of [src/lib/string.c], and what a
    path means, its list of components. *)
From stdpp Require Import strings.
From S2P Require Import Prelude.

Module PathStr.

(** Strings without the terminating NUL. *)
Abbreviation cstring := (list Ascii.ascii).

Definition slash : Ascii.ascii := Ascii.Ascii true true true true false true false false.
Definition dot : Ascii.ascii := Ascii.Ascii false true true true false true false false.
Definition is_slash (c : Ascii.ascii) : bool := bool_decide (c = slash).

Fixpoint skip_while (P : Ascii.ascii -> bool) (s : cstring) : cstring :=
  match s with
  | [] => []
  | c :: s' => if P c then skip_while P s' else s
  end.

Fixpoint take_while (P : Ascii.ascii -> bool) (s : cstring) : cstring :=
  match s with
  | [] => []
  | c :: s' => if P c then c :: take_while P s' else []
  end.

(** [astrcpy], given whether [kmalloc] serves the copy ([strcpy] to NULL faults). *)
Definition astrcpy (alloc : bool) (str : cstring) : outcome cstring := if alloc then Ret str else Fault.

(** [path[0..i]] after the first loop, reversed: the trailing slashes skipped. *)
Definition strip_end (path : cstring) : cstring := skip_while is_slash (reverse path).
(** [path[0..i]] after the second loop, reversed: up to the last slash left. *)
Definition upto_slash (rev : cstring) : cstring := skip_while (fun c => negb (is_slash c)) rev.

(** NULL is [None]. *)
Definition adirname (alloc : bool) (path : cstring) : outcome (option cstring) :=
  match path with
  | [] => Ret None
  | _ =>
      match strip_end path with
      | [] => s ← astrcpy alloc [slash]; Ret (Some s)
      | a =>
          match upto_slash a with
          | [] => s ← astrcpy alloc [dot]; Ret (Some s)
          | [_] => s ← astrcpy alloc [slash]; Ret (Some s)
          | b => Ret (if alloc then Some (take (length b - 1) path) else None)
          end
      end
  end.

Definition abasename (alloc : bool) (path : cstring) : outcome (option cstring) :=
  match path with
  | [] => Ret None
  | _ =>
      match strip_end path with
      | [] => s ← astrcpy alloc [slash]; Ret (Some s)
      | a =>
          let i := length a in
          let j := length (upto_slash a) in
          Ret (if alloc then Some (take (i - j) (drop j path)) else None)
      end
  end.

(** ** Components *)

(** The non-empty runs of characters between slashes; [cur] is the run so far,
    reversed. *)
Fixpoint split_path (s cur : cstring) : list cstring :=
  match s with
  | [] => match cur with [] => [] | _ => [reverse cur] end
  | c :: s =>
      if is_slash c then match cur with [] => split_path s [] | _ => reverse cur :: split_path s [] end
      else split_path s (c :: cur)
  end.
Definition components (s : cstring) : list cstring := split_path s [].

Definition no_slash (s : cstring) : Prop := Forall (fun c => is_slash c = false) s.
Definition all_slash (s : cstring) : Prop := Forall (fun c => is_slash c = true) s.

Lemma split_cur s cur : no_slash s -> split_path s cur = match reverse cur ++ s with [] => [] | l => [l] end.
Proof.
  revert cur. induction s as [|c s IH]; intros cur Hs; simpl.
  - rewrite app_nil_r. destruct cur as [|d cur]; [done|]. rewrite reverse_cons. by destruct (reverse cur).
  - apply Forall_cons in Hs as [-> Hs]. rewrite IH by done. by rewrite reverse_cons, <- app_assoc.
Qed.

Lemma split_app_slash s1 c s2 cur : is_slash c = true ->
  split_path (s1 ++ c :: s2) cur = split_path s1 cur ++ components s2.
Proof.
  intros Hc. revert cur. induction s1 as [|d s1 IH]; intros cur; simpl.
  - rewrite Hc. by destruct cur.
  - destruct (is_slash d); [|apply IH]. destruct cur; [apply IH|]. simpl. by rewrite IH.
Qed.

Lemma components_slash_end s c : is_slash c = true -> components (s ++ [c]) = components s.
Proof. intros Hc. unfold components. rewrite split_app_slash by done. simpl. by rewrite app_nil_r. Qed.

Lemma components_all_slash_end s t : all_slash t -> components (s ++ t) = components s.
Proof.
  induction t as [|c t IH] using rev_ind; intros Ht; [by rewrite app_nil_r|].
  apply Forall_app in Ht as [Ht Hc]. apply Forall_cons in Hc as [Hc _].
  rewrite app_assoc, components_slash_end by done. by apply IH.
Qed.

Lemma skip_while_split P s : exists l, s = l ++ skip_while P s /\ Forall (fun c => P c = true) l /\
  match skip_while P s with [] => True | c :: _ => P c = false end.
Proof.
  induction s as [|c s IH]; simpl; [by exists []|]. destruct (P c) eqn:E; [|by exists []; rewrite E].
  destruct IH as (l & Hl & Hall & Hh). exists (c :: l). split; [simpl; congruence|]. split; [by constructor|done].
Qed.

(** A path is: what lies before its last component, a slash or nothing, the
    component, and slashes. *)
Lemma path_split path : strip_end path <> [] ->
  exists t, path = reverse (strip_end path) ++ t /\ all_slash t /\
  exists base, base <> [] /\ no_slash base /\ reverse (strip_end path) = reverse (upto_slash (strip_end path)) ++ base.
Proof.
  intros Hne. unfold strip_end in *. destruct (skip_while_split is_slash (reverse path)) as (l & El & Hall & Hh).
  set (a := skip_while is_slash (reverse path)) in *. exists (reverse l). split; [|split].
  - rewrite <- reverse_app, <- El. by rewrite reverse_involutive.
  - unfold all_slash. by apply Forall_reverse.
  - unfold upto_slash. destruct (skip_while_split (fun c => negb (is_slash c)) a) as (l2 & El2 & Hall2 & Hh2).
    exists (reverse l2). split; [|split].
    + intros E. apply (f_equal reverse) in E. rewrite reverse_involutive in E. simpl in E. subst l2. simpl in El2.
      rewrite <- El2 in Hh2. destruct a as [|c a]; [done|]. rewrite Hh in Hh2. done.
    + unfold no_slash. apply Forall_reverse. eapply Forall_impl; [exact Hall2|]. intros c. simpl. by destruct (is_slash c).
    + rewrite El2 at 1. by rewrite reverse_app.
Qed.

Definition absolute (s : cstring) : bool := match s with c :: _ => is_slash c | [] => false end.

Lemma components_base base t : base <> [] -> no_slash base -> all_slash t -> components (base ++ t) = [base].
Proof.
  intros Hne Hb Ht. rewrite components_all_slash_end by done. unfold components. rewrite split_cur by done.
  simpl. by destruct base.
Qed.

Lemma components_one base : base <> [] -> no_slash base -> components base = [base].
Proof. intros Hne Hb. unfold components. rewrite split_cur by done. by destruct base. Qed.

Lemma upto_slash_head a c b : upto_slash a = c :: b -> is_slash c = true.
Proof.
  intros E. unfold upto_slash in E. destruct (skip_while_split (fun c => negb (is_slash c)) a) as (_ & _ & _ & Hh).
  rewrite E in Hh. by destruct (is_slash c).
Qed.

Lemma abasename_eq path : strip_end path <> [] -> abasename true path =
  Ret (Some (take (length (strip_end path) - length (upto_slash (strip_end path)))
    (drop (length (upto_slash (strip_end path))) path))).
Proof. intros Hne. unfold abasename. destruct path as [|c p]; [done|]. by destruct (strip_end (c :: p)). Qed.

Lemma adirname_eq path : strip_end path <> [] -> adirname true path =
  Ret (Some match upto_slash (strip_end path) with
            | [] => [dot]
            | [_] => [slash]
            | b => take (length b - 1) path
            end).
Proof.
  intros Hne. unfold adirname. destruct path as [|c p]; [done|]. destruct (strip_end (c :: p)); [done|].
  by destruct (upto_slash _) as [|? [|? ?]].
Qed.

Lemma dirname_basename_parts path :
  strip_end path <> [] ->
  exists dir base, adirname true path = Ret (Some dir) /\ abasename true path = Ret (Some base) /\
    base <> [] /\ no_slash base /\
    ((dir = [dot] /\ components path = [base] /\ absolute path = false) \/
     (components path = components dir ++ [base] /\ (absolute path = true -> absolute dir = true))).
Proof.
  intros Hne. destruct (path_split path Hne) as (t & Ep & Ht & base & Hb & Hns & Ea).
  assert (Hp : path <> []) by (intros ->; done).
  set (a := strip_end path) in *. set (b := upto_slash a) in *.
  assert (El : length a = length b + length base).
  { rewrite <- (length_reverse a), Ea, length_app, length_reverse. done. }
  rewrite Ea in Ep.
  assert (Hbase : abasename true path = Ret (Some base)).
  { rewrite abasename_eq by done. fold a b. rewrite El. do 2 f_equal. rewrite Ep, <- app_assoc.
    rewrite (drop_app_length' (reverse b)) by (by rewrite length_reverse).
    replace (length b + length base - length b) with (length base) by lia. by rewrite take_app_length. }
  assert (Hdir : adirname true path = Ret (Some match b with [] => [dot] | [_] => [slash] | _ :: b' => reverse b' end)).
  { rewrite adirname_eq by done. fold a b. destruct b as [|c [|d b']] eqn:Eb; [done|done|]. do 2 f_equal.
    rewrite Ep, (reverse_cons (d :: b') c), <- !app_assoc.
    replace (length (c :: d :: b') - 1) with (length (reverse (d :: b'))) by (rewrite length_reverse; simpl; lia).
    by rewrite take_app_length. }
  eexists _, base. split; [exact Hdir|]. split; [exact Hbase|]. split; [done|]. split; [done|].
  destruct b as [|c b'] eqn:Eb.
  - left. split; [done|]. rewrite Ep. simpl. split; [by apply components_base|].
    destruct base as [|d base]; [done|]. simpl. by apply Forall_cons in Hns as [? _].
  - right. assert (Hc : is_slash c = true) by (by apply (upto_slash_head a c b')).
    rewrite Ep, reverse_cons, <- !app_assoc. simpl. unfold components at 1.
    rewrite split_app_slash by done. fold (components (reverse b')). rewrite components_base by done.
    destruct b' as [|d b'']; [split; done|]. split; [done|].
    destruct (reverse (d :: b'')) eqn:Er; [|done].
    apply (f_equal length) in Er. rewrite length_reverse in Er. done.
Qed.

(** For every path with a component, [abasename] is its last component and
    [adirname] a path of the others: ["."] when there are none and the path
    is relative, absolute exactly when the path is.  So the two halves
    [sys_mkdir] and [sys_mknod] work on name the same node as the whole. *)
Theorem dirname_basename path :
  strip_end path <> [] ->
  exists dir base, adirname true path = Ret (Some dir) /\ abasename true path = Ret (Some base) /\
    base <> [] /\ no_slash base /\
    ((dir = [dot] /\ components path = [base] /\ absolute path = false) \/
     (components path = components dir ++ [base] /\ (absolute path = true -> absolute dir = true))).
Proof. apply dirname_basename_parts. Qed.

Definition str (s : string) : cstring := String.list_ascii_of_string s.

Lemma dirname_basename_witness :
  adirname true (str "/dev//tty0/") = Ret (Some (str "/dev/")) /\
  exists dir base, adirname true (str "/dev//tty0/") = Ret (Some dir) /\
    abasename true (str "/dev//tty0/") = Ret (Some base) /\ base <> [].
Proof.
  split; [reflexivity|].
  destruct (dirname_basename (str "/dev//tty0/")) as (dir & base & E1 & E2 & Hb & _); [vm_compute; discriminate|].
  by exists dir, base.
Defined.

End PathStr.
