(* ===== verification/Fs.v ===== *)
(** The file system of [src/fs]: inodes ([inode.c]), the in-memory file system
    ([ramfs.c]) and its device-node use ([devfs.c]), path walking, mounting and
    the system calls on paths and descriptors ([fs.c], [fd.c]).

    Pointers are numbers, NULL is 0.  The directory and block tables only grow:
    they are the finite maps that [Hashtable] shows such tables to be.  The
    descriptor table, whose entries come and go, is used through the
    [Table] interface. *)
From stdpp Require Import strings.
From S2P Require Import Prelude.
From S2P Require Import Table.
From S2P Require Import PathStr.
From S2P Require Import Hashtable.
#[local] Open Scope Z_scope.

Module Fs.
Import PathStr.

(** ** Constants (newlib's [sys/stat.h] and [fcntl.h]) *)

Definition S_IFMT : Z := 0xF000.
Definition S_IFCHR : Z := 0x2000.
Definition S_IFDIR : Z := 0x4000.
Definition S_IFBLK : Z := 0x6000.
Definition S_IFREG : Z := 0x8000.
Definition O_WRONLY : Z := 0x1.
Definition O_CREAT : Z := 0x200.
Definition O_TRUNC : Z := 0x400.
Definition O_EXCL : Z := 0x800.
Definition O_CLOEXEC : Z := 0x80000.
Definition SEEK_SET : Z := 0.
Definition SEEK_CUR : Z := 1.
Definition TASK_FD_MAX : nat := 20.
(** CONFIG_RAMFS_DATA_BLOCK_SIZE *)
Definition RAMFS_DATA_BLOCK_SIZE : Z := 256.

(** ** Data *)

(** The static [struct fs]s. *)
Inductive fs := ramfs_fs | devfs_fs | procfs_fs.
#[export] Instance fs_eq_dec : EqDecision fs.
Proof. solve_decision. Defined.

(** [priv] is the [inode] field: the file system's own structure. *)
Record inode := mk_inode {
  i_fs : option fs;
  priv : Z;
  iflags : Z;
  dev : Z;
  refcount : Z;
  mounted_inode : Z;
  dlock : bool;            (* is the mutex held? *)
}.

(** The [inode] member of a [ramfs_inode] is kept under the same address. *)
Record ramfs_inode := mk_ram {
  name : cstring;
  files : option (gmap cstring Z);     (* NULL if its allocation failed *)
  blocks : option (gmap Z (list Z));
}.

Record file := mk_file { f_inode : Z; fflags : Z; offset : Z }.
Record fd := mk_fd { fdflags : Z; fd_file : Z }.

(** [budget]: how many more allocations succeed; [next]: a fresh address. *)
Record world (T : Type) := mk_world {
  inodes : gmap Z inode;
  rams : gmap Z ramfs_inode;
  procfs_files : option (gmap cstring Z);
  fs_table : gmap cstring fs;
  root : Z;
  open_files : gmap Z file;
  fds : gmap Z fd;
  task_fd : T;
  next : Z;
  budget : nat;
}.
Arguments mk_world {T}.
Arguments inodes {T}. Arguments rams {T}. Arguments procfs_files {T}. Arguments fs_table {T}.
Arguments root {T}. Arguments open_files {T}. Arguments fds {T}. Arguments task_fd {T}.
Arguments next {T}. Arguments budget {T}.

(** The static [devfs_root] and [procfs_root.inode]. *)
Definition devfs_root : Z := 4.
Definition procfs_root : Z := 8.

(** ** The state and error monad of the C code *)

Definition FS (T A : Type) : Type := world T -> outcome (A * world T).
#[export] Instance fs_ret T : MRet (FS T) := fun A a w => Ret (a, w).
#[export] Instance fs_bind T : MBind (FS T) := fun A B f m w =>
  match m w with Ret (a, w) => f a w | Fault => Fault | Hang => Hang end.
Definition lift {T A} (o : outcome A) : FS T A := fun w =>
  match o with Ret a => Ret (a, w) | Fault => Fault | Hang => Hang end.
Definition get {T A} (f : world T -> A) : FS T A := fun w => Ret (f w, w).
Definition upd {T} (f : world T -> world T) : FS T unit := fun w => Ret (tt, f w).
Definition fault {T A} : FS T A := fun w => Fault.
Definition hang {T A} : FS T A := fun w => Hang.

Section Updates.
Context {T : Type}.
Definition set_inodes (v : gmap Z inode) (w : world T) : world T :=
  mk_world v (rams w) (procfs_files w) (fs_table w) (root w) (open_files w) (fds w) (task_fd w) (next w) (budget w).
Definition set_rams (v : gmap Z ramfs_inode) (w : world T) : world T :=
  mk_world (inodes w) v (procfs_files w) (fs_table w) (root w) (open_files w) (fds w) (task_fd w) (next w) (budget w).
Definition set_procfs (v : option (gmap cstring Z)) (w : world T) : world T :=
  mk_world (inodes w) (rams w) v (fs_table w) (root w) (open_files w) (fds w) (task_fd w) (next w) (budget w).
Definition set_fs_table (v : gmap cstring fs) (w : world T) : world T :=
  mk_world (inodes w) (rams w) (procfs_files w) v (root w) (open_files w) (fds w) (task_fd w) (next w) (budget w).
Definition set_root (v : Z) (w : world T) : world T :=
  mk_world (inodes w) (rams w) (procfs_files w) (fs_table w) v (open_files w) (fds w) (task_fd w) (next w) (budget w).
Definition set_files (v : gmap Z file) (w : world T) : world T :=
  mk_world (inodes w) (rams w) (procfs_files w) (fs_table w) (root w) v (fds w) (task_fd w) (next w) (budget w).
Definition set_fds (v : gmap Z fd) (w : world T) : world T :=
  mk_world (inodes w) (rams w) (procfs_files w) (fs_table w) (root w) (open_files w) v (task_fd w) (next w) (budget w).
Definition set_task_fd (v : T) (w : world T) : world T :=
  mk_world (inodes w) (rams w) (procfs_files w) (fs_table w) (root w) (open_files w) (fds w) v (next w) (budget w).
Definition set_alloc (n : Z) (b : nat) (w : world T) : world T :=
  mk_world (inodes w) (rams w) (procfs_files w) (fs_table w) (root w) (open_files w) (fds w) (task_fd w) n b.

Definition get_inode (p : Z) : FS T inode := fun w => lift (deref (inodes w !! p)) w.
Definition put_inode (p : Z) (i : inode) : FS T unit := upd (fun w => set_inodes (<[p := i]> (inodes w)) w).
Definition get_ram (p : Z) : FS T ramfs_inode := fun w => lift (deref (rams w !! p)) w.
Definition put_ram (p : Z) (r : ramfs_inode) : FS T unit := upd (fun w => set_rams (<[p := r]> (rams w)) w).
Definition get_file (p : Z) : FS T file := fun w => lift (deref (open_files w !! p)) w.
Definition put_file (p : Z) (f : file) : FS T unit := upd (fun w => set_files (<[p := f]> (open_files w)) w).

(** A fresh address, or NULL. *)
Definition kmalloc : FS T Z := fun w =>
  match budget w with
  | O => Ret (0, w)
  | S b => Ret (next w, set_alloc (next w + 4) b w)
  end.
(** Memory only some part of the code looks at is not tracked after [kfree]. *)
Definition can_alloc : FS T bool := p ← kmalloc; mret (bool_decide (p <> 0)).

(** ** [inode.c] and [fs.h] *)

Definition is_directory (i : inode) : bool := bool_decide (Z.land (iflags i) S_IFDIR <> 0).
Definition is_regular_file (i : inode) : bool := bool_decide (Z.land (iflags i) S_IFREG <> 0).
Definition is_char_device (i : inode) : bool := bool_decide (Z.land (iflags i) S_IFCHR <> 0).

Definition inode_zero : inode := mk_inode None 0 0 0 1 0 false.
Definition inode_init (p : Z) : FS T unit := put_inode p inode_zero.

Definition inode_alloc : FS T Z :=
  p ← kmalloc;
  if bool_decide (p = 0) then mret 0 else _ ← inode_init p; mret p.

Definition with_refcount (i : inode) (n : Z) : inode :=
  mk_inode (i_fs i) (priv i) (iflags i) (dev i) n (mounted_inode i) (dlock i).
Definition inode_ref (p : Z) : FS T unit :=
  if bool_decide (p = 0) then mret tt else i ← get_inode p; put_inode p (with_refcount i (wrap32 (refcount i + 1))).
Definition inode_unref (p : Z) : FS T unit :=
  if bool_decide (p = 0) then mret tt else
  i ← get_inode p;
  let n := wrap32 (refcount i - 1) in
  if bool_decide (n <> 0) then put_inode p (with_refcount i n)
  else upd (fun w => set_inodes (delete p (inodes w)) w).

Definition with_fs (i : inode) (f : option fs) (fl : Z) (d : Z) : inode :=
  mk_inode f (priv i) fl d (refcount i) (mounted_inode i) (dlock i).
Definition with_priv (i : inode) (p : Z) : inode :=
  mk_inode (i_fs i) p (iflags i) (dev i) (refcount i) (mounted_inode i) (dlock i).

(** ** [ramfs.c] *)

(** The two [hashtable_create]s are unchecked; each makes two allocations. *)
Definition create_table {A} (empty : A) : FS T (option A) :=
  a ← can_alloc; b ← (if (a : bool) then can_alloc else mret false);
  mret (if (b : bool) then Some empty else None).

Definition ramfs_create_inode (nm : cstring) : FS T Z :=
  p ← kmalloc;
  if bool_decide (p = 0) then mret 0 else
  ok ← can_alloc;
  if negb ok then mret 0 else
  _ ← inode_init p;
  i ← get_inode p;
  _ ← put_inode p (with_priv i p);
  bl ← create_table ∅;
  fl ← create_table ∅;
  _ ← put_ram p (mk_ram nm fl bl);
  mret p.

(** [hashtable_get] and [hashtable_add] on a table pointer that may be NULL. *)
Definition tget {K V} `{Countable K} (t : option (gmap K V)) (k : K) : FS T (option V) :=
  m ← lift (deref t); mret (m !! k).
Definition tadd {K V} `{Countable K} (t : option (gmap K V)) (k : K) (v : V) : FS T (option (gmap K V)) :=
  m ← lift (deref t); mret (Some (<[k := v]> m)).

Definition add_entry (dir : Z) (nm : cstring) (p : Z) : FS T unit :=
  r ← get_ram dir;
  t ← tadd (files r) nm p;
  put_ram dir (mk_ram (name r) t (blocks r)).

Definition ramfs_mkdir (cwd : Z) (nm : cstring) (mode : Z) : FS T Z :=
  c ← get_inode cwd;
  if negb (is_directory c) then mret (- EINVAL) else
  r ← get_ram (priv c);
  e ← tget (files r) nm;
  if bool_decide (e <> None) then mret (- EEXIST) else
  p ← ramfs_create_inode nm;
  if bool_decide (p = 0) then mret (- ENOMEM) else
  i ← get_inode p;
  _ ← put_inode p (with_fs i (i_fs c) S_IFDIR 0);
  _ ← add_entry (priv c) nm p;
  mret 0.

Definition ramfs_mount (cwd : Z) : FS T Z :=
  c ← get_inode cwd;
  if negb (is_directory c) then mret (- EINVAL) else
  p ← ramfs_create_inode [dot];
  _ ← put_inode cwd (with_priv c p);
  if bool_decide (p = 0) then mret (- ENOMEM) else mret 0.

Definition ramfs_lookup (cwd : Z) (nm : cstring) : FS T Z :=
  c ← get_inode cwd;
  r ← get_ram (priv c);
  e ← tget (files r) nm;
  mret (default 0 e).

Definition ramfs_mknod (cwd : Z) (nm : cstring) (mode dv : Z) : FS T Z :=
  c ← get_inode cwd;
  if negb (is_directory c) then mret (- EINVAL) else
  r ← get_ram (priv c);
  e ← tget (files r) nm;
  if bool_decide (e <> None) then mret (- EEXIST) else
  p ← ramfs_create_inode nm;
  if bool_decide (p = 0) then mret (- ENOMEM) else
  i ← get_inode p;
  let ty := Z.land mode S_IFMT in
  if bool_decide (ty = S_IFREG) || bool_decide (ty = S_IFCHR) || bool_decide (ty = S_IFBLK) then
    _ ← put_inode p (with_fs i (i_fs c) ty (if bool_decide (ty = S_IFCHR) then dv else 0));
    _ ← add_entry (priv c) nm p;
    mret 0
  else
    _ ← upd (fun w => set_inodes (delete p (inodes w)) (set_rams (delete p (rams w)) w));
    mret (- EINVAL).

Definition zero_block : list Z := replicate (Z.to_nat RAMFS_DATA_BLOCK_SIZE) 0.

(** [memcpy(dst, src, n)] on byte lists. *)
Definition memcpy (dst src : list Z) (n : nat) : list Z := take n src ++ skipn n dst.

(** A block of the file is there, or can be allocated. *)
Definition have_block (b : option (list Z)) : FS T bool :=
  match b with Some _ => mret true | None => can_alloc end.

(** The loop of [ramfs_write]; [off] is the offset in the first block.  Each
    round copies from the start of [buf] to the start of the block. *)
Fixpoint ramfs_write_loop (n : nat) (ino fp : Z) (buf : list Z) (block_id off count wcount : Z) : FS T Z :=
  if bool_decide (count = 0) then mret wcount else
  let transfer_size := Z.min (RAMFS_DATA_BLOCK_SIZE - off) count in
  r ← get_ram ino;
  b ← tget (blocks r) block_id;
  ok ← have_block b;
  if negb ok then mret (if bool_decide (wcount = 0) then - ENOSPC else wcount) else
  let data := memcpy (default zero_block b) buf (Z.to_nat transfer_size) in
  t ← tadd (blocks r) block_id data;
  _ ← put_ram ino (mk_ram (name r) (files r) t);
  f ← get_file fp;
  _ ← put_file fp (mk_file (f_inode f) (fflags f) (offset f + transfer_size));
  match n with
  | O => hang
  | S n => ramfs_write_loop n ino fp buf (block_id + 1) 0 (count - transfer_size) (wcount + transfer_size)
  end.

Definition ramfs_write (fp : Z) (buf : list Z) (count : Z) : FS T Z :=
  f ← get_file fp;
  if bool_decide (f_inode f = 0) then mret (- EINVAL) else
  i ← get_inode (f_inode f);
  if bool_decide (priv i = 0) then mret (- EINVAL) else
  ramfs_write_loop (Z.to_nat count) (priv i) fp buf
    (offset f / RAMFS_DATA_BLOCK_SIZE) (offset f mod RAMFS_DATA_BLOCK_SIZE) count 0.

(** The loop of [ramfs_read] returns the count and what [buf] holds at the end. *)
Fixpoint ramfs_read_loop (n : nat) (ino fp : Z) (buf : list Z) (block_id off count rcount : Z) : FS T (Z * list Z) :=
  if bool_decide (count = 0) then mret (rcount, buf) else
  let transfer_size := Z.min (RAMFS_DATA_BLOCK_SIZE - off) count in
  r ← get_ram ino;
  b ← tget (blocks r) block_id;
  let buf := memcpy buf (default zero_block b) (Z.to_nat transfer_size) in
  f ← get_file fp;
  _ ← put_file fp (mk_file (f_inode f) (fflags f) (offset f + transfer_size));
  match n with
  | O => hang
  | S n => ramfs_read_loop n ino fp buf (block_id + 1) 0 (count - transfer_size) (rcount + transfer_size)
  end.

Definition ramfs_read (fp : Z) (buf : list Z) (count : Z) : FS T (Z * list Z) :=
  f ← get_file fp;
  if bool_decide (f_inode f = 0) then mret (- EINVAL, buf) else
  i ← get_inode (f_inode f);
  if bool_decide (priv i = 0) then mret (- EINVAL, buf) else
  ramfs_read_loop (Z.to_nat count) (priv i) fp buf
    (offset f / RAMFS_DATA_BLOCK_SIZE) (offset f mod RAMFS_DATA_BLOCK_SIZE) count 0.

(** ** [devfs.c] and [procfs.c] *)

Definition devfs_init : FS T Z := ramfs_mount devfs_root.
Definition devfs_mknod (nm : cstring) (mode dv : Z) : FS T Z := ramfs_mknod devfs_root nm mode dv.

Definition devfs_mount (cwd : Z) : FS T Z :=
  c ← get_inode cwd;
  if negb (is_directory c) then mret (- EINVAL) else
  d ← get_inode devfs_root;
  _ ← put_inode cwd (with_priv c (priv d));
  mret 0.

Definition procfs_add_file (nm : cstring) (p : Z) : FS T Z :=
  if bool_decide (p = 0) then mret (- EINVAL) else
  t ← get procfs_files;
  t ← tadd t nm p;
  _ ← upd (set_procfs t);
  mret 0.

Definition procfs_mount (cwd : Z) : FS T Z :=
  c ← get_inode cwd;
  if negb (is_directory c) then mret (- EINVAL) else
  _ ← put_inode cwd (with_priv c procfs_root);
  mret 0.

(** [cwd->inode] points to the [inode] member of [procfs_root], one word inside
    the [struct procfs_directory] the code takes it for: the flags it tests
    are the [dev] field of that inode. *)
Definition procfs_lookup (cwd : Z) (nm : cstring) : FS T Z :=
  c ← get_inode cwd;
  d ← get_inode (priv c);
  if bool_decide (Z.land (dev d) S_IFDIR = 0) then mret 0 else fault.

(** ** The operations of a [struct fs]; [None] is a NULL function pointer *)

Definition op_mount (f : fs) : Z -> FS T Z :=
  match f with ramfs_fs => ramfs_mount | devfs_fs => devfs_mount | procfs_fs => procfs_mount end.
Definition op_mkdir (f : fs) : option (Z -> cstring -> Z -> FS T Z) :=
  match f with ramfs_fs | devfs_fs => Some ramfs_mkdir | procfs_fs => None end.
Definition op_mknod (f : fs) : option (Z -> cstring -> Z -> Z -> FS T Z) :=
  match f with ramfs_fs | devfs_fs => Some ramfs_mknod | procfs_fs => None end.
Definition op_lookup (f : fs) : Z -> cstring -> FS T Z :=
  match f with ramfs_fs | devfs_fs => ramfs_lookup | procfs_fs => procfs_lookup end.
Definition op_write (f : fs) : option (Z -> list Z -> Z -> FS T Z) :=
  match f with ramfs_fs | devfs_fs => Some ramfs_write | procfs_fs => None end.
(** [procfs_read] only checks its arguments and returns 0. *)
Definition procfs_read (fp : Z) (buf : list Z) (count : Z) : FS T (Z * list Z) :=
  f ← get_file fp;
  if bool_decide (f_inode f = 0) then mret (- EINVAL, buf) else
  i ← get_inode (f_inode f);
  if bool_decide (priv i = 0) then mret (- EINVAL, buf) else mret (0, buf).
Definition op_read (f : fs) : Z -> list Z -> Z -> FS T (Z * list Z) :=
  match f with ramfs_fs | devfs_fs => ramfs_read | procfs_fs => procfs_read end.

(** ** [fs.c]: walking *)

Definition fs_init : FS T unit :=
  _ ← upd (set_fs_table ∅);
  p ← inode_alloc;
  _ ← upd (set_root p);
  if bool_decide (p = 0) then mret tt else
  i ← get_inode p;
  put_inode p (with_fs i (i_fs i) S_IFDIR (dev i)).

Definition fs_register (nm : cstring) (f : fs) : FS T Z :=
  _ ← upd (fun w => set_fs_table (<[nm := f]> (fs_table w)) w); mret 0.

(** [cwd->fs->inode_ops.lookup(cwd, name)] *)
Definition lookup_in (cwd : Z) (nm : cstring) : FS T Z :=
  c ← get_inode cwd;
  f ← lift (deref (i_fs c));
  op_lookup f cwd nm.

(** [n] bounds the number of components. *)
Fixpoint fs_walk_n (n : nat) (cwd : Z) (pathname : cstring) : FS T Z :=
  if bool_decide (cwd = 0) then mret 0 else
  c ← get_inode cwd;
  if negb (is_directory c) then mret 0 else
  let rest := skip_while is_slash pathname in
  rt ← get root;
  let cwd := if bool_decide (length rest = length pathname) then cwd else rt in
  match rest with
  | [] => mret cwd
  | _ =>
      let comp := take_while (fun c => negb (is_slash c)) rest in
      let after := skip_while is_slash (skipn (length comp) rest) in
      match after with
      | [] => lookup_in cwd rest            (* the slashes at the end included *)
      | _ =>
          node ← lookup_in cwd comp;
          match n with
          | O => hang
          | S n => fs_walk_n n node after
          end
      end
  end.

Definition _fs_walk (cwd : Z) (pathname : cstring) : FS T Z := fs_walk_n (length pathname) cwd pathname.

Definition fs_walk (cwd : Z) (pathname : cstring) : FS T Z :=
  ok ← can_alloc;
  if negb ok then mret 0 else _fs_walk cwd pathname.

(** ** Mounting and making nodes *)

(** [target] is NULL for the root. *)
Definition sys_mount (target : option cstring) (filesystemtype : cstring) : FS T Z :=
  rt ← get root;
  if bool_decide (rt = 0) && bool_decide (target <> None) then mret (- EINVAL) else
  tbl ← get fs_table;
  match tbl !! filesystemtype with
  | None => mret (- ENODEV)
  | Some f =>
      cwd ← match target with Some t => fs_walk rt t | None => mret rt end;
      if bool_decide (cwd = 0) then mret (- ENOTDIR) else
      c ← get_inode cwd;
      if negb (is_directory c) then mret (- ENOTDIR) else
      if bool_decide (mounted_inode c <> 0) then mret (- EBUSY) else
      p ← inode_alloc;
      if bool_decide (p = 0) then mret (- ENOMEM) else
      _ ← put_inode p c;
      _ ← put_inode cwd (mk_inode (Some f) 0 S_IFDIR 0 1 p false);
      retval ← op_mount f cwd;
      if bool_decide (retval <> 0) then
        i ← get_inode cwd;
        saved ← get_inode (mounted_inode i);
        _ ← put_inode cwd saved;
        _ ← upd (fun w => set_inodes (delete (mounted_inode i) (inodes w)) w);
        mret retval
      else mret 0
  end.

Definition basename_of (pathname : cstring) : FS T (option cstring) := ok ← can_alloc; lift (abasename ok pathname).
Definition dirname_of (pathname : cstring) : FS T (option cstring) := ok ← can_alloc; lift (adirname ok pathname).

Definition sys_mkdir (pathname : option cstring) (mode : Z) : FS T Z :=
  match pathname with
  | None => mret (- EINVAL)
  | Some pathname =>
      nm ← basename_of pathname;
      path ← dirname_of pathname;
      rt ← get root;
      p ← (match path with Some path => _fs_walk rt path | None => mret 0 end);
      if bool_decide (p = 0) then mret (- ENOENT) else
      i ← get_inode p;
      match i_fs i with
      | None => mret (- EINVAL)
      | Some f =>
          match op_mkdir f with
          | None => mret (- EINVAL)
          | Some mkdir =>
              match nm with
              | None => mret (- EINVAL)   (* [lookup] finds no NULL name, [mkdir] refuses it *)
              | Some nm =>
                  e ← op_lookup f p nm;
                  if bool_decide (e <> 0) then mret (- EEXIST) else mkdir p nm mode
              end
          end
      end
  end.

Definition sys_mknod (pathname : option cstring) (mode dv : Z) : FS T Z :=
  match pathname with
  | None => mret (- EINVAL)
  | Some pathname =>
      nm ← basename_of pathname;
      match nm with
      | None => mret (- ENOMEM)
      | Some nm =>
          path ← dirname_of pathname;
          match path with
          | None => mret (- ENOMEM)
          | Some path =>
              rt ← get root;
              p ← fs_walk rt path;
              if bool_decide (p = 0) then mret (- ENOENT) else
              i ← get_inode p;
              match i_fs i with
              | None => mret (- EINVAL)
              | Some f => match op_mknod f with None => mret (- ENOSYS) | Some mknod => mknod p nm mode dv end
              end
          end
      end
  end.

End Updates.

(** ** Descriptors and the system calls on them ([fd.c], [fs.c]) *)

(** The operations of a character device; what a driver does with the file is
    its own affair.  [None] is a NULL function pointer. *)
Record dev_ops := mk_dev_ops {
  d_open : option Z;                              (* its return value *)
  d_close : bool;
  d_read : option (Z -> Z * list Z);
  d_write : option (list Z -> Z -> Z);
  d_ioctl : option (Z -> Z);
}.

#[export] Instance null_Z : Null Z := 0.

Section Descriptors.
Context {T : Type} `{TableOps Z Z T}.
(** [drivers/core.c]'s lookup of the device behind a device number. *)
Context (devnum_get_device : Z -> option dev_ops).

Definition fd_get (k : Z) : FS T Z := t ← get task_fd; lift (tbl_get t k).
Definition get_fd (p : Z) : FS T fd := fun w => lift (deref (fds w !! p)) w.
Definition put_fd (p : Z) (f : fd) : FS T unit := upd (fun w => set_fds (<[p := f]> (fds w)) w).

Definition to_fd (fdnum : Z) : FS T Z := if bool_decide (fdnum < 0) then mret 0 else fd_get fdnum.

(** The loop of [allocate_fdnum] from [i], [n] numbers left. *)
Fixpoint allocate_from (n : nat) (i : Z) : FS T Z :=
  match n with
  | O => mret (-1)
  | S n =>
      f ← fd_get i;
      if bool_decide (f <> 0) then allocate_from n (i + 1) else
      p ← kmalloc;
      if bool_decide (p = 0) then mret (- ENOMEM) else
      _ ← put_fd p (mk_fd 0 0);
      t ← get task_fd;
      t ← lift (tbl_add t i p);
      _ ← upd (set_task_fd t);
      mret i
  end.
Definition allocate_fdnum : FS T Z := allocate_from TASK_FD_MAX 0.

Definition with_dlock (i : inode) (b : bool) : inode :=
  mk_inode (i_fs i) (priv i) (iflags i) (dev i) (refcount i) (mounted_inode i) b.

Definition free_fdnum (fdnum : Z) : FS T Z :=
  p ← fd_get fdnum;
  if bool_decide (p = 0) then mret (- EBADF) else
  f ← get_fd p;
  fl ← get_file (fd_file f);
  i ← get_inode (f_inode fl);
  _ ← (if is_directory i then put_inode (f_inode fl) (with_dlock i false) else mret tt);
  t ← get task_fd;
  t ← lift (tbl_remove t fdnum);
  _ ← upd (set_task_fd t);
  _ ← upd (fun w => set_files (delete (fd_file f) (open_files w)) w);
  _ ← upd (fun w => set_fds (delete p (fds w)) w);
  mret 0.

(** [Hang]: the caller sleeps on the directory's lock. *)
Definition sys_open (pathname : option cstring) (flags mode : Z) : FS T Z :=
  match pathname with
  | None => mret (- EINVAL)
  | Some path =>
      rt ← get root;
      p ← fs_walk rt path;
      if bool_decide (p <> 0) && bool_decide (Z.land flags O_CREAT <> 0) && bool_decide (Z.land flags O_EXCL <> 0)
      then mret (- EEXIST) else
      retval ← (if bool_decide (p = 0) && bool_decide (Z.land flags O_CREAT <> 0)
                then sys_mknod (Some path) (Z.lor (Z.land mode S_IFMT) S_IFREG) 0 else mret 0);
      if bool_decide (retval <> 0) then mret retval else
      p ← fs_walk rt path;
      if bool_decide (p = 0) then mret (- ENOMEM) else
      fdnum ← allocate_fdnum;
      if bool_decide (fdnum < 0) then mret fdnum else
      fdp ← fd_get fdnum;
      f ← get_fd fdp;
      let cloexec := if bool_decide (Z.land flags O_CLOEXEC <> 0) then Z.lor (fdflags f) O_CLOEXEC else fdflags f in
      fp ← kmalloc;
      _ ← put_fd fdp (mk_fd cloexec fp);
      if bool_decide (fp = 0) then
        _ ← free_fdnum fdnum; mret (- ENOMEM)
      else
        _ ← put_file fp (mk_file p (Z.ldiff flags O_CLOEXEC) 0);
        i ← get_inode p;
        _ ← (if is_directory i then if dlock i then hang else put_inode p (with_dlock i true) else mret tt);
        if is_char_device i then
          d ← lift (deref (devnum_get_device (dev i)));
          let retval := default 0 (d_open d) in
          if bool_decide (retval <> 0) then _ ← free_fdnum fdnum; mret retval else mret fdnum
        else mret fdnum
  end.

Definition sys_creat (pathname : option cstring) (mode : Z) : FS T Z :=
  sys_open pathname (Z.lor O_CREAT (Z.lor O_WRONLY O_TRUNC)) 0.

Definition sys_close (fdnum : Z) : FS T Z :=
  p ← to_fd fdnum;
  if bool_decide (p = 0) then mret (- EBADF) else
  f ← get_fd p;
  fl ← get_file (fd_file f);
  i ← get_inode (f_inode fl);
  _ ← (if is_char_device i then d ← lift (deref (devnum_get_device (dev i))); mret tt else mret tt);
  free_fdnum fdnum.

(** The open file of a descriptor: the guards shared by the calls below. *)
Definition sys_write (fdnum : Z) (buf : list Z) (count : Z) : FS T Z :=
  if bool_decide (count = 0) then mret 0 else
  p ← to_fd fdnum;
  if bool_decide (p = 0) then mret (- EBADF) else
  f ← get_fd p;
  if bool_decide (fd_file f = 0) then mret (- EINVAL) else
  fl ← get_file (fd_file f);
  if bool_decide (f_inode fl = 0) then mret (- EINVAL) else
  i ← get_inode (f_inode fl);
  if is_char_device i then
    match devnum_get_device (dev i) with
    | None => mret (- EINVAL)
    | Some d => mret match d_write d with Some g => g buf count | None => 0 end
    end
  else
    match i_fs i with
    | None => mret (- EINVAL)
    | Some s => match op_write s with None => mret (- ENOSYS) | Some g => g (fd_file f) buf count end
    end.

Definition sys_read (fdnum : Z) (buf : list Z) (count : Z) : FS T (Z * list Z) :=
  if bool_decide (count = 0) then mret (0, buf) else
  p ← to_fd fdnum;
  if bool_decide (p = 0) then mret (- EBADF, buf) else
  f ← get_fd p;
  if bool_decide (fd_file f = 0) then mret (- EINVAL, buf) else
  fl ← get_file (fd_file f);
  if bool_decide (f_inode fl = 0) then mret (- EINVAL, buf) else
  i ← get_inode (f_inode fl);
  if is_char_device i then
    match devnum_get_device (dev i) with
    | None => mret (- EINVAL, buf)
    | Some d => mret match d_read d with Some g => g count | None => (0, buf) end
    end
  else
    match i_fs i with
    | None => mret (- EINVAL, buf)
    | Some s => op_read s (fd_file f) buf count
    end.

Definition sys_ioctl (fdnum cmd : Z) : FS T Z :=
  p ← to_fd fdnum;
  if bool_decide (p = 0) then mret (- EBADF) else
  f ← get_fd p;
  if bool_decide (fd_file f = 0) then mret (- EINVAL) else
  fl ← get_file (fd_file f);
  if bool_decide (f_inode fl = 0) then mret (- EINVAL) else
  i ← get_inode (f_inode fl);
  if is_char_device i then
    match devnum_get_device (dev i) with
    | None => mret (- EINVAL)
    | Some d => mret match d_ioctl d with Some g => g cmd | None => - ENOSYS end
    end
  else mret (if bool_decide (i_fs i = None) then - EINVAL else - ENOSYS).

Definition sys_lseek (fdnum off whence : Z) : FS T Z :=
  p ← to_fd fdnum;
  if bool_decide (p = 0) then mret (- EBADF) else
  f ← get_fd p;
  if bool_decide (fd_file f = 0) then mret (- EINVAL) else
  fl ← get_file (fd_file f);
  if bool_decide (whence = SEEK_SET) then
    _ ← put_file (fd_file f) (mk_file (f_inode fl) (fflags fl) off); mret off
  else if bool_decide (whence = SEEK_CUR) then
    let o := sint32 (offset fl + off) in
    _ ← put_file (fd_file f) (mk_file (f_inode fl) (fflags fl) o); mret o
  else mret (- EINVAL).

End Descriptors.
(** ** Walking, against a reference definition *)

Section Walk.
Context {T : Type}.
Implicit Types (w : world T).

(** What a lookup finds; it never changes anything. *)
Definition find w (cwd : Z) (nm : cstring) : outcome Z :=
  c ← deref (inodes w !! cwd);
  f ← deref (i_fs c);
  match f with
  | procfs_fs => d ← deref (inodes w !! priv c); if bool_decide (Z.land (dev d) S_IFDIR = 0) then Ret 0 else Fault
  | _ => r ← deref (rams w !! priv c); m ← deref (files r); Ret (default 0 (m !! nm))
  end.

Lemma lookup_in_find w cwd nm : lookup_in cwd nm w = (p ← find w cwd nm; Ret (p, w)).
Proof.
  unfold lookup_in, find, mbind, fs_bind, outcome_bind, get_inode, lift.
  destruct (inodes w !! cwd) as [c|] eqn:Ec; simpl; [|done]. destruct (i_fs c) as [[| |]|]; simpl; [| | |done].
  1, 2: unfold ramfs_lookup, mbind, fs_bind, get_inode, get_ram, lift, tget; rewrite Ec; simpl;
    destruct (rams w !! priv c) as [r|]; simpl; [|done]; by destruct (files r).
  unfold procfs_lookup, mbind, fs_bind, get_inode, lift. rewrite Ec. simpl.
  destruct (inodes w !! priv c) as [d|]; simpl; [|done]. by case_bool_decide.
Qed.

(** The node reached from [cwd] through a list of names, one directory at a
    time. *)
Fixpoint resolve w (cwd : Z) (names : list cstring) : outcome Z :=
  match names with
  | [] => Ret cwd
  | nm :: names =>
      if bool_decide (cwd = 0) then Ret 0 else
      c ← deref (inodes w !! cwd);
      if negb (is_directory c) then Ret 0 else
      p ← find w cwd nm;
      resolve w p names
  end.

(** Neither a path that ends in a slash after a name. *)
Definition plain_end (path : cstring) : Prop :=
  path = [] \/ all_slash path \/ exists s c, path = s ++ [c] /\ is_slash c = false.

Lemma take_skip P s : take_while P s ++ skip_while P s = s.
Proof. induction s as [|c s IH]; simpl; [done|]. destruct (P c); simpl; congruence. Qed.

Lemma skipn_take_while P s : skipn (length (take_while P s)) s = skip_while P s.
Proof. rewrite <- (take_skip P s) at 2. by rewrite drop_app_length. Qed.

Lemma take_while_all P s : Forall (fun c => P c = true) (take_while P s).
Proof. induction s as [|c s IH]; simpl; [done|]. destruct (P c) eqn:E; [by constructor|done]. Qed.

Lemma skip_while_all_slash s : skip_while is_slash s = [] <-> all_slash s.
Proof.
  unfold all_slash. induction s as [|c s IH]; simpl; [done|].
  rewrite Forall_cons. destruct (is_slash c); [rewrite IH; tauto|]. split; [done|intros [? _]; done].
Qed.

Lemma components_skip s : components (skip_while is_slash s) = components s.
Proof. induction s as [|c s IH]; simpl; [done|]. destruct (is_slash c) eqn:E; [|done]. unfold components in *. simpl. by rewrite E. Qed.

(** The first component and the rest of a path that does not begin with a slash. *)
Lemma components_first c s : is_slash c = false ->
  let comp := take_while (fun c => negb (is_slash c)) (c :: s) in
  let after := skip_while is_slash (skipn (length comp) (c :: s)) in
  comp <> [] /\ components (c :: s) = comp :: components after /\
  (plain_end (c :: s) -> after = [] -> comp = c :: s) /\ (plain_end (c :: s) -> plain_end after) /\
  (length after < length (c :: s))%nat /\ match after with [] => True | d :: _ => is_slash d = false end.
Proof.
  intros Hc comp after. pose proof (take_skip (fun c => negb (is_slash c)) (c :: s)) as Es.
  pose proof (take_while_all (fun c => negb (is_slash c)) (c :: s)) as Hall. fold comp in Es, Hall.
  assert (Ea : after = skip_while is_slash (skip_while (fun c => negb (is_slash c)) (c :: s)))
    by (unfold after, comp; by rewrite skipn_take_while).
  destruct (skip_while_split (fun c => negb (is_slash c)) (c :: s)) as (_ & _ & _ & Hh).
  set (tl := skip_while (fun c => negb (is_slash c)) (c :: s)) in *.
  destruct (skip_while_split is_slash tl) as (sl & Esl & Hsl & Hh2). rewrite <- Ea in Esl, Hh2.
  assert (Hne : comp <> []) by (unfold comp; simpl; by rewrite Hc).
  assert (Hns : no_slash comp).
  { unfold no_slash. eapply Forall_impl; [exact Hall|]. intros x. simpl. by destruct (is_slash x). }
  split; [done|]. split; [|split; [|split; [|split]]].
  - rewrite <- Es. destruct tl as [|d tl'] eqn:Et.
    + rewrite app_nil_r, Ea. by rewrite components_one.
    + unfold components at 1. destruct (is_slash d) eqn:Hd; [|done]. rewrite split_app_slash by done.
      fold (components comp). rewrite components_one by done. simpl. f_equal.
      rewrite Ea. simpl. rewrite Hd. by rewrite components_skip.
  - intros Hpl Han. rewrite Han, app_nil_r in Esl. destruct Hpl as [?|[Hs|(s0 & d & E & Hd)]]; [done| |].
    + apply Forall_cons in Hs as [? _]. congruence.
    + destruct tl as [|x tl']; [by rewrite app_nil_r in Es|]. exfalso. rewrite <- Es, Esl in E.
      destruct sl as [|y sl]  using rev_ind; [done|]. rewrite app_assoc in E. apply app_inj_tail in E as [_ ->].
      apply Forall_app in Hsl as [_ Hsl]. apply Forall_cons in Hsl as [? _]. congruence.
  - intros Hpl. destruct after as [|x after'] eqn:Eaf; [by left|]. right. right.
    destruct Hpl as [?|[Hs|(s0 & d & E & Hd)]]; [done|apply Forall_cons in Hs as [? _]; congruence|].
    rewrite <- Es, Esl in E. clear -E Hd. destruct (exists_last (l := x :: after')) as (l' & y & Ey); [done|].
    rewrite Ey in E |- *. rewrite !app_assoc in E. apply app_inj_tail in E as [_ ->]. by exists l', d.
  - rewrite <- Es, Esl, !length_app. assert (length comp <> 0)%nat by (by destruct comp). lia.
  - exact Hh2.
Qed.

Lemma walk_relative n w cwd c s : is_slash c = false -> plain_end (c :: s) -> (length (c :: s) <= n)%nat ->
  fs_walk_n n cwd (c :: s) w = (p ← resolve w cwd (components (c :: s)); Ret (p, w)).
Proof.
  revert cwd c s. induction n as [|n IH]; intros cwd c s Hc Hpl Hn; [simpl in Hn; lia|].
  destruct (components_first c s Hc) as (Hne & -> & Hone & Hpla & Hlen & Hhd).
  set (comp := take_while _ _) in *. set (after := skip_while is_slash _) in *.
  cbn [fs_walk_n resolve]. case_bool_decide; [done|].
  unfold mbind, fs_bind, outcome_bind, get_inode, lift. destruct (inodes w !! cwd) as [ci|]; simpl; [|done].
  destruct (is_directory ci); simpl; [|done]. rewrite Hc. unfold get. rewrite bool_decide_eq_true_2 by done.
  fold comp. change (skip_while is_slash (skipn (length comp) (c :: s))) with after. clearbody after.
  destruct after as [|d after'] eqn:Ea.
  - rewrite lookup_in_find. rewrite (Hone Hpl eq_refl). unfold mbind, outcome_bind. cbn [components split_path resolve].
    destruct (find w cwd (c :: s)); done.
  - rewrite lookup_in_find. unfold mbind, outcome_bind. destruct (find w cwd comp) as [node| |]; [|done|done].
    rewrite IH; [done|done|by apply Hpla|simpl in *; lia].
Qed.

Lemma walk_resolve w cwd path c r : plain_end path -> cwd <> 0 ->
  inodes w !! cwd = Some c -> is_directory c = true -> root w <> 0 ->
  inodes w !! root w = Some r -> is_directory r = true ->
  _fs_walk cwd path w =
    (p ← resolve w (if absolute path then root w else cwd) (components path); Ret (p, w)).
Proof.
  intros Hpl Hc0 Hc Hcd Hr0 Hr Hrd. destruct (absolute path) eqn:Eabs.
  - unfold _fs_walk. destruct (length path) as [|n] eqn:El; [by destruct path|]. cbn [fs_walk_n].
    rewrite bool_decide_eq_false_2 by done. unfold mbind, fs_bind, outcome_bind, get_inode, lift. rewrite Hc. simpl.
    rewrite Hcd. simpl. unfold get.
    destruct path as [|s0 path']; [done|]. simpl in Eabs. cbn [skip_while]. rewrite Eabs.
    rewrite <- (components_skip (s0 :: path')). cbn [skip_while]. rewrite Eabs.
    assert (Hlt : forall l, skip_while is_slash path' = l -> (length l <= length path')%nat).
    { intros l <-. destruct (skip_while_split is_slash path') as (l1 & E & _). rewrite E at 2. rewrite length_app. lia. }
    pose proof (Hlt _ eq_refl) as Hle. rewrite bool_decide_eq_false_2 by (simpl; lia).
    destruct (skip_while is_slash path') as [|d rest] eqn:Es; [done|].
    assert (Hd : is_slash d = false) by (destruct (skip_while_split is_slash path') as (_ & _ & _ & Hh); by rewrite Es in Hh).
    assert (Hpl' : plain_end (d :: rest)).
    { destruct Hpl as [?|[Hs|(s1 & x & E & Hx)]]; [done| |].
      - apply Forall_cons in Hs as [_ Hs]. apply skip_while_all_slash in Hs. congruence.
      - right. right. destruct (skip_while_split is_slash path') as (l1 & E1 & _). rewrite Es in E1.
        destruct (exists_last (l := d :: rest)) as (l' & y & Ey); [done|]. exists l', y. split; [done|].
        rewrite E1, Ey in E. rewrite app_comm_cons, app_assoc in E. by apply app_inj_tail in E as [_ ->]. }
    pose proof (walk_relative (S n) w (root w) d rest Hd Hpl') as Hw. simpl in El.
    specialize (Hw ltac:(lia)). cbn [fs_walk_n] in Hw. rewrite bool_decide_eq_false_2 in Hw by done.
    unfold mbind, fs_bind, outcome_bind, get_inode, lift in Hw. rewrite Hr in Hw. simpl in Hw. rewrite Hrd in Hw. simpl in Hw.
    rewrite Hd in Hw. unfold get in Hw. rewrite bool_decide_eq_true_2 in Hw by done. exact Hw.
  - destruct path as [|s0 path'].
    + unfold _fs_walk. simpl. rewrite bool_decide_eq_false_2 by done.
      unfold mbind, fs_bind, outcome_bind, get_inode, lift. rewrite Hc. simpl. rewrite Hcd. done.
    + simpl in Eabs. by apply walk_relative.
Qed.

End Walk.

(** ** Laws of the updates *)

Section Laws.
Context {T : Type}.
Implicit Types (w : world T).

Lemma set_alloc_twice n b n' b' w : set_alloc n b (set_alloc n' b' w) = set_alloc n b w.
Proof. reflexivity. Qed.
Lemma set_alloc_inodes n b v w : set_alloc n b (set_inodes v w) = set_inodes v (set_alloc n b w).
Proof. reflexivity. Qed.
Lemma set_inodes_twice v v' w : set_inodes v (set_inodes v' w) = set_inodes v w.
Proof. reflexivity. Qed.
Lemma set_inodes_rams v r w : set_inodes v (set_rams r w) = set_rams r (set_inodes v w).
Proof. reflexivity. Qed.
Lemma set_rams_twice r r' w : set_rams r (set_rams r' w) = set_rams r w.
Proof. reflexivity. Qed.
Lemma inodes_set_alloc n b w : inodes (set_alloc n b w) = inodes w.
Proof. reflexivity. Qed.
Lemma inodes_set_rams r w : inodes (set_rams r w) = inodes w.
Proof. reflexivity. Qed.
Lemma inodes_set_inodes v w : inodes (set_inodes v w) = v.
Proof. reflexivity. Qed.
Lemma rams_set_alloc n b w : rams (set_alloc n b w) = rams w.
Proof. reflexivity. Qed.
Lemma rams_set_inodes v w : rams (set_inodes v w) = rams w.
Proof. reflexivity. Qed.
Lemma rams_set_rams r w : rams (set_rams r w) = r.
Proof. reflexivity. Qed.
Lemma next_set_alloc n b w : next (set_alloc n b w) = n.
Proof. reflexivity. Qed.
Lemma next_set_inodes v w : next (set_inodes v w) = next w.
Proof. reflexivity. Qed.
Lemma budget_set_alloc n b w : budget (set_alloc n b w) = b.
Proof. reflexivity. Qed.
Lemma budget_set_inodes v w : budget (set_inodes v w) = budget w.
Proof. reflexivity. Qed.
End Laws.
#[export] Hint Rewrite @set_alloc_twice @set_alloc_inodes @set_inodes_twice @set_inodes_rams @set_rams_twice
  @inodes_set_alloc @inodes_set_rams @inodes_set_inodes @rams_set_alloc @rams_set_inodes @rams_set_rams
  @next_set_alloc @next_set_inodes @budget_set_alloc @budget_set_inodes : world.

(** ** Making a node, then walking to it *)

Section Making.
Context {T : Type}.
Implicit Types (w : world T).



Definition new_inode (f : option fs) (p mode dv : Z) : inode :=
  mk_inode f p (Z.land mode S_IFMT) (if bool_decide (Z.land mode S_IFMT = S_IFCHR) then dv else 0) 1 0 false.

Lemma kmalloc_eq w b : budget w = S b -> kmalloc w = Ret (next w, set_alloc (next w + 4) b w).
Proof. intros E. unfold kmalloc. by rewrite E. Qed.

Lemma can_alloc_eq w b : budget w = S b -> next w <> 0 -> can_alloc w = Ret (true, set_alloc (next w + 4) b w).
Proof.
  intros E H0. unfold can_alloc, mbind, fs_bind. rewrite (kmalloc_eq w b) by done. by rewrite bool_decide_eq_true_2.
Qed.















End Making.

(** ** Descriptor numbers, over any table that keeps its promises *)

Section Numbers.
Context {T : Type} `{!TableOps Z Z T, !TableSpec Z Z T}.
Implicit Types (w : world T).

(** The running task's table holds the descriptors of [m]; [r] more can come. *)
Definition fd_rep w (m : gmap Z Z) (r : nat) : Prop :=
  tbl_rep (task_fd w) m r /\ forall i, 0 <= i < Z.of_nat TASK_FD_MAX -> tbl_key_ok i.

Lemma fd_get_eq w m r k : fd_rep w m (S r) -> 0 <= k < Z.of_nat TASK_FD_MAX ->
  fd_get k w = Ret (default 0 (m !! k), w).
Proof.
  intros [Hr Hk] Hb. unfold fd_get, mbind, fs_bind, get, lift. by rewrite (tbl_get_ok _ m r k Hr (Hk k Hb)).
Qed.

(** [allocate_fdnum] walks over the numbers in use. *)
Lemma allocate_from_used n k w m r : fd_rep w m (S r) -> 0 <= k -> k + Z.of_nat n <= Z.of_nat TASK_FD_MAX ->
  forall d, (d <= n)%nat -> (forall i, k <= i < k + Z.of_nat d -> default 0 (m !! i) <> 0) ->
  allocate_from n k w = allocate_from (n - d) (k + Z.of_nat d) w.
Proof.
  intros Hr. revert k. induction n as [|n IH]; intros k Hk Hb d Hd Hall.
  - assert (d = 0%nat) as -> by lia. by rewrite Z.add_0_r.
  - destruct d as [|d]; [by rewrite Z.add_0_r|]. cbn [allocate_from]. unfold mbind, fs_bind.
    rewrite (fd_get_eq w m r) by (done || lia). rewrite bool_decide_eq_true_2 by (apply Hall; lia).
    rewrite (IH (k + 1) ltac:(lia) ltac:(lia) d ltac:(lia)) by (intros i ?; apply Hall; lia).
    f_equal; lia.
Qed.

Lemma allocate_at n k w m r b : fd_rep w m (S r) -> 0 <= k < Z.of_nat TASK_FD_MAX -> default 0 (m !! k) = 0 ->
  budget w = S b -> next w <> 0 ->
  exists w', allocate_from (S n) k w = Ret (k, w') /\ fd_rep w' (<[k := next w]> m) r /\
    fds w' = <[next w := mk_fd 0 0]> (fds w) /\ open_files w' = open_files w /\ inodes w' = inodes w.
Proof.
  intros Hr Hk Hfree Hb H0. cbn [allocate_from]. unfold mbind, fs_bind. rewrite (fd_get_eq w m r) by done.
  rewrite Hfree. change (bool_decide (0 <> 0)) with false. cbv beta iota.
  rewrite (kmalloc_eq w b Hb), bool_decide_eq_false_2 by done. unfold put_fd, upd, get, lift.
  destruct Hr as [Hr Hok]. destruct (tbl_add_ok (task_fd w) m r k (next w) Hr (Hok k Hk)) as (t' & E & Hr').
  change (task_fd (set_fds _ _)) with (task_fd w). rewrite E. eexists. split; [reflexivity|].
  by repeat split.
Qed.

(** Every number is in use, or there is a least one that is not. *)
Lemma least_free (m : gmap Z Z) (n : nat) :
  (forall i, 0 <= i < Z.of_nat n -> default 0 (m !! i) <> 0) \/
  exists k, 0 <= k < Z.of_nat n /\ default 0 (m !! k) = 0 /\ forall i, 0 <= i < k -> default 0 (m !! i) <> 0.
Proof.
  induction n as [|n [IH|(k & Hk & Hfree & Hl)]].
  - left. lia.
  - destruct (decide (default 0 (m !! Z.of_nat n) = 0)) as [E|E].
    + right. exists (Z.of_nat n). split; [lia|done].
    + left. intros i Hi. destruct (decide (i = Z.of_nat n)) as [->|]; [done|]. apply IH. lia.
  - right. exists k. split; [lia|done].
Qed.

(** [allocate_fdnum] hands out the least descriptor number the task does
    not use, or -1 when all 20 are in use; the number then leads to a new
    descriptor and the other numbers to what they led to before. *)
Theorem allocate_fdnum_least w m r b : fd_rep w m (S r) -> budget w = S b -> 0 < next w ->
  (allocate_fdnum w = Ret (-1, w) /\ forall i, 0 <= i < 20 -> default 0 (m !! i) <> 0) \/
  exists k w', allocate_fdnum w = Ret (k, w') /\ 0 <= k < 20 /\ default 0 (m !! k) = 0 /\
    (forall i, 0 <= i < k -> default 0 (m !! i) <> 0) /\
    fd_rep w' (<[k := next w]> m) r /\ fds w' !! next w = Some (mk_fd 0 0) /\
    forall p, p <> next w -> fds w' !! p = fds w !! p.
Proof.
  intros Hr Hb H0. unfold allocate_fdnum. destruct (least_free m TASK_FD_MAX) as [Hall|(k & Hk & Hfree & Hl)].
  - left. split; [|exact Hall].
    rewrite (allocate_from_used TASK_FD_MAX 0 w m r Hr) with (d := TASK_FD_MAX) by (first [reflexivity|lia|intros; apply Hall; unfold TASK_FD_MAX in *; lia]).
    reflexivity.
  - right. rewrite (allocate_from_used TASK_FD_MAX 0 w m r Hr) with (d := Z.to_nat k) by (unfold TASK_FD_MAX in *; first [lia|intros; apply Hl; lia]).
    replace (0 + Z.of_nat (Z.to_nat k)) with k by lia.
    destruct (TASK_FD_MAX - Z.to_nat k)%nat as [|n] eqn:En; [lia|].
    destruct (allocate_at n k w m r b Hr Hk Hfree Hb) as (w' & E & Hr' & Hfds & _); [lia|].
    exists k, w'. rewrite E, Hfds. split; [done|]. split; [exact Hk|]. split; [done|]. split; [done|]. split; [done|].
    split; [apply lookup_insert_eq|]. intros p Hp. by rewrite lookup_insert_ne.
Qed.

(** Closing an open descriptor frees it: the number leads to no
    descriptor any more and is free to be allocated, the descriptor and the
    open file are gone, a directory's lock is released, and no other number
    changes. *)
Theorem free_fdnum_ok w m r k p f fl i : fd_rep w m (S r) -> 0 <= k < 20 ->
  m !! k = Some p -> p <> 0 -> fds w !! p = Some f -> open_files w !! fd_file f = Some fl ->
  inodes w !! f_inode fl = Some i ->
  exists w', free_fdnum k w = Ret (0, w') /\ fd_rep w' (delete k m) (S r) /\ to_fd k w' = Ret (0, w') /\
    fds w' = delete p (fds w) /\ open_files w' = delete (fd_file f) (open_files w) /\
    inodes w' = <[f_inode fl := with_dlock i (dlock i && negb (is_directory i))]> (inodes w).
Proof.
  intros Hr Hk Hm Hp Hf Hfl Hi. destruct Hr as [Hr Hok].
  destruct (tbl_remove_ok (task_fd w) m r k Hr (Hok k Hk)) as (t' & E & Hr').
  assert (Hrun : exists w1, (if is_directory i then put_inode (f_inode fl) (with_dlock i false) else mret tt) w = Ret (tt, w1) /\
    task_fd w1 = task_fd w /\ open_files w1 = open_files w /\ fds w1 = fds w /\
    inodes w1 = <[f_inode fl := with_dlock i (dlock i && negb (is_directory i))]> (inodes w)).
  { destruct (is_directory i); eexists; split; [reflexivity| |reflexivity|]; (split; [done|]; split; [done|]; split; [done|]).
    - cbn [negb]. by rewrite andb_false_r.
    - cbn [negb]. rewrite andb_true_r. unfold with_dlock. rewrite insert_id; [done|]. rewrite Hi. by destruct i. }
  destruct Hrun as (w1 & E1 & Ht1 & Ho1 & Hf1 & Hi1).
  unfold free_fdnum, mbind, fs_bind. rewrite (fd_get_eq w m r) by done. rewrite Hm. change (default 0 (Some p)) with p.
  rewrite bool_decide_eq_false_2 by done. cbv beta iota. unfold get_fd, get_file, get_inode, lift. rewrite Hf. cbn [deref].
  rewrite Hfl. cbn [deref]. rewrite Hi. cbn [deref]. rewrite E1. unfold get, upd. rewrite Ht1, E.
  eexists. split; [reflexivity|].
  assert (Hrep : forall w2, task_fd w2 = t' -> fd_rep w2 (delete k m) (S r)) by (intros w2 <-; by split).
  split; [by apply Hrep|]. split.
  - unfold to_fd. rewrite bool_decide_eq_false_2 by lia. rewrite (fd_get_eq _ (delete k m) r) by (by try apply Hrep).
    by rewrite lookup_delete_eq.
  - cbn [fds open_files inodes set_fds set_files set_task_fd]. by rewrite Ho1, Hf1, Hi1.
Qed.

End Numbers.

(** ** Reading what was written *)

Section Blocks.
Context {T : Type}.
Implicit Types (w : world T).

Lemma have_block_ok w b : b <> None \/ (exists n, budget w = S n /\ next w <> 0) ->
  exists w', have_block b w = Ret (true, w') /\ rams w' = rams w /\ open_files w' = open_files w /\ inodes w' = inodes w.
Proof.
  destruct b as [b|]; [by exists w|]. intros [?|(n & Hb & H0)]; [done|].
  eexists. unfold have_block. rewrite (can_alloc_eq w n Hb H0). by repeat split.
Qed.

Lemma write_one_block w q fp f r m k buf count (n : nat) :
  open_files w !! fp = Some f -> rams w !! q = Some r -> blocks r = Some m ->
  0 < count <= RAMFS_DATA_BLOCK_SIZE -> m !! k <> None \/ (exists b, budget w = S b /\ next w <> 0) ->
  exists w', ramfs_write_loop (S n) q fp buf k 0 count 0 w = Ret (count, w') /\
    rams w' = <[q := mk_ram (name r) (files r)
      (Some (<[k := memcpy (default zero_block (m !! k)) buf (Z.to_nat count)]> m))]> (rams w) /\
    open_files w' = <[fp := mk_file (f_inode f) (fflags f) (offset f + count)]> (open_files w) /\ inodes w' = inodes w.
Proof.
  intros Hf Hr Hm Hc Hroom. cbn [ramfs_write_loop]. rewrite bool_decide_eq_false_2 by lia.
  replace (Z.min (RAMFS_DATA_BLOCK_SIZE - 0) count) with count by lia.
  unfold mbind, fs_bind, get_ram, lift. rewrite Hr. cbn [deref]. unfold tget, lift, mbind, fs_bind. rewrite Hm. cbn [deref].
  unfold mret, fs_ret. rewrite Z.sub_diag, Z.add_0_l.
  destruct (have_block_ok w (m !! k)) as (w1 & E & Hr1 & Ho1 & Hi1); [done|]. rewrite E.
  cbn [negb]. unfold tadd, mbind, fs_bind, lift. cbn [deref].
  unfold mret, fs_ret, put_ram, upd, get_file, lift. change (open_files (set_rams _ w1)) with (open_files w1).
  rewrite Ho1, Hf. cbn [deref]. unfold put_file, upd. destruct n as [|n]; cbn [ramfs_write_loop].
  all: rewrite bool_decide_eq_true_2 by done; eexists; split; [reflexivity|].
  all: cbn [rams open_files inodes set_files set_rams]; by rewrite ?Hr1, ?Ho1, ?Hi1.
Qed.

Lemma read_one_block w q fp f r m k buf count (n : nat) :
  open_files w !! fp = Some f -> rams w !! q = Some r -> blocks r = Some m -> 0 < count <= RAMFS_DATA_BLOCK_SIZE ->
  exists w', ramfs_read_loop (S n) q fp buf k 0 count 0 w =
    Ret (count, memcpy buf (default zero_block (m !! k)) (Z.to_nat count), w').
Proof.
  intros Hf Hr Hm Hc. cbn [ramfs_read_loop]. rewrite bool_decide_eq_false_2 by lia.
  replace (Z.min (RAMFS_DATA_BLOCK_SIZE - 0) count) with count by lia.
  unfold mbind, fs_bind, get_ram, lift. rewrite Hr. cbn [deref]. unfold tget, lift, mbind, fs_bind. rewrite Hm. cbn [deref].
  unfold mret, fs_ret, get_file, lift. rewrite Hf. cbn [deref]. unfold put_file, upd. rewrite Z.sub_diag, Z.add_0_l.
  destruct n as [|n]; cbn [ramfs_read_loop].
  all: rewrite bool_decide_eq_true_2 by done; eexists; reflexivity.
Qed.

Lemma memcpy_twice dst old src n : (n <= length src)%nat ->
  memcpy dst (memcpy old src n) n = take n src ++ drop n dst.
Proof. intros Hn. unfold memcpy. by rewrite take_app_length' by (rewrite length_take; lia). Qed.

(** What [ramfs_write] puts at the start of a block of a file, up to a
    whole block, [ramfs_read] gives back from there, whatever other file
    structure of the inode it reads through; the write moves its own file's
    offset by what it wrote. *)
Theorem ramfs_write_read w fp f i r m k buf count :
  open_files w !! fp = Some f -> inodes w !! f_inode f = Some i -> f_inode f <> 0 -> priv i <> 0 ->
  rams w !! priv i = Some r -> blocks r = Some m ->
  offset f = k * RAMFS_DATA_BLOCK_SIZE -> 0 < count <= RAMFS_DATA_BLOCK_SIZE -> (Z.to_nat count <= length buf)%nat ->
  m !! k <> None \/ (exists b, budget w = S b /\ next w <> 0) ->
  exists w', ramfs_write fp buf count w = Ret (count, w') /\
    option_map offset (open_files w' !! fp) = Some (offset f + count) /\
    forall fp2 fl dst w2, inodes w2 = inodes w' -> rams w2 = rams w' ->
      open_files w2 !! fp2 = Some (mk_file (f_inode f) fl (offset f)) ->
      exists w3, ramfs_read fp2 dst count w2 =
        Ret (count, take (Z.to_nat count) buf ++ drop (Z.to_nat count) dst, w3).
Proof.
  intros Hf Hi Hn0 Hp0 Hr Hm Hoff Hc Hlen Hroom. unfold ramfs_write, ramfs_read, mbind, fs_bind, get_file, get_inode, lift.
  rewrite Hf. cbn [deref]. rewrite (bool_decide_eq_false_2 (f_inode f = 0)) by done. rewrite Hi. cbn [deref].
  rewrite (bool_decide_eq_false_2 (priv i = 0)) by done. rewrite Hoff, Z.div_mul, Z_mod_mult by done.
  destruct (Z.to_nat count) as [|n] eqn:En; [lia|].
  destruct (write_one_block w (priv i) fp f r m k buf count n Hf Hr Hm Hc Hroom) as (w' & -> & Hr' & Ho' & Hi').
  exists w'. split; [done|]. split; [rewrite Ho', lookup_insert_eq; simpl; by rewrite Hoff|].
  intros fp2 fl dst w2 Hi2 Hr2 Hf2. rewrite Hf2. cbn [deref f_inode offset].
  rewrite bool_decide_eq_false_2 by done. rewrite Hi2, Hi', Hi. cbn [deref]. rewrite bool_decide_eq_false_2 by done.
  rewrite Hr', En in Hr2. rewrite ?Hoff, Z.div_mul, Z_mod_mult by done.
  destruct (read_one_block w2 (priv i) fp2 _ _ _ k dst count n Hf2 ltac:(rewrite Hr2; apply lookup_insert_eq) eq_refl Hc)
    as (w3 & ->). exists w3. by rewrite lookup_insert_eq, En, <- (memcpy_twice dst (default zero_block (m !! k)) buf).
Qed.

End Blocks.

(** ** Properties of walking *)

(** C14.  For every path that does not end in a slash (one that does is looked up
    with its slashes: [trailing_slash_not_found]), with the root and the current
    directory there and directories, [_fs_walk] reaches exactly the node that
    following the path's components one directory at a time reaches, from the
    root if the path begins with a slash; it changes nothing. *)
Theorem fs_walk_resolves {T} (w : world T) cwd path c r :
  plain_end path -> cwd <> 0 -> inodes w !! cwd = Some c -> is_directory c = true ->
  root w <> 0 -> inodes w !! root w = Some r -> is_directory r = true ->
  _fs_walk cwd path w = (p ← resolve w (if absolute path then root w else cwd) (components path); Ret (p, w)).
Proof. apply walk_resolve. Qed.

(** A root with ramfs mounted on it, and one directory [/dev]. *)
Definition boot {T} (t : T) : world T :=
  match (_ ← fs_init; _ ← fs_register (str "ramfs") ramfs_fs; _ ← sys_mount None (str "ramfs");
         sys_mkdir (Some (str "/dev")) 0) (mk_world ∅ ∅ None ∅ 0 ∅ ∅ t 100 60) with
  | Ret (_, w) => w
  | _ => mk_world ∅ ∅ None ∅ 0 ∅ ∅ t 100 0
  end.

Lemma fs_walk_resolves_witness :
  exists p, _fs_walk 100 (str "/dev") (boot tt) = Ret (p, boot tt) /\ p <> 0.
Proof.
  destruct (inodes (boot tt) !! 100) as [c|] eqn:Ec; [|vm_compute in Ec; discriminate Ec].
  rewrite (fs_walk_resolves (boot tt) 100 (str "/dev") c c).
  - eexists. split; [vm_compute; reflexivity|discriminate].
  - right. right. exists (str "/de"), (Ascii.ascii_of_nat 118). split; reflexivity.
  - discriminate.
  - exact Ec.
  - vm_compute in Ec. injection Ec as <-. reflexivity.
  - vm_compute. discriminate.
  - replace (root (boot tt)) with 100 by (vm_compute; reflexivity). exact Ec.
  - vm_compute in Ec. injection Ec as <-. reflexivity.
Defined.





(** With a slash after the last name the name looked up includes it: ["/dev/"]
    is not found though ["/dev"] is a directory. *)
Example trailing_slash_not_found :
  match _fs_walk 100 (str "/dev/") (boot tt) with Ret (p, _) => p | _ => 1 end = 0 /\
  match _fs_walk 100 (str "/dev") (boot tt) with Ret (p, _) => bool_decide (p = 0) | _ => true end = false.
Proof. split; vm_compute; reflexivity. Qed.

(** ** Concrete runs on descriptors and files *)

Import Hashtable.Hashtable.

Definition no_device : Z -> option dev_ops := fun _ => None.

(** A booted system with a task that has an empty hash table of descriptors. *)
Definition task_world (b : nat) : world (Hashtable.hashtable Z Z) :=
  let w := boot Hashtable.new_uint in set_alloc (next w) b w.

Lemma new_uint_fd_rep (w : world (Hashtable.hashtable Z Z)) r : task_fd w = Hashtable.new_uint -> (r <= 8)%nat -> fd_rep w ∅ r.
Proof.
  intros E Hr. split.
  - rewrite E. destruct (Hashtable.create_inv (K:=Z) (V:=Z) (fun _ => true) Hashtable.new_uint eq_refl) as (Hinv & Hcl & _).
    split; [exact Hinv|]. rewrite Hcl, map_size_empty. split; [exact Hr|]. unfold Hashtable.max_bindings. lia.
  - intros i Hi. unfold TASK_FD_MAX in Hi. simpl in *. lia.
Qed.

Lemma allocate_fdnum_least_witness :
  exists k w', allocate_fdnum (task_world 5) = Ret (k, w') /\ k = 0.
Proof.
  destruct (allocate_fdnum_least (task_world 5) ∅ 7 4) as [(_ & Hall)|(k & w' & E & Hk & _ & Hl & _)].
  - apply new_uint_fd_rep; [vm_compute; reflexivity|lia].
  - vm_compute. reflexivity.
  - vm_compute. reflexivity.
  - exfalso. apply (Hall 0); [lia|reflexivity].
  - exists k, w'. split; [exact E|]. destruct (decide (k = 0)) as [|Hne]; [assumption|].
    exfalso. apply (Hl 0); [lia|reflexivity].
Defined.

(** Descriptor 3 of a task is the directory 200, locked. *)
Definition open_dir : inode := mk_inode (Some ramfs_fs) 200 S_IFDIR 0 1 0 true.
Definition dir_open_world (t : Hashtable.hashtable Z Z) : world (Hashtable.hashtable Z Z) :=
  mk_world {[200 := open_dir]} ∅ None ∅ 200 {[304 := mk_file 200 0 0]} {[300 := mk_fd 0 304]} t 400 9.

Lemma free_fdnum_ok_witness :
  exists t w', tbl_add Hashtable.new_uint 3 300 = Ret t /\ free_fdnum 3 (dir_open_world t) = Ret (0, w') /\
    inodes w' = {[200 := with_dlock open_dir false]} /\ fds w' = ∅ /\ open_files w' = ∅.
Proof.
  destruct (new_uint_fd_rep (dir_open_world Hashtable.new_uint) 8 eq_refl) as [Hr Hk]; [lia|].
  destruct (tbl_add_ok Hashtable.new_uint ∅ 7 3 300 Hr) as (t & E & Hr').
  { apply Hk. unfold TASK_FD_MAX. lia. }
  destruct (free_fdnum_ok (dir_open_world t) (<[3 := 300]> ∅) 6 3 300 (mk_fd 0 304) (mk_file 200 0 0) open_dir)
    as (w' & E' & _ & _ & Hf & Ho & Hi).
  - split; [exact Hr'|exact Hk].
  - lia.
  - reflexivity.
  - discriminate.
  - reflexivity.
  - reflexivity.
  - reflexivity.
  - exists t, w'. split; [exact E|]. split; [exact E'|]. rewrite Hf, Ho, Hi. split; [|split]; reflexivity.
Defined.

(** A regular file 200 of a ramfs, open as 304 at [off], nothing written yet. *)
Definition file_world (off : Z) : world unit :=
  mk_world {[200 := mk_inode (Some ramfs_fs) 200 S_IFREG 0 1 0 false]} {[200 := mk_ram [] (Some ∅) (Some ∅)]} None ∅ 0
    {[304 := mk_file 200 0 off]} ∅ tt 400 9.

Lemma ramfs_write_read_witness :
  exists w', ramfs_write 304 [11; 22; 33] 3 (file_world 256) = Ret (3, w').
Proof.
  destruct (ramfs_write_read (file_world 256) 304 (mk_file 200 0 256) (mk_inode (Some ramfs_fs) 200 S_IFREG 0 1 0 false)
    (mk_ram [] (Some ∅) (Some ∅)) ∅ 1 [11; 22; 33] 3) as (w' & E & _).
  - reflexivity.
  - reflexivity.
  - discriminate.
  - discriminate.
  - reflexivity.
  - reflexivity.
  - reflexivity.
  - unfold RAMFS_DATA_BLOCK_SIZE. lia.
  - simpl. lia.
  - right. exists 8%nat. split; [reflexivity|discriminate].
  - exists w'. exact E.
Defined.

Definition run {T A} (m : FS T A) (w : world T) (d : A) : A := match m w with Ret (a, _) => a | _ => d end.

(** A write across a block boundary puts the start of the buffer into both
    blocks: the second round copies from [buf], not from where the first
    stopped. *)
Example write_repeats_buffer :
  run (_ ← ramfs_write 304 (replicate 256 1 ++ [2; 3]) 258;
       r ← get_ram 200; mret (b ← blocks r; blk ← b !! 1; Some (take 2 blk))) (file_world 0) None = Some [1; 1].
Proof. vm_compute. reflexivity. Qed.

(** A write at an offset inside a block lands at the start of the block. *)
Example write_ignores_offset :
  run (_ ← ramfs_write 304 [7] 1; r ← get_ram 200; mret (b ← blocks r; blk ← b !! 0; Some (take 6 blk)))
    (file_world 5) None = Some [7; 0; 0; 0; 0; 0].
Proof. vm_compute. reflexivity. Qed.

(** Opening a directory a second time puts the caller to sleep on its lock
    until someone closes the first descriptor. *)
Example open_directory_twice :
  (_ ← sys_open no_device (Some (str "/dev")) 0 0; sys_open no_device (Some (str "/dev")) 0 0) (task_world 20) = Hang.
Proof. vm_compute. reflexivity. Qed.

(** When the allocation of the file structure fails, [sys_open] frees the
    descriptor through the NULL file it just stored: a fault. *)
Example open_without_memory :
  sys_open no_device (Some (str "/dev")) 0 0 (task_world 3) = Fault.
Proof. vm_compute. reflexivity. Qed.

(** Opening a file that does not exist fails with ENOMEM, not ENOENT. *)
Example open_missing : run (sys_open no_device (Some (str "/nothing")) 0 0) (task_world 20) 0 = - ENOMEM.
Proof. vm_compute. reflexivity. Qed.

(** A block device is at once a directory and a character device to the code:
    S_IFBLK is S_IFDIR and S_IFCHR together, and the tests look at one bit. *)
Example block_device_flags :
  let i := new_inode (Some ramfs_fs) 200 S_IFBLK 0 in is_directory i = true /\ is_char_device i = true.
Proof. split; reflexivity. Qed.

End Fs.
