(* ===== verification/FsDir.v ===== *)
(** Listing directories: [ramfs_getdents], [procfs_getdents] and the system call
    [sys_getdents] of [src/fs], over the iterator of [Hashtable].

    What a call stores in its buffer is bytes; a reader takes the records out
    of them again.  Here the order of the slots of a directory's table matters,
    which the finite maps of [Fs] do not have: [tables] gives the table itself,
    by the address of the structure it belongs to. *)
From stdpp Require Import strings.
From S2P Require Import Prelude Table PathStr Hashtable Fs.
#[local] Open Scope Z_scope.

Module FsDir.
Import PathStr Hashtable Fs.

(** Directories are tables keyed by strings. *)
#[export] Instance name_key : HashKey cstring := {
  hash sz k := hash_string sz (String.string_of_list_ascii k);
  compare k1 k2 := hashtable_key_compare_string (String.string_of_list_ascii k1) (String.string_of_list_ascii k2) }.

Definition DT_UNKNOWN : Z := 0.
Definition DT_CHR : Z := 2.
Definition DT_DIR : Z := 3.
Definition DT_REG : Z := 6.

(** ** [struct phabos_dirent] *)

Definition sizeof_dirent : Z := 12.
Definition at_d_off : nat := 4.
Definition at_d_reclen : nat := 8.
Definition at_d_name : nat := 10.

Definition le16_bytes (v : Z) : list Z := [v mod 256; (v / 256) mod 256].
Definition le32_bytes (v : Z) : list Z := le16_bytes v ++ le16_bytes (v / 65536).
Definition name_bytes (nm : cstring) : list Z := (char_val <$> nm) ++ [0].

(** A store of [l] at [at]; outside of the buffer it is a fault. *)
Definition store (buf : list Z) (at_ : nat) (l : list Z) : outcome (list Z) :=
  if bool_decide (at_ + length l <= length buf)%nat then Ret (take at_ buf ++ l ++ drop (at_ + length l) buf) else Fault.

(** Records are whole words. *)
Definition dirent_length (nm : cstring) : Z :=
  Z.ldiff (sizeof_dirent + (Z.of_nat (length nm) + 1) + 2 + (4 - 1)) (4 - 1).

(** The types [ramfs_getdents] and [procfs_getdents] know. *)
Definition ramfs_type (i : inode) : Z :=
  if is_directory i then DT_DIR else if is_regular_file i then DT_REG else if is_char_device i then DT_CHR else DT_UNKNOWN.
Definition procfs_type (i : inode) : Z :=
  if is_directory i then DT_DIR else if is_regular_file i then DT_REG else DT_UNKNOWN.

(** ** Listing *)

Section Getdents.
Context {T : Type}.
#[local] Notation FS := (FS T).
Context (type : inode -> Z).

(** One record at [dirp], whose iterator came to [i]. *)
Definition put_dirent (fp : Z) (buf : list Z) (dirp : nat) (nm : cstring) (p : Z) (i : Z) : FS (list Z) :=
  let len := dirent_length nm in
  ty ← (if bool_decide (p = 0) then mret DT_UNKNOWN else v ← get_inode p; mret (type v));
  buf ← lift (store buf (dirp + Z.to_nat len - 1) [ty]);
  f ← get_file fp;
  _ ← put_file fp (mk_file (f_inode f) (fflags f) i);
  buf ← lift (store buf (dirp + at_d_off) (le32_bytes i));
  buf ← lift (store buf (dirp + at_d_name) (name_bytes nm));
  lift (store buf (dirp + at_d_reclen) (le16_bytes len)).

Fixpoint getdents_loop (n : nat) (t : hashtable cstring Z) (iter : iterator cstring Z) (fp : Z)
    (buf : list Z) (dirp : nat) (count nread : Z) : FS (Z * list Z) :=
  r ← lift (hashtable_iterate t iter);
  let '(more, iter) := (r : bool * iterator cstring Z) in
  if negb more then mret (nread, buf) else
  nm ← lift (deref (iter_key iter));
  let len := dirent_length nm in
  if bool_decide (count < len) then mret (if bool_decide (nread <> 0) then nread else - EINVAL, buf) else
  buf ← put_dirent fp buf dirp nm (iter_value iter) (Z.of_nat (iter_i iter));
  match n with
  | O => hang
  | S n => getdents_loop n t iter fp buf (dirp + Z.to_nat len) (count - len) (nread + len)
  end.

(** From where the file is; the slots of the table are fuel enough. *)
Definition getdents_from (t : hashtable cstring Z) (fp : Z) (buf : list Z) (count : Z) : FS (Z * list Z) :=
  f ← get_file fp;
  getdents_loop (size t) t (mk_iterator (Z.to_nat (wrap32 (offset f))) None 0) fp buf 0 count 0.

End Getdents.

Section Calls.
Context {T : Type} `{TableOps Z Z T}.
#[local] Notation FS := (FS T).
Context (tables : Z -> hashtable cstring Z).

Definition ramfs_getdents (fp : Z) (buf : list Z) (count : Z) : FS (Z * list Z) :=
  f ← get_file fp;
  if bool_decide (f_inode f = 0) then mret (- EINVAL, buf) else
  i ← get_inode (f_inode f);
  r ← get_ram (priv i);
  if bool_decide (files r = None) then mret (0, buf) else
  getdents_from ramfs_type (tables (priv i)) fp buf count.

Definition procfs_getdents (fp : Z) (buf : list Z) (count : Z) : FS (Z * list Z) :=
  f ← get_file fp;
  if bool_decide (f_inode f = 0) then mret (- EINVAL, buf) else
  i ← get_inode (f_inode f);
  if negb (is_directory i) then mret (- EINVAL, buf) else
  t ← get procfs_files;
  if bool_decide (t = None) then mret (0, buf) else
  getdents_from procfs_type (tables (priv i)) fp buf count.

Definition op_getdents (f : fs) : Z -> list Z -> Z -> FS (Z * list Z) :=
  match f with ramfs_fs | devfs_fs => ramfs_getdents | procfs_fs => procfs_getdents end.

Definition sys_getdents (fdnum : Z) (buf : list Z) (count : Z) : FS (Z * list Z) :=
  p ← to_fd fdnum;
  if bool_decide (p = 0) then mret (- EBADF, buf) else
  f ← get_fd p;
  if bool_decide (fd_file f = 0) then mret (- EINVAL, buf) else
  fl ← get_file (fd_file f);
  if bool_decide (f_inode fl = 0) then mret (- EINVAL, buf) else
  i ← get_inode (f_inode fl);
  match i_fs i with
  | None => mret (- EINVAL, buf)
  | Some s => op_getdents s (fd_file f) buf count
  end.

(** None of the file systems of [Fs] has the operation: [MAP_FAILED]. *)
Definition op_mmap (f : fs) : option (Z -> Z -> FS Z) := match f with ramfs_fs | devfs_fs | procfs_fs => None end.
Definition sys_mmap (len fdnum : Z) : FS Z :=
  let failed := wrap32 (-1) in
  if bool_decide (len = 0) then mret failed else
  p ← to_fd fdnum;
  if bool_decide (p = 0) then mret failed else
  f ← get_fd p;
  if bool_decide (fd_file f = 0) then mret failed else
  fl ← get_file (fd_file f);
  if bool_decide (f_inode fl = 0) then mret failed else
  i ← get_inode (f_inode fl);
  match i_fs i with
  | None => mret failed
  | Some s => match op_mmap s with None => mret failed | Some g => g (fd_file f) len end
  end.

End Calls.
(** ** Reading the records back *)

Definition le16_at (l : list Z) (i : nat) : Z := nth i l 0 + 256 * nth (i + 1) l 0.
Fixpoint until_nul (l : list Z) : list Z :=
  match l with [] => [] | b :: l => if bool_decide (b = 0) then [] else b :: until_nul l end.

(** Name and type of each record of [l], as a program takes them out. *)
Fixpoint dirents (n : nat) (l : list Z) : list (list Z * Z) :=
  match n, l with
  | S n, _ :: _ =>
      let len := Z.to_nat (le16_at l at_d_reclen) in
      (until_nul (drop at_d_name l), nth (len - 1) l 0) :: dirents n (drop len l)
  | _, _ => []
  end.
Definition read_dirents (l : list Z) : list (list Z * Z) := dirents (length l) l.

(** ** One record *)

Definition name_ok (nm : cstring) : Prop := no_nul (String.string_of_list_ascii nm) /\ Z.of_nat (length nm) < 2 ^ 16 - 20.

#[export, refine] Instance name_key_ok : HashKeyOk cstring := {
  key_ok nm := no_nul (String.string_of_list_ascii nm) }.
Proof.
  - intros n k Hn. by apply mod_index_lt.
  - intros k1 k2 H1 H2. transitivity (String.string_of_list_ascii k1 = String.string_of_list_ascii k2).
    + by apply strcmp_eq.
    + split; [|by intros ->]. intros E. apply (f_equal String.list_ascii_of_string) in E.
      by rewrite !String.list_ascii_of_string_of_list_ascii in E.
Defined.

Lemma store_mid p x q l n : n = length p -> length x = length l -> store (p ++ x ++ q) n l = Ret (p ++ l ++ q).
Proof.
  intros -> E. unfold store. rewrite bool_decide_eq_true_2 by (rewrite !length_app; lia).
  rewrite take_app_length, drop_app_ge by lia. replace (length p + length l - length p)%nat with (length x) by lia.
  by rewrite drop_app_length.
Qed.

Lemma until_nul_name nm l : no_nul (String.string_of_list_ascii nm) -> until_nul (name_bytes nm ++ l) = char_val <$> nm.
Proof.
  unfold name_bytes. induction nm as [|c nm IH]; [done|]. simpl. intros [Hc Hn].
  rewrite bool_decide_eq_false_2 by done. f_equal. by apply IH.
Qed.

Lemma dirent_length_bounds nm : let len := dirent_length nm in
  Z.of_nat (length nm) + 15 <= len <= Z.of_nat (length nm) + 18.
Proof.
  unfold dirent_length, sizeof_dirent. cbv zeta. change (4 - 1) with (Z.ones 2).
  rewrite Z.ldiff_ones_r, Z.shiftr_div_pow2, Z.shiftl_mul_pow2 by done. change (Z.ones 2) with 3. change (2 ^ 2) with 4.
  Z.to_euclidean_division_equations; lia.
Qed.

Lemma le16_at_bytes p l v : 0 <= v < 2 ^ 16 -> le16_at (p ++ le16_bytes v ++ l) (length p) = v.
Proof.
  intros Hv. unfold le16_at. rewrite app_nth2_plus, app_nth2, Nat.sub_diag by lia. unfold le16_bytes. cbn [nth app].
  Z.to_euclidean_division_equations; lia.
Qed.

Lemma dirents_cons n l : l <> [] -> dirents (S n) l =
  let len := Z.to_nat (le16_at l at_d_reclen) in
  (until_nul (drop at_d_name l), nth (len - 1) l 0) :: dirents n (drop len l).
Proof. by destruct l. Qed.

(** A list of at least [n] in two parts. *)
Lemma split_at {A} (l : list A) n : (n <= length l)%nat -> exists a b, l = a ++ b /\ length a = n.
Proof. intros H. exists (take n l), (drop n l). by rewrite take_drop, length_take_le. Qed.

Section Record_.
Context {T : Type} (type : inode -> Z).
Implicit Types (w : world T).

Definition at_offset w (fp : Z) (f : file) (o : Z) : world T :=
  set_files (<[fp := mk_file (f_inode f) (fflags f) o]> (open_files w)) w.

(** The bytes of a record: [a0] and [a1] are what was in the buffer. *)
Definition record (a0 : list Z) (i : Z) (nm : cstring) (a1 : list Z) (ty : Z) : list Z :=
  a0 ++ le32_bytes i ++ le16_bytes (dirent_length nm) ++ name_bytes nm ++ a1 ++ [ty].

Lemma length_record a0 i nm a1 ty : length (record a0 i nm a1 ty) = (length a0 + length nm + length a1 + 8)%nat.
Proof. unfold record, name_bytes. rewrite !length_app, length_fmap. simpl. lia. Qed.

Lemma put_dirent_stores w fp f pre a0 x1 x2 x3 a1 x4 rest nm p i v :
  open_files w !! fp = Some f -> p <> 0 -> inodes w !! p = Some v ->
  length a0 = 4%nat -> length x1 = 4%nat -> length x2 = 2%nat -> length x3 = (length nm + 1)%nat -> length x4 = 1%nat ->
  dirent_length nm = Z.of_nat (length nm + length a1 + 12) ->
  put_dirent type fp (pre ++ (a0 ++ x1 ++ x2 ++ x3 ++ a1 ++ x4) ++ rest) (length pre) nm p i w =
  Ret (pre ++ record a0 i nm a1 (type v) ++ rest, at_offset w fp f i).
Proof.
  intros Hf Hp Hv H0 H1 H2 H3 H4 Hlen.
  assert (Hnb : length (name_bytes nm) = (length nm + 1)%nat) by (unfold name_bytes; rewrite length_app, length_fmap; done).
  unfold put_dirent, mbind, fs_bind, get_inode, get_file, put_file, upd, lift, mret, fs_ret.
  rewrite bool_decide_eq_false_2, Hv by done. cbn [deref].
  replace (pre ++ (a0 ++ x1 ++ x2 ++ x3 ++ a1 ++ x4) ++ rest)
    with ((pre ++ a0 ++ x1 ++ x2 ++ x3 ++ a1) ++ x4 ++ rest) by (by rewrite <- !app_assoc).
  rewrite store_mid; [|rewrite !length_app; lia|simpl; lia]. rewrite Hf. cbn [deref].
  replace ((pre ++ a0 ++ x1 ++ x2 ++ x3 ++ a1) ++ [type v] ++ rest)
    with ((pre ++ a0) ++ x1 ++ x2 ++ x3 ++ a1 ++ [type v] ++ rest) by (by rewrite <- !app_assoc).
  rewrite store_mid; [|rewrite !length_app; unfold at_d_off; lia|done].
  replace ((pre ++ a0) ++ le32_bytes i ++ x2 ++ x3 ++ a1 ++ [type v] ++ rest)
    with ((pre ++ a0 ++ le32_bytes i ++ x2) ++ x3 ++ a1 ++ [type v] ++ rest) by (by rewrite <- !app_assoc).
  rewrite store_mid; [|rewrite !length_app; unfold at_d_name; simpl; lia|lia].
  replace ((pre ++ a0 ++ le32_bytes i ++ x2) ++ name_bytes nm ++ a1 ++ [type v] ++ rest)
    with ((pre ++ a0 ++ le32_bytes i) ++ x2 ++ name_bytes nm ++ a1 ++ [type v] ++ rest) by (by rewrite <- !app_assoc).
  rewrite store_mid; [|rewrite !length_app; unfold at_d_reclen; simpl; lia|done].
  unfold record. by rewrite <- !app_assoc.
Qed.

Lemma dirents_record a0 i nm a1 ty l n : length a0 = 4%nat -> name_ok nm ->
  dirent_length nm = Z.of_nat (length (record a0 i nm a1 ty)) ->
  dirents (S n) (record a0 i nm a1 ty ++ l) = (char_val <$> nm, ty) :: dirents n l.
Proof.
  intros H0 [Hn Hl] Hlen. pose proof (dirent_length_bounds nm) as Hb. cbv zeta in Hb.
  set (rec := record a0 i nm a1 ty) in *.
  rewrite dirents_cons; [|intros E%(f_equal length); rewrite length_app in E; cbn [length] in E; lia].
  assert (E : le16_at (rec ++ l) at_d_reclen = dirent_length nm).
  { unfold rec, record. rewrite <- !app_assoc, (app_assoc a0).
    replace at_d_reclen with (length (a0 ++ le32_bytes i)) by (rewrite length_app; simpl; unfold at_d_reclen; lia).
    apply le16_at_bytes. lia. }
  rewrite E, Hlen, Nat2Z.id. cbv zeta. f_equal; [f_equal|by rewrite drop_app_length'].
  - set (p4 := a0 ++ le32_bytes i ++ le16_bytes (dirent_length nm)).
    replace (rec ++ l) with (p4 ++ name_bytes nm ++ a1 ++ [ty] ++ l) by (by unfold rec, record, p4; rewrite <- !app_assoc).
    rewrite drop_app_length' by (unfold p4; rewrite !length_app, H0; done). by apply until_nul_name.
  - set (q := a0 ++ le32_bytes i ++ le16_bytes (dirent_length nm) ++ name_bytes nm ++ a1).
    assert (Eq : rec = q ++ [ty]) by (by unfold rec, record, q; rewrite <- !app_assoc).
    rewrite Eq, length_app, <- app_assoc. replace (length q + length [ty] - 1)%nat with (length q) by (simpl; lia).
    apply nth_middle.
Qed.

Lemma put_dirent_ok w fp f pre old nm p i v :
  open_files w !! fp = Some f -> p <> 0 -> inodes w !! p = Some v -> name_ok nm -> dirent_length nm <= Z.of_nat (length old) ->
  exists rec, Z.of_nat (length rec) = dirent_length nm /\
    put_dirent type fp (pre ++ old) (length pre) nm p i w = Ret (pre ++ rec ++ drop (length rec) old, at_offset w fp f i) /\
    forall l n, dirents (S n) (rec ++ l) = (char_val <$> nm, type v) :: dirents n l.
Proof.
  intros Hf Hp Hv Hn Hold. pose proof (dirent_length_bounds nm) as Hb. cbv zeta in Hb.
  destruct (split_at old (Z.to_nat (dirent_length nm))) as (r & rest & -> & Hr); [lia|].
  destruct (split_at r 4) as (a0 & r0 & -> & H0); [lia|]. rewrite length_app in Hr.
  destruct (split_at r0 4) as (x1 & r1 & -> & H1); [lia|]. rewrite length_app in Hr.
  destruct (split_at r1 2) as (x2 & r2 & -> & H2); [lia|]. rewrite length_app in Hr.
  destruct (split_at r2 (length nm + 1)) as (x3 & r3 & -> & H3); [lia|]. rewrite length_app in Hr.
  destruct (split_at r3 (length r3 - 1)) as (a1 & x4 & -> & H4); [lia|]. rewrite length_app in Hr, H4.
  assert (Hl : Z.of_nat (length (record a0 i nm a1 (type v))) = dirent_length nm) by (rewrite length_record; lia).
  exists (record a0 i nm a1 (type v)). split; [done|]. split; [|intros l n; by apply dirents_record].
  rewrite (put_dirent_stores w fp f pre a0 x1 x2 x3 a1 x4 rest nm p i v) by (done || lia). f_equal. f_equal. f_equal.
  rewrite drop_app_length'; [done|]. rewrite !length_app. lia.
Qed.


(** ** One call *)

Definition pairs (es : list (cstring * Z)) : list (option cstring * Z) := (fun kv => (Some (fst kv), snd kv)) <$> es.
Definition listing w (es : list (cstring * Z)) : list (list Z * Z) :=
  (fun kv : cstring * Z => (char_val <$> fst kv, type (default inode_zero (inodes w !! snd kv)))) <$> es.
Definition entry_ok w (kv : cstring * Z) : Prop := name_ok (fst kv) /\ snd kv <> 0 /\ is_Some (inodes w !! snd kv).
(** No room for the next entry. *)
Definition stops_at (es : list (cstring * Z)) (count : Z) : Prop :=
  match es with [] => True | kv :: _ => count < dirent_length (fst kv) end.

Lemma at_offset_same w fp f : open_files w !! fp = Some f -> at_offset w fp f (offset f) = w.
Proof. intros Hf. unfold at_offset. destruct f. simpl. rewrite insert_id by done. by destruct w. Qed.

Lemma at_offset_twice w fp f o o' : at_offset (at_offset w fp f o) fp (mk_file (f_inode f) (fflags f) o) o' = at_offset w fp f o'.
Proof. unfold at_offset, set_files. simpl. by rewrite insert_insert_eq. Qed.

Lemma getdents_loop_ok n t tbl iter w fp f pre old count nread es :
  table t = Some tbl -> size t = length tbl -> (length tbl <= iter_i iter + n)%nat -> open_files w !! fp = Some f ->
  entries (drop (iter_i iter) tbl) = pairs es -> Forall (entry_ok w) es -> count <= Z.of_nat (length old) -> 0 <= nread ->
  entries (drop (Z.to_nat (offset f)) tbl) = pairs es -> 0 <= offset f <= Z.of_nat (length tbl) ->
  exists es1 es2 out rest o, es = es1 ++ es2 /\
    getdents_loop type n t iter fp (pre ++ old) (length pre) count nread w =
      Ret (if bool_decide (nread + Z.of_nat (length out) = 0) && bool_decide (es <> []) then - EINVAL
           else nread + Z.of_nat (length out), pre ++ out ++ rest, at_offset w fp f o) /\
    (forall l k, dirents (length es1 + k) (out ++ l) = listing w es1 ++ dirents k l) /\
    (es1 = [] -> out = []) /\ (length es1 <= length out)%nat /\ stops_at es2 (count - Z.of_nat (length out)) /\
    entries (drop (Z.to_nat o) tbl) = pairs es2 /\ 0 <= o <= Z.of_nat (length tbl).
Proof.
  revert iter w f pre old count nread es. induction n as [|n IH]; intros iter w f pre old count nread es Ht Hsz Hn Hf Hes Hok Hc Hnr Hoff Hb;
    cbn [getdents_loop]; unfold mbind at 1, fs_bind at 1, lift at 1;
    destruct (iterate_step t tbl iter Ht Hsz) as [(iter' & -> & He)|(j & kv & -> & Hj & He)]; cbn [negb];
    rewrite Hes in He; unfold mret, fs_ret.
  1, 3: destruct es; [|done]; exists [], [], [], old, (offset f); rewrite at_offset_same by done;
    cbn [length]; rewrite Z.add_0_r, (bool_decide_eq_false_2 ([] <> [])), andb_false_r by auto; split_and!; simpl; done || lia.
  - lia.
  - destruct es as [|[nm p] es]; [done|]. cbn in He. injection He as <- He. cbn [fst snd iter_i iter_key iter_value].
    unfold mbind at 1, fs_bind at 1, lift at 1. cbn [deref]. unfold mret, fs_ret.
    apply Forall_cons in Hok as [(Hnm & Hp & [v Hv]) Hok]. cbn [fst snd] in *. case_bool_decide as Hfit.
    + exists [], ((nm, p) :: es), [], old, (offset f). rewrite at_offset_same by done. cbn [length].
      rewrite Z.add_0_r, (bool_decide_eq_true_2 ((nm, p) :: es <> [])), andb_true_r by done.
      split_and!; simpl; try done; try lia. f_equal. f_equal. f_equal. by repeat case_bool_decide.
    + destruct (put_dirent_ok w fp f pre old nm p (Z.of_nat (j + 1)) v) as (rec & Hrec & Eput & Hd); try done; [lia|].
      pose proof (dirent_length_bounds nm) as Hlb. cbv zeta in Hlb.
      unfold mbind at 1, fs_bind at 1. rewrite Eput. replace (pre ++ rec ++ drop (length rec) old) with ((pre ++ rec) ++ drop (length rec) old) by (by rewrite <- app_assoc).
      rewrite <- Hrec, Nat2Z.id, <- length_app.
      edestruct (IH (mk_iterator (j + 1) (Some nm) p) (at_offset w fp f (Z.of_nat (j + 1))) (mk_file (f_inode f) (fflags f) (Z.of_nat (j + 1))) (pre ++ rec)
        (drop (length rec) old) (count - Z.of_nat (length rec)) (nread + Z.of_nat (length rec)) es)
        as (es1 & es2 & out & rest & o & -> & -> & Hd' & H1 & Hle & Hst & Ho & Hob); try done; cbn [iter_i offset]; try lia.
      * unfold at_offset. simpl. apply lookup_insert_eq.
      * rewrite length_drop. lia.
      * by rewrite Nat2Z.id.
      * exists ((nm, p) :: es1), es2, (rec ++ out), rest, o. rewrite at_offset_twice, length_app. split_and!; try done.
        -- rewrite (bool_decide_eq_false_2 (_ = 0)) by lia. rewrite (bool_decide_eq_false_2 (_ = 0)) by lia. cbn [andb].
           f_equal. f_equal. f_equal; [lia|by rewrite <- !app_assoc].
        -- intros l k. cbn [length Nat.add]. rewrite <- app_assoc, Hd, Hd'. cbn. by rewrite Hv.
        -- cbn [length]. lia.
        -- by rewrite Nat2Z.inj_add, Z.sub_add_distr.
        -- lia.
        -- lia.
Qed.

End Record_.

(** ** A whole directory, through the system call *)

Section Listing.
Context {T : Type} `{!TableOps Z Z T, !TableSpec Z Z T}.
Context (tables : Z -> hashtable cstring Z).
Implicit Types (w : world T).

(** A program that calls [getdents] with one buffer after the other until the
    result is not positive, and takes names and types out of what it gets. *)
Fixpoint list_dir (fdnum : Z) (bufs : list (list Z)) : FS T (list (list Z * Z)) :=
  match bufs with
  | [] => mret []
  | buf :: bufs =>
      r ← sys_getdents tables fdnum buf (Z.of_nat (length buf));
      let '(n, out) := (r : Z * list Z) in
      if bool_decide (n <= 0) then mret [] else
      l ← list_dir fdnum bufs;
      mret (read_dirents (take (Z.to_nat n) out) ++ l)
  end.

(** [fdnum] is a descriptor of the running task for a directory of a ramfs or a
    devfs; [fp] is its [struct file], [t] the table of the directory and [m] what
    it holds. *)
Record dir_open w (fdnum fp : Z) (f : file) (t : hashtable cstring Z) (m : gmap cstring Z) : Prop := {
  do_fd : exists fm r p fl, fd_rep w fm (S r) /\ 0 <= fdnum < Z.of_nat TASK_FD_MAX /\ fm !! fdnum = Some p /\ p <> 0 /\
    fds w !! p = Some (mk_fd fl fp);
  do_file : fp <> 0 /\ open_files w !! fp = Some f /\ f_inode f <> 0;
  do_inode : exists i r, inodes w !! f_inode f = Some i /\ (i_fs i = Some ramfs_fs \/ i_fs i = Some devfs_fs) /\
    rams w !! priv i = Some r /\ files r = Some m /\ tables (priv i) = t;
  do_table : ht_inv t m;
}.

Lemma dir_open_at_offset w fdnum fp f t m o : dir_open w fdnum fp f t m ->
  dir_open (at_offset w fp f o) fdnum fp (mk_file (f_inode f) (fflags f) o) t m.
Proof.
  intros [Hfd (? & Hf & ?) Hi Ht]. split; [exact Hfd| |exact Hi|exact Ht].
  split_and!; [done| |done]. unfold at_offset. simpl. apply lookup_insert_eq.
Qed.

Lemma sys_getdents_eq w fdnum fp f t m buf count : dir_open w fdnum fp f t m ->
  sys_getdents tables fdnum buf count w = getdents_from ramfs_type t fp buf count w.
Proof.
  intros [(fm & room & p & fl & Hrep & Hb & Hp & Hp0 & Hfd) (Hfp & Hf & Hip) (i & r & Hi & Hfs & Hr & Hm & <-) _].
  unfold sys_getdents, to_fd. rewrite bool_decide_eq_false_2 by lia. unfold mbind at 1, fs_bind at 1.
  rewrite (fd_get_eq w fm room fdnum Hrep Hb), Hp. cbn [default id]. rewrite bool_decide_eq_false_2 by done.
  unfold mbind at 1, fs_bind at 1, get_fd, lift at 1. rewrite Hfd. cbn [deref fd_file]. rewrite bool_decide_eq_false_2 by done.
  assert (E : ramfs_getdents tables fp buf count w = getdents_from ramfs_type (tables (priv i)) fp buf count w).
  { unfold ramfs_getdents, mbind, fs_bind, get_file, get_inode, get_ram, lift. rewrite Hf. cbn [deref].
    rewrite bool_decide_eq_false_2, Hi by done. cbn [deref]. rewrite Hr. cbn [deref].
    rewrite bool_decide_eq_false_2 by (rewrite Hm; discriminate). done. }
  unfold mbind at 1, fs_bind at 1, get_file at 1, lift at 1. rewrite Hf. cbn [deref]. rewrite bool_decide_eq_false_2 by done.
  unfold mbind at 1, fs_bind at 1, get_inode at 1, lift at 1. rewrite Hi. cbn [deref]. by destruct Hfs as [-> | ->].
Qed.

(** The order the table lists its bindings in. *)
Lemma inv_slots (t : hashtable cstring Z) m : ht_inv t m ->
  exists tbl es, table t = Some tbl /\ size t = length tbl /\ entries tbl = pairs es /\ es ≡ₚ map_to_list m.
Proof.
  intros [(tbl & Ht & Hsz & _ & Hwf & _) _].
  assert (Hp : entries tbl ≡ₚ pairs (map_to_list m)).
  { rewrite (entries_perm tbl m Hwf). unfold pairs. apply reflexive_eq, list_fmap_ext. by intros _ [k v] _. }
  apply (Permutation_map_inv (fun kv : cstring * Z => (Some (fst kv), snd kv))) in Hp as (es & E & Hes). by exists tbl, es.
Qed.

Lemma list_dir_from bufs w fdnum fp f t m tbl es : dir_open w fdnum fp f t m ->
  table t = Some tbl -> size t = length tbl -> entries (drop (Z.to_nat (offset f)) tbl) = pairs es ->
  0 <= offset f <= Z.of_nat (length tbl) -> Forall (entry_ok w) es ->
  exists es1 es2 o, es = es1 ++ es2 /\
    list_dir fdnum bufs w = Ret (listing ramfs_type w es1, at_offset w fp f o) /\
    (Forall (fun b => Forall (fun kv => dirent_length (fst kv) <= Z.of_nat (length b)) es) bufs ->
     (length es <= length bufs)%nat -> es2 = []).
Proof.
  revert w f es. induction bufs as [|buf bufs IH]; intros w f es Hd Ht Hsz Hes Hb Hok.
  - exists [], es, (offset f). rewrite at_offset_same by apply Hd. split_and!; [done..|]. intros _ Hl. by destruct es; simpl in Hl; [|lia].
  - pose proof (do_table _ _ _ _ _ _ Hd) as (_ & _ & Hbig). unfold max_size in Hbig. destruct (do_file _ _ _ _ _ _ Hd) as (_ & Hf & _).
    cbn [list_dir]. unfold mbind at 1, fs_bind at 1. rewrite (sys_getdents_eq w fdnum fp f t m) by done.
    unfold getdents_from, mbind at 1, fs_bind at 1, get_file, lift at 1. rewrite Hf. cbn [deref].
    rewrite wrap32_small by lia.
    destruct (getdents_loop_ok ramfs_type (size t) t tbl (mk_iterator (Z.to_nat (offset f)) None 0) w fp f [] buf (Z.of_nat (length buf)) 0 es)
      as (es1 & es2 & out & rest & o & -> & E & Hd1 & H1 & Hle & Hst & Ho & Hob); try done; cbn [iter_i]; try lia.
    cbn [app length] in E. rewrite E. clear E. rewrite Z.add_0_l. destruct es1 as [|kv es1].
    + rewrite H1 by done. cbn [length]. rewrite (bool_decide_eq_true_2 (Z.of_nat 0 = 0)) by done. cbn [andb app].
      rewrite (bool_decide_eq_true_2 (_ <= 0)) by (case_bool_decide; done).
      exists [], es2, o. split_and!; [done..|]. intros Hfit _. destruct es2 as [|kv es2]; [done|].
      apply Forall_cons in Hfit as [Hfit _]. apply Forall_cons in Hfit as [Hfit _]. simpl in Hst. rewrite H1 in Hst by done. simpl in Hst. lia.
    + rewrite (bool_decide_eq_false_2 (_ = 0)) by (simpl in Hle; lia). cbn [andb].
      rewrite bool_decide_eq_false_2 by (simpl in Hle; lia). apply Forall_app in Hok as [Hok1 Hok2].
      destruct (IH (at_offset w fp f o) (mk_file (f_inode f) (fflags f) o) es2) as (es3 & es4 & o' & -> & E & Hall); try done.
      { by apply dir_open_at_offset. }
      unfold mbind at 1, fs_bind at 1. rewrite E. exists ((kv :: es1) ++ es3), es4, o'. split; [by rewrite app_assoc|]. split.
      * unfold mret, fs_ret. rewrite at_offset_twice, Nat2Z.id, take_app_length. unfold read_dirents. f_equal. f_equal.
        unfold listing at 2. rewrite fmap_app. f_equal.
        pose proof (Hd1 [] (length out - length (kv :: es1))%nat) as Hr. rewrite !app_nil_r in Hr.
        replace (length (kv :: es1) + (length out - length (kv :: es1)))%nat with (length out) in Hr by lia.
        rewrite Hr. unfold listing. destruct (length out - _)%nat; simpl; by rewrite app_nil_r.
      * intros Hfit Hl. apply Hall; [|rewrite length_app in Hl; simpl in Hl; lia].
        apply Forall_cons in Hfit as [_ Hfit]. eapply Forall_impl; [exact Hfit|]. intros b Hfb. by apply Forall_app in Hfb as [_ ?].
Qed.


(** C15.  Through the system call and whatever the sizes of the buffers, a program
    that reads an open directory gets names and types in one fixed order of the
    entries, none twice and none left out in between, and changes nothing but
    the offset of its file; when each buffer has room for any one record and
    there are as many as entries, it gets every entry of the directory. *)
Theorem getdents_lists_directory w fdnum fp f t m :
  dir_open w fdnum fp f t m -> offset f = 0 -> (forall nm p, m !! nm = Some p -> entry_ok w (nm, p)) ->
  exists es, es ≡ₚ map_to_list m /\ forall bufs, exists es1 es2 o, es = es1 ++ es2 /\
    list_dir fdnum bufs w = Ret (listing ramfs_type w es1, at_offset w fp f o) /\
    (Forall (fun b => forall nm p, m !! nm = Some p -> dirent_length nm <= Z.of_nat (length b)) bufs ->
     (base.size m <= length bufs)%nat -> es2 = []).
Proof.
  intros Hd Ho Hok. pose proof (do_table _ _ _ _ _ _ Hd) as Hinv.
  destruct (inv_slots t m Hinv) as (tbl & es & Ht & Hsz & Hes & Hp). exists es. split; [done|]. intros bufs.
  destruct (list_dir_from bufs w fdnum fp f t m tbl es) as (es1 & es2 & o & E & El & Hall); try done.
  - by rewrite Ho.
  - lia.
  - rewrite Hp. apply Forall_forall. intros [nm p] Hin. by apply Hok, elem_of_map_to_list.
  - exists es1, es2, o. split_and!; [done..|]. intros Hfit Hl. apply Hall.
    + eapply Forall_impl; [exact Hfit|]. intros b Hb. rewrite Hp. apply Forall_forall. intros [nm p] Hin. by eapply Hb, elem_of_map_to_list.
    + rewrite Hp, length_map_to_list. done.
Qed.

End Listing.

(** ** Concrete runs *)

Module Ex.

Definition str := String.list_ascii_of_string.
#[local] Existing Instance Fs.null_Z.

(** A directory with a directory, a file and a device. *)
Definition names : list (cstring * Z) := [(str "dev", 500); (str "log", 504); (str "tty8", 508)].
Definition grow (t : hashtable cstring Z) (l : list (cstring * Z)) : outcome (hashtable cstring Z) :=
  foldO (fun t p => hashtable_add (fun _ => true) t (fst p) (snd p)) t l.
Definition no_names : hashtable cstring Z := mk_hashtable (Some (replicate 8 zero_node)) 8 0.
Definition dir_table : hashtable cstring Z := match grow no_names names with Ret t => t | _ => no_names end.
Definition dir_map : gmap cstring Z := foldl (fun m p => <[fst p := snd p]> m) ∅ names.
Definition node (fl : Z) : inode := mk_inode (Some ramfs_fs) 0 fl 0 1 0 false.
Definition dir_world (t : hashtable Z Z) : world (hashtable Z Z) :=
  mk_world {[200 := open_dir; 500 := node S_IFDIR; 504 := node S_IFREG; 508 := node S_IFCHR; 512 := node S_IFREG]}
    {[200 := mk_ram [] (Some dir_map) (Some ∅)]} None ∅ 200 {[304 := mk_file 200 0 0]} {[300 := mk_fd 0 304]} t 600 9.

Definition buffer (n : nat) : list Z := replicate n 0.
Definition read_all (bufs : list (list Z)) : list (list Z * Z) :=
  match list_dir (T := hashtable Z Z) (fun _ => dir_table) 3 bufs (dir_world (match tbl_add new_uint 3 300 with Ret t => t | _ => new_uint end))
  with Ret (l, _) => l | _ => [] end.

Lemma dir_inv : ht_inv dir_table dir_map.
Proof.
  destruct (create_inv (K := cstring) (fun _ => true) no_names eq_refl) as (Hinv & Hcl & Hsz).
  pose proof (additions_spec (fun _ => true) no_names ∅ names (length names) ltac:(lia) Hinv) as Hr.
  apply Hr; [repeat constructor; vm_compute; discriminate|by rewrite map_size_empty|reflexivity].
Qed.

Lemma getdents_lists_directory_witness :
  exists t l o, tbl_add new_uint 3 300 = Ret t /\
    list_dir (fun _ => dir_table) 3 [buffer 40; buffer 40; buffer 40] (dir_world t) =
      Ret (l, at_offset (dir_world t) 304 (mk_file 200 0 0) o) /\
    l ≡ₚ [(char_val <$> str "dev", DT_DIR); (char_val <$> str "log", DT_REG); (char_val <$> str "tty8", DT_CHR)].
Proof.
  destruct (new_uint_fd_rep (dir_world new_uint) 8 eq_refl) as [Hr Hk]; [lia|].
  destruct (tbl_add_ok new_uint ∅ 7 3 300 Hr) as (t & E & Hr').
  { apply Hk. unfold TASK_FD_MAX. lia. }
  destruct (getdents_lists_directory (fun _ => dir_table) (dir_world t) 3 304 (mk_file 200 0 0) dir_table dir_map) as (es & Hp & Hall).
  - split.
    + exists (<[3 := 300]> ∅), 6%nat, 300, 0. split; [split; [exact Hr'|exact Hk]|]. split; [unfold TASK_FD_MAX; lia|].
      split; [reflexivity|]. split; [discriminate|]. reflexivity.
    + split; [discriminate|]. split; [reflexivity|discriminate].
    + exists open_dir, (mk_ram [] (Some dir_map) (Some ∅)). split; [reflexivity|]. split; [left; reflexivity|].
      split; [reflexivity|]. split; reflexivity.
    + apply dir_inv.
  - reflexivity.
  - intros nm p Hm. unfold dir_map, names in Hm. cbn [foldl fst snd] in Hm.
    repeat (apply lookup_insert_Some in Hm as [[<- <-]|[_ Hm]]; [split; [vm_compute; repeat split; try discriminate|split; [discriminate|eexists; reflexivity]]|]).
    by rewrite lookup_empty in Hm.
  - destruct (Hall [buffer 40; buffer 40; buffer 40]) as (es1 & es2 & o & E1 & El & Hend).
    exists t, (listing ramfs_type (dir_world t) es1), o. split; [exact E|]. split; [exact El|].
    rewrite Hend, app_nil_r in E1.
    + subst es1. unfold listing. rewrite Hp. apply reflexive_eq. vm_compute. reflexivity.
    + repeat constructor; intros nm p Hm; unfold dir_map, names in Hm; cbn [foldl fst snd] in Hm;
        (repeat (apply lookup_insert_Some in Hm as [[<- <-]|[_ Hm]]; [vm_compute; discriminate|])); by rewrite lookup_empty in Hm.
    + vm_compute. lia.
Defined.

(** A defect: the offset of the file is a slot of the table.  Between two calls
    the directory grows, its entries change slots, and one is listed again. *)
Definition descriptor_table : hashtable Z Z := match tbl_add new_uint 3 300 with Ret t => t | _ => new_uint end.
Definition grown : hashtable cstring Z := match grow dir_table [(str "tmp", 512)] with Ret t => t | _ => no_names end.
Definition then_list : FS (hashtable Z Z) (list (list Z * Z)) :=
  a ← list_dir (fun _ => dir_table) 3 [buffer 20]; b ← list_dir (fun _ => grown) 3 [buffer 80]; mret (a ++ b).
Definition listed {A} (o : outcome (A * world (hashtable Z Z))) : outcome A := r ← o; Ret (fst r).
Example listed_twice : listed (then_list (dir_world descriptor_table)) =
  Ret ([(char_val <$> str "tty8", DT_CHR); (char_val <$> str "log", DT_REG);
        (char_val <$> str "tty8", DT_CHR); (char_val <$> str "dev", DT_DIR)]).
Proof. vm_compute. reflexivity. Qed.

(** A regular file lists as an empty directory: what is open is not looked at. *)
Example file_lists_empty : listed (list_dir (T := hashtable Z Z) (fun _ => no_names) 3 [buffer 40]
  (set_inodes {[200 := mk_inode (Some ramfs_fs) 200 S_IFREG 0 1 0 false]} (dir_world descriptor_table))) = Ret [].
Proof. vm_compute. reflexivity. Qed.

End Ex.
End FsDir.
