(* ===== verification/Gpio.v ===== *)
(** The GPIO core of [src/drivers/gpio/core.c]: the controllers register their
    lines in one global numbering, and every operation on a line goes to the
    controller that owns it.

    Controllers live at addresses; [devices] is the sorted list of the ones
    registered.  What a controller does when called is its driver's code: a
    function on the driver's own state [D]. *)
From stdpp Require Import sorting.
From S2P Require Import Prelude DList.
#[local] Open Scope Z_scope.

Module Gpio.
Section Core.
Context {D : Type}.

(** What a driver does to its state, and its result. *)
Definition line_op : Type := D -> Z -> outcome (D * Z).

(** [struct gpio_ops]; an operation may be missing. *)
Record gpio_ops := mk_ops {
  get_direction : option line_op;
  direction_in : option line_op;
  direction_out : option (D -> Z -> Z -> outcome (D * Z));
  activate : option line_op;
  deactivate : option line_op;
  get_value : option line_op;
  set_value : option (D -> Z -> Z -> outcome (D * Z));
  set_debounce : option (D -> Z -> Z -> outcome (D * Z));
  irq_attach : option (D -> Z -> Z -> outcome (D * Z));
  irq_set_triggering : option (D -> Z -> Z -> outcome (D * Z));
  irq_mask : option line_op;
  irq_unmask : option line_op;
  irq_clear : option line_op;
}.

Record gpio_device := mk_gpio { ops : option gpio_ops; base : Z; count : Z; drv : D }.

Record world := mk_world { devs : gmap Z gpio_device; devices : list Z; line_count : Z }.

Definition put_dev (p : Z) (d : gpio_device) (w : world) : world := mk_world (<[p := d]> (devs w)) (devices w) (line_count w).
Definition with_base (d : gpio_device) (b : Z) : gpio_device := mk_gpio (ops d) b (count d) (drv d).
Definition with_drv (d : gpio_device) (s : D) : gpio_device := mk_gpio (ops d) (base d) (count d) s.

(** ** Finding lines *)

Definition owns (d : gpio_device) (line : Z) : bool := bool_decide (base d <= line) && bool_decide (line < wrap32 (base d + count d)).

Fixpoint find_device (w : world) (line : Z) (l : list Z) : outcome (option Z) :=
  match l with
  | [] => Ret None
  | p :: l => d ← deref (devs w !! p); if owns d line then Ret (Some p) else find_device w line l
  end.
Definition _gpio_get_device (w : world) (line : Z) : outcome (option Z) := find_device w line (devices w).
Definition gpio_get_device (w : world) (line : Z) : outcome (option Z) := _gpio_get_device w line.

(** ** Registration *)

Fixpoint find_base (w : world) (n : Z) (b : Z) (l : list Z) : outcome Z :=
  match l with
  | [] => Ret b
  | p :: l =>
      d ← deref (devs w !! p);
      let last := wrap32 (b + n - 1) in
      if owns d b || owns d last then find_base w n (wrap32 (base d + count d)) l else find_base w n b l
  end.
Definition gpio_find_base (w : world) (n : Z) : outcome Z := find_base w n 0 (devices w).

Definition gpio_compare (w : world) (p q : Z) : Z :=
  match devs w !! p, devs w !! q with
  | Some d1, Some d2 => sint32 (wrap32 (base d1 - base d2))
  | _, _ => 0
  end.

(** [base] is -1, that is [2 ^ 32 - 1], to have one chosen.  [list_init] on the
    node of a registered controller would cut the list. *)
Definition gpio_device_register (p : Z) (w : world) : outcome (Z * world) :=
  if bool_decide (p = 0) then Ret (- EINVAL, w) else
  if bool_decide (p ∈ devices w) then Fault else
  d ← deref (devs w !! p);
  let add w :=
    d ← deref (devs w !! p);
    Ret (0, mk_world (devs w) (DList.sorted_insert (gpio_compare w) p (devices w)) (wrap32 (line_count w + count d))) in
  if bool_decide (base d <> 2 ^ 32 - 1) then
    first ← _gpio_get_device w (base d);
    last ← _gpio_get_device w (wrap32 (base d + count d - 1));
    if bool_decide (first <> None) || bool_decide (last <> None) then Ret (- EBUSY, w) else add w
  else
    b ← gpio_find_base w (count d);
    add (put_dev p (with_base d b) w).

Definition gpio_line_count (w : world) : Z := line_count w.

(** ** Operations on a line *)

(** What the thirteen operations share: [select] picks the operation. *)
Definition dispatch (select : gpio_ops -> option line_op) (line : Z) (w : world) : outcome (Z * world) :=
  dev ← gpio_get_device w line;
  match dev with
  | None => Ret (- ENODEV, w)
  | Some p =>
      d ← deref (devs w !! p);
      match ops d with
      | None => Ret (- EINVAL, w)
      | Some o =>
          match select o with
          | None => Ret (- ENOSYS, w)
          | Some f => '(s, r) ← f (drv d) (wrap32 (line - base d)); Ret (r, put_dev p (with_drv d s) w)
          end
      end
  end.

(** An operation with an argument, given that argument. *)
Definition with_arg (f : option (D -> Z -> Z -> outcome (D * Z))) (v : Z) : option line_op := (fun f s l => f s l v) <$> f.

Definition gpio_get_direction (line : Z) (w : world) := dispatch get_direction line w.
Definition gpio_direction_in (line : Z) (w : world) := dispatch direction_in line w.
Definition gpio_direction_out (line value : Z) (w : world) := dispatch (fun o => with_arg (direction_out o) value) line w.
Definition gpio_activate (line : Z) (w : world) := dispatch activate line w.
Definition gpio_deactivate (line : Z) (w : world) := dispatch deactivate line w.
Definition gpio_get_value (line : Z) (w : world) := dispatch get_value line w.
Definition gpio_set_value (line value : Z) (w : world) := dispatch (fun o => with_arg (set_value o) value) line w.
Definition gpio_set_debounce (line usec : Z) (w : world) := dispatch (fun o => with_arg (set_debounce o) usec) line w.
Definition gpio_irq_attach (line handler : Z) (w : world) := dispatch (fun o => with_arg (irq_attach o) handler) line w.
Definition gpio_irq_set_triggering (line trigger : Z) (w : world) := dispatch (fun o => with_arg (irq_set_triggering o) trigger) line w.
Definition gpio_irq_mask (line : Z) (w : world) := dispatch irq_mask line w.
Definition gpio_irq_unmask (line : Z) (w : world) := dispatch irq_unmask line w.
Definition gpio_irq_clear (line : Z) (w : world) := dispatch irq_clear line w.

(** A request for one of them. *)
Inductive request :=
  | GetDirection | DirectionIn | DirectionOut (value : Z) | Activate | Deactivate | GetValue | SetValue (value : Z)
  | SetDebounce (usec : Z) | IrqAttach (handler : Z) | IrqSetTriggering (trigger : Z) | IrqMask | IrqUnmask | IrqClear.

Definition run_request (r : request) (line : Z) (w : world) : outcome (Z * world) :=
  match r with
  | GetDirection => gpio_get_direction line w
  | DirectionIn => gpio_direction_in line w
  | DirectionOut v => gpio_direction_out line v w
  | Activate => gpio_activate line w
  | Deactivate => gpio_deactivate line w
  | GetValue => gpio_get_value line w
  | SetValue v => gpio_set_value line v w
  | SetDebounce v => gpio_set_debounce line v w
  | IrqAttach v => gpio_irq_attach line v w
  | IrqSetTriggering v => gpio_irq_set_triggering line v w
  | IrqMask => gpio_irq_mask line w
  | IrqUnmask => gpio_irq_unmask line w
  | IrqClear => gpio_irq_clear line w
  end.

(** The member of [gpio_ops] a request is for. *)
Definition member (r : request) (o : gpio_ops) : option line_op :=
  match r with
  | GetDirection => get_direction o
  | DirectionIn => direction_in o
  | DirectionOut v => with_arg (direction_out o) v
  | Activate => activate o
  | Deactivate => deactivate o
  | GetValue => get_value o
  | SetValue v => with_arg (set_value o) v
  | SetDebounce v => with_arg (set_debounce o) v
  | IrqAttach v => with_arg (irq_attach o) v
  | IrqSetTriggering v => with_arg (irq_set_triggering o) v
  | IrqMask => irq_mask o
  | IrqUnmask => irq_unmask o
  | IrqClear => irq_clear o
  end.

(** ** Well-formed registries *)

Definition fits (d : gpio_device) : Prop := 0 <= base d /\ 0 < count d /\ base d + count d <= 2 ^ 31.

(** Lines are below [2 ^ 31], where [gpio_compare] orders by base. *)
Definition before (m : gmap Z gpio_device) (p q : Z) : Prop :=
  exists d e, m !! p = Some d /\ m !! q = Some e /\ base d + count d <= base e.

Record registry_ok (w : world) : Prop := {
  ok_devices : forall p, p ∈ devices w -> exists d, devs w !! p = Some d /\ fits d;
  ok_apart : StronglySorted (before (devs w)) (devices w);
}.

Lemma owns_iff d line : fits d -> 0 <= line -> owns d line = true <-> base d <= line < base d + count d.
Proof.
  intros (? & ? & ?) ?. unfold owns. rewrite wrap32_small by lia. rewrite andb_true_iff, !bool_decide_eq_true. tauto.
Qed.

Lemma find_none w line l : (forall p, p ∈ l -> exists d, devs w !! p = Some d /\ owns d line = false) -> find_device w line l = Ret None.
Proof.
  induction l as [|p l IH]; intros H; [done|]. cbn [find_device].
  destruct (H p) as (d & -> & E); [left|]. cbn [deref]. unfold mbind, outcome_bind. rewrite E. apply IH. intros q Hq. apply H. by right.
Qed.

Lemma find_first w line l1 p d l2 : (forall q, q ∈ l1 -> exists e, devs w !! q = Some e /\ owns e line = false) ->
  devs w !! p = Some d -> owns d line = true -> find_device w line (l1 ++ p :: l2) = Ret (Some p).
Proof.
  intros H Hd Hp. induction l1 as [|q l1 IH]; cbn [find_device app]; unfold mbind, outcome_bind.
  - rewrite Hd. cbn [deref]. by rewrite Hp.
  - destruct (H q) as (e & -> & E); [left|]. cbn [deref]. rewrite E. apply IH. intros x Hx. apply H. by right.
Qed.

(** The first owner is the only one. *)
Lemma find_owner w line p d : registry_ok w -> 0 <= line -> p ∈ devices w -> devs w !! p = Some d -> owns d line = true ->
  _gpio_get_device w line = Ret (Some p).
Proof.
  intros [Hd Ha] Hl Hp Hpd Ho. apply list_elem_of_split in Hp as (l1 & l2 & El). unfold _gpio_get_device. rewrite El in *.
  apply (find_first _ _ _ _ d); [|done|done]. intros q Hq. destruct (Hd q) as (e & He & Hf); [set_solver|].
  exists e. split; [done|]. apply not_true_iff_false. rewrite owns_iff by done. intros Hq'.
  destruct (Hd p) as (d' & Hd' & Hf'); [set_solver|]. simplify_eq. apply owns_iff in Ho; [|done|done].
  apply StronglySorted_app in Ha as (Hx & _). destruct (Hx q p Hq) as (e1 & d1 & E1 & E2 & ?); [left|]. simplify_eq. lia.
Qed.

Lemma find_cases w line : registry_ok w ->
  (_gpio_get_device w line = Ret None /\ forall p d, p ∈ devices w -> devs w !! p = Some d -> owns d line = false) \/
  exists p d, _gpio_get_device w line = Ret (Some p) /\ p ∈ devices w /\ devs w !! p = Some d /\ owns d line = true.
Proof.
  intros [Hd _]. unfold _gpio_get_device. induction (devices w) as [|p l IH]; [left; split; [done|intros ??; by intros ?%elem_of_nil]|].
  destruct (Hd p) as (d & Ed & _); [left|]. cbn [find_device]. unfold mbind, outcome_bind. rewrite Ed. cbn [deref].
  destruct (owns d line) eqn:E.
  - right. exists p, d. split_and!; [done|left|done|done].
  - destruct IH as [(H1 & H2)|(q & e & H1 & Hq & H2)]; [intros q Hq; apply Hd; by right| |].
    + left. split; [done|]. intros q e [->|Hq]%elem_of_cons He; [by simplify_eq|]. by apply (H2 q).
    + right. exists q, e. split; [done|]. split; [by right|done].
Qed.


(** ** Registering *)

(** A controller that shares no line with those of a sorted list is inserted
    where it belongs. *)
Lemma insert_apart w p d l : devs w !! p = Some d -> fits d ->
  (forall q, q ∈ l -> exists e, devs w !! q = Some e /\ fits e) -> StronglySorted (before (devs w)) l ->
  (forall q, q ∈ l -> before (devs w) p q \/ before (devs w) q p) ->
  StronglySorted (before (devs w)) (DList.sorted_insert (gpio_compare w) p l).
Proof.
  intros Hp Hf Hl Hs. induction Hs as [|x l Hs IH Hx]; intros Ha; [by repeat constructor|].
  cbn [DList.sorted_insert]. destruct (Hl x) as (e & He & Hfe); [left|].
  assert (Hcmp : gpio_compare w p x = base d - base e).
  { unfold gpio_compare. rewrite Hp, He. unfold sint32. unfold fits in *. set (z := base d - base e).
    assert (Hz : - 2 ^ 31 < z < 2 ^ 31) by (unfold z; lia). destruct (decide (0 <= z)).
    - rewrite (wrap32_small z), wrap32_small by lia. case_bool_decide; lia.
    - assert (wrap32 z = z + 2 ^ 32) as -> by (unfold wrap32; symmetry; apply Z.mod_unique_pos with (-1); lia).
      rewrite wrap32_small by lia. case_bool_decide; lia. }
  rewrite Hcmp. assert (Hx' := Ha x ltac:(left)). case_bool_decide as Hc.
  - constructor; [apply IH; [intros q Hq; apply Hl; by right|intros q Hq; apply Ha; by right]|].
    apply Forall_forall. intros y Hy%DList.sorted_insert_elem. destruct Hy as [->|Hy]; [|rewrite Forall_forall in Hx; by apply Hx].
    destruct Hx' as [(d' & e' & ? & ? & ?)|?]; [|done]. simplify_eq. destruct Hf as (? & ? & ?). lia.
  - assert (Hpx : before (devs w) p x).
    { destruct Hx' as [?|(e' & d' & ? & ? & ?)]; [done|]. simplify_eq. destruct Hfe as (? & ? & ?). lia. }
    constructor; [by constructor|]. constructor; [done|]. rewrite Forall_forall in Hx |- *. intros y Hy.
    destruct (Hx y Hy) as (e1 & f & E1 & E2 & ?). destruct Hpx as (d1 & e2 & ? & ? & ?). simplify_eq.
    eexists _, _. destruct Hfe as (? & ? & ?). split_and!; [done|done|lia].
Qed.

(** With no more lines than the others, a range whose ends are free is free. *)
Lemma ends_free d e : fits d -> fits e -> count d <= count e ->
  owns e (base d) = false -> owns e (wrap32 (base d + count d - 1)) = false ->
  base d + count d <= base e \/ base e + count e <= base d.
Proof.
  intros Hd He Hc H1%not_true_iff_false H2%not_true_iff_false. pose proof Hd as (? & ? & ?). pose proof He as (? & ? & ?).
  rewrite wrap32_small in H2 by lia. rewrite owns_iff in H1, H2 by (done || lia). lia.
Qed.


(** The [n] lines from [b] are none of the controller's at [q]. *)
Definition apart (w : world) (b n q : Z) : Prop :=
  exists e, devs w !! q = Some e /\ (b + n <= base e \/ base e + count e <= b).

(** Room for [n] more lines: no controller has fewer, and the numbering has
    space after each. *)
Definition room (w : world) (n q : Z) : Prop :=
  exists e, devs w !! q = Some e /\ fits e /\ n <= count e /\ base e + count e + n <= 2 ^ 31.

Lemma find_base_spec w n l1 l2 b : 0 < n -> 0 <= b -> b + n <= 2 ^ 31 ->
  (forall q, q ∈ l1 ++ l2 -> room w n q) -> StronglySorted (before (devs w)) (l1 ++ l2) -> (forall q, q ∈ l1 -> apart w b n q) ->
  exists b', find_base w n b l2 = Ret b' /\ 0 <= b' /\ b' + n <= 2 ^ 31 /\ forall q, q ∈ l1 ++ l2 -> apart w b' n q.
Proof.
  intros Hn. revert l1 b. induction l2 as [|x l2 IH]; intros l1 b Hb Hbn Hr Hs Ha.
  { exists b. rewrite app_nil_r. by split_and!. }
  destruct (Hr x) as (e & He & Hf & Hc & Hroom); [set_solver|]. cbn [find_base]. unfold mbind, outcome_bind. rewrite He. cbn [deref].
  rewrite (cons_middle x l1 l2), app_assoc in Hr, Hs |- *. pose proof Hf as (? & ? & ?).
  set (d := mk_gpio None b n (drv e)). assert (Hd : fits d) by (unfold fits, d; cbn; lia).
  destruct (owns e b || owns e (wrap32 (b + n - 1))) eqn:E.
  - rewrite wrap32_small by lia. apply IH; [lia|lia|done|done|].
    intros q [Hq| ->%list_elem_of_singleton]%elem_of_app; [|exists e; split; [done|right; lia]].
    apply StronglySorted_app in Hs as (_ & Hs & _). apply StronglySorted_app in Hs as (Hx & _).
    destruct (Hx q x Hq) as (f & e' & Ef & Ee & ?); [left|]. simplify_eq. exists f. split; [done|right; lia].
  - apply orb_false_iff in E as [E1 E2]. apply IH; [done|done|done|done|].
    intros q [Hq| ->%list_elem_of_singleton]%elem_of_app; [by apply Ha|]. exists e. split; [done|].
    apply (ends_free d e Hd Hf Hc E1 E2).
Qed.


Lemma sorted_agree m m' l : StronglySorted (before m) l -> (forall q, q ∈ l -> m !! q = m' !! q) -> StronglySorted (before m') l.
Proof.
  induction 1 as [|x l Hs IH Hx]; intros Hm; [constructor|].
  constructor; [apply IH; intros q Hq; apply Hm; by right|]. apply Forall_forall. intros y Hy. rewrite Forall_forall in Hx.
  destruct (Hx y Hy) as (e & f & He & Hf & Hle). exists e, f. rewrite <- !Hm by (by left || by right). by split_and!.
Qed.

(** The registry with the controller [p] at base [b]. *)
Definition registered (p : Z) (d : gpio_device) (b : Z) (w : world) : world :=
  let m := <[p := with_base d b]> (devs w) in
  mk_world m (DList.sorted_insert (gpio_compare (mk_world m (devices w) (line_count w))) p (devices w)) (wrap32 (line_count w + count d)).

Lemma registered_ok p d b w : registry_ok w -> p ∉ devices w -> fits (with_base d b) ->
  (forall q, q ∈ devices w -> apart w b (count d) q) -> registry_ok (registered p d b w).
Proof.
  intros [Hd Ha] Hp Hf Hap.
  assert (Hkeep : forall q, q ∈ devices w -> (<[p := with_base d b]> (devs w)) !! q = devs w !! q).
  { intros q Hq. rewrite lookup_insert_ne; [done|]. by intros ->. }
  split; cbn [devs devices registered].
  - intros q [->|Hq]%DList.sorted_insert_elem; [rewrite lookup_insert_eq; by eexists|]. rewrite Hkeep by done. by apply Hd.
  - pose proof (insert_apart (mk_world (<[p := with_base d b]> (devs w)) (devices w) (line_count w)) p (with_base d b) (devices w)) as Hi.
    cbn [devs] in Hi. apply Hi.
    + by rewrite lookup_insert_eq.
    + done.
    + intros q Hq. rewrite Hkeep by done. by apply Hd.
    + apply (sorted_agree (devs w)); [done|]. intros q Hq. symmetry. by apply Hkeep.
    + intros q Hq. destruct (Hap q Hq) as (e & He & [H1|H1]); [left; exists (with_base d b), e|right; exists e, (with_base d b)];
        rewrite lookup_insert_eq, Hkeep by done; by split_and!.
Qed.

Lemma register_given p d w : registry_ok w -> p <> 0 -> p ∉ devices w -> devs w !! p = Some d -> fits d ->
  (forall q e, q ∈ devices w -> devs w !! q = Some e -> count d <= count e) ->
  (gpio_device_register p w = Ret (- EBUSY, w) /\ exists q e line, q ∈ devices w /\ devs w !! q = Some e /\ owns e line = true /\ owns d line = true) \/
  (gpio_device_register p w = Ret (0, registered p d (base d) w) /\ forall q, q ∈ devices w -> apart w (base d) (count d) q).
Proof.
  intros Hok H0 Hp Hd Hf Hc. pose proof Hf as (? & ? & ?). unfold gpio_device_register.
  rewrite bool_decide_eq_false_2, (bool_decide_eq_false_2 (p ∈ _)) by done. unfold mbind, outcome_bind. rewrite Hd. cbn [deref].
  rewrite bool_decide_eq_true_2 by lia. rewrite (wrap32_small (base d + count d - 1)) by lia.
  assert (Hown : forall line, base d <= line < base d + count d -> owns d line = true) by (intros; apply owns_iff; [done|lia|done]).
  destruct (find_cases w (base d) Hok) as [(E1 & N1)|(q & e & E1 & Hq & He & Ho)]; rewrite E1; cycle 1.
  { destruct (find_cases w (base d + count d - 1) Hok) as [(E2 & _)|(? & ? & E2 & _)]; rewrite E2;
      (left; split; [done|exists q, e, (base d); rewrite Hown by lia; by split_and!]). }
  destruct (find_cases w (base d + count d - 1) Hok) as [(E2 & N2)|(q & e & E2 & Hq & He & Ho)]; rewrite E2; cycle 1.
  { left. split; [done|exists q, e, (base d + count d - 1)]. rewrite Hown by lia. by split_and!. }
  right. split.
  - cbn [orb]. rewrite bool_decide_eq_false_2 by tauto. cbn [orb]. unfold registered.
    assert (<[p := with_base d (base d)]> (devs w) = devs w) as -> by (destruct d; by apply insert_id). by destruct w.
  - intros q Hq. destruct (ok_devices _ Hok q Hq) as (e & He & Hfe). exists e. split; [done|].
    apply (ends_free d e Hf Hfe); [by apply (Hc q)|by apply (N1 q)|]. rewrite wrap32_small by lia. by apply (N2 q).
Qed.

Lemma register_chosen p d w : registry_ok w -> p <> 0 -> p ∉ devices w -> devs w !! p = Some d ->
  base d = 2 ^ 32 - 1 -> 0 < count d <= 2 ^ 31 -> (forall q, q ∈ devices w -> room w (count d) q) ->
  exists b, gpio_device_register p w = Ret (0, registered p d b w) /\ fits (with_base d b) /\
    forall q, q ∈ devices w -> apart w b (count d) q.
Proof.
  intros [Hdv Ha] H0 Hp Hd Hb Hc Hr. unfold gpio_device_register.
  rewrite bool_decide_eq_false_2, (bool_decide_eq_false_2 (p ∈ _)) by done. unfold mbind, outcome_bind. rewrite Hd. cbn [deref].
  rewrite bool_decide_eq_false_2 by tauto.
  destruct (find_base_spec w (count d) [] (devices w) 0) as (b & E & ? & ? & Hap); [lia|lia|lia|done|done|by intros ? ?%elem_of_nil|].
  unfold gpio_find_base. rewrite E. exists b. split; [|split; [by unfold fits; cbn; lia|done]].
  cbn [devs put_dev]. rewrite lookup_insert_eq. done.
Qed.

(** ** Dispatch *)

Lemma run_request_dispatch r line w : run_request r line w = dispatch (member r) line w.
Proof. by destruct r. Qed.


(** Who owns the lines once [p] is registered. *)
Lemma registered_owner p d b w line : registry_ok w -> p ∉ devices w -> fits (with_base d b) ->
  (forall q, q ∈ devices w -> apart w b (count d) q) -> 0 <= line ->
  _gpio_get_device (registered p d b w) line =
  if decide (b <= line < b + count d) then Ret (Some p) else _gpio_get_device w line.
Proof.
  intros Hok Hp Hf Hap Hl. pose proof (registered_ok p d b w Hok Hp Hf Hap) as Hok'.
  assert (Hdp : devs (registered p d b w) !! p = Some (with_base d b)) by (cbn; by rewrite lookup_insert_eq).
  assert (Hin : forall q, q ∈ devices (registered p d b w) <-> q = p \/ q ∈ devices w) by (intros q; apply DList.sorted_insert_elem).
  assert (Hkeep : forall q, q ∈ devices w -> devs (registered p d b w) !! q = devs w !! q).
  { intros q Hq. cbn. rewrite lookup_insert_ne; [done|]. by intros ->. }
  case_decide as Hr.
  - apply (find_owner _ _ _ (with_base d b)); [done|done|apply Hin; by left|done|]. by apply owns_iff.
  - destruct (find_cases w line Hok) as [(E & N)|(q & e & E & Hq & He & Ho)]; rewrite E.
    + destruct (find_cases _ line Hok') as [(E' & _)|(x & f & E' & Hx & Hf' & Ho)]; [done|]. exfalso.
      apply Hin in Hx as [->|Hx]; [simplify_eq; apply owns_iff in Ho; [by apply Hr|done|done]|].
      rewrite Hkeep in Hf' by done. specialize (N x f Hx Hf'). congruence.
    + apply (find_owner _ _ _ e); [done|done|apply Hin; by right|by rewrite Hkeep|done].
Qed.

(** C34.  Registering a controller that has no more lines than the others keeps
    the line numbering a partition.  With a base of its own it is refused, and
    nothing changes, only when one of its lines is taken; without one it
    always gets lines nobody has.  Afterwards its lines are its own and every
    other line has the owner it had. *)
Theorem register_keeps_lines_apart p d w : registry_ok w -> p <> 0 -> p ∉ devices w -> devs w !! p = Some d ->
  (base d = 2 ^ 32 - 1 /\ 0 < count d <= 2 ^ 31 /\ forall q, q ∈ devices w -> room w (count d) q) \/
  (fits d /\ forall q e, q ∈ devices w -> devs w !! q = Some e -> count d <= count e) ->
  exists r w', gpio_device_register p w = Ret (r, w') /\ registry_ok w' /\
    ((r = - EBUSY /\ w' = w /\ exists q e line, q ∈ devices w /\ devs w !! q = Some e /\ owns e line = true /\ owns d line = true) \/
     (r = 0 /\ gpio_line_count w' = wrap32 (gpio_line_count w + count d) /\
      exists b, devs w' !! p = Some (with_base d b) /\ (fits d -> b = base d) /\
        forall line, 0 <= line -> _gpio_get_device w' line =
          if decide (b <= line < b + count d) then Ret (Some p) else _gpio_get_device w line)).
Proof.
  intros Hok H0 Hp Hd [(Hb & Hc & Hr)|(Hf & Hc)].
  - destruct (register_chosen p d w Hok H0 Hp Hd Hb Hc Hr) as (b & E & Hf & Hap). eexists _, _. split; [exact E|].
    split; [by apply registered_ok|]. right. split; [done|]. split; [done|]. exists b. split; [by cbn; rewrite lookup_insert_eq|].
    split; [intros (? & ? & ?); lia|]. intros line Hl. by apply registered_owner.
  - assert (Hf' : fits (with_base d (base d))) by done.
    destruct (register_given p d w Hok H0 Hp Hd Hf Hc) as [(E & Hbusy)|(E & Hap)]; eexists _, _; (split; [exact E|]).
    + split; [done|]. by left.
    + split; [by apply registered_ok|]. right. split; [done|]. split; [done|]. exists (base d).
      split; [by cbn; rewrite lookup_insert_eq|]. split; [done|]. intros line Hl. by apply registered_owner.
Qed.

(** Every operation on a line: -ENODEV for a line of no controller; else
    -EINVAL if its controller has no operations, -ENOSYS if it does not have
    this one, and otherwise exactly one call of the driver with the line's
    number inside the controller.  Errors change nothing. *)
Theorem gpio_requests_dispatched r line w : registry_ok w -> 0 <= line ->
  ((forall p d, p ∈ devices w -> devs w !! p = Some d -> ~ base d <= line < base d + count d) ->
    run_request r line w = Ret (- ENODEV, w)) /\
  forall p d, p ∈ devices w -> devs w !! p = Some d -> base d <= line < base d + count d ->
    run_request r line w =
      match ops d with
      | None => Ret (- EINVAL, w)
      | Some o =>
          match member r o with
          | None => Ret (- ENOSYS, w)
          | Some f => '(s, res) ← f (drv d) (line - base d); Ret (res, put_dev p (with_drv d s) w)
          end
      end.
Proof.
  intros Hok Hl. rewrite run_request_dispatch. unfold dispatch, gpio_get_device, mbind, outcome_bind. split.
  - intros Hn. destruct (find_cases w line Hok) as [(-> & _)|(p & d & _ & Hp & Hd & Ho)]; [done|].
    destruct (ok_devices _ Hok p Hp) as (d' & Hd' & Hf). simplify_eq. apply owns_iff in Ho; [|done|done]. by destruct (Hn p d Hp Hd).
  - intros p d Hp Hd Hr. destruct (ok_devices _ Hok p Hp) as (d' & Hd' & Hf). simplify_eq.
    rewrite (find_owner w line p d Hok Hl Hp Hd) by (by apply owns_iff). rewrite Hd. cbn [deref].
    destruct (ops d) as [o|]; [|done]. destruct (member r o) as [f|]; [|done].
    by rewrite wrap32_small by (destruct Hf as (? & ? & ?); lia).
Qed.

End Core.

(** ** Instances *)

(** A controller whose state is the last value written. *)
Definition an_ops : gpio_ops :=
  mk_ops None None (Some (fun _ l v => Ret (v, 0))) None None (Some (fun s _ => Ret (s, s))) None None None None None None None.

(** Lines 0 to 3 and 10 to 13 are taken; 5 asks for four lines anywhere. *)
Definition two_controllers : world :=
  mk_world {[ 2 := mk_gpio (Some an_ops) 0 4 0; 3 := mk_gpio None 10 4 0; 5 := mk_gpio (Some an_ops) (2 ^ 32 - 1) 4 7;
    6 := mk_gpio (Some an_ops) 13 1 0; 7 := mk_gpio (Some an_ops) 8 10 0; 8 := mk_gpio None (2 ^ 32 - 1) 20 0 ]} [2; 3] 8.

Lemma two_controllers_ok : registry_ok two_controllers.
Proof.
  split; cbn [devices two_controllers].
  - intros p [->|[->|[]%elem_of_nil]%elem_of_cons]%elem_of_cons; (eexists; split; [reflexivity|unfold fits; cbn; lia]).
  - repeat constructor. eexists _, _. split; [reflexivity|]. split; [reflexivity|]. cbn. lia.
Qed.

Lemma register_keeps_lines_apart_witness : exists w', gpio_device_register 5 two_controllers = Ret (0, w') /\ registry_ok w' /\ _gpio_get_device w' 4 = Ret (Some 5).
Proof.
  destruct (register_keeps_lines_apart 5 (mk_gpio (Some an_ops) (2 ^ 32 - 1) 4 7) two_controllers) as (r & w' & E & Hok & [(-> & _)|(-> & _)]).
  - apply two_controllers_ok.
  - discriminate.
  - apply (bool_decide_unpack _). vm_compute. exact I.
  - reflexivity.
  - left. split; [reflexivity|]. split; [cbn; lia|].
    intros p [->|[->|[]%elem_of_nil]%elem_of_cons]%elem_of_cons; (eexists; split; [reflexivity|unfold fits; cbn; lia]).
  - vm_compute in E. discriminate E.
  - exists w'. split; [exact E|]. split; [exact Hok|]. vm_compute in E. injection E as <-. vm_compute. reflexivity.
Defined.

Lemma gpio_requests_dispatched_witness :
  run_request (DirectionOut 9) 3 two_controllers = Ret (0, put_dev 2 (mk_gpio (Some an_ops) 0 4 9) two_controllers) /\
  run_request Activate 3 two_controllers = Ret (- ENOSYS, two_controllers) /\
  run_request GetValue 12 two_controllers = Ret (- EINVAL, two_controllers) /\
  run_request GetValue 4 two_controllers = Ret (- ENODEV, two_controllers).
Proof.
  split; [|split; [|split; [|reflexivity]]].
  - apply (gpio_requests_dispatched (DirectionOut 9) 3 two_controllers two_controllers_ok ltac:(lia)) with (p := 2) (d := mk_gpio (Some an_ops) 0 4 0);
      [left|reflexivity|cbn; lia].
  - apply (gpio_requests_dispatched Activate 3 two_controllers two_controllers_ok ltac:(lia)) with (p := 2) (d := mk_gpio (Some an_ops) 0 4 0);
      [left|reflexivity|cbn; lia].
  - apply (gpio_requests_dispatched GetValue 12 two_controllers two_controllers_ok ltac:(lia)) with (p := 3) (d := mk_gpio None 10 4 0);
      [right; left|reflexivity|cbn; lia].
Defined.

(** ** What modelling showed *)

(** Only the ends of the new range are checked: lines 8 to 17 are given to a
    second controller although 10 to 13 are taken. *)
Example enclosing_range_accepted :
  (r ← gpio_device_register 7 two_controllers; Ret (fst r, devices (snd r))) = Ret (0, [2; 7; 3]) /\
  (r ← gpio_device_register 7 two_controllers; _gpio_get_device (snd r) 12) = Ret (Some 7).
Proof. vm_compute. split; reflexivity. Qed.

(** So is the choice of a base: twenty lines are placed at 4, over 10 to 13. *)
Example chosen_base_overlaps : gpio_find_base two_controllers 20 = Ret 4.
Proof. reflexivity. Qed.

End Gpio.
