(* ===== verification/Drivers.v ===== *)
(** The driver core of [src/drivers/core.c]: the registry of drivers, the
    devices waiting for one, probing with retries, and the device numbers.

    The waiting and the probed devices are rings of the pointer heap of
    [DList]: probing walks the first one while it moves devices out of it, so
    that what the walk visits depends on the links.  The drivers, which nothing
    moves, are a plain sequence.  The code of the drivers is a parameter, a
    function on the state [E] of the machine. *)
From Stdlib Require Import String.
From S2P Require Import Prelude DList Table.
#[local] Open Scope Z_scope.

Module Drivers.
Import DList(heap, list_init, list_is_empty, list_add, list_del, get_next, dlist, list_head, mk_list_head).

Section Core.
Context {E : Type}.

(** What a probe does: the machine after it, the devices it registers before
    it returns, and what it returns. *)
Record probe_result := mk_result { env' : E; registers : list Z; retval : Z }.

(** [struct driver]: functions may be missing. *)
Record driver := mk_driver {
  name : option string;
  init : option (E -> E * Z);
  probe : option (Z -> E -> probe_result);
  remove : option (Z -> E -> E);
}.

(** [dev_driver]: the name of the driver each device asks for; [log]: the
    probes that ended, with what they returned. *)
Record world := mk_world {
  links : heap;
  drivers : list Z;
  driver_at : gmap Z driver;
  dev_driver : gmap Z (option string);
  is_probing_enabled : bool;
  env : E;
  log : list (Z * Z);
}.

(** The heads of the two lists of devices. *)
Definition devices : Z := -1.
Definition probed_devices : Z := -2.

Definition with_links (w : world) (h : heap) : world :=
  mk_world h (drivers w) (driver_at w) (dev_driver w) (is_probing_enabled w) (env w) (log w).
Definition with_drivers (w : world) (l : list Z) : world :=
  mk_world (links w) l (driver_at w) (dev_driver w) (is_probing_enabled w) (env w) (log w).
Definition with_env (w : world) (e : E) : world :=
  mk_world (links w) (drivers w) (driver_at w) (dev_driver w) (is_probing_enabled w) e (log w).
Definition enable_probing (w : world) : world :=
  mk_world (links w) (drivers w) (driver_at w) (dev_driver w) true (env w) (log w).
Definition logged (w : world) (d r : Z) : world :=
  mk_world (links w) (drivers w) (driver_at w) (dev_driver w) (is_probing_enabled w) (env w) (log w ++ [(d, r)]).

(** ** Drivers *)

(** [strcmp] of a driver's name: a NULL name is a fault. *)
Fixpoint lookup_in (m : gmap Z driver) (nm : string) (l : list Z) : outcome (option Z) :=
  match l with
  | [] => Ret None
  | p :: l =>
      drv ← deref (m !! p);
      n ← deref (name drv);
      if bool_decide (nm = n) then Ret (Some p) else lookup_in m nm l
  end.
Definition driver_lookup (w : world) (nm : option string) : outcome (option Z) :=
  match nm with
  | None => Ret None
  | Some nm => lookup_in (driver_at w) nm (drivers w)
  end.

Definition driver_register (w : world) (p : Z) : outcome (Z * world) :=
  if bool_decide (p = 0) then Ret (- EINVAL, w) else
  drv ← deref (driver_at w !! p);
  match name drv with
  | None => Ret (- EINVAL, w)
  | Some _ =>
      let '(e, r) := match init drv with Some f => f (env w) | None => (env w, 0) end in
      let w := with_env w e in
      if bool_decide (r <> 0) then Ret (r, w) else Ret (0, with_drivers w (drivers w ++ [p]))
  end.

Definition driver_unregister (w : world) (p : Z) : Z * world :=
  if bool_decide (p = 0) then (- EINVAL, w) else (0, with_drivers w (filter (fun q => q <> p) (drivers w))).

(** [driver_init] registers the drivers of the [.driver] section, in order. *)
Definition driver_init (w : world) (section : list Z) : outcome world :=
  foldO (fun w p => '(_, w) ← driver_register w p; Ret w) w section.

(** ** Devices *)

(** [device_register], given the [device_driver_probe_all] it calls. *)
Definition device_register (probe_all : world -> outcome world) (w : world) (d : Z) : outcome (Z * world) :=
  if bool_decide (d = 0) then Ret (- EINVAL, w) else
  h ← list_add (list_init (links w) d) devices d;
  let w := with_links w h in
  w ← (if is_probing_enabled w then probe_all w else Ret w);
  Ret (0, w).

Definition device_unregister (w : world) (d : Z) : outcome (Z * world) :=
  if bool_decide (d = 0) then Ret (- EINVAL, w) else
  h ← list_del (links w) d;
  let w := with_links w h in
  nm ← deref (dev_driver w !! d);
  match nm with
  | None => Ret (0, w)
  | Some _ =>
      p ← driver_lookup w nm;
      match p with
      | None => Ret (0, w)
      | Some p => drv ← deref (driver_at w !! p); Ret (0, match remove drv with Some f => with_env w (f d (env w)) | None => w end)
      end
  end.

Definition device_probe (probe_all : world -> outcome world) (w : world) (d : Z) : outcome (Z * world) :=
  nm ← deref (dev_driver w !! d);
  p ← driver_lookup w nm;
  match p with
  | None => Ret (- EINVAL, w)
  | Some p =>
      drv ← deref (driver_at w !! p);
      match probe drv with
      | None => Ret (- EINVAL, w)
      | Some f =>
          let r := f d (env w) in
          w ← foldO (fun w c => '(_, w) ← device_register probe_all w c; Ret w) (with_env w (env' r)) (registers r);
          Ret (retval r, w)
      end
  end.

(** The body of the loop on one device; [true] when it was probed. *)
Definition probe_one (probe_all : world -> outcome world) (w : world) (d : Z) : outcome (bool * world) :=
  h ← list_del (links w) d;
  '(r, w) ← device_probe probe_all (with_links w h) d;
  let w := logged w d r in
  if bool_decide (r = 0) then h ← list_add (links w) probed_devices d; Ret (true, with_links w h)
  else if bool_decide (r = - EAGAIN) then h ← list_add (links w) devices d; Ret (false, with_links w h)
  else Ret (false, w).

(** [list_foreach_safe]: [niter] was read before the body runs. *)
Fixpoint probe_pass (probe_all : world -> outcome world) (n : nat) (w : world) (iter niter : Z) (retry : bool) : outcome (bool * world) :=
  if bool_decide (iter = devices) then Ret (retry, w) else
  match n with
  | O => Hang
  | S n =>
      '(ok, w) ← probe_one probe_all w iter;
      niter' ← get_next (links w) niter;
      probe_pass probe_all n w niter niter' (ok || retry)
  end.

Fixpoint probe_while (probe_all : world -> outcome world) (n : nat) (w : world) (retry : bool) : outcome world :=
  empty ← list_is_empty (links w) devices;
  if empty || negb retry then Ret w else
  match n with
  | O => Hang
  | S n =>
      iter ← get_next (links w) devices;
      niter ← get_next (links w) iter;
      '(retry, w) ← probe_pass probe_all n w iter niter false;
      probe_while probe_all n w retry
  end.

(** [n] bounds the rounds of each loop and the depth of the calls that a probe
    makes by registering devices. *)
Fixpoint device_driver_probe_all (n : nat) (w : world) : outcome world :=
  match n with
  | O => Hang
  | S n => probe_while (device_driver_probe_all n) n (enable_probing w) true
  end.

(** ** The lists of devices as sequences *)

(** The driver of a device, and what trying to probe it does. *)
Definition driver_of (w : world) (d : Z) : outcome (option driver) :=
  nm ← deref (dev_driver w !! d);
  p ← driver_lookup w nm;
  match p with
  | None => Ret None
  | Some p => drv ← deref (driver_at w !! p); Ret (Some drv)
  end.

Definition attempt (o : option driver) (d : Z) (e : E) : probe_result :=
  match o ≫= probe with Some f => f d e | None => mk_result e [] (- EINVAL) end.

Definition same_drivers (w w' : world) : Prop :=
  drivers w' = drivers w /\ driver_at w' = driver_at w /\ dev_driver w' = dev_driver w.

Lemma driver_of_same w w' d : same_drivers w w' -> driver_of w' d = driver_of w d.
Proof. intros (E1 & E2 & E3). unfold driver_of, driver_lookup. by rewrite E1, E2, E3. Qed.

(** [l] are the waiting devices, [pl] the probed ones. *)
Record lists_ok (w : world) (l pl : list Z) : Prop := {
  lk_waiting : dlist (links w) devices l;
  lk_probed : dlist (links w) probed_devices pl;
  lk_disjoint : NoDup ((devices :: l) ++ (probed_devices :: pl));
}.

Lemma lists_links w w' l pl : links w' = links w -> lists_ok w l pl -> lists_ok w' l pl.
Proof. intros El [? ? ?]. split; by rewrite ?El. Qed.

Lemma next_in_list h a x l : dlist h a (x :: l) -> get_next h x = Ret (default a (head l)).
Proof.
  intros D. apply DList.get_next_nxt. apply (DList.dlist_rotate h a [] x l) in D. rewrite (DList.dlist_first _ _ _ D). by destruct l.
Qed.
Lemma next_of_head h a l : dlist h a l -> get_next h a = Ret (default a (head l)).
Proof. intros D. apply DList.get_next_nxt, DList.dlist_first, D. Qed.

(** Taking the first waiting device out of its list. *)
Lemma take_first w d l pl : lists_ok w (d :: l) pl ->
  exists h, list_del (links w) d = Ret h /\ lists_ok (with_links w h) l pl /\ is_Some (h !! d) /\ d ∉ (devices :: l) ++ (probed_devices :: pl).
Proof.
  intros [D1 D2 D3]. destruct (DList.list_del_spec (links w) devices [] d l D1) as (h & Eh & D1' & Dd & Hso).
  assert (Hnd : NoDup (d :: (devices :: l) ++ (probed_devices :: pl))).
  { revert D3. cbn [app]. apply NoDup_Permutation_proper. by rewrite Permutation_swap. }
  apply NoDup_cons in Hnd as [Hd Hnd]. exists h. split; [done|]. split; [|split; [|done]].
  - split; [done| |done]. eapply DList.dlist_frame; [exact D2|exact Hso|]. cbn [app]. intros x Hx.
    apply NoDup_app in D3 as (_ & D3 & _). intros Hin. apply (D3 x); [|done]. set_solver.
  - apply (DList.dlist_cell _ _ _ d Dd). left.
Qed.

(** Putting a device at the end of one of the two lists. *)
Lemma put_waiting w d l pl : lists_ok w l pl -> is_Some (links w !! d) -> d ∉ (devices :: l) ++ (probed_devices :: pl) ->
  exists h, list_add (links w) devices d = Ret h /\ lists_ok (with_links w h) (l ++ [d]) pl.
Proof.
  intros [D1 D2 D3] Hc Hd. destruct (DList.list_add_spec (links w) devices l d D1) as (h & Eh & D1' & Hso); [set_solver|done|].
  exists h. split; [done|]. split; [done| |].
  - eapply DList.dlist_frame; [exact D2|exact Hso|]. intros x Hx. apply NoDup_app in D3 as (_ & D3 & _).
    intros [->|Hin]%elem_of_cons; [set_solver|]. by apply (D3 x).
  - assert (Hnd : NoDup (d :: (devices :: l) ++ (probed_devices :: pl))) by (by constructor). revert Hnd. cbn [app with_links links].
    apply NoDup_Permutation_proper. rewrite <- app_assoc. cbn [app]. by rewrite <- Permutation_middle, Permutation_swap.
Qed.

Lemma put_probed w d l pl : lists_ok w l pl -> is_Some (links w !! d) -> d ∉ (devices :: l) ++ (probed_devices :: pl) ->
  exists h, list_add (links w) probed_devices d = Ret h /\ lists_ok (with_links w h) l (pl ++ [d]).
Proof.
  intros [D1 D2 D3] Hc Hd. destruct (DList.list_add_spec (links w) probed_devices pl d D2) as (h & Eh & D2' & Hso); [set_solver|done|].
  exists h. split; [done|]. split; [|done|].
  - eapply DList.dlist_frame; [exact D1|exact Hso|]. intros x Hx. apply NoDup_app in D3 as (_ & D3 & _).
    intros [->|Hin]%elem_of_cons; [set_solver|]. by apply (D3 x).
  - assert (Hnd : NoDup (d :: (devices :: l) ++ (probed_devices :: pl))) by (by constructor). revert Hnd.
    apply NoDup_Permutation_proper. rewrite (Permutation_cons_append ((devices :: l) ++ probed_devices :: pl) d). by rewrite <- app_assoc.
Qed.

(** One device: where it goes, when its probe registers nothing. *)
Lemma probe_one_spec pa w d l pl o : lists_ok w (d :: l) pl -> driver_of w d = Ret o -> registers (attempt o d (env w)) = [] ->
  let r := retval (attempt o d (env w)) in
  exists w', probe_one pa w d = Ret (bool_decide (r = 0), w') /\ same_drivers w w' /\ env w' = env' (attempt o d (env w)) /\
    log w' = log w ++ [(d, r)] /\
    lists_ok w' (l ++ if bool_decide (r = - EAGAIN) then [d] else []) (pl ++ if bool_decide (r = 0) then [d] else []).
Proof.
  intros Hl Ho Hreg r. destruct (take_first w d l pl Hl) as (h & Eh & Hl' & Hc & Hd). unfold probe_one, mbind, outcome_bind. rewrite Eh.
  assert (Hp : device_probe pa (with_links w h) d = Ret (r, with_env (with_links w h) (env' (attempt o d (env w))))).
  { unfold device_probe. unfold driver_of in Ho. revert Ho. unfold mbind, outcome_bind. cbn [with_links dev_driver].
    destruct (deref (dev_driver w !! d)) as [nm| |]; [|done|done]. unfold driver_lookup. cbn [drivers driver_at with_links].
    assert (He : with_env (with_links w h) (env w) = with_links w h) by (by destruct w).
    destruct (match nm with Some _ => _ | None => _ end) as [[p|]| |]; [|intros [= <-]; unfold r, attempt; cbn [mbind option_bind env' retval]; by rewrite He|done|done].
    destruct (deref (driver_at w !! p)) as [drv| |]; [|done|done]. intros [= <-]. unfold r, attempt in *. cbn [mbind option_bind] in *.
    destruct (probe drv) as [f|]; cbn [env with_links env' retval]; [|by rewrite He]. by rewrite Hreg. }
  rewrite Hp. clear Hp.
  set (w1 := logged (with_env (with_links w h) (env' (attempt o d (env w)))) d r).
  assert (Hl1 : lists_ok w1 l pl) by (by apply (lists_links (with_links w h))). assert (Hc1 : is_Some (links w1 !! d)) by done.
  case_bool_decide as H0; [|case_bool_decide as H1].
  - destruct (put_probed w1 d l pl Hl1 Hc1 Hd) as (h' & E' & Hl''). rewrite E'. eexists. split; [reflexivity|].
    rewrite bool_decide_eq_false_2 by (rewrite H0; done). rewrite app_nil_r. by split_and!.
  - destruct (put_waiting w1 d l pl Hl1 Hc1 Hd) as (h' & E' & Hl''). rewrite E'. eexists. split; [reflexivity|]. rewrite app_nil_r. by split_and!.
  - eexists. split; [reflexivity|]. rewrite !app_nil_r. by split_and!.
Qed.


(** ** Probing ends *)

(** The probes that ended in success, and those that settled a device. *)
Definition succeeded (tr : list (Z * Z)) : list Z := (filter (fun x => x.2 = 0) tr).*1.
Definition settled (tr : list (Z * Z)) : list Z := (filter (fun x => x.2 <> - EAGAIN) tr).*1.

(** From [w], where [q] wait, to [w'], where nothing waits: each device was
    settled once, those that succeeded joined the probed ones in that order. *)
Definition all_settled (w w' : world) (q pl : list Z) : Prop :=
  exists tr, log w' = log w ++ tr /\ lists_ok w' [] (pl ++ succeeded tr) /\ settled tr ≡ₚ q.

Lemma all_settled_nil w pl : lists_ok w [] pl -> all_settled w w [] pl.
Proof. intros H. exists []. by rewrite !app_nil_r. Qed.

Lemma all_settled_step w w1 w2 x r rest pl : log w1 = log w ++ [(x, r)] ->
  all_settled w1 w2 (rest ++ if bool_decide (r = - EAGAIN) then [x] else []) (pl ++ if bool_decide (r = 0) then [x] else []) ->
  all_settled w w2 (x :: rest) pl.
Proof.
  intros El (tr & Et & Hl & Hp). exists ((x, r) :: tr). split; [by rewrite Et, El, <- app_assoc|]. split.
  - revert Hl. rewrite <- app_assoc. unfold succeeded. rewrite filter_cons. cbn [snd].
    clear Hp. by case_decide; case_bool_decide.
  - assert (Hs : settled ((x, r) :: tr) = (if bool_decide (r = - EAGAIN) then [] else [x]) ++ settled tr).
    { unfold settled. clear Hp. destruct (decide (r = - EAGAIN)) as [Hr|Hr].
      - rewrite filter_cons_False by (cbn; tauto). by rewrite bool_decide_eq_true_2.
      - rewrite filter_cons_True by done. by rewrite bool_decide_eq_false_2. }
    rewrite Hs, Hp, Permutation_app_comm, <- app_assoc. case_bool_decide; [by rewrite Permutation_app_comm|].
    by rewrite Permutation_app_comm.
Qed.

Section Progress.
(** [Q e S]: what holds of the machine while the devices of [S] wait. *)
Context (w0 : world) (Q : E -> gset Z -> Prop).
Context (Hquiet : forall e S d, Q e S -> d ∈ S -> exists o, driver_of w0 d = Ret o /\
  let r := attempt o d e in registers r = [] /\ Q (env' r) (if bool_decide (retval r = - EAGAIN) then S else S ∖ {[d]})).

Lemma waiting_set x rest pl w r : lists_ok w (x :: rest) pl ->
  list_to_set (rest ++ if bool_decide (r = - EAGAIN) then [x] else []) =@{gset Z}
  if bool_decide (r = - EAGAIN) then list_to_set (x :: rest) else list_to_set (x :: rest) ∖ {[x]}.
Proof.
  intros [D _ _]. apply DList.dlist_NoDup in D. apply NoDup_cons in D as [_ D]. apply NoDup_cons in D as [Hx _].
  case_bool_decide; apply set_eq; intros y; rewrite ?elem_of_difference, !elem_of_list_to_set, ?elem_of_app, elem_of_cons; set_solver.
Qed.

(** One round of the walk. *)
Lemma pass_step pa n w x rest pl retry : lists_ok w (x :: rest) pl -> same_drivers w0 w -> Q (env w) (list_to_set (x :: rest)) ->
  exists o w1 niter, driver_of w0 x = Ret o /\
    let r := retval (attempt o x (env w)) in
    let q1 := rest ++ if bool_decide (r = - EAGAIN) then [x] else [] in
    probe_pass pa (S n) w x (default devices (head rest)) retry =
      probe_pass pa n w1 (default devices (head rest)) niter (bool_decide (r = 0) || retry) /\
    same_drivers w0 w1 /\ Q (env w1) (list_to_set q1) /\ log w1 = log w ++ [(x, r)] /\
    lists_ok w1 q1 (pl ++ if bool_decide (r = 0) then [x] else []) /\
    (rest <> [] -> default devices (head rest) = default devices (head q1) /\ niter = default devices (head (tail q1))).
Proof.
  intros Hl Hs HQ. destruct (Hquiet (env w) _ x HQ) as (o & Ho & Hreg & HQ'); [set_solver|].
  pose proof Ho as Ho'. rewrite <- (driver_of_same w0 w) in Ho' by done.
  destruct (probe_one_spec pa w x rest pl o Hl Ho' Hreg) as (w1 & E1 & Hs1 & Ee & El & Hl1).
  set (r := retval (attempt o x (env w))) in *. set (q1 := rest ++ if bool_decide (r = - EAGAIN) then [x] else []) in *.
  assert (Hx : x <> devices) by (pose proof (lk_disjoint _ _ _ Hl) as H; apply NoDup_cons in H as [H _]; set_solver).
  exists o, w1. cbn [probe_pass]. rewrite bool_decide_eq_false_2 by done. unfold mbind, outcome_bind. rewrite E1.
  assert (HQ1 : Q (env w1) (list_to_set q1)) by (unfold q1; rewrite (waiting_set x rest pl w r Hl), Ee; exact HQ').
  assert (Hs1' : same_drivers w0 w1) by (destruct Hs as (? & ? & ?), Hs1 as (? & ? & ?); split_and!; congruence).
  destruct rest as [|y rest].
  - change (default devices (head [])) with devices. rewrite (next_of_head _ _ _ (lk_waiting _ _ _ Hl1)). eexists. by split_and!.
  - change (default devices (head (y :: rest))) with y. pose proof (lk_waiting _ _ _ Hl1) as D. unfold q1 in D. cbn [app] in D.
    rewrite (next_in_list _ _ _ _ D). eexists. by split_and!.
Qed.

(** [d] does not ask to be probed later while [S] wait. *)
Definition ready (S : gset Z) (d : Z) : Prop :=
  d ∈ S /\ forall e o, Q e S -> driver_of w0 d = Ret o -> retval (attempt o d e) <> - EAGAIN.
Context (Hprogress : forall S, S <> ∅ -> exists d, ready S d).

Lemma ready_index q : q <> [] -> exists j d, (j < length q)%nat /\ q !! j = Some d /\ ready (list_to_set q) d.
Proof.
  intros Hq. destruct (Hprogress (list_to_set q)) as (d & Hd); [destruct q; [done|set_solver]|].
  pose proof Hd as [Hin%elem_of_list_to_set _]. apply list_elem_of_lookup in Hin as [j Hj].
  exists j, d. split; [by eapply lookup_lt_Some|done].
Qed.

(** [k] devices wait, the [j]-th is ready: the pass ends, with none waiting,
    within [k] rounds for each of them. *)
Lemma pass_ends pa k j q d n w pl retry : length q = k -> lists_ok w q pl -> same_drivers w0 w -> Q (env w) (list_to_set q) ->
  q !! j = Some d -> ready (list_to_set q) d -> (j + 1 + (k - 1) * (k - 1) <= n)%nat ->
  exists retry' w', probe_pass pa n w (default devices (head q)) (default devices (head (tail q))) retry = Ret (retry', w') /\
    same_drivers w0 w' /\ Q (env w') ∅ /\ all_settled w w' q pl.
Proof.
  revert j q d n w pl retry. induction k as [k IHk] using lt_wf_ind.
  (* the first device of the queue is settled *)
  assert (Hsettled : forall x rest n w w1 r pl niter retry, length (x :: rest) = k ->
    log w1 = log w ++ [(x, r)] -> same_drivers w0 w1 -> Q (env w1) (list_to_set rest) -> r <> - EAGAIN ->
    lists_ok w1 rest (pl ++ if bool_decide (r = 0) then [x] else []) ->
    (rest <> [] -> niter = default devices (head (tail rest))) -> ((k - 1) * (k - 1) <= n)%nat ->
    exists retry' w', probe_pass pa n w1 (default devices (head rest)) niter retry = Ret (retry', w') /\
      same_drivers w0 w' /\ Q (env w') ∅ /\ all_settled w w' (x :: rest) pl).
  { intros x rest n w w1 r pl niter retry Hk El Hs HQ Hag Hl Hni Hn.
    assert (Hgoal : exists retry' w', probe_pass pa n w1 (default devices (head rest)) niter retry = Ret (retry', w') /\
      same_drivers w0 w' /\ Q (env w') ∅ /\ all_settled w1 w' rest (pl ++ if bool_decide (r = 0) then [x] else [])).
    { destruct (decide (rest = [])) as [->|Hne].
      - exists retry, w1. split; [by destruct n|]. split; [done|]. split; [done|]. by apply all_settled_nil.
      - destruct (ready_index rest Hne) as (j & d & Hj & Hjd & Hr). rewrite (Hni Hne). cbn [length] in Hk.
        apply (IHk (k - 1)%nat ltac:(lia) j rest d); [lia|done|done|done|done|done|].
        assert (k = S (S (k - 2))) as Ek by (destruct rest; [done|cbn in *; lia]). rewrite Ek in *. cbn in *. nia. }
    destruct Hgoal as (retry' & w' & E1 & H1 & H2 & H3). exists retry', w'. split; [done|]. split; [done|]. split; [done|].
    apply (all_settled_step w w1 w' x r rest pl El). by rewrite bool_decide_eq_false_2, app_nil_r. }
  intros j. induction j as [|j IHj]; intros q d n w pl retry Hk Hl Hs HQ Hj Hr Hn;
    (destruct q as [|x rest]; [done|]); (destruct n as [|n]; [exfalso; nia|]);
    destruct (pass_step pa n w x rest pl retry Hl Hs HQ) as (o & w1 & niter & Ho & E1 & Hs1 & HQ1 & El & Hl1 & Hnext);
    cbn [head tail default from_option id]; rewrite E1; set (r := retval (attempt o x (env w))) in *.
  all: destruct (decide (r = - EAGAIN)) as [Hag|Hag]; [rewrite (bool_decide_eq_true_2 _ Hag) in *|rewrite (bool_decide_eq_false_2 _ Hag) in *; rewrite app_nil_r in *].
  - exfalso. simplify_eq/=. destruct Hr as [_ Hr]. by apply (Hr _ _ HQ Ho).
  - apply (Hsettled x rest n w w1 r); try done; [|nia]. intros Hne. by apply Hnext.
  - assert (Hne : rest <> []) by (intros ->; by cbn in Hj). destruct (Hnext Hne) as [-> ->].
    assert (Hset : list_to_set (rest ++ [x]) =@{gset Z} list_to_set (x :: rest)).
    { apply set_eq. intros y. rewrite !elem_of_list_to_set. set_solver. }
    destruct (IHj (rest ++ [x]) d n w1 (pl ++ if bool_decide (r = 0) then [x] else []) (bool_decide (r = 0) || retry)) as (retry' & w' & E2 & H1 & H2 & H3);
      [by rewrite length_app, <- Hk, Nat.add_comm|done|done|done| |by rewrite Hset|lia|].
    { cbn in Hj. rewrite lookup_app_l; [done|]. by eapply lookup_lt_Some. }
    exists retry', w'. split; [done|]. split; [done|]. split; [done|]. apply (all_settled_step w w1 w' x r rest pl El).
    by rewrite bool_decide_eq_true_2.
  - apply (Hsettled x rest n w w1 r); try done; [|nia]. intros Hne. by apply Hnext.
Qed.

(** C35.  When probes register nothing and there is always a waiting device whose
    probe does not ask for a retry (no cycle among what devices need), probing
    ends.  Every device was then settled exactly once, by a success or by an
    error that is not -EAGAIN; those that succeeded are in the list of probed
    devices, in the order of their success; none waits. *)
Theorem all_devices_probed n l pl : lists_ok w0 l pl -> Q (env w0) (list_to_set l) -> (length l * length l + 2 <= n)%nat ->
  exists w', device_driver_probe_all n w0 = Ret w' /\ same_drivers w0 w' /\ Q (env w') ∅ /\ all_settled w0 w' l pl.
Proof.
  intros Hl HQ Hn. destruct n as [|[|n]]; [lia|lia|].
  change (device_driver_probe_all (S (S n)) w0) with (probe_while (device_driver_probe_all (S n)) (S n) (enable_probing w0) true).
  set (pa := device_driver_probe_all (S n)). clearbody pa.
  assert (Hl' : lists_ok (enable_probing w0) l pl) by (by apply (lists_links w0)). cbn [probe_while]. unfold mbind, outcome_bind.
  rewrite (DList.list_is_empty_spec _ _ _ (lk_waiting _ _ _ Hl')), (next_of_head _ _ _ (lk_waiting _ _ _ Hl')).
  case_bool_decide as He; cbn [orb negb].
  { subst l. exists (enable_probing w0). split; [done|]. split; [done|]. split; [done|]. exists []. rewrite !app_nil_r. by split_and!. }
  destruct (ready_index l He) as (j & d & Hj & Hjd & Hr). destruct l as [|x rest]; [done|].
  change (default devices (head (x :: rest))) with x. rewrite (next_in_list _ _ _ _ (lk_waiting _ _ _ Hl')).
  destruct (pass_ends pa (length (x :: rest)) j (x :: rest) d n (enable_probing w0) pl false) as (retry & w' & E1 & Hs & HQ' & Ha);
    [done|done|done|done|done|done|cbn in *; nia|].
  change (default devices (head (x :: rest))) with x in E1. cbn [tail] in E1. rewrite E1.
  exists w'. split; [|by split_and!]. destruct Ha as (tr & _ & Hend & _).
  destruct n; cbn [probe_while]; unfold mbind, outcome_bind; by rewrite (DList.list_is_empty_spec _ _ _ (lk_waiting _ _ _ Hend)).
Qed.

End Progress.

(** ** Probing that does not end *)

Section Stuck.
Context (w0 : world) (Q : E -> Prop) (l : list Z).
Context (Hstuck : forall e d, Q e -> d ∈ l -> exists o, driver_of w0 d = Ret o /\
  registers (attempt o d e) = [] /\ retval (attempt o d e) = - EAGAIN /\ Q (env' (attempt o d e))).

Lemma stuck_pass pa n q w pl retry : (2 <= length q)%nat -> q ≡ₚ l -> lists_ok w q pl -> same_drivers w0 w -> Q (env w) ->
  probe_pass pa n w (default devices (head q)) (default devices (head (tail q))) retry = Hang.
Proof.
  revert q w pl retry. induction n as [|n IH]; intros q w pl retry H2 Hp Hl Hs HQ; (destruct q as [|x rest]; [cbn in H2; lia|]);
    cbn [head tail default from_option id].
  - cbn [probe_pass]. rewrite bool_decide_eq_false_2; [done|]. pose proof (lk_disjoint _ _ _ Hl) as H. apply NoDup_cons in H as [H _]. set_solver.
  - set (Q2 := fun e (S : gset Z) => Q e /\ S = list_to_set l).
    assert (Hset : list_to_set (x :: rest) =@{gset Z} list_to_set l).
    { apply set_eq. intros y. by rewrite !elem_of_list_to_set, Hp. }
    destruct (pass_step w0 Q2) with (pa := pa) (n := n) (w := w) (x := x) (rest := rest) (pl := pl) (retry := retry)
      as (o & w1 & niter & Ho & -> & Hs1 & [HQ1 _] & _ & Hl1 & Hnext); [|exact Hl|exact Hs|split; [exact HQ|exact Hset]|].
    { intros e S d [He ->] Hd. destruct (Hstuck e d He) as (o & Ho & Hr & Hag & He'); [by apply elem_of_list_to_set in Hd|].
      exists o. split; [done|]. cbn zeta. rewrite bool_decide_eq_true_2 by done. by split_and!. }
    destruct (Hstuck (env w) x HQ) as (o' & Ho' & _ & Hag & _); [rewrite <- Hp; left|]. rewrite Ho in Ho'. injection Ho' as <-.
    rewrite Hag in Hl1, Hnext |- *. rewrite bool_decide_eq_true_2 in Hl1, Hnext by done. destruct rest as [|y rest]; [cbn in H2; lia|].
    destruct (Hnext ltac:(done)) as [-> ->]. eapply IH; [|by rewrite <- Hp, Permutation_app_comm|exact Hl1|done|done].
    rewrite length_app. cbn. lia.
Qed.

(** Two devices or more that all keep asking for a retry make probing run
    for ever: the walk meets again, in the same pass, each device it puts back
    at the end of the list it is walking, so the test for progress between two
    passes is never reached. *)
Theorem stuck_devices_hang n pl : (2 <= length l)%nat -> lists_ok w0 l pl -> Q (env w0) -> device_driver_probe_all n w0 = Hang.
Proof.
  intros H2 Hl HQ. destruct n as [|n]; [done|].
  change (device_driver_probe_all (S n) w0) with (probe_while (device_driver_probe_all n) n (enable_probing w0) true).
  set (pa := device_driver_probe_all n). clearbody pa.
  assert (Hl' : lists_ok (enable_probing w0) l pl) by (by apply (lists_links w0)).
  destruct n; cbn [probe_while]; unfold mbind, outcome_bind; rewrite (DList.list_is_empty_spec _ _ _ (lk_waiting _ _ _ Hl'));
    (rewrite bool_decide_eq_false_2 by (intros E1; rewrite E1 in H2; cbn in H2; lia)); cbn [orb negb]; [done|].
  rewrite (next_of_head _ _ _ (lk_waiting _ _ _ Hl')).
  pose proof (stuck_pass pa n l (enable_probing w0) pl false H2 (Permutation_refl l) Hl' ltac:(done) HQ) as Hp.
  clear Hstuck. destruct l as [|x rest]; [cbn in H2; lia|].
  change (default devices (head (x :: rest))) with x in Hp |- *. rewrite (next_in_list _ _ _ _ (lk_waiting _ _ _ Hl')).
  cbn [tail] in Hp. by rewrite Hp.
Qed.
End Stuck.

End Core.
(** ** Instances *)

(** A driver whose device 1 needs 2 and whose device 2 needs 3; the machine is
    the set of the devices that work. *)
Definition needs (d : Z) : gset Z := if bool_decide (d = 1) then {[2]} else if bool_decide (d = 2) then {[3]} else ∅.
Definition chain_probe (d : Z) (e : gset Z) : probe_result :=
  if bool_decide (needs d ⊆ e) then mk_result ({[d]} ∪ e) [] 0 else mk_result e [] (- EAGAIN).
Definition chain_driver : @driver (gset Z) := mk_driver (Some "chain"%string) None (Some chain_probe) None.

Definition empty_lists : heap := list_init (list_init ∅ devices) probed_devices.
Definition boot_world {E} (drv : @driver E) (nm : string) (e : E) : world :=
  mk_world empty_lists [100] {[ 100 := drv ]} {[ 1 := Some nm; 2 := Some nm; 3 := Some nm ]} false e [].
Definition register_all {E} (w : @world E) (l : list Z) : @world E :=
  match foldO (fun w d => '(_, w) ← device_register (fun w => Ret w) w d; Ret w) w l with Ret w => w | _ => w end.

(** Registered in the worst order, before probing is enabled. *)
Definition chain_world : world := register_all (boot_world chain_driver "chain" ∅) [1; 2; 3].

Lemma chain_lists : lists_ok chain_world [1; 2; 3] [].
Proof.
  split.
  - split; [apply (bool_decide_unpack _); vm_compute; exact I|vm_compute; repeat split].
  - split; [apply (bool_decide_unpack _); vm_compute; exact I|vm_compute; repeat split].
  - apply (bool_decide_unpack _). vm_compute. exact I.
Qed.

Definition chain_inv (e : gset Z) (S : gset Z) : Prop := S ⊆ {[1; 2; 3]} /\ forall d, d ∈ ({[1; 2; 3]} : gset Z) -> d ∉ S -> d ∈ e.

Lemma chain_driver_of d : d ∈ ({[1; 2; 3]} : gset Z) -> driver_of chain_world d = Ret (Some chain_driver).
Proof. rewrite !elem_of_union, !elem_of_singleton. intros [[->| ->]| ->]; reflexivity. Qed.

Lemma chain_quiet e S d : chain_inv e S -> d ∈ S -> exists o, driver_of chain_world d = Ret o /\
  let r := attempt o d e in registers r = [] /\ chain_inv (env' r) (if bool_decide (retval r = - EAGAIN) then S else S ∖ {[d]}).
Proof.
  intros [HS He] Hd. exists (Some chain_driver). split; [by apply chain_driver_of, HS|]. cbn zeta.
  change (attempt (Some chain_driver) d e) with (chain_probe d e). unfold chain_probe. case_bool_decide as Hn; cbn [registers env' retval].
  - rewrite bool_decide_eq_false_2 by done. split; [done|]. split; [set_solver|]. intros x Hx Hnx.
    destruct (decide (x = d)) as [->|]; [set_solver|]. apply elem_of_union_r, He; set_solver.
  - rewrite bool_decide_eq_true_2 by done. by split.
Qed.

Lemma chain_progress S : S <> ∅ -> exists d, ready chain_world chain_inv S d.
Proof.
  intros HS.
  assert (Hr : forall d, d ∈ S -> (forall e, chain_inv e S -> needs d ⊆ e) -> exists d, ready chain_world chain_inv S d).
  { intros d Hd Hn. exists d. split; [done|]. intros e o HQ Ho. rewrite chain_driver_of in Ho by (by apply HQ). injection Ho as <-.
    change (attempt (Some chain_driver) d e) with (chain_probe d e). unfold chain_probe. by rewrite bool_decide_eq_true_2 by auto. }
  destruct (decide (3 ∈ S)) as [H3|H3]; [apply (Hr 3 H3); intros e _; change (needs 3) with (∅ : gset Z); set_solver|].
  destruct (decide (2 ∈ S)) as [H2|H2].
  { apply (Hr 2 H2). intros e [_ He]. change (needs 2) with ({[3]} : gset Z). apply singleton_subseteq_l, He; set_solver. }
  apply set_choose_L in HS as [x Hx]. apply (Hr x Hx). intros e [HS He].
  assert (x = 1) as -> by (specialize (HS x Hx); set_solver). change (needs 1) with ({[2]} : gset Z).
  apply singleton_subseteq_l, He; set_solver.
Qed.

Definition log_of {E} (o : outcome (@world E)) : list (Z * Z) := match o with Ret w => log w | _ => [] end.

Lemma all_devices_probed_witness : exists w', device_driver_probe_all 11 chain_world = Ret w' /\
  all_settled chain_world w' [1; 2; 3] [] /\ succeeded (log w') = [3; 2; 1].
Proof.
  destruct (all_devices_probed chain_world chain_inv chain_quiet chain_progress 11 [1; 2; 3] []) as (w' & E1 & _ & _ & Ha).
  - apply chain_lists.
  - split; [set_solver|]. intros d Hd Hn. destruct Hn. set_solver.
  - cbn. lia.
  - exists w'. split; [exact E1|]. split; [exact Ha|]. change (log w') with (log_of (Ret w')). rewrite <- E1. vm_compute. reflexivity.
Defined.

(** A driver whose devices wait for something that never comes. *)
Definition waiting_driver : @driver unit := mk_driver (Some "wait"%string) None (Some (fun _ e => mk_result e [] (- EAGAIN))) None.
Definition waiting_world : world := register_all (boot_world waiting_driver "wait" tt) [1; 2].

Lemma stuck_devices_hang_witness : device_driver_probe_all 1000 waiting_world = Hang.
Proof.
  apply (stuck_devices_hang waiting_world (fun _ => True) [1; 2]) with (pl := []).
  - intros e d _ Hd. exists (Some waiting_driver). split; [|split; [reflexivity|split; [reflexivity|exact I]]].
    apply elem_of_cons in Hd as [->|[->|[]%elem_of_nil]%elem_of_cons]; vm_compute; reflexivity.
  - cbn. lia.
  - split.
    + split; [apply (bool_decide_unpack _); vm_compute; exact I|vm_compute; repeat split].
    + split; [apply (bool_decide_unpack _); vm_compute; exact I|vm_compute; repeat split].
    + apply (bool_decide_unpack _). vm_compute. exact I.
  - exact I.
Defined.

(** With one such device probing ends, the device still waiting. *)
Example one_waits_alone : exists w, device_driver_probe_all 5 (register_all (boot_world waiting_driver "wait" tt) [1]) = Ret w /\ log w = [(1, - EAGAIN)].
Proof. eexists. split; vm_compute; reflexivity. Qed.

(** The probe of device 1 registers device 3.  [device_register] probes all
    that wait, and so moves device 2, which the outer walk was to visit next,
    to the list of probed devices; the outer walk goes on in that list. *)
Definition parent_probe (d : Z) (e : nat) : probe_result :=
  mk_result (S e) (if bool_decide (d = 1) && bool_decide (e = O) then [3] else []) 0.
Definition parent_driver : @driver nat := mk_driver (Some "parent"%string) None (Some parent_probe) None.
Example probe_that_registers :
  device_driver_probe_all 40 (register_all (boot_world parent_driver "parent" O) [1; 2]) = Hang.
Proof. vm_compute. reflexivity. Qed.

End Drivers.
