(* ===== verification/Devnum.v ===== *)
(** The device numbers of [src/drivers/core.c]: a major number per driver, the
    minor numbers of its devices, kept in tables of tables over the [Table]
    interface. *)
From S2P Require Import Prelude Table Hashtable.
#[local] Open Scope Z_scope.

Module Devnum.

#[export] Instance null_Z : Null Z := 0.

Section Devnums.
Context {T : Type} `{!TableOps Z Z T} (fresh : T).

(** [struct devnum]; [fresh] is what [hashtable_create_uint] returns. *)
Record devnum := mk_devnum { dn_driver : Z; device_table : T }.

(** [irq_depth]: the nesting of [irq_disable], which the spinlock is;
    [budget]: how many allocations memory has room for. *)
Record dn_world := mk_dn {
  driver_table : T;
  devnums : gmap Z devnum;
  dn_next : Z;
  budget : nat;
  irq_depth : Z;
}.

Definition add_depth (w : dn_world) (n : Z) : dn_world :=
  mk_dn (driver_table w) (devnums w) (dn_next w) (budget w) (irq_depth w + n).
Definition put_devnum (w : dn_world) (p : Z) (d : devnum) : dn_world :=
  mk_dn (driver_table w) (<[p := d]> (devnums w)) (dn_next w) (budget w) (irq_depth w).

(** [dev_t] is two bytes: the major number, then the minor one. *)
Definition makedev (major minor : Z) : Z := wrap8 major + 2 ^ 8 * wrap8 minor.
Definition major (dev : Z) : Z := wrap8 dev.
Definition minor (dev : Z) : Z := wrap8 (dev / 2 ^ 8).
Definition DEV_MAX : nat := 256.

(** The first minor number from [j] that the table does not have. *)
Fixpoint free_minor (n : nat) (j : Z) (t : T) : outcome (option Z) :=
  match n with
  | O => Ret None
  | S n => b ← tbl_has t j; if b : bool then free_minor n (j + 1) t else Ret (Some j)
  end.

(** The body of the loop on a major number [i] whose structure is at [p]. *)
Definition alloc_minor (i p device : Z) (w : dn_world) : outcome (Z * option Z * dn_world) :=
  d ← deref (devnums w !! p);
  j ← free_minor DEV_MAX 0 (device_table d);
  match j with
  | None => Ret (- ENOMEM, None, w)
  | Some j => t ← tbl_add (device_table d) j device; Ret (0, Some (makedev i j), put_devnum w p (mk_devnum (dn_driver d) t))
  end.

(** A new major takes three allocations: its structure, and the table and the
    nodes of [hashtable_create_uint].  When one of these two fails the table is
    NULL, and [hashtable_has] reads through it. *)
Fixpoint alloc_from (n : nat) (i driver device : Z) (w : dn_world) : outcome (Z * option Z * dn_world) :=
  match n with
  | O => Ret (- ENOMEM, None, w)
  | S n =>
      p ← tbl_get (driver_table w) i;
      if bool_decide (p <> 0) then
        d ← deref (devnums w !! p);
        if bool_decide (dn_driver d <> driver) then alloc_from n (i + 1) driver device w else alloc_minor i p device w
      else
        match budget w with
        | O => Ret (- ENOMEM, None, w)
        | 1%nat | 2%nat => Fault
        | S (S (S b)) =>
            let p := dn_next w in
            t ← tbl_add (driver_table w) i p;
            alloc_minor i p device (mk_dn t (<[p := mk_devnum driver fresh]> (devnums w)) (dn_next w + 1) b (irq_depth w))
        end
  end.

(** The result, and the number when the result is 0. *)
Definition devnum_alloc (driver device : Z) (w : dn_world) : outcome (Z * option Z * dn_world) :=
  '(r, w) ← alloc_from DEV_MAX 0 driver device (add_depth w 1);
  Ret (r, add_depth w (-1)).

Definition devnum_get_device (dev : Z) (w : dn_world) : outcome (Z * dn_world) :=
  let w := add_depth w 1 in
  p ← tbl_get (driver_table w) (major dev);
  if bool_decide (p = 0) then Ret (0, w) else
  d ← deref (devnums w !! p);
  device ← tbl_get (device_table d) (minor dev);
  Ret (device, add_depth w (-1)).
End Devnums.

(** ** Representation *)

Section Numbers.
Context {T : Type} `{!TableOps Z Z T, !TableSpec Z Z T} (fresh : T).
Implicit Types (w : @dn_world T).

(** [m]: the structure of each major number; [tm]: the devices of each
    structure; [r] more numbers can be given. *)
Record dn_rep w (m : gmap Z Z) (tm : gmap Z (gmap Z Z)) (r : nat) : Prop := {
  dn_table : tbl_rep (driver_table w) m (S r);
  dn_keys : forall i, 0 <= i < 256 -> tbl_key_ok i;
  dn_entries : forall i p, m !! i = Some p -> 0 < p < dn_next w /\
    exists d dm, devnums w !! p = Some d /\ tm !! p = Some dm /\ tbl_rep (device_table d) dm (S r);
  dn_inj : forall i j p, m !! i = Some p -> m !! j = Some p -> i = j;
  dn_fresh : tbl_rep fresh ∅ (S r);
  dn_next_pos : 0 < dn_next w;
}.

(** The device of a number; 0 for none. *)
Definition device_at (m : gmap Z Z) (tm : gmap Z (gmap Z Z)) (dn : Z) : Z :=
  default 0 (p ← m !! major dn; dm ← tm !! p; dm !! minor dn).

Lemma major_range dn : 0 <= major dn < 256.
Proof. apply wrap8_range. Qed.
Lemma minor_range dn : 0 <= minor dn < 256.
Proof. apply wrap8_range. Qed.

Lemma makedev_parts i j : 0 <= i < 256 -> 0 <= j < 256 -> major (makedev i j) = i /\ minor (makedev i j) = j.
Proof.
  intros Hi Hj. unfold makedev, major, minor. rewrite (wrap8_small i), (wrap8_small j) by lia. split.
  - unfold wrap8. symmetry. apply (Z.mod_unique_pos _ _ j); lia.
  - replace ((i + 2 ^ 8 * j) / 2 ^ 8) with j; [by apply wrap8_small|]. apply (Z.div_unique_pos _ _ _ i); lia.
Qed.

Lemma parts_makedev dn : 0 <= dn < 2 ^ 16 -> makedev (major dn) (minor dn) = dn.
Proof.
  intros Hd. unfold makedev. rewrite (wrap8_small (major dn)), (wrap8_small (minor dn)) by (apply wrap8_range).
  unfold major, minor. rewrite (wrap8_small (dn / 2 ^ 8)); [unfold wrap8; pose proof (Z.div_mod dn (2 ^ 8) ltac:(done)); lia|].
  split; [apply Z.div_pos; lia|apply Z.div_lt_upper_bound; lia].
Qed.

Lemma get_device_eq w m tm r dn : dn_rep w m tm r ->
  exists w', devnum_get_device dn w = Ret (device_at m tm dn, w') /\ (is_Some (m !! major dn) -> w' = w).
Proof.
  intros [Ht Hk He _ _ _]. unfold devnum_get_device, device_at, mbind, outcome_bind, option_bind. cbn [driver_table add_depth].
  rewrite (tbl_get_ok _ m r _ Ht (Hk _ (major_range dn))). destruct (m !! major dn) as [p|] eqn:Em; cbn [default from_option id].
  - destruct (He _ _ Em) as (Hp & d & dm & Ed & Edm & Hd). rewrite bool_decide_eq_false_2 by lia. cbn [devnums add_depth].
    rewrite Ed. cbn [deref]. rewrite (tbl_get_ok _ dm r _ Hd (Hk _ (minor_range dn))), Edm. eexists. split; [done|]. intros _.
    destruct w. unfold add_depth. cbn. f_equal. lia.
  - change null with 0. cbn. eexists. split; [done|]. by intros [? ?].
Qed.

(** ** Allocation *)

Lemma free_minor_spec t dm r n j : tbl_rep t dm (S r) -> (forall i, 0 <= i < 256 -> tbl_key_ok i) -> 0 <= j -> j + Z.of_nat n <= 256 ->
  (free_minor n j t = Ret None /\ forall i, j <= i < j + Z.of_nat n -> default 0 (dm !! i) <> 0) \/
  exists k, free_minor n j t = Ret (Some k) /\ j <= k < 256 /\ default 0 (dm !! k) = 0.
Proof.
  intros Ht Hk. revert j. induction n as [|n IH]; intros j Hj Hn; [left; split; [done|lia]|].
  cbn [free_minor]. unfold mbind, outcome_bind. rewrite (tbl_has_ok _ dm r j Ht (Hk j ltac:(lia))).
  change (null : Z) with 0. case_bool_decide as Hb.
  - destruct (IH (j + 1)) as [(E & Hall)|(k & E & Hk' & Hf)]; [lia|lia| |].
    + left. split; [done|]. intros i Hi. destruct (decide (i = j)) as [->|]; [done|]. apply Hall. lia.
    + right. exists k. split; [done|]. split; [lia|done].
  - right. exists j. split; [done|]. split; [lia|]. destruct (decide (default 0 (dm !! j) = 0)); tauto.
Qed.

(** Giving a number of a major that the driver has. *)
Lemma alloc_minor_spec w m tm r i p device d dm : dn_rep w m tm (S r) -> device <> 0 -> 0 <= i < 256 ->
  m !! i = Some p -> devnums w !! p = Some d -> tm !! p = Some dm -> tbl_rep (device_table d) dm (S (S r)) ->
  (alloc_minor i p device w = Ret (- ENOMEM, None, w) /\ forall j, 0 <= j < 256 -> default 0 (dm !! j) <> 0) \/
  exists j w', alloc_minor i p device w = Ret (0, Some (makedev i j), w') /\ 0 <= j < 256 /\ default 0 (dm !! j) = 0 /\
    dn_rep w' m (<[p := <[j := device]> dm]> tm) r /\ irq_depth w' = irq_depth w.
Proof.
  intros [Ht Hk He Hi Hf Hn] Hdev Hir Em Ed Edm Hd. unfold alloc_minor, mbind, outcome_bind. rewrite Ed. cbn [deref].
  destruct (free_minor_spec _ _ _ DEV_MAX 0 Hd Hk ltac:(lia) ltac:(done)) as [(E & Hall)|(j & E & Hj & Hfree)]; rewrite E; [left; by split|].
  right. destruct (tbl_add_ok _ dm (S r) j device Hd (Hk j Hj)) as (t & Et & Hr). rewrite Et. eexists j, _. split; [done|].
  split; [done|]. split; [done|]. split; [|done]. split; cbn [driver_table devnums put_devnum dn_next irq_depth]; [|done| |done| |done].
  - eapply tbl_rep_weaken; [exact Ht|lia].
  - intros k q Hq. destruct (He k q Hq) as (Hp & d' & dm' & Ed' & Edm' & Hd'). split; [done|].
    destruct (decide (q = p)) as [->|].
    + simplify_eq. eexists _, _. rewrite !lookup_insert_eq. by split_and!.
    + exists d', dm'. rewrite !lookup_insert_ne by done. split_and!; [done|done|]. eapply tbl_rep_weaken; [exact Hd'|lia].
  - eapply tbl_rep_weaken; [exact Hf|lia].
Qed.

(** A major number for a driver that has none. *)
Lemma new_major w m tm r i driver b : dn_rep w m tm (S r) -> 0 <= i < 256 -> m !! i = None ->
  exists t, tbl_add (driver_table w) i (dn_next w) = Ret t /\
    dn_rep (mk_dn t (<[dn_next w := mk_devnum driver fresh]> (devnums w)) (dn_next w + 1) b (irq_depth w))
      (<[i := dn_next w]> m) (<[dn_next w := ∅]> tm) r.
Proof.
  intros [Ht Hk He Hi Hf Hn] Hir Em. destruct (tbl_add_ok _ m (S r) i (dn_next w) Ht (Hk i Hir)) as (t & Et & Hr).
  exists t. split; [done|]. split; cbn [driver_table devnums dn_next irq_depth]; [done|done| | | |lia].
  - intros k q [[-> <-]|[Hne Hq]]%lookup_insert_Some.
    + split; [lia|]. eexists _, _. rewrite !lookup_insert_eq. split_and!; [done|done|]. eapply tbl_rep_weaken; [exact Hf|lia].
    + destruct (He k q Hq) as (Hp & d & dm & Ed & Edm & Hd). split; [lia|]. exists d, dm.
      rewrite !lookup_insert_ne by lia. split_and!; [done|done|]. eapply tbl_rep_weaken; [exact Hd|lia].
  - intros k l q [[-> <-]|[Hne Hq]]%lookup_insert_Some [[-> E]|[Hne' Hq']]%lookup_insert_Some; [done|..].
    + destruct (He _ _ Hq') as [? _]. lia.
    + subst q. destruct (He _ _ Hq) as [? _]. lia.
    + by apply (Hi k l q).
  - eapply tbl_rep_weaken; [exact Hf|lia].
Qed.

Lemma device_at_minor (m : gmap Z Z) (tm : gmap Z (gmap Z Z)) i p dm j device dn :
  (forall k l q, m !! k = Some q -> m !! l = Some q -> k = l) -> m !! i = Some p -> tm !! p = Some dm ->
  0 <= i < 256 -> 0 <= j < 256 -> 0 <= dn < 2 ^ 16 ->
  device_at m (<[p := <[j := device]> dm]> tm) dn = if decide (dn = makedev i j) then device else device_at m tm dn.
Proof.
  intros Hinj Em Edm Hi Hj Hdn. destruct (makedev_parts i j Hi Hj) as [E1 E2]. unfold device_at, mbind, option_bind.
  case_decide as Hd.
  - subst dn. by rewrite E1, Em, lookup_insert_eq, E2, lookup_insert_eq.
  - destruct (m !! major dn) as [q|] eqn:Eq; [|done]. destruct (decide (q = p)) as [->|]; [|by rewrite lookup_insert_ne].
    rewrite lookup_insert_eq, Edm. rewrite lookup_insert_ne; [done|]. intros Ej. apply Hd.
    rewrite <- (parts_makedev dn Hdn), <- Ej. f_equal. by apply (Hinj _ _ p).
Qed.

Lemma device_at_major (m : gmap Z Z) (tm : gmap Z (gmap Z Z)) i p dn :
  m !! i = None -> (forall k, m !! k <> Some p) -> device_at (<[i := p]> m) (<[p := ∅]> tm) dn = device_at m tm dn.
Proof.
  intros Em Hp. unfold device_at, mbind, option_bind. destruct (decide (major dn = i)) as [->|].
  - by rewrite lookup_insert_eq, lookup_insert_eq, Em, lookup_empty.
  - rewrite lookup_insert_ne by done. destruct (m !! major dn) as [q|] eqn:Eq; [|done].
    rewrite lookup_insert_ne; [done|]. intros ->. by apply (Hp (major dn)).
Qed.

(** The majors from [i] to [k] are other drivers'. *)
Definition others_until w (m : gmap Z Z) (i k driver : Z) : Prop :=
  forall l, i <= l < k -> exists p d, m !! l = Some p /\ devnums w !! p = Some d /\ dn_driver d <> driver.

(** No number for the driver: its own major has no minor left, or it has none
    and either every major is another driver's or the first free one finds no
    memory. *)
Definition no_number w (m : gmap Z Z) (tm : gmap Z (gmap Z Z)) (i driver : Z) : Prop :=
  others_until w m i 256 driver \/
  (exists k, i <= k < 256 /\ others_until w m i k driver /\ m !! k = None /\ budget w = O) \/
  exists k p d dm, m !! k = Some p /\ devnums w !! p = Some d /\ dn_driver d = driver /\ tm !! p = Some dm /\
    forall j, 0 <= j < 256 -> default 0 (dm !! j) <> 0.

Lemma others_until_next w m i k p d driver : m !! i = Some p -> devnums w !! p = Some d -> dn_driver d <> driver ->
  others_until w m (i + 1) k driver -> others_until w m i k driver.
Proof. intros Em Ed Hd H l Hl. destruct (decide (l = i)) as [->|]; [by exists p, d|]. apply H. lia. Qed.

Lemma no_number_next w m tm i p d driver : m !! i = Some p -> devnums w !! p = Some d -> dn_driver d <> driver ->
  no_number w m tm (i + 1) driver -> no_number w m tm i driver.
Proof.
  intros Em Ed Hd [H|[(k & Hk & H & Hm & Hb)|H]].
  - left. by eapply others_until_next.
  - right. left. exists k. split; [lia|]. split; [by eapply others_until_next|done].
  - by right; right.
Qed.

(** [dn] was given to [device]. *)
Definition number_given w w' (m : gmap Z Z) (tm : gmap Z (gmap Z Z)) r dn device : Prop :=
  0 <= dn < 2 ^ 16 /\ irq_depth w' = irq_depth w /\ device_at m tm dn = 0 /\
  exists m' tm', dn_rep w' m' tm' r /\ is_Some (m' !! major dn) /\
    forall dn', 0 <= dn' < 2 ^ 16 -> device_at m' tm' dn' = if decide (dn' = dn) then device else device_at m tm dn'.

Lemma makedev_range i j : 0 <= i < 256 -> 0 <= j < 256 -> 0 <= makedev i j < 2 ^ 16.
Proof. intros. unfold makedev. rewrite !wrap8_small by lia. lia. Qed.

Lemma alloc_minor_given w m tm r i p device d dm : dn_rep w m tm (S r) -> device <> 0 -> 0 <= i < 256 ->
  m !! i = Some p -> devnums w !! p = Some d -> tm !! p = Some dm -> tbl_rep (device_table d) dm (S (S r)) ->
  (alloc_minor i p device w = Ret (- ENOMEM, None, w) /\ forall j, 0 <= j < 256 -> default 0 (dm !! j) <> 0) \/
  exists dn w', alloc_minor i p device w = Ret (0, Some dn, w') /\ number_given w w' m tm r dn device.
Proof.
  intros Hrep Hdev Hi Em Ed Edm Hd.
  destruct (alloc_minor_spec w m tm r i p device d dm Hrep Hdev Hi Em Ed Edm Hd) as [?|(j & w' & E & Hj & Hfree & Hrep' & Hirq)]; [by left|].
  right. exists (makedev i j), w'. split; [done|]. destruct (makedev_parts i j Hi Hj) as [E1 E2]. split; [by apply makedev_range|].
  split; [done|]. split; [unfold device_at, mbind, option_bind; by rewrite E1, Em, Edm, E2|].
  eexists _, _. split; [exact Hrep'|]. split; [by rewrite E1, Em|]. intros dn' Hdn'.
  apply device_at_minor; try done. apply (dn_inj _ _ _ _ Hrep).
Qed.

Lemma alloc_from_spec n i w m tm r driver device : dn_rep w m tm (S (S r)) -> budget w <> 1%nat -> budget w <> 2%nat -> device <> 0 ->
  0 <= i -> i + Z.of_nat n = 256 ->
  (alloc_from fresh n i driver device w = Ret (- ENOMEM, None, w) /\ no_number w m tm i driver) \/
  exists dn w', alloc_from fresh n i driver device w = Ret (0, Some dn, w') /\ number_given w w' m tm r dn device.
Proof.
  intros Hrep Hb1 Hb2 Hdev. revert i. induction n as [|n IH]; intros i Hi Hn; [left; split; [done|left; intros l; lia]|].
  cbn [alloc_from]. unfold mbind, outcome_bind. rewrite (tbl_get_ok _ m _ i (dn_table _ _ _ _ Hrep) (dn_keys _ _ _ _ Hrep i ltac:(lia))).
  destruct (m !! i) as [p|] eqn:Em; cbn [default from_option id].
  - destruct (dn_entries _ _ _ _ Hrep i p Em) as (Hp & d & dm & Ed & Edm & Hd). rewrite bool_decide_eq_true_2 by lia.
    rewrite Ed. cbn [deref]. case_bool_decide as Hdrv.
    + destruct (IH (i + 1)) as [(E & Hno)|?]; [lia|lia| |by right]. left. split; [done|]. by eapply no_number_next.
    + destruct (alloc_minor_given w m tm r i p device d dm) as [(E & Hall)|(dn & w' & E & Hg)]; try done; [|lia| | |].
      * destruct Hrep as [Ht Hk He Hij Hf Hnp]. split; try done; [by eapply tbl_rep_weaken; [exact Ht|lia]| |by eapply tbl_rep_weaken; [exact Hf|lia]].
        intros k q Hq. destruct (He k q Hq) as (? & d' & dm' & ? & ? & Hd'). split; [done|]. exists d', dm'.
        split_and!; [done|done|]. eapply tbl_rep_weaken; [exact Hd'|lia].
      * eapply tbl_rep_weaken; [exact Hd|lia].
      * left. split; [done|]. right. right. exists i, p, d, dm. split_and!; try done.
      * right. by exists dn, w'.
  - change (null : Z) with 0. cbn [bool_decide]. rewrite bool_decide_eq_false_2 by tauto.
    destruct (budget w) as [|[|[|b]]] eqn:Hb; [|done|done|]; [left; split; [done|]; right; left; exists i; split_and!; [lia|lia|intros l; lia|done|done]|]. right.
    destruct (new_major w m tm (S r) i driver b Hrep ltac:(lia) Em) as (t & Et & Hrep'). rewrite Et.
    pose proof (dn_entries _ _ _ _ Hrep' i (dn_next w)) as He'. rewrite lookup_insert_eq in He'.
    destruct (He' eq_refl) as (_ & d & dm & Ed & Edm & Hd). rewrite lookup_insert_eq in Edm. injection Edm as <-.
    destruct (alloc_minor_given _ _ _ r i (dn_next w) device d ∅ Hrep' Hdev ltac:(lia) ltac:(by rewrite lookup_insert_eq) Ed
      ltac:(by rewrite lookup_insert_eq) Hd) as [(_ & Hall)|(dn & w' & E & Hdn & Hirq & H0 & m' & tm' & Hrep2 & Hs & Hat)].
    { exfalso. apply (Hall 0); [lia|]. by rewrite lookup_empty. }
    exists dn, w'. split; [exact E|]. split; [done|]. split; [done|].
    assert (Hm : forall x, device_at (<[i := dn_next w]> m) (<[dn_next w := ∅]> tm) x = device_at m tm x).
    { intros x. apply device_at_major; [done|]. intros k Hk. destruct (dn_entries _ _ _ _ Hrep _ _ Hk) as [? _]. lia. }
    rewrite Hm in H0. split; [done|]. exists m', tm'. split; [done|]. split; [done|]. intros dn' Hdn'. by rewrite Hat, Hm.
Qed.

(** What [devnum_get_device] answers. *)
Definition device_of (dn : Z) w : outcome Z := r ← devnum_get_device dn w; Ret (fst r).

Lemma device_of_eq w m tm r dn : dn_rep w m tm r -> device_of dn w = Ret (device_at m tm dn).
Proof. intros H. destruct (get_device_eq w m tm r dn H) as (w' & E & _). unfold device_of, mbind, outcome_bind. by rewrite E. Qed.

(** C36.  [devnum_alloc] gives a device a number that no device had, and from
    then on [devnum_get_device] leads from this number to the device, and from
    every other number to what it led to before.  It fails only when the
    driver's own minors are all in use, when it has no major number and all
    are taken, or when it has none and memory has no room for one; a failure
    changes nothing.  The tables are within their bounds (two more entries), and
    memory does not run out between the structure of a major and its table:
    [no_memory_for_the_table] shows what happens then. *)
Theorem devnum_alloc_roundtrip w m tm r driver device : dn_rep w m tm (S (S r)) ->
  budget w <> 1%nat -> budget w <> 2%nat -> device <> 0 ->
  (devnum_alloc fresh driver device w = Ret (- ENOMEM, None, w) /\ no_number w m tm 0 driver) \/
  exists dn w', devnum_alloc fresh driver device w = Ret (0, Some dn, w') /\ 0 <= dn < 2 ^ 16 /\
    device_of dn w = Ret 0 /\ devnum_get_device dn w' = Ret (device, w') /\
    (forall dn', 0 <= dn' < 2 ^ 16 -> dn' <> dn -> device_of dn' w' = device_of dn' w) /\
    irq_depth w' = irq_depth w /\ exists m' tm', dn_rep w' m' tm' r.
Proof.
  intros Hrep Hb1 Hb2 Hdev. unfold devnum_alloc, mbind, outcome_bind.
  assert (Hadd : forall x n k m tm, dn_rep x m tm k -> dn_rep (add_depth x n) m tm k) by (intros x n k ? ? []; by split).
  destruct (alloc_from_spec DEV_MAX 0 (add_depth w 1) m tm r driver device (Hadd _ _ _ _ _ Hrep) Hb1 Hb2 Hdev ltac:(lia) ltac:(done))
    as [(E & Hno)|(dn & w1 & E & Hdn & Hirq & H0 & m' & tm' & Hrep1 & Hs & Hat)]; rewrite E.
  - left. split; [|exact Hno]. do 2 f_equal. destruct w. unfold add_depth. cbn. f_equal. lia.
  - right. pose proof (Hadd w1 (-1) _ _ _ Hrep1) as Hrep2. exists dn, (add_depth w1 (-1)). split; [done|]. split; [done|].
    rewrite (device_of_eq w m tm _ dn Hrep), H0. split; [done|].
    destruct (get_device_eq (add_depth w1 (-1)) m' tm' r dn Hrep2) as (w3 & E3 & Hw3). rewrite E3, (Hw3 Hs), Hat, decide_True by done.
    split; [done|]. split; [|split; [cbn in *; lia|by exists m', tm']]. intros dn' Hdn' Hne.
    by rewrite (device_of_eq _ _ _ _ dn' Hrep2), (device_of_eq _ _ _ _ dn' Hrep), Hat, decide_False.
Qed.

End Numbers.
(** ** Instances, with the hash table *)
Import Hashtable.Hashtable.

Definition no_devices : @dn_world (Hashtable.hashtable Z Z) := mk_dn Hashtable.new_uint ∅ 1 9 0.

Lemma no_devices_rep : dn_rep Hashtable.new_uint no_devices ∅ ∅ 7.
Proof.
  assert (Hu : tbl_rep Hashtable.new_uint ∅ 8).
  { destruct (Hashtable.create_inv (K:=Z) (V:=Z) (fun _ => true) Hashtable.new_uint eq_refl) as (Hinv & Hcl & _).
    split; [exact Hinv|]. rewrite Hcl. apply (bool_decide_unpack _). vm_compute. exact I. }
  split; [exact Hu| | | |exact Hu|cbn; lia].
  - intros i Hi. simpl. lia.
  - intros i p Hi. by rewrite lookup_empty in Hi.
  - intros i j p Hi. by rewrite lookup_empty in Hi.
Qed.

Lemma devnum_alloc_roundtrip_witness :
  exists w', devnum_alloc Hashtable.new_uint 50 500 no_devices = Ret (0, Some 0, w') /\ devnum_get_device 0 w' = Ret (500, w').
Proof.
  destruct (devnum_alloc_roundtrip Hashtable.new_uint no_devices ∅ ∅ 5 50 500 no_devices_rep ltac:(discriminate) ltac:(discriminate) ltac:(discriminate))
    as [(E & _)|(dn & w' & E & _ & _ & Eg & _)].
  - vm_compute in E. discriminate E.
  - exists w'. pose proof E as E'. vm_compute in E'. injection E' as <- _. split; [exact E|exact Eg].
Defined.

(** Room for the structure of a major number and not for its table: the
    unchecked NULL table is read. *)
Example no_memory_for_the_table :
  devnum_alloc Hashtable.new_uint 50 500 (mk_dn Hashtable.new_uint ∅ 1 1 0) = Fault /\
  devnum_alloc Hashtable.new_uint 50 500 (mk_dn Hashtable.new_uint ∅ 1 0 0) = Ret (- ENOMEM, None, mk_dn Hashtable.new_uint ∅ 1 0 0).
Proof. split; reflexivity. Qed.

(** The lookup of a number whose major is free returns with the lock held:
    interrupts stay disabled. *)
Example lock_leaked : exists w', devnum_get_device 3 no_devices = Ret (0, w') /\ irq_depth w' = 1.
Proof. eexists. split; reflexivity. Qed.

End Devnum.
