(* ===== verification/Tty.v ===== *)
(** The terminals of [src/drivers/serial/tty.c]: a ring of received characters
    filled from the interrupt of the UART and emptied by readers, and the calls
    on terminals that go to the UART's driver.

    The interrupt comes between any two steps of a reader: a read is the
    sequence of its accesses to the semaphore and to the ring. *)
From stdpp Require Import pretty.
From S2P Require Import Prelude Table Devnum.
#[local] Open Scope Z_scope.

Module Tty.

(** ** Received characters *)

Section Ring.
(** [CONFIG_TTY_MAX_INPUT]. *)
Context (TTY_MAX_INPUT : Z).

(** Where the holder of [rx_mutex] is in [tty_read], with the bytes it has
    stored so far: before [semaphore_down]; about to take a character, having
    got a unit of the semaphore; at the condition of the loop. *)
Inductive reader :=
  | Idle
  | Waiting (len : Z)
  | Copying (len : Z) (buffer : list Z)
  | Checking (len : Z) (buffer : list Z).

Record tty_device := mk_tty {
  rx_buffer : list Z;
  rx_start : Z;
  rx_end : Z;
  rx_semaphore : Z;
  rx_mutex : reader;
}.

Definition with_reader (t : tty_device) (r : reader) : tty_device :=
  mk_tty (rx_buffer t) (rx_start t) (rx_end t) (rx_semaphore t) r.
Definition with_semaphore (t : tty_device) (n : Z) : tty_device :=
  mk_tty (rx_buffer t) (rx_start t) (rx_end t) n (rx_mutex t).

(** [tty_process_special_char] does nothing and returns false. *)
Definition tty_process_special_char (t : tty_device) (c : Z) : bool := false.

(** The result tells whether the character was kept. *)
Definition tty_push_to_input_queue (t : tty_device) (c : Z) : outcome (bool * tty_device) :=
  if tty_process_special_char t c then Ret (false, t) else
  if bool_decide (rx_semaphore t = TTY_MAX_INPUT) then Ret (false, t) else
  _ ← deref (rx_buffer t !! Z.to_nat (rx_end t));
  Ret (true, mk_tty (<[Z.to_nat (rx_end t) := c]> (rx_buffer t)) (rx_start t) ((rx_end t + 1) mod TTY_MAX_INPUT)
         (wrap32 (rx_semaphore t + 1)) (rx_mutex t)).

(** The steps of [tty_read], each enabled in its state of the reader; the last
    one returns the bytes of the call. *)
Definition read_lock (t : tty_device) (len : Z) : tty_device :=
  match rx_mutex t with Idle => with_reader t (Waiting len) | _ => t end.
Definition read_down (t : tty_device) : tty_device :=
  match rx_mutex t with
  | Waiting len => if bool_decide (rx_semaphore t = 0) then t else with_reader (with_semaphore t (rx_semaphore t - 1)) (Copying len [])
  | _ => t
  end.
Definition read_copy (t : tty_device) : outcome tty_device :=
  match rx_mutex t with
  | Copying len buffer =>
      c ← deref (rx_buffer t !! Z.to_nat (rx_start t));
      let start := rx_start t + 1 in
      let start := if bool_decide (TTY_MAX_INPUT <= start) then 0 else start in
      Ret (mk_tty (rx_buffer t) start (rx_end t) (rx_semaphore t) (Checking len (buffer ++ [c])))
  | _ => Ret t
  end.
Definition read_check (t : tty_device) : tty_device * option (list Z) :=
  match rx_mutex t with
  | Checking len buffer =>
      if bool_decide (Z.of_nat (length buffer) < len) && bool_decide (rx_semaphore t <> 0)
      then (with_reader (with_semaphore t (rx_semaphore t - 1)) (Copying len buffer), None)
      else (with_reader t Idle, Some buffer)
  | _ => (t, None)
  end.

Inductive event := Push (c : Z) | Lock (len : Z) | Down | Copy | Check_.

(** What is seen of a step: a character kept or dropped, the bytes of a read. *)
Inductive observation := Kept (b : bool) | Read (buffer : list Z) | Nothing.
#[export] Instance observation_eq_dec : EqDecision observation.
Proof. solve_decision. Defined.

Definition step (t : tty_device) (e : event) : outcome (tty_device * observation) :=
  match e with
  | Push c => '(b, t) ← tty_push_to_input_queue t c; Ret (t, Kept b)
  | Lock len => Ret (read_lock t len, Nothing)
  | Down => Ret (read_down t, Nothing)
  | Copy => t ← read_copy t; Ret (t, Nothing)
  | Check_ => let '(t, r) := read_check t in Ret (t, match r with Some b => Read b | None => Nothing end)
  end.

Fixpoint run (t : tty_device) (es : list event) : outcome (tty_device * list observation) :=
  match es with
  | [] => Ret (t, [])
  | e :: es => '(t, o) ← step t e; '(t, os) ← run t es; Ret (t, o :: os)
  end.

(** The fields [tty_register] sets. *)
Definition tty_init (buffer : list Z) : tty_device := mk_tty buffer 0 0 0 Idle.

(** ** Specification: a queue of at most [TTY_MAX_INPUT] characters *)

(** [queue] holds what was received and not yet copied by a reader. *)
Record spec := mk_spec { queue : list Z; sreader : reader }.

Definition spec_step (s : spec) (e : event) : spec * observation :=
  match e, sreader s with
  | Push c, r => if bool_decide (Z.of_nat (length (queue s)) < TTY_MAX_INPUT) then (mk_spec (queue s ++ [c]) r, Kept true) else (s, Kept false)
  | Lock len, Idle => (mk_spec (queue s) (Waiting len), Nothing)
  | Down, Waiting len => match queue s with [] => (s, Nothing) | _ => (mk_spec (queue s) (Copying len []), Nothing) end
  | Copy, Copying len b => match queue s with [] => (s, Nothing) | c :: q => (mk_spec q (Checking len (b ++ [c])), Nothing) end
  | Check_, Checking len b =>
      if bool_decide (Z.of_nat (length b) < len) && bool_decide (queue s <> []) then (mk_spec (queue s) (Copying len b), Nothing)
      else (mk_spec (queue s) Idle, Read b)
  | _, _ => (s, Nothing)
  end.

Fixpoint spec_run (s : spec) (es : list event) : list observation :=
  match es with
  | [] => []
  | e :: es => let '(s, o) := spec_step s e in o :: spec_run s es
  end.

(** A character that comes when the ring is full and a reader has taken a unit
    of the semaphore but not yet its character. *)
Definition overrun (s : spec) (e : event) : bool :=
  match e, sreader s with
  | Push _, Copying _ _ => bool_decide (Z.of_nat (length (queue s)) = TTY_MAX_INPUT)
  | _, _ => false
  end.
Fixpoint no_overrun (s : spec) (es : list event) : Prop :=
  match es with
  | [] => True
  | e :: es => overrun s e = false /\ no_overrun (fst (spec_step s e)) es
  end.

(** ** Simulation *)

Definition claimed (r : reader) : Z := match r with Copying _ _ => 1 | _ => 0 end.

Record sim (t : tty_device) (s : spec) : Prop := {
  sim_reader : rx_mutex t = sreader s;
  sim_size : Z.of_nat (length (rx_buffer t)) = TTY_MAX_INPUT;
  sim_start : 0 <= rx_start t < TTY_MAX_INPUT;
  sim_count : Z.of_nat (length (queue s)) = rx_semaphore t + claimed (sreader s);
  sim_bounds : 0 <= rx_semaphore t /\ Z.of_nat (length (queue s)) <= TTY_MAX_INPUT;
  sim_end : rx_end t = (rx_start t + Z.of_nat (length (queue s))) mod TTY_MAX_INPUT;
  sim_queue : forall i c, queue s !! i = Some c -> rx_buffer t !! Z.to_nat ((rx_start t + Z.of_nat i) mod TTY_MAX_INPUT) = Some c;
}.

Context (Hmax : 0 < TTY_MAX_INPUT < 2 ^ 31).

Lemma mod_case start i : 0 <= start < TTY_MAX_INPUT -> 0 <= i <= TTY_MAX_INPUT ->
  (start + i) mod TTY_MAX_INPUT = start + i - (if bool_decide (TTY_MAX_INPUT <= start + i) then TTY_MAX_INPUT else 0).
Proof.
  intros Hs Hi. symmetry. case_bool_decide.
  - destruct (decide (start + i = 2 * TTY_MAX_INPUT)); [lia|]. apply (Z.mod_unique_pos _ _ 1); lia.
  - apply (Z.mod_unique_pos _ _ 0); lia.
Qed.

Lemma sim_push t s c : sim t s -> overrun s (Push c) = false ->
  exists t', step t (Push c) = Ret (t', snd (spec_step s (Push c))) /\ sim t' (fst (spec_step s (Push c))).
Proof.
  intros [Hr Hz Hs Hc Hb He Hq] Ho. cbn [step spec_step]. unfold tty_push_to_input_queue, mbind, outcome_bind. cbn [tty_process_special_char].
  destruct (bool_decide (rx_semaphore t = TTY_MAX_INPUT)) eqn:Ef; [apply bool_decide_eq_true in Ef|apply bool_decide_eq_false in Ef].
  - rewrite bool_decide_eq_false_2 by (destruct (sreader s); cbn in *; lia). exists t. split; [done|by split].
  - assert (Hroom : Z.of_nat (length (queue s)) < TTY_MAX_INPUT).
    { unfold overrun in Ho. destruct (sreader s); cbn in *; try lia. apply bool_decide_eq_false in Ho. lia. }
    rewrite (bool_decide_eq_true_2 (_ < _)) by done. rewrite mod_case in He by lia.
    assert (Hend : 0 <= rx_end t < TTY_MAX_INPUT) by (rewrite He; case_bool_decide; lia).
    destruct (lookup_lt_is_Some_2 (rx_buffer t) (Z.to_nat (rx_end t))) as [x Hx]; [lia|]. rewrite Hx. cbn [deref].
    eexists. split; [reflexivity|]. cbn [fst snd]. split; cbn [rx_mutex rx_buffer rx_start rx_end rx_semaphore queue sreader].
    + done.
    + by rewrite length_insert.
    + done.
    + rewrite length_app. cbn [length]. rewrite wrap32_small; destruct (sreader s); cbn in *; lia.
    + rewrite length_app. cbn [length]. rewrite wrap32_small; destruct (sreader s); cbn in *; lia.
    + rewrite length_app. cbn [length]. rewrite He.
      replace (rx_start t + Z.of_nat (length (queue s) + 1)) with (rx_start t + Z.of_nat (length (queue s)) + 1) by lia.
      case_bool_decide; [|by rewrite Z.sub_0_r].
      rewrite <- (Z_mod_plus_full _ 1). f_equal. lia.
    + intros i y Hi. destruct (decide (i = length (queue s))) as [->|Hne].
      * rewrite lookup_app_r, Nat.sub_diag in Hi by lia. injection Hi as <-. rewrite mod_case by lia.
        rewrite <- He. apply list_lookup_insert_eq. lia.
      * assert (Hlt : (i < length (queue s))%nat) by (apply lookup_lt_Some in Hi; rewrite length_app in Hi; cbn in Hi; lia).
        rewrite lookup_app_l in Hi by lia. rewrite list_lookup_insert_ne; [by apply Hq|].
        rewrite He, mod_case by lia. repeat case_bool_decide; lia.
Qed.

Lemma sim_copy t s : sim t s ->
  exists t', step t Copy = Ret (t', snd (spec_step s Copy)) /\ sim t' (fst (spec_step s Copy)).
Proof.
  intros S. pose proof S as [Hr Hz Hs Hc Hb He Hq]. cbn [step]. unfold read_copy, mbind, outcome_bind. rewrite Hr.
  destruct s as [q r]. cbn [queue sreader] in *. destruct r; try (exists t; split; [done|exact S]).
  cbn [spec_step sreader queue]. destruct q as [|c q]; [cbn in Hc; lia|].
  pose proof (Hq O c eq_refl) as H0. rewrite Z.add_0_r, Z.mod_small in H0 by lia. rewrite H0. cbn [deref].
  eexists. split; [reflexivity|]. cbn [fst]. cbn [length] in *. cbn [claimed] in *.
  set (start' := if bool_decide (TTY_MAX_INPUT <= rx_start t + 1) then 0 else rx_start t + 1).
  assert (Hst : 0 <= start' < TTY_MAX_INPUT) by (unfold start'; case_bool_decide; lia).
  assert (Hmod : forall n, (start' + n) mod TTY_MAX_INPUT = (rx_start t + (1 + n)) mod TTY_MAX_INPUT).
  { intros n. unfold start'. case_bool_decide; [|f_equal; lia]. assert (rx_start t = TTY_MAX_INPUT - 1) as -> by lia.
    rewrite <- (Z_mod_plus_full (0 + n) 1). f_equal. lia. }
  split; cbn [rx_mutex rx_buffer rx_start rx_end rx_semaphore queue sreader claimed].
  - done.
  - done.
  - exact Hst.
  - lia.
  - lia.
  - rewrite He, Hmod. f_equal. lia.
  - intros i y Hi. rewrite Hmod. rewrite <- (Hq (Datatypes.S i) y Hi). by replace (1 + Z.of_nat i) with (Z.of_nat (Datatypes.S i)) by lia.
Qed.

Lemma sim_other t s e : sim t s -> match e with Push _ | Copy => False | _ => True end ->
  exists t', step t e = Ret (t', snd (spec_step s e)) /\ sim t' (fst (spec_step s e)).
Proof.
  intros S He0. pose proof S as [Hr Hz Hs Hc Hb He Hq]. destruct s as [q r]. cbn [queue sreader] in *.
  destruct e as [c|len| | |]; try done; cbn [step spec_step sreader queue].
  - unfold read_lock. rewrite Hr. destruct r; try (exists t; split; [done|exact S]).
    eexists. split; [reflexivity|]. by split.
  - unfold read_down. rewrite Hr. destruct r; try (exists t; split; [done|exact S]). cbn [claimed] in Hc.
    destruct q as [|c q]; cbn [length] in *.
    + rewrite bool_decide_eq_true_2 by lia. exists t. split; [done|exact S].
    + rewrite bool_decide_eq_false_2 by lia. eexists. split; [reflexivity|]. split; try done; cbn [fst queue sreader claimed rx_semaphore with_reader with_semaphore length]; lia.
  - unfold read_check. rewrite Hr. destruct r; try (exists t; split; [done|exact S]). cbn [claimed] in Hc.
    assert (Hiff : bool_decide (rx_semaphore t <> 0) = bool_decide (q <> [])).
    { apply bool_decide_ext. destruct q; cbn [length] in *; split; intros ?; try done; lia. }
    rewrite Hiff. clear Hiff. destruct (bool_decide (Z.of_nat (length buffer) < len)); cbn [andb];
      [|eexists; split; [reflexivity|]; by split].
    case_bool_decide as Hq0; (eexists; split; [reflexivity|]); split; try done; cbn [fst queue sreader claimed rx_semaphore with_reader with_semaphore];
      destruct q; cbn [length] in *; try done; lia.
Qed.

Lemma sim_step t s e : sim t s -> overrun s e = false ->
  exists t', step t e = Ret (t', snd (spec_step s e)) /\ sim t' (fst (spec_step s e)).
Proof. destruct e; intros S Ho; [by apply sim_push|by apply sim_other..|by apply sim_copy|by apply sim_other]. Qed.

Lemma sim_run t s es : sim t s -> no_overrun s es -> exists t', run t es = Ret (t', spec_run s es).
Proof.
  revert t s. induction es as [|e es IH]; intros t s S Hn; [by exists t|]. destruct Hn as [Ho Hn].
  destruct (sim_step t s e S Ho) as (t1 & E1 & S1). destruct (IH t1 _ S1 Hn) as (t2 & E2). exists t2.
  cbn [run spec_run]. unfold mbind, outcome_bind. rewrite E1. destruct (spec_step s e) as [s' o]. cbn [fst snd] in *. by rewrite E2.
Qed.

Lemma sim_init buffer : Z.of_nat (length buffer) = TTY_MAX_INPUT -> sim (tty_init buffer) (mk_spec [] Idle).
Proof. intros Hl. split; cbn; try done; try lia. Qed.

(** C37.  Whatever the interleaving of the receive interrupt with the steps of
    readers, a terminal is a bounded queue: the characters kept are those that
    come when fewer than [TTY_MAX_INPUT] are waiting, readers get exactly these,
    in order, each once, and no access leaves the ring.  The one condition is
    that no character comes when the ring is full and a reader is between
    taking its unit of the semaphore and taking its character. *)
Theorem tty_is_bounded_queue buffer es : Z.of_nat (length buffer) = TTY_MAX_INPUT -> no_overrun (mk_spec [] Idle) es ->
  exists t, run (tty_init buffer) es = Ret (t, spec_run (mk_spec [] Idle) es).
Proof. intros Hl Hn. by apply sim_run; [apply sim_init|]. Qed.

End Ring.

(** ** Calls on terminals *)

Definition TCGETS : Z := 0.
Definition TCSETS : Z := 1.
Definition TCSETSW : Z := 2.
Definition TCSETSF : Z := 3.
Definition TCSANOW : Z := 0.
Definition TCSADRAIN : Z := 1.
Definition TCSAFLUSH : Z := 2.

Section Calls.
(** [D]: the state of the UART; [Tm]: [struct termios]. *)
Context {D Tm : Type}.

Record tty_ops := mk_ops {
  write : option (D -> list Z -> Z -> D * Z);
  tcsetattr : option (D -> Z -> Tm -> D * Z);
}.
Record port := mk_port { ops : option tty_ops; termios : Tm; uart : D }.

Definition with_uart (t : port) (d : D) : port := mk_port (ops t) (termios t) d.
Definition with_termios (t : port) (m : Tm) : port := mk_port (ops t) m (uart t).

(** [t]: the terminal [devnum_get_device] leads to, or none. *)
Definition tty_write (t : option port) (buffer : option (list Z)) (len : Z) : option port * Z :=
  match buffer, t with
  | None, _ | _, None => (t, - EINVAL)
  | Some b, Some p =>
      match ops p with
      | None => (t, - EINVAL)
      | Some o =>
          match write o with
          | None => (t, - ENOSYS)
          | Some f => let '(d, r) := f (uart p) b len in (Some (with_uart p d), r)
          end
      end
  end.

Definition set_attr (p : port) (o : tty_ops) (action : Z) (m : Tm) (missing : Z) : port * Z :=
  match tcsetattr o with
  | None => (p, missing)
  | Some f => let '(d, r) := f (uart p) action m in (with_uart p d, r)
  end.

(** [ios]: the structure the argument points to; it comes back as the call
    leaves it. *)
Definition tty_ioctl (t : option port) (cmd : Z) (ios : Tm) : option port * Z * Tm :=
  match t with
  | None => (t, - EINVAL, ios)
  | Some p =>
      match ops p with
      | None => (t, - EINVAL, ios)
      | Some o =>
          if bool_decide (cmd = TCSETS) then
            let '(p, r) := set_attr (with_termios p ios) o TCSANOW ios 0 in (Some p, r, ios)
          else if bool_decide (cmd = TCSETSW) then let '(p, r) := set_attr p o TCSADRAIN ios (- ENOSYS) in (Some p, r, ios)
          else if bool_decide (cmd = TCSETSF) then let '(p, r) := set_attr p o TCSAFLUSH ios (- ENOSYS) in (Some p, r, ios)
          else if bool_decide (cmd = TCGETS) then (Some p, 0, termios p)
          else (Some p, - EINVAL, ios)
      end
  end.
End Calls.

(** ** Registration *)

Section Register.
Context {T : Type} `{!TableOps Z Z T} (fresh : T).

(** The character devices made so far, with their names. *)
Record registry := mk_registry { numbers : @Devnum.dn_world T; nodes : list (string * Z) }.

(** [chrdev_register]: [known] tells whether the device's driver is registered;
    its name is printed without a test.  The result of [devfs_mknod] is not
    looked at. *)
Definition chrdev_register (known : bool) (devnum : Z) (name : string) (w : registry) : outcome (Z * registry) :=
  if negb known then Fault else Ret (0, mk_registry (numbers w) (nodes w ++ [(name, devnum)])).

(** [asprintf]: whether the name could be made.  The result with the number
    that becomes the terminal's [id]. *)
Definition tty_register (driver tty : Z) (known asprintf : bool) (w : registry) : outcome (Z * option Z * registry) :=
  if bool_decide (tty = 0) then Ret (- EINVAL, None, w) else
  '(r, devnum, n) ← Devnum.devnum_alloc fresh driver tty (numbers w);
  let w := mk_registry n (nodes w) in
  match devnum with
  | None => Ret (r, None, w)
  | Some dn =>
      let id := Devnum.minor dn in
      if negb asprintf then Ret (- ENOMEM, Some id, w) else
      '(r, w) ← chrdev_register known dn ("ttyS" +:+ pretty id) w;
      Ret (r, Some id, w)
  end.
End Register.

(** ** Instances *)

(** A ring of four: two characters, a read of three that gets two, then five
    characters of which the last is dropped, and a read over the wrap. *)
Definition a_run : list event :=
  [Push 1; Lock 3; Down; Push 2; Copy; Check_; Copy; Check_; Push 3; Push 4; Push 5; Push 6; Push 7;
   Lock 4; Down; Copy; Check_; Copy; Check_; Copy; Check_; Copy; Check_].

Lemma tty_is_bounded_queue_witness : exists t os, run 4 (tty_init [0; 0; 0; 0]) a_run = Ret (t, os) /\
  filter (fun o => o <> Nothing /\ o <> Kept true) os = [Read [1; 2]; Kept false; Read [3; 4; 5; 6]].
Proof.
  destruct (tty_is_bounded_queue 4 ltac:(lia) [0; 0; 0; 0] a_run) as (t & E).
  - reflexivity.
  - vm_compute. repeat split.
  - exists t. eexists. split; [exact E|]. vm_compute. reflexivity.
Defined.

(** ** What modelling showed *)

(** With the ring full, a character that comes between [semaphore_down] and the
    copy overwrites the oldest one, and is then read twice: 1 2 3 4 then 5 is
    read as 5 2 3 4 5. *)
Example overrun_corrupts :
  option_map (fun r => filter (fun o => o <> Nothing /\ o <> Kept true) (snd r))
    (match run 4 (tty_init [0; 0; 0; 0]) ([Push 1; Push 2; Push 3; Push 4; Lock 9; Down; Push 5] ++ concat (replicate 5 [Copy; Check_]))
     with Ret r => Some r | _ => None end) = Some [Read [5; 2; 3; 4; 5]].
Proof. vm_compute. reflexivity. Qed.

(** A read of no bytes stores one. *)
Example read_of_none :
  option_map (fun r => filter (fun o => o <> Nothing /\ o <> Kept true) (snd r))
    (match run 4 (tty_init [0; 0; 0; 0]) [Push 1; Lock 0; Down; Copy; Check_] with Ret r => Some r | _ => None end) = Some [Read [1]].
Proof. vm_compute. reflexivity. Qed.

End Tty.
