(* ===== verification/Kprintf.v ===== *)
(** The formatted output of the kernel, [src/lib/kprintf.c]: characters go to
    the console one by one; the model collects them in order.

    A string is the list of its characters up to the NUL; a pointer into it is
    what is left of the list, and reading past its last character gives 0. *)
From S2P Require Import Prelude.
#[local] Open Scope Z_scope.

Module Kprintf.

Abbreviation cstring := (list Z).

Definition BASE_PREFIX_FLAG : Z := 1.
Definition LEFT_PAD_0_FLAG : Z := 2.
Definition EOF : Z := -1.

Record format_specifier := mk_fs { flags : Z; width : Z; precision : Z; fs_length : Z }.
Definition with_flag (fs : format_specifier) (f : Z) : format_specifier := mk_fs (Z.lor (flags fs) f) (width fs) (precision fs) (fs_length fs).
Definition with_width (fs : format_specifier) (w : Z) : format_specifier := mk_fs (flags fs) w (precision fs) (fs_length fs).
Definition with_precision (fs : format_specifier) (p : Z) : format_specifier := mk_fs (flags fs) (width fs) p (fs_length fs).
Definition with_length (fs : format_specifier) (n : Z) : format_specifier := mk_fs (flags fs) (width fs) (precision fs) n.

(** The characters the code names. *)
Definition c_0 : Z := 48.
Definition c_9 : Z := 57.
Definition c_A : Z := 65.
Definition c_minus : Z := 45.
Definition c_space : Z := 32.
Definition c_percent : Z := 37.

(** What a function prints, and what it returns. *)
Definition printed : Type := cstring * Z.

Definition kputs (str : option cstring) : printed :=
  match str with None => ([], EOF) | Some s => (s, Z.of_nat (length s)) end.

(** [n] times the character [c]: the loops [for (i = from; i < to; i++)]. *)
Definition fill (from to c : Z) : cstring := replicate (Z.to_nat (to - from)) c.

(** ** Numbers *)

Definition digit_char (offset : Z) : Z := if bool_decide (10 <= offset) then c_A + offset - 10 else c_0 + offset.

(** [n] bounds the recursion: a number has at most 32 digits. *)
Fixpoint pr_unsigned (n : nat) (fs : format_specifier) (num base recursion : Z) : outcome printed :=
  if bool_decide (base = 0) then Ret ([], - EINVAL) else
  '(out, size) ← (if bool_decide (base <= num) then
      match n with O => Hang | S n => pr_unsigned n fs (num / base) base (recursion + 1) end
    else
      let precision := if bool_decide (precision fs < 0) then 1 else precision fs in
      Ret (fill (recursion + precision - 1) (width fs) (if Z.testbit (flags fs) 1 then c_0 else c_space) ++
           fill recursion precision c_0, 0));
  if bool_decide (size < 0) then Ret (out, size) else
  Ret (out ++ [digit_char (num mod base)], 1 + size).

Definition print_unsigned_number (fs : format_specifier) (num base : Z) : outcome printed := pr_unsigned 32 fs num base 1.

(** [num] is an [int]. *)
Definition print_signed_number (fs : format_specifier) (num : Z) : outcome printed :=
  let '(out, size, num) := if bool_decide (num < 0) then ([c_minus], 2, - num) else ([], 1, num) in
  '(digits, result) ← print_unsigned_number fs (wrap32 num) 10;
  if bool_decide (result < 0) then Ret (out ++ digits, result) else Ret (out ++ digits, size + result).

(** The common part of the three unsigned formats with a prefix. *)
Definition print_prefixed (prefix : cstring) (base : Z) (fs : format_specifier) (nbr : Z) : outcome printed :=
  if bool_decide (precision fs = 0) && bool_decide (nbr = 0) then Ret ([], 0) else
  let pre := if Z.testbit (flags fs) 0 then prefix else [] in
  '(out, r) ← print_unsigned_number fs nbr base;
  Ret (pre ++ out, r + Z.of_nat (length pre)).
Definition print_hexa : format_specifier -> Z -> outcome printed := print_prefixed [48; 120] 16.
Definition print_octal : format_specifier -> Z -> outcome printed := print_prefixed [111] 8.
Definition print_binary : format_specifier -> Z -> outcome printed := print_prefixed [98] 2.

(** ** Reading numbers in a format *)

Definition is_digit (c : Z) : bool := bool_decide (c_0 <= c) && bool_decide (c <= c_9).

(** The loop of [katoi] from a digit: the value, and the string from the last
    digit on. *)
Fixpoint katoi_from (x : Z) (s : cstring) : Z * cstring :=
  match s with
  | [] => (x, s)
  | c :: rest =>
      let x := sint32 (x * 10 + (c - c_0)) in
      match rest with
      | c' :: _ => if is_digit c' then katoi_from x rest else (x, s)
      | [] => (x, s)
      end
  end.

(** [None] stands for -EINVAL. *)
Definition katoi (s : cstring) : option (Z * cstring) :=
  match s with
  | c :: _ => if is_digit c then Some (katoi_from 0 s) else None
  | [] => None
  end.

(** ** Strings *)

Definition pr_string (fs : format_specifier) (str : option cstring) : printed :=
  let str := default [40; 110; 117; 108; 108; 41] str in
  let pad := fill (Z.of_nat (length str)) (width fs) c_space in
  if bool_decide (precision fs < 0) then (pad ++ str, Z.of_nat (length str))
  else let s := take (Z.to_nat (precision fs)) str in (pad ++ s, Z.of_nat (length s)).

(** ** Formats *)

(** The variable arguments: integers as 32-bit patterns, strings. *)
Inductive arg := AInt (v : Z) | AStr (s : option cstring).

(** [va_arg]: an argument that is missing or of another type is a fault. *)
Definition va_int (args : list arg) : outcome (Z * list arg) :=
  match args with AInt v :: args => Ret (wrap32 v, args) | _ => Fault end.
Definition va_str (args : list arg) : outcome (option cstring * list arg) :=
  match args with AStr s :: args => Ret (s, args) | _ => Fault end.

(** What [print_from_specifier] leaves: the characters, the result, the format
    from the conversion character on, the arguments left. *)
Definition specified : Type := cstring * Z * cstring * list arg.

Definition finish (r : outcome printed) (spec : cstring) (args : list arg) : outcome specified :=
  '(out, n) ← r; Ret (out, n, spec, args).

(** The loop, entered with the format behind the character last looked at; [n]
    bounds its rounds. *)
Fixpoint specifier_loop (n : nat) (fs : format_specifier) (long_count : Z) (spec : cstring) (args : list arg) : outcome specified :=
  let c := default 0 (head spec) in
  let invalid := Ret ([], - EINVAL, spec, args) in
  let next fs long_count spec := match n with O => Hang | S n => specifier_loop n fs long_count (tail spec) args end in
  if bool_decide (c = 48) then                                      (* '0', then as '1' to '9' *)
    let fs := with_flag fs LEFT_PAD_0_FLAG in
    match katoi spec with None => invalid | Some (w, spec) => next (with_width fs w) long_count spec end
  else if is_digit c then
    match katoi spec with None => invalid | Some (w, spec) => next (with_width fs w) long_count spec end
  else if bool_decide (c = 35) then next (with_flag fs BASE_PREFIX_FLAG) long_count spec      (* '#' *)
  else if bool_decide (c = 108) then                                (* 'l' *)
    next (if bool_decide (long_count = 1) then with_length fs (fs_length fs * 2) else fs) (long_count + 1) spec
  else if bool_decide (c = 122) then next fs long_count spec        (* 'z' *)
  else if bool_decide (c = 104) then                                (* 'h' *)
    let len := fs_length fs / 2 in
    if bool_decide (len = 0) then invalid else next (with_length fs len) long_count spec
  else if bool_decide (c = 46) then                                 (* '.' *)
    match katoi (tail spec) with
    | None => Ret ([], - EINVAL, tail spec, args)
    | Some (p, spec) => next (with_precision fs p) long_count spec
    end
  else if bool_decide (c = 37) then Ret ([c_percent], 1, spec, args) (* '%' *)
  else if bool_decide (c = 115) then '(s, args) ← va_str args; finish (Ret (pr_string fs s)) spec args        (* 's' *)
  else if bool_decide (c = 99) then '(v, args) ← va_int args; Ret ([wrap8 v], 1, spec, args)                  (* 'c' *)
  else if bool_decide (c = 100) then '(v, args) ← va_int args; finish (print_signed_number fs (sint32 v)) spec args  (* 'd' *)
  else if bool_decide (c = 117) then '(v, args) ← va_int args; finish (print_unsigned_number fs v 10) spec args      (* 'u' *)
  else if bool_decide (c = 111) then '(v, args) ← va_int args; finish (print_octal fs v) spec args            (* 'o' *)
  else if bool_decide (c = 120) || bool_decide (c = 88) then '(v, args) ← va_int args; finish (print_hexa fs v) spec args  (* 'x', 'X' *)
  else if bool_decide (c = 112) then                                (* 'p' *)
    '(v, args) ← va_int args; finish (print_hexa (mk_fs BASE_PREFIX_FLAG (width fs) 8 (fs_length fs)) v) spec args
  else if bool_decide (c = 98) then '(v, args) ← va_int args; finish (print_binary fs v) spec args            (* 'b' *)
  else invalid.

Definition print_from_specifier (spec : cstring) (args : list arg) : outcome specified :=
  match spec with
  | c :: rest => if bool_decide (c = c_percent) then specifier_loop (length rest) (mk_fs 0 (-1) (-1) 4) 0 rest args else Ret ([], - EINVAL, spec, args)
  | [] => Ret ([], - EINVAL, spec, args)
  end.

(** The loop of [kprintf] and [kvprintf]; [n] bounds its rounds. *)
Fixpoint kvprintf_from (n : nat) (format : cstring) (ap : list arg) (count : Z) : outcome printed :=
  match format with
  | [] => Ret ([], count)
  | c :: rest =>
      match n with
      | O => Hang
      | S n =>
          if bool_decide (c = c_percent) then
            '(out, result, spec, ap) ← print_from_specifier format ap;
            if bool_decide (result < 0) then Ret (out, result) else
            '(out', r) ← kvprintf_from n (tail spec) ap (count + result); Ret (out ++ out', r)
          else '(out, r) ← kvprintf_from n rest ap (count + 1); Ret (c :: out, r)
      end
  end.

Definition kvprintf (format : option cstring) (ap : list arg) : outcome printed :=
  match format with None => Ret ([], - EINVAL) | Some f => kvprintf_from (length f) f ap 0 end.
Definition kprintf (format : option cstring) (args : list arg) : outcome printed := kvprintf format args.

(** ** What a number prints *)

Definition value (base : Z) (ds : list Z) : Z := foldl (fun v d => v * base + d) 0 ds.

(** The digits of [num], without leading zeros. *)
Definition digits_of (base num : Z) (ds : list Z) : Prop :=
  Forall (fun d => 0 <= d < base) ds /\ value base ds = num /\ (num = 0 -> ds = [0]) /\ (0 < num -> exists d ds', ds = d :: ds' /\ d <> 0).

Lemma value_snoc base ds d : value base (ds ++ [d]) = value base ds * base + d.
Proof. unfold value. by rewrite foldl_app. Qed.

Lemma digits_small base num : 0 <= num < base -> digits_of base num [num].
Proof.
  intros Hn. split; [by apply Forall_singleton|]. split; [done|]. split; [by intros ->|]. intros Hp. exists num, []. split; [done|lia].
Qed.

Lemma digits_more base num ds : 2 <= base -> base <= num -> digits_of base (num / base) ds -> digits_of base num (ds ++ [num mod base]).
Proof.
  intros Hb Hn (Hf & Hv & _ & Hh). pose proof (Z.div_mod num base ltac:(lia)). pose proof (Z.mod_pos_bound num base ltac:(lia)).
  split; [apply Forall_app; split; [done|by apply Forall_singleton]|]. split; [rewrite value_snoc, Hv; lia|]. split; [lia|].
  intros _. destruct Hh as (d & ds' & -> & Hd); [apply Z.div_str_pos; lia|]. by exists d, (ds' ++ [num mod base]).
Qed.

Definition pad_char (fs : format_specifier) : Z := if Z.testbit (flags fs) 1 then c_0 else c_space.

(** Padding, zeros up to the precision, the digits; the result counts the
    digits only. *)
Lemma pr_unsigned_spec n fs num base recursion : 2 <= base -> 0 <= num < base ^ Z.of_nat (S n) ->
  exists ds, digits_of base num ds /\
    let k := recursion + Z.of_nat (length ds) - 1 in
    let p := if bool_decide (precision fs < 0) then 1 else precision fs in
    pr_unsigned n fs num base recursion =
      Ret (fill (k + p - 1) (width fs) (pad_char fs) ++ fill k p c_0 ++ (digit_char <$> ds), Z.of_nat (length ds)).
Proof.
  intros Hb. revert num recursion. induction n as [|n IH]; intros num recursion Hn; cbn [pr_unsigned];
    rewrite (bool_decide_eq_false_2 (base = 0)) by lia.
  - rewrite Z.pow_1_r in Hn. exists [num]. split; [by apply digits_small|]. rewrite (bool_decide_eq_false_2 (base <= num)) by lia.
    unfold mbind, outcome_bind. rewrite bool_decide_eq_false_2 by done. rewrite Z.mod_small by lia. cbn [length fmap list_fmap].
    replace (recursion + Z.of_nat 1 - 1) with recursion by lia. by rewrite app_assoc.
  - destruct (decide (base <= num)) as [Hge|Hlt].
    + rewrite (bool_decide_eq_true_2 (base <= num)) by done. destruct (IH (num / base) (recursion + 1)) as (ds & Hds & E).
      { rewrite Nat2Z.inj_succ, Z.pow_succ_r in Hn by lia. split; [apply Z.div_pos; lia|apply Z.div_lt_upper_bound; lia]. }
      exists (ds ++ [num mod base]). split; [by apply digits_more|]. unfold mbind, outcome_bind. rewrite E.
      rewrite bool_decide_eq_false_2 by lia. rewrite length_app, fmap_app. cbn [length fmap list_fmap].
      replace (recursion + Z.of_nat (length ds + 1) - 1) with (recursion + 1 + Z.of_nat (length ds) - 1) by lia.
      rewrite <- !app_assoc. do 2 f_equal. lia.
    + rewrite (bool_decide_eq_false_2 (base <= num)) by done. exists [num]. split; [apply digits_small; lia|].
      unfold mbind, outcome_bind. rewrite bool_decide_eq_false_2 by done. rewrite Z.mod_small by lia. cbn [length fmap list_fmap].
      replace (recursion + Z.of_nat 1 - 1) with recursion by lia. by rewrite app_assoc.
Qed.

Lemma print_unsigned_spec fs num base : 2 <= base -> 0 <= num < 2 ^ 32 ->
  exists ds, digits_of base num ds /\
    let k := Z.of_nat (length ds) in
    let p := if bool_decide (precision fs < 0) then 1 else precision fs in
    print_unsigned_number fs num base = Ret (fill (k + p - 1) (width fs) (pad_char fs) ++ fill k p c_0 ++ (digit_char <$> ds), k).
Proof.
  intros Hb Hn. destruct (pr_unsigned_spec 32 fs num base 1 Hb) as (ds & Hds & E).
  { split; [lia|]. apply Z.lt_le_trans with (2 ^ Z.of_nat 33); [lia|]. apply Z.pow_le_mono_l. lia. }
  exists ds. split; [done|]. cbn zeta. unfold print_unsigned_number. rewrite E. by replace (1 + Z.of_nat (length ds) - 1) with (Z.of_nat (length ds)) by lia.
Qed.

(** ** Reading it back *)

Lemma value_from base v ds : foldl (fun v d => v * base + d) v ds = v * base ^ Z.of_nat (length ds) + value base ds.
Proof.
  unfold value. revert v. induction ds as [|d ds IH]; intros v; [cbn; lia|]. cbn [foldl length]. rewrite IH, (IH (0 * base + d)).
  rewrite Nat2Z.inj_succ, Z.pow_succ_r by lia. lia.
Qed.

Lemma value_nonneg ds : Forall (fun d => 0 <= d < 10) ds -> 0 <= value 10 ds.
Proof.
  intros H. unfold value. assert (Hg : forall v, 0 <= v -> 0 <= foldl (fun v d => v * 10 + d) v ds); [|apply Hg; lia].
  induction H as [|d ds Hd _ IH]; intros v Hv; cbn; [done|]. apply IH. lia.
Qed.

Lemma digit_is_digit d : 0 <= d < 10 -> digit_char d = c_0 + d /\ is_digit (digit_char d) = true.
Proof.
  intros Hd. unfold digit_char, is_digit, c_0, c_9. rewrite (bool_decide_eq_false_2 (10 <= d)) by lia. split; [done|].
  by rewrite !bool_decide_eq_true_2 by lia.
Qed.

Definition no_digit (s : cstring) : Prop := match s with c :: _ => is_digit c = false | [] => True end.

Lemma katoi_from_digits v ds rest : ds <> [] -> Forall (fun d => 0 <= d < 10) ds -> no_digit rest -> 0 <= v ->
  foldl (fun v d => v * 10 + d) v ds < 2 ^ 31 ->
  exists c, katoi_from v ((digit_char <$> ds) ++ rest) = (foldl (fun v d => v * 10 + d) v ds, c :: rest) /\ is_digit c = true.
Proof.
  intros Hne Hf Hr. revert v. induction Hf as [|d ds Hd Hf IH]; [done|]. intros v Hv Hlt. cbn [fmap list_fmap app katoi_from foldl] in *.
  destruct (digit_is_digit d Hd) as [Ed Hdd]. rewrite Ed. replace (c_0 + d - c_0) with d by lia.
  assert (Hx : v * 10 + d < 2 ^ 31).
  { rewrite value_from in Hlt. pose proof (value_nonneg ds Hf). pose proof (Z.pow_pos_nonneg 10 (Z.of_nat (length ds)) ltac:(lia) ltac:(lia)). nia. }
  rewrite sint32_small by lia. destruct ds as [|d2 ds].
  - cbn [fmap list_fmap app foldl]. exists (c_0 + d). rewrite <- Ed. split; [|done]. destruct rest as [|c rest]; [done|]. cbn in Hr. by rewrite Hr.
  - cbn [fmap list_fmap app]. pose proof (Forall_inv Hf) as Hd2. destruct (digit_is_digit d2 Hd2) as [_ Hdd2]. rewrite Hdd2.
    apply IH; [done|lia|done].
Qed.

(** A format without conversions prints itself. *)
Lemma plain_text n s ap count : (length s <= n)%nat -> Forall (fun c => c <> c_percent) s ->
  kvprintf_from n s ap count = Ret (s, count + Z.of_nat (length s)).
Proof.
  intros Hn Hs. revert n count Hn. induction Hs as [|c s Hc Hs IH]; intros n count Hn; cbn [length] in *.
  - rewrite Z.add_0_r. by destruct n.
  - destruct n as [|n]; [lia|]. cbn [kvprintf_from]. rewrite bool_decide_eq_false_2 by done. unfold mbind, outcome_bind.
    rewrite IH by lia. do 2 f_equal. lia.
Qed.

Lemma kvprintf_percent n format ap count : head format = Some c_percent ->
  kvprintf_from (S n) format ap count =
    '(out, result, spec, ap) ← print_from_specifier format ap;
    if bool_decide (result < 0) then Ret (out, result) else
    '(out', r) ← kvprintf_from n (tail spec) ap (count + result); Ret (out ++ out', r).
Proof. destruct format as [|c rest]; [done|]. intros [= ->]. done. Qed.

Lemma fill_none from to c : to <= from -> fill from to c = [].
Proof. intros H. unfold fill. by replace (Z.to_nat (to - from)) with 0%nat by lia. Qed.

Lemma plain_prefix pre n rest ap count : Forall (fun c => c <> c_percent) pre ->
  kvprintf_from (length pre + n) (pre ++ rest) ap count =
    '(out, r) ← kvprintf_from n rest ap (count + Z.of_nat (length pre)); Ret (pre ++ out, r).
Proof.
  intros Hs. revert count. induction Hs as [|c s Hc Hs IH]; intros count; cbn [length app Nat.add].
  - rewrite Z.add_0_r. unfold mbind, outcome_bind. by destruct (kvprintf_from n rest ap count) as [[out r]| |].
  - cbn [kvprintf_from]. rewrite bool_decide_eq_false_2 by done. rewrite IH. unfold mbind, outcome_bind.
    replace (count + 1 + Z.of_nat (length s)) with (count + Z.of_nat (S (length s))) by lia.
    by destruct (kvprintf_from n rest ap _) as [[out r]| |].
Qed.

(** One conversion between two texts. *)
Lemma one_conversion pre c text args args' out result :
  Forall (fun c => c <> c_percent) pre -> Forall (fun c => c <> c_percent) text -> 0 <= result ->
  print_from_specifier ([c_percent; c] ++ text) args = Ret (out, result, c :: text, args') ->
  kprintf (Some (pre ++ [c_percent; c] ++ text)) args = Ret (pre ++ out ++ text, Z.of_nat (length pre) + result + Z.of_nat (length text)).
Proof.
  intros Hpre Ht Hr E. unfold kprintf, kvprintf. rewrite length_app, plain_prefix by done.
  cbn [length app]. rewrite kvprintf_percent by done. cbn [app] in E. rewrite E. unfold mbind, outcome_bind.
  rewrite bool_decide_eq_false_2 by lia. cbn [tail]. rewrite plain_text by (done || lia). by rewrite Z.add_0_l.
Qed.

(** No width and no precision: the digits alone. *)
Lemma plain_digits num : 0 <= num < 2 ^ 32 -> exists ds, digits_of 10 num ds /\ ds <> [] /\
  print_unsigned_number (mk_fs 0 (-1) (-1) 4) num 10 = Ret (digit_char <$> ds, Z.of_nat (length ds)).
Proof.
  intros Hn. destruct (print_unsigned_spec (mk_fs 0 (-1) (-1) 4) num 10) as (ds & Hds & E); [lia|lia|].
  cbn zeta in E. cbn [precision width] in E. rewrite bool_decide_eq_true_2 in E by done.
  assert (Hne : ds <> []).
  { destruct Hds as (_ & _ & H0 & Hp). destruct (decide (num = 0)) as [Hz|Hz]; [by rewrite (H0 Hz)|]. destruct Hp as (? & ? & -> & _); [lia|done]. }
  exists ds. split; [done|]. split; [done|]. rewrite E, !fill_none; [done| |lia]. destruct ds; [done|cbn [length]; lia].
Qed.

Lemma unsigned_conversion text v args ds n : wrap32 v = v ->
  print_unsigned_number (mk_fs 0 (-1) (-1) 4) v 10 = Ret (ds, n) ->
  print_from_specifier ([c_percent; 117] ++ text) (AInt v :: args) = Ret (ds, n, 117 :: text, args).
Proof.
  intros Hv E. unfold print_from_specifier, finish, mbind, outcome_bind.
  cbn -[wrap32 sint32 print_unsigned_number print_signed_number print_hexa print_octal print_binary pr_string]. by rewrite Hv, E.
Qed.

Lemma signed_conversion text v args ds n : sint32 (wrap32 v) = v ->
  print_signed_number (mk_fs 0 (-1) (-1) 4) v = Ret (ds, n) ->
  print_from_specifier ([c_percent; 100] ++ text) (AInt v :: args) = Ret (ds, n, 100 :: text, args).
Proof.
  intros Hv E. unfold print_from_specifier, finish, mbind, outcome_bind.
  cbn -[wrap32 sint32 print_unsigned_number print_signed_number print_hexa print_octal print_binary pr_string]. by rewrite Hv, E.
Qed.

Lemma sint32_wrap32 v : sint32 (wrap32 v) = sint32 v.
Proof. unfold sint32. by rewrite (wrap32_small (wrap32 v)) by apply wrap32_range. Qed.

Definition sign (v : Z) : cstring := if decide (v < 0) then [c_minus] else [].

Lemma signed_digits v ds : - 2 ^ 31 < v < 2 ^ 31 -> print_unsigned_number (mk_fs 0 (-1) (-1) 4) (Z.abs v) 10 = Ret (ds, Z.of_nat (length ds)) ->
  print_signed_number (mk_fs 0 (-1) (-1) 4) v = Ret (sign v ++ ds, Z.of_nat (length (sign v ++ ds)) + 1).
Proof.
  intros Hv E. unfold print_signed_number, sign. rewrite length_app. case_decide as Hs;
    [rewrite (bool_decide_eq_true_2 (v < 0)) by done; replace (- v) with (Z.abs v) by lia
    |rewrite (bool_decide_eq_false_2 (v < 0)) by done; replace v with (Z.abs v) at 1 by lia];
    rewrite wrap32_small by lia; unfold mbind, outcome_bind; rewrite E, bool_decide_eq_false_2 by lia;
    do 2 f_equal; cbn [length]; lia.
Qed.

Lemma digits_read_back v ds text : digits_of 10 v ds -> ds <> [] -> v < 2 ^ 31 -> no_digit text ->
  exists c, katoi ((digit_char <$> ds) ++ text) = Some (v, c :: text) /\ is_digit c = true.
Proof.
  intros (Hf & Hval & _) Hne Hv Hnd.
  destruct (katoi_from_digits 0 ds text Hne Hf Hnd ltac:(lia)) as (c & Ek & Hc); [fold (value 10 ds); lia|].
  exists c. split; [|done]. unfold katoi. destruct ds as [|d ds]; [done|]. cbn [fmap list_fmap app].
  destruct (digit_is_digit d (Forall_inv Hf)) as [_ ->]. f_equal. rewrite <- Hval. exact Ek.
Qed.

(** C39.  A number printed with a bare [%u] or [%d], between any two texts of
    which the second does not go on with a digit, is printed in full: the first
    text, the sign, the digits without leading zeros, the second text.  The
    result of [kprintf] is the number of characters for [%u], and one more for
    [%d].  Reading the digits back with [katoi] gives the magnitude of the number
    and stops at its last digit, when the number fits an [int] (-2^31 has no
    negation there). *)
Theorem kprintf_reads_back pre text v : - 2 ^ 31 < v < 2 ^ 32 ->
  Forall (fun c => c <> c_percent) pre -> Forall (fun c => c <> c_percent) text -> no_digit text ->
  exists ds, digits_of 10 (Z.abs v) ds /\
    (0 <= v -> let out := pre ++ (digit_char <$> ds) ++ text in
      kprintf (Some (pre ++ [c_percent; 117] ++ text)) [AInt v] = Ret (out, Z.of_nat (length out))) /\
    (v < 2 ^ 31 -> let out := pre ++ (sign v ++ (digit_char <$> ds)) ++ text in
      kprintf (Some (pre ++ [c_percent; 100] ++ text)) [AInt v] = Ret (out, Z.of_nat (length out) + 1)) /\
    (v < 2 ^ 31 -> exists c, katoi ((digit_char <$> ds) ++ text) = Some (Z.abs v, c :: text) /\ is_digit c = true).
Proof.
  intros Hv Hpre Ht Hnd. destruct (plain_digits (Z.abs v)) as (ds & Hds & Hne & E); [lia|]. exists ds. split; [done|]. split; [|split].
  - intros Hp. rewrite Z.abs_eq in E by done. cbn zeta. erewrite one_conversion; [|done|done|..|eapply unsigned_conversion, E]; [|lia|by rewrite wrap32_small by lia].
    do 2 f_equal. rewrite !length_app, length_fmap. lia.
  - intros Hp. cbn zeta. rewrite <- (length_fmap digit_char ds) in E. apply signed_digits in E; [|lia].
    erewrite one_conversion; [|done|done|..|eapply signed_conversion, E]; [|lia|by rewrite sint32_wrap32, sint32_small by lia].
    do 2 f_equal. rewrite !length_app. lia.
  - intros Hp. apply digits_read_back; [done|done|lia|done].
Qed.

Lemma kprintf_reads_back_witness : exists ds, digits_of 10 1024 ds /\
  kprintf (Some [61; 37; 117; 32; 75]) [AInt 1024] = Ret ([61; 49; 48; 50; 52; 32; 75], 7) /\
  kprintf (Some [61; 37; 100; 32; 75]) [AInt 1024] = Ret ([61; 49; 48; 50; 52; 32; 75], 8) /\
  exists c, katoi ((digit_char <$> ds) ++ [32; 75]) = Some (1024, c :: [32; 75]).
Proof.
  destruct (kprintf_reads_back [61] [32; 75] 1024) as (ds & Hds & Eu & Ed & Ek).
  - lia.
  - repeat constructor; discriminate.
  - repeat constructor; discriminate.
  - reflexivity.
  - exists ds. split; [exact Hds|]. split; [vm_compute; reflexivity|]. split; [vm_compute; reflexivity|].
    destruct Ek as (c & Ek & _); [lia|]. exists c. exact Ek.
Defined.

(** ** What modelling showed *)

(** The result of [%d] is one more than the number of characters. *)
Example signed_counts_one_more : kprintf (Some [37; 100]) [AInt 5] = Ret ([53], 2).
Proof. vm_compute. reflexivity. Qed.

(** With a width and a precision the padding is computed from the number of
    digits plus the precision: [%4.3d] prints 5 as three characters. *)
Example width_and_precision : kprintf (Some [37; 52; 46; 51; 100]) [AInt 5] = Ret ([32; 48; 48; 53], 2) /\
  kprintf (Some [37; 52; 46; 51; 100]) [AInt 55] = Ret ([48; 53; 53], 3).
Proof. vm_compute. split; reflexivity. Qed.

(** The prefix comes before the padding: [%#6x] of 31 is [0x    1F]. *)
Example prefix_before_padding : kprintf (Some [37; 35; 54; 120]) [AInt 31] = Ret ([48; 120; 32; 32; 32; 32; 49; 70], 4).
Proof. vm_compute. reflexivity. Qed.

(** The sign does not count in the width, and comes before the spaces. *)
Example sign_before_padding : kprintf (Some [37; 52; 100]) [AInt (-5)] = Ret ([45; 32; 32; 32; 53], 3).
Proof. vm_compute. reflexivity. Qed.

End Kprintf.
