(* ===== verification/Manifest.v ===== *)
(** The manifest parser of [src/drivers/greybus/ap/manifest.c]: what a module
    says of itself when it is plugged in, a header and a sequence of
    descriptors, becomes the bundles of its interface and their CPorts.

    The tables of bundles and CPorts are finite maps. *)
From S2P Require Import Prelude.
#[local] Open Scope Z_scope.

Module Manifest.

(** ** Data *)

Definition GB_DESCRIPTOR_INTERFACE : Z := 1.
Definition GB_DESCRIPTOR_STRING : Z := 2.
Definition GB_DESCRIPTOR_BUNDLE : Z := 3.
Definition GB_DESCRIPTOR_CPORT : Z := 4.
Definition GB_CLASS_CONTROL : Z := 0.
Definition GB_CONTROL_CPORT : Z := 0.

(** The sizes of the packed structures. *)
Definition manifest_hdr_sizeof : Z := 4.
Definition descriptor_hdr_sizeof : Z := 4.
Definition interface_descriptor_sizeof : Z := 8.
Definition string_descriptor_sizeof : Z := 6.
Definition bundle_descriptor_sizeof : Z := 8.
Definition cport_descriptor_sizeof : Z := 8.

Record gb_cport := mk_cport { cport_id : Z; protocol : Z; bundle_id : Z }.
Record gb_bundle := mk_bundle { id : Z; class : Z; cports : gmap Z gb_cport }.

(** [budget]: how many more structures memory has room for. *)
Record gb_interface := mk_interface { bundles : gmap Z gb_bundle; budget : nat }.

(** [struct gb_manifest]. *)
Record gb_manifest := mk_manifest { data : list Z; size : Z }.

Definition rd8 (d : list Z) (off : Z) : outcome Z := deref (d !! Z.to_nat off).
Definition rd16 (d : list Z) (off : Z) : outcome Z :=
  lo ← rd8 d off; hi ← rd8 d (off + 1); Ret (lo + 2 ^ 8 * hi).

(** ** Descriptors *)

(** What the four parsers begin with: the descriptor at [off] lies within the
    [max_size] bytes left.  [None] stands for -EINVAL. *)
Definition descriptor_size (sizeof : Z) (d : list Z) (off max_size : Z) : outcome (option Z) :=
  if bool_decide (max_size < sizeof) then Ret None else
  sz ← rd16 d off;
  Ret (if bool_decide (max_size < sz) then None else Some sz).

Definition manifest_parse_interface (i : gb_interface) (d : list Z) (off max_size : Z) : outcome (Z * gb_interface) :=
  sz ← descriptor_size interface_descriptor_sizeof d off max_size; Ret (default (- EINVAL) sz, i).

Definition manifest_parse_string (i : gb_interface) (d : list Z) (off max_size : Z) : outcome (Z * gb_interface) :=
  sz ← descriptor_size string_descriptor_sizeof d off max_size; Ret (default (- EINVAL) sz, i).

Definition manifest_parse_bundle (i : gb_interface) (d : list Z) (off max_size : Z) : outcome (Z * gb_interface) :=
  sz ← descriptor_size bundle_descriptor_sizeof d off max_size;
  match sz with
  | None => Ret (- EINVAL, i)
  | Some sz =>
      b ← rd8 d (off + 4);
      cl ← rd8 d (off + 5);
      if bool_decide (cl = GB_CLASS_CONTROL) then Ret (sz, i) else
      match budget i with
      | O => Ret (sz, i)
      | S n => Ret (sz, mk_interface (<[b := mk_bundle b cl ∅]> (bundles i)) n)
      end
  end.

(** After [gb_cport_create] it is the bundle that is tested: a NULL CPort is
    written to. *)
Definition manifest_parse_cport (i : gb_interface) (d : list Z) (off max_size : Z) : outcome (Z * gb_interface) :=
  sz ← descriptor_size cport_descriptor_sizeof d off max_size;
  match sz with
  | None => Ret (- EINVAL, i)
  | Some sz =>
      c ← rd16 d (off + 4);
      if bool_decide (c = GB_CONTROL_CPORT) then Ret (sz, i) else
      b ← rd8 d (off + 6);
      match bundles i !! b with
      | None => Ret (sz, i)
      | Some bundle =>
          match budget i with
          | O => Fault
          | S n =>
              p ← rd8 d (off + 7);
              Ret (sz, mk_interface (<[b := mk_bundle (id bundle) (class bundle) (<[c := mk_cport c p b]> (cports bundle))]> (bundles i)) n)
          end
      end
  end.

(** ** The parser *)

(** The [switch] of the first loop. *)
Definition parse_one (i : gb_interface) (d : list Z) (off max_size : Z) : outcome (Z * gb_interface) :=
  ty ← rd8 d (off + 2);
  if bool_decide (ty = GB_DESCRIPTOR_INTERFACE) then manifest_parse_interface i d off max_size
  else if bool_decide (ty = GB_DESCRIPTOR_STRING) then manifest_parse_string i d off max_size
  else if bool_decide (ty = GB_DESCRIPTOR_BUNDLE) then manifest_parse_bundle i d off max_size
  else if bool_decide (ty = GB_DESCRIPTOR_CPORT) then manifest_parse_cport i d off max_size
  else Ret (- EINVAL, i).

(** The first loop, over all descriptors. *)
Fixpoint parse_all (n : nat) (i : gb_interface) (d : list Z) (off manifest_size : Z) : outcome (Z * gb_interface) :=
  if bool_decide (manifest_size < off + descriptor_hdr_sizeof) then Ret (0, i) else
  match n with
  | O => Hang
  | S n =>
      '(nread, i) ← parse_one i d off (manifest_size - off);
      if bool_decide (nread <= 0) then Ret (- EINVAL, i) else parse_all n i d (off + nread) manifest_size
  end.

(** The [switch] of the second loop; [nread] is what it was in the round before
    when the type is none of the four. *)
Definition parse_cport (i : gb_interface) (d : list Z) (off max_size : Z) (nread : option Z) : outcome (Z * gb_interface) :=
  ty ← rd8 d (off + 2);
  if bool_decide (ty = GB_DESCRIPTOR_INTERFACE) || bool_decide (ty = GB_DESCRIPTOR_STRING) || bool_decide (ty = GB_DESCRIPTOR_BUNDLE)
  then sz ← rd16 d off; Ret (sz, i)
  else if bool_decide (ty = GB_DESCRIPTOR_CPORT) then manifest_parse_cport i d off max_size
  else nread ← deref nread; Ret (nread, i).

(** The second loop, over the CPorts. *)
Fixpoint parse_cports (n : nat) (i : gb_interface) (d : list Z) (off manifest_size : Z) (nread : option Z) : outcome (Z * gb_interface) :=
  if bool_decide (manifest_size < off + descriptor_hdr_sizeof) then Ret (0, i) else
  match n with
  | O => Hang
  | S n =>
      '(nread, i) ← parse_cport i d off (manifest_size - off) nread;
      if bool_decide (nread <= 0) then Ret (- EINVAL, i) else parse_cports n i d (off + nread) manifest_size (Some nread)
  end.

Definition manifest_parse (n : nat) (i : gb_interface) (m : gb_manifest) : outcome (Z * gb_interface) :=
  if bool_decide (size m < manifest_hdr_sizeof + descriptor_hdr_sizeof) then Ret (- EINVAL, i) else
  manifest_size ← rd16 (data m) 0;
  if bool_decide (size m < manifest_size) then Ret (- EINVAL, i) else
  '(r, i) ← parse_all n i (data m) manifest_hdr_sizeof manifest_size;
  if bool_decide (r <> 0) then Ret (r, i) else parse_cports n i (data m) manifest_hdr_sizeof manifest_size None.

(** ** Reference: a manifest as a sequence of descriptors *)

Inductive descriptor :=
  | Ignored
  | Bundle (b cl : Z)
  | Cport (c b p : Z).

(** The descriptor of size [sz] that fills the first bytes of [l]. *)
Definition decode (l : list Z) : option (descriptor * nat) :=
  match l with
  | s0 :: s1 :: ty :: _ :: rest =>
      let sz := s0 + 2 ^ 8 * s1 in
      if bool_decide (sz <= 0) || bool_decide (Z.of_nat (length l) < sz) then None else
      if bool_decide (ty = GB_DESCRIPTOR_INTERFACE) then if bool_decide (8 <= length l)%nat then Some (Ignored, Z.to_nat sz) else None
      else if bool_decide (ty = GB_DESCRIPTOR_STRING) then if bool_decide (6 <= length l)%nat then Some (Ignored, Z.to_nat sz) else None
      else match rest with
      | x0 :: x1 :: x2 :: x3 :: _ =>
          if bool_decide (ty = GB_DESCRIPTOR_BUNDLE) then Some (Bundle x0 x1, Z.to_nat sz)
          else if bool_decide (ty = GB_DESCRIPTOR_CPORT) then Some (Cport (x0 + 2 ^ 8 * x1) x2 x3, Z.to_nat sz)
          else None
      | _ => None
      end
  | _ => None
  end.

Fixpoint descriptors (n : nat) (l : list Z) : option (list descriptor) :=
  if bool_decide (length l < 4)%nat then Some [] else
  match n with
  | O => None
  | S n => x ← decode l; ds ← descriptors n (drop (snd x) l); Some (fst x :: ds)
  end.

(** The bundles of a sequence of descriptors: each has the class its last
    descriptor gives it and the CPorts that name it, wherever they stand. *)
Definition set_class (b : Z) (cl : option Z) (x : descriptor) : option Z :=
  match x with Bundle b' cl' => if bool_decide (b' = b /\ cl' <> GB_CLASS_CONTROL) then Some cl' else cl | _ => cl end.
Definition insert_cport (b : Z) (m : gmap Z gb_cport) (x : descriptor) : gmap Z gb_cport :=
  match x with Cport c b' p => if bool_decide (b' = b /\ c <> GB_CONTROL_CPORT) then <[c := mk_cport c p b]> m else m | _ => m end.
Definition bundle_class (b : Z) (ds : list descriptor) : option Z := foldl (set_class b) None ds.
Definition bundle_cports (b : Z) (ds : list descriptor) : gmap Z gb_cport := foldl (insert_cport b) ∅ ds.
Definition bundle_of (b : Z) (ds : list descriptor) : option gb_bundle :=
  cl ← bundle_class b ds; Some (mk_bundle b cl (bundle_cports b ds)).

(** The descriptors of a manifest; [None] if it is invalid. *)
Definition reference (m : gb_manifest) : option (list descriptor) :=
  match data m with
  | s0 :: s1 :: _ =>
      let manifest_size := s0 + 2 ^ 8 * s1 in
      if bool_decide (size m < 8) || bool_decide (size m < manifest_size) then None
      else descriptors (length (data m)) (drop 4 (take (Z.to_nat manifest_size) (data m)))
  | _ => None
  end.

(** ** What a descriptor does to an interface *)

Definition add_cport (c p b : Z) (bd : gb_bundle) : gb_bundle := mk_bundle (id bd) (class bd) (<[c := mk_cport c p b]> (cports bd)).

Definition enter (m : gmap Z gb_bundle) (x : descriptor) : gmap Z gb_bundle :=
  match x with
  | Ignored => m
  | Bundle b cl => if bool_decide (cl = GB_CLASS_CONTROL) then m else <[b := mk_bundle b cl ∅]> m
  | Cport c b p => if bool_decide (c = GB_CONTROL_CPORT) then m else alter (add_cport c p b) b m
  end.
Definition enter_cport (m : gmap Z gb_bundle) (x : descriptor) : gmap Z gb_bundle :=
  match x with Cport _ _ _ => enter m x | _ => m end.

(** One more structure at most is allocated. *)
Definition entered (i i' : gb_interface) (m : gmap Z gb_bundle) : Prop :=
  bundles i' = m /\ (budget i <= S (budget i'))%nat.

(** ** Reading *)

(** [l] is what is left of the first [sz] bytes of [d] from [off] on. *)
Definition view (d : list Z) (sz off : Z) (l : list Z) : Prop :=
  0 <= off /\ 0 <= sz <= Z.of_nat (length d) /\ l = drop (Z.to_nat off) (take (Z.to_nat sz) d).

Lemma view_length d sz off l : view d sz off l -> off <= sz -> Z.of_nat (length l) = sz - off.
Proof. intros (? & ? & ->) ?. rewrite length_drop, length_take. lia. Qed.

Lemma view_rd8 d sz off l k j x : view d sz off l -> l !! k = Some x -> j = off + Z.of_nat k -> rd8 d j = Ret x.
Proof.
  intros (? & ? & ->) Hk ->. unfold rd8. rewrite lookup_drop in Hk. apply lookup_take_Some in Hk as [Hk _].
  replace (Z.to_nat (off + Z.of_nat k)) with (Z.to_nat off + k)%nat by lia. by rewrite Hk.
Qed.

Lemma view_skip d sz off l k : view d sz off l -> (k <= length l)%nat -> view d sz (off + Z.of_nat k) (drop k l).
Proof.
  intros (? & ? & ->) Hk. split; [lia|]. split; [done|]. rewrite drop_drop. f_equal. lia.
Qed.

Section Step.
Context (d : list Z) (sz off : Z) (s0 s1 ty pad : Z) (rest : list Z).
Let l := s0 :: s1 :: ty :: pad :: rest.
Context (Hv : view d sz off l) (Hoff : off <= sz) (Hs0 : 0 <= s0 < 256) (Hs1 : 0 <= s1 < 256).

Lemma step_size : rd16 d off = Ret (s0 + 2 ^ 8 * s1).
Proof.
  unfold rd16, mbind, outcome_bind. rewrite (view_rd8 _ _ _ _ 0 off s0 Hv eq_refl) by lia.
  by rewrite (view_rd8 _ _ _ _ 1 (off + 1) s1 Hv eq_refl) by lia.
Qed.

Lemma step_type : rd8 d (off + 2) = Ret ty.
Proof. apply (view_rd8 _ _ _ _ 2 _ ty Hv eq_refl). lia. Qed.

Lemma step_descriptor_size sizeof : descriptor_size sizeof d off (sz - off) =
  Ret (if bool_decide (Z.of_nat (length l) < sizeof) then None
       else if bool_decide (Z.of_nat (length l) < s0 + 2 ^ 8 * s1) then None else Some (s0 + 2 ^ 8 * s1)).
Proof.
  unfold descriptor_size, mbind, outcome_bind. rewrite <- (view_length d sz off l Hv Hoff), step_size. by case_bool_decide.
Qed.

(** A bundle and a CPort descriptor. *)
Lemma step_bundle i x0 x1 x2 x3 rest' : (0 < budget i)%nat -> rest = x0 :: x1 :: x2 :: x3 :: rest' -> s0 + 2 ^ 8 * s1 <= Z.of_nat (length l) ->
  exists i', manifest_parse_bundle i d off (sz - off) = Ret (s0 + 2 ^ 8 * s1, i') /\ entered i i' (enter (bundles i) (Bundle x0 x1)).
Proof.
  intros Hb Hr Hs. unfold manifest_parse_bundle, mbind, outcome_bind. rewrite step_descriptor_size.
  rewrite bool_decide_eq_false_2 by (unfold l; rewrite Hr; cbn [length]; unfold bundle_descriptor_sizeof; lia). rewrite bool_decide_eq_false_2 by lia.
  rewrite (view_rd8 _ _ _ _ 4 (off + 4) x0 Hv) by (unfold l; rewrite ?Hr; done || lia).
  rewrite (view_rd8 _ _ _ _ 5 (off + 5) x1 Hv) by (unfold l; rewrite ?Hr; done || lia). cbn [enter].
  case_bool_decide; [eexists; split; [done|split; [done|lia]]|].
  destruct (budget i) as [|n] eqn:En; [lia|]. eexists. split; [done|]. split; [done|]. cbn [budget]. lia.
Qed.

Lemma step_cport i x0 x1 x2 x3 rest' : (0 < budget i)%nat -> rest = x0 :: x1 :: x2 :: x3 :: rest' -> s0 + 2 ^ 8 * s1 <= Z.of_nat (length l) ->
  exists i', manifest_parse_cport i d off (sz - off) = Ret (s0 + 2 ^ 8 * s1, i') /\ entered i i' (enter (bundles i) (Cport (x0 + 2 ^ 8 * x1) x2 x3)).
Proof.
  intros Hb Hr Hs. unfold manifest_parse_cport, mbind, outcome_bind. rewrite step_descriptor_size.
  rewrite bool_decide_eq_false_2 by (unfold l; rewrite Hr; cbn [length]; unfold cport_descriptor_sizeof; lia). rewrite bool_decide_eq_false_2 by lia.
  assert (Hc : rd16 d (off + 4) = Ret (x0 + 2 ^ 8 * x1)).
  { unfold rd16, mbind, outcome_bind. rewrite (view_rd8 _ _ _ _ 4 (off + 4) x0 Hv) by (unfold l; rewrite ?Hr; done || lia).
    by rewrite (view_rd8 _ _ _ _ 5 (off + 4 + 1) x1 Hv) by (unfold l; rewrite ?Hr; done || lia). }
  rewrite Hc. cbn [enter]. case_bool_decide; [eexists; split; [done|split; [done|lia]]|].
  rewrite (view_rd8 _ _ _ _ 6 (off + 6) x2 Hv) by (unfold l; rewrite ?Hr; done || lia).
  destruct (bundles i !! x2) as [bd|] eqn:Eb.
  - destruct (budget i) as [|n] eqn:En; [lia|].
    rewrite (view_rd8 _ _ _ _ 7 (off + 7) x3 Hv) by (unfold l; rewrite ?Hr; done || lia).
    eexists. split; [done|]. split; [|cbn [budget]; lia]. cbn [bundles]. apply map_eq. intros k.
    destruct (decide (k = x2)) as [->|]; [by rewrite lookup_insert_eq, lookup_alter_eq, Eb|by rewrite lookup_insert_ne, lookup_alter_ne].
  - eexists. split; [done|]. split; [|lia]. apply map_eq. intros k.
    destruct (decide (k = x2)) as [->|]; [by rewrite lookup_alter_eq, Eb|by rewrite lookup_alter_ne].
Qed.

(** A descriptor that claims more bytes than there are. *)
Lemma step_too_long i : Z.of_nat (length l) < s0 + 2 ^ 8 * s1 ->
  manifest_parse_interface i d off (sz - off) = Ret (- EINVAL, i) /\ manifest_parse_string i d off (sz - off) = Ret (- EINVAL, i) /\
  manifest_parse_bundle i d off (sz - off) = Ret (- EINVAL, i) /\ manifest_parse_cport i d off (sz - off) = Ret (- EINVAL, i).
Proof.
  intros Hs. unfold manifest_parse_interface, manifest_parse_string, manifest_parse_bundle, manifest_parse_cport, mbind, outcome_bind.
  rewrite !step_descriptor_size. rewrite (bool_decide_eq_true_2 (_ < s0 + _)) by done. repeat case_bool_decide; done.
Qed.

Lemma step_short i : Z.of_nat (length l) < 8 ->
  manifest_parse_interface i d off (sz - off) = Ret (- EINVAL, i) /\
  manifest_parse_bundle i d off (sz - off) = Ret (- EINVAL, i) /\ manifest_parse_cport i d off (sz - off) = Ret (- EINVAL, i).
Proof.
  intros Hs. unfold manifest_parse_interface, manifest_parse_bundle, manifest_parse_cport, mbind, outcome_bind.
  rewrite !step_descriptor_size. unfold interface_descriptor_sizeof, bundle_descriptor_sizeof, cport_descriptor_sizeof.
  by rewrite (bool_decide_eq_true_2 (_ < 8)).
Qed.

Lemma step_ignored i : s0 + 2 ^ 8 * s1 <= Z.of_nat (length l) ->
  (8 <= Z.of_nat (length l) -> manifest_parse_interface i d off (sz - off) = Ret (s0 + 2 ^ 8 * s1, i)) /\
  manifest_parse_string i d off (sz - off) = Ret (if bool_decide (6 <= length l)%nat then s0 + 2 ^ 8 * s1 else - EINVAL, i).
Proof.
  intros Hs. unfold manifest_parse_interface, manifest_parse_string, mbind, outcome_bind. rewrite !step_descriptor_size.
  unfold interface_descriptor_sizeof, string_descriptor_sizeof. rewrite (bool_decide_eq_false_2 (_ < s0 + _)) by lia. split.
  - intros H8. by rewrite bool_decide_eq_false_2 by lia.
  - destruct (decide (6 <= length l)%nat); [rewrite bool_decide_eq_false_2, bool_decide_eq_true_2 by lia|
      rewrite bool_decide_eq_true_2, bool_decide_eq_false_2 by lia]; done.
Qed.

(** The [switch] of the first loop agrees with [decode]. *)
Lemma parse_one_spec i : (0 < budget i)%nat ->
  exists nread i', parse_one i d off (sz - off) = Ret (nread, i') /\
    match decode l with
    | None => nread <= 0
    | Some (x, k) => (0 < k <= length l)%nat /\ nread = Z.of_nat k /\ entered i i' (enter (bundles i) x)
    end.
Proof using Hv Hoff Hs0 Hs1.
  intros Hb. unfold parse_one, mbind, outcome_bind. rewrite step_type. unfold decode, l at 1. fold l.
  set (s := s0 + 2 ^ 8 * s1). assert (Hs : 0 <= s) by (unfold s; lia).
  destruct (decide (Z.of_nat (length l) < s)) as [Hlong|Hlong].
  { destruct (step_too_long i Hlong) as (-> & -> & -> & ->). rewrite (bool_decide_eq_true_2 (_ < s)), orb_true_r by done.
    exists (- EINVAL), i. split; [by repeat case_bool_decide|by unfold EINVAL]. }
  destruct (step_ignored i) as [Hi Hst]; [unfold s in *; lia|]. fold s in Hi, Hst.
  assert (Hrest : Z.of_nat (length l) < 8 \/ exists x0 x1 x2 x3 rest', rest = x0 :: x1 :: x2 :: x3 :: rest').
  { unfold l. destruct rest as [|x0 [|x1 [|x2 [|x3 rest']]]]; [cbn; lia..|right; by repeat eexists]. }
  assert (Hid : entered i i (bundles i)) by (split; [done|lia]).
  rewrite (bool_decide_eq_false_2 (_ < s)), orb_false_r by done.
  destruct Hrest as [Hshort|(x0 & x1 & x2 & x3 & rest' & Hr)].
  - destruct (step_short i Hshort) as (-> & -> & ->).
    assert (Hdec : match rest with _ :: _ :: _ :: _ :: _ => False | _ => True end).
    { unfold l in Hshort. destruct rest as [|? [|? [|? [|? ?]]]]; cbn in Hshort; lia || done. }
    destruct (bool_decide (ty = GB_DESCRIPTOR_INTERFACE)); [eexists _, _; split; [done|]|].
    { rewrite (bool_decide_eq_false_2 (8 <= _)%nat) by lia. by destruct (bool_decide (s <= 0)). }
    destruct (bool_decide (ty = GB_DESCRIPTOR_STRING)).
    { rewrite Hst. destruct (bool_decide (6 <= length l)%nat); (eexists _, _; split; [done|]);
        case_bool_decide as Hz; try (unfold EINVAL; lia). split; [lia|]. split; [lia|done]. }
    exists (- EINVAL), i. split; [by repeat case_bool_decide|].
    destruct rest as [|? [|? [|? [|? ?]]]]; try done; by destruct (bool_decide (s <= 0)).
  - assert (H8 : (8 <= length l)%nat) by (unfold l; rewrite Hr; cbn; lia). rewrite Hi by lia. rewrite Hst.
    rewrite !(bool_decide_eq_true_2 (_ <= length l)%nat) by lia.
    destruct (step_bundle i x0 x1 x2 x3 rest' Hb Hr) as (ib & -> & Hib); [lia|].
    destruct (step_cport i x0 x1 x2 x3 rest' Hb Hr) as (ic & -> & Hic); [lia|]. fold s.
    rewrite Hr. case_bool_decide as Hz; repeat case_bool_decide; (eexists _, _; split; [reflexivity|]); try (unfold EINVAL; lia);
      (split; [lia|]); (split; [lia|done]).
Qed.

(** So does that of the second. *)
Lemma parse_cport_spec i x k nread : (0 < budget i)%nat -> decode l = Some (x, k) ->
  exists i', parse_cport i d off (sz - off) nread = Ret (Z.of_nat k, i') /\ entered i i' (enter_cport (bundles i) x).
Proof using Hv Hoff Hs0 Hs1.
  intros Hb. unfold parse_cport, mbind, outcome_bind. rewrite step_type, step_size. unfold decode, l at 1. fold l.
  set (s := s0 + 2 ^ 8 * s1). assert (Hid : entered i i (bundles i)) by (split; [done|lia]).
  destruct (bool_decide (s <= 0) || _) eqn:Ebad; [done|]. apply orb_false_iff in Ebad as [Es%bool_decide_eq_false El%bool_decide_eq_false].
  destruct (bool_decide (ty = GB_DESCRIPTOR_INTERFACE)) eqn:E1; [|destruct (bool_decide (ty = GB_DESCRIPTOR_STRING)) eqn:E2]; cbn [orb].
  1: destruct (bool_decide (8 <= length l)%nat); [|done]; intros [= <- <-]; exists i; split; [do 2 f_equal; lia|done].
  1: destruct (bool_decide (6 <= length l)%nat); [|done]; intros [= <- <-]; exists i; split; [do 2 f_equal; lia|done].
  assert (Hrest : match rest with _ :: _ :: _ :: _ :: _ => False | _ => True end \/ exists x0 x1 x2 x3 rest', rest = x0 :: x1 :: x2 :: x3 :: rest').
  { destruct rest as [|x0 [|x1 [|x2 [|x3 rest']]]]; [by left..|right; by repeat eexists]. }
  destruct Hrest as [Hrest|(x0 & x1 & x2 & x3 & rest' & Hr)]; [by destruct rest as [|? [|? [|? [|? ?]]]]|]. rewrite Hr.
  destruct (bool_decide (ty = GB_DESCRIPTOR_BUNDLE)) eqn:E3; cbn [orb].
  - intros [= <- <-]. exists i. split; [do 2 f_equal; lia|done].
  - destruct (bool_decide (ty = GB_DESCRIPTOR_CPORT)) eqn:E4; [|done]. intros [= <- <-].
    destruct (step_cport i x0 x1 x2 x3 rest' Hb Hr) as (ic & -> & Hic); [unfold s in *; lia|]. exists ic. split; [|done].
    do 2 f_equal. fold s. lia.
Qed.
End Step.

(** ** The loops *)

Definition bytes (l : list Z) : Prop := Forall (fun b => 0 <= b < 256) l.

Lemma decode_bounds l x k : decode l = Some (x, k) -> (0 < k <= length l)%nat.
Proof.
  unfold decode. destruct l as [|s0 [|s1 [|ty [|pad rest]]]]; try done. set (s := s0 + 2 ^ 8 * s1).
  set (len := length (s0 :: s1 :: ty :: pad :: rest)).
  destruct (bool_decide (s <= 0) || _) eqn:Ebad; [done|]. apply orb_false_iff in Ebad as [Es%bool_decide_eq_false El%bool_decide_eq_false].
  intros Hd. assert (k = Z.to_nat s) as -> by (repeat (case_match; simplify_eq; try done)). lia.
Qed.

Lemma view_bytes d sz off l : bytes d -> view d sz off l -> bytes l.
Proof. intros Hb (_ & _ & ->). by apply Forall_drop, Forall_take. Qed.

Lemma parse_all_spec n m i d sz off l : bytes d -> view d sz off l -> off <= sz ->
  (length l <= n)%nat -> (length l <= m)%nat -> (length l <= budget i)%nat ->
  exists r i', parse_all n i d off sz = Ret (r, i') /\
    match descriptors m l with
    | None => r = - EINVAL
    | Some ds => r = 0 /\ bundles i' = foldl enter (bundles i) ds /\ (budget i <= budget i' + length l)%nat
    end.
Proof.
  intros Hd. revert m i off l. induction n as [|n IH]; intros m i off l Hv Ho Hn Hm Hb;
    pose proof (view_length d sz off l Hv Ho) as Hlen; cbn [parse_all].
  all: assert (Hcond : bool_decide (sz < off + descriptor_hdr_sizeof) = bool_decide (length l < 4)%nat)
    by (apply bool_decide_ext; unfold descriptor_hdr_sizeof; lia); rewrite Hcond; clear Hcond.
  { rewrite bool_decide_eq_true_2 by lia. exists 0, i. split; [done|].
    destruct m; cbn [descriptors]; rewrite bool_decide_eq_true_2 by lia; split_and!; try done; lia. }
  destruct (decide (length l < 4)%nat) as [H4|H4].
  { rewrite bool_decide_eq_true_2 by done. exists 0, i. split; [done|].
    destruct m; cbn [descriptors]; rewrite bool_decide_eq_true_2 by done; split_and!; try done; lia. }
  destruct m as [|m]; [lia|]. cbn [descriptors]. rewrite !bool_decide_eq_false_2 by done.
  destruct l as [|s0 [|s1 [|ty [|pad rest]]]]; try (cbn in H4; lia).
  pose proof (view_bytes _ _ _ _ Hd Hv) as Hbl. pose proof (Forall_inv Hbl) as Hs0. pose proof (Forall_inv (Forall_inv_tail Hbl)) as Hs1.
  destruct (parse_one_spec d sz off s0 s1 ty pad rest Hv Ho Hs0 Hs1 i) as (nread & i1 & E & Hdec); [cbn in *; lia|].
  set (l := s0 :: s1 :: ty :: pad :: rest) in *. unfold mbind, outcome_bind, option_bind. rewrite E.
  destruct (decode l) as [[x k]|]; cbn [fst snd]; [|rewrite bool_decide_eq_true_2 by done; by eexists _, _].
  destruct Hdec as (Hk & -> & Hbun & Hbud). rewrite bool_decide_eq_false_2 by lia.
  destruct (IH m i1 (off + Z.of_nat k) (drop k l)) as (r & i2 & E2 & H2).
  - apply view_skip; [done|lia].
  - lia.
  - rewrite length_drop. lia.
  - rewrite length_drop. lia.
  - rewrite length_drop. lia.
  - exists r, i2. split; [done|]. destruct (descriptors m (drop k l)) as [ds|]; [|done].
    destruct H2 as (-> & Hb2 & Hbud2). rewrite length_drop in Hbud2. split; [done|]. split; [by rewrite Hb2, Hbun|]. lia.
Qed.

Lemma parse_cports_spec n m i d sz off l ds nread : bytes d -> view d sz off l -> off <= sz ->
  (length l <= n)%nat -> (length l <= m)%nat -> (length l <= budget i)%nat -> descriptors m l = Some ds ->
  exists i', parse_cports n i d off sz nread = Ret (0, i') /\ bundles i' = foldl enter_cport (bundles i) ds.
Proof.
  intros Hd. revert m i off l ds nread. induction n as [|n IH]; intros m i off l ds nread Hv Ho Hn Hm Hb;
    pose proof (view_length d sz off l Hv Ho) as Hlen; cbn [parse_cports].
  all: assert (Hcond : bool_decide (sz < off + descriptor_hdr_sizeof) = bool_decide (length l < 4)%nat)
    by (apply bool_decide_ext; unfold descriptor_hdr_sizeof; lia); rewrite Hcond; clear Hcond.
  { rewrite bool_decide_eq_true_2 by lia. destruct m; cbn [descriptors]; rewrite bool_decide_eq_true_2 by lia; intros [= <-]; by exists i. }
  destruct (decide (length l < 4)%nat) as [H4|H4].
  { rewrite bool_decide_eq_true_2 by done. destruct m; cbn [descriptors]; rewrite bool_decide_eq_true_2 by done; intros [= <-]; by exists i. }
  destruct m as [|m]; [lia|]. cbn [descriptors]. rewrite !bool_decide_eq_false_2 by done.
  destruct l as [|s0 [|s1 [|ty [|pad rest]]]]; try (cbn in H4; lia).
  pose proof (view_bytes _ _ _ _ Hd Hv) as Hbl. pose proof (Forall_inv Hbl) as Hs0. pose proof (Forall_inv (Forall_inv_tail Hbl)) as Hs1.
  set (l := s0 :: s1 :: ty :: pad :: rest) in *. unfold mbind, outcome_bind, option_bind.
  destruct (decode l) as [[x k]|] eqn:Edec; [|done]. cbn [fst snd].
  destruct (descriptors m (drop k l)) as [ds'|] eqn:Eds; [|done]. intros [= <-].
  destruct (parse_cport_spec d sz off s0 s1 ty pad rest Hv Ho Hs0 Hs1 i x k nread) as (i1 & E & Hbun & Hbud); [cbn in *; lia|done|].
  fold l in Edec. pose proof (decode_bounds _ _ _ Edec) as Hk.
  rewrite E, bool_decide_eq_false_2 by lia.
  destruct (IH m i1 (off + Z.of_nat k) (drop k l) ds' (Some (Z.of_nat k))) as (i2 & E2 & H2); try (rewrite ?length_drop; lia).
  - apply view_skip; [done|lia].
  - done.
  - exists i2. split; [done|]. by rewrite H2, Hbun.
Qed.

(** ** The result is the reference *)

Lemma insert_cports_union b m ds : foldl (insert_cport b) m ds = bundle_cports b ds ∪ m.
Proof.
  unfold bundle_cports. induction ds as [|x ds IH] using rev_ind; [cbn; by rewrite (left_id_L ∅ (∪))|].
  rewrite !foldl_app. cbn [foldl]. rewrite IH.
  destruct x as [|b' cl'|c b' p]; cbn [insert_cport]; try done. case_bool_decide; [|done]. by rewrite insert_union_l.
Qed.

(** After the first loop each bundle has its class, and some of its CPorts. *)
Lemma enter_all b ds :
  match foldl enter ∅ ds !! b with
  | None => bundle_class b ds = None
  | Some bd => id bd = b /\ bundle_class b ds = Some (class bd) /\ dom (cports bd) ⊆ dom (bundle_cports b ds)
  end.
Proof.
  unfold bundle_class, bundle_cports. induction ds as [|x ds IH] using rev_ind; [done|]. rewrite !foldl_app. cbn [foldl].
  set (m := foldl enter ∅ ds) in *. destruct x as [|b' cl'|c b' p]; cbn [enter set_class insert_cport]; [done| |].
  - destruct (decide (cl' = GB_CLASS_CONTROL)) as [Hc|Hc].
    + rewrite bool_decide_eq_true_2, bool_decide_eq_false_2 by tauto. done.
    + rewrite bool_decide_eq_false_2 by done. destruct (decide (b' = b)) as [->|Hne].
      * rewrite lookup_insert_eq, bool_decide_eq_true_2 by done. cbn [id class cports]. split_and!; [done|done|set_solver].
      * rewrite lookup_insert_ne, bool_decide_eq_false_2 by tauto. done.
  - destruct (decide (c = GB_CONTROL_CPORT)) as [Hc|Hc].
    + rewrite bool_decide_eq_true_2, bool_decide_eq_false_2 by tauto. done.
    + rewrite bool_decide_eq_false_2 by done. destruct (decide (b' = b)) as [->|Hne].
      * rewrite lookup_alter_eq, bool_decide_eq_true_2 by done. destruct (m !! b) as [bd|]; cbn [fmap option_fmap option_map]; [|done].
        destruct IH as (H1 & H2 & H3). cbn [add_cport id class cports]. rewrite !dom_insert_L. split_and!; [done|done|set_solver].
      * rewrite lookup_alter_ne, bool_decide_eq_false_2 by tauto. done.
Qed.

(** The second loop gives each bundle the CPorts that name it. *)
Lemma enter_cports_all b m ds : foldl enter_cport m ds !! b =
  (fun bd => mk_bundle (id bd) (class bd) (foldl (insert_cport b) (cports bd) ds)) <$> m !! b.
Proof.
  induction ds as [|x ds IH] using rev_ind; [cbn; by destruct (m !! b) as [[]|]|]. rewrite !foldl_app. cbn [foldl].
  set (m' := foldl enter_cport m ds) in *. destruct x as [|b' cl'|c b' p]; cbn [enter_cport enter]; [rewrite IH; destruct (m !! b); [cbn [fmap option_fmap option_map]; by rewrite foldl_app|done]..|].
  destruct (decide (c = GB_CONTROL_CPORT)) as [Hc|Hc].
  - rewrite bool_decide_eq_true_2, IH by done. destruct (m !! b); [|done]. cbn [fmap option_fmap option_map]. rewrite foldl_app. cbn [foldl insert_cport].
    by rewrite bool_decide_eq_false_2 by tauto.
  - rewrite bool_decide_eq_false_2 by done. destruct (decide (b' = b)) as [->|Hne].
    + rewrite lookup_alter_eq, IH. destruct (m !! b); [|done]. cbn [fmap option_fmap option_map]. rewrite foldl_app. cbn [foldl insert_cport].
      by rewrite bool_decide_eq_true_2 by done.
    + rewrite lookup_alter_ne, IH by done. destruct (m !! b); [|done]. cbn [fmap option_fmap option_map]. rewrite foldl_app. cbn [foldl insert_cport].
      by rewrite bool_decide_eq_false_2 by tauto.
Qed.

Lemma entered_twice b ds : foldl enter_cport (foldl enter ∅ ds) ds !! b = bundle_of b ds.
Proof.
  rewrite enter_cports_all. pose proof (enter_all b ds) as H. unfold bundle_of, mbind, option_bind.
  destruct (foldl enter ∅ ds !! b) as [bd|]; cbn [fmap option_fmap option_map]; [|by rewrite H].
  destruct H as (Hid & -> & Hdom). rewrite insert_cports_union, Hid. do 2 f_equal. apply map_eq. intros c.
  rewrite lookup_union. destruct (bundle_cports b ds !! c) as [cp|] eqn:Ec; [by rewrite union_Some_l|].
  rewrite (left_id_L None (∪)). apply not_elem_of_dom. apply not_elem_of_dom in Ec. set_solver.
Qed.

(** C38.  On any bytes, with memory for what they describe, the parser of
    manifests ends and reads nothing outside the manifest.  It refuses exactly the manifests that are not a header and a
    sequence of well-formed descriptors; otherwise each bundle the manifest
    describes (the control bundle excepted) gets its class and all the CPorts
    that name it, before or after it, and there are no other bundles. *)
Theorem manifest_parse_reference n m free : bytes (data m) -> size m = Z.of_nat (length (data m)) ->
  (length (data m) <= n)%nat -> (2 * length (data m) <= free)%nat ->
  exists r i', manifest_parse n (mk_interface ∅ free) m = Ret (r, i') /\
    match reference m with
    | None => r = - EINVAL
    | Some ds => r = 0 /\ forall b, bundles i' !! b = bundle_of b ds
    end.
Proof.
  destruct m as [d sz]. cbn [data size]. intros Hd -> Hn Hf. unfold manifest_parse, reference. cbn [data size].
  unfold manifest_hdr_sizeof at 1, descriptor_hdr_sizeof at 1. change (4 + 4) with 8.
  destruct d as [|s0 [|s1 rest]]; [by eexists _, _..|]. set (d := s0 :: s1 :: rest) in *.
  destruct (decide (Z.of_nat (length d) < 8)) as [H8|H8].
  { rewrite !(bool_decide_eq_true_2 (Z.of_nat (length _) < 8)) by done. cbn [orb]. by eexists _, _. }
  rewrite !(bool_decide_eq_false_2 (Z.of_nat (length _) < 8)) by done. cbn [orb]. unfold mbind, outcome_bind.
  assert (Hrd : rd16 d 0 = Ret (s0 + 2 ^ 8 * s1)) by done. rewrite Hrd. set (ms := s0 + 2 ^ 8 * s1).
  pose proof (Forall_inv Hd) as Hs0. pose proof (Forall_inv (Forall_inv_tail Hd)) as Hs1. cbv beta in Hs0, Hs1.
  case_bool_decide as Hms; [by eexists _, _|]. change manifest_hdr_sizeof with 4.
  destruct (decide (ms < 4)) as [Hsmall|Hsmall].
  { rewrite drop_ge by (rewrite length_take; lia). exists 0, (mk_interface ∅ free). destruct n; [cbn in Hn; lia|].
    cbn [parse_all parse_cports]. unfold descriptor_hdr_sizeof. rewrite !bool_decide_eq_true_2 by lia. rewrite bool_decide_eq_false_2 by tauto.
    split; [done|]. by unfold d. }
  assert (Hv : view d ms 4 (drop 4 (take (Z.to_nat ms) d))) by (split; [lia|split; [lia|done]]).
  pose proof (view_length _ _ _ _ Hv ltac:(lia)) as Hl.
  destruct (parse_all_spec n (length d) (mk_interface ∅ free) d ms 4 _ Hd Hv) as (r & i1 & E1 & H1); [lia|lia|lia|cbn [budget]; lia|].
  rewrite E1. destruct (descriptors (length d) _) as [ds|] eqn:Eds; [|subst r; by eexists _, _].
  destruct H1 as (-> & Hb1 & Hf1). rewrite bool_decide_eq_false_2 by tauto. cbn [budget bundles] in *.
  destruct (parse_cports_spec n (length d) i1 d ms 4 _ ds None Hd Hv) as (i2 & E2 & Hb2); [lia|lia|lia|lia|done|].
  rewrite E2. exists 0, i2. split; [done|]. split; [done|]. intros b. rewrite Hb2, Hb1. apply entered_twice.
Qed.

(** ** Instances *)

(** A CPort of bundle 1, then the interface, bundle 1 of class 2, the control
    CPort and another CPort of bundle 1. *)
Definition a_manifest : gb_manifest :=
  let d := [44; 0; 0; 1;  8; 0; 4; 0; 5; 0; 1; 9;  8; 0; 1; 0; 1; 2; 0; 0;  8; 0; 3; 0; 1; 2; 0; 0;  8; 0; 4; 0; 0; 0; 0; 0;  8; 0; 4; 0; 6; 1; 1; 7] in
  mk_manifest d 44.

Lemma manifest_parse_reference_witness : exists i', manifest_parse 44 (mk_interface ∅ 88) a_manifest = Ret (0, i') /\
  bundles i' !! 1 = Some (mk_bundle 1 2 {[ 5 := mk_cport 5 9 1; 262 := mk_cport 262 7 1 ]}).
Proof.
  destruct (manifest_parse_reference 44 a_manifest 88) as (r & i' & E & H).
  - vm_compute. repeat constructor; discriminate.
  - reflexivity.
  - vm_compute. lia.
  - vm_compute. lia.
  - assert (Er : reference a_manifest = Some [Cport 5 1 9; Ignored; Bundle 1 2; Cport 0 0 0; Cport 262 1 7]) by (vm_compute; reflexivity).
    rewrite Er in H. destruct H as (-> & H). exists i'. split; [exact E|]. rewrite H. vm_compute. reflexivity.
Defined.

(** ** What modelling showed *)

(** Without memory for a CPort the code tests [bundle], which is not NULL, and
    writes through the NULL CPort. *)
Example cport_without_memory : manifest_parse 44 (mk_interface ∅ 1) a_manifest = Fault.
Proof. vm_compute. reflexivity. Qed.

End Manifest.
