(* ===== verification/Greybus.v ===== *)
(** The Greybus core of [src/drivers/greybus/greybus-core.c]: reference-counted
    operations drawn from an object cache, the CPorts with their queues of
    outstanding requests and of received messages, the time-out of requests,
    and the dispatch of requests and responses.

    Operations and message buffers live at addresses, NULL is 0.  A buffer is
    represented by the header it begins with.  What [mcache_free] takes back
    keeps its contents and is handed out again, as the object cache does; an
    access to an operation that is in the cache is a fault.  Each section the
    code protects by masking interrupts or by a lock is one step, and sending a
    request is three: the queueing, the call of [unipro_send], the withdrawal.
    One round of the worker is one step too, though its walk over [tx_fifo] and
    the handlers and callbacks it calls run unlocked.  The CPort map only grows: it is a finite map. *)
From stdpp Require Import sorting.
From S2P Require Import Prelude.
#[local] Open Scope Z_scope.

Module Greybus.

(** ** Constants and wire format *)

Definition TYPE_RESPONSE_FLAG : Z := 0x80.
Definition TIMEOUT_IN_MS : Z := 1000.
Definition GB_INVALID_TYPE : Z := 0.
Definition ONE_SEC_IN_MSEC : Z := 1000.
Definition ONE_MSEC_IN_NSEC : Z := 1000000.
Definition NSEC : Z := 1000000000.
Definition GREYBUS_MTU : Z := 2048.

Definition GB_OP_SUCCESS : Z := 0x00.
Definition GB_OP_INTERRUPTED : Z := 0x01.
Definition GB_OP_TIMEOUT : Z := 0x02.
Definition GB_OP_NO_MEMORY : Z := 0x03.
Definition GB_OP_PROTOCOL_BAD : Z := 0x04.
Definition GB_OP_OVERFLOW : Z := 0x05.
Definition GB_OP_INVALID : Z := 0x06.
Definition GB_OP_RETRY : Z := 0x07.
Definition GB_OP_NONEXISTENT : Z := 0x08.
Definition GB_OP_UNKNOWN_ERROR : Z := 0xfe.
Definition GB_OP_INTERNAL : Z := 0xff.

(** [struct gb_operation_hdr], of 8 bytes on the wire. *)
Record gb_operation_hdr := mk_hdr { h_size : Z; h_id : Z; h_type : Z; h_result : Z }.
Definition hdr_sizeof : Z := 8.
Definition zero_hdr : gb_operation_hdr := mk_hdr 0 0 0 0.
#[export] Instance hdr_eq_dec : EqDecision gb_operation_hdr.
Proof. solve_decision. Defined.

Definition gb_errno_to_op_result (err : Z) : Z :=
  let e := Z.abs err in
  if bool_decide (err = 0) then GB_OP_SUCCESS
  else if bool_decide (e = ENOMEM) then GB_OP_NO_MEMORY
  else if bool_decide (e = EINTR) then GB_OP_INTERRUPTED
  else if bool_decide (e = ETIMEDOUT) then GB_OP_TIMEOUT
  else if bool_decide (e = EPROTO) || bool_decide (e = ENOSYS) then GB_OP_PROTOCOL_BAD
  else if bool_decide (e = EINVAL) then GB_OP_INVALID
  else if bool_decide (e = EOVERFLOW) then GB_OP_OVERFLOW
  else if bool_decide (e = ENODEV) || bool_decide (e = ENXIO) then GB_OP_NONEXISTENT
  else if bool_decide (e = EBUSY) then GB_OP_RETRY
  else GB_OP_UNKNOWN_ERROR.

(** ** Operations, drivers and CPorts *)

(** The callback of a request: none, [gb_operation_callback_sync], or the
    caller's own. *)
Inductive callback_t := CbNone | CbSync | CbUser.

(** [time] is the pair of [tv_sec] and [tv_nsec]. *)
Record gb_operation := mk_op {
  o_cport : Z;
  has_responded : bool;
  ref_count : Z;
  time : Z * Z;
  request_buffer : Z;
  response_buffer : option gb_operation_hdr;
  callback : callback_t;
  sync_sem : Z;
  response : Z;
}.

(** [fast] tells whether [fast_handler] is set. *)
Record gb_operation_handler := mk_handler { ht_type : Z; fast : bool }.
#[export] Instance handler_eq_dec : EqDecision gb_operation_handler.
Proof. solve_decision. Defined.

Record gb_driver := mk_driver { op_handlers : option (list gb_operation_handler) }.

(** A CPort's [rx_fifo] holds received operations and its [timedout_operation]. *)
Inductive rx_entry := RxOp (p : Z) | RxTimeout.
#[export] Instance rx_entry_eq_dec : EqDecision rx_entry.
Proof. solve_decision. Defined.

(** [timeout_wd]: the time the watchdog expires when it is active.  [rx_buf]:
    the buffer the UniPro device receives the next message of the CPort in. *)
Record gb_cport := mk_cport {
  driver : option gb_driver;
  tx_fifo : list Z;
  rx_fifo : list rx_entry;
  rx_fifo_semaphore : Z;
  timeout_wd : option Z;
  rx_buf : Z;
}.

(** What the outside sees, most recent first: messages given to [unipro_send]
    with what it returned, callbacks called, messages given to fast handlers. *)
Inductive trace_event :=
  | Sent (cport : Z) (hdr : gb_operation_hdr) (ret : Z)
  | Called (op : Z)
  | Fast (cport : Z) (hdr : gb_operation_hdr).

(** [op_cache] and [buf_cache] are the free objects of [op_slab] and
    [buffer_slab], [slab_bufs] all the buffers of [buffer_slab]; [ops_left] and
    [bufs_left]: how many more objects memory has room for. *)
Record greybus := mk_greybus {
  ops : gmap Z gb_operation;
  op_cache : list (Z * gb_operation);
  bufs : gmap Z gb_operation_hdr;
  slab_bufs : gset Z;
  buf_cache : list Z;
  cport_map : gmap Z gb_cport;
  request_id : Z;
  now : Z;                        (* CLOCK_MONOTONIC, in nanoseconds *)
  trace : list trace_event;
  next : Z;
  ops_left : nat;
  bufs_left : nat;
}.

Definition set_ops (v : gmap Z gb_operation) (g : greybus) : greybus :=
  mk_greybus v (op_cache g) (bufs g) (slab_bufs g) (buf_cache g) (cport_map g) (request_id g) (now g) (trace g) (next g) (ops_left g) (bufs_left g).
Definition set_op_cache (v : list (Z * gb_operation)) (g : greybus) : greybus :=
  mk_greybus (ops g) v (bufs g) (slab_bufs g) (buf_cache g) (cport_map g) (request_id g) (now g) (trace g) (next g) (ops_left g) (bufs_left g).
Definition set_bufs (v : gmap Z gb_operation_hdr) (g : greybus) : greybus :=
  mk_greybus (ops g) (op_cache g) v (slab_bufs g) (buf_cache g) (cport_map g) (request_id g) (now g) (trace g) (next g) (ops_left g) (bufs_left g).
Definition set_buf_cache (v : list Z) (g : greybus) : greybus :=
  mk_greybus (ops g) (op_cache g) (bufs g) (slab_bufs g) v (cport_map g) (request_id g) (now g) (trace g) (next g) (ops_left g) (bufs_left g).
Definition set_cports (v : gmap Z gb_cport) (g : greybus) : greybus :=
  mk_greybus (ops g) (op_cache g) (bufs g) (slab_bufs g) (buf_cache g) v (request_id g) (now g) (trace g) (next g) (ops_left g) (bufs_left g).
Definition set_request_id (v : Z) (g : greybus) : greybus :=
  mk_greybus (ops g) (op_cache g) (bufs g) (slab_bufs g) (buf_cache g) (cport_map g) v (now g) (trace g) (next g) (ops_left g) (bufs_left g).
Definition set_now (v : Z) (g : greybus) : greybus :=
  mk_greybus (ops g) (op_cache g) (bufs g) (slab_bufs g) (buf_cache g) (cport_map g) (request_id g) v (trace g) (next g) (ops_left g) (bufs_left g).
Definition log (e : trace_event) (g : greybus) : greybus :=
  mk_greybus (ops g) (op_cache g) (bufs g) (slab_bufs g) (buf_cache g) (cport_map g) (request_id g) (now g) (e :: trace g) (next g) (ops_left g) (bufs_left g).

Definition put_op (p : Z) (o : gb_operation) (g : greybus) : greybus := set_ops (<[p := o]> (ops g)) g.
Definition put_buf (b : Z) (h : gb_operation_hdr) (g : greybus) : greybus := set_bufs (<[b := h]> (bufs g)) g.
Definition put_cport (c : Z) (cp : gb_cport) (g : greybus) : greybus := set_cports (<[c := cp]> (cport_map g)) g.
Definition get_op (g : greybus) (p : Z) : outcome gb_operation := deref (ops g !! p).
Definition get_buf (g : greybus) (b : Z) : outcome gb_operation_hdr := deref (bufs g !! b).
Definition gb_get_cport (g : greybus) (c : Z) : option gb_cport := cport_map g !! c.

Definition op_refs (o : gb_operation) (n : Z) : gb_operation :=
  mk_op (o_cport o) (has_responded o) n (time o) (request_buffer o) (response_buffer o) (callback o) (sync_sem o) (response o).
Definition op_response (o : gb_operation) (r : Z) : gb_operation :=
  mk_op (o_cport o) (has_responded o) (ref_count o) (time o) (request_buffer o) (response_buffer o) (callback o) (sync_sem o) r.
Definition op_reply (o : gb_operation) (b : option gb_operation_hdr) : gb_operation :=
  mk_op (o_cport o) (has_responded o) (ref_count o) (time o) (request_buffer o) b (callback o) (sync_sem o) (response o).
Definition op_responded (o : gb_operation) : gb_operation :=
  mk_op (o_cport o) true (ref_count o) (time o) (request_buffer o) (response_buffer o) (callback o) (sync_sem o) (response o).
Definition op_request (o : gb_operation) (b : Z) : gb_operation :=
  mk_op (o_cport o) (has_responded o) (ref_count o) (time o) b (response_buffer o) (callback o) (sync_sem o) (response o).
Definition op_sent (o : gb_operation) (t : Z * Z) (cb : callback_t) : gb_operation :=
  mk_op (o_cport o) (has_responded o) (ref_count o) t (request_buffer o) (response_buffer o) cb (sync_sem o) (response o).
Definition op_sync (o : gb_operation) (s : Z) : gb_operation :=
  mk_op (o_cport o) (has_responded o) (ref_count o) (time o) (request_buffer o) (response_buffer o) (callback o) s (response o).

Definition cp_tx (cp : gb_cport) (l : list Z) : gb_cport :=
  mk_cport (driver cp) l (rx_fifo cp) (rx_fifo_semaphore cp) (timeout_wd cp) (rx_buf cp).
Definition cp_rx (cp : gb_cport) (l : list rx_entry) (s : Z) : gb_cport :=
  mk_cport (driver cp) (tx_fifo cp) l s (timeout_wd cp) (rx_buf cp).
Definition cp_wd (cp : gb_cport) (d : option Z) : gb_cport :=
  mk_cport (driver cp) (tx_fifo cp) (rx_fifo cp) (rx_fifo_semaphore cp) d (rx_buf cp).
Definition cp_buf (cp : gb_cport) (b : Z) : gb_cport :=
  mk_cport (driver cp) (tx_fifo cp) (rx_fifo cp) (rx_fifo_semaphore cp) (timeout_wd cp) b.

(** ** The object caches *)

(** [mcache_alloc(buffer_slab)]; NULL when no memory is left. *)
Definition alloc_buffer (g : greybus) : Z * greybus :=
  match buf_cache g with
  | b :: l => (b, set_buf_cache l g)
  | [] =>
      match bufs_left g with
      | O => (0, g)
      | S n =>
          (next g, mk_greybus (ops g) (op_cache g) (<[next g := zero_hdr]> (bufs g)) ({[next g]} ∪ slab_bufs g) (buf_cache g)
             (cport_map g) (request_id g) (now g) (trace g) (next g + 1) (ops_left g) n)
      end
  end.

(** [mcache_free(buffer_slab, b)] does nothing to a buffer that is not of the slab. *)
Definition free_buffer (b : Z) (g : greybus) : greybus :=
  if bool_decide (b ∈ slab_bufs g) then set_buf_cache (b :: buf_cache g) g else g.

Definition zero_op : gb_operation := mk_op 0 false 0 (0, 0) 0 None CbNone 0 0.

(** The constructor of [op_slab]; it gives up when there is no buffer. *)
Definition operation_ctor (p : Z) (g : greybus) : greybus :=
  let '(b, g) := alloc_buffer g in
  if bool_decide (b = 0) then put_op p zero_op g else put_op p (op_refs (op_request zero_op b) 1) g.

(** [mcache_alloc(op_slab)]. *)
Definition alloc_op (g : greybus) : Z * greybus :=
  match op_cache g with
  | (p, o) :: l => (p, put_op p o (set_op_cache l g))
  | [] =>
      match ops_left g with
      | O => (0, g)
      | S n =>
          (next g, operation_ctor (next g)
            (mk_greybus (ops g) (op_cache g) (bufs g) (slab_bufs g) (buf_cache g) (cport_map g) (request_id g) (now g)
               (trace g) (next g + 1) n (bufs_left g)))
      end
  end.

(** [mcache_free(op_slab, p)]. *)
Definition free_op (p : Z) (o : gb_operation) (g : greybus) : greybus :=
  set_op_cache ((p, o) :: op_cache g) (set_ops (delete p (ops g)) g).

(** ** Operations *)

Definition gb_operation_ref (p : Z) (g : greybus) : outcome greybus :=
  if bool_decide (p = 0) then Ret g else
  o ← get_op g p;
  if bool_decide (ref_count o <= 0) then Ret g else Ret (put_op p (op_refs o (wrap32 (ref_count o + 1))) g).

(** [n] bounds the depth of the chain of responses. *)
Fixpoint gb_operation_unref_n (n : nat) (p : Z) (g : greybus) : outcome greybus :=
  if bool_decide (p = 0) then Ret g else
  o ← get_op g p;
  if bool_decide (ref_count o <= 0) then Ret g else
  let ref_count := wrap32 (ref_count o - 1) in
  if bool_decide (ref_count <> 0) then Ret (put_op p (op_refs o ref_count) g) else
  let g := put_op p (op_reply (op_refs o ref_count) None) g in
  g ← (if bool_decide (response o = 0) then Ret g
       else match n with O => Hang | S n => gb_operation_unref_n n (response o) g end);
  o ← get_op g p;
  Ret (free_op p (op_response o 0) g).
Definition gb_operation_unref (p : Z) (g : greybus) : outcome greybus := gb_operation_unref_n (S (size (ops g))) p g.
Definition gb_operation_destroy (p : Z) (g : greybus) : outcome greybus :=
  if bool_decide (p = 0) then Ret g else gb_operation_unref p g.

(** [memset] writes [req_size + sizeof(hdr)] bytes into a buffer of 2048. *)
Definition gb_operation_create (cportid type req_size : Z) (g : greybus) : outcome (Z * greybus) :=
  let '(p, g) := alloc_op g in
  if bool_decide (p = 0) then Ret (0, g) else
  o ← get_op g p;
  let n := wrap32 (req_size + hdr_sizeof) in
  _ ← get_buf g (request_buffer o);
  if bool_decide (GREYBUS_MTU < n) then Fault else
  let g := put_buf (request_buffer o) (mk_hdr (wrap16 n) 0 type 0) g in
  Ret (p, put_op p (mk_op cportid false 1 (time o) (request_buffer o) (response_buffer o) (callback o) (sync_sem o) (response o)) g).

Definition gb_operation_get_request_payload_size (p : Z) (g : greybus) : outcome Z :=
  if bool_decide (p = 0) then Ret 0 else
  o ← get_op g p;
  if bool_decide (request_buffer o = 0) then Ret 0 else
  h ← get_buf g (request_buffer o);
  Ret (if bool_decide (h_size h < hdr_sizeof) then 0 else h_size h - hdr_sizeof).

Definition gb_operation_get_request_result (p : Z) (g : greybus) : outcome Z :=
  if bool_decide (p = 0) then Ret GB_OP_INTERNAL else
  o ← get_op g p;
  if bool_decide (response o = 0) then Ret GB_OP_TIMEOUT else
  r ← get_op g (response o);
  if bool_decide (request_buffer r = 0) then Ret GB_OP_INTERNAL else
  h ← get_buf g (request_buffer r);
  Ret (if bool_decide (h_size h < hdr_sizeof) then GB_OP_INTERNAL else h_result h).

(** [ok] tells whether [malloc] succeeds. *)
Definition gb_operation_alloc_response (ok : bool) (p : Z) (size : Z) (g : greybus) : outcome greybus :=
  if bool_decide (p = 0) then Ret g else
  o ← get_op g p;
  if negb ok then Ret (put_op p (op_reply o None) g) else
  h ← get_buf g (request_buffer o);
  Ret (put_op p (op_reply o (Some (mk_hdr (wrap16 (size + hdr_sizeof)) (h_id h) (Z.lor TYPE_RESPONSE_FLAG (h_type h)) 0))) g).

(** [ret] is what [unipro_send] returns, here and below. *)
Definition gb_operation_send_oom_response (ret : Z) (p : Z) (g : greybus) : outcome (Z * greybus) :=
  o ← get_op g p;
  h ← get_buf g (request_buffer o);
  Ret (ret, log (Sent (o_cport o) (mk_hdr hdr_sizeof (h_id h) (Z.lor TYPE_RESPONSE_FLAG (h_type h)) GB_OP_NO_MEMORY) ret) g).

Definition with_result (h : gb_operation_hdr) (result : Z) : gb_operation_hdr := mk_hdr (h_size h) (h_id h) (h_type h) result.

Definition gb_operation_send_response (ok : bool) (ret : Z) (p : Z) (result : Z) (g : greybus) : outcome (Z * greybus) :=
  if bool_decide (p = 0) then Ret (- EINVAL, g) else
  o ← get_op g p;
  if has_responded o then Ret (- EINVAL, g) else
  let has_allocated_response := bool_decide (response_buffer o = None) in
  g ← (if has_allocated_response then gb_operation_alloc_response ok p 0 g else Ret g);
  o ← get_op g p;
  match response_buffer o with
  | None => gb_operation_send_oom_response ret p g
  | Some h =>
      let h := with_result h result in
      let o := op_reply o (Some h) in
      let g := log (Sent (o_cport o) h ret) g in
      if bool_decide (ret < 0) then
        Ret (ret, put_op p (if has_allocated_response then op_reply o None else o) g)
      else Ret (0, put_op p (op_responded o) g)
  end.

(** ** Time-outs *)

Definition timespec_of (t : Z) : Z * Z := (t / NSEC, t mod NSEC).
Definition gb_operation_has_timedout (current : Z) (o : gb_operation) : bool :=
  let '(current_sec, current_nsec) := timespec_of current in
  let timeout_sec := fst (time o) + TIMEOUT_IN_MS / ONE_SEC_IN_MSEC in
  let timeout_nsec := snd (time o) + (TIMEOUT_IN_MS mod ONE_SEC_IN_MSEC) * ONE_MSEC_IN_NSEC in
  if bool_decide (timeout_sec < current_sec) then true
  else if bool_decide (current_sec < timeout_sec) then false
  else bool_decide (timeout_nsec < current_nsec).

Definition timeout_from (t : Z) : option Z := Some (t + TIMEOUT_IN_MS * ONE_MSEC_IN_NSEC).

Definition gb_watchdog_update (t : Z) (cp : gb_cport) : gb_cport :=
  cp_wd cp (match tx_fifo cp with [] => None | _ => timeout_from t end).

(** [list_del] of an operation in the [tx_fifo]. *)
Definition del_tx (p : Z) (cp : gb_cport) : gb_cport := cp_tx cp (filter (fun q => q <> p) (tx_fifo cp)).

(** [op->callback(op)], when there is one. *)
Definition call_back (p : Z) (g : greybus) : outcome greybus :=
  o ← get_op g p;
  match callback o with
  | CbNone => Ret g
  | CbSync => Ret (log (Called p) (put_op p (op_sync o (wrap32 (sync_sem o + 1))) g))
  | CbUser => Ret (log (Called p) g)
  end.

(** One round of the loop of [gb_clean_timedout_operation]. *)
Definition clean_one (c : Z) (g : greybus) (p : Z) : outcome greybus :=
  o ← get_op g p;
  if negb (gb_operation_has_timedout (now g) o) then Ret g else
  cp ← deref (gb_get_cport g c);
  g ← call_back p (put_cport c (del_tx p cp) g);
  gb_operation_unref p g.

Definition gb_clean_timedout_operation (c : Z) (g : greybus) : outcome greybus :=
  cp ← deref (gb_get_cport g c);
  g ← foldO (clean_one c) g (tx_fifo cp);
  cp ← deref (gb_get_cport g c);
  Ret (put_cport c (gb_watchdog_update (now g) cp) g).

(** The watchdog's callback. *)
Definition gb_operation_timeout (c : Z) (g : greybus) : outcome greybus :=
  cp ← deref (gb_get_cport g c);
  if bool_decide (RxTimeout ∈ rx_fifo cp) then Ret g else
  Ret (put_cport c (cp_rx cp (rx_fifo cp ++ [RxTimeout]) (wrap32 (rx_fifo_semaphore cp + 1))) g).

(** ** Sending requests *)

Definition fresh_request_id (g : greybus) : Z * greybus :=
  let n := wrap32 (request_id g + 1) in
  if bool_decide (wrap16 n = 0) then let n := wrap32 (n + 1) in (wrap16 n, set_request_id n g)
  else (wrap16 n, set_request_id n g).

Definition with_id (h : gb_operation_hdr) (id : Z) : gb_operation_hdr := mk_hdr (h_size h) id (h_type h) (h_result h).

(** Until the message goes out: the identifier, the reference and, with
    [tx_fifo_lock] held, the queue and the watchdog.  What comes before the lock
    touches only the operation and the counter of identifiers. *)
Definition queue_request (p : Z) (cb : callback_t) (need_response : bool) (g : greybus) : outcome greybus :=
  o ← get_op g p;
  h ← get_buf g (request_buffer o);
  if need_response then
    let '(id, g) := fresh_request_id g in
    let g := put_op p (op_sent o (timespec_of (now g)) cb) (put_buf (request_buffer o) (with_id h id) g) in
    g ← gb_operation_ref p g;
    cp ← deref (gb_get_cport g (o_cport o));
    let cp := cp_tx cp (tx_fifo cp ++ [p]) in
    Ret (put_cport (o_cport o) (match timeout_wd cp with None => cp_wd cp (timeout_from (now g)) | Some _ => cp end) g)
  else Ret (put_buf (request_buffer o) (with_id h 0) g).

(** [unipro_send] of the request, with no lock held; it returns [ret]. *)
Definition transmit_request (ret p : Z) (g : greybus) : outcome greybus :=
  o ← get_op g p;
  h ← get_buf g (request_buffer o);
  Ret (log (Sent (o_cport o) h ret) g).

(** When it failed and a response was expected, with [tx_fifo_lock] held. *)
Definition withdraw_request (p : Z) (g : greybus) : outcome greybus :=
  o ← get_op g p;
  cp ← deref (gb_get_cport g (o_cport o));
  gb_operation_unref p (put_cport (o_cport o) (gb_watchdog_update (now g) (del_tx p cp)) g).

Definition gb_operation_send_request (ret : Z) (p : Z) (cb : callback_t) (need_response : bool) (g : greybus) :
    outcome (Z * greybus) :=
  g ← queue_request p cb need_response g;
  g ← transmit_request ret p g;
  g ← (if need_response && bool_decide (ret < 0) then withdraw_request p g else Ret g);
  Ret (if bool_decide (ret < 0) then ret else 0, g).

(** The two halves of [gb_operation_send_request_sync]: what it does before it
    sleeps on [sync_sem], and what it does when it gets it. *)
Definition gb_operation_send_request_sync (ret : Z) (p : Z) (g : greybus) : outcome (Z * greybus) :=
  o ← get_op g p;
  gb_operation_send_request ret p CbSync true (put_op p (op_sync o 0) g).
Definition sync_wait (p : Z) (g : greybus) : outcome (bool * greybus) :=
  o ← get_op g p;
  if bool_decide (0 < sync_sem o) then Ret (true, put_op p (op_sync o (sync_sem o - 1)) g) else Ret (false, g).

(** ** Handlers *)

(** [qsort] with [gb_compare_handlers]. *)
Definition handler_le (h1 h2 : gb_operation_handler) : Prop := ht_type h1 <= ht_type h2.
#[export] Instance handler_le_dec h1 h2 : Decision (handler_le h1 h2).
Proof. unfold handler_le. apply _. Defined.
Definition sort_handlers (hs : list gb_operation_handler) : list gb_operation_handler := merge_sort handler_le hs.

(** The binary search of [find_operation_handler]. *)
Fixpoint search_handler (n : nat) (hs : list gb_operation_handler) (type l r : Z) : outcome (option gb_operation_handler) :=
  if bool_decide (l <= r) then
    let m := (l + r) / 2 in
    h ← deref (hs !! Z.to_nat m);
    match n with
    | O => Hang
    | S n =>
        if bool_decide (ht_type h < type) then search_handler n hs type (m + 1) r
        else if bool_decide (type < ht_type h) then search_handler n hs type l (m - 1)
        else Ret (Some h)
    end
  else Ret None.

Definition find_operation_handler (g : greybus) (type cportid : Z) : outcome (option gb_operation_handler) :=
  cp ← deref (gb_get_cport g cportid);
  d ← deref (driver cp);
  if bool_decide (type = GB_INVALID_TYPE) then Ret None else
  match op_handlers d with
  | None => Ret None
  | Some hs => search_handler (length hs) hs type 0 (Z.of_nat (length hs) - 1)
  end.

Section Handlers.
(** What a driver's handler does with a request: the size of the response
    payload it allocates, if it allocates one, and the result it returns. *)
Context (run_handler : gb_operation_handler -> gb_operation_hdr -> option Z * Z).

(** [ok] and [ret] are the outcomes of [malloc] and [unipro_send]. *)
Definition gb_process_request (ok : bool) (ret : Z) (hdr : gb_operation_hdr) (p : Z) (g : greybus) : outcome greybus :=
  o ← get_op g p;
  op_handler ← find_operation_handler g (h_type hdr) (o_cport o);
  match op_handler with
  | None => '(_, g) ← gb_operation_send_response ok ret p GB_OP_INVALID g; Ret g
  | Some h =>
      let '(size, result) := run_handler h hdr in
      g ← match size with Some n => gb_operation_alloc_response true p n g | None => Ret g end;
      if bool_decide (h_id hdr <> 0) then '(_, g) ← gb_operation_send_response ok ret p result g; Ret g
      else Ret g
  end.

(** The first operation of the list whose request has this identifier. *)
Fixpoint find_request (g : greybus) (id : Z) (l : list Z) : outcome (option Z) :=
  match l with
  | [] => Ret None
  | p :: l =>
      o ← get_op g p;
      h ← get_buf g (request_buffer o);
      if bool_decide (h_id h = id) then Ret (Some p) else find_request g id l
  end.

Definition gb_process_response (hdr : gb_operation_hdr) (p : Z) (g : greybus) : outcome greybus :=
  o ← get_op g p;
  let c := o_cport o in
  cp ← deref (gb_get_cport g c);
  r ← find_request g (h_id hdr) (tx_fifo cp);
  match r with
  | None => Ret g
  | Some q =>
      let g := put_cport c (gb_watchdog_update (now g) (del_tx q cp)) g in
      g ← gb_operation_ref p g;
      oq ← get_op g q;
      g ← call_back q (put_op q (op_response oq p) g);
      gb_operation_unref q g
  end.

(** One round of the worker of a CPort; it sleeps while the semaphore is 0. *)
Definition gb_pending_message_worker (ok : bool) (ret : Z) (c : Z) (g : greybus) : outcome greybus :=
  cp ← deref (gb_get_cport g c);
  if bool_decide (rx_fifo_semaphore cp = 0) then Ret g else
  match rx_fifo cp with
  | [] => Fault
  | RxTimeout :: l => gb_clean_timedout_operation c (put_cport c (cp_rx cp l (rx_fifo_semaphore cp - 1)) g)
  | RxOp p :: l =>
      let g := put_cport c (cp_rx cp l (rx_fifo_semaphore cp - 1)) g in
      o ← get_op g p;
      hdr ← get_buf g (request_buffer o);
      g ← (if bool_decide (Z.land (h_type hdr) TYPE_RESPONSE_FLAG <> 0) then gb_process_response hdr p g
           else gb_process_request ok ret hdr p g);
      gb_operation_destroy p g
  end.
End Handlers.

(** [data] is the address of the message, [size] how many bytes came. *)
Definition greybus_rx_handler (c data size : Z) (g : greybus) : outcome greybus :=
  match gb_get_cport g c with
  | None => Ret g
  | Some cp =>
      if bool_decide (data = 0) then Ret g else
      if bool_decide ((driver cp ≫= op_handlers) = None) then Ret g else
      if bool_decide (size < hdr_sizeof) then Ret g else
      h ← get_buf g data;
      let hdr_size := h_size h in
      if bool_decide (size < hdr_size) || bool_decide (hdr_size < hdr_sizeof) then Ret g else
      op_handler ← find_operation_handler g (h_type h) c;
      if bool_decide (option_map fast op_handler = Some true) then Ret (log (Fast c h) g) else
      '(p, g) ← gb_operation_create c 0 (hdr_size - hdr_sizeof) g;
      if bool_decide (p = 0) then Ret g else
      o ← get_op g p;
      let g := put_op p (op_request o data) (free_buffer (request_buffer o) g) in
      let '(b, g) := alloc_buffer g in
      cp ← deref (gb_get_cport g c);
      Ret (put_cport c (cp_buf (cp_rx cp (rx_fifo cp ++ [RxOp p]) (wrap32 (rx_fifo_semaphore cp + 1))) b) g)
  end.

(** ** Registration *)

Definition gb_init_cport (d : gb_driver) : gb_cport := mk_cport (Some d) [] [] 0 None 0.

(** [init]: what [driver->init] returns, if there is one; [handlers_count]
    counts handlers a NULL [op_handlers] cannot hold; [mem] and [task]: whether
    the CPort and its thread could be made.  [None] is an undefined value. *)
Definition gb_register_driver (c : Z) (d : option gb_driver) (handlers_count : Z) (init : option Z) (mem task : bool)
    (g : greybus) : option Z * greybus :=
  match d with
  | None => (Some (- EINVAL), g)
  | Some d =>
      if bool_decide (gb_get_cport g c <> None) then (Some (- EEXIST), g) else
      if bool_decide (op_handlers d = None) && bool_decide (0 < handlers_count) then (Some (- EINVAL), g) else
      if bool_decide (default 0 init <> 0) then (init, g) else
      let d := mk_driver (option_map sort_handlers (op_handlers d)) in
      if negb mem then (Some (- ENOMEM), g) else
      if negb task then (init, g) else
      (Some 0, put_cport c (gb_init_cport d) g)
  end.

(** When the UniPro device accepts the registration ([ret] is 0) it gets a page
    for the CPort's first message. *)
Definition gb_listen (c : Z) (ret : Z) (g : greybus) : Z * greybus :=
  match gb_get_cport g c with
  | None => (- EINVAL, g)
  | Some cp =>
      if bool_decide (driver cp = None) then (- EINVAL, g) else
      if bool_decide (ret <> 0) then (ret, g) else
      (0, put_cport c (cp_buf cp (next g))
            (mk_greybus (ops g) (op_cache g) (<[next g := zero_hdr]> (bufs g)) (slab_bufs g) (buf_cache g) (cport_map g)
               (request_id g) (now g) (trace g) (next g + 1) (ops_left g) (bufs_left g)))
  end.

Definition gb_stop_listening (c : Z) (ret : Z) (g : greybus) : Z :=
  match gb_get_cport g c with
  | None => - EINVAL
  | Some cp => if bool_decide (driver cp = None) then - EINVAL else ret
  end.

(** The state after [gb_probe]; [nops] and [nbufs] objects fit in memory. *)
Definition gb_probe (nops nbufs : nat) : greybus := mk_greybus ∅ [] ∅ ∅ [] ∅ 0 0 [] 1 nops nbufs.

(** ** The core and its clients *)

(** How far a task is in [gb_operation_send_request]: the message is to go out,
    or it did not and the request is to be withdrawn. *)
Inductive send_stage := Queued (need_response : bool) | Refused.
#[export] Instance send_stage_eq_dec : EqDecision send_stage.
Proof. solve_decision. Defined.

(** [held]: the operations clients hold their reference to; [sending]: those a
    task is sending at the moment. *)
Record sys := mk_sys { st : greybus; held : gset Z; sending : gmap Z send_stage }.
Definition set_sending (f : gmap Z send_stage) (s : sys) : sys := mk_sys (st s) (held s) f.

(** What clients, the UniPro device, time and the scheduler do: a client makes
    an operation, drops it, or sends it, which is three steps others may come
    between ([ESend] queues it, [ETransmit] is the call of [unipro_send] with
    what it returns, [EWithdraw] is what follows when that failed and a response
    was expected); a message of [size] bytes that begins with a header arrives;
    the worker of a CPort makes one round (whether [malloc] succeeds, what
    [unipro_send] returns); the watchdog of a CPort fires; time passes; a
    driver is registered and its CPort listened to. *)
Inductive event :=
  | ECreate (c type size : Z)
  | ESend (p : Z) (cb : callback_t) (need_response : bool)
  | ETransmit (p : Z) (ret : Z)
  | EWithdraw (p : Z)
  | EDestroy (p : Z)
  | EReceive (c : Z) (hdr : gb_operation_hdr) (size : Z)
  | EWork (c : Z) (ok : bool) (ret : Z)
  | ETimer (c : Z)
  | ETick (dt : Z)
  | ERegister (c : Z) (d : gb_driver)
  | EListen (c : Z).

(** A client sends an operation it holds, that it is not sending already, that
    is not outstanding and that has no response yet. *)
Definition can_send (s : sys) (p : Z) : bool :=
  match ops (st s) !! p with
  | Some o => bool_decide (p ∈ held s) && bool_decide (sending s !! p = None) && bool_decide (response o = 0) &&
      match cport_map (st s) !! o_cport o with Some cp => bool_decide (p ∉ tx_fifo cp) | None => false end
  | None => false
  end.

(** The request is still outstanding when the send that failed withdraws it: it
    was neither answered nor timed out before [unipro_send] was done with it. *)
Definition can_withdraw (s : sys) (p : Z) : bool :=
  bool_decide (sending s !! p = Some Refused) &&
  match ops (st s) !! p with
  | Some o => match cport_map (st s) !! o_cport o with Some cp => bool_decide (p ∈ tx_fifo cp) | None => false end
  | None => false
  end.

Definition step (run_handler : gb_operation_handler -> gb_operation_hdr -> option Z * Z) (s : sys) (e : event) : outcome sys :=
  let g := st s in
  match e with
  | ECreate c type size =>
      if bool_decide (is_Some (cport_map g !! c)) && bool_decide (0 <= size) && bool_decide (size + hdr_sizeof <= GREYBUS_MTU) then
        '(p, g) ← gb_operation_create c type size g;
        Ret (mk_sys g (if bool_decide (p = 0) then held s else {[p]} ∪ held s) (sending s))
      else Ret s
  | ESend p cb need =>
      if can_send s p then g ← queue_request p cb need g; Ret (mk_sys g (held s) (<[p := Queued need]> (sending s))) else Ret s
  | ETransmit p ret =>
      match sending s !! p with
      | Some (Queued need) =>
          g ← transmit_request ret p g;
          Ret (mk_sys g (held s) (if need && bool_decide (ret < 0) then <[p := Refused]> (sending s) else delete p (sending s)))
      | _ => Ret s
      end
  | EWithdraw p =>
      if can_withdraw s p then g ← withdraw_request p g; Ret (mk_sys g (held s) (delete p (sending s))) else Ret s
  | EDestroy p =>
      if bool_decide (p ∈ held s) && bool_decide (sending s !! p = None) then
        g ← gb_operation_destroy p g; Ret (mk_sys g (held s ∖ {[p]}) (sending s))
      else Ret s
  | EReceive c hdr size =>
      match cport_map g !! c with
      | Some cp =>
          if bool_decide (rx_buf cp <> 0) && bool_decide (size <= GREYBUS_MTU) then
            g ← greybus_rx_handler c (rx_buf cp) size (put_buf (rx_buf cp) hdr g); Ret (mk_sys g (held s) (sending s))
          else Ret s
      | None => Ret s
      end
  | EWork c ok ret =>
      if bool_decide (is_Some (cport_map g !! c)) then
        g ← gb_pending_message_worker run_handler ok ret c g; Ret (mk_sys g (held s) (sending s))
      else Ret s
  | ETimer c =>
      match cport_map g !! c with
      | Some cp =>
          match timeout_wd cp with
          | Some d =>
              if bool_decide (d <= now g) then g ← gb_operation_timeout c (put_cport c (cp_wd cp None) g); Ret (mk_sys g (held s) (sending s))
              else Ret s
          | None => Ret s
          end
      | None => Ret s
      end
  | ETick dt => Ret (mk_sys (set_now (now g + Z.max 0 dt) g) (held s) (sending s))
  | ERegister c d => Ret (mk_sys (snd (gb_register_driver c (Some d) 0 None true true g)) (held s) (sending s))
  | EListen c =>
      match cport_map g !! c with
      | Some cp => if bool_decide (rx_buf cp = 0) then Ret (mk_sys (snd (gb_listen c 0 g)) (held s) (sending s)) else Ret s
      | None => Ret s
      end
  end.

(** Projections of updated states. *)
Ltac gcbn := cbn [ops op_cache bufs slab_bufs buf_cache cport_map request_id now trace next ops_left bufs_left
  put_op put_buf put_cport set_ops set_op_cache set_bufs set_buf_cache set_cports set_request_id set_now log].

(** ** Dispatch: the binary search is a lookup *)

Lemma StronglySorted_lookup_lt {A} (R : relation A) (l : list A) i j x y :
  StronglySorted R l -> l !! i = Some x -> l !! j = Some y -> (i < j)%nat -> R x y.
Proof.
  intros Hs Hi Hj Hij. rewrite <- (take_drop (S i) l) in Hs.
  eapply (StronglySorted_app_1_elem_of _ _ _ x y Hs).
  - apply list_elem_of_lookup. exists i. by rewrite lookup_take_lt by lia.
  - apply list_elem_of_lookup. exists (j - S i)%nat. rewrite lookup_drop. by replace (S i + (j - S i))%nat with j by lia.
Qed.

Lemma search_spec n hs type l r :
  0 <= l -> r < Z.of_nat (length hs) -> r - l + 1 <= Z.of_nat n ->
  exists x, search_handler n hs type l r = Ret x /\
    (forall h, x = Some h -> h ∈ hs /\ ht_type h = type) /\
    (StronglySorted handler_le hs -> x = None ->
      forall i h, l <= Z.of_nat i <= r -> hs !! i = Some h -> ht_type h <> type).
Proof.
  revert l r. induction n as [|n IH]; intros l r Hl Hr Hn; cbn [search_handler].
  all: case_bool_decide as Hlr; [|exists None; split; [done|split; [done|lia]]].
  { lia. }
  pose proof (Z.div_mod (l + r) 2). pose proof (Z.mod_pos_bound (l + r) 2). set (m := (l + r) / 2) in *.
  destruct (lookup_lt_is_Some_2 hs (Z.to_nat m)) as [h Hh]; [lia|]. rewrite Hh.
  unfold mbind, outcome_bind, deref.
  assert (Hcmp : StronglySorted handler_le hs -> forall i h', hs !! i = Some h' ->
    (Z.of_nat i <= m -> ht_type h' <= ht_type h) /\ (m <= Z.of_nat i -> ht_type h <= ht_type h')).
  { intros Hs i h' Hi. split; intros Him.
    - destruct (decide (i = Z.to_nat m)) as [->|]; [by simplify_eq|].
      apply (StronglySorted_lookup_lt _ _ i (Z.to_nat m) h' h Hs); [done|done|lia].
    - destruct (decide (i = Z.to_nat m)) as [->|]; [by simplify_eq|].
      apply (StronglySorted_lookup_lt _ _ (Z.to_nat m) i h h' Hs); [done|done|lia]. }
  case_bool_decide as H1; [|case_bool_decide as H2].
  - destruct (IH (m + 1) r) as (x & E & Hx & Hnone); [lia..|]. exists x. split; [done|]. split; [done|].
    intros Hs Hx0 i h' Hi Hl'. destruct (decide (m < Z.of_nat i)); [by apply (Hnone Hs Hx0 i); [lia|]|].
    destruct (Hcmp Hs i h' Hl') as [Hle _]. specialize (Hle ltac:(lia)). lia.
  - destruct (IH l (m - 1)) as (x & E & Hx & Hnone); [lia..|]. exists x. split; [done|]. split; [done|].
    intros Hs Hx0 i h' Hi Hl'. destruct (decide (Z.of_nat i < m)); [by apply (Hnone Hs Hx0 i); [lia|]|].
    destruct (Hcmp Hs i h' Hl') as [_ Hge]. specialize (Hge ltac:(lia)). lia.
  - exists (Some h). split; [done|]. split; [|done]. intros ? [= <-]. split; [by eapply list_elem_of_lookup_2|lia].
Qed.

#[export] Instance handler_le_trans : Transitive handler_le.
Proof. intros x y z. unfold handler_le. lia. Qed.
#[export] Instance handler_le_total : Total handler_le.
Proof. intros x y. unfold handler_le. lia. Qed.

Lemma sort_handlers_sorted hs : StronglySorted handler_le (sort_handlers hs).
Proof. apply (StronglySorted_merge_sort handler_le). Qed.
Lemma sort_handlers_elem hs h : h ∈ sort_handlers hs <-> h ∈ hs.
Proof. unfold sort_handlers. by rewrite (merge_sort_Permutation handler_le hs). Qed.

(** ** Request identifiers *)

Lemma fresh_request_id_eq g : 0 <= request_id g < 2 ^ 32 ->
  let '(id, g') := fresh_request_id g in
  id = wrap16 (request_id g) mod 65535 + 1 /\ wrap16 (request_id g') = id /\ 0 <= request_id g' < 2 ^ 32 /\
  exists v, g' = set_request_id v g.
Proof.
  intros Hr. unfold fresh_request_id. pose proof (wrap32_range (request_id g + 1)) as H1.
  assert (Hadd : forall z, wrap16 (wrap32 (z + 1)) = (wrap16 z + 1) mod 65536).
  { intros z. rewrite wrap16_wrap32. unfold wrap16. by rewrite Z.add_mod_idemp_l. }
  pose proof (Hadd (request_id g)) as E. pose proof (Hadd (wrap32 (request_id g + 1))) as E2.
  pose proof (wrap16_range (request_id g)) as Hw. pose proof (wrap32_range (wrap32 (request_id g + 1) + 1)).
  case_bool_decide as Hz; cbn [request_id set_request_id]; (split; [|split; [done|split; [done|by eexists]]]).
  - rewrite E2, Hz. rewrite E in Hz. assert (wrap16 (request_id g) = 65535) as ->; [|done].
    destruct (decide (wrap16 (request_id g) = 65535)); [done|]. rewrite Z.mod_small in Hz by lia. lia.
  - rewrite E in Hz |- *. destruct (decide (wrap16 (request_id g) = 65535)) as [Ew|]; [rewrite Ew in Hz; done|].
    rewrite !Z.mod_small by lia. done.
Qed.

(** The identifiers of [n] requests in a row. *)
Fixpoint request_ids (n : nat) (g : greybus) : list Z :=
  match n with
  | O => []
  | S n => let '(id, g) := fresh_request_id g in id :: request_ids n g
  end.

Lemma request_ids_lookup n g i id : 0 <= request_id g < 2 ^ 32 -> request_ids n g !! i = Some id ->
  id = (wrap16 (request_id g) + Z.of_nat i) mod 65535 + 1.
Proof.
  revert g i. induction n as [|n IH]; intros g i Hg; [done|]. cbn [request_ids].
  pose proof (fresh_request_id_eq g Hg) as Hf. destruct (fresh_request_id g) as [id0 g'].
  destruct Hf as (E0 & E1 & Hg' & _). destruct i as [|i]; simpl.
  - intros [= <-]. by rewrite Z.add_0_r.
  - intros Hi. rewrite (IH g' i Hg' Hi), E1, E0.
    replace (wrap16 (request_id g) mod 65535 + 1 + Z.of_nat i) with (wrap16 (request_id g) mod 65535 + Z.of_nat (S i)) by lia.
    by rewrite Z.add_mod_idemp_l.
Qed.

(** C33.  No request that expects a response gets identifier 0, which means "no
    response", and 65535 requests in a row get different identifiers, whatever
    the counter was: through its wrap-around too. *)
Theorem request_ids_distinct g n : 0 <= request_id g < 2 ^ 32 -> Z.of_nat n <= 65535 ->
  NoDup (request_ids n g) /\ Forall (fun id => 0 < id < 2 ^ 16) (request_ids n g).
Proof.
  intros Hg Hn. split.
  - apply NoDup_alt. intros i j id Hi Hj.
    assert (Hli : (i < length (request_ids n g))%nat) by (by eapply lookup_lt_Some).
    assert (Hlj : (j < length (request_ids n g))%nat) by (by eapply lookup_lt_Some).
    assert (Hlen : forall m g, length (request_ids m g) = m).
    { clear. intros m. induction m as [|m IH]; intros g; simpl; [done|]. destruct (fresh_request_id g). simpl. by rewrite IH. }
    rewrite Hlen in Hli, Hlj. pose proof (request_ids_lookup n g i id Hg Hi). pose proof (request_ids_lookup n g j id Hg Hj).
    assert (E : (wrap16 (request_id g) + Z.of_nat i) mod 65535 = (wrap16 (request_id g) + Z.of_nat j) mod 65535) by lia.
    pose proof (Z.div_mod (wrap16 (request_id g) + Z.of_nat i) 65535 ltac:(done)).
    pose proof (Z.div_mod (wrap16 (request_id g) + Z.of_nat j) 65535 ltac:(done)). lia.
  - apply Forall_lookup. intros i id Hi. rewrite (request_ids_lookup n g i id Hg Hi).
    pose proof (Z.mod_pos_bound (wrap16 (request_id g) + Z.of_nat i) 65535 ltac:(lia)). lia.
Qed.

(** ** Time-outs *)

Lemma has_timedout_spec current o t : time o = timespec_of t ->
  gb_operation_has_timedout current o = bool_decide (t + NSEC < current).
Proof.
  unfold gb_operation_has_timedout, timespec_of. intros ->. cbn [fst snd].
  change (TIMEOUT_IN_MS / ONE_SEC_IN_MSEC) with 1. change (TIMEOUT_IN_MS mod ONE_SEC_IN_MSEC) with 0.
  pose proof (Z.div_mod t NSEC ltac:(done)). pose proof (Z.div_mod current NSEC ltac:(done)). unfold NSEC in *.
  pose proof (Z.mod_pos_bound t 1000000000 ltac:(lia)). pose proof (Z.mod_pos_bound current 1000000000 ltac:(lia)).
  repeat case_bool_decide; try done; lia.
Qed.

(** A request is out of time exactly when more than a second of the
    monotonic clock has passed since it was sent, across the carry from
    nanoseconds to seconds. *)
Theorem timed_out_iff current o t cb :
  gb_operation_has_timedout current (op_sent o (timespec_of t) cb) = true <-> t + NSEC < current.
Proof. rewrite (has_timedout_spec current _ t) by done. by rewrite bool_decide_eq_true. Qed.

Lemma find_handler_total g type c cp d : gb_get_cport g c = Some cp -> driver cp = Some d ->
  exists r, find_operation_handler g type c = Ret r.
Proof.
  intros Hc Hd. unfold find_operation_handler, mbind, outcome_bind. rewrite Hc. cbn [deref]. rewrite Hd. cbn [deref].
  case_bool_decide; [by eexists|]. destruct (op_handlers d) as [hs|]; [|by eexists].
  destruct (search_spec (length hs) hs type 0 (Z.of_nat (length hs) - 1)) as (r & E & _); [lia..|]. by exists r.
Qed.

(** Once a driver is registered on a CPort, the search for the handler of
    an operation type always ends and finds one of the driver's handlers of
    that type, or tells that it has none; in whatever order the driver listed
    its handlers. *)
Theorem registered_handler_found g c hs n init type :
  gb_get_cport g c = None -> default 0 init = 0 -> type <> GB_INVALID_TYPE ->
  exists r, find_operation_handler (snd (gb_register_driver c (Some (mk_driver (Some hs))) n init true true g)) type c = Ret r /\
    match r with Some h => h ∈ hs /\ ht_type h = type | None => forall h, h ∈ hs -> ht_type h <> type end.
Proof.
  intros Hc Hi Ht. unfold gb_register_driver. rewrite Hc, Hi. cbn [op_handlers option_map negb].
  rewrite (bool_decide_eq_false_2 (None <> None)) by tauto. rewrite (bool_decide_eq_false_2 (Some hs = None)) by done.
  rewrite (bool_decide_eq_false_2 (0 <> 0)) by tauto. cbn [andb snd].
  unfold find_operation_handler, gb_get_cport, mbind, outcome_bind. cbn [cport_map put_cport set_cports].
  rewrite lookup_insert_eq. cbn [deref driver gb_init_cport op_handlers]. rewrite bool_decide_eq_false_2 by done.
  set (l := sort_handlers hs).
  destruct (search_spec (length l) l type 0 (Z.of_nat (length l) - 1)) as (r & E & Hsome & Hnone); [lia..|].
  exists r. split; [done|]. destruct r as [h|].
  - destruct (Hsome h eq_refl). by rewrite <- (sort_handlers_elem hs).
  - intros h Hh. rewrite <- (sort_handlers_elem hs) in Hh. apply list_elem_of_lookup in Hh as [i Hi'].
    apply (Hnone (sort_handlers_sorted hs) eq_refl i); [|done]. apply lookup_lt_Some in Hi'. fold l in Hi'. lia.
Qed.

(** A counter about to wrap, so that the identifiers go through 65535. *)
Lemma request_ids_distinct_witness :
  let g := set_request_id 65533 (gb_probe 0 0) in
  request_ids 3 g = [65534; 65535; 1] /\ NoDup (request_ids 3 g) /\ Forall (fun id => 0 < id < 2 ^ 16) (request_ids 3 g).
Proof. split; [reflexivity|]. apply (request_ids_distinct (set_request_id 65533 (gb_probe 0 0)) 3); cbn; lia. Defined.

Lemma registered_handler_found_witness :
  exists r, find_operation_handler (snd (gb_register_driver 3 (Some (mk_driver (Some [mk_handler 9 true; mk_handler 2 false])))
      2 None true true (gb_probe 0 0))) 9 3 = Ret r /\
    match r with Some h => h ∈ [mk_handler 9 true; mk_handler 2 false] /\ ht_type h = 9
    | None => forall h, h ∈ [mk_handler 9 true; mk_handler 2 false] -> ht_type h <> 9 end.
Proof. apply (registered_handler_found (gb_probe 0 0) 3 _ 2 None 9); [reflexivity|reflexivity|discriminate]. Defined.

(** ** What modelling showed *)

(** When the worker's thread cannot be made nothing is registered, and yet the
    caller gets what [init] returned, that is 0; without an [init], [retval]
    was never set. *)
Example register_without_thread :
  let d := Some (mk_driver (Some [mk_handler 9 true])) in
  gb_register_driver 3 d 1 (Some 0) true false (gb_probe 0 0) = (Some 0, gb_probe 0 0) /\
  fst (gb_register_driver 3 d 1 None true false (gb_probe 0 0)) = None.
Proof. vm_compute. split; reflexivity. Qed.

(** With memory for an operation but not for its buffer the constructor leaves
    the request buffer NULL, and [gb_operation_create] writes through it. *)
Example create_without_buffer : gb_operation_create 3 7 0 (gb_probe 1 0) = Fault.
Proof. reflexivity. Qed.

(** Nothing checks the size asked for against that of the buffers. *)
Example create_overflows_buffer : gb_operation_create 3 7 2041 (gb_probe 1 1) = Fault /\
  exists r, gb_operation_create 3 7 2040 (gb_probe 1 1) = Ret r.
Proof. split; [reflexivity|eexists; reflexivity]. Qed.

(** A request that wants no response (its identifier is 0) is answered all the
    same when no handler takes its type. *)
Example unwanted_response :
  let g := snd (gb_register_driver 3 (Some (mk_driver (Some [mk_handler 9 false]))) 1 None true true (gb_probe 1 1)) in
  (r ← gb_operation_create 3 7 0 g; g ← gb_process_request (fun _ _ => (None, 0)) true 0 (mk_hdr 8 0 7 0) (fst r) (snd r); Ret (trace g))
  = Ret [Sent 3 (mk_hdr 8 0 0x87 GB_OP_INVALID) 0].
Proof. vm_compute. reflexivity. Qed.

End Greybus.
