(* ===== verification/GreybusInv.v ===== *)
(** Safety of the Greybus core: the invariant of its operations, queues and
    buffers, and that every step of its clients, of the UniPro device, of time
    and of its workers keeps it. *)
From S2P Require Import Prelude.
From S2P Require Import Greybus.
#[local] Open Scope Z_scope.

Module GreybusInv.
Import Greybus.Greybus.

(** ** The invariant of operations

    The role of a live operation says who holds references to it: the client
    that created it ([held]) and the core while the request is outstanding
    ([InTx]) or being completed ([Completing]); the CPort's worker, for a
    received message ([queued] while it waits in the [rx_fifo], [extra] when it
    holds two); or the request [q] it answers, and still the worker ([busy]). *)
Inductive core_hold := Idle | InTx | Completing.
Inductive role := RClient (held : bool) (core : core_hold) | RReceived (queued extra : bool) | RAnswer (q : Z) (busy : bool).

Definition one (b : bool) : Z := if b then 1 else 0.
Definition core_ref (k : core_hold) : Z := match k with Idle => 0 | _ => 1 end.

Definition role_ok (g : greybus) (ro : gmap Z role) (p : Z) (o : gb_operation) (r : role) : Prop :=
  match r with
  | RClient held core =>
      ref_count o = one held + core_ref core /\ 0 < ref_count o /\
      (response o = 0 \/ (core <> InTx /\ exists busy, ro !! response o = Some (RAnswer p busy)))
  | RReceived _ extra => ref_count o = 1 + one extra /\ response o = 0
  | RAnswer q busy => ref_count o = 1 + one busy /\ response o = 0 /\
      exists oq, ops g !! q = Some oq /\ response oq = p
  end.

(** The nanoseconds of [struct timespec]. *)
Definition time_ok (o : gb_operation) : Prop := 0 <= snd (time o) < NSEC.
Definition times_ok (g : greybus) : Prop :=
  (forall p o, ops g !! p = Some o -> time_ok o) /\ forall p o, (p, o) ∈ op_cache g -> time_ok o.

Lemma times_ok_put g g' p o : times_ok g -> time_ok o -> ops g' = <[p := o]> (ops g) ->
  (forall x, x ∈ op_cache g' -> x ∈ op_cache g) -> times_ok g'.
Proof.
  intros [H1 H2] Ho E Hc. split; [|intros q x Hx; by apply (H2 q), Hc]. intros q x. rewrite E.
  intros [[_ <-]|[_ Hq]]%lookup_insert_Some; [done|by apply (H1 q)].
Qed.
Lemma times_ok_free g p o : times_ok g -> time_ok o -> times_ok (free_op p o g).
Proof.
  intros [H1 H2] Ho. split; cbn.
  - intros q x [_ Hq]%lookup_delete_Some. by apply (H1 q).
  - intros q x [[= -> ->]|Hx]%elem_of_cons; [done|by apply (H2 q)].
Qed.

Record op_inv (g : greybus) (ro : gmap Z role) : Prop := {
  oi_dom p : is_Some (ops g !! p) <-> is_Some (ro !! p);
  oi_role p o r : ops g !! p = Some o -> ro !! p = Some r -> role_ok g ro p o r;
  oi_addr p o : ops g !! p = Some o -> 0 < p < next g;
  oi_cport p o : ops g !! p = Some o -> is_Some (cport_map g !! o_cport o);
  oi_driver c cp : cport_map g !! c = Some cp -> is_Some (driver cp);
  oi_tx c cp p : cport_map g !! c = Some cp -> p ∈ tx_fifo cp ->
    exists o h, ops g !! p = Some o /\ o_cport o = c /\ ro !! p = Some (RClient h InTx);
  oi_rx c cp p : cport_map g !! c = Some cp -> RxOp p ∈ rx_fifo cp ->
    exists o, ops g !! p = Some o /\ o_cport o = c /\ ro !! p = Some (RReceived true false);
  oi_in_tx p o h cp : ops g !! p = Some o -> ro !! p = Some (RClient h InTx) ->
    cport_map g !! o_cport o = Some cp -> p ∈ tx_fifo cp;
  oi_in_rx p o cp : ops g !! p = Some o -> ro !! p = Some (RReceived true false) ->
    cport_map g !! o_cport o = Some cp -> RxOp p ∈ rx_fifo cp;
  oi_nodup c cp : cport_map g !! c = Some cp -> NoDup (tx_fifo cp) /\ NoDup (rx_fifo cp);
  oi_cache_nodup : NoDup (op_cache g).*1;
  oi_cache p o : (p, o) ∈ op_cache g -> 0 < p < next g /\ ops g !! p = None /\ response o = 0;
  oi_times : times_ok g;
}.

(** The worker's semaphore counts the entries it can take, at most [n]; an outstanding
    request is guarded by the running watchdog or by a time-out on its way to
    the worker, and the watchdog of a CPort with no request is not running. *)
Definition port_ok (n : nat) (cp : gb_cport) : Prop :=
  rx_fifo_semaphore cp = Z.of_nat (length (rx_fifo cp)) /\ (length (rx_fifo cp) <= n)%nat /\
  (tx_fifo cp <> [] -> timeout_wd cp <> None \/ RxTimeout ∈ rx_fifo cp) /\
  (tx_fifo cp = [] -> timeout_wd cp = None).
Definition port_inv (n : nat) (g : greybus) : Prop := forall c cp, cport_map g !! c = Some cp -> port_ok n cp.

(** ** The invariant of buffers: each has one owner *)
Inductive owner := OwOp (p : Z) | OwPort (c : Z) | OwFree.

(** The operations, live or cached, and their buffers. *)
Definition op_buffer (g : greybus) (p b : Z) : Prop :=
  exists o, (ops g !! p = Some o \/ (p, o) ∈ op_cache g) /\ request_buffer o = b.

Record buf_inv (g : greybus) (ow : gmap Z owner) : Prop := {
  bi_op p b : op_buffer g p b -> ow !! b = Some (OwOp p);
  bi_port c cp : cport_map g !! c = Some cp -> rx_buf cp <> 0 -> ow !! rx_buf cp = Some (OwPort c);
  bi_free b : b ∈ buf_cache g -> ow !! b = Some OwFree;
  bi_free_nodup : NoDup (buf_cache g);
  bi_buf b w : ow !! b = Some w -> is_Some (bufs g !! b) /\ 0 < b < next g;
}.
Definition has_buffers (g : greybus) : Prop := exists ow, buf_inv g ow.

(** What most steps leave alone. *)
Record frame (g g' : greybus) : Prop := {
  fr_buffers p b : op_buffer g' p b -> op_buffer g p b;
  fr_bufs b : is_Some (bufs g !! b) -> is_Some (bufs g' !! b);
  fr_ports c cp' : cport_map g' !! c = Some cp' -> exists cp, cport_map g !! c = Some cp /\ rx_buf cp' = rx_buf cp;
  fr_buf_cache : buf_cache g' = buf_cache g;
  fr_next : next g' = next g;
}.

Lemma frame_buffers g g' : frame g g' -> has_buffers g -> has_buffers g'.
Proof.
  intros [F1 F2 F3 F4 F5] [ow [B1 B2 B3 B4 B5]]. exists ow. split.
  - intros p b Hb. by apply B1, F1.
  - intros c cp' Hc Hr. destruct (F3 c cp' Hc) as (cp & Hc' & E). rewrite E in *. by apply B2.
  - rewrite F4. exact B3.
  - by rewrite F4.
  - intros b w Hw. destruct (B5 b w Hw). rewrite F5. split; [by apply F2|done].
Qed.

Lemma frame_trans g1 g2 g3 : frame g1 g2 -> frame g2 g3 -> frame g1 g3.
Proof.
  intros [A1 A2 A3 A4 A5] [B1 B2 B3 B4 B5]. split; [auto|auto| |congruence|congruence].
  intros c cp' Hc. destruct (B3 c cp' Hc) as (cp & Hc' & E). destruct (A3 c cp Hc') as (cp0 & ? & ?).
  exists cp0. split; [done|congruence].
Qed.

Lemma frame_refl g : frame g g.
Proof. split; eauto. Qed.

(** *** How single changes keep the invariant of operations *)

Lemma op_inv_grow g g' ro : ops g' = ops g -> cport_map g' = cport_map g -> op_cache g' = op_cache g -> next g <= next g' ->
  op_inv g ro -> op_inv g' ro.
Proof.
  intros E1 E2 E3 E4 [I1 I2 I3 I4 I5 I6 I7 I8 I9 I10 I11 I12 I13].
  split; rewrite ?E1, ?E2, ?E3; try assumption.
  - intros p o r Hp Hr. specialize (I2 p o r Hp Hr). unfold role_ok in *. by rewrite E1.
  - intros p o Hp. specialize (I3 p o Hp). lia.
  - intros p o Hp. destruct (I12 p o Hp) as (? & ? & ?). split; [lia|done].
  - unfold times_ok. by rewrite E1, E3.
Qed.

Lemma op_inv_same g g' ro : ops g' = ops g -> cport_map g' = cport_map g -> op_cache g' = op_cache g -> next g' = next g ->
  op_inv g ro -> op_inv g' ro.
Proof. intros E1 E2 E3 E4. apply op_inv_grow; [done..|lia]. Qed.

Definition in_tx (r : role) : bool := match r with RClient _ InTx => true | _ => false end.
Definition in_rx (r : role) : bool := match r with RReceived true false => true | _ => false end.
(** A change of role that keeps who is answered. *)
Definition same_answer (r r' : role) : Prop := forall q busy, r = RAnswer q busy -> exists busy', r' = RAnswer q busy'.

Lemma role_ok_other g g' ro p o' r r' q o rq : op_inv g ro ->
  (forall k, k <> p -> ops g' !! k = ops g !! k) -> ops g' !! p = Some o' ->
  (exists o, ops g !! p = Some o /\ (response o' = response o \/ response o = 0)) ->
  ro !! p = Some r -> same_answer r r' ->
  q <> p -> ops g !! q = Some o -> ro !! q = Some rq -> role_ok g' (<[p := r']> ro) q o rq.
Proof.
  intros I Hg' Ho' (op & Hop & Hresp) Hp Hans Hq Ho Hrq. pose proof (oi_role _ _ I q o rq Ho Hrq) as Hok.
  destruct rq as [held core|queued extra|q' busy]; unfold role_ok in *.
  - destruct Hok as (? & ? & Hr). split; [done|]. split; [done|]. destruct Hr as [?|(? & busy & Hb)]; [by left|].
    right. split; [done|]. destruct (decide (response o = p)) as [E|E].
    + rewrite E in Hb |- *. rewrite Hp in Hb. injection Hb as ->. destruct (Hans q busy eq_refl) as [busy' ->].
      exists busy'. by rewrite lookup_insert_eq.
    + exists busy. by rewrite lookup_insert_ne.
  - exact Hok.
  - destruct Hok as (? & ? & oq & Hoq & Er). split; [done|]. split; [done|].
    destruct (decide (q' = p)) as [->|Hne].
    + exists o'. split; [done|]. rewrite Hop in Hoq. injection Hoq as ->.
      destruct Hresp as [E|E]; [congruence|]. exfalso. pose proof (oi_addr _ _ I q o Ho). lia.
    + exists oq. by rewrite Hg'.
Qed.

#[local] Hint Extern 0 (_ = _ \/ time_ok _) => left; reflexivity : core.

(** An operation changes, and its role with it. *)
Lemma put_op_ok g ro p o o' r r' : op_inv g ro -> ops g !! p = Some o -> ro !! p = Some r -> o_cport o' = o_cport o ->
  in_tx r' = in_tx r -> in_rx r' = in_rx r -> same_answer r r' ->
  response o' = response o \/ response o = 0 -> time o' = time o \/ time_ok o' ->
  role_ok (put_op p o' g) (<[p := r']> ro) p o' r' -> op_inv (put_op p o' g) (<[p := r']> ro).
Proof.
  intros I Hp Hr Hc Htx Hrx Hans Hresp Ht Hok.
  pose proof (role_ok_other g (put_op p o' g) ro p o' r r') as Hother.
  split; cbn [ops cport_map op_cache next put_op set_ops].
  - intros q. destruct (decide (q = p)) as [->|]; [rewrite !lookup_insert_eq; split; eauto|].
    rewrite !lookup_insert_ne by done. apply (oi_dom _ _ I).
  - intros q oq rq. destruct (decide (q = p)) as [->|]; [rewrite !lookup_insert_eq; intros [= <-] [= <-]; exact Hok|].
    rewrite !lookup_insert_ne by done. intros Hq Hrq. apply (Hother q oq rq I); try done.
    + intros k ?. cbn. by rewrite lookup_insert_ne.
    + cbn. by rewrite lookup_insert_eq.
    + by exists o.
  - intros q oq. destruct (decide (q = p)) as [->|]; [rewrite lookup_insert_eq; intros _; by apply (oi_addr _ _ I p o)|].
    rewrite lookup_insert_ne by done. apply (oi_addr _ _ I).
  - intros q oq. destruct (decide (q = p)) as [->|].
    + rewrite lookup_insert_eq; intros [= <-]. rewrite Hc. by apply (oi_cport _ _ I p).
    + rewrite lookup_insert_ne by done. apply (oi_cport _ _ I).
  - apply (oi_driver _ _ I).
  - intros c cp q Hcp Hq. destruct (oi_tx _ _ I c cp q Hcp Hq) as (oq & h & H1 & H2 & H3).
    destruct (decide (q = p)) as [->|].
    + rewrite !lookup_insert_eq. simplify_eq. simpl in Htx. destruct r' as [h' []| |]; try done. by exists o', h'.
    + rewrite !lookup_insert_ne by done. eauto.
  - intros c cp q Hcp Hq. destruct (oi_rx _ _ I c cp q Hcp Hq) as (oq & H1 & H2 & H3).
    destruct (decide (q = p)) as [->|].
    + rewrite !lookup_insert_eq. simplify_eq. simpl in Hrx. destruct r' as [|[] []|]; try done. by exists o'.
    + rewrite !lookup_insert_ne by done. eauto.
  - intros q oq h cp. destruct (decide (q = p)) as [->|].
    + rewrite !lookup_insert_eq. intros [= <-] [= ->]. rewrite Hc. simpl in Htx.
      destruct r as [h0 []| |]; try done. by apply (oi_in_tx _ _ I p o h0).
    + rewrite !lookup_insert_ne by done. apply (oi_in_tx _ _ I).
  - intros q oq cp. destruct (decide (q = p)) as [->|].
    + rewrite !lookup_insert_eq. intros [= <-] [= ->]. rewrite Hc. simpl in Hrx.
      destruct r as [|[] []|]; try done. by apply (oi_in_rx _ _ I p o).
    + rewrite !lookup_insert_ne by done. apply (oi_in_rx _ _ I).
  - apply (oi_nodup _ _ I).
  - apply (oi_cache_nodup _ _ I).
  - intros q oq Hq. destruct (oi_cache _ _ I q oq Hq) as (? & ? & ?). split; [done|]. split; [|done].
    rewrite lookup_insert_ne; [done|congruence].
  - apply (times_ok_put g _ p o' (oi_times _ _ I)); try done.
    destruct Ht as [Ht|?]; [|done]. unfold time_ok. rewrite Ht. by apply (oi_times _ _ I) in Hp.
Qed.

(** A CPort changes, and with it the role of one operation at most. *)
Lemma put_cport_role g ro c cp cp' p o r r' : op_inv g ro -> cport_map g !! c = Some cp -> ops g !! p = Some o ->
  o_cport o = c -> ro !! p = Some r -> is_Some (driver cp') -> NoDup (tx_fifo cp') -> NoDup (rx_fifo cp') ->
  (forall q, q <> p -> q ∈ tx_fifo cp' <-> q ∈ tx_fifo cp) -> (p ∈ tx_fifo cp' <-> in_tx r' = true) ->
  (forall q, q <> p -> RxOp q ∈ rx_fifo cp' <-> RxOp q ∈ rx_fifo cp) -> (RxOp p ∈ rx_fifo cp' <-> in_rx r' = true) ->
  same_answer r r' -> role_ok g (<[p := r']> ro) p o r' -> op_inv (put_cport c cp' g) (<[p := r']> ro).
Proof.
  intros I Hcp Hp Hoc Hr Hd Hn1 Hn2 Htx Hptx Hrx Hprx Hans Hok.
  split; cbn [ops cport_map op_cache next put_cport set_cports].
  - intros q. destruct (decide (q = p)) as [->|]; [rewrite lookup_insert_eq, Hp; split; eauto|].
    rewrite lookup_insert_ne by done. apply (oi_dom _ _ I).
  - intros q oq rq Hq. destruct (decide (q = p)) as [->|].
    + rewrite lookup_insert_eq; intros [= <-]. by simplify_eq.
    + rewrite lookup_insert_ne by done. intros Hrq.
      apply (role_ok_other g _ ro p o r r' q oq rq I); try done. exists o. split; [done|by left].
  - apply (oi_addr _ _ I).
  - intros q oq Hq. destruct (decide (o_cport oq = c)) as [->|]; [rewrite lookup_insert_eq; eauto|].
    rewrite lookup_insert_ne by done. by apply (oi_cport _ _ I q).
  - intros c' cp0. destruct (decide (c' = c)) as [->|]; [rewrite lookup_insert_eq; by intros [= <-]|].
    rewrite lookup_insert_ne by done. apply (oi_driver _ _ I).
  - intros c' cp0 q. destruct (decide (c' = c)) as [->|].
    + rewrite lookup_insert_eq; intros [= <-] Hq. destruct (decide (q = p)) as [->|].
      * apply Hptx in Hq. destruct r' as [h []| |]; try done. rewrite lookup_insert_eq. eauto.
      * rewrite lookup_insert_ne by done. apply (oi_tx _ _ I c cp); [done|]. by apply Htx.
    + rewrite lookup_insert_ne by done. intros Hc' Hq. destruct (oi_tx _ _ I c' cp0 q Hc' Hq) as (oq & h & H1 & H2 & H3).
      rewrite lookup_insert_ne; [eauto|congruence].
  - intros c' cp0 q. destruct (decide (c' = c)) as [->|].
    + rewrite lookup_insert_eq; intros [= <-] Hq. destruct (decide (q = p)) as [->|].
      * apply Hprx in Hq. destruct r' as [|[] []|]; try done. rewrite lookup_insert_eq. eauto.
      * rewrite lookup_insert_ne by done. apply (oi_rx _ _ I c cp); [done|]. by apply Hrx.
    + rewrite lookup_insert_ne by done. intros Hc' Hq. destruct (oi_rx _ _ I c' cp0 q Hc' Hq) as (oq & H1 & H2 & H3).
      rewrite lookup_insert_ne; [eauto|congruence].
  - intros q oq h cp0 Hq. destruct (decide (q = p)) as [->|].
    + rewrite lookup_insert_eq. intros [= ->]. simplify_eq. rewrite lookup_insert_eq. intros [= <-]. by apply Hptx.
    + rewrite lookup_insert_ne by done. intros Hrq. destruct (decide (o_cport oq = c)) as [E|].
      * rewrite E, lookup_insert_eq. intros [= <-]. apply Htx; [done|]. apply (oi_in_tx _ _ I q oq h); [done..|by rewrite E].
      * rewrite lookup_insert_ne by done. by apply (oi_in_tx _ _ I q oq h).
  - intros q oq cp0 Hq. destruct (decide (q = p)) as [->|].
    + rewrite lookup_insert_eq. intros [= ->]. simplify_eq. rewrite lookup_insert_eq. intros [= <-]. by apply Hprx.
    + rewrite lookup_insert_ne by done. intros Hrq. destruct (decide (o_cport oq = c)) as [E|].
      * rewrite E, lookup_insert_eq. intros [= <-]. apply Hrx; [done|]. apply (oi_in_rx _ _ I q oq); [done..|by rewrite E].
      * rewrite lookup_insert_ne by done. by apply (oi_in_rx _ _ I q oq).
  - intros c' cp0. destruct (decide (c' = c)) as [->|]; [rewrite lookup_insert_eq; by intros [= <-]|].
    rewrite lookup_insert_ne by done. apply (oi_nodup _ _ I).
  - apply (oi_cache_nodup _ _ I).
  - apply (oi_cache _ _ I).
  - apply (oi_times _ _ I).
Qed.

Lemma put_cport_same g ro c cp cp' : op_inv g ro -> cport_map g !! c = Some cp -> is_Some (driver cp') ->
  NoDup (rx_fifo cp') -> tx_fifo cp' = tx_fifo cp -> (forall q, RxOp q ∈ rx_fifo cp' <-> RxOp q ∈ rx_fifo cp) ->
  op_inv (put_cport c cp' g) ro.
Proof.
  intros I Hcp Hd Hn Htx Hrx. split; cbn [ops cport_map op_cache next put_cport set_cports]; try apply I.
  - intros q oq Hq. destruct (decide (o_cport oq = c)) as [->|]; [rewrite lookup_insert_eq; eauto|].
    rewrite lookup_insert_ne by done. by apply (oi_cport _ _ I q).
  - intros c' cp0. destruct (decide (c' = c)) as [->|]; [rewrite lookup_insert_eq; by intros [= <-]|].
    rewrite lookup_insert_ne by done. apply (oi_driver _ _ I).
  - intros c' cp0 q. destruct (decide (c' = c)) as [->|].
    + rewrite lookup_insert_eq; intros [= <-]. rewrite Htx. by apply (oi_tx _ _ I).
    + rewrite lookup_insert_ne by done. by apply (oi_tx _ _ I).
  - intros c' cp0 q. destruct (decide (c' = c)) as [->|].
    + rewrite lookup_insert_eq; intros [= <-]. rewrite Hrx. by apply (oi_rx _ _ I).
    + rewrite lookup_insert_ne by done. by apply (oi_rx _ _ I).
  - intros q oq h cp0 Hq Hrq. destruct (decide (o_cport oq = c)) as [E|].
    + rewrite E, lookup_insert_eq. intros [= <-]. rewrite Htx. apply (oi_in_tx _ _ I q oq h); [done..|by rewrite E].
    + rewrite lookup_insert_ne by done. by apply (oi_in_tx _ _ I q oq h).
  - intros q oq cp0 Hq Hrq. destruct (decide (o_cport oq = c)) as [E|].
    + rewrite E, lookup_insert_eq. intros [= <-]. rewrite Hrx. apply (oi_in_rx _ _ I q oq); [done..|by rewrite E].
    + rewrite lookup_insert_ne by done. by apply (oi_in_rx _ _ I q oq).
  - intros c' cp0. destruct (decide (c' = c)) as [->|]; [rewrite lookup_insert_eq|rewrite lookup_insert_ne by done; apply (oi_nodup _ _ I)].
    intros [= <-]. rewrite Htx. split; [by apply (oi_nodup _ _ I c cp)|done].
Qed.

(** An operation nobody refers to any more goes back to the cache. *)
Lemma free_op_ok g ro p o x r : op_inv g ro -> ops g !! p = Some o -> ro !! p = Some r ->
  in_tx r = false -> in_rx r = false -> (forall q busy, r <> RAnswer q busy) -> response o = 0 -> response x = 0 -> time_ok x ->
  op_inv (free_op p x g) (delete p ro).
Proof.
  intros I Hp Hr Htx Hrx Hans Hresp Hx Ht.
  assert (Hne : forall q oq s, ops g !! q = Some oq -> ro !! q = Some s -> in_tx s = true \/ in_rx s = true -> q <> p).
  { intros q oq s _ Hs Hin ->. rewrite Hr in Hs. injection Hs as ->. destruct Hin; congruence. }
  split; cbn [ops cport_map op_cache next free_op set_op_cache set_ops]; try apply I.
  - intros q. destruct (decide (q = p)) as [->|]; [rewrite !lookup_delete_eq; split; by intros [? ?]|].
    rewrite !lookup_delete_ne by done. apply (oi_dom _ _ I).
  - intros q oq rq. destruct (decide (q = p)) as [->|]; [by rewrite lookup_delete_eq|].
    rewrite !lookup_delete_ne by done. intros Hq Hrq. pose proof (oi_role _ _ I q oq rq Hq Hrq) as Hok.
    destruct rq as [held core|queued extra|q' busy]; unfold role_ok in *; cbn [ops free_op set_op_cache set_ops].
    + destruct Hok as (? & ? & [?|(? & busy & Hb)]); (split; [done|]; split; [done|]); [by left|]. right. split; [done|].
      exists busy. rewrite lookup_delete_ne; [done|]. intros E. rewrite <- E, Hr in Hb. injection Hb as ->. by apply (Hans q busy).
    + done.
    + destruct Hok as (? & ? & oq' & Hoq' & E). split; [done|]. split; [done|]. exists oq'. rewrite lookup_delete_ne; [done|].
      intros E'. rewrite <- E', Hp in Hoq'. injection Hoq' as <-. pose proof (oi_addr _ _ I _ _ Hq). lia.
  - intros q oq. destruct (decide (q = p)) as [->|]; [by rewrite lookup_delete_eq|]. rewrite lookup_delete_ne by done. apply (oi_addr _ _ I).
  - intros q oq. destruct (decide (q = p)) as [->|]; [by rewrite lookup_delete_eq|]. rewrite lookup_delete_ne by done. apply (oi_cport _ _ I).
  - intros c cp q Hc Hq. destruct (oi_tx _ _ I c cp q Hc Hq) as (oq & h & H1 & H2 & H3).
    assert (q <> p) by (eapply Hne; [done..|by left]). exists oq, h. by rewrite !lookup_delete_ne.
  - intros c cp q Hc Hq. destruct (oi_rx _ _ I c cp q Hc Hq) as (oq & H1 & H2 & H3).
    assert (q <> p) by (eapply Hne; [done..|by right]). exists oq. by rewrite !lookup_delete_ne.
  - intros q oq h cp. destruct (decide (q = p)) as [->|]; [by rewrite lookup_delete_eq|]. rewrite !lookup_delete_ne by done. apply (oi_in_tx _ _ I).
  - intros q oq cp. destruct (decide (q = p)) as [->|]; [by rewrite lookup_delete_eq|]. rewrite !lookup_delete_ne by done. apply (oi_in_rx _ _ I).
  - rewrite fmap_cons. apply NoDup_cons. split; [|apply (oi_cache_nodup _ _ I)].
    intros Hin. apply list_elem_of_fmap in Hin as ([p' o'] & E & Hin). simpl in E. subst p'.
    destruct (oi_cache _ _ I p o' Hin) as (_ & ? & _). congruence.
  - intros q oq. rewrite elem_of_cons. intros [E|Hin].
    + injection E as -> ->. split; [by apply (oi_addr _ _ I p o)|]. by rewrite lookup_delete_eq.
    + destruct (oi_cache _ _ I q oq Hin) as (? & Hn & ?). split; [done|]. split; [|done].
      destruct (decide (q = p)) as [->|]; [by rewrite lookup_delete_eq|]. by rewrite lookup_delete_ne.
  - apply (times_ok_free g p x); [apply (oi_times _ _ I)|done].
Qed.

(** The request [q] gets another response field, and [p] another role off the
    queues; only [p] can have been an answer to [q]. *)
Lemma relink_ok g ro p q op oq rp rp' held core v : op_inv g ro -> ops g !! p = Some op -> ops g !! q = Some oq ->
  ro !! p = Some rp -> ro !! q = Some (RClient held core) -> core <> InTx ->
  (match rp, rp' with RReceived false _, RAnswer q' _ | RAnswer q' _, RReceived false _ => q' = q | _, _ => False end) ->
  (forall k busy, ro !! k = Some (RAnswer q busy) -> k = p) ->
  role_ok (put_op q (op_response oq v) g) (<[p := rp']> ro) p op rp' ->
  role_ok (put_op q (op_response oq v) g) (<[p := rp']> ro) q (op_response oq v) (RClient held core) ->
  op_inv (put_op q (op_response oq v) g) (<[p := rp']> ro).
Proof.
  intros I Hp Hq Hrp Hrq Hcore Hsh Honly Hokp Hokq.
  assert (Hpq : p <> q) by (intros ->; rewrite Hrp in Hrq; injection Hrq as ->; done).
  assert (Hoff : forall k ok s, ops g !! k = Some ok -> ro !! k = Some s -> in_tx s = true \/ in_rx s = true -> k <> p /\ k <> q).
  { intros k ok s _ Hs Hin. split; intros E; rewrite E in Hs.
    - assert (s = rp) as -> by congruence. destruct rp as [|[]|]; by destruct Hin.
    - assert (s = RClient held core) as -> by congruence. destruct core; by destruct Hin. }
  split; cbn [ops cport_map op_cache next put_op set_ops]; try apply I.
  - intros k. rewrite !lookup_insert_is_Some'. pose proof (oi_dom _ _ I k) as Hd.
    split; (intros [<-|?]; [right; eauto|right; by apply Hd]).
  - intros k ok rk. destruct (decide (k = p)) as [->|Hkp].
    { rewrite lookup_insert_eq, lookup_insert_ne, Hp by done. by intros [= <-] [= <-]. }
    rewrite (lookup_insert_ne ro) by done. destruct (decide (k = q)) as [->|Hkq].
    { rewrite lookup_insert_eq, Hrq. by intros [= <-] [= <-]. }
    rewrite lookup_insert_ne by done. intros Hk Hrk. pose proof (oi_role _ _ I k ok rk Hk Hrk) as Hok.
    destruct rk as [h0 c0|qu ex|q' b']; unfold role_ok in *; [|done|].
    + destruct Hok as (? & ? & [?|(? & b & Hb)]); (split; [done|]; split; [done|]); [by left|]. right. split; [done|].
      exists b. rewrite lookup_insert_ne; [done|]. intros E. rewrite <- E, Hrp in Hb. injection Hb as ->.
      destruct rp' as [|[]|]; try done.
    + destruct Hok as (? & ? & o' & Ho' & E). split; [done|]. split; [done|]. cbn [ops put_op set_ops].
      destruct (decide (q' = q)) as [->|]; [|exists o'; by rewrite lookup_insert_ne]. by destruct (Hkp (Honly _ _ Hrk)).
  - intros k ok. destruct (decide (k = q)) as [->|]; [rewrite lookup_insert_eq; intros _; by apply (oi_addr _ _ I q oq)|].
    rewrite lookup_insert_ne by done. apply (oi_addr _ _ I).
  - intros k ok. destruct (decide (k = q)) as [->|]; [rewrite lookup_insert_eq; intros [= <-]; exact (oi_cport _ _ I q oq Hq)|].
    rewrite lookup_insert_ne by done. apply (oi_cport _ _ I).
  - intros c cp k Hc Hk. destruct (oi_tx _ _ I c cp k Hc Hk) as (ok & h & H1 & H2 & H3).
    destruct (Hoff k ok _ H1 H3 (or_introl eq_refl)). exists ok, h. by rewrite !lookup_insert_ne.
  - intros c cp k Hc Hk. destruct (oi_rx _ _ I c cp k Hc Hk) as (ok & H1 & H2 & H3).
    destruct (Hoff k ok _ H1 H3 (or_intror eq_refl)). exists ok. by rewrite !lookup_insert_ne.
  - intros k ok h cp. destruct (decide (k = p)) as [->|]; [rewrite lookup_insert_eq; intros _ [= ->]; by destruct rp as [|[]|]|].
    rewrite (lookup_insert_ne ro) by done. destruct (decide (k = q)) as [->|]; [congruence|].
    rewrite lookup_insert_ne by done. apply (oi_in_tx _ _ I).
  - intros k ok cp. destruct (decide (k = p)) as [->|]; [rewrite lookup_insert_eq; intros _ [= ->]; by destruct rp as [|[]|]|].
    rewrite (lookup_insert_ne ro) by done. destruct (decide (k = q)) as [->|]; [congruence|].
    rewrite lookup_insert_ne by done. apply (oi_in_rx _ _ I).
  - intros k ok Hk. destruct (oi_cache _ _ I k ok Hk) as (? & ? & ?). split; [done|]. split; [|done].
    rewrite lookup_insert_ne; [done|congruence].
  - apply (times_ok_put g _ q (op_response oq v) (oi_times _ _ I)); try done. exact (proj1 (oi_times _ _ I) q oq Hq).
Qed.

(** What a client's request answers to is its response field. *)
Lemma answer_is_response g ro q oq k busy : op_inv g ro -> ops g !! q = Some oq -> ro !! k = Some (RAnswer q busy) ->
  response oq = k /\ k <> 0.
Proof.
  intros I Hq Hk. destruct (proj2 (oi_dom _ _ I k) (ex_intro _ _ Hk)) as [ok Hok].
  destruct (oi_role _ _ I k ok _ Hok Hk) as (_ & _ & o & Ho & E). simplify_eq. pose proof (oi_addr _ _ I _ _ Hok).
  split; [done|]. lia.
Qed.

(** The request [q] gets its response [p], and loses it. *)
Lemma attach_ok g ro p q op oq busy held core : op_inv g ro -> ops g !! p = Some op -> ops g !! q = Some oq ->
  ro !! p = Some (RReceived false busy) -> ro !! q = Some (RClient held core) -> core <> InTx -> response oq = 0 ->
  op_inv (put_op q (op_response oq p) g) (<[p := RAnswer q busy]> ro).
Proof.
  intros I Hp Hq Hrp Hrq Hcore Hresp. destruct (oi_role _ _ I p op _ Hp Hrp) as [Href Hrespp].
  destruct (oi_role _ _ I q oq _ Hq Hrq) as (Hrefq & Hposq & _).
  apply (relink_ok g ro p q op oq (RReceived false busy) _ held core p); try done.
  - intros k b Hk. destruct (answer_is_response g ro q oq k b I Hq Hk). congruence.
  - split; [done|]. split; [done|]. exists (op_response oq p). cbn. by rewrite lookup_insert_eq.
  - split; [done|]. split; [done|]. right. split; [done|]. exists busy. by rewrite lookup_insert_eq.
Qed.

Lemma detach_ok g ro p q op oq busy held core : op_inv g ro -> ops g !! p = Some op -> ops g !! q = Some oq ->
  ro !! p = Some (RAnswer q busy) -> ro !! q = Some (RClient held core) -> core <> InTx -> response oq = p ->
  op_inv (put_op q (op_response oq 0) g) (<[p := RReceived false busy]> ro).
Proof.
  intros I Hp Hq Hrp Hrq Hcore Hresp. destruct (oi_role _ _ I p op _ Hp Hrp) as (Href & Hrespp & _).
  destruct (oi_role _ _ I q oq _ Hq Hrq) as (Hrefq & Hposq & _).
  apply (relink_ok g ro p q op oq (RAnswer q busy) _ held core 0); try done.
  - intros k b Hk. destruct (answer_is_response g ro q oq k b I Hq Hk). congruence.
  - split; [done|]. split; [done|]. by left.
Qed.

(** *** Dropping references *)

(** Only operations changed, and none got another buffer. *)
Record only_ops (g g' : greybus) : Prop := {
  oo_buffers p b : op_buffer g' p b -> op_buffer g p b;
  oo_bufs : bufs g' = bufs g;
  oo_slab : slab_bufs g' = slab_bufs g;
  oo_buf_cache : buf_cache g' = buf_cache g;
  oo_cports : cport_map g' = cport_map g;
  oo_id : request_id g' = request_id g;
  oo_now : now g' = now g;
  oo_trace : trace g' = trace g;
  oo_next : next g' = next g;
  oo_left : ops_left g' = ops_left g /\ bufs_left g' = bufs_left g;
}.

Lemma only_ops_trans g1 g2 g3 : only_ops g1 g2 -> only_ops g2 g3 -> only_ops g1 g3.
Proof. intros [] []. split; try congruence; [auto|]. intuition congruence. Qed.

Lemma only_ops_frame g g' : only_ops g g' -> frame g g'.
Proof.
  intros [H1 H2 H3 H4 H5 H6 H7 H8 H9 H10]. split; [done|by rewrite H2| |done|done].
  intros c cp'. rewrite H5. eauto.
Qed.

Lemma put_op_only g p o o' : ops g !! p = Some o -> request_buffer o' = request_buffer o -> only_ops g (put_op p o' g).
Proof.
  intros Hp Hb. split; try done. intros q b (oq & [Hq|Hq] & E); [|by exists oq; split; [right|]].
  cbn in Hq. destruct (decide (q = p)) as [->|].
  - rewrite lookup_insert_eq in Hq. injection Hq as <-. exists o. split; [by left|congruence].
  - rewrite lookup_insert_ne in Hq by done. exists oq. split; [by left|done].
Qed.

Lemma free_op_only g p o x : ops g !! p = Some o -> request_buffer x = request_buffer o -> only_ops g (free_op p x g).
Proof.
  intros Hp Hb. split; try done. intros q b (oq & [Hq|Hq] & E); cbn in Hq.
  - destruct (decide (q = p)) as [->|]; [by rewrite lookup_delete_eq in Hq|].
    rewrite lookup_delete_ne in Hq by done. exists oq. split; [by left|done].
  - apply elem_of_cons in Hq as [Hq|Hq]; [|by exists oq; split; [right|]].
    injection Hq as -> ->. exists o. split; [by left|congruence].
Qed.

(** The operation as the cache gets it, and the last reference dropped or not. *)
Definition spent (o : gb_operation) : gb_operation := op_response (op_reply (op_refs o 0) None) 0.
Definition drop_op (p : Z) (o : gb_operation) (g : greybus) : greybus :=
  if bool_decide (ref_count o = 1) then free_op p (spent o) g else put_op p (op_refs o (ref_count o - 1)) g.

Lemma drop_op_other p o g k : k <> p -> ops (drop_op p o g) !! k = ops g !! k.
Proof. intros Hk. unfold drop_op. case_bool_decide; cbn; [by rewrite lookup_delete_ne|by rewrite lookup_insert_ne]. Qed.

Lemma drop_op_only g p o : ops g !! p = Some o -> only_ops g (drop_op p o g).
Proof. intros Hp. unfold drop_op. case_bool_decide; [by eapply free_op_only|by eapply put_op_only]. Qed.

Lemma free_put p x o g : free_op p x (put_op p o g) = free_op p x g.
Proof. unfold free_op, put_op, set_op_cache, set_ops. cbn. by rewrite delete_insert_eq. Qed.

Lemma free_drop_put p x o q oq g : p <> q -> free_op p x (drop_op q oq (put_op p o g)) = free_op p x (drop_op q oq g).
Proof.
  intros Hne. unfold drop_op. case_bool_decide; unfold free_op, put_op, set_op_cache, set_ops; cbn; f_equal.
  - rewrite !(delete_delete _ p q). by rewrite delete_insert_eq.
  - rewrite (insert_insert_ne _ q p) by done. by rewrite delete_insert_eq.
Qed.

Lemma unref_leaf n p o g : ops g !! p = Some o -> p <> 0 -> 0 < ref_count o < 2 ^ 32 -> response o = 0 ->
  gb_operation_unref_n n p g = Ret (drop_op p o g).
Proof.
  intros Hp H0 Href Hresp. unfold drop_op. destruct n; cbn [gb_operation_unref_n]; rewrite bool_decide_eq_false_2 by done.
  all: unfold mbind, outcome_bind, get_op; rewrite Hp; cbn [deref]; rewrite bool_decide_eq_false_2 by lia.
  all: rewrite wrap32_small by lia; case_bool_decide as E1.
  all: rewrite ?(bool_decide_eq_false_2 (ref_count o = 1)) by lia; try done.
  all: rewrite (bool_decide_eq_true_2 (response o = 0)), (bool_decide_eq_true_2 (ref_count o = 1)) by lia.
  all: cbn [ops put_op set_ops]; rewrite lookup_insert_eq; cbn [deref]; rewrite free_put; unfold spent.
  all: by replace (ref_count o - 1) with 0 by lia.
Qed.

Lemma unref_chain n p o r or g : ops g !! p = Some o -> p <> 0 -> ref_count o = 1 -> response o = r -> r <> 0 -> r <> p ->
  ops g !! r = Some or -> 0 < ref_count or < 2 ^ 32 -> response or = 0 ->
  gb_operation_unref_n (S n) p g = Ret (free_op p (spent o) (drop_op r or g)).
Proof.
  intros Hp H0 Href Hresp Hr Hrp Hor Hrefr Hrespr. cbn [gb_operation_unref_n]. rewrite bool_decide_eq_false_2 by done.
  unfold mbind, outcome_bind, get_op. rewrite Hp. cbn [deref]. rewrite bool_decide_eq_false_2 by lia. rewrite Href.
  change (wrap32 (1 - 1)) with 0. rewrite (bool_decide_eq_false_2 (0 <> 0)) by tauto. rewrite Hresp, bool_decide_eq_false_2 by done.
  set (o1 := op_reply (op_refs o 0) None).
  rewrite (unref_leaf n r or) by (try done; cbn; by rewrite lookup_insert_ne).
  assert (E : ops (drop_op r or (put_op p o1 g)) !! p = Some o1).
  { unfold drop_op. case_bool_decide; cbn; [rewrite lookup_delete_ne by done|rewrite lookup_insert_ne by done]; apply lookup_insert_eq. }
  rewrite E. cbn [deref]. unfold spent. fold o1. by rewrite free_drop_put.
Qed.

(** *** Dropping a reference keeps the invariant *)

(** A received message loses a reference of the worker. *)
Lemma drop_received_ok g ro p o extra : op_inv g ro -> ops g !! p = Some o -> ro !! p = Some (RReceived false extra) ->
  op_inv (drop_op p o g) (if extra then <[p := RReceived false false]> ro else delete p ro).
Proof.
  intros I Hp Hr. destruct (oi_role _ _ I p o _ Hp Hr) as [Href Hresp]. unfold drop_op. destruct extra; simpl in Href.
  - rewrite bool_decide_eq_false_2 by lia.
    apply (put_op_ok g ro p o _ (RReceived false true)); try done; [by left|]. split; [|done]. simpl. lia.
  - rewrite bool_decide_eq_true_2 by lia. apply (free_op_ok g ro p o _ (RReceived false false)); try done. exact (proj1 (oi_times _ _ I) p o Hp).
Qed.

(** So does the answer of a request. *)
Lemma drop_answer_ok g ro p o q : op_inv g ro -> ops g !! p = Some o -> ro !! p = Some (RAnswer q true) ->
  op_inv (drop_op p o g) (<[p := RAnswer q false]> ro).
Proof.
  intros I Hp Hr. destruct (oi_role _ _ I p o _ Hp Hr) as (Href & Hresp & oq & Hoq & E). unfold drop_op. simpl in Href.
  pose proof (oi_addr _ _ I p o Hp).
  rewrite bool_decide_eq_false_2 by lia. apply (put_op_ok g ro p o _ (RAnswer q true)); try done; [|by left|].
  - intros ? ? [= <- <-]. by eexists.
  - split; [simpl; lia|]. split; [done|]. cbn [ops put_op set_ops]. destruct (decide (q = p)) as [->|].
    + simplify_eq. lia.
    + exists oq. by rewrite lookup_insert_ne.
Qed.

(** Whether a request with these references is still there. *)
Definition survives (held : bool) (core : core_hold) : bool := held || bool_decide (core_ref core <> 0).

(** The roles after a request lost a reference. *)
Definition roles_after (ro : gmap Z role) (q r : Z) (held : bool) (core : core_hold) : gmap Z role :=
  if survives held core then <[q := RClient held core]> ro
  else delete q (match ro !! r with
                 | Some (RAnswer _ true) => <[r := RReceived false false]> ro
                 | Some (RAnswer _ false) => delete r ro
                 | _ => ro
                 end).

Lemma only_ops_refl g : only_ops g g.
Proof. by split. Qed.

Lemma unref_survivor g ro q oq held core held' core' n : op_inv g ro -> ops g !! q = Some oq ->
  ro !! q = Some (RClient held core) -> one held + core_ref core = one held' + core_ref core' + 1 ->
  in_tx (RClient held' core') = in_tx (RClient held core) -> survives held' core' = true ->
  gb_operation_unref_n n q g = Ret (put_op q (op_refs oq (ref_count oq - 1)) g) /\
  op_inv (put_op q (op_refs oq (ref_count oq - 1)) g) (<[q := RClient held' core']> ro).
Proof.
  intros I Hq Hr Hone Htx Hs. destruct (oi_role _ _ I q oq _ Hq Hr) as (Href & Hpos & Hresp).
  pose proof (oi_addr _ _ I q oq Hq). assert (Hb : ref_count oq = 2 /\ (held' = true -> core' = Idle)).
  { unfold survives in Hs. destruct held, held', core, core'; simpl in *; try lia; try done. }
  split.
  - destruct n; cbn [gb_operation_unref_n]; rewrite bool_decide_eq_false_2 by lia; unfold mbind, outcome_bind, get_op; rewrite Hq.
    all: cbn [deref]; rewrite bool_decide_eq_false_2 by lia; rewrite wrap32_small by lia.
    all: by rewrite bool_decide_eq_true_2 by lia.
  - apply (put_op_ok g ro q oq _ (RClient held core)); try done; [by left|]. unfold role_ok. cbn [ref_count op_refs response].
    split; [lia|]. split; [lia|]. destruct Hresp as [?|(Hc & busy & Hb')]; [by left|]. right. split.
    + destruct core', core; done.
    + exists busy. rewrite lookup_insert_ne; [done|]. intros E. rewrite <- E, Hr in Hb'. done.
Qed.

Lemma unref_last g ro q oq held core n : op_inv g ro -> ops g !! q = Some oq ->
  ro !! q = Some (RClient held core) -> one held + core_ref core = 1 -> core <> InTx ->
  exists g', gb_operation_unref_n (S n) q g = Ret g' /\ op_inv g' (roles_after ro q (response oq) false Idle) /\ only_ops g g' /\
    forall k, k <> q -> k <> response oq -> ops g' !! k = ops g !! k.
Proof.
  intros I Hq Hr Hone Hcore. destruct (oi_role _ _ I q oq _ Hq Hr) as (Href & Hpos & Hresp).
  pose proof (oi_addr _ _ I q oq Hq). unfold roles_after. cbn [survives orb core_ref bool_decide].
  change (survives false Idle) with false. cbn iota.
  destruct (decide (response oq = 0)) as [E0|E0].
  - assert (ro !! response oq = None) as ->.
    { destruct (ro !! response oq) as [r0|] eqn:E; [|done]. destruct (proj2 (oi_dom _ _ I (response oq)) (ex_intro _ _ E)) as [o0 Ho0].
      pose proof (oi_addr _ _ I _ _ Ho0). lia. }
    eexists. split; [apply (unref_leaf (S n) q oq); [done|lia|lia|done]|].
    split; [|split; [by apply drop_op_only|intros k Hk _; by apply drop_op_other]].
    unfold drop_op. rewrite bool_decide_eq_true_2 by lia.
    apply (free_op_ok g ro q oq (spent oq) (RClient held core)); try done; [by destruct core|]. exact (proj1 (oi_times _ _ I) q oq Hq).
  - destruct Hresp as [?|(_ & busy & Hb)]; [done|]. rewrite Hb. set (r := response oq) in *.
    destruct (proj2 (oi_dom _ _ I r) (ex_intro _ _ Hb)) as [or Hor].
    destruct (oi_role _ _ I r or _ Hor Hb) as (Hrefr & Hrespr & _).
    assert (Hrq : r <> q) by congruence.
    eexists. split; [apply (unref_chain n q oq r or); try done; [lia|lia|destruct busy; simpl in Hrefr; lia]|].
    pose proof (detach_ok g ro r q or oq busy held core I Hor Hq Hb Hr Hcore eq_refl) as I1.
    set (g1 := put_op q (op_response oq 0) g) in *.
    assert (Hor1 : ops g1 !! r = Some or) by (cbn; by rewrite lookup_insert_ne).
    pose proof (drop_received_ok g1 _ r or busy I1 Hor1 (lookup_insert_eq _ _ _)) as I2.
    split; [|split].
    + assert (Hq2 : exists o2, ops (drop_op r or g1) !! q = Some o2 /\ response o2 = 0).
      { exists (op_response oq 0). split; [|done]. unfold drop_op.
        case_bool_decide; cbn; [rewrite lookup_delete_ne by done|rewrite lookup_insert_ne by done]; apply lookup_insert_eq. }
      destruct Hq2 as (o2 & Ho2 & Hresp2).
      rewrite <- (free_drop_put q (spent oq) (op_response oq 0) r or g) by done. fold g1.
      assert (Hro : forall R, R = (if busy then <[r := RReceived false false]> (<[r := RReceived false busy]> ro)
          else delete r (<[r := RReceived false busy]> ro)) ->
          R = if busy then <[r := RReceived false false]> ro else delete r ro).
      { intros R ->. destruct busy; [by rewrite insert_insert_eq|by rewrite delete_insert_eq]. }
      rewrite <- (Hro _ eq_refl). eapply (free_op_ok _ _ q o2 (spent oq) (RClient held core)); try done.
      * rewrite (Hro _ eq_refl). destruct busy; by rewrite ?lookup_insert_ne, ?lookup_delete_ne.
      * by destruct core.
      * exact (proj1 (oi_times _ _ I) q oq Hq).
    + apply (only_ops_trans _ (drop_op r or g)); [by apply drop_op_only|]. eapply (free_op_only _ q oq); [|done].
      by rewrite drop_op_other.
    + intros k Hkq Hkr. cbn. rewrite lookup_delete_ne by done. by apply drop_op_other.
Qed.

(** A request loses a reference, the client's or the core's. *)
Lemma unref_request g ro q oq held core held' core' : op_inv g ro -> ops g !! q = Some oq ->
  ro !! q = Some (RClient held core) -> one held + core_ref core = one held' + core_ref core' + 1 ->
  in_tx (RClient held' core') = in_tx (RClient held core) ->
  exists g', gb_operation_unref q g = Ret g' /\ op_inv g' (roles_after ro q (response oq) held' core') /\ only_ops g g' /\
    forall k, k <> q -> k <> response oq -> ops g' !! k = ops g !! k.
Proof.
  intros I Hq Hr Hone Htx. unfold gb_operation_unref. destruct (survives held' core') eqn:Es.
  - destruct (unref_survivor g ro q oq held core held' core' (S (size (ops g))) I Hq Hr Hone Htx Es) as [E I'].
    eexists. split; [exact E|]. split; [unfold roles_after; by rewrite Es|]. split; [by eapply put_op_only|].
    intros k Hk _. cbn. by rewrite lookup_insert_ne.
  - assert (held' = false /\ core' = Idle) as [-> ->] by (destruct held', core'; try done; simpl in Es; discriminate).
    apply (unref_last g ro q oq held core); try done. by destruct core.
Qed.

(** *** Creating operations *)

(** A new operation, in the hands of its client or of the worker. *)
Lemma add_op_ok g g' ro p o r : op_inv g ro -> ops g !! p = None -> 0 < p < next g' -> next g <= next g' ->
  ops g' = <[p := o]> (ops g) -> cport_map g' = cport_map g -> is_Some (cport_map g !! o_cport o) ->
  (forall x, x ∈ op_cache g' -> x ∈ op_cache g) -> NoDup (op_cache g').*1 -> p ∉ (op_cache g').*1 ->
  ref_count o = 1 -> response o = 0 -> time_ok o -> r = RClient true Idle \/ r = RReceived false false ->
  op_inv g' (<[p := r]> ro).
Proof.
  intros I Hp Hpn Hn Eops Ecp Hcp Hsub Hnd Hpc Href Hresp Ht Hr.
  assert (Hrp : ro !! p = None).
  { destruct (ro !! p) eqn:E; [|done]. destruct (proj2 (oi_dom _ _ I p) (ex_intro _ _ E)). congruence. }
  assert (Hne : forall k ok, ops g !! k = Some ok -> k <> p) by (intros k ok Hk ->; congruence).
  split; rewrite ?Eops, ?Ecp; try apply I; try done.
  - intros k. rewrite !lookup_insert_is_Some'. by rewrite (oi_dom _ _ I k).
  - intros k ok rk. destruct (decide (k = p)) as [->|Hkp].
    + rewrite !lookup_insert_eq. intros [= <-] [= <-]. destruct Hr as [-> | ->]; unfold role_ok; simpl.
      * split; [lia|]. split; [lia|]. by left.
      * split; [lia|done].
    + rewrite !lookup_insert_ne by done. intros Hk Hrk. pose proof (oi_role _ _ I k ok rk Hk Hrk) as Hok.
      destruct rk as [h c|q e|q b]; unfold role_ok in *; rewrite ?Eops.
      * destruct Hok as (? & ? & [?|(? & b & Hb)]); (split; [done|]; split; [done|]); [by left|]. right. split; [done|].
        exists b. rewrite lookup_insert_ne; [done|]. intros E. rewrite <- E in Hb. congruence.
      * done.
      * destruct Hok as (? & ? & oq & Hoq & ?). split; [done|]. split; [done|]. exists oq.
        rewrite lookup_insert_ne; [done|]. intros E. by apply (Hne q oq).
  - intros k ok. destruct (decide (k = p)) as [->|]; [done|]. rewrite lookup_insert_ne by done.
    intros Hk. pose proof (oi_addr _ _ I k ok Hk). lia.
  - intros k ok. destruct (decide (k = p)) as [->|]; [rewrite lookup_insert_eq; by intros [= <-]|].
    rewrite lookup_insert_ne by done. apply (oi_cport _ _ I).
  - intros c cp k Hc Hk. destruct (oi_tx _ _ I c cp k Hc Hk) as (ok & h & H1 & H2 & H3).
    exists ok, h. rewrite !lookup_insert_ne by (apply not_eq_sym; by eapply Hne). done.
  - intros c cp k Hc Hk. destruct (oi_rx _ _ I c cp k Hc Hk) as (ok & H1 & H2 & H3).
    exists ok. rewrite !lookup_insert_ne by (apply not_eq_sym; by eapply Hne). done.
  - intros k ok h cp. destruct (decide (k = p)) as [->|]; [rewrite !lookup_insert_eq; intros _ [= ->]; by destruct Hr|].
    rewrite !lookup_insert_ne by done. apply (oi_in_tx _ _ I).
  - intros k ok cp. destruct (decide (k = p)) as [->|]; [rewrite !lookup_insert_eq; intros _ [= ->]; by destruct Hr|].
    rewrite !lookup_insert_ne by done. apply (oi_in_rx _ _ I).
  - intros k ok Hk. destruct (oi_cache _ _ I k ok (Hsub _ Hk)) as (? & ? & ?). split; [lia|]. split; [|done].
    rewrite lookup_insert_ne; [done|]. intros ->. apply Hpc. apply list_elem_of_fmap. by exists (k, ok).
  - by apply (times_ok_put g g' p o (oi_times _ _ I)).
Qed.

(** What [alloc_buffer] gives. *)
Lemma alloc_buffer_ok g ow b g' : buf_inv g ow -> 0 < next g -> alloc_buffer g = (b, g') ->
  (b = 0 /\ g' = g) \/
  (b <> 0 /\ (ow !! b = None \/ ow !! b = Some OwFree) /\ is_Some (bufs g' !! b) /\ 0 < b < next g' /\ next g <= next g' /\
   (forall x, is_Some (bufs g !! x) -> is_Some (bufs g' !! x)) /\
   (forall x, x ∈ buf_cache g' -> x <> b /\ x ∈ buf_cache g) /\ NoDup (buf_cache g')).
Proof.
  intros B Hn. unfold alloc_buffer. destruct (buf_cache g) as [|b0 l] eqn:Ec.
  - destruct (bufs_left g); intros [= <- <-]; [by left|]. right. cbn.
    assert (Hfresh : ow !! next g = None).
    { destruct (ow !! next g) eqn:E; [|done]. destruct (bi_buf _ _ B _ _ E). lia. }
    split; [lia|]. split; [by left|]. split; [by rewrite lookup_insert_eq|]. split; [lia|]. split; [lia|].
    split; [|split; [intros x Hx; by apply elem_of_nil in Hx|constructor]].
    intros x Hx. rewrite lookup_insert_is_Some'. by right.
  - intros [= <- <-]. right. cbn. assert (Hb : b0 ∈ buf_cache g) by (rewrite Ec; left).
    pose proof (bi_free _ _ B _ Hb) as Hw. destruct (bi_buf _ _ B _ _ Hw) as [? ?].
    pose proof (bi_free_nodup _ _ B) as Hnd. rewrite Ec in Hnd. apply NoDup_cons in Hnd as [Hni Hnd].
    split; [lia|]. split; [by right|]. split; [done|]. split; [lia|]. split; [lia|]. split; [done|]. split; [|done].
    intros x Hx. split; [by intros ->|]. by right.
Qed.

(** What [alloc_op] gives: an address no live operation has. *)
Record new_op (g g' : greybus) (p : Z) (o : gb_operation) : Prop := {
  no_fresh : ops g !! p = None;
  no_addr : 0 < p < next g';
  no_next : next g <= next g';
  no_ops : ops g' = <[p := o]> (ops g);
  no_cports : cport_map g' = cport_map g;
  no_cache x : x ∈ op_cache g' -> x ∈ op_cache g;
  no_cache_nodup : NoDup (op_cache g').*1;
  no_cache_p : p ∉ (op_cache g').*1;
  no_response : response o = 0;
  no_time : time_ok o;
  no_buf : is_Some (bufs g' !! request_buffer o);
  no_rest : request_id g' = request_id g /\ now g' = now g /\ trace g' = trace g;
  no_left : (ops_left g' + bufs_left g <= ops_left g + bufs_left g')%nat;
}.

(** The construction of an operation around a buffer [b] nobody uses. *)
Lemma construct_buffers g g1 ow p b : buf_inv g ow -> (forall q b', op_buffer g q b' -> q <> p) ->
  ops g1 = <[p := op_refs (op_request zero_op b) 1]> (ops g) -> op_cache g1 = op_cache g -> cport_map g1 = cport_map g ->
  (ow !! b = None \/ ow !! b = Some OwFree) -> is_Some (bufs g1 !! b) -> 0 < b < next g1 -> next g <= next g1 ->
  (forall x, is_Some (bufs g !! x) -> is_Some (bufs g1 !! x)) ->
  (forall x, x ∈ buf_cache g1 -> x <> b /\ x ∈ buf_cache g) -> NoDup (buf_cache g1) ->
  buf_inv g1 (<[b := OwOp p]> ow).
Proof.
  intros B Hp Eops Ecache Ecp Hb Hbuf Hbn Hn Hbufs Hfree Hnd.
  assert (Hother : forall x w, ow !! x = Some w -> w <> OwFree -> x <> b) by (intros x w Hx Hw ->; destruct Hb; congruence).
  split; rewrite ?Ecp; try done.
  - intros q b' (o & Hq & E). rewrite Eops, Ecache in Hq. destruct (decide (q = p)) as [->|Hqp].
    + destruct Hq as [Hq|Hq]; [|exfalso; by apply (Hp p b'); [exists o; split; [right|]|]].
      rewrite lookup_insert_eq in Hq. injection Hq as <-. simpl in E. subst b'. apply lookup_insert_eq.
    + rewrite lookup_insert_ne in Hq by done. assert (Hw : ow !! b' = Some (OwOp q)) by (apply (bi_op _ _ B); by exists o).
      rewrite lookup_insert_ne; [done|]. apply not_eq_sym. by eapply Hother.
  - intros c cp Hc Hr. pose proof (bi_port _ _ B c cp Hc Hr) as Hw. rewrite lookup_insert_ne; [done|]. apply not_eq_sym. by eapply Hother.
  - intros x Hx. destruct (Hfree x Hx) as [Hxb Hx']. rewrite lookup_insert_ne by done. by apply (bi_free _ _ B).
  - intros x w. destruct (decide (x = b)) as [->|]; [done|]. rewrite lookup_insert_ne by done. intros Hw.
    destruct (bi_buf _ _ B x w Hw). split; [by apply Hbufs|lia].
Qed.

Lemma alloc_op_ok g ro : op_inv g ro -> has_buffers g -> 0 < next g -> (ops_left g <= bufs_left g)%nat ->
  (alloc_op g = (0, g)) \/ exists p o g', alloc_op g = (p, g') /\ new_op g g' p o /\ has_buffers g'.
Proof.
  intros I [ow B] Hn Hleft. unfold alloc_op. destruct (op_cache g) as [|[p o] l] eqn:Ec.
  - destruct (ops_left g) as [|n] eqn:En; [by left|]. right. unfold operation_ctor.
    set (g0 := mk_greybus _ _ _ _ _ _ _ _ _ _ _ _).
    assert (Hfreshb : forall q b', op_buffer g q b' -> q <> next g).
    { intros q b' (o & [Hq|Hq] & _) ->; [pose proof (oi_addr _ _ I _ _ Hq); lia|]. rewrite Ec in Hq. by apply elem_of_nil in Hq. }
    assert (B0 : buf_inv g0 ow).
    { split; try apply B; cbn.
      - intros q b' (o & Hq & E). apply (bi_op _ _ B). exists o. split; [|done]. cbn in Hq. rewrite Ec. by destruct Hq; [left|right].
      - intros b w Hw. destruct (bi_buf _ _ B b w Hw). split; [done|lia]. }
    destruct (alloc_buffer g0) as [b g1] eqn:Eb.
    assert (Hsame : ops g1 = ops g /\ op_cache g1 = [] /\ cport_map g1 = cport_map g /\ request_id g1 = request_id g /\
      now g1 = now g /\ trace g1 = trace g /\ ops_left g1 = n /\ (bufs_left g <= bufs_left g1 + 1)%nat).
    { unfold alloc_buffer in Eb. cbn in Eb. destruct (buf_cache g); [destruct (bufs_left g) eqn:E; [lia|]|]; injection Eb as <- <-; cbn; repeat split; lia. }
    destruct Hsame as (E1 & E2 & E3 & E4 & E5 & E6 & E7 & E8).
    destruct (alloc_buffer_ok g0 ow b g1 B0 ltac:(cbn; lia) Eb) as [[-> ->]|(Hb0 & Hbw & Hbs & Hbn & Hn1 & Hbufs & Hfree & Hnd)].
    { exfalso. unfold alloc_buffer in Eb. cbn in Eb. destruct (buf_cache g) eqn:Ebc.
      - destruct (bufs_left g); [lia|]. injection Eb. lia.
      - injection Eb as Hz _. assert (Hin : z ∈ buf_cache g) by (rewrite Ebc; left).
        destruct (bi_buf _ _ B _ _ (bi_free _ _ B _ Hin)). lia. }
    rewrite bool_decide_eq_false_2 by done. cbn in Hn1.
    exists (next g), (op_refs (op_request zero_op b) 1), (put_op (next g) (op_refs (op_request zero_op b) 1) g1). split; [done|]. split.
    + split; gcbn; rewrite ?E1, ?E2; try done; try lia.
      * destruct (ops g !! next g) eqn:E; [|done]. pose proof (oi_addr _ _ I _ _ E). lia.
      * intros x Hx. by apply elem_of_nil in Hx.
      * constructor.
      * intros Hx. by apply elem_of_nil in Hx.
    + exists (<[b := OwOp (next g)]> ow). eapply (construct_buffers g); gcbn; rewrite ?E1, ?E2, ?E3, ?Ec; try done; lia.
  - right. exists p, o, (put_op p o (set_op_cache l g)). split; [done|].
    assert (Hin : (p, o) ∈ op_cache g) by (rewrite Ec; left). destruct (oi_cache _ _ I p o Hin) as (Hpn & Hpo & Hresp).
    pose proof (oi_cache_nodup _ _ I) as Hnd. rewrite Ec, fmap_cons in Hnd. apply NoDup_cons in Hnd as [Hni Hnd].
    assert (Hbo : ow !! request_buffer o = Some (OwOp p)) by (apply (bi_op _ _ B); exists o; split; [by right|done]).
    destruct (bi_buf _ _ B _ _ Hbo) as [Hbs _]. split.
    + split; gcbn; try done; [intros x Hx; rewrite Ec; by right|]. exact (proj2 (oi_times _ _ I) p o Hin).
    + exists ow. split; try apply B. intros q b' (oq & Hq & E). cbn in Hq. apply (bi_op _ _ B). exists oq. split; [|done].
      destruct Hq as [Hq|Hq]; [|right; rewrite Ec; by right]. destruct (decide (q = p)) as [->|].
      * rewrite lookup_insert_eq in Hq. injection Hq as <-. by right.
      * rewrite lookup_insert_ne in Hq by done. by left.
Qed.

Lemma same_frame g g' : ops g' = ops g -> op_cache g' = op_cache g -> bufs g' = bufs g -> cport_map g' = cport_map g ->
  buf_cache g' = buf_cache g -> next g' = next g -> frame g g'.
Proof.
  intros E1 E2 E3 E4 E5 E6. split; rewrite ?E3, ?E4; eauto. intros p b (o & Ho & E). rewrite E1, E2 in Ho. by exists o.
Qed.

Lemma log_frame g e : frame g (log e g).
Proof. by apply same_frame. Qed.

Lemma put_buf_frame g b h : frame g (put_buf b h g).
Proof.
  split; try done; [|eauto]. intros x Hx. gcbn. rewrite lookup_insert_is_Some'. by right.
Qed.

(** [n] is the size of the payload; the maker holds the one reference. *)
Lemma create_ok g ro c type n r : op_inv g ro -> has_buffers g -> 0 < next g -> (ops_left g <= bufs_left g)%nat ->
  is_Some (cport_map g !! c) -> 0 <= n -> n + hdr_sizeof <= GREYBUS_MTU -> r = RClient true Idle \/ r = RReceived false false ->
  gb_operation_create c type n g = Ret (0, g) \/
  exists p o g', gb_operation_create c type n g = Ret (p, g') /\ op_inv g' (<[p := r]> ro) /\ has_buffers g' /\
    ro !! p = None /\ 0 < p /\ ops g' !! p = Some o /\ o_cport o = c /\ cport_map g' = cport_map g /\ next g <= next g' /\
    request_id g' = request_id g /\ trace g' = trace g /\ (ops_left g' + bufs_left g <= ops_left g + bufs_left g')%nat.
Proof.
  intros I B Hn Hleft Hc Hn0 Hsz Hr. unfold hdr_sizeof, GREYBUS_MTU in *. unfold gb_operation_create.
  destruct (alloc_op_ok g ro I B Hn Hleft) as [->|(p & o & g1 & E & N & B1)]; [left; by rewrite bool_decide_eq_true_2|].
  right. rewrite E. destruct (no_addr _ _ _ _ N) as [Hp0 Hpn]. rewrite bool_decide_eq_false_2 by lia.
  unfold mbind, outcome_bind, get_op, get_buf. rewrite (no_ops _ _ _ _ N), lookup_insert_eq. cbn [deref].
  destruct (no_buf _ _ _ _ N) as [h Hh]. rewrite Hh. cbn [deref]. unfold hdr_sizeof, GREYBUS_MTU. rewrite wrap32_small by lia.
  rewrite bool_decide_eq_false_2 by lia. eexists p, _, _. split; [done|].
  set (o' := mk_op c false 1 _ _ _ _ _ _). set (g2 := put_buf _ _ g1).
  assert (Hops : ops (put_op p o' g2) = <[p := o']> (ops g)) by (unfold g2; gcbn; by rewrite (no_ops _ _ _ _ N), insert_insert_eq).
  assert (Hro : ro !! p = None).
  { destruct (ro !! p) eqn:Er; [|done]. destruct (proj2 (oi_dom _ _ I p) (ex_intro _ _ Er)). pose proof (no_fresh _ _ _ _ N). congruence. }
  destruct (no_rest _ _ _ _ N) as (? & ? & ?).
  split; [|split; [|split; [done|split; [done|]]]].
  - eapply (add_op_ok g _ ro p o'); try done; try apply N.
  - eapply frame_buffers; [|exact B1]. eapply frame_trans; [apply (put_buf_frame g1)|]. apply only_ops_frame.
    apply (put_op_only _ p o); [|done]. unfold g2. gcbn. by rewrite (no_ops _ _ _ _ N), lookup_insert_eq.
  - split; [rewrite Hops; apply lookup_insert_eq|]. split; [done|]. gcbn. split; [apply N|]. split; [apply N|].
    split; [done|]. split; [done|]. apply N.
Qed.

(** *** Buffers change hands when a message is received *)

Lemma take_message_buffers g p o c cp : has_buffers g -> ops g !! p = Some o -> (forall x, (p, x) ∉ op_cache g) ->
  cport_map g !! c = Some cp -> rx_buf cp <> 0 ->
  has_buffers (put_cport c (cp_buf cp 0) (put_op p (op_request o (rx_buf cp)) (free_buffer (request_buffer o) g))).
Proof.
  intros [ow B] Hp Hpc Hc Hr. set (b := request_buffer o). set (d := rx_buf cp) in *.
  assert (Hb : ow !! b = Some (OwOp p)) by (apply (bi_op _ _ B); exists o; split; [by left|done]).
  assert (Hd : ow !! d = Some (OwPort c)) by (by apply (bi_port _ _ B)).
  assert (Hbd : b <> d) by congruence.
  set (free := bool_decide (b ∈ slab_bufs g)).
  exists (<[d := OwOp p]> (if free then <[b := OwFree]> ow else delete b ow)).
  set (g' := put_cport _ _ _).
  assert (Hfields : ops g' = <[p := op_request o d]> (ops g) /\ op_cache g' = op_cache g /\ bufs g' = bufs g /\
    buf_cache g' = (if free then b :: buf_cache g else buf_cache g) /\ cport_map g' = <[c := cp_buf cp 0]> (cport_map g) /\ next g' = next g).
  { unfold g', free_buffer. fold free. by destruct free. }
  destruct Hfields as (E1 & E2 & E3 & E4 & E5 & E6).
  assert (Hother : forall x w, ow !! x = Some w -> w <> OwOp p -> w <> OwPort c ->
    <[d := OwOp p]> (if free then <[b := OwFree]> ow else delete b ow) !! x = Some w).
  { intros x w Hx H1 H2. rewrite lookup_insert_ne by congruence. destruct free; [rewrite lookup_insert_ne|rewrite lookup_delete_ne]; congruence. }
  split; rewrite ?E1, ?E2, ?E3, ?E4, ?E5, ?E6.
  - intros q x (oq & Hq & E). rewrite E1, E2 in Hq. destruct (decide (q = p)) as [->|Hqp].
    + destruct Hq as [Hq|Hq]; [|by destruct (Hpc oq)]. rewrite lookup_insert_eq in Hq. injection Hq as <-. simpl in E. subst x. apply lookup_insert_eq.
    + rewrite lookup_insert_ne in Hq by done. apply Hother; [|congruence|congruence]. apply (bi_op _ _ B). by exists oq.
  - intros c' cp' Hc' Hr'. destruct (decide (c' = c)) as [->|].
    + rewrite lookup_insert_eq in Hc'. by injection Hc' as <-.
    + rewrite lookup_insert_ne in Hc' by done. apply Hother; [by apply (bi_port _ _ B)|done|congruence].
  - intros x Hx. destruct (decide (x = b)) as [->|Hxb].
    + rewrite lookup_insert_ne by done. destruct free; [apply lookup_insert_eq|]. pose proof (bi_free _ _ B _ Hx). congruence.
    + apply Hother; [|done..]. apply (bi_free _ _ B). destruct free; [|done]. by apply elem_of_cons in Hx as [?|?].
  - pose proof (bi_free_nodup _ _ B). destruct free; [|done]. constructor; [|done]. intros Hin. pose proof (bi_free _ _ B _ Hin). congruence.
  - intros x w Hw. destruct (decide (x = d)) as [->|Hxd]; [by apply (bi_buf _ _ B d (OwPort c))|].
    rewrite lookup_insert_ne in Hw by done. destruct (decide (x = b)) as [->|Hxb]; [by apply (bi_buf _ _ B b (OwOp p))|].
    apply (bi_buf _ _ B x w). destruct free; [by rewrite lookup_insert_ne in Hw|by rewrite lookup_delete_ne in Hw].
Qed.

Lemma give_buffer_buffers g c cp b g' cp' : has_buffers g -> 0 < next g -> cport_map g !! c = Some cp -> rx_buf cp = 0 ->
  alloc_buffer g = (b, g') -> rx_buf cp' = b -> has_buffers (put_cport c cp' g').
Proof.
  intros [ow B] Hn Hc Hr E Hb.
  assert (Hsame : ops g' = ops g /\ op_cache g' = op_cache g /\ cport_map g' = cport_map g).
  { unfold alloc_buffer in E. destruct (buf_cache g); [destruct (bufs_left g)|]; by injection E as <- <-. }
  destruct Hsame as (E1 & E2 & E3).
  assert (Hops : forall q x, op_buffer (put_cport c cp' g') q x -> op_buffer g q x).
  { intros q x (o & Hq & Ex). exists o. split; [|done]. by rewrite <- E1, <- E2. }
  destruct (alloc_buffer_ok g ow b g' B Hn E) as [[-> ->]|(Hb0 & Hbw & Hbs & Hbn & Hn1 & Hbufs & Hfree & Hnd)].
  - exists ow. split; try apply B. gcbn. intros c' cp0. destruct (decide (c' = c)) as [->|].
    + rewrite lookup_insert_eq. intros [= <-]. congruence.
    + rewrite lookup_insert_ne by done. apply (bi_port _ _ B).
  - assert (Hother : forall x w, ow !! x = Some w -> w <> OwFree -> x <> b) by (intros x w Hx Hw ->; destruct Hbw; congruence).
    exists (<[b := OwPort c]> ow). split; gcbn; try done.
    + intros q x Hq%Hops. pose proof (bi_op _ _ B _ _ Hq) as Hw. rewrite lookup_insert_ne; [done|]. apply not_eq_sym. by eapply Hother.
    + intros c' cp0. destruct (decide (c' = c)) as [->|].
      * rewrite lookup_insert_eq. intros [= <-] _. rewrite Hb. apply lookup_insert_eq.
      * rewrite lookup_insert_ne, E3 by done. intros Hc' Hr'. pose proof (bi_port _ _ B _ _ Hc' Hr') as Hw.
        rewrite lookup_insert_ne; [done|]. apply not_eq_sym. by eapply Hother.
    + intros x Hx. destruct (Hfree x Hx). rewrite lookup_insert_ne by done. by apply (bi_free _ _ B).
    + intros x w. destruct (decide (x = b)) as [->|]; [done|]. rewrite lookup_insert_ne by done. intros Hw.
      destruct (bi_buf _ _ B x w Hw). split; [by apply Hbufs|lia].
Qed.

(** ** The invariant of the whole system *)

(** Roles between events: nobody is in the middle of anything. *)
Definition quiet (r : role) : Prop :=
  match r with
  | RClient _ core => core <> Completing
  | RReceived queued extra => queued = true /\ extra = false
  | RAnswer _ busy => busy = false
  end.

Record sys_inv (n : nat) (s : sys) (ro : gmap Z role) : Prop := {
  si_ops : op_inv (st s) ro;
  si_ports : port_inv n (st s);
  si_buffers : has_buffers (st s);
  si_held p : p ∈ held s <-> exists core, ro !! p = Some (RClient true core);
  si_quiet p r : ro !! p = Some r -> quiet r;
  si_next : 0 < next (st s);
  si_id : 0 <= request_id (st s) < 2 ^ 32;
}.

Lemma port_put_other n g c cp : (forall c' cp', c' <> c -> cport_map g !! c' = Some cp' -> port_ok n cp') ->
  port_ok n cp -> port_inv n (put_cport c cp g).
Proof.
  intros H Hcp c' cp'. gcbn. destruct (decide (c' = c)) as [->|].
  - rewrite lookup_insert_eq. by intros [= <-].
  - rewrite lookup_insert_ne by done. by apply H.
Qed.

Lemma port_put n g c cp : port_inv n g -> port_ok n cp -> port_inv n (put_cport c cp g).
Proof. intros H. apply port_put_other. intros ? ? _. apply H. Qed.

Lemma port_same n g g' : cport_map g' = cport_map g -> port_inv n g -> port_inv n g'.
Proof. unfold port_inv. by intros ->. Qed.

Lemma put_cport_frame g c cp cp' : cport_map g !! c = Some cp -> rx_buf cp' = rx_buf cp -> frame g (put_cport c cp' g).
Proof.
  intros Hc Hr. split; try done. intros c' cp0. gcbn. destruct (decide (c' = c)) as [->|].
  - rewrite lookup_insert_eq. intros [= <-]. eauto.
  - rewrite lookup_insert_ne by done. eauto.
Qed.

Lemma del_tx_elem p q cp : q ∈ tx_fifo (del_tx p cp) <-> q <> p /\ q ∈ tx_fifo cp.
Proof. simpl. by rewrite list_elem_of_filter. Qed.

(** [gb_watchdog_update] restores what is promised of the watchdog. *)
Lemma watchdog_update_ok n t cp : rx_fifo_semaphore cp = Z.of_nat (length (rx_fifo cp)) -> (length (rx_fifo cp) <= n)%nat ->
  port_ok n (gb_watchdog_update t cp).
Proof.
  intros Hs Hl. split; [done|]. split; [done|]. simpl. destruct (tx_fifo cp); split; try done. intros _. by left.
Qed.

(** *** Sending *)

(** An operation changes without its references, its port or its response. *)
Lemma put_op_same g ro p o o' r : op_inv g ro -> ops g !! p = Some o -> ro !! p = Some r ->
  o_cport o' = o_cport o -> response o' = response o -> ref_count o' = ref_count o -> time o' = time o \/ time_ok o' ->
  op_inv (put_op p o' g) ro.
Proof.
  intros I Hp Hr Hc Hresp Href Ht. rewrite <- (insert_id ro p r) by done.
  apply (put_op_ok g ro p o o' r r); try done; [by intros q b ->; eexists|by left|].
  pose proof (oi_role _ _ I p o r Hp Hr) as Hok. rewrite insert_id by done.
  destruct r as [h c|q e|q b]; unfold role_ok in *; rewrite ?Href, ?Hresp; try done.
  destruct Hok as (? & ? & oq & Hoq & E). split; [done|]. split; [done|]. gcbn. destruct (decide (q = p)) as [->|].
  - exists o'. rewrite lookup_insert_eq. split; [done|]. congruence.
  - exists oq. by rewrite lookup_insert_ne.
Qed.

Lemma ref_eq g p o : ops g !! p = Some o -> p <> 0 -> 0 < ref_count o < 2 ^ 32 - 1 ->
  gb_operation_ref p g = Ret (put_op p (op_refs o (ref_count o + 1)) g).
Proof.
  intros Hp H0 Hr. unfold gb_operation_ref, mbind, outcome_bind, get_op. rewrite bool_decide_eq_false_2 by done. rewrite Hp.
  cbn [deref]. rewrite bool_decide_eq_false_2 by lia. by rewrite wrap32_small by lia.
Qed.

Lemma timespec_of_ok t : 0 <= snd (timespec_of t) < NSEC.
Proof. apply Z.mod_pos_bound. done. Qed.

(** The request goes on the queue, its identifier set, a reference taken. *)
Lemma enqueue_request g ro p o h c cp t cb wd : op_inv g ro -> ops g !! p = Some o -> ro !! p = Some (RClient true Idle) ->
  response o = 0 -> o_cport o = c -> cport_map g !! c = Some cp -> 0 <= snd t < NSEC ->
  let g1 := put_op p (op_sent o t cb) (put_buf (request_buffer o) h g) in
  let g2 := put_op p (op_refs (op_sent o t cb) 2) g1 in
  gb_operation_ref p g1 = Ret g2 /\ frame g g2 /\ p ∉ tx_fifo cp /\
    op_inv g2 (<[p := RClient true Completing]> ro) /\
    op_inv (put_cport c (cp_wd (cp_tx cp (tx_fifo cp ++ [p])) wd) g2) (<[p := RClient true InTx]> ro).
Proof.
  intros I Hp Hr Hresp Hoc Hc Ht g1 g2. destruct (oi_role _ _ I p o _ Hp Hr) as (Href & _ & _). simpl in Href.
  pose proof (oi_addr _ _ I p o Hp).
  assert (Hp1 : ops g1 !! p = Some (op_sent o t cb)) by apply lookup_insert_eq.
  assert (I0 : op_inv (put_buf (request_buffer o) h g) ro) by (eapply op_inv_same; [..|exact I]; done).
  assert (I1 : op_inv g1 ro) by (by apply (put_op_same _ ro p o _ (RClient true Idle)); try done; right).
  assert (Hp2 : ops g2 !! p = Some (op_refs (op_sent o t cb) 2)) by apply lookup_insert_eq.
  assert (Hntx : p ∉ tx_fifo cp).
  { intros Hin. destruct (oi_tx _ _ I c cp p Hc Hin) as (o' & h' & _ & _ & E). congruence. }
  assert (I2 : op_inv g2 (<[p := RClient true Completing]> ro)).
  { apply (put_op_ok g1 ro p (op_sent o t cb) _ (RClient true Idle)); try done; [by left|]. unfold role_ok. simpl. split; [lia|]. split; [lia|]. by left. }
  split; [rewrite (ref_eq g1 p (op_sent o t cb)) by (try done; simpl; lia); simpl; by rewrite Href|].
  split; [|split; [done|split; [done|]]].
  - eapply frame_trans; [apply (put_buf_frame g (request_buffer o) h)|]. apply only_ops_frame.
    apply (only_ops_trans _ g1); [by apply (put_op_only (put_buf (request_buffer o) h g) p o)|].
    by apply (put_op_only g1 p (op_sent o t cb)).
  - rewrite <- (insert_insert_eq ro p (RClient true InTx) (RClient true Completing)).
    destruct (oi_nodup _ _ I c cp Hc) as [Hn1 Hn2].
    apply (put_cport_role g2 _ c cp _ p (op_refs (op_sent o t cb) 2) (RClient true Completing)); try done; simpl.
    + by rewrite lookup_insert_eq.
    + apply (oi_driver _ _ I c cp Hc).
    + apply NoDup_app. split; [done|]. split; [|apply NoDup_singleton]. intros x Hx ->%list_elem_of_singleton. done.
    + intros q Hq. rewrite elem_of_app, list_elem_of_singleton. intuition.
    + rewrite elem_of_app, list_elem_of_singleton. intuition.
    + split; [|done]. intros Hin. destruct (oi_rx _ _ I c cp p Hc Hin) as (o' & _ & _ & E). congruence.
    + split; [done|]. split; [lia|]. by left.
Qed.

(** A client's hold is recorded in the roles, whatever the core's is. *)
Definition holds (s : sys) (ro : gmap Z role) : Prop := forall p, p ∈ held s <-> exists core, ro !! p = Some (RClient true core).

Lemma holds_insert s ro p core core' : holds s ro -> ro !! p = Some (RClient true core) ->
  holds s (<[p := RClient true core']> ro).
Proof.
  intros Hh Hr q. rewrite (Hh q). destruct (decide (q = p)) as [->|].
  - rewrite lookup_insert_eq, Hr. split; intros _; by eexists.
  - by rewrite lookup_insert_ne.
Qed.

Lemma quiet_insert (ro : gmap Z role) p core : (forall q r, ro !! q = Some r -> quiet r) -> core <> Completing ->
  forall q r, <[p := RClient true core]> ro !! q = Some r -> quiet r.
Proof.
  intros Hq Hc q r. destruct (decide (q = p)) as [->|]; [rewrite lookup_insert_eq; by intros [= <-]|].
  rewrite lookup_insert_ne by done. apply Hq.
Qed.

Definition same_left (g g' : greybus) : Prop := ops_left g' = ops_left g /\ bufs_left g' = bufs_left g.

Lemma queue_ok n s ro p cb need : sys_inv n s ro -> can_send s p = true ->
  exists g' ro', queue_request p cb need (st s) = Ret g' /\ sys_inv n (mk_sys g' (held s) (sending s)) ro' /\
    same_left (st s) g' /\ p ∈ held s.
Proof.
  intros [I P B Hheld Hq Hn Hid] Hcan. set (g := st s) in *. unfold can_send in Hcan. fold g in Hcan.
  destruct (ops g !! p) as [o|] eqn:Hp; [|done]. rewrite !andb_true_iff, !bool_decide_eq_true in Hcan.
  destruct Hcan as [[[Hin _] Hresp] Htx].
  destruct (cport_map g !! o_cport o) as [cp|] eqn:Hc; [|done]. apply bool_decide_eq_true in Htx.
  destruct (proj1 (Hheld p) Hin) as [core Hr].
  assert (core = Idle) as ->.
  { destruct core; [done| |]; [|by pose proof (Hq _ _ Hr)]. by destruct (Htx (oi_in_tx _ _ I p o true cp Hp Hr Hc)). }
  destruct B as [ow B]. assert (Hb : is_Some (bufs g !! request_buffer o)).
  { apply (bi_buf _ _ B _ (OwOp p)). apply (bi_op _ _ B). exists o. split; [by left|done]. }
  destruct Hb as [h Hh]. unfold queue_request, mbind, outcome_bind, get_op, get_buf. rewrite Hp. cbn [deref].
  rewrite Hh. cbn [deref]. destruct need.
  2: { eexists _, ro. split; [done|]. split; [|done]. split; try done.
    - eapply op_inv_same; [..|exact I]; done.
    - eapply frame_buffers; [|by exists ow]. apply (put_buf_frame g). }
  pose proof (fresh_request_id_eq g Hid) as Hf. destruct (fresh_request_id g) as [id g0]. destruct Hf as (_ & _ & Hid0 & v & ->).
  set (g0 := set_request_id v g) in *.
  assert (I0 : op_inv g0 ro) by (eapply op_inv_same; [..|exact I]; done).
  change (now g0) with (now g).
  pose proof (enqueue_request g0 ro p o (with_id h id) (o_cport o) cp (timespec_of (now g)) cb
    (match timeout_wd cp with None => timeout_from (now g) | Some d => Some d end) I0 Hp Hr Hresp eq_refl Hc (timespec_of_ok _)) as HE.
  cbv zeta in HE. set (g2 := put_op p (op_refs _ 2) _) in HE. destruct HE as (E2 & Fr & Hntx & I2 & I3). rewrite E2. clear E2.
  unfold gb_get_cport. change (cport_map g2) with (cport_map g). rewrite Hc. cbn [deref]. change (now g2) with (now g).
  destruct (P _ _ Hc) as (P1 & P2 & P3 & P4).
  assert (Hwd : match timeout_wd (cp_tx cp (tx_fifo cp ++ [p])) with Some _ => cp_tx cp (tx_fifo cp ++ [p])
    | None => cp_wd (cp_tx cp (tx_fifo cp ++ [p])) (timeout_from (now g)) end =
    cp_wd (cp_tx cp (tx_fifo cp ++ [p])) (match timeout_wd cp with None => timeout_from (now g) | Some d => Some d end)).
  { simpl. destruct (timeout_wd cp) eqn:E; [|done]. unfold cp_wd, cp_tx. simpl. by rewrite E. }
  rewrite Hwd. set (cp' := cp_wd _ _) in *. set (g3 := put_cport (o_cport o) cp' g2) in *.
  exists g3, (<[p := RClient true InTx]> ro). split; [done|]. split; [|done]. split; cbn [st held]; [exact I3|..|exact Hn|exact Hid0].
  - eapply port_same; [|apply (port_put n g (o_cport o) cp' P)]; [done|]. split; [done|]. split; [done|]. simpl.
    split; [|by destruct (tx_fifo cp)]. intros _. left. by destruct (timeout_wd cp).
  - eapply frame_buffers; [apply (put_cport_frame g2 (o_cport o) cp cp' Hc eq_refl)|].
    eapply frame_buffers; [exact Fr|]. apply (frame_buffers g); [by apply same_frame|by exists ow].
  - by apply (holds_insert s ro p Idle).
  - by apply quiet_insert.
Qed.

Lemma transmit_ok n s ro p ret : sys_inv n s ro -> p ∈ held s ->
  exists g', transmit_request ret p (st s) = Ret g' /\ sys_inv n (mk_sys g' (held s) (sending s)) ro /\ same_left (st s) g'.
Proof.
  intros [I P [ow B] Hheld Hq Hn Hid] Hin. destruct (proj1 (Hheld p) Hin) as [core Hr].
  destruct (proj2 (oi_dom _ _ I p) (ex_intro _ _ Hr)) as [o Hp].
  destruct (bi_buf _ _ B (request_buffer o) (OwOp p)) as [[h Hh] _]; [apply (bi_op _ _ B); exists o; split; [by left|done]|].
  unfold transmit_request, mbind, outcome_bind, get_op, get_buf. rewrite Hp. cbn [deref]. rewrite Hh. cbn [deref].
  eexists. split; [done|]. split; [|done]. split; cbn [st held]; try done.
  - eapply op_inv_same; [..|exact I]; done.
  - eapply frame_buffers; [apply log_frame|by exists ow].
Qed.

(** The send that failed takes the request off the queue, and its reference. *)
Lemma withdraw_ok n s ro p : sys_inv n s ro -> p ∈ held s -> can_withdraw s p = true ->
  exists g' ro', withdraw_request p (st s) = Ret g' /\ sys_inv n (mk_sys g' (held s) (sending s)) ro' /\ same_left (st s) g'.
Proof.
  intros [I P B Hheld Hq Hn Hid] Hin Hcan. set (g := st s) in *. unfold can_withdraw in Hcan. fold g in Hcan.
  apply andb_true_iff in Hcan as [_ Hcan]. destruct (ops g !! p) as [o|] eqn:Hp; [|done].
  destruct (cport_map g !! o_cport o) as [cp|] eqn:Hc; [|done]. apply bool_decide_eq_true in Hcan as Htx.
  destruct (proj1 (Hheld p) Hin) as [core Hr]. destruct (oi_tx _ _ I _ cp p Hc Htx) as (o1 & h1 & _ & _ & Hr1).
  assert (core = InTx) as -> by congruence. clear o1 h1 Hr1. pose proof (oi_role _ _ I p o _ Hp Hr) as Hok.
  destruct Hok as (Href & Hpos & Hresp).
  unfold withdraw_request, mbind, outcome_bind, get_op, gb_get_cport. rewrite Hp. cbn [deref]. rewrite Hc. cbn [deref].
  set (cpf := gb_watchdog_update _ _). set (gf := put_cport _ cpf _). destruct (oi_nodup _ _ I _ cp Hc) as [Hn1 Hn2].
  assert (If : op_inv gf (<[p := RClient true Completing]> ro)).
  { apply (put_cport_role g ro (o_cport o) cp cpf p o (RClient true InTx)); try done; simpl.
    - apply (oi_driver _ _ I _ cp Hc).
    - by apply NoDup_filter.
    - intros q Hqp. rewrite list_elem_of_filter. tauto.
    - rewrite list_elem_of_filter. split; [tauto|done].
    - split; [|done]. intros Hrx. destruct (oi_rx _ _ I _ cp p Hc Hrx) as (? & _ & _ & ?). congruence.
    - split; [done|]. split; [done|]. left. by destruct Hresp as [?|[? _]]. }
  destruct (unref_request gf _ p o true Completing true Idle If) as (g' & E' & I' & Oo & _);
    [done|apply lookup_insert_eq|done|done|]. rewrite E'.
  exists g', (<[p := RClient true Idle]> ro). unfold roles_after in I'. change (survives true Idle) with true in I'.
  cbn iota in I'. rewrite insert_insert_eq in I'. split; [done|].
  destruct (P _ _ Hc) as (P1 & P2 & _). split; [|destruct (oo_left _ _ Oo) as [E1 E2]; split; [exact E1|exact E2]].
  split; cbn [st held]; [exact I'|..].
  - eapply port_same; [exact (oo_cports _ _ Oo)|]. apply port_put; [done|by apply watchdog_update_ok].
  - eapply frame_buffers; [apply only_ops_frame, Oo|]. eapply frame_buffers; [|exact B].
    apply (put_cport_frame g (o_cport o) cp cpf Hc eq_refl).
  - by apply (holds_insert s ro p InTx).
  - by apply quiet_insert.
  - rewrite (oo_next _ _ Oo). exact Hn.
  - rewrite (oo_id _ _ Oo). exact Hid.
Qed.

(** *** Roles after a reference went *)

Lemma roles_after_eq ro q r h (c : core_hold) : roles_after ro q r h c !! q = if survives h c then Some (RClient h c) else None.
Proof. unfold roles_after. destruct (survives h c); [apply lookup_insert_eq|apply lookup_delete_eq]. Qed.

(** Off the request and its answer nothing changes; an answer goes with its
    request, or stays with the worker that is still at it. *)
Lemma roles_after_ne ro q r h (c : core_hold) k s : k <> q -> roles_after ro q r h c !! k = Some s ->
  (ro !! k = Some s /\ (survives h c = false -> k = r -> forall b x, s <> RAnswer b x)) \/
  (k = r /\ survives h c = false /\ s = RReceived false false /\ exists b, ro !! r = Some (RAnswer b true)).
Proof.
  intros Hk. unfold roles_after. destruct (survives h c).
  - rewrite lookup_insert_ne by done. intros Hs. by left.
  - rewrite lookup_delete_ne by done. destruct (decide (k = r)) as [->|Hkr].
    + destruct (ro !! r) as [[| |b []]|] eqn:E; [intros Hs; left|intros Hs; left| | |].
      * split; [congruence|]. intros _ _ b x ->. congruence.
      * split; [congruence|]. intros _ _ b x ->. congruence.
      * rewrite lookup_insert_eq. intros [= <-]. right. by eauto.
      * by rewrite lookup_delete_eq.
      * intros Hs. congruence.
    + intros Hs. left. split; [|done]. destruct (ro !! r) as [[| |b []]|]; try done;
        by rewrite ?lookup_insert_ne, ?lookup_delete_ne in Hs.
Qed.

Lemma roles_after_client ro q r h c k h' c' : k <> q -> ro !! k = Some (RClient h' c') ->
  roles_after ro q r h c !! k = Some (RClient h' c').
Proof.
  intros Hk Hr. unfold roles_after. destruct (survives h c); [by rewrite lookup_insert_ne|]. rewrite lookup_delete_ne by done.
  destruct (ro !! r) as [[| |b []]|] eqn:E; try done.
  all: assert (k <> r) by congruence; by rewrite ?lookup_insert_ne, ?lookup_delete_ne.
Qed.

Definition held_ok (ro : gmap Z role) (held : gset Z) : Prop :=
  forall p, p ∈ held <-> exists core, ro !! p = Some (RClient true core).
Definition all_quiet (ro : gmap Z role) : Prop := forall p r, ro !! p = Some r -> quiet r.

Lemma roles_after_quiet ro q r core h : (forall p s, p <> q -> ro !! p = Some s -> quiet s) -> core <> Completing ->
  all_quiet (roles_after ro q r h core).
Proof.
  intros Hall Hc p s Hp. destruct (decide (p = q)) as [->|Hne].
  - rewrite roles_after_eq in Hp. destruct (survives h core); [|done]. by injection Hp as <-.
  - destruct (roles_after_ne ro q r h core p s Hne Hp) as [[? _]|(-> & _ & _ & b & Hb)]; [by eapply Hall|].
    by pose proof (Hall _ _ Hne Hb).
Qed.

(** The core lets go of a request: clients hold what they held. *)
Lemma roles_after_core ro q r h held : ro !! q = Some (RClient h Completing) -> held_ok ro held ->
  held_ok (roles_after ro q r h Idle) held.
Proof.
  intros Hq Hh p. rewrite (Hh p). destruct (decide (p = q)) as [->|Hp].
  - rewrite roles_after_eq, Hq. destruct h.
    + change (survives true Idle) with true. split; intros _; by eexists.
    + change (survives false Idle) with false. split; intros [? ?]; congruence.
  - split; intros [core' Hr]; [exists core'; by apply roles_after_client|].
    destruct (roles_after_ne ro q r h Idle p _ Hp Hr) as [[? _]|(_ & _ & ? & _)]; [by eexists|done].
Qed.

(** A client lets go of a request. *)
Lemma roles_after_drop ro q r core held : ro !! q = Some (RClient true core) -> held_ok ro held ->
  held_ok (roles_after ro q r false core) (held ∖ {[q]}).
Proof.
  intros Hq Hh p. rewrite elem_of_difference, elem_of_singleton, (Hh p). destruct (decide (p = q)) as [->|Hp].
  - rewrite roles_after_eq. split; [tauto|]. intros [core' E]. destruct (survives false core); [|done]. by injection E.
  - split; [intros [[core' Hr] _]; exists core'; by apply roles_after_client|]. intros [core' Hr].
    destruct (roles_after_ne ro q r false core p _ Hp Hr) as [[? _]|(_ & _ & ? & _)]; [split; [by eexists|done]|done].
Qed.

(** What no event but creation touches. *)
Record same_core (g g' : greybus) : Prop := {
  sc_frame : frame g g';
  sc_id : request_id g' = request_id g;
  sc_now : now g' = now g;
  sc_left : ops_left g' = ops_left g /\ bufs_left g' = bufs_left g;
}.

Lemma same_core_trans g1 g2 g3 : same_core g1 g2 -> same_core g2 g3 -> same_core g1 g3.
Proof. intros [? ? ? []] [? ? ? []]. split; [by eapply frame_trans|congruence..|split; congruence]. Qed.
Lemma only_same_core g g' : only_ops g g' -> same_core g g'.
Proof. intros O. split; try apply O. by apply only_ops_frame. Qed.
Lemma put_cport_core g c cp cp' : cport_map g !! c = Some cp -> rx_buf cp' = rx_buf cp -> same_core g (put_cport c cp' g).
Proof. intros Hc Hr. split; try done. by eapply put_cport_frame. Qed.
Lemma log_core g e : same_core g (log e g).
Proof. split; try done. apply log_frame. Qed.

Lemma destroy_ok n s ro p : sys_inv n s ro -> p ∈ held s ->
  exists g' ro', gb_operation_destroy p (st s) = Ret g' /\ sys_inv n (mk_sys g' (held s ∖ {[p]}) (sending s)) ro' /\ same_core (st s) g'.
Proof.
  intros [I P B Hheld Hq Hn Hid] Hin. destruct (proj1 (Hheld p) Hin) as [core Hr].
  destruct (proj2 (oi_dom _ _ I p) (ex_intro _ _ Hr)) as [o Ho]. pose proof (oi_addr _ _ I p o Ho).
  destruct (unref_request (st s) ro p o true core false core I Ho Hr) as (g' & E & I' & Oo & _); [simpl; lia|by destruct core|].
  unfold gb_operation_destroy. rewrite bool_decide_eq_false_2 by lia. eexists g', _. split; [exact E|].
  split; [|by apply only_same_core]. split; cbn [st held]; [exact I'|..].
  - eapply port_same; [exact (oo_cports _ _ Oo)|done].
  - eapply frame_buffers; [apply only_ops_frame, Oo|done].
  - by apply roles_after_drop.
  - apply roles_after_quiet; [intros ? ? _; apply Hq|]. by pose proof (Hq _ _ Hr).
  - by rewrite (oo_next _ _ Oo).
  - by rewrite (oo_id _ _ Oo).
Qed.

(** *** Answering a request *)

Lemma has_request_buffer g p o : has_buffers g -> ops g !! p = Some o -> exists h, bufs g !! request_buffer o = Some h.
Proof.
  intros [ow B] Hp. apply (bi_buf _ _ B _ (OwOp p)). apply (bi_op _ _ B). exists o. split; [by left|done].
Qed.

(** A step that only changes what the operation [p] is to answer, and the trace. *)
Definition answers (g g' : greybus) (ro : gmap Z role) (p : Z) : Prop :=
  op_inv g' ro /\ same_core g g' /\ cport_map g' = cport_map g /\ is_Some (ops g' !! p).

Lemma answers_trans g1 g2 g3 ro p : answers g1 g2 ro p -> answers g2 g3 ro p -> answers g1 g3 ro p.
Proof. intros (I1 & C1 & E1 & _) (I2 & C2 & E2 & S2). split; [done|]. split; [by eapply same_core_trans|]. split; [congruence|done]. Qed.

Lemma answers_put g ro p o o' r : op_inv g ro -> ops g !! p = Some o -> ro !! p = Some r -> o_cport o' = o_cport o ->
  response o' = response o -> ref_count o' = ref_count o -> request_buffer o' = request_buffer o -> time o' = time o ->
  answers g (put_op p o' g) ro p.
Proof.
  intros I Hp Hr ? ? ? ? ?. split; [by eapply put_op_same; eauto|]. split; [by apply only_same_core, (put_op_only g p o)|].
  split; [done|]. exists o'. apply lookup_insert_eq.
Qed.

Lemma answers_log g ro p e : op_inv g ro -> is_Some (ops g !! p) -> answers g (log e g) ro p.
Proof.
  intros I Hp. split; [by apply (op_inv_same g)|]. split; [apply log_core|]. done.
Qed.

Lemma alloc_response_ok g ro p ok n : op_inv g ro -> has_buffers g -> is_Some (ops g !! p) ->
  exists g', gb_operation_alloc_response ok p n g = Ret g' /\ answers g g' ro p.
Proof.
  intros I B [o Hp]. destruct (proj1 (oi_dom _ _ I p) (ex_intro _ _ Hp)) as [r Hr]. pose proof (oi_addr _ _ I p o Hp).
  destruct (has_request_buffer g p o B Hp) as [h Hh]. unfold gb_operation_alloc_response, mbind, outcome_bind, get_op, get_buf.
  rewrite bool_decide_eq_false_2 by lia. rewrite Hp. cbn [deref]. destruct ok; cbn [negb].
  - rewrite Hh. cbn [deref]. eexists. split; [done|]. by eapply answers_put.
  - eexists. split; [done|]. by eapply answers_put.
Qed.

Lemma send_response_ok g ro p ok ret result : op_inv g ro -> has_buffers g -> is_Some (ops g !! p) ->
  exists v g', gb_operation_send_response ok ret p result g = Ret (v, g') /\ answers g g' ro p.
Proof.
  intros I B [o Hp]. destruct (proj1 (oi_dom _ _ I p) (ex_intro _ _ Hp)) as [r Hr]. pose proof (oi_addr _ _ I p o Hp).
  unfold gb_operation_send_response, mbind, outcome_bind, get_op at 1. rewrite bool_decide_eq_false_2 by lia. rewrite Hp. cbn [deref].
  assert (Hself : answers g g ro p) by (split; [done|]; split; [split; [apply frame_refl|done..]|]; split; [done|by exists o]).
  destruct (has_responded o); [by eexists _, g|].
  assert (Halloc : exists g1, (if bool_decide (response_buffer o = None) then gb_operation_alloc_response ok p 0 g else Ret g) = Ret g1 /\
    answers g g1 ro p).
  { case_bool_decide; [|by exists g]. apply alloc_response_ok; [done..|]. by exists o. }
  destruct Halloc as (g1 & -> & A1). destruct A1 as (I1 & C1 & E1 & [o1 Ho1]). unfold get_op. rewrite Ho1. cbn [deref].
  assert (A1 : answers g g1 ro p) by (split; [done|]; split; [done|]; split; [done|by exists o1]).
  destruct (response_buffer o1) as [hr|] eqn:Er.
  - set (e := Sent _ _ _). pose proof (answers_log g1 ro p e I1 (ex_intro _ _ Ho1)) as A2.
    pose proof (answers_trans _ _ _ _ _ A1 A2) as A12. destruct A2 as (I2 & _).
    case_bool_decide; eexists _, _; (split; [done|]); (eapply answers_trans; [exact A12|]).
    + eapply (answers_put _ ro p o1); try done; by destruct (bool_decide _).
    + by eapply (answers_put _ ro p o1).
  - unfold gb_operation_send_oom_response, mbind, outcome_bind, get_op, get_buf. rewrite Ho1. cbn [deref].
    destruct (has_request_buffer g1 p o1) as [h ->]; [|done|]; [by eapply frame_buffers; [apply C1|]|]. cbn [deref].
    eexists _, _. split; [done|]. eapply answers_trans; [exact A1|]. by apply answers_log.
Qed.

Lemma process_request_ok run_handler g ro ok ret hdr p : op_inv g ro -> has_buffers g -> is_Some (ops g !! p) ->
  exists g', gb_process_request run_handler ok ret hdr p g = Ret g' /\ answers g g' ro p.
Proof.
  intros I B [o Hp]. unfold gb_process_request, mbind, outcome_bind, get_op. rewrite Hp. cbn [deref].
  destruct (oi_cport _ _ I p o Hp) as [cp Hc]. destruct (oi_driver _ _ I _ cp Hc) as [d Hd].
  destruct (find_handler_total g (h_type hdr) (o_cport o) cp d Hc Hd) as [[h|] ->].
  - destruct (run_handler h hdr) as [size result].
    assert (Halloc : exists g1, match size with Some n => gb_operation_alloc_response true p n g | None => Ret g end = Ret g1 /\
      answers g g1 ro p).
    { destruct size; [apply alloc_response_ok; [done..|by exists o]|]. exists g. split; [done|].
      split; [done|]. split; [split; [apply frame_refl|done..]|]. split; [done|by exists o]. }
    destruct Halloc as (g1 & -> & A1). case_bool_decide; [|by exists g1].
    pose proof A1 as (I1 & C1 & E1 & S1).
    destruct (send_response_ok g1 ro p ok ret result I1) as (v & g2 & -> & A2); [|done|]; [by eapply frame_buffers; [apply C1|]|].
    exists g2. split; [done|]. by eapply answers_trans.
  - destruct (send_response_ok g ro p ok ret GB_OP_INVALID I B) as (v & g2 & -> & A2); [by exists o|]. by exists g2.
Qed.

(** *** Matching a response *)

(** The identifier of an operation's request. *)
Definition request_id_of (g : greybus) (q : Z) : option Z :=
  match ops g !! q with Some o => option_map h_id (bufs g !! request_buffer o) | None => None end.

Lemma find_request_ok g id l : (forall q, q ∈ l -> exists o h, ops g !! q = Some o /\ bufs g !! request_buffer o = Some h) ->
  exists r, find_request g id l = Ret r /\
    match r with
    | Some q => exists l1 l2, l = l1 ++ q :: l2 /\ request_id_of g q = Some id /\ forall x, x ∈ l1 -> request_id_of g x <> Some id
    | None => forall x, x ∈ l -> request_id_of g x <> Some id
    end.
Proof.
  induction l as [|p l IH]; intros Hl; [exists None; split; [done|]; intros ? Hq; by apply elem_of_nil in Hq|].
  destruct (Hl p) as (o & h & Ho & Hh); [left|]. cbn [find_request]. unfold mbind, outcome_bind, get_op, get_buf.
  assert (Hidp : request_id_of g p = Some (h_id h)) by (unfold request_id_of; by rewrite Ho, Hh).
  rewrite Ho. cbn [deref]. rewrite Hh. cbn [deref]. case_bool_decide as E.
  - exists (Some p). split; [done|]. exists [], l. split; [done|]. split; [congruence|]. intros x Hx. by apply elem_of_nil in Hx.
  - destruct IH as (r & -> & Hr); [intros q Hq; apply Hl; by right|]. exists r. split; [done|].
    assert (Hp : request_id_of g p <> Some id) by congruence. destruct r as [q|].
    + destruct Hr as (l1 & l2 & -> & Hq & Hl1). exists (p :: l1), l2. split; [done|]. split; [done|].
      intros x Hx. apply elem_of_cons in Hx as [->|Hx]; auto.
    + intros x Hx. apply elem_of_cons in Hx as [->|Hx]; auto.
Qed.

(** The trace of a request's callback. *)
Definition calls (q : Z) (o : gb_operation) : list trace_event := match callback o with CbNone => [] | _ => [Called q] end.

Lemma call_back_ok g ro q o r : op_inv g ro -> ops g !! q = Some o -> ro !! q = Some r ->
  exists g' o', call_back q g = Ret g' /\ op_inv g' ro /\ same_core g g' /\ cport_map g' = cport_map g /\
    ops g' = <[q := o']> (ops g) /\ response o' = response o /\ o_cport o' = o_cport o /\ bufs g' = bufs g /\
    trace g' = calls q o ++ trace g.
Proof.
  intros I Hq Hr. unfold call_back, calls, mbind, outcome_bind, get_op. rewrite Hq. cbn [deref].
  assert (Hid : ops g = <[q := o]> (ops g)) by (by rewrite insert_id).
  destruct (callback o).
  - exists g, o. split; [done|]. split; [done|]. split; [split; [apply frame_refl|done..]|]. done.
  - eexists _, _. split; [done|]. destruct (answers_put g ro q o (op_sync o (wrap32 (sync_sem o + 1))) r I Hq Hr)
      as (I1 & C1 & E1 & S1); try done.
    split; [by eapply op_inv_same; [..|exact I1]|]. split; [eapply same_core_trans; [exact C1|apply log_core]|]. done.
  - exists (log (Called q) g), o. split; [done|]. split; [by apply (op_inv_same g)|]. split; [apply log_core|]. done.
Qed.

(** The request [q] is completed: its callback is called, the core's reference
    dropped. *)
Lemma complete_ok g ro q o h : op_inv g ro -> ops g !! q = Some o -> ro !! q = Some (RClient h Completing) ->
  exists g', (g ← call_back q g; gb_operation_unref q g) = Ret g' /\ op_inv g' (roles_after ro q (response o) h Idle) /\
    same_core g g' /\ cport_map g' = cport_map g /\ bufs g' = bufs g /\ trace g' = calls q o ++ trace g /\
    forall k, k <> q -> k <> response o -> ops g' !! k = ops g !! k.
Proof.
  intros I Hq Hr. destruct (call_back_ok g ro q o _ I Hq Hr) as (g1 & o1 & E1 & I1 & C1 & Ec1 & Eo1 & Er1 & _ & Eb1 & Et1).
  unfold mbind, outcome_bind. rewrite E1.
  assert (Hq1 : ops g1 !! q = Some o1) by (rewrite Eo1; apply lookup_insert_eq).
  destruct (unref_request g1 ro q o1 h Completing h Idle I1 Hq1 Hr) as (g2 & E2 & I2 & O2 & H2); [simpl; lia|done|].
  rewrite Er1 in I2, H2. exists g2. split; [exact E2|]. split; [exact I2|].
  split; [eapply same_core_trans; [exact C1|by apply only_same_core]|]. split; [by rewrite (oo_cports _ _ O2)|].
  split; [by rewrite (oo_bufs _ _ O2)|]. split; [by rewrite (oo_trace _ _ O2)|].
  intros k Hk Hkr. rewrite H2, Eo1 by done. by apply lookup_insert_ne.
Qed.

(** An outstanding request leaves the queue to be completed. *)
Lemma leave_tx_ok g ro c cp q o h wd : op_inv g ro -> cport_map g !! c = Some cp -> ops g !! q = Some o -> o_cport o = c ->
  ro !! q = Some (RClient h InTx) ->
  op_inv (put_cport c (cp_wd (del_tx q cp) wd) g) (<[q := RClient h Completing]> ro).
Proof.
  intros I Hc Hq Hoc Hr. destruct (oi_nodup _ _ I c cp Hc) as [Hn1 Hn2]. destruct (oi_role _ _ I q o _ Hq Hr) as (? & ? & Hresp).
  apply (put_cport_role g ro c cp _ q o (RClient h InTx)); try done; simpl.
  - apply (oi_driver _ _ I c cp Hc).
  - by apply NoDup_filter.
  - intros k Hk. rewrite list_elem_of_filter. tauto.
  - rewrite list_elem_of_filter. split; [tauto|done].
  - split; [|done]. intros Hin. destruct (oi_rx _ _ I c cp q Hc Hin) as (? & _ & _ & ?). congruence.
  - split; [done|]. split; [done|]. destruct Hresp as [?|[? _]]; [by left|done].
Qed.

Lemma leave_tx_response g ro q o h : op_inv g ro -> ops g !! q = Some o -> ro !! q = Some (RClient h InTx) -> response o = 0.
Proof. intros I Hq Hr. destruct (oi_role _ _ I q o _ Hq Hr) as (_ & _ & [?|[? _]]); done. Qed.

(** The worker is at the message [p]. *)
Record working (n : nat) (held : gset Z) (p : Z) (g : greybus) (ro : gmap Z role) : Prop := {
  wk_ops : op_inv g ro;
  wk_ports : port_inv n g;
  wk_buffers : has_buffers g;
  wk_held : held_ok ro held;
  wk_quiet k r : k <> p -> ro !! k = Some r -> quiet r;
  wk_message : ro !! p = Some (RReceived false false) \/ exists q, ro !! p = Some (RAnswer q true);
}.

Lemma held_ok_insert ro held p r r' : held_ok ro held -> ro !! p = Some r ->
  (forall k, r = RClient true k -> exists k2, r' = RClient true k2) ->
  (forall k, r' = RClient true k -> exists k2, r = RClient true k2) -> held_ok (<[p := r']> ro) held.
Proof.
  intros Hh Hp H1 H2 x. rewrite (Hh x). destruct (decide (x = p)) as [->|]; [|by rewrite lookup_insert_ne].
  rewrite lookup_insert_eq, Hp. split; intros [k E]; injection E as ->.
  - destruct (H1 k eq_refl) as [k2 ->]. by exists k2.
  - destruct (H2 k eq_refl) as [k2 ->]. by exists k2.
Qed.

(** The roles once the request [q] has got its response [p] and is completed. *)
Definition answered (ro : gmap Z role) (q p : Z) (h : bool) : gmap Z role :=
  roles_after (<[p := RAnswer q true]> (<[p := RReceived false true]> (<[q := RClient h Completing]> ro))) q p h Idle.

Lemma answered_ok n held p g ro q h : working n held p g ro -> ro !! q = Some (RClient h InTx) -> p <> q ->
  held_ok (answered ro q p h) held /\ (forall k r, k <> p -> answered ro q p h !! k = Some r -> quiet r) /\
  (answered ro q p h !! p = Some (RReceived false false) \/ exists q', answered ro q p h !! p = Some (RAnswer q' true)).
Proof.
  intros [I P B Hh Hq Hm] Hr Hpq. unfold answered. rewrite insert_insert_eq.
  assert (Hp : exists r, ro !! p = Some r /\ forall k, r <> RClient true k) by (destruct Hm as [E|[? E]]; rewrite E; by eexists).
  destruct Hp as (rp & Hrp & Hnc).
  assert (H1 : held_ok (<[q := RClient h Completing]> ro) held).
  { eapply held_ok_insert; [exact Hh|exact Hr|..]; intros k [= -> _]; by eexists. }
  assert (H2 : held_ok (<[p := RAnswer q true]> (<[q := RClient h Completing]> ro)) held).
  { eapply (held_ok_insert _ _ p rp); [exact H1|by rewrite lookup_insert_ne|..]; intros k; [intros ->|done]. by destruct (Hnc k). }
  set (ro3 := <[p := RAnswer q true]> _) in *.
  assert (Hq3 : ro3 !! q = Some (RClient h Completing)) by (unfold ro3; by rewrite lookup_insert_ne, lookup_insert_eq).
  split; [by apply roles_after_core|]. split.
  - intros k r Hkp Hk. destruct (decide (k = q)) as [->|Hkq].
    + rewrite roles_after_eq in Hk. destruct (survives h Idle); [|done]. by injection Hk as <-.
    + destruct (roles_after_ne _ _ _ _ _ _ _ Hkq Hk) as [[Hk' _]|(? & _)]; [|done].
      unfold ro3 in Hk'. rewrite !lookup_insert_ne in Hk' by done. by apply (Hq k).
  - unfold roles_after. destruct h; [change (survives true Idle) with true|change (survives false Idle) with false]; cbn iota.
    + right. exists q. rewrite lookup_insert_ne by done. unfold ro3. by rewrite lookup_insert_eq.
    + left. rewrite lookup_delete_ne by done. unfold ro3. by rewrite lookup_insert_eq, lookup_insert_eq.
Qed.

(** [gb_process_response]: no request matches, or the first that does is
    completed with the message as its response. *)
Lemma process_response_ok n held p g ro hdr o c cp : working n held p g ro -> ro !! p = Some (RReceived false false) ->
  ops g !! p = Some o -> o_cport o = c -> cport_map g !! c = Some cp ->
  exists g' ro', gb_process_response hdr p g = Ret g' /\ working n held p g' ro' /\ same_core g g' /\
    ((g' = g /\ forall x, x ∈ tx_fifo cp -> request_id_of g x <> Some (h_id hdr)) \/
     exists l1 q l2 oq, tx_fifo cp = l1 ++ q :: l2 /\ (forall x, x ∈ l1 -> request_id_of g x <> Some (h_id hdr)) /\
       request_id_of g q = Some (h_id hdr) /\ q <> p /\ ops g !! q = Some oq /\
       cport_map g' = <[c := gb_watchdog_update (now g) (del_tx q cp)]> (cport_map g) /\ trace g' = calls q oq ++ trace g /\
       (q ∈ held -> option_map response (ops g' !! q) = Some p)).
Proof.
  intros W Hrp Hp Hoc Hc. pose proof W as [I P B Hh Hq Hm].
  unfold gb_process_response, mbind, outcome_bind, get_op at 1. rewrite Hp. cbn [deref]. rewrite Hoc.
  unfold gb_get_cport. rewrite Hc. cbn [deref].
  destruct (find_request_ok g (h_id hdr) (tx_fifo cp)) as (r & Er & Hfound).
  { intros q Hqin. destruct (oi_tx _ _ I c cp q Hc Hqin) as (oq & h & Hoq & _).
    destruct (has_request_buffer g q oq B Hoq) as [hq Hhq]. eauto. }
  rewrite Er. clear Er. destruct r as [q|]; [|exists g, ro; split; [done|]; split; [done|]; split; [split; [apply frame_refl|done..]|]; by left].
  destruct Hfound as (l1 & l2 & El & Hid & Hfirst).
  destruct (oi_tx _ _ I c cp q Hc) as (oq & h & Hoq & Hoqc & Hrq); [rewrite El; apply elem_of_app; right; left|].
  assert (Hpq : p <> q) by congruence.
  destruct (oi_role _ _ I p o _ Hp Hrp) as (Hrefp & Hrespp). simpl in Hrefp. pose proof (oi_addr _ _ I p o Hp).
  pose proof (leave_tx_response g ro q oq h I Hoq Hrq) as Hrespq.
  pose proof (leave_tx_ok g ro c cp q oq h (match filter (fun k => k <> q) (tx_fifo cp) with [] => None | _ => timeout_from (now g) end)
    I Hc Hoq Hoqc Hrq) as I1.
  set (cp1 := gb_watchdog_update (now g) (del_tx q cp)). set (g1 := put_cport c cp1 g).
  change (op_inv g1 (<[q := RClient h Completing]> ro)) in I1.
  rewrite (ref_eq g1 p o) by (done || lia).
  set (g2 := put_op p (op_refs o (ref_count o + 1)) g1).
  assert (I2 : op_inv g2 (<[p := RReceived false true]> (<[q := RClient h Completing]> ro))).
  { apply (put_op_ok g1 _ p o _ (RReceived false false)); try done; [by rewrite lookup_insert_ne|by left|].
    split; [simpl; lia|done]. }
  assert (Hoq2 : ops g2 !! q = Some oq) by (unfold g2, g1; gcbn; by rewrite lookup_insert_ne).
  unfold get_op. rewrite Hoq2. cbn [deref].
  assert (I3 : op_inv (put_op q (op_response oq p) g2) (<[p := RAnswer q true]> (<[p := RReceived false true]> (<[q := RClient h Completing]> ro)))).
  { eapply (attach_ok g2 _ p q _ oq true h Completing I2); try done; [unfold g2; gcbn; apply lookup_insert_eq|apply lookup_insert_eq|].
    rewrite lookup_insert_ne by done. apply lookup_insert_eq. }
  set (g3 := put_op q (op_response oq p) g2) in *.
  assert (Hq3 : ops g3 !! q = Some (op_response oq p)) by apply lookup_insert_eq.
  destruct (complete_ok g3 _ q (op_response oq p) h I3 Hq3) as (g4 & E4 & I4 & C4 & Ec4 & Eb4 & Et4 & Hk4);
    [rewrite !lookup_insert_ne by done; apply lookup_insert_eq|].
  unfold mbind, outcome_bind in E4. rewrite E4.
  assert (C13 : same_core g g3).
  { apply (same_core_trans _ g1); [apply (put_cport_core g c cp cp1 Hc eq_refl)|].
    apply (same_core_trans _ g2); [by apply only_same_core, (put_op_only g1 p o)|]. by apply only_same_core, (put_op_only g2 q oq). }
  destruct (answered_ok n held p g ro q h W Hrq Hpq) as (Hh' & Hq' & Hm').
  exists g4, (answered ro q p h). split; [done|]. split; [split|].
  - exact I4.
  - eapply port_same; [exact Ec4|]. destruct (P _ _ Hc) as (P1 & P2 & _). by apply port_put, watchdog_update_ok.
  - eapply frame_buffers; [apply C4|]. eapply frame_buffers; [apply C13|done].
  - exact Hh'.
  - exact Hq'.
  - exact Hm'.
  - split; [by eapply same_core_trans|]. right. exists l1, q, l2, oq. do 3 (split; [done|]).
    split; [by apply not_eq_sym|]. split; [done|]. split; [by rewrite Ec4|]. split; [rewrite Et4; done|].
    intros Hqh. apply Hh in Hqh as [k Hk]. rewrite Hrq in Hk. injection Hk as -> _.
    assert (Hr4 : answered ro q p true !! q = Some (RClient true Idle)) by apply roles_after_eq.
    destruct (proj2 (oi_dom _ _ I4 q) (ex_intro _ _ Hr4)) as [o4 Ho4]. rewrite Ho4. simpl. f_equal.
    assert (Hp4 : answered ro q p true !! p = Some (RAnswer q true)).
    { unfold answered, roles_after. change (survives true Idle) with true. cbn iota. rewrite lookup_insert_ne by done. apply lookup_insert_eq. }
    by destruct (answer_is_response g4 _ q o4 p true I4 Ho4 Hp4).
Qed.

(** The worker is done with the message. *)
Lemma finish_message n held p g ro : working n held p g ro ->
  exists g' ro', gb_operation_destroy p g = Ret g' /\ op_inv g' ro' /\ port_inv n g' /\ has_buffers g' /\ held_ok ro' held /\
    all_quiet ro' /\ same_core g g' /\ cport_map g' = cport_map g /\ trace g' = trace g /\
    forall k, k <> p -> ops g' !! k = ops g !! k.
Proof.
  intros [I P B Hh Hq Hm].
  assert (Hp : is_Some (ro !! p)) by (destruct Hm as [E|[? E]]; rewrite E; by eexists).
  apply (oi_dom _ _ I) in Hp as [o Hp]. pose proof (oi_addr _ _ I p o Hp).
  assert (Hrest : forall ro', op_inv (drop_op p o g) ro' -> held_ok ro' held -> all_quiet ro' -> 0 < ref_count o < 2 ^ 32 -> response o = 0 ->
    exists g' ro', gb_operation_destroy p g = Ret g' /\ op_inv g' ro' /\ port_inv n g' /\ has_buffers g' /\ held_ok ro' held /\
      all_quiet ro' /\ same_core g g' /\ cport_map g' = cport_map g /\ trace g' = trace g /\
      forall k, k <> p -> ops g' !! k = ops g !! k).
  { intros ro' I' Hh' Hq' Href Hresp. unfold gb_operation_destroy, gb_operation_unref. rewrite bool_decide_eq_false_2 by lia.
    pose proof (drop_op_only g p o Hp) as O. exists (drop_op p o g), ro'. split; [apply unref_leaf; [done|lia|done|done]|].
    split; [done|]. split; [eapply port_same; [apply O|done]|]. split; [eapply frame_buffers; [apply only_ops_frame, O|done]|].
    split; [done|]. split; [done|]. split; [by apply only_same_core|]. split; [apply O|]. split; [apply O|].
    intros k Hk. by apply drop_op_other. }
  destruct Hm as [Hr|[q Hr]].
  - destruct (oi_role _ _ I p o _ Hp Hr) as [Href Hresp]. apply (Hrest (delete p ro)); simpl in Href; try done; try lia.
    + by apply (drop_received_ok g ro p o false).
    + intros x. rewrite (Hh x). destruct (decide (x = p)) as [->|]; [|by rewrite lookup_delete_ne].
      rewrite lookup_delete_eq, Hr. split; by intros [? ?].
    + intros k r Hk. destruct (decide (k = p)) as [->|]; [by rewrite lookup_delete_eq in Hk|].
      rewrite lookup_delete_ne in Hk by done. by apply (Hq k).
  - destruct (oi_role _ _ I p o _ Hp Hr) as (Href & Hresp & _). apply (Hrest (<[p := RAnswer q false]> ro)); simpl in Href; try done; try lia.
    + by apply drop_answer_ok.
    + by eapply held_ok_insert.
    + intros k r Hk. destruct (decide (k = p)) as [->|]; [rewrite lookup_insert_eq in Hk; by injection Hk as <-|].
      rewrite lookup_insert_ne in Hk by done. by apply (Hq k).
Qed.

(** Taking a message off the [rx_fifo]. *)
Lemma pop_rx_ok g ro c cp p o l sem : op_inv g ro -> cport_map g !! c = Some cp -> rx_fifo cp = RxOp p :: l ->
  ops g !! p = Some o -> o_cport o = c -> ro !! p = Some (RReceived true false) ->
  op_inv (put_cport c (cp_rx cp l sem) g) (<[p := RReceived false false]> ro).
Proof.
  intros I Hc El Hp Hoc Hr. destruct (oi_nodup _ _ I c cp Hc) as [Hn1 Hn2]. rewrite El in Hn2. apply NoDup_cons in Hn2 as [Hni Hn2].
  destruct (oi_role _ _ I p o _ Hp Hr) as [? ?].
  apply (put_cport_role g ro c cp _ p o (RReceived true false)); try done; simpl.
  - apply (oi_driver _ _ I c cp Hc).
  - split; [|done]. intros Hin. destruct (oi_tx _ _ I c cp p Hc Hin) as (? & ? & _ & _ & ?). congruence.
  - intros q Hq. rewrite El, elem_of_cons. split; [by right|]. intros [[= ?]|?]; done.
Qed.

(** The worker takes a received message. *)
Lemma take_message run_handler n s ro c cp p l ok ret : sys_inv n s ro -> cport_map (st s) !! c = Some cp ->
  rx_fifo cp = RxOp p :: l ->
  let g1 := put_cport c (cp_rx cp l (rx_fifo_semaphore cp - 1)) (st s) in
  exists o hdr, ops g1 !! p = Some o /\ o_cport o = c /\ bufs g1 !! request_buffer o = Some hdr /\
    working n (held s) p g1 (<[p := RReceived false false]> ro) /\ same_core (st s) g1 /\
    gb_pending_message_worker run_handler ok ret c (st s) =
      (g ← (if bool_decide (Z.land (h_type hdr) TYPE_RESPONSE_FLAG <> 0) then gb_process_response hdr p g1
            else gb_process_request run_handler ok ret hdr p g1);
       gb_operation_destroy p g).
Proof.
  intros [I P B Hh Hq Hn Hid] Hc El g1. set (g := st s) in *.
  destruct (P c cp Hc) as (P1 & P2 & P3 & P4). rewrite El in P1, P2, P3. simpl in P1, P2.
  destruct (oi_rx _ _ I c cp p Hc) as (o & Hp & Hoc & Hr); [rewrite El; left|].
  destruct (has_request_buffer g p o B Hp) as [hdr Hhdr].
  pose proof (pop_rx_ok g ro c cp p o l (rx_fifo_semaphore cp - 1) I Hc El Hp Hoc Hr) as I1. fold g1 in I1.
  assert (C1 : same_core g g1) by (by apply (put_cport_core g c cp)).
  exists o, hdr. do 3 (split; [done|]). split; [|split; [done|]].
  - split; [done|..].
    + apply port_put; [done|]. split; [simpl; lia|]. split; [simpl; lia|]. split; [|done]. simpl. intros Htx.
      destruct (P3 Htx) as [?|Hin]; [by left|]. right. apply elem_of_cons in Hin as [?|?]; done.
    + eapply frame_buffers; [apply C1|done].
    + by eapply held_ok_insert.
    + intros k r Hk. rewrite lookup_insert_ne by done. apply Hq.
    + left. apply lookup_insert_eq.
  - unfold gb_pending_message_worker, mbind, outcome_bind, gb_get_cport. rewrite Hc. cbn [deref].
    rewrite bool_decide_eq_false_2 by lia. rewrite El. fold g1. unfold get_op, get_buf. change (ops g1) with (ops g). rewrite Hp.
    cbn [deref]. change (bufs g1) with (bufs g). rewrite Hhdr. done.
Qed.

(** One round of the worker on a received message. *)
Lemma work_message_ok run_handler n s ro c cp p l ok ret : sys_inv n s ro -> cport_map (st s) !! c = Some cp ->
  rx_fifo cp = RxOp p :: l ->
  exists g' ro', gb_pending_message_worker run_handler ok ret c (st s) = Ret g' /\ sys_inv n (mk_sys g' (held s) (sending s)) ro' /\
    same_core (st s) g'.
Proof.
  intros V Hc El. destruct (take_message run_handler n s ro c cp p l ok ret V Hc El) as (o & hdr & Hp & Hoc & Hhdr & W & C1 & ->).
  set (g1 := put_cport _ _ _) in *. unfold mbind, outcome_bind.
  assert (Hmid : exists g2 ro2, (if bool_decide (Z.land (h_type hdr) TYPE_RESPONSE_FLAG <> 0) then gb_process_response hdr p g1
      else gb_process_request run_handler ok ret hdr p g1) = Ret g2 /\ working n (held s) p g2 ro2 /\ same_core g1 g2).
  { case_bool_decide.
    - destruct (process_response_ok n (held s) p g1 _ hdr o c (cp_rx cp l (rx_fifo_semaphore cp - 1)) W) as (g2 & ro2 & E & W2 & C2 & _);
        try done; [apply lookup_insert_eq..|]. by exists g2, ro2.
    - destruct (process_request_ok run_handler g1 _ ok ret hdr p (wk_ops _ _ _ _ _ W)) as (g2 & E & I2 & C2 & Ec & _); [apply W|by exists o|].
      exists g2, (<[p := RReceived false false]> ro). split; [done|]. split; [|done]. split; try apply W; [done|..].
      + eapply port_same; [exact Ec|apply W].
      + eapply frame_buffers; [apply C2|apply W]. }
  destruct Hmid as (g2 & ro2 & -> & W2 & C2).
  destruct (finish_message n (held s) p g2 ro2 W2) as (g3 & ro3 & -> & I3 & P3' & B3 & Hh3 & Hq3 & C3 & _).
  exists g3, ro3. split; [done|]. assert (C : same_core (st s) g3) by (eapply same_core_trans; [exact C1|]; by eapply same_core_trans).
  split; [|done]. split; cbn [st held]; try done.
  - rewrite (fr_next _ _ (sc_frame _ _ C)). apply V.
  - rewrite (sc_id _ _ C). apply V.
Qed.

(** *** Cleaning up *)

(** The requests a clean-up of [l] takes off the queue. *)
Definition expired (g : greybus) (q : Z) : bool :=
  match ops g !! q with Some o => gb_operation_has_timedout (now g) o | None => false end.
Definition calls_of (g : greybus) (q : Z) : list trace_event := match ops g !! q with Some o => calls q o | None => [] end.

Lemma clean_loop held c l g ro cp : op_inv g ro -> has_buffers g -> held_ok ro held -> all_quiet ro ->
  cport_map g !! c = Some cp -> NoDup l -> (forall q, q ∈ l -> q ∈ tx_fifo cp) ->
  exists g' ro', foldO (clean_one c) g l = Ret g' /\ op_inv g' ro' /\ has_buffers g' /\ held_ok ro' held /\ all_quiet ro' /\
    same_core g g' /\
    cport_map g' = <[c := cp_tx cp (filter (fun q => ~ (q ∈ l /\ expired g q = true)) (tx_fifo cp))]> (cport_map g) /\
    trace g' = mjoin (calls_of g <$> reverse (filter (fun q => expired g q = true) l)) ++ trace g.
Proof.
  revert g ro cp. induction l as [|p l IH]; intros g ro cp I B Hh Hq Hc Hnd Hin.
  { exists g, ro. split; [done|]. do 4 (split; [done|]). split; [split; [apply frame_refl|done..]|]. split; [|done].
    rewrite filter_id by (intros x _ [Hx _]; by apply elem_of_nil in Hx).
    rewrite insert_id; [done|]. rewrite Hc. by destruct cp. }
  apply NoDup_cons in Hnd as [Hpl Hnd]. destruct (oi_tx _ _ I c cp p Hc) as (o & h & Hp & Hoc & Hr); [apply Hin; left|].
  cbn [foldO]. unfold clean_one at 1, mbind, outcome_bind, get_op at 1. rewrite Hp. cbn [deref].
  assert (Hexp : expired g p = gb_operation_has_timedout (now g) o) by (unfold expired; by rewrite Hp).
  destruct (gb_operation_has_timedout (now g) o) eqn:Et; cbn [negb].
  - unfold gb_get_cport. rewrite Hc. cbn [deref].
    pose proof (leave_tx_ok g ro c cp p o h (timeout_wd cp) I Hc Hp Hoc Hr) as I1.
    change (cp_wd (del_tx p cp) (timeout_wd cp)) with (del_tx p cp) in I1. set (g1 := put_cport c (del_tx p cp) g) in *.
    assert (C1 : same_core g g1) by (by apply (put_cport_core g c cp)).
    destruct (complete_ok g1 _ p o h I1 Hp (lookup_insert_eq _ _ _)) as (g2 & E2 & I2 & C2 & Ec2 & Eb2 & Et2 & Hk2).
    unfold mbind, outcome_bind in E2. rewrite E2. pose proof (leave_tx_response g ro p o h I Hp Hr) as Hresp.
    assert (Hc2 : cport_map g2 !! c = Some (del_tx p cp)) by (rewrite Ec2; apply lookup_insert_eq).
    assert (C12 : same_core g g2) by (by eapply same_core_trans).
    assert (Hops : forall q, q ∈ l -> ops g2 !! q = ops g !! q).
    { intros q Hql. apply (Hk2 q); [by intros ->|]. rewrite Hresp. intros ->.
      destruct (oi_tx _ _ I c cp 0 Hc) as (o0 & _ & Ho0 & _); [apply Hin; by right|]. pose proof (oi_addr _ _ I 0 o0 Ho0). lia. }
    assert (Hexp2 : forall q, q ∈ l -> expired g2 q = expired g q).
    { intros q Hql. unfold expired. by rewrite Hops, (sc_now _ _ C12). }
    destruct (IH g2 _ (del_tx p cp) I2) as (g3 & ro3 & E3 & I3 & B3 & Hh3 & Hq3 & C3 & Ec3 & Et3); try done.
    + eapply frame_buffers; [apply C12|done].
    + apply roles_after_core; [apply lookup_insert_eq|]. eapply held_ok_insert; [done|exact Hr|..]; intros k [= -> _]; by eexists.
    + apply roles_after_quiet; [|done]. intros k s Hk. rewrite lookup_insert_ne by done. apply Hq.
    + intros q Hql. apply del_tx_elem. split; [by intros ->|]. apply Hin. by right.
    + exists g3, ro3. split; [done|]. do 4 (split; [done|]). split; [by eapply same_core_trans|]. split.
      * rewrite Ec3, Ec2. unfold g1. gcbn. rewrite insert_insert_eq. do 2 f_equal. simpl. rewrite list_filter_filter.
        apply filter_ext_in. intros q _. rewrite elem_of_cons. split.
        -- intros [H1 H2] [[->|Hql] He]; [done|]. apply H1. by rewrite Hexp2.
        -- intros H1. split; [intros [Hql He]; apply H1; rewrite Hexp2 in He by done; by split; [right|]|].
           intros ->. apply H1. split; [by left|congruence].
      * rewrite Et3, Et2. rewrite filter_cons_True by congruence. rewrite reverse_cons, fmap_app, join_app. simpl.
        rewrite app_nil_r, <- app_assoc. unfold calls_of at 3. rewrite Hp. f_equal.
        rewrite (filter_ext_in _ (fun q => expired g q = true)) by (intros q Hql; by rewrite Hexp2).
        f_equal. apply list_fmap_ext. intros i q Hi. unfold calls_of. rewrite Hops; [done|].
        apply list_elem_of_lookup_2 in Hi. rewrite elem_of_reverse, list_elem_of_filter in Hi. tauto.
  - destruct (IH g ro cp I B Hh Hq Hc Hnd) as (g3 & ro3 & E3 & I3 & B3 & Hh3 & Hq3 & C3 & Ec3 & Et3); [intros q Hql; apply Hin; by right|].
    exists g3, ro3. split; [done|]. do 5 (split; [done|]). split.
    + rewrite Ec3. do 2 f_equal. apply filter_ext_in. intros q _. rewrite elem_of_cons. split; intros H1 [H2 H3]; apply H1; (split; [|done]).
      * destruct H2 as [->|?]; [congruence|done].
      * by right.
    + rewrite Et3. by rewrite (filter_cons_False _ p l) by congruence.
Qed.

(** One round of the worker on a time-out: exactly the requests that are out of
    time leave the queue, each with its callback called. *)
Lemma work_timeout_ok run_handler n s ro c cp l ok ret : sys_inv n s ro -> cport_map (st s) !! c = Some cp ->
  rx_fifo cp = RxTimeout :: l ->
  exists g' ro', gb_pending_message_worker run_handler ok ret c (st s) = Ret g' /\ sys_inv n (mk_sys g' (held s) (sending s)) ro' /\
    same_core (st s) g' /\
    option_map tx_fifo (cport_map g' !! c) = Some (filter (fun q => expired (st s) q = false) (tx_fifo cp)) /\
    trace g' = mjoin (calls_of (st s) <$> reverse (filter (fun q => expired (st s) q = true) (tx_fifo cp))) ++ trace (st s).
Proof.
  intros [I P B Hh Hq Hn Hid] Hc El. set (g := st s) in *.
  destruct (P c cp Hc) as (P1 & P2 & P3 & P4). rewrite El in P1, P2, P3. simpl in P1, P2.
  destruct (oi_nodup _ _ I c cp Hc) as [Hn1 Hn2]. rewrite El in Hn2. apply NoDup_cons in Hn2 as [_ Hn2].
  unfold gb_pending_message_worker, mbind, outcome_bind, gb_get_cport. rewrite Hc. cbn [deref].
  rewrite bool_decide_eq_false_2 by lia. rewrite El. set (cp1 := cp_rx cp l _). set (g1 := put_cport c cp1 g).
  assert (C1 : same_core g g1) by (by apply (put_cport_core g c cp cp1)).
  assert (I1 : op_inv g1 ro).
  { apply (put_cport_same g ro c cp); try done; [apply (oi_driver _ _ I c cp Hc)|].
    intros q. rewrite El, elem_of_cons. split; [by right|]. by intros [?|?]. }
  assert (Hc1 : cport_map g1 !! c = Some cp1) by apply lookup_insert_eq.
  unfold gb_clean_timedout_operation, mbind, outcome_bind, gb_get_cport. rewrite Hc1. cbn [deref].
  destruct (clean_loop (held s) c (tx_fifo cp1) g1 ro cp1 I1) as (g2 & ro2 & E2 & I2 & B2 & Hh2 & Hq2 & C2 & Ec2 & Et2); try done.
  { eapply frame_buffers; [apply C1|done]. }
  rewrite E2. set (tx' := filter _ (tx_fifo cp1)) in Ec2.
  assert (Hc2 : cport_map g2 !! c = Some (cp_tx cp1 tx')) by (rewrite Ec2; apply lookup_insert_eq).
  rewrite Hc2. cbn [deref]. set (cp3 := gb_watchdog_update _ _). set (g3 := put_cport c cp3 g2).
  assert (C23 : same_core g2 g3) by (by apply (put_cport_core g2 c (cp_tx cp1 tx'))).
  assert (C : same_core g g3) by (eapply same_core_trans; [exact C1|]; by eapply same_core_trans).
  exists g3, ro2. split; [done|]. split; [|split; [done|split]].
  - split; cbn [st held]; try done.
    + apply (put_cport_same g2 ro2 c (cp_tx cp1 tx')); try done. apply (oi_driver _ _ I2 c _ Hc2).
    + apply port_put_other; [|apply watchdog_update_ok; simpl; lia]. intros c' cp' Hne. rewrite Ec2. unfold g1. gcbn.
      rewrite insert_insert_eq, lookup_insert_ne by done. apply P.
    + eapply frame_buffers; [apply C23|done].
    + rewrite (fr_next _ _ (sc_frame _ _ C)). exact Hn.
    + rewrite (sc_id _ _ C). exact Hid.
  - unfold g3. gcbn. rewrite lookup_insert_eq. simpl. f_equal. unfold tx'. apply filter_ext_in. intros q Hq'.
    change (expired g1 q) with (expired g q). destruct (expired g q); split; try done; intros H1; [destruct H1; by split|by intros [_ ?]].
  - unfold g3. gcbn. rewrite Et2. done.
Qed.

(** *** Receiving *)

Lemma port_mono n m g : (n <= m)%nat -> port_inv n g -> port_inv m g.
Proof. intros Hnm P c cp Hc. destruct (P c cp Hc) as (? & ? & ? & ?). split; [done|]. split; [lia|done]. Qed.

(** An entry joins the [rx_fifo] and the semaphore is raised. *)
Lemma port_push n cp e b : port_ok n cp -> Z.of_nat n < 2 ^ 32 - 1 ->
  port_ok (S n) (cp_buf (cp_rx cp (rx_fifo cp ++ [e]) (wrap32 (rx_fifo_semaphore cp + 1))) b).
Proof.
  intros (P1 & P2 & P3 & P4) Hn. split; [simpl; rewrite length_app, P1, wrap32_small by lia; simpl; lia|].
  split; [simpl; rewrite length_app; simpl; lia|]. split; [|done]. simpl. intros Htx. destruct (P3 Htx) as [?|?]; [by left|].
  right. apply elem_of_app. by left.
Qed.

(** A new message [p] gets the device's buffer and waits for the worker. *)
Lemma queue_message_ok g ro p o c cp b g' : op_inv g (<[p := RReceived false false]> ro) -> has_buffers g -> 0 < next g ->
  ops g !! p = Some o -> o_cport o = c -> cport_map g !! c = Some cp -> rx_buf cp <> 0 ->
  alloc_buffer (put_op p (op_request o (rx_buf cp)) (free_buffer (request_buffer o) g)) = (b, g') ->
  let gf := put_cport c (cp_buf (cp_rx cp (rx_fifo cp ++ [RxOp p]) (wrap32 (rx_fifo_semaphore cp + 1))) b) g' in
  op_inv gf (<[p := RReceived true false]> ro) /\ has_buffers gf.
Proof.
  intros I B Hn Hp Hoc Hc Hrb E gf. set (g2 := put_op p _ _) in E.
  assert (Hrp : <[p := RReceived false false]> ro !! p = Some (RReceived false false)) by apply lookup_insert_eq.
  assert (Hfree : forall b', ops (free_buffer b' g) = ops g /\ op_cache (free_buffer b' g) = op_cache g /\
    cport_map (free_buffer b' g) = cport_map g /\ next (free_buffer b' g) = next g)
    by (intros b'; unfold free_buffer; by case_bool_decide).
  destruct (Hfree (request_buffer o)) as (F1 & F2 & F3 & F4).
  assert (I2 : op_inv g2 (<[p := RReceived false false]> ro)).
  { assert (If : op_inv (free_buffer (request_buffer o) g) (<[p := RReceived false false]> ro)) by (by apply (op_inv_same g)).
    apply (put_op_same _ _ p o _ (RReceived false false)); try done. by rewrite F1. }
  assert (Hsame : ops g' = ops g2 /\ op_cache g' = op_cache g2 /\ cport_map g' = cport_map g2 /\ next g2 <= next g').
  { unfold alloc_buffer in E. destruct (buf_cache g2); [destruct (bufs_left g2)|]; injection E as <- <-; do 3 (split; [done|]); unfold g2; gcbn; lia. }
  destruct Hsame as (A1 & A2 & A3 & A4).
  assert (I3 : op_inv g' (<[p := RReceived false false]> ro)) by (by apply (op_inv_grow g2)).
  assert (Hc' : cport_map g' !! c = Some cp) by (rewrite A3; unfold g2; gcbn; by rewrite F3).
  assert (Hp' : ops g' !! p = Some (op_request o (rx_buf cp))) by (rewrite A1; apply lookup_insert_eq).
  destruct (oi_nodup _ _ I3 c cp Hc') as [Hn1 Hn2]. destruct (oi_role _ _ I3 p _ _ Hp' Hrp) as [Href Hresp].
  assert (Hnrx : RxOp p ∉ rx_fifo cp).
  { intros Hin. destruct (oi_rx _ _ I3 c cp p Hc' Hin) as (? & _ & _ & Hr). congruence. }
  split.
  - rewrite <- (insert_insert_eq ro p (RReceived true false) (RReceived false false)).
    apply (put_cport_role g' _ c cp _ p (op_request o (rx_buf cp)) (RReceived false false)); try done; simpl.
    + apply (oi_driver _ _ I3 c cp Hc').
    + apply NoDup_app. split; [done|]. split; [|apply NoDup_singleton]. intros x Hx ->%list_elem_of_singleton. done.
    + split; [|done]. intros Hin. destruct (oi_tx _ _ I3 c cp p Hc' Hin) as (? & ? & _ & _ & Hr). congruence.
    + intros q Hq. rewrite elem_of_app, list_elem_of_singleton. split; [|by left]. intros [?|[= ->]]; done.
    + rewrite elem_of_app, list_elem_of_singleton. split; [done|by right].
  - assert (Hpc : forall x, (p, x) ∉ op_cache g) by (intros x Hx; destruct (oi_cache _ _ I p x Hx) as (_ & ? & _); congruence).
    pose proof (take_message_buffers g p o c cp B Hp Hpc Hc Hrb) as B2. fold g2 in B2.
    assert (Ea : alloc_buffer (put_cport c (cp_buf cp 0) g2) = (b, put_cport c (cp_buf cp 0) g')).
    { unfold alloc_buffer in *. gcbn. destruct (buf_cache g2); [destruct (bufs_left g2)|]; by injection E as <- <-. }
    pose proof (give_buffer_buffers (put_cport c (cp_buf cp 0) g2) c (cp_buf cp 0) b (put_cport c (cp_buf cp 0) g')
      (cp_buf (cp_rx cp (rx_fifo cp ++ [RxOp p]) (wrap32 (rx_fifo_semaphore cp + 1))) b) B2) as B3.
    eapply frame_buffers; [|apply B3]; try done.
    + apply same_frame; try done. unfold gf. gcbn. by rewrite insert_insert_eq.
    + unfold g2. gcbn. by rewrite F4.
    + apply lookup_insert_eq.
Qed.

(** How memory for new objects shrinks: a step makes at most one operation, with
    its buffer, and takes at most one more buffer. *)
Definition spends (g g' : greybus) : Prop := (ops_left g' + bufs_left g <= ops_left g + bufs_left g' + 1)%nat.

Lemma same_core_spends g g' : same_core g g' -> spends g g'.
Proof. intros C. unfold spends. destruct (sc_left _ _ C) as [-> ->]. lia. Qed.

Lemma sys_inv_mono n m s ro : (n <= m)%nat -> sys_inv n s ro -> sys_inv m s ro.
Proof. intros Hnm [I P B Hh Hq Hn Hid]. split; try done. by eapply port_mono. Qed.

Lemma receive_ok n s ro c cp hdr size : sys_inv n s ro -> cport_map (st s) !! c = Some cp -> rx_buf cp <> 0 -> size <= GREYBUS_MTU ->
  Z.of_nat n < 2 ^ 32 - 1 -> (ops_left (st s) <= bufs_left (st s))%nat ->
  exists g' ro', greybus_rx_handler c (rx_buf cp) size (put_buf (rx_buf cp) hdr (st s)) = Ret g' /\
    sys_inv (S n) (mk_sys g' (held s) (sending s)) ro' /\ spends (st s) g'.
Proof.
  intros [I P B Hh Hq Hn Hid] Hc Hrb Hsz Hn32 Hleft. set (g1 := put_buf (rx_buf cp) hdr (st s)).
  assert (I1 : op_inv g1 ro) by (by apply (op_inv_same (st s))).
  assert (B1 : has_buffers g1) by (eapply frame_buffers; [apply put_buf_frame|done]).
  assert (Hself : sys_inv (S n) (mk_sys g1 (held s) (sending s)) ro) by (split; try done; by apply (port_mono n); [lia|]).
  assert (Hsp : spends (st s) g1) by (unfold spends; simpl; lia).
  unfold greybus_rx_handler, gb_get_cport. change (cport_map g1) with (cport_map (st s)). rewrite Hc.
  rewrite (bool_decide_eq_false_2 (rx_buf cp = 0)) by done. destruct (oi_driver _ _ I c cp Hc) as [d Hd].
  case_bool_decide; [by exists g1, ro|]. case_bool_decide; [by exists g1, ro|].
  unfold mbind, outcome_bind, get_buf. unfold g1 at 1. gcbn. rewrite lookup_insert_eq. cbn [deref].
  destruct (bool_decide (size < h_size hdr) || bool_decide (h_size hdr < hdr_sizeof)) eqn:Esz; [by exists g1, ro|].
  apply orb_false_iff in Esz as [E1%bool_decide_eq_false E2%bool_decide_eq_false]. unfold hdr_sizeof, GREYBUS_MTU in *.
  destruct (find_handler_total g1 (h_type hdr) c cp d Hc Hd) as [h ->].
  case_bool_decide.
  { exists (log (Fast c hdr) g1), ro. split; [done|]. split; [|done]. destruct Hself as [J1 J2 J3 J4 J5 J6 J7].
    split; cbn [st held] in *; try done; [by apply (op_inv_same g1)|]. eapply frame_buffers; [apply log_frame|done]. }
  destruct (create_ok g1 ro c 0 (h_size hdr - 8) (RReceived false false) I1 B1 Hn Hleft) as [E|(p & o & g2 & E & I2 & B2 & Hrp & Hp0 & Hp & Hoc & Hcm & Hn2 & Hid2 & _ & Hl2)];
    try (unfold hdr_sizeof, GREYBUS_MTU; lia); [by eexists|by right|rewrite E; by exists g1, ro|]. rewrite E.
  rewrite bool_decide_eq_false_2 by lia. unfold get_op. rewrite Hp. cbn [deref].
  destruct (alloc_buffer (put_op p (op_request o (rx_buf cp)) (free_buffer (request_buffer o) g2))) as [b g3] eqn:Ea.
  assert (Hc2 : cport_map g2 !! c = Some cp) by (by rewrite Hcm).
  destruct (queue_message_ok g2 ro p o c cp b g3 I2 B2 ltac:(simpl in Hn2; lia) Hp Hoc Hc2 Hrb Ea) as [If Bf].
  assert (Hg3 : cport_map g3 = cport_map g2 /\ request_id g3 = request_id g2 /\ ops_left g3 = ops_left g2 /\
    (bufs_left g2 <= bufs_left g3 + 1)%nat /\ next g2 <= next g3).
  { unfold alloc_buffer, free_buffer in Ea. case_bool_decide; gcbn.
    - cbn in Ea. injection Ea as <- <-. cbn. repeat split; lia.
    - cbn in Ea. destruct (buf_cache g2); [destruct (bufs_left g2) eqn:El|]; injection Ea as <- <-; cbn; repeat split; lia. }
  destruct Hg3 as (G1 & G2 & G3 & G4 & G5).
  rewrite G1, Hc2. cbn [deref]. eexists _, _. split; [done|]. split.
  - split; cbn [st held]; [exact If|..|exact Bf| | |unfold put_cport; gcbn; simpl in Hn2; lia|gcbn; rewrite G2, Hid2; exact Hid].
    + apply port_put; [|apply port_push; [by apply (P c)|lia]]. apply (port_same _ (st s)); [rewrite G1; exact Hcm|]. apply (port_mono n); [lia|exact P].
    + intros x. rewrite (Hh x). destruct (decide (x = p)) as [->|]; [|by rewrite lookup_insert_ne].
      rewrite lookup_insert_eq, Hrp. split; by intros [? ?].
    + intros k r. destruct (decide (k = p)) as [->|]; [rewrite lookup_insert_eq; by intros [= <-]|].
      rewrite lookup_insert_ne by done. apply Hq.
  - unfold spends. gcbn. simpl in Hl2. lia.
Qed.

(** *** Every step keeps the invariant *)

Lemma work_ok run_handler n s ro c ok ret : sys_inv n s ro -> is_Some (cport_map (st s) !! c) ->
  exists g' ro', gb_pending_message_worker run_handler ok ret c (st s) = Ret g' /\ sys_inv n (mk_sys g' (held s) (sending s)) ro' /\
    same_core (st s) g'.
Proof.
  intros V [cp Hc]. destruct (si_ports _ _ _ V c cp Hc) as (P1 & _). destruct (rx_fifo cp) as [|[p|] l] eqn:El.
  - exists (st s), ro. split; [|split; [by destruct s|split; [apply frame_refl|done..]]].
    unfold gb_pending_message_worker, mbind, outcome_bind, gb_get_cport. rewrite Hc. cbn [deref].
    by rewrite bool_decide_eq_true_2 by (simpl in P1; lia).
  - by apply (work_message_ok run_handler n s ro c cp p l).
  - destruct (work_timeout_ok run_handler n s ro c cp l ok ret V Hc El) as (g' & ro' & E & V' & C & _). by exists g', ro'.
Qed.

Lemma timer_ok n s ro c cp d : sys_inv n s ro -> cport_map (st s) !! c = Some cp -> timeout_wd cp = Some d ->
  Z.of_nat n < 2 ^ 32 - 1 ->
  exists g', gb_operation_timeout c (put_cport c (cp_wd cp None) (st s)) = Ret g' /\ sys_inv (S n) (mk_sys g' (held s) (sending s)) ro /\
    same_core (st s) g'.
Proof.
  intros [I P B Hh Hq Hn Hid] Hc Hwd Hn32. set (g := st s) in *. destruct (P c cp Hc) as (P1 & P2 & P3 & P4).
  destruct (oi_nodup _ _ I c cp Hc) as [_ Hn2].
  set (g1 := put_cport c (cp_wd cp None) g). assert (C1 : same_core g g1) by (by apply (put_cport_core g c cp)).
  assert (Hc1 : cport_map g1 !! c = Some (cp_wd cp None)) by apply lookup_insert_eq.
  unfold gb_operation_timeout, mbind, outcome_bind, gb_get_cport. rewrite Hc1. cbn [deref].
  change (rx_fifo (cp_wd cp None)) with (rx_fifo cp). case_bool_decide as Hin.
  - exists g1. split; [done|]. split; [|done]. split; cbn [st held]; try done.
    + apply (put_cport_same g ro c cp); try done. apply (oi_driver _ _ I c cp Hc).
    + apply port_put; [by apply (port_mono n); [lia|]|]. split; [done|]. split; [simpl; lia|]. split; [|done]. intros _. by right.
    + eapply frame_buffers; [apply C1|done].
  - set (cp2 := cp_rx _ _ _). set (g2 := put_cport c cp2 g1).
    assert (C2 : same_core g g2) by (eapply same_core_trans; [exact C1|]; by apply (put_cport_core g1 c (cp_wd cp None))).
    exists g2. split; [done|]. split; [|done]. split; cbn [st held]; try done.
    + assert (E : op_inv (put_cport c cp2 g) ro).
      { apply (put_cport_same g ro c cp); try done; simpl.
        - apply (oi_driver _ _ I c cp Hc).
        - apply NoDup_app. split; [done|]. split; [|apply NoDup_singleton]. by intros x Hx ->%list_elem_of_singleton.
        - intros q. rewrite elem_of_app, list_elem_of_singleton. split; [|by left]. by intros [?|?]. }
      apply (op_inv_same (put_cport c cp2 g)); try done. unfold g2, g1. gcbn. by rewrite insert_insert_eq.
    + apply port_put_other.
      * intros c' cp' Hne. unfold g1. gcbn. rewrite lookup_insert_ne by done. by apply (port_mono n (S n) g); [lia|].
      * split; [simpl; rewrite length_app, P1, wrap32_small by lia; simpl; lia|]. split; [simpl; rewrite length_app; simpl; lia|].
        split; [|done]. intros _. right. simpl. apply elem_of_app. right. by apply list_elem_of_singleton.
    + eapply frame_buffers; [apply C2|done].
Qed.

Lemma register_ok n s ro c d : sys_inv n s ro ->
  sys_inv n (mk_sys (snd (gb_register_driver c (Some d) 0 None true true (st s))) (held s) (sending s)) ro /\
  spends (st s) (snd (gb_register_driver c (Some d) 0 None true true (st s))).
Proof.
  intros [I P B Hh Hq Hn Hid]. assert (Hs : mk_sys (st s) (held s) (sending s) = s) by (by destruct s).
  unfold gb_register_driver. case_bool_decide as Hc; [cbn [snd]; rewrite Hs; split; [done|unfold spends; simpl; lia]|].
  rewrite andb_false_r. cbn [default negb]. rewrite (bool_decide_eq_false_2 (0 <> 0)) by tauto. cbn [snd].
  assert (Hnone : cport_map (st s) !! c = None) by (unfold gb_get_cport in Hc; by destruct (cport_map (st s) !! c); [destruct Hc|]).
  set (cp := gb_init_cport _). split; [|unfold spends; simpl; lia]. split; cbn [st held]; try done.
  - assert (Hne : forall p o, ops (st s) !! p = Some o -> o_cport o <> c).
    { intros p o Ho E. destruct (oi_cport _ _ I p o Ho) as [? Hx]. congruence. }
    split; gcbn; try apply I.
    + intros p o Ho. rewrite lookup_insert_ne by (apply not_eq_sym; by eapply Hne). by apply (oi_cport _ _ I p).
    + intros c' cp'. destruct (decide (c' = c)) as [->|]; [rewrite lookup_insert_eq; intros [= <-]; by eexists|].
      rewrite lookup_insert_ne by done. apply (oi_driver _ _ I).
    + intros c' cp' p. destruct (decide (c' = c)) as [->|]; [rewrite lookup_insert_eq; intros [= <-] Hin; by apply elem_of_nil in Hin|].
      rewrite lookup_insert_ne by done. apply (oi_tx _ _ I).
    + intros c' cp' p. destruct (decide (c' = c)) as [->|]; [rewrite lookup_insert_eq; intros [= <-] Hin; by apply elem_of_nil in Hin|].
      rewrite lookup_insert_ne by done. apply (oi_rx _ _ I).
    + intros p o h cp' Ho Hr. rewrite lookup_insert_ne by (apply not_eq_sym; by eapply Hne). by apply (oi_in_tx _ _ I p o h).
    + intros p o cp' Ho Hr. rewrite lookup_insert_ne by (apply not_eq_sym; by eapply Hne). by apply (oi_in_rx _ _ I p o).
    + intros c' cp'. destruct (decide (c' = c)) as [->|]; [rewrite lookup_insert_eq; intros [= <-]; split; constructor|].
      rewrite lookup_insert_ne by done. apply (oi_nodup _ _ I).
  - apply port_put; [done|]. split; [done|]. split; [simpl; lia|]. done.
  - destruct B as [ow B]. exists ow. split; try apply B. intros c' cp'. gcbn. destruct (decide (c' = c)) as [->|].
    + rewrite lookup_insert_eq. by intros [= <-].
    + rewrite lookup_insert_ne by done. apply (bi_port _ _ B).
Qed.

Lemma listen_ok n s ro c cp : sys_inv n s ro -> cport_map (st s) !! c = Some cp -> rx_buf cp = 0 ->
  sys_inv n (mk_sys (snd (gb_listen c 0 (st s))) (held s) (sending s)) ro /\ spends (st s) (snd (gb_listen c 0 (st s))).
Proof.
  intros [I P B Hh Hq Hn Hid] Hc Hrb. unfold gb_listen, gb_get_cport. rewrite Hc.
  destruct (oi_driver _ _ I c cp Hc) as [d Hd]. rewrite Hd. rewrite (bool_decide_eq_false_2 (Some d = None)) by done.
  rewrite (bool_decide_eq_false_2 (0 <> 0)) by tauto. cbn [snd]. set (g1 := mk_greybus _ _ _ _ _ _ _ _ _ _ _ _).
  split; [|unfold spends; simpl; lia]. destruct (oi_nodup _ _ I c cp Hc) as [_ Hn2].
  split; cbn [st held]; try done.
  - apply (put_cport_same g1 ro c cp); try done. apply (op_inv_grow (st s)); try done. unfold g1. gcbn. lia.
  - apply port_put; [done|]. apply (P c cp Hc).
  - destruct B as [ow B]. assert (Hfresh : ow !! next (st s) = None).
    { destruct (ow !! next (st s)) eqn:E; [|done]. destruct (bi_buf _ _ B _ _ E). lia. }
    exists (<[next (st s) := OwPort c]> ow). split; gcbn.
    + intros p b Hb. assert (Hw : ow !! b = Some (OwOp p)) by (by apply (bi_op _ _ B)).
      rewrite lookup_insert_ne; [done|]. intros E. rewrite <- E in Hw. congruence.
    + intros c' cp'. destruct (decide (c' = c)) as [->|].
      * rewrite lookup_insert_eq. intros [= <-] _. apply lookup_insert_eq.
      * rewrite lookup_insert_ne by done. intros Hc' Hr'. pose proof (bi_port _ _ B _ _ Hc' Hr') as Hw.
        rewrite lookup_insert_ne; [done|]. intros E. rewrite <- E in Hw. congruence.
    + intros b Hb. pose proof (bi_free _ _ B _ Hb) as Hw. rewrite lookup_insert_ne; [done|]. intros E. rewrite <- E in Hw. congruence.
    + apply (bi_free_nodup _ _ B).
    + intros b w. unfold g1. gcbn. destruct (decide (b = next (st s))) as [->|].
      * intros _. rewrite lookup_insert_eq. split; [by eexists|lia].
      * rewrite !lookup_insert_ne by done. intros Hw. destruct (bi_buf _ _ B b w Hw). split; [done|lia].
  - gcbn. unfold g1. gcbn. lia.
Qed.

Lemma probe_inv nops nbufs : sys_inv 0 (mk_sys (gb_probe nops nbufs) ∅ ∅) ∅.
Proof.
  assert (Hno : forall A (k : Z) (x : A), (∅ : gmap Z A) !! k = Some x -> False) by (intros A k x; by rewrite lookup_empty).
  split; cbn [st held].
  - split; cbn [ops cport_map op_cache gb_probe fmap list_fmap]; try (intros; exfalso; by eauto).
    + intros p. rewrite !lookup_empty. done.
    + constructor.
    + intros p o Hp. by apply elem_of_nil in Hp.
    + split; [intros p o Ho; exfalso; by eauto|intros p o Hp; by apply elem_of_nil in Hp].
  - intros c cp Hc. by destruct (Hno _ c cp).
  - exists ∅. split; try (intros; exfalso; by eauto).
    + intros p b (o & [Ho|Ho] & _); [by destruct (Hno _ p o)|by apply elem_of_nil in Ho].
    + intros b Hb. by apply elem_of_nil in Hb.
    + constructor.
  - intros p. rewrite lookup_empty. split; [set_solver|by intros [? ?]].
  - intros p r Hp. by destruct (Hno _ p r).
  - done.
  - done.
Qed.

(** An operation that is being sent is held by the client that sends it. *)
Definition sending_held (s : sys) : Prop := forall p x, sending s !! p = Some x -> p ∈ held s.

Lemma sending_held_delete s g p : sending_held s -> sending_held (mk_sys g (held s) (delete p (sending s))).
Proof. intros H q x. cbn. intros [_ Hq]%lookup_delete_Some. by eapply H. Qed.
Lemma sending_held_insert s g p x : sending_held s -> p ∈ held s -> sending_held (mk_sys g (held s) (<[p := x]> (sending s))).
Proof. intros H Hp q y. cbn. intros [[<- _]|[_ Hq]]%lookup_insert_Some; [done|by eapply H]. Qed.
Lemma sending_held_drop s g p : sending_held s -> sending s !! p = None ->
  sending_held (mk_sys g (held s ∖ {[p]}) (sending s)).
Proof. intros H Hp q x. cbn. intros Hq. apply elem_of_difference. split; [by eapply H|]. intros ->%elem_of_singleton. congruence. Qed.

Lemma sys_inv_sending n g h f f' ro : sys_inv n (mk_sys g h f) ro -> sys_inv n (mk_sys g h f') ro.
Proof. intros [I P B Hh Hq Hn Hid]. by split. Qed.

(** A step is made, keeps the invariant and spends what a step may spend. *)
Definition goes_on (n : nat) (s : sys) (r : outcome sys) : Prop :=
  exists s' ro', r = Ret s' /\ sys_inv (S n) s' ro' /\ sending_held s' /\ spends (st s) (st s').

Lemma goes_on_same n s g' h' f' ro' : sys_inv n (mk_sys g' h' (sending s)) ro' -> sending_held (mk_sys g' h' f') ->
  same_left (st s) g' -> goes_on n s (Ret (mk_sys g' h' f')).
Proof.
  intros V HS [E1 E2]. exists (mk_sys g' h' f'), ro'. split; [done|]. split; [|split; [done|unfold spends; simpl; lia]].
  apply (sys_inv_mono n); [lia|]. by eapply sys_inv_sending.
Qed.
Lemma goes_on_stay n s ro : sys_inv n s ro -> sending_held s -> goes_on n s (Ret s).
Proof. intros V HS. destruct s as [g h f]. by apply (goes_on_same n _ g h f ro). Qed.

Lemma create_step_ok run_handler n s ro c type size : sys_inv n s ro -> sending_held s -> (ops_left (st s) <= bufs_left (st s))%nat ->
  goes_on n s (step run_handler s (ECreate c type size)).
Proof.
  intros V HS Hleft. pose proof (goes_on_stay n s ro V HS) as Hstay. unfold step, mbind, outcome_bind.
  destruct (_ && _) eqn:E; [|done]. rewrite !andb_true_iff, !bool_decide_eq_true in E. destruct E as [[Hc H0] Hsz].
  destruct V as [I P B Hh Hq Hn Hid].
  destruct (create_ok (st s) ro c type size (RClient true Idle) I B Hn Hleft Hc H0 Hsz) as [->|(p & o & g' & -> & I' & B' & Hrp & Hp0 & Hp & Hoc & Hcm & Hn' & Hid' & _ & Hl)];
    [by left|by rewrite bool_decide_eq_true_2; destruct s|].
  rewrite bool_decide_eq_false_2 by lia. eexists _, _. split; [done|].
  split; [|split; [intros q x Hx; apply elem_of_union; right; by eapply HS|unfold spends; simpl; lia]].
  split; cbn [st held]; [exact I'|..|exact B'| | |lia|by rewrite Hid'].
  - eapply port_same; [exact Hcm|]. by apply (port_mono n); [lia|].
  - intros x. rewrite elem_of_union, elem_of_singleton, (Hh x). destruct (decide (x = p)) as [->|].
    + rewrite lookup_insert_eq. split; [by eexists|by left].
    + rewrite lookup_insert_ne by done. split; [by intros [?|?]|by right].
  - intros k r. destruct (decide (k = p)) as [->|]; [rewrite lookup_insert_eq; by intros [= <-]|]. rewrite lookup_insert_ne by done. apply Hq.
Qed.

(** The three steps of sending. *)
Definition is_send (e : event) : bool :=
  match e with ESend _ _ _ | ETransmit _ _ | EWithdraw _ => true | _ => false end.

Lemma send_step_ok run_handler n s ro e : is_send e = true -> sys_inv n s ro -> sending_held s -> goes_on n s (step run_handler s e).
Proof.
  intros He V HS. pose proof (goes_on_stay n s ro V HS) as Hstay. destruct e as [|p cb need|p ret|p| | | | | | |]; try done; unfold step, mbind, outcome_bind.
  - destruct (can_send s p) eqn:E; [|done]. destruct (queue_ok n s ro p cb need V E) as (g' & ro' & -> & V' & El & Hin).
    apply (goes_on_same n s g' _ _ ro'); [done|by apply sending_held_insert|done].
  - destruct (sending s !! p) as [[need|]|] eqn:E; [|done..]. pose proof (HS _ _ E) as Hin.
    destruct (transmit_ok n s ro p ret V Hin) as (g' & -> & V' & El).
    apply (goes_on_same n s g' _ _ ro); [done| |done]. destruct (_ && _); [by apply sending_held_insert|by apply sending_held_delete].
  - destruct (can_withdraw s p) eqn:E; [|done]. unfold can_withdraw in E.
    pose proof (proj1 (andb_prop _ _ E)) as Es. apply bool_decide_eq_true in Es.
    destruct (withdraw_ok n s ro p V (HS _ _ Es) E) as (g' & ro' & -> & V' & El).
    apply (goes_on_same n s g' _ _ ro'); [done|by apply sending_held_delete|done].
Qed.

Lemma step_ok run_handler n s ro e : sys_inv n s ro -> sending_held s -> Z.of_nat n < 2 ^ 32 - 1 -> (ops_left (st s) <= bufs_left (st s))%nat ->
  goes_on n s (step run_handler s e).
Proof.
  intros V HS Hn32 Hleft. pose proof (goes_on_stay n s ro V HS) as Hstay.
  assert (Hcore : forall g' ro', sys_inv n (mk_sys g' (held s) (sending s)) ro' -> same_core (st s) g' ->
    goes_on n s (Ret (mk_sys g' (held s) (sending s)))) by (intros g' ro' V' C; apply (goes_on_same n s g' _ _ ro'); [done|done|apply C]).
  destruct (is_send e) eqn:Ee; [by apply (send_step_ok _ _ _ ro)|].
  destruct e as [c type size|p cb need|p ret|p|p|c hdr size|c ok ret|c|dt|c d|c]; try done; [by apply (create_step_ok _ _ _ ro)|..];
    unfold step, mbind, outcome_bind.
  - destruct (_ && _) eqn:E; [|done]. rewrite andb_true_iff, !bool_decide_eq_true in E. destruct E as [Hin Hs].
    destruct (destroy_ok n s ro p V Hin) as (g' & ro' & -> & V' & C).
    apply (goes_on_same n s g' _ _ ro'); [done|by apply sending_held_drop|apply C].
  - destruct (cport_map (st s) !! c) as [cp|] eqn:Hc; [|done].
    destruct (_ && _) eqn:E; [|done]. rewrite andb_true_iff, !bool_decide_eq_true in E. destruct E as [Hrb Hsz].
    destruct (receive_ok n s ro c cp hdr size V Hc Hrb Hsz Hn32 Hleft) as (g' & ro' & -> & V' & Hs). by eexists _, ro'.
  - case_bool_decide as Hc; [|done]. destruct (work_ok run_handler n s ro c ok ret V Hc) as (g' & ro' & -> & V' & C). by apply (Hcore g' ro').
  - destruct (cport_map (st s) !! c) as [cp|] eqn:Hc; [|done].
    destruct (timeout_wd cp) as [d|] eqn:Hwd; [|done]. case_bool_decide; [|done].
    destruct (timer_ok n s ro c cp d V Hc Hwd Hn32) as (g' & -> & V' & C). eexists _, ro. split; [done|]. split; [done|].
    split; [done|by apply same_core_spends].
  - eexists _, ro. split; [done|]. destruct V as [I P B Hh Hq Hn Hid]. split; [|split; [done|unfold spends; simpl; lia]].
    split; cbn [st held]; try done; [by apply (op_inv_same (st s))|by apply (port_mono n); [lia|]|].
    apply (frame_buffers (st s)); [by apply same_frame|done].
  - eexists _, ro. split; [done|]. destruct (register_ok n s ro c d V) as [V' Hs]. split; [by apply (sys_inv_mono n); [lia|]|done].
  - destruct (cport_map (st s) !! c) as [cp|] eqn:Hc; [|done]. case_bool_decide as Hrb; [|done].
    eexists _, ro. split; [done|]. destruct (listen_ok n s ro c cp V Hc Hrb) as [V' Hs]. split; [by apply (sys_inv_mono n); [lia|]|done].
Qed.

Lemma run_ok run_handler es n s ro : sys_inv n s ro -> sending_held s -> Z.of_nat (n + length es) < 2 ^ 32 ->
  (ops_left (st s) + length es <= bufs_left (st s))%nat ->
  exists s' ro', foldO (step run_handler) s es = Ret s' /\ sys_inv (n + length es) s' ro' /\ sending_held s'.
Proof.
  revert n s ro. induction es as [|e es IH]; intros n s ro V HS Hn Hl.
  - exists s, ro. split; [done|]. simpl. by rewrite Nat.add_0_r.
  - simpl in *. destruct (step_ok run_handler n s ro e V HS) as (s1 & ro1 & -> & V1 & HS1 & Hs); [lia|lia|].
    unfold spends in Hs. destruct (IH (S n) s1 ro1 V1 HS1) as (s2 & ro2 & -> & V2); [lia|lia|]. exists s2, ro2. split; [done|].
    by replace (n + S (length es))%nat with (S n + length es)%nat by lia.
Qed.

Lemma probe_run_ok run_handler nops nbufs es : (nops + length es <= nbufs)%nat -> Z.of_nat (length es) < 2 ^ 32 - 1 ->
  exists s n ro, foldO (step run_handler) (mk_sys (gb_probe nops nbufs) ∅ ∅) es = Ret s /\ sys_inv n s ro /\ sending_held s.
Proof.
  intros Hl Hn. destruct (run_ok run_handler es 0 _ _ (probe_inv nops nbufs)) as (s & ro & E & V); [|simpl; lia|simpl; lia|].
  - intros p x. cbn. by rewrite lookup_empty.
  - by exists s, (0 + length es)%nat, ro.
Qed.

(** ** What the invariant says in plain terms *)





(** A state some events lead to from [gb_probe]; there is memory for a buffer
    per event besides one per operation. *)
Definition reachable (run_handler : gb_operation_handler -> gb_operation_hdr -> option Z * Z) (s : sys) : Prop :=
  exists nops nbufs es, (nops + length es <= nbufs)%nat /\ Z.of_nat (length es) < 2 ^ 32 - 1 /\
    foldO (step run_handler) (mk_sys (gb_probe nops nbufs) ∅ ∅) es = Ret s.

Lemma reachable_inv run_handler s : reachable run_handler s -> exists n ro, sys_inv n s ro.
Proof.
  intros (nops & nbufs & es & Hl & Hn & E).
  destruct (probe_run_ok run_handler nops nbufs es Hl Hn) as (s' & n & ro' & E' & V & _).
  rewrite E in E'. injection E' as ->. by eexists _, _.
Qed.

(** ** Properties *)


(** C18.  In every reachable state the worker's semaphore of a CPort is the length
    of its queue of received messages, and an outstanding request is never
    forgotten: the CPort's watchdog runs or a time-out waits for the worker.
    The watchdog of a CPort with no outstanding request does not run. *)
Theorem pending_guarded run_handler s c cp : reachable run_handler s -> cport_map (st s) !! c = Some cp ->
  rx_fifo_semaphore cp = Z.of_nat (length (rx_fifo cp)) /\
  (tx_fifo cp <> [] -> timeout_wd cp <> None \/ RxTimeout ∈ rx_fifo cp) /\
  (tx_fifo cp = [] -> timeout_wd cp = None).
Proof.
  intros (n & ro & V)%reachable_inv Hc. destruct (si_ports _ _ _ V c cp Hc) as (? & _ & ? & ?). done.
Qed.

(** A request was sent more than a second, 1000000000 nanoseconds, ago. *)
Definition over_a_second (g : greybus) (q : Z) : bool :=
  match ops g !! q with
  | Some o => bool_decide (1000000000 < now g - (1000000000 * fst (time o) + snd (time o)))
  | None => false
  end.

Lemma over_a_second_spec t o : time_ok o ->
  gb_operation_has_timedout t o = bool_decide (1000000000 < t - (1000000000 * fst (time o) + snd (time o))).
Proof.
  unfold time_ok, gb_operation_has_timedout, timespec_of, TIMEOUT_IN_MS, ONE_SEC_IN_MSEC, ONE_MSEC_IN_NSEC, NSEC. intros Ho.
  change (1000 / 1000) with 1. change (1000 mod 1000) with 0.
  pose proof (Z.div_mod t 1000000000 ltac:(lia)). pose proof (Z.mod_pos_bound t 1000000000 ltac:(lia)).
  set (q := t / 1000000000) in *. set (r := t mod 1000000000) in *.
  case_bool_decide; [symmetry; apply bool_decide_eq_true; lia|]. case_bool_decide; [symmetry; apply bool_decide_eq_false; lia|].
  apply bool_decide_ext. lia.
Qed.

Lemma expired_spec g ro q : op_inv g ro -> expired g q = over_a_second g q.
Proof.
  intros I. unfold expired, over_a_second. destruct (ops g !! q) as [o|] eqn:Hq; [|done].
  apply over_a_second_spec. exact (proj1 (oi_times _ _ I) q o Hq).
Qed.

(** C19.  When the worker takes a time-out, exactly the requests that were sent more
    than a second ago leave the queue of outstanding requests, in order, and the
    callback of each is called once. *)
Theorem timeouts_exact run_handler s c cp l ok ret : reachable run_handler s ->
  cport_map (st s) !! c = Some cp -> rx_fifo cp = RxTimeout :: l ->
  exists g', gb_pending_message_worker run_handler ok ret c (st s) = Ret g' /\
    option_map tx_fifo (cport_map g' !! c) = Some (filter (fun q => over_a_second (st s) q = false) (tx_fifo cp)) /\
    trace g' = mjoin (calls_of (st s) <$> reverse (filter (fun q => over_a_second (st s) q = true) (tx_fifo cp))) ++ trace (st s).
Proof.
  intros (n & ro & V)%reachable_inv Hc El.
  destruct (work_timeout_ok run_handler n s ro c cp l ok ret V Hc El) as (g' & ro' & E & _ & _ & Htx & Ht). exists g'.
  assert (Hex : forall q, expired (st s) q = over_a_second (st s) q) by (intros q; apply (expired_spec _ ro), V).
  split; [done|]. rewrite Htx, Ht. rewrite (filter_ext_in _ (fun q => over_a_second (st s) q = false)) by (intros q _; by rewrite Hex).
  rewrite (filter_ext_in (fun q => expired (st s) q = true) (fun q => over_a_second (st s) q = true)) by (intros q _; by rewrite Hex).
  done.
Qed.

(** C20.  When the worker takes a response, the first outstanding request with its
    identifier, and no other, leaves the queue; its callback is called once, and
    if a client still holds the request, the message is its response.  A
    response no request waits for changes nothing but the message queue. *)
Theorem response_completes run_handler s c cp p l o hdr ok ret : reachable run_handler s ->
  cport_map (st s) !! c = Some cp -> rx_fifo cp = RxOp p :: l ->
  ops (st s) !! p = Some o -> bufs (st s) !! request_buffer o = Some hdr -> Z.land (h_type hdr) TYPE_RESPONSE_FLAG <> 0 ->
  exists g', gb_pending_message_worker run_handler ok ret c (st s) = Ret g' /\
    ((option_map tx_fifo (cport_map g' !! c) = Some (tx_fifo cp) /\ trace g' = trace (st s) /\
      forall x, x ∈ tx_fifo cp -> request_id_of (st s) x <> Some (h_id hdr)) \/
     exists l1 q l2 oq, tx_fifo cp = l1 ++ q :: l2 /\ request_id_of (st s) q = Some (h_id hdr) /\
       (forall x, x ∈ l1 -> request_id_of (st s) x <> Some (h_id hdr)) /\ ops (st s) !! q = Some oq /\
       option_map tx_fifo (cport_map g' !! c) = Some (l1 ++ l2) /\ trace g' = calls q oq ++ trace (st s) /\
       (q ∈ held s -> option_map response (ops g' !! q) = Some p)).
Proof.
  intros (n & ro & V)%reachable_inv Hc El Hp Hb Hflag.
  destruct (take_message run_handler n s ro c cp p l ok ret V Hc El) as (o' & hdr' & Hp' & Hoc & Hhdr & W & C1 & ->).
  set (g1 := put_cport _ _ _) in *. gcbn. change (ops g1) with (ops (st s)) in Hp'. change (bufs g1) with (bufs (st s)) in Hhdr.
  assert (o' = o) as -> by congruence. assert (hdr' = hdr) as -> by congruence.
  rewrite bool_decide_eq_true_2 by done. unfold mbind, outcome_bind.
  assert (Hc1 : cport_map g1 !! c = Some (cp_rx cp l (rx_fifo_semaphore cp - 1))) by apply lookup_insert_eq.
  destruct (process_response_ok n (held s) p g1 _ hdr o c _ W (lookup_insert_eq _ _ _) Hp' Hoc Hc1) as (g2 & ro2 & -> & W2 & C2 & Hres).
  destruct (finish_message n (held s) p g2 ro2 W2) as (g3 & ro3 & -> & _ & _ & _ & _ & _ & _ & Ec3 & Et3 & Ek3).
  exists g3. split; [done|]. rewrite Ec3, Et3. destruct Hres as [[-> Hnone]|(l1 & q & l2 & oq & Etx & Hl1 & Hid & Hqp & Hoq & Ec & Et & Hheld)].
  - left. rewrite Hc1. done.
  - right. exists l1, q, l2, oq. simpl in Etx. do 4 (split; [done|]). rewrite Ec, lookup_insert_eq. cbn [option_map]. split.
    + f_equal. simpl. rewrite Etx. apply filter_middle. rewrite <- Etx. by apply (oi_nodup _ _ (si_ops _ _ _ V) c).
    + split; [done|]. intros Hin. rewrite Ek3 by done. by apply Hheld.
Qed.

(** The response the core sends to a request: by the handler of its type if the
    driver has one, [GB_OP_INVALID] otherwise. *)
Definition response_to (run_handler : gb_operation_handler -> gb_operation_hdr -> option Z * Z)
    (h : option gb_operation_handler) (hdr : gb_operation_hdr) : gb_operation_hdr :=
  let '(size, result) := match h with Some h => run_handler h hdr | None => (None, GB_OP_INVALID) end in
  mk_hdr (wrap16 (default 0 size + hdr_sizeof)) (h_id hdr) (Z.lor TYPE_RESPONSE_FLAG (h_type hdr)) result.

(** [gb_operation_send_response] when the response is there. *)
Lemma send_ready g p o b hr result ret : ops g !! p = Some o -> p <> 0 -> has_responded o = false ->
  response_buffer o = Some hr -> 0 <= ret ->
  exists g', gb_operation_send_response b ret p result g = Ret (0, g') /\
    trace g' = Sent (o_cport o) (with_result hr result) ret :: trace g /\
    ops g' !! p = Some (op_responded (op_reply o (Some (with_result hr result)))).
Proof.
  intros Hp H0 Hres Hbuf Hret. unfold gb_operation_send_response, mbind, outcome_bind, get_op.
  rewrite bool_decide_eq_false_2 by done. rewrite Hp. cbn [deref]. rewrite Hres, Hbuf.
  rewrite bool_decide_eq_false_2 by done. rewrite Hp. cbn [deref]. rewrite Hbuf, bool_decide_eq_false_2 by lia.
  eexists. split; [done|]. split; [done|]. apply lookup_insert_eq.
Qed.

Lemma alloc_ready g p o h n : ops g !! p = Some o -> p <> 0 -> bufs g !! request_buffer o = Some h ->
  gb_operation_alloc_response true p n g =
    Ret (put_op p (op_reply o (Some (mk_hdr (wrap16 (n + hdr_sizeof)) (h_id h) (Z.lor TYPE_RESPONSE_FLAG (h_type h)) 0))) g).
Proof.
  intros Hp H0 Hb. unfold gb_operation_alloc_response, mbind, outcome_bind, get_op, get_buf.
  rewrite bool_decide_eq_false_2 by done. rewrite Hp. cbn [deref negb]. rewrite Hb. done.
Qed.

(** [gb_operation_send_response] when the handler allocated no response. *)
Lemma send_allocating g p o h result ret : ops g !! p = Some o -> p <> 0 -> has_responded o = false ->
  response_buffer o = None -> bufs g !! request_buffer o = Some h -> 0 <= ret ->
  exists g', gb_operation_send_response true ret p result g = Ret (0, g') /\
    trace g' = Sent (o_cport o) (mk_hdr hdr_sizeof (h_id h) (Z.lor TYPE_RESPONSE_FLAG (h_type h)) result) ret :: trace g /\
    option_map has_responded (ops g' !! p) = Some true.
Proof.
  intros Hp H0 Hres Hbuf Hb Hret. unfold gb_operation_send_response, mbind, outcome_bind, get_op.
  rewrite bool_decide_eq_false_2 by done. rewrite Hp. cbn [deref]. rewrite Hres, Hbuf.
  rewrite bool_decide_eq_true_2 by done. rewrite (alloc_ready g p o h 0 Hp H0 Hb). gcbn. rewrite lookup_insert_eq. cbn [deref].
  cbn [response_buffer op_reply]. rewrite bool_decide_eq_false_2 by lia. eexists. split; [done|]. split; [done|].
  gcbn. by rewrite lookup_insert_eq.
Qed.

(** C21.  A request that expects an answer gets exactly one, on its CPort: with the
    request's identifier, its type marked as a response, the size of the payload
    the handler allocated, and the handler's result, or [GB_OP_INVALID] when the
    driver has no handler of the type. *)
Theorem request_answered run_handler g p o hdr h ret :
  ops g !! p = Some o -> p <> 0 -> bufs g !! request_buffer o = Some hdr -> has_responded o = false -> response_buffer o = None ->
  find_operation_handler g (h_type hdr) (o_cport o) = Ret h -> h_id hdr <> 0 -> 0 <= ret ->
  exists g', gb_process_request run_handler true ret hdr p g = Ret g' /\
    trace g' = Sent (o_cport o) (response_to run_handler h hdr) ret :: trace g /\
    option_map has_responded (ops g' !! p) = Some true.
Proof.
  intros Hp H0 Hb Hres Hbuf Hfind Hid Hret. unfold gb_process_request, response_to, mbind, outcome_bind, get_op.
  rewrite Hp. cbn [deref]. rewrite Hfind. destruct h as [h|].
  - destruct (run_handler h hdr) as [[n|] result].
    + rewrite (alloc_ready g p o hdr n Hp H0 Hb), bool_decide_eq_true_2 by done.
      edestruct (send_ready (put_op p (op_reply o (Some (mk_hdr (wrap16 (n + hdr_sizeof)) (h_id hdr) (Z.lor TYPE_RESPONSE_FLAG (h_type hdr)) 0))) g)
        p) as (g' & -> & Et & Eo); [apply lookup_insert_eq|done|done|done|done|].
      exists g'. split; [done|]. split; [exact Et|by rewrite Eo].
    + rewrite bool_decide_eq_true_2 by done.
      destruct (send_allocating g p o hdr result ret Hp H0 Hres Hbuf Hb Hret) as (g' & -> & Et & Eo). by exists g'.
  - destruct (send_allocating g p o hdr GB_OP_INVALID ret Hp H0 Hres Hbuf Hb Hret) as (g' & -> & Et & Eo). by exists g'.
Qed.

(** ** Concrete runs *)

(** A driver with handlers for types 5 and 2; type 2's allocates 4 bytes. *)
Definition a_driver : gb_driver := mk_driver (Some [mk_handler 5 false; mk_handler 2 false; mk_handler 9 true]).
Definition a_handler (h : gb_operation_handler) (hdr : gb_operation_hdr) : option Z * Z :=
  if bool_decide (ht_type h = 2) then (Some 4, GB_OP_SUCCESS) else (None, GB_OP_RETRY).

(** A request to CPort 3 (operation 2, identifier 1), and its response. *)
Definition exchange : list event :=
  [ERegister 3 a_driver; EListen 3; ECreate 3 7 0; ESend 2 CbUser true; ETransmit 2 0; EReceive 3 (mk_hdr 8 1 0x87 0) 8].
Definition run_events (es : list event) : outcome sys := foldO (step a_handler) (mk_sys (gb_probe 4 40) ∅ ∅) es.

Definition after (es : list event) : sys := match run_events es with Ret s => s | _ => mk_sys (gb_probe 0 0) ∅ ∅ end.

Lemma after_reachable es : (4 + length es <= 40)%nat -> reachable a_handler (after es).
Proof.
  intros Hl. exists 4%nat, 40%nat, es. split; [done|]. split; [lia|].
  destruct (probe_run_ok a_handler 4 40 es) as (s & n & ro & E & _); [lia|lia|].
  unfold after, run_events. by rewrite E.
Qed.


(** A request times out while [unipro_send] is at it: the worker takes it off
    the queue and drops the core's reference.  When [unipro_send] then fails,
    [gb_operation_send_request] drops a reference again, which is the client's:
    the operation goes back to the cache and the client's own drop is a fault. *)
Example late_failure_takes_the_clients_reference :
  let s := after [ERegister 3 a_driver; EListen 3; ECreate 3 7 0; ESend 2 CbUser true; ETick 1500000000; ETimer 3; EWork 3 true 0;
                  ETransmit 2 (-5)] in
  sending s !! 2 = Some Refused /\ can_withdraw s 2 = false /\
  (g ← withdraw_request 2 (st s); Ret (ops g !! 2)) = Ret None /\ (g ← withdraw_request 2 (st s); gb_operation_destroy 2 g) = Fault.
Proof. vm_compute. repeat split. Qed.

(** The CPort of [exchange] before the worker's round. *)
Definition exchange_port : gb_cport :=
  mk_cport (Some (mk_driver (Some [mk_handler 2 false; mk_handler 5 false; mk_handler 9 true]))) [2] [RxOp 4] 1 (Some 1000000000) 5.

Lemma pending_guarded_witness : exists cp, cport_map (st (after exchange)) !! 3 = Some cp /\ tx_fifo cp = [2] /\
  rx_fifo_semaphore cp = 1 /\ (timeout_wd cp <> None \/ RxTimeout ∈ rx_fifo cp).
Proof.
  exists exchange_port. split; [vm_compute; reflexivity|]. split; [reflexivity|].
  destruct (pending_guarded a_handler (after exchange) 3 exchange_port) as (H1 & H2 & _).
  - apply after_reachable. simpl. lia.
  - vm_compute. reflexivity.
  - split; [exact H1|]. apply H2. discriminate.
Defined.

Lemma response_completes_witness : exists g', gb_pending_message_worker a_handler true 0 3 (st (after exchange)) = Ret g' /\
  option_map tx_fifo (cport_map g' !! 3) = Some [] /\ trace g' = Called 2 :: trace (st (after exchange)).
Proof.
  destruct (response_completes a_handler (after exchange) 3 exchange_port 4 [] (mk_op 3 false 1 (0, 0) 1 None CbNone 0 0) (mk_hdr 8 1 0x87 0) true 0)
    as (g' & E & [(_ & _ & Hno)|(l1 & q & l2 & oq & Etx & _ & _ & Hoq & Htx & Ht & _)]).
  - apply after_reachable. simpl. lia.
  - vm_compute. reflexivity.
  - reflexivity.
  - vm_compute. reflexivity.
  - vm_compute. reflexivity.
  - vm_compute. discriminate.
  - exfalso. apply (Hno 2); [left|vm_compute; reflexivity].
  - exists g'. split; [exact E|]. rewrite Htx, Ht. destruct l1 as [|x [|? ?]]; [|discriminate Etx|discriminate Etx].
    injection Etx as <- <-. split; [reflexivity|]. vm_compute in Hoq. injection Hoq as <-. reflexivity.
Defined.

(** Two requests half a second apart; after 1.2 seconds the watchdog fires. *)
Definition slow : list event :=
  [ERegister 3 a_driver; EListen 3; ECreate 3 7 0; ESend 2 CbUser true; ETransmit 2 0; ETick 500000000; ECreate 3 7 0; ESend 4 CbUser true; ETransmit 4 0;
   ETick 700000000; ETimer 3].

Lemma timeouts_exact_witness : exists g', gb_pending_message_worker a_handler true 0 3 (st (after slow)) = Ret g' /\
  option_map tx_fifo (cport_map g' !! 3) = Some [4] /\ trace g' = Called 2 :: trace (st (after slow)).
Proof.
  destruct (timeouts_exact a_handler (after slow) 3
    (mk_cport (Some (mk_driver (Some [mk_handler 2 false; mk_handler 5 false; mk_handler 9 true]))) [2; 4] [RxTimeout] 1 None 1) [] true 0)
    as (g' & E & Htx & Ht).
  - apply after_reachable. simpl. lia.
  - vm_compute. reflexivity.
  - reflexivity.
  - exists g'. split; [exact E|]. split; [rewrite Htx; vm_compute; reflexivity|rewrite Ht; vm_compute; reflexivity].
Defined.

(** A request of type 2 arrives. *)
Definition asked : greybus :=
  st (after [ERegister 3 a_driver; EListen 3; EReceive 3 (mk_hdr 8 77 2 0) 8]).

Lemma request_answered_witness : exists g', gb_process_request a_handler true 0 (mk_hdr 8 77 2 0) 2 asked = Ret g' /\
  trace g' = [Sent 3 (mk_hdr 12 77 0x82 GB_OP_SUCCESS) 0].
Proof.
  destruct (request_answered a_handler asked 2 (mk_op 3 false 1 (0, 0) 1 None CbNone 0 0) (mk_hdr 8 77 2 0) (Some (mk_handler 2 false)) 0)
    as (g' & E & Et & _).
  - vm_compute. reflexivity.
  - discriminate.
  - vm_compute. reflexivity.
  - reflexivity.
  - reflexivity.
  - vm_compute. reflexivity.
  - discriminate.
  - discriminate.
  - exists g'. split; [exact E|]. rewrite Et. vm_compute. reflexivity.
Defined.

(** The watchdog starts its full second again at every response, so as long as
    some requests of a CPort are answered, one that is not never times out:
    here it is 2.7 seconds old when the watchdog still has 0.9 to go. *)
Definition answer_after_900ms (p id : Z) : list event :=
  [ECreate 3 7 0; ESend p CbUser true; ETransmit p 0; ETick 900000000; ETimer 3; EReceive 3 (mk_hdr 8 id 0x87 0) 8; EWork 3 true 0; EDestroy p].

Example answered_requests_postpone_timeouts :
  let s := after (take 4 exchange ++ answer_after_900ms 4 2 ++ answer_after_900ms 4 3 ++ answer_after_900ms 4 4) in
  option_map (fun cp => (tx_fifo cp, timeout_wd cp, now (st s))) (cport_map (st s) !! 3) = Some ([2], Some 3700000000, 2700000000).
Proof. vm_compute. reflexivity. Qed.

End GreybusInv.
