(* ===== verification/RingBuf.v ===== *)
(** The rings of buffers of [src/drivers/ara/lib_ring_buf.c] and
    [src/include/phabos/ara/ring_buf.h]: entries linked in a circle, each with
    a data area that its owner, the producer or the consumer, fills or empties.

    Entries live at addresses; the contents of memory is a map from addresses
    to bytes, defined where the code may read and write.  The callbacks of a
    user of rings act on a state [E] of its own. *)
From S2P Require Import Prelude.
#[local] Open Scope Z_scope.

Module RingBuf.

(** ** Byte memory *)

Fixpoint read_bytes (m : gmap Z Z) (p : Z) (n : nat) : outcome (list Z) :=
  match n with
  | O => Ret []
  | S n => b ← deref (m !! p); l ← read_bytes m (p + 1) n; Ret (b :: l)
  end.

Fixpoint write_bytes (m : gmap Z Z) (p : Z) (l : list Z) : outcome (gmap Z Z) :=
  match l with
  | [] => Ret m
  | b :: l => _ ← deref (m !! p); write_bytes (<[p := b]> m) (p + 1) l
  end.

(** What an allocation defines, as zeros, and what freeing it takes away. *)
Fixpoint zero_bytes (m : gmap Z Z) (p : Z) (n : nat) : gmap Z Z :=
  match n with O => m | S n => <[p := 0]> (zero_bytes m (p + 1) n) end.
Fixpoint drop_bytes (m : gmap Z Z) (p : Z) (n : nat) : gmap Z Z :=
  match n with O => m | S n => delete p (drop_bytes m (p + 1) n) end.

(** ** Data *)

Inductive ring_buf_owner := RING_BUF_OWNER_INVALID | RING_BUF_OWNER_PRODUCER | RING_BUF_OWNER_CONSUMER.
#[export] Instance owner_eq_dec : EqDecision ring_buf_owner.
Proof. solve_decision. Defined.

Record ring_buf := mk_rb {
  next : Z;
  owner : ring_buf_owner;
  priv : Z;
  headroom : Z;
  data : Z;
  tailroom : Z;
  head : Z;
  tail : Z;
}.
Definition rb_zero : ring_buf := mk_rb 0 RING_BUF_OWNER_INVALID 0 0 0 0 0 0.
Definition sizeof_ring_buf : Z := 32.

(** [chunks]: the sizes of what was allocated, by address; [top]: an address
    above all of them; [budget]: how many allocations memory has room for. *)
Record heap := mk_heap {
  rbs : gmap Z ring_buf;
  bytes : gmap Z Z;
  chunks : gmap Z Z;
  top : Z;
  budget : nat;
}.

Definition set_rbs (v : gmap Z ring_buf) (h : heap) : heap := mk_heap v (bytes h) (chunks h) (top h) (budget h).
Definition set_bytes (v : gmap Z Z) (h : heap) : heap := mk_heap (rbs h) v (chunks h) (top h) (budget h).
Definition get_rb (h : heap) (p : Z) : outcome ring_buf := deref (rbs h !! p).
Definition put_rb (h : heap) (p : Z) (r : ring_buf) : outcome heap := _ ← get_rb h p; Ret (set_rbs (<[p := r]> (rbs h)) h).

(** ** The accessors of [ring_buf.h] *)

Definition ring_buf_set_owner (h : heap) (rb : Z) (o : ring_buf_owner) : outcome heap :=
  r ← get_rb h rb;
  put_rb h rb (mk_rb (next r) o (priv r) (headroom r) (data r) (tailroom r) (head r) (tail r)).
Definition ring_buf_is_producers (h : heap) (rb : Z) : outcome bool :=
  r ← get_rb h rb; Ret (bool_decide (owner r = RING_BUF_OWNER_PRODUCER)).
Definition ring_buf_is_consumers (h : heap) (rb : Z) : outcome bool :=
  r ← get_rb h rb; Ret (bool_decide (owner r = RING_BUF_OWNER_CONSUMER)).
Definition ring_buf_pass (h : heap) (rb : Z) : outcome heap :=
  p ← ring_buf_is_producers h rb;
  ring_buf_set_owner h rb (if (p : bool) then RING_BUF_OWNER_CONSUMER else RING_BUF_OWNER_PRODUCER).
Definition ring_buf_get_next (h : heap) (rb : Z) : outcome Z := r ← get_rb h rb; Ret (next r).
Definition ring_buf_get_priv (h : heap) (rb : Z) : outcome Z := r ← get_rb h rb; Ret (priv r).
Definition ring_buf_set_priv (h : heap) (rb : Z) (v : Z) : outcome heap :=
  r ← get_rb h rb;
  put_rb h rb (mk_rb (next r) (owner r) v (headroom r) (data r) (tailroom r) (head r) (tail r)).
Definition ring_buf_get_buf (h : heap) (rb : Z) : outcome Z := r ← get_rb h rb; Ret (headroom r).
Definition ring_buf_get_data (h : heap) (rb : Z) : outcome Z := r ← get_rb h rb; Ret (data r).
Definition ring_buf_get_head (h : heap) (rb : Z) : outcome Z := r ← get_rb h rb; Ret (head r).
Definition ring_buf_get_tail (h : heap) (rb : Z) : outcome Z := r ← get_rb h rb; Ret (tail r).

Definition with_next (r : ring_buf) (v : Z) : ring_buf :=
  mk_rb v (owner r) (priv r) (headroom r) (data r) (tailroom r) (head r) (tail r).
Definition with_head_tail (r : ring_buf) (hd tl : Z) : ring_buf :=
  mk_rb (next r) (owner r) (priv r) (headroom r) (data r) (tailroom r) hd tl.
Definition ring_buf_reset (h : heap) (rb : Z) : outcome heap :=
  r ← get_rb h rb; put_rb h rb (with_head_tail r (data r) (data r)).
Definition ring_buf_len (h : heap) (rb : Z) : outcome Z := r ← get_rb h rb; Ret (wrap32 (tail r - head r)).
Definition ring_buf_space (h : heap) (rb : Z) : outcome Z := r ← get_rb h rb; Ret (sint32 (tailroom r - tail r)).
Definition ring_buf_is_empty (h : heap) (rb : Z) : outcome bool := n ← ring_buf_len h rb; Ret (bool_decide (n = 0)).
Definition ring_buf_is_full (h : heap) (rb : Z) : outcome bool := n ← ring_buf_space h rb; Ret (bool_decide (n = 0)).
Definition ring_buf_put (h : heap) (rb : Z) (len : Z) : outcome (heap * Z) :=
  r ← get_rb h rb; h ← put_rb h rb (with_head_tail r (head r) (tail r + len)); Ret (h, tail r).
Definition ring_buf_pull (h : heap) (rb : Z) (len : Z) : outcome (heap * Z) :=
  r ← get_rb h rb; h ← put_rb h rb (with_head_tail r (head r + len) (tail r)); Ret (h, head r + len).

(** ** Allocation ([lib_ring_buf.c]) *)

Definition ring_buf_init (h : heap) (rb buf hroom data_len : Z) : outcome heap :=
  r ← get_rb h rb;
  h ← put_rb h rb (mk_rb (next r) (owner r) (priv r) buf (buf + hroom) (buf + hroom + data_len) (head r) (tail r));
  ring_buf_reset h rb.

(** The chunk holds the entry and, behind it, its buffer.  The sum of the
    sizes is an [unsigned int]: when it wraps the chunk may be too small for
    the entry itself. *)
Definition ring_buf_alloc (h : heap) (hroom data_len troom : Z) : outcome (heap * Z) :=
  let buf_len := wrap32 (hroom + data_len + troom) in
  let size := wrap32 (sizeof_ring_buf + buf_len) in
  if bool_decide (size = 0) then Ret (h, 0) else
  match budget h with
  | O => Ret (h, 0)
  | S b =>
      if bool_decide (size < sizeof_ring_buf) then Fault else
      let p := top h in
      let h := mk_heap (<[p := rb_zero]> (rbs h))
                 (zero_bytes (bytes h) (p + sizeof_ring_buf) (Z.to_nat (size - sizeof_ring_buf)))
                 (<[p := size]> (chunks h)) (p + size) b in
      h ← ring_buf_set_owner h p RING_BUF_OWNER_PRODUCER;
      h ← (if bool_decide (buf_len <> 0) then ring_buf_init h p (p + sizeof_ring_buf) hroom data_len else Ret h);
      Ret (h, p)
  end.

Definition ring_buf_free (h : heap) (rb : Z) : outcome heap :=
  if bool_decide (rb = 0) then Ret h else
  size ← deref (chunks h !! rb);
  Ret (mk_heap (delete rb (rbs h))
         (drop_bytes (bytes h) (rb + sizeof_ring_buf) (Z.to_nat (size - sizeof_ring_buf)))
         (delete rb (chunks h)) (top h) (budget h)).

Section Rings.
Context {E : Type}.
Implicit Types (s : heap * E).

(** [alloc_callback] returns 0 for success; both may be NULL. *)
Definition alloc_cb : Type := option (heap * E -> Z -> outcome (heap * E * Z)).
Definition free_cb : Type := option (heap * E -> Z -> outcome (heap * E)).

Definition set_next (h : heap) (rb v : Z) : outcome heap := r ← get_rb h rb; put_rb h rb (with_next r v).

(** Linking the new entry to the one before, if any. *)
Definition link (h : heap) (first_rb prev_rb rb : Z) : outcome heap :=
  if bool_decide (first_rb = 0) then Ret h else set_next h prev_rb rb.

Definition call_free (free_callback : free_cb) s (rb : Z) : outcome (heap * E) :=
  match free_callback with Some f => f s rb | None => Ret s end.
Definition free_one (free_callback : free_cb) s (rb : Z) : outcome (heap * E) :=
  s ← call_free free_callback s rb;
  h ← ring_buf_free (fst s) rb;
  Ret (h, snd s).

(** The loop that undoes the allocation of [i] entries. *)
Fixpoint undo_ring (free_callback : free_cb) (i : nat) s (rb : Z) : outcome (heap * E) :=
  match i with
  | O => Ret s
  | S i =>
      nxt ← ring_buf_get_next (fst s) rb;
      s ← free_one free_callback s rb;
      undo_ring free_callback i s nxt
  end.

(** The loop that allocates, with [n] entries to go and [i] made: [Some] is the
    end of the ring, [None] that it stopped early, with the number made. *)
Fixpoint alloc_loop (alloc_callback : alloc_cb) (hroom data_len troom : Z) (n i : nat) s (first_rb prev_rb : Z)
    : outcome (heap * E * Z * Z * nat) :=
  match n with
  | O => Ret (fst s, snd s, first_rb, prev_rb, i)
  | S n =>
      r ← ring_buf_alloc (fst s) hroom data_len troom;
      let '(h, rb) := (r : heap * Z) in
      let s := (h, snd s) in
      if bool_decide (rb = 0) then Ret (fst s, snd s, first_rb, prev_rb, i) else
      r ← (match alloc_callback with Some f => f s rb | None => Ret (s, 0) end);
      let '(s, ret) := (r : heap * E * Z) in
      if bool_decide (ret <> 0) then
        h ← ring_buf_free (fst s) rb; Ret (h, snd s, first_rb, prev_rb, i)
      else
        h ← link (fst s) first_rb prev_rb rb;
        alloc_loop alloc_callback hroom data_len troom n (S i) (h, snd s)
          (if bool_decide (first_rb = 0) then rb else first_rb) rb
  end.

Definition ring_buf_alloc_ring (entries : nat) (hroom data_len troom : Z)
    (alloc_callback : alloc_cb) (free_callback : free_cb) s : outcome (heap * E * Z) :=
  if bool_decide (entries = 0%nat) then Ret (s, 0) else
  r ← alloc_loop alloc_callback hroom data_len troom entries 0 s 0 0;
  let '(h, e, first_rb, prev_rb, i) := (r : heap * E * Z * Z * nat) in
  if bool_decide (i < entries)%nat then
    s ← undo_ring free_callback i (h, e) first_rb; Ret (s, 0)
  else
    h ← set_next h prev_rb first_rb; Ret (h, e, first_rb).

(** The [do] loop of [ring_buf_free_ring]; [n] bounds the entries left. *)
Fixpoint free_loop (free_callback : free_cb) (n : nat) s (first_rb rb : Z) : outcome (heap * E) :=
  match n with
  | O => Hang
  | S n =>
      next_rb ← ring_buf_get_next (fst s) rb;
      s ← free_one free_callback s rb;
      if bool_decide (next_rb <> first_rb) then free_loop free_callback n s first_rb next_rb else Ret s
  end.

Definition ring_buf_free_ring (free_callback : free_cb) s (rb : Z) : outcome (heap * E) :=
  if bool_decide (rb = 0) then Ret s else free_loop free_callback (size (rbs (fst s))) s rb rb.

End Rings.

(** ** Byte memory: what reads and writes do *)

Definition in_range (p n a : Z) : bool := bool_decide (p <= a) && bool_decide (a < p + n).
Definition has_bytes (m : gmap Z Z) (p n : Z) : Prop := forall a, p <= a < p + n -> is_Some (m !! a).

Lemma read_bytes_ok m p n : has_bytes m p (Z.of_nat n) -> exists l, read_bytes m p n = Ret l /\ length l = n.
Proof.
  revert p. induction n as [|n IH]; intros p Hm; simpl; [by exists []|].
  destruct (Hm p ltac:(lia)) as [b ->]. simpl.
  destruct (IH (p + 1)) as (l & -> & Hl); [intros a ?; apply Hm; lia|]. exists (b :: l). simpl. by rewrite Hl.
Qed.

Lemma read_bytes_length m p n l : read_bytes m p n = Ret l -> length l = n.
Proof.
  revert p l. induction n as [|n IH]; intros p l Hr; simplify_eq/=; [done|].
  destruct (m !! p); simpl in Hr; [|done]. destruct (read_bytes m (p + 1) n) as [l'| |] eqn:El; simplify_eq/=.
  f_equal. by eapply IH.
Qed.

Lemma read_bytes_has m p n l : read_bytes m p n = Ret l -> has_bytes m p (Z.of_nat n).
Proof.
  revert p l. induction n as [|n IH]; intros p l Hr a Ha; [lia|]. simpl in Hr.
  destruct (m !! p) eqn:Ep; simpl in Hr; [|done]. destruct (read_bytes m (p + 1) n) as [l'| |] eqn:El; simplify_eq/=.
  destruct (decide (a = p)) as [->|?]; [by rewrite Ep|]. apply (IH _ _ El). lia.
Qed.

Lemma read_bytes_ext m m' p n :
  (forall a, p <= a < p + Z.of_nat n -> m' !! a = m !! a) -> read_bytes m' p n = read_bytes m p n.
Proof.
  revert p. induction n as [|n IH]; intros p Hm; simpl; [done|].
  rewrite (Hm p), (IH (p + 1)) by (intros; try apply Hm; lia). done.
Qed.

Lemma read_bytes_app m p (n k : nat) :
  read_bytes m p (n + k) = (l ← read_bytes m p n; l' ← read_bytes m (p + Z.of_nat n) k; Ret (l ++ l')).
Proof.
  revert p. induction n as [|n IH]; intros p; simpl.
  - rewrite Z.add_0_r. by destruct (read_bytes m p k).
  - destruct (m !! p); simpl; [|done]. rewrite IH. replace (p + 1 + Z.of_nat n) with (p + Z.of_nat (S n)) by lia.
    destruct (read_bytes m (p + 1) n); simpl; [|done|done]. by destruct (read_bytes m (p + Z.of_nat (S n)) k).
Qed.

Lemma read_bytes_drop m p n k l :
  read_bytes m p n = Ret l -> (k <= n)%nat -> read_bytes m (p + Z.of_nat k) (length (drop k l)) = Ret (drop k l).
Proof.
  intros Hr Hk. rewrite length_drop, (read_bytes_length _ _ _ _ Hr).
  replace n with (k + (n - k))%nat in Hr by lia. rewrite read_bytes_app in Hr.
  destruct (read_bytes m p k) as [l1| |] eqn:E1; simpl in Hr; try done.
  destruct (read_bytes m (p + Z.of_nat k) (n - k)) as [l2| |] eqn:E2; simplify_eq/=.
  by rewrite drop_app_length' by (by rewrite (read_bytes_length _ _ _ _ E1)).
Qed.

Lemma write_bytes_ok m p l :
  has_bytes m p (Z.of_nat (length l)) ->
  exists m', write_bytes m p l = Ret m' /\ read_bytes m' p (length l) = Ret l /\
    (forall a, ~ p <= a < p + Z.of_nat (length l) -> m' !! a = m !! a) /\
    (forall a, is_Some (m !! a) -> is_Some (m' !! a)).
Proof.
  revert m p. induction l as [|b l IH]; intros m p Hm; simpl; [by exists m|].
  destruct (Hm p) as [b0 ->]; [simpl; lia|]. simpl.
  destruct (IH (<[p := b]> m) (p + 1)) as (m' & E & Hr & Ho & Hs).
  { intros a ?. rewrite lookup_insert_ne by lia. apply Hm. simpl. lia. }
  exists m'. split; [done|]. split; [|split].
  - rewrite (Ho p), lookup_insert_eq by lia. simpl. by rewrite Hr.
  - intros a Ha. rewrite Ho by lia. apply lookup_insert_ne. lia.
  - intros a Ha. apply Hs. destruct (decide (p = a)) as [->|?]; [by rewrite lookup_insert_eq|].
    by rewrite lookup_insert_ne.
Qed.

Lemma zero_bytes_lookup m p n a :
  zero_bytes m p n !! a = if in_range p (Z.of_nat n) a then Some 0 else m !! a.
Proof.
  unfold in_range. revert p. induction n as [|n IH]; intros p; simpl.
  - repeat case_bool_decide; done || lia.
  - destruct (decide (p = a)) as [->|?].
    + rewrite lookup_insert_eq. by rewrite !bool_decide_eq_true_2 by lia.
    + rewrite lookup_insert_ne, IH by done. repeat case_bool_decide; done || lia.
Qed.

Lemma drop_bytes_lookup m p n a :
  drop_bytes m p n !! a = if in_range p (Z.of_nat n) a then None else m !! a.
Proof.
  unfold in_range. revert p. induction n as [|n IH]; intros p; simpl.
  - repeat case_bool_decide; done || lia.
  - destruct (decide (p = a)) as [->|?].
    + rewrite lookup_delete_eq. by rewrite !bool_decide_eq_true_2 by lia.
    + rewrite lookup_delete_ne, IH by done. repeat case_bool_decide; done || lia.
Qed.

(** ** Rings *)

(** [l]: entries linked one to the next, the last one to [e]. *)
Fixpoint chain (m : gmap Z ring_buf) (l : list Z) (e : Z) : Prop :=
  match l with
  | [] => True
  | p :: l' => (exists r, m !! p = Some r /\ next r = default e (list.head l')) /\ chain m l' e
  end.

Definition is_ring (m : gmap Z ring_buf) (l : list Z) : Prop :=
  NoDup l /\ exists p, list.head l = Some p /\ chain m l p.

(** Nothing lies at or above [top]. *)
Record heap_ok (h : heap) : Prop := {
  ok_top : 0 < top h;
  ok_rbs a : top h <= a -> rbs h !! a = None;
  ok_chunks a : top h <= a -> chunks h !! a = None;
  ok_bytes a : top h <= a -> bytes h !! a = None;
}.

(** [a] is in the buffer of one of the entries [l], in chunks of [sz] bytes. *)
Definition in_buffers (sz : Z) (l : list Z) (a : Z) : bool :=
  existsb (fun p => in_range (p + sizeof_ring_buf) (sz - sizeof_ring_buf) a) l.

Lemma chain_ext m m' l e : (forall p, p ∈ l -> m' !! p = m !! p) -> chain m l e -> chain m' l e.
Proof.
  induction l as [|p l IH]; intros Hm; simpl; [done|]. intros [(r & Hr & Hn) Hc]. split.
  - exists r. split; [|done]. rewrite Hm by left. done.
  - apply IH; [|done]. intros q Hq. apply Hm. by right.
Qed.

Lemma chain_app m l1 p l2 e : chain m (l1 ++ p :: l2) e <-> chain m l1 p /\ chain m (p :: l2) e.
Proof.
  induction l1 as [|q l1 IH]; [simpl; tauto|]. simpl in *. rewrite IH. destruct l1; simpl; tauto.
Qed.

Lemma chain_some m l e p : chain m l e -> p ∈ l -> is_Some (m !! p).
Proof.
  induction l as [|q l IH]; [by intros _ ?%elem_of_nil|]. intros [(r & Hr & _) Hc] [->|Hp]%elem_of_cons; eauto.
Qed.

Section RingFacts.
Context {E : Type}.
Implicit Types (s : heap * E).

Definition fcb_ok (f : @free_cb E) : Prop :=
  match f with None => True | Some f => forall s p, exists e', f s p = Ret (fst s, e') end.

Lemma free_one_ok f h e p sz :
  fcb_ok f -> p <> 0 -> chunks h !! p = Some sz -> sizeof_ring_buf <= sz ->
  exists h' e', free_one f (h, e) p = Ret (h', e') /\
    rbs h' = delete p (rbs h) /\ chunks h' = delete p (chunks h) /\ top h' = top h /\ budget h' = budget h /\
    (forall a, bytes h' !! a = if in_range (p + sizeof_ring_buf) (sz - sizeof_ring_buf) a then None else bytes h !! a).
Proof.
  intros Hf Hp Hc Hsz. unfold free_one, call_free, ring_buf_free.
  assert (exists e', match f with Some f0 => f0 (h, e) p | None => Ret (h, e) end = Ret (h, e')) as [e' ->].
  { destruct f as [f|]; [apply (Hf (h, e) p)|by exists e]. }
  simpl. rewrite bool_decide_eq_false_2, Hc by done. simpl.
  eexists _, e'. split; [done|]. simpl. split_and!; [done..|].
  intros a. rewrite drop_bytes_lookup. by rewrite Z2Nat.id by lia.
Qed.

(** Freeing entries one after the other. *)
Lemma free_list_ok f sz l h e :
  fcb_ok f -> sizeof_ring_buf <= sz -> NoDup l -> (forall p, p ∈ l -> p <> 0 /\ chunks h !! p = Some sz) ->
  exists h' e', foldO (free_one f) (h, e) l = Ret (h', e') /\
    (forall a, rbs h' !! a = if decide (a ∈ l) then None else rbs h !! a) /\
    (forall a, chunks h' !! a = if decide (a ∈ l) then None else chunks h !! a) /\
    (forall a, bytes h' !! a = if in_buffers sz l a then None else bytes h !! a) /\
    top h' = top h /\ budget h' = budget h.
Proof.
  intros Hf Hsz. revert h e. induction l as [|p l IH]; intros h e Hnd Hl.
  { exists h, e. split; [done|]. split_and!; try done; intros a; by rewrite decide_False by apply not_elem_of_nil. }
  apply NoDup_cons in Hnd as [Hp Hnd]. destruct (Hl p) as [Hp0 Hc]; [left|].
  destruct (free_one_ok f h e p sz Hf Hp0 Hc Hsz) as (h1 & e1 & E1 & Hr & Hk & Ht & Hb & Hm).
  destruct (IH h1 e1 Hnd) as (h' & e' & E2 & Hr' & Hk' & Hm' & Ht' & Hb').
  { intros q Hq. split; [apply Hl; by right|]. rewrite Hk, lookup_delete_ne by congruence. apply Hl. by right. }
  exists h', e'. simpl. rewrite E1. split; [done|].
  assert (Hd : forall X (m : gmap Z X) a,
    (if decide (a ∈ l) then None else delete p m !! a) = if decide (a ∈ p :: l) then None else m !! a).
  { intros X m a. destruct (decide (a = p)) as [->|?].
    - rewrite (decide_True (P := p ∈ p :: l)) by left. rewrite lookup_delete_eq. by case_decide.
    - rewrite lookup_delete_ne by done. destruct (decide (a ∈ l)) as [Ha|Ha].
      + by rewrite decide_True by by right.
      + rewrite decide_False; [done|]. by intros [|]%elem_of_cons. }
  split_and!; [intros a; rewrite Hr', Hr; apply Hd|intros a; rewrite Hk', Hk; apply Hd| |congruence..].
  intros a. rewrite Hm', Hm. simpl. by destruct (in_range _ _ a), (in_buffers sz l a).
Qed.

Lemma free_one_next f h e p h' e' q :
  fcb_ok f -> free_one f (h, e) p = Ret (h', e') -> q <> p -> rbs h' !! q = rbs h !! q.
Proof.
  intros Hf Hone Hq. unfold free_one, call_free, ring_buf_free in Hone.
  assert (exists e1, match f with Some f0 => f0 (h, e) p | None => Ret (h, e) end = Ret (h, e1)) as [e1 E1].
  { destruct f as [f|]; [apply (Hf (h, e) p)|by exists e]. }
  rewrite E1 in Hone. simpl in Hone. case_bool_decide; simplify_eq/=; [done|].
  destruct (chunks h !! p); simplify_eq/=. by apply lookup_delete_ne.
Qed.

(** The two loops free the entries of their chain in order. *)
Lemma undo_ring_list f l h e d :
  fcb_ok f -> NoDup l -> chain (rbs h) l d ->
  undo_ring f (length l) (h, e) (default d (list.head l)) = foldO (free_one f) (h, e) l.
Proof.
  intros Hf. revert h e. induction l as [|p l IH]; intros h e Hnd Hc; [done|].
  apply NoDup_cons in Hnd as [Hp Hnd]. destruct Hc as [(r & Hr & Hn) Hc]. simpl.
  unfold ring_buf_get_next, get_rb. rewrite Hr. simpl.
  destruct (free_one f (h, e) p) as [[h1 e1]| |] eqn:E1; simpl; [|done|done].
  rewrite Hn. apply IH; [done|]. eapply chain_ext; [|done]. intros q Hq.
  eapply free_one_next; [done..|]. by intros ->.
Qed.

Lemma free_loop_list f n l h e p first :
  fcb_ok f -> NoDup (p :: l) -> first ∉ l -> chain (rbs h) (p :: l) first -> (length l < n)%nat ->
  free_loop f n (h, e) first p = foldO (free_one f) (h, e) (p :: l).
Proof.
  intros Hf. revert h e n p. induction l as [|q l IH]; intros h e [|n] p Hnd Hfst Hc Hn; simpl in Hn; try lia;
    destruct Hc as [(r & Hr & Hnx) Hc]; apply NoDup_cons in Hnd as [Hp Hnd]; simpl in *;
    unfold ring_buf_get_next, get_rb; rewrite Hr; simpl; rewrite Hnx;
    (destruct (free_one f (h, e) p) as [[h1 e1]| |] eqn:E1; simpl; [|done|done]).
  - by rewrite bool_decide_eq_false_2 by auto.
  - rewrite bool_decide_eq_true_2 by set_solver. apply IH; [done|set_solver| |lia].
    apply (chain_ext (rbs h) (rbs h1) (q :: l) first); [|exact Hc].
    intros a Ha. eapply free_one_next; [done..|]. by intros ->.
Qed.

End RingFacts.

(** ** Allocation *)

Lemma chain_close m l p r v d :
  NoDup l -> chain m l d -> last l = Some p -> m !! p = Some r -> chain (<[p := with_next r v]> m) l v.
Proof.
  intros Hnd Hc [l' ->]%last_Some Hp. apply chain_app in Hc as [Hc _]. apply chain_app. split.
  - eapply chain_ext; [|exact Hc]. intros q Hq. apply lookup_insert_ne. intros ->.
    apply NoDup_app in Hnd as (_ & Hd & _). apply (Hd q); [done|left].
  - simpl. split; [|done]. exists (with_next r v). by rewrite lookup_insert_eq.
Qed.

(** What one entry takes. *)
Definition chunk_size (hroom dlen troom : Z) : Z := sizeof_ring_buf + (hroom + dlen + troom).

Section Allocation.
Context {E : Type} (acb : @alloc_cb E) (fcb : @free_cb E).
Context (hroom dlen troom : Z) (Hh : 0 <= hroom) (Hd : 0 <= dlen) (Ht : 0 <= troom).
Let sz : Z := chunk_size hroom dlen troom.
Context (Hsz : sz < 2 ^ 32).

(** The entry [ring_buf_alloc] makes at [p]. *)
Definition fresh_rb (p : Z) : ring_buf :=
  if bool_decide (hroom + dlen + troom = 0) then mk_rb 0 RING_BUF_OWNER_PRODUCER 0 0 0 0 0 0
  else let b := p + sizeof_ring_buf in
    mk_rb 0 RING_BUF_OWNER_PRODUCER 0 b (b + hroom) (b + hroom + dlen) (b + hroom) (b + hroom).

(** The callback may fill in the entry; its link is the ring's. *)
Context (Q : Z -> ring_buf -> Prop).
Definition acb_ok : Prop :=
  match acb with
  | None => forall p, Q p (fresh_rb p)
  | Some f => forall h e p, rbs h !! p = Some (fresh_rb p) ->
      exists r e' z, f (h, e) p = Ret (set_rbs (<[p := r]> (rbs h)) h, e', z) /\ next r = 0 /\ Q p r
  end.

Definition grown (h : heap) (b : nat) : heap :=
  mk_heap (<[top h := fresh_rb (top h)]> (rbs h))
    (zero_bytes (bytes h) (top h + sizeof_ring_buf) (Z.to_nat (sz - sizeof_ring_buf)))
    (<[top h := sz]> (chunks h)) (top h + sz) b.

Lemma ring_buf_alloc_ok h :
  (budget h = O /\ ring_buf_alloc h hroom dlen troom = Ret (h, 0)) \/
  exists b, budget h = S b /\ ring_buf_alloc h hroom dlen troom = Ret (grown h b, top h).
Proof.
  assert (Esz : sizeof_ring_buf + (hroom + dlen + troom) = sz) by done.
  unfold sz, chunk_size, sizeof_ring_buf in Hsz. unfold ring_buf_alloc, grown.
  rewrite (wrap32_small (hroom + dlen + troom)), Esz by lia. unfold sizeof_ring_buf in *.
  rewrite (wrap32_small sz), (bool_decide_eq_false_2 (sz = 0)) by (unfold sz, chunk_size, sizeof_ring_buf; lia).
  destruct (budget h) as [|b]; [by left|right]. exists b. split; [done|].
  rewrite bool_decide_eq_false_2 by (unfold sz, chunk_size, sizeof_ring_buf; lia).
  unfold fresh_rb, ring_buf_set_owner, ring_buf_init, ring_buf_reset, get_rb, put_rb, get_rb, set_rbs. simpl.
  rewrite lookup_insert_eq. simpl. rewrite lookup_insert_eq. simpl. rewrite insert_insert_eq.
  case_bool_decide as Hz.
  - rewrite bool_decide_eq_false_2 by lia. repeat (rewrite ?insert_insert_eq, lookup_insert_eq; simpl).
    by rewrite !insert_insert_eq.
  - simpl. by rewrite insert_insert_eq, bool_decide_eq_true_2 by lia.
Qed.

(** The first [i] addresses handed out from [t] on. *)
Definition addrs (t : Z) (i : nat) : list Z := (fun k => t + Z.of_nat k * sz) <$> seq 0 i.

#[local] Arguments addrs : simpl never.
Lemma length_addrs t i : length (addrs t i) = i.
Proof. unfold addrs. by rewrite length_fmap, length_seq. Qed.

Lemma addrs_S t i : addrs t (S i) = addrs t i ++ [t + Z.of_nat i * sz].
Proof. unfold addrs. by rewrite seq_S, fmap_app. Qed.
Lemma not_elem_addrs_S t i a : a ∉ addrs t (S i) -> a ∉ addrs t i /\ a <> t + Z.of_nat i * sz.
Proof. rewrite addrs_S. set_solver. Qed.
Lemma elem_of_addrs t i a : a ∈ addrs t i <-> exists k : nat, (k < i)%nat /\ a = t + Z.of_nat k * sz.
Proof.
  unfold addrs. rewrite list_elem_of_fmap. split.
  - intros (k & -> & Hk%elem_of_seq). exists k. split; [lia|done].
  - intros (k & Hk & ->). exists k. split; [done|]. apply elem_of_seq. lia.
Qed.
Lemma addrs_bounds t i a : a ∈ addrs t i -> t <= a /\ a + sz <= t + Z.of_nat i * sz.
Proof. intros (k & Hk & ->)%elem_of_addrs. unfold sz, chunk_size, sizeof_ring_buf in *. nia. Qed.
Lemma addrs_NoDup t i : NoDup (addrs t i).
Proof.
  apply NoDup_fmap_2; [|apply NoDup_seq]. intros k k' Hk. unfold sz, chunk_size, sizeof_ring_buf in *. nia.
Qed.

(** After [i] entries were made from the heap [h0]. *)
Record made (h0 : heap) (i : nat) (h : heap) : Prop := {
  m_rbs a : a ∉ addrs (top h0) i -> rbs h !! a = rbs h0 !! a;
  m_chunks a : chunks h !! a = if decide (a ∈ addrs (top h0) i) then Some sz else chunks h0 !! a;
  m_bytes a : bytes h !! a = if in_buffers sz (addrs (top h0) i) a then Some 0 else bytes h0 !! a;
  m_chain : chain (rbs h) (addrs (top h0) i) 0;
  m_Q p : p ∈ addrs (top h0) i -> exists r, rbs h !! p = Some r /\ Q p (with_next r 0);
}.

Lemma with_next_self r : next r = 0 -> with_next r 0 = r.
Proof. destruct r. simpl. by intros ->. Qed.

Lemma last_addrs t i p : last (addrs t i) = Some p -> p ∈ addrs t i.
Proof. intros [l ->]%last_Some. set_solver. Qed.

Lemma made_intro h0 i h b r m :
  heap_ok h0 -> made h0 i h -> top h = top h0 + Z.of_nat i * sz -> next r = 0 -> Q (top h) r ->
  m !! top h = Some r ->
  (forall a, a ∉ addrs (top h0) (S i) -> m !! a = rbs h !! a) ->
  (forall a ra, a ∈ addrs (top h0) i -> rbs h !! a = Some ra -> exists v, m !! a = Some (with_next ra v)) ->
  chain m (addrs (top h0) i) (top h) ->
  made h0 (S i) (set_rbs m (grown h b)).
Proof.
  intros Hok Hm Htop Hr HQ Hp Hout Hin Hc. split.
  - intros a Ha. simpl. rewrite Hout by done. apply (m_rbs _ _ _ Hm). rewrite addrs_S in Ha. set_solver.
  - intros a. simpl. rewrite addrs_S, <- Htop. destruct (decide (a = top h)) as [->|Hne].
    + rewrite lookup_insert_eq, decide_True by set_solver. done.
    + rewrite lookup_insert_ne, (m_chunks _ _ _ Hm) by done. repeat case_decide; set_solver.
  - intros a. rewrite addrs_S, <- Htop. simpl. rewrite zero_bytes_lookup, (m_bytes _ _ _ Hm). unfold in_buffers.
    rewrite existsb_app. simpl. rewrite orb_false_r, Z2Nat.id by (unfold sz, chunk_size; lia).
    destruct (existsb _ _), (in_range _ _ a); done.
  - rewrite addrs_S, <- Htop. apply chain_app. split; [done|]. simpl. by eauto.
  - intros p. rewrite addrs_S, <- Htop, elem_of_app, list_elem_of_singleton. simpl.
    intros [Ha| ->]; [|exists r; by rewrite with_next_self].
    destruct (m_Q _ _ _ Hm p Ha) as (ra & Hra & HQa). destruct (Hin p ra Ha Hra) as [v Hv].
    by exists (with_next ra v).
Qed.

Lemma link_ok h0 i h b r :
  heap_ok h0 -> made h0 i h -> top h = top h0 + Z.of_nat i * sz -> next r = 0 -> Q (top h) r ->
  exists h1, link (set_rbs (<[top h := r]> (rbs (grown h b))) (grown h b))
               (default 0 (list.head (addrs (top h0) i))) (default 0 (last (addrs (top h0) i))) (top h) = Ret h1 /\
    made h0 (S i) h1 /\ top h1 = top h0 + Z.of_nat (S i) * sz /\ budget h1 = b.
Proof.
  intros Hok Hm Htop Hr HQ. pose proof (ok_top _ Hok) as H0.
  assert (Hni : top h ∉ addrs (top h0) i) by (intros [_ ?]%addrs_bounds; unfold sz, chunk_size, sizeof_ring_buf in *; lia).
  assert (Hm1 : forall a, a ∈ addrs (top h0) i -> (<[top h := r]> (<[top h := fresh_rb (top h)]> (rbs h))) !! a = rbs h !! a).
  { intros a Ha. rewrite !lookup_insert_ne; [done|congruence..]. }
  assert (Htop' : top h + sz = top h0 + Z.of_nat (S i) * sz) by (rewrite Htop; lia).
  unfold link. destruct i as [|i].
  - change (addrs (top h0) 0) with (@nil Z). simpl. eexists. split; [done|]. split; [|done].
    apply (made_intro h0 0 h b r); try done; simpl; [by rewrite lookup_insert_eq|..|by intros a ra Ha%elem_of_nil].
    intros a [_ Ha]%not_elem_addrs_S. by rewrite !lookup_insert_ne by congruence.
  - rewrite bool_decide_eq_false_2.
    2: { unfold addrs. simpl. lia. }
    assert (exists pv, last (addrs (top h0) (S i)) = Some pv) as [pv Hpv].
    { rewrite addrs_S, last_snoc. by eexists. }
    rewrite Hpv. simpl. pose proof (last_addrs _ _ _ Hpv) as Hpi.
    destruct (m_Q _ _ _ Hm pv Hpi) as (rp & Hrp & _).
    assert (pv <> top h) by congruence.
    unfold set_next, put_rb, get_rb. simpl. rewrite Hm1, Hrp by done. simpl.
    eexists. split; [done|]. split; [|done].
    apply (made_intro h0 (S i) h b r); try done.
    + rewrite lookup_insert_ne by done. by rewrite lookup_insert_eq.
    + intros a [Ha Ha']%not_elem_addrs_S. by rewrite !lookup_insert_ne by congruence.
    + intros a ra Ha Hra. destruct (decide (a = pv)) as [->|?].
      * rewrite lookup_insert_eq. simplify_eq. by eexists.
      * exists (next ra). rewrite lookup_insert_ne by done. rewrite Hm1, Hra by done. by destruct ra.
    + eapply chain_close; [apply addrs_NoDup| |done|by rewrite Hm1].
      eapply chain_ext; [exact Hm1|apply (m_chain _ _ _ Hm)].
Qed.

(** An entry whose callback failed is given back. *)
Lemma made_freed h0 i h b r :
  heap_ok h0 -> made h0 i h -> top h = top h0 + Z.of_nat i * sz ->
  exists h1, ring_buf_free (set_rbs (<[top h := r]> (rbs (grown h b))) (grown h b)) (top h) = Ret h1 /\ made h0 i h1.
Proof.
  intros Hok Hm Htop. pose proof (ok_top _ Hok).
  assert (Hge : top h0 <= top h) by (unfold sz, chunk_size, sizeof_ring_buf in *; nia).
  assert (Hni : top h ∉ addrs (top h0) i) by (intros [_ ?]%addrs_bounds; unfold sz, chunk_size, sizeof_ring_buf in *; lia).
  unfold ring_buf_free. rewrite bool_decide_eq_false_2 by lia. simpl. rewrite lookup_insert_eq. simpl.
  eexists. split; [done|]. split; simpl.
  - intros a Ha. rewrite <- (m_rbs _ _ _ Hm a Ha). destruct (decide (a = top h)) as [->|?].
    + rewrite lookup_delete_eq, (m_rbs _ _ _ Hm _ Hni). symmetry. by apply (ok_rbs _ Hok).
    + by rewrite lookup_delete_ne, !lookup_insert_ne by done.
  - intros a. rewrite <- (m_chunks _ _ _ Hm a). destruct (decide (a = top h)) as [->|?].
    + rewrite lookup_delete_eq, (m_chunks _ _ _ Hm), decide_False by done. symmetry. by apply (ok_chunks _ Hok).
    + by rewrite lookup_delete_ne, !lookup_insert_ne by done.
  - intros a. rewrite drop_bytes_lookup, zero_bytes_lookup, <- (m_bytes _ _ _ Hm a).
    destruct (in_range _ _ a) eqn:Ha; [|done]. unfold in_range in Ha.
    apply andb_true_iff in Ha as [Ha%bool_decide_eq_true _].
    unfold sizeof_ring_buf in Ha.
    rewrite (m_bytes _ _ _ Hm), (ok_bytes _ Hok) by lia. destruct (in_buffers _ _ _) eqn:Hb; [|done].
    apply existsb_exists in Hb as (p & Hp%list_elem_of_In%addrs_bounds & Hp').
    unfold in_range in Hp'. apply andb_true_iff in Hp' as [_ Hp'%bool_decide_eq_true]. lia.
  - eapply chain_ext; [|apply (m_chain _ _ _ Hm)]. intros a Ha.
    rewrite lookup_delete_ne, !lookup_insert_ne by congruence. done.
  - intros a Ha. rewrite lookup_delete_ne, !lookup_insert_ne by congruence. by apply (m_Q _ _ _ Hm).
Qed.

Lemma alloc_loop_ok h0 n i h e :
  acb_ok -> heap_ok h0 -> made h0 i h -> top h = top h0 + Z.of_nat i * sz -> (budget h + i = budget h0)%nat ->
  exists h' e' j,
    alloc_loop acb hroom dlen troom n i (h, e) (default 0 (list.head (addrs (top h0) i))) (default 0 (last (addrs (top h0) i)))
      = Ret (h', e', default 0 (list.head (addrs (top h0) j)), default 0 (last (addrs (top h0) j)), j) /\
    (j <= i + n)%nat /\ made h0 j h' /\ (acb = None -> j = Nat.min (i + n) (budget h0) /\ e' = e).
Proof.
  intros Hcb Hok. revert i h e. induction n as [|n IH]; intros i h e Hm Htop Hb; simpl.
  { exists h, e, i. split_and!; [done|lia|done|by split; [lia|]]. }
  pose proof (ok_top _ Hok).
  destruct (ring_buf_alloc_ok h) as [[Hb0 ->]|(b & Hb1 & ->)]; simpl.
  { exists h, e, i. split_and!; [done|lia|done|by split; [lia|]]. }
  rewrite bool_decide_eq_false_2 by (unfold sz, chunk_size, sizeof_ring_buf in *; nia).
  assert (exists r e' z, (match acb with Some f => f (grown h b, e) (top h) | None => Ret (grown h b, e, 0) end)
      = Ret (set_rbs (<[top h := r]> (rbs (grown h b))) (grown h b), e', z) /\ next r = 0 /\ Q (top h) r /\
      (acb = None -> z = 0 /\ e' = e)) as (r & e' & z & -> & Hr & HQ & Hz).
  { unfold acb_ok in Hcb. destruct acb as [f|].
    - destruct (Hcb (grown h b) e (top h)) as (r & e' & z & E1 & ? & ?); [by apply lookup_insert_eq|].
      by exists r, e', z.
    - exists (fresh_rb (top h)), e, 0. split_and!; [|by unfold fresh_rb; case_bool_decide|done..].
      unfold grown, set_rbs. simpl. by rewrite insert_insert_eq. }
  simpl. case_bool_decide as Hz0.
  { destruct (made_freed h0 i h b r) as (h1 & E1 & Hm1); [done..|].
    simpl in E1. rewrite E1. simpl.
    exists h1, e', i. split_and!; [done|lia|done|]. intros HN. by destruct (Hz HN). }
  destruct (link_ok h0 i h b r) as (h1 & E2 & Hm1 & Ht1 & Hb2); [done..|].
  simpl in E2. rewrite E2. simpl.
  destruct (IH (S i) h1 e' Hm1 Ht1 ltac:(lia)) as (h' & e'' & j & E1 & Hj & Hm' & Hn).
  exists h', e'', j. split; [|split_and!; [lia|done|]].
  2: { intros HN. destruct (Hn HN), (Hz HN). split; [lia|congruence]. }
  rewrite <- E1. f_equal; [|by rewrite addrs_S, last_snoc, <- Htop].
  destruct i as [|i].
  - change (addrs (top h0) 0) with (@nil Z). rewrite addrs_S. simpl. rewrite Htop. done.
  - rewrite bool_decide_eq_false_2; [by rewrite !addrs_S; destruct (addrs (top h0) i)|]. unfold addrs. simpl. lia.
Qed.

End Allocation.

(** ** Whole rings *)

Lemma is_ring_rotate m l1 l2 : is_ring m (l1 ++ l2) -> is_ring m (l2 ++ l1).
Proof.
  intros (Hnd & p & Hp & Hc). destruct l2 as [|q l2]; [rewrite app_nil_r in *; by split; eauto|].
  destruct l1 as [|p' l1]; [rewrite app_nil_r; simpl in *; split; eauto|]. simpl in Hp. injection Hp as <-.
  split; [by rewrite Permutation_app_comm|]. exists q. split; [done|].
  apply chain_app in Hc as [H1 H2]. apply chain_app. split; [|done]. done.
Qed.

Lemma ring_from m l q : is_ring m l -> q ∈ l -> exists l', is_ring m (q :: l') /\ q :: l' ≡ₚ l.
Proof.
  intros Hr (l1 & l2 & ->)%list_elem_of_split. apply is_ring_rotate in Hr.
  exists (l2 ++ l1). split; [done|]. by rewrite <- Permutation_middle, Permutation_app_comm.
Qed.

Lemma in_buffers_perm sz l l' a : l ≡ₚ l' -> in_buffers sz l a = in_buffers sz l' a.
Proof.
  intros Hl. unfold in_buffers. apply eq_true_iff_eq. rewrite !existsb_exists.
  split; intros (p & Hp & Ha); exists p; split; try done; apply list_elem_of_In; apply list_elem_of_In in Hp; by rewrite Hl || by rewrite <- Hl.
Qed.

(** From any of its entries, a ring is freed as a whole. *)
Lemma free_ring_ok {E} (f : @free_cb E) sz l h e q :
  fcb_ok f -> sizeof_ring_buf <= sz -> is_ring (rbs h) l -> q ∈ l ->
  (forall p, p ∈ l -> p <> 0 /\ chunks h !! p = Some sz) ->
  exists h' e', ring_buf_free_ring f (h, e) q = Ret (h', e') /\
    (forall a, rbs h' !! a = if decide (a ∈ l) then None else rbs h !! a) /\
    (forall a, chunks h' !! a = if decide (a ∈ l) then None else chunks h !! a) /\
    (forall a, bytes h' !! a = if in_buffers sz l a then None else bytes h !! a) /\
    top h' = top h /\ budget h' = budget h.
Proof.
  intros Hf Hsz Hr Hq Hl. destruct (ring_from _ _ _ Hr Hq) as (l' & (Hnd & p & Hp & Hc) & Hperm).
  simpl in Hp. injection Hp as <-.
  destruct (free_list_ok f sz (q :: l') h e Hf Hsz Hnd) as (h' & e' & E1 & H1 & H2 & H3 & H4 & H5).
  { intros a. rewrite Hperm. apply Hl. }
  exists h', e'. split.
  - unfold ring_buf_free_ring. rewrite bool_decide_eq_false_2 by by apply Hl.
    rewrite <- E1. apply NoDup_cons in Hnd as Hnd'. destruct Hnd' as [Hq' _].
    apply free_loop_list; try done. simpl.
    assert (Hsub : list_to_set (q :: l') ⊆ dom (rbs h)).
    { intros a Ha%elem_of_list_to_set. apply elem_of_dom. by eapply chain_some. }
    apply subseteq_size in Hsub. rewrite size_list_to_set, size_dom in Hsub by done. simpl in Hsub. lia.
  - split_and!; [intros a; rewrite H1|intros a; rewrite H2|intros a; rewrite H3|done..];
      [destruct (decide (a ∈ l)) as [Ha|Ha]; [rewrite decide_True by by rewrite Hperm|rewrite decide_False by by rewrite Hperm]; done..|].
    by rewrite (in_buffers_perm _ _ _ _ Hperm).
Qed.

(** Nothing of the heap [h] was lost and nothing added to it. *)
Definition same_heap (h h' : heap) : Prop := rbs h' = rbs h /\ chunks h' = chunks h /\ bytes h' = bytes h.

Section AllocationFacts.
Context {E : Type} (acb : @alloc_cb E) (fcb : @free_cb E).
Context (hroom dlen troom : Z) (Hh : 0 <= hroom) (Hd : 0 <= dlen) (Ht : 0 <= troom).
Let sz : Z := chunk_size hroom dlen troom.
Context (Hsz : sz < 2 ^ 32).
Context (Q : Z -> ring_buf -> Prop).
#[local] Abbreviation adr := (addrs hroom dlen troom).

Lemma addrs_ge t i a : a ∈ adr t i -> t <= a.
Proof. intros Ha. by eapply addrs_bounds in Ha as [? _]; [|done..]. Qed.

Lemma in_buffers_addrs t i a : in_buffers sz (adr t i) a = true -> t <= a.
Proof.
  intros (p & Hp%list_elem_of_In%addrs_ge & Ha)%existsb_exists.
  unfold in_range, sizeof_ring_buf in Ha. apply andb_true_iff in Ha as [Ha%bool_decide_eq_true _]. lia.
Qed.

(** Taking away what was made. *)
Lemma made_undone h0 i h h' :
  heap_ok h0 -> made hroom dlen troom Q h0 i h ->
  (forall a, rbs h' !! a = if decide (a ∈ adr (top h0) i) then None else rbs h !! a) ->
  (forall a, chunks h' !! a = if decide (a ∈ adr (top h0) i) then None else chunks h !! a) ->
  (forall a, bytes h' !! a = if in_buffers sz (adr (top h0) i) a then None else bytes h !! a) ->
  same_heap h0 h'.
Proof.
  intros Hok Hm H1 H2 H3. split_and!; apply map_eq; intros a.
  - rewrite H1. destruct (decide _) as [Ha%addrs_ge|Ha]; try done; [by rewrite (ok_rbs _ Hok)|].
    by apply (m_rbs _ _ _ _ _ _ _ Hm).
  - rewrite H2, (m_chunks _ _ _ _ _ _ _ Hm). destruct (decide _) as [Ha%addrs_ge|Ha]; try done.
    by rewrite (ok_chunks _ Hok).
  - rewrite H3, (m_bytes _ _ _ _ _ _ _ Hm). fold sz. destruct (in_buffers _ _ _) eqn:Ha; [|done].
    by rewrite (ok_bytes _ Hok) by by eapply in_buffers_addrs.
Qed.

Lemma made_freeable h0 i h p :
  heap_ok h0 -> made hroom dlen troom Q h0 i h -> p ∈ adr (top h0) i -> p <> 0 /\ chunks h !! p = Some sz.
Proof.
  intros Hok Hm Hp. pose proof (ok_top _ Hok). rewrite (m_chunks _ _ _ _ _ _ _ Hm), decide_True by done.
  split; [|done]. apply addrs_ge in Hp. lia.
Qed.

(** The ring that was made, closed. *)
Lemma close_ring h0 n h :
  heap_ok h0 -> (0 < n)%nat -> made hroom dlen troom Q h0 n h ->
  exists h', set_next h (default 0 (last (adr (top h0) n))) (default 0 (list.head (adr (top h0) n))) = Ret h' /\
    chunks h' = chunks h /\ bytes h' = bytes h /\ is_ring (rbs h') (adr (top h0) n) /\
    (forall p, p ∉ adr (top h0) n -> rbs h' !! p = rbs h !! p) /\
    (forall p, p ∈ adr (top h0) n -> exists r, rbs h' !! p = Some r /\ Q p (with_next r 0)).
Proof.
  intros Hok Hn Hm. assert (exists pv, last (adr (top h0) n) = Some pv) as [pv Hpv].
  { destruct n as [|n]; [lia|]. rewrite addrs_S, last_snoc. by eexists. }
  assert (exists p, list.head (adr (top h0) n) = Some p) as [p Hp].
  { destruct (adr (top h0) n); [done|by eexists]. }
  rewrite Hpv, Hp. simpl. assert (Hpi : pv ∈ adr (top h0) n) by (apply last_Some in Hpv as [l ->]; set_solver).
  destruct (m_Q _ _ _ _ _ _ _ Hm pv Hpi) as (r & Hr & HQ). unfold set_next, put_rb, get_rb. rewrite Hr. simpl.
  eexists. split; [done|]. simpl. split_and!; try done.
  - assert (Hnd : NoDup (adr (top h0) n)) by (apply addrs_NoDup; done).
    split; [done|]. exists p. split; [done|]. eapply chain_close; [done|apply (m_chain _ _ _ _ _ _ _ Hm)|done..].
  - intros q Hq. apply lookup_insert_ne. congruence.
  - intros q Hq. destruct (decide (q = pv)) as [->|?].
    + rewrite lookup_insert_eq. by exists (with_next r p).
    + rewrite lookup_insert_ne by done. by apply (m_Q _ _ _ _ _ _ _ Hm).
Qed.

(** The ring [l] was made between the heaps [h] and [h']. *)
Record new_ring (h h' : heap) (l : list Z) : Prop := {
  nr_ring : is_ring (rbs h') l;
  nr_new q : q ∈ l -> top h <= q /\ q <> 0 /\ rbs h !! q = None /\ exists r, rbs h' !! q = Some r /\ Q q (with_next r 0);
  nr_rbs q : q ∉ l -> rbs h' !! q = rbs h !! q;
  nr_apart q q' : q ∈ l -> q' ∈ l -> q <> q' -> q + sz <= q' \/ q' + sz <= q;
  nr_bytes a : bytes h' !! a = if in_buffers sz l a then Some 0 else bytes h !! a;
  nr_chunks a : chunks h' !! a = if decide (a ∈ l) then Some sz else chunks h !! a;
}.

Lemma alloc_ring_ok h e entries :
  acb_ok acb hroom dlen troom Q -> fcb_ok fcb -> heap_ok h -> (0 < entries)%nat ->
  exists h' e' p, ring_buf_alloc_ring entries hroom dlen troom acb fcb (h, e) = Ret (h', e', p) /\
    (acb = None -> p = 0 <-> (budget h < entries)%nat) /\
    (p = 0 /\ same_heap h h' \/
     (acb = None -> e' = e) /\ exists l, list.head l = Some p /\ length l = entries /\ new_ring h h' l).
Proof.
  intros Hcb Hf Hok Hn. unfold ring_buf_alloc_ring. rewrite bool_decide_eq_false_2 by lia.
  assert (H0 : made hroom dlen troom Q h 0 h).
  { split; try done. by intros a ?%elem_of_nil. }
  destruct (alloc_loop_ok acb hroom dlen troom Hh Hd Ht Hsz Q h entries 0 h e) as (h1 & e1 & j & E1 & Hj & Hm & Hnone);
    [done..|lia|lia|]. simpl in E1. rewrite E1. simpl.
  assert (Hnd : NoDup (adr (top h) j)) by (apply addrs_NoDup; done).
  assert (Hszp : sizeof_ring_buf <= sz) by (unfold sz, chunk_size; lia).
  case_bool_decide as Hlt.
  - pose proof (undo_ring_list fcb _ h1 e1 0 Hf Hnd (m_chain _ _ _ _ _ _ _ Hm)) as Eu. rewrite length_addrs in Eu.
    rewrite Eu.
    destruct (free_list_ok fcb sz (adr (top h) j) h1 e1) as (h2 & e2 & E2 & H1 & H2 & H3 & _); try done.
    { intros p Hp. by eapply made_freeable. }
    rewrite E2. simpl. exists h2, e2, 0. split; [done|]. split; [intros HN; specialize (Hnone HN); lia|].
    left. split; [done|]. by eapply made_undone.
  - assert (j = entries) as -> by lia. destruct (close_ring h entries h1) as (h2 & E2 & Hk & Hb & Hr & Hout & Hin); [done..|].
    rewrite E2. simpl. exists h2, e1, (default 0 (list.head (adr (top h) entries))). split; [done|].
    assert (exists p, list.head (adr (top h) entries) = Some p) as [p Hp] by (destruct Hr as (_ & p & Hp & _); by exists p).
    assert (Hp0 : p <> 0).
    { apply (made_freeable h entries h1 p Hok Hm). destruct (adr (top h) entries); simplify_eq/=. left. }
    rewrite Hp. simpl. split; [intros HN; specialize (Hnone HN); lia|].
    right. split; [apply Hnone|]. exists (adr (top h) entries). split; [done|]. split; [apply length_addrs|]. split; try done.
    + intros q Hq. pose proof (addrs_ge _ _ _ Hq). split; [done|]. split; [by apply (made_freeable h entries h1)|].
      split; [by apply (ok_rbs _ Hok)|by apply Hin].
    + intros q Hq. rewrite Hout by done. by apply (m_rbs _ _ _ _ _ _ _ Hm).
    + intros q q' (k & Hk1 & ->)%elem_of_addrs (k' & Hk2 & ->)%elem_of_addrs Hne. fold sz. unfold sizeof_ring_buf in *.
      assert (k <> k') by congruence. nia.
    + intros a'. rewrite Hb. apply (m_bytes _ _ _ _ _ _ _ Hm).
    + intros a'. rewrite Hk. apply (m_chunks _ _ _ _ _ _ _ Hm).
Qed.

(** [ring_buf_alloc_ring] either fails, and then whatever it had allocated
    is free again, or returns an entry of a ring of exactly [entries] fresh
    entries, each linked to the next and the last to the first, as the
    allocation and the callback set them up, each with a zeroed buffer of its
    own; nothing that was there before is touched.  Without a callback it fails
    only for want of memory.  Freeing a ring from any of its entries, whatever
    was done to their contents and owners, gives back exactly its entries. *)
Theorem ring_alloc_free h e entries :
  acb_ok acb hroom dlen troom Q -> fcb_ok fcb -> heap_ok h -> (0 < entries)%nat ->
  exists h' e' p, ring_buf_alloc_ring entries hroom dlen troom acb fcb (h, e) = Ret (h', e', p) /\
    (acb = None -> p = 0 <-> (budget h < entries)%nat) /\
    (p = 0 /\ same_heap h h' \/
     exists l, list.head l = Some p /\ length l = entries /\ new_ring h h' l /\
       forall h1 e1 q, q ∈ l -> is_ring (rbs h1) l -> chunks h1 = chunks h' ->
         exists h2 e2, ring_buf_free_ring fcb (h1, e1) q = Ret (h2, e2) /\ chunks h2 = chunks h /\
           (forall a, rbs h2 !! a = if decide (a ∈ l) then None else rbs h1 !! a) /\
           (forall a, bytes h2 !! a = if in_buffers sz l a then None else bytes h1 !! a)).
Proof.
  intros Hcb Hf Hok Hn. destruct (alloc_ring_ok h e entries Hcb Hf Hok Hn) as (h' & e' & p & E1 & Hp & Hcase).
  exists h', e', p. split; [done|]. split; [done|]. destruct Hcase as [?|(_ & l & Hl & Hlen & Hr)]; [by left|right].
  exists l. split_and!; try done. intros h1 e1 q Hq Hr1 Hk1.
  destruct (free_ring_ok fcb sz l h1 e1 q Hf) as (h2 & e2 & E2 & H1 & H2 & H3 & _); try done;
    [unfold sz, chunk_size; lia| |].
  { intros a Ha. rewrite Hk1, (nr_chunks _ _ _ Hr), decide_True by done. split; [by apply (nr_new _ _ _ Hr)|done]. }
  exists h2, e2. split; [done|]. split; [|done]. apply map_eq. intros a. rewrite H2, Hk1, (nr_chunks _ _ _ Hr).
  destruct (decide (a ∈ l)) as [Ha|Ha]; [|done]. symmetry. apply (ok_chunks _ Hok). by apply (nr_new _ _ _ Hr).
Qed.

End AllocationFacts.

Definition heap_ex : heap := mk_heap ∅ ∅ ∅ 1024 3.
Lemma heap_ex_ok : heap_ok heap_ex.
Proof. by split. Qed.

Lemma ring_alloc_free_witness :
  exists h' p l, ring_buf_alloc_ring (E := unit) 2 16 8 0 None None (heap_ex, ()) = Ret (h', (), p) /\
    list.head l = Some p /\ length l = 2%nat /\ is_ring (rbs h') l.
Proof.
  destruct (ring_alloc_free (E := unit) None None 16 8 0) with
    (Q := fun (p : Z) (r : ring_buf) => True) (h := heap_ex) (e := tt) (entries := 2%nat)
    as (h' & [] & p & E1 & Hiff & Hcase); [lia|lia|lia|reflexivity|by intros|by intros|apply heap_ex_ok|lia|].
  destruct Hcase as [[Hp _]|(l & Hl & Hn & Hr & _)]; [by apply (Hiff eq_refl) in Hp; cbn in Hp; lia|].
  exists h', p, l. split; [exact E1|]. split; [exact Hl|]. split; [exact Hn|]. apply Hr.
Defined.

(** The size computation wraps: the chunk is smaller than the entry. *)
Example ring_buf_alloc_overflow : ring_buf_alloc heap_ex (2 ^ 32 - 16) 0 0 = Fault.
Proof. by vm_compute. Qed.

End RingBuf.
