(* ===== verification/I2s.v ===== *)
(** Playing audio: the transmit side of the I2S controller of
    [src/arch/arm/mach-tsb/i2s.c], and the Greybus receiver of
    [src/drivers/greybus/module/i2s.c] that feeds it, joined by a ring of
    buffers.

    The interrupt handlers and the sections with interrupts masked are atomic.
    The controller is a parameter: a state that register reads and writes act
    on.  What is written to it is recorded, and so is the audio handed to the
    ring. *)
From S2P Require Import Prelude.
From S2P Require Import RingBuf.
#[local] Open Scope Z_scope.

Module I2s.
Import RingBuf.

(** ** Registers and flags *)

Definition BIT (n : Z) : Z := Z.shiftl 1 n.

Definition TSB_I2S_POLL_LIMIT : nat := 1000.
Definition TSB_I2S_REG_START : Z := 0x0004.
Definition TSB_I2S_REG_BUSY : Z := 0x0008.
Definition TSB_I2S_REG_STOP : Z := 0x000c.
Definition TSB_I2S_REG_INTSTAT : Z := 0x0014.
Definition TSB_I2S_REG_INTMASK : Z := 0x0018.
Definition TSB_I2S_REG_INTCLR : Z := 0x001c.
Definition TSB_I2S_REG_MUTE : Z := 0x0024.
Definition TSB_I2S_REG_LMEM00 : Z := 0x0100.
Definition TSB_I2S_REG_START_START : Z := BIT 8.
Definition TSB_I2S_REG_START_SPK_MIC_START : Z := BIT 0.
Definition TSB_I2S_REG_BUSY_ERRBUSY : Z := BIT 16.
Definition TSB_I2S_REG_BUSY_SERIBUSY : Z := BIT 1.
Definition TSB_I2S_REG_BUSY_SPK_MIC_BUSY : Z := BIT 0.
Definition TSB_I2S_REG_STOP_I2S_STOP : Z := BIT 0.
Definition TSB_I2S_REG_INT_LRCK : Z := BIT 3.
Definition TSB_I2S_REG_INT_UR : Z := BIT 2.
Definition TSB_I2S_REG_INT_OR : Z := BIT 1.
Definition TSB_I2S_REG_INT_INT : Z := BIT 0.
Definition TSB_I2S_REG_INT_ERROR_MASK : Z :=
  Z.lor TSB_I2S_REG_INT_LRCK (Z.lor TSB_I2S_REG_INT_UR TSB_I2S_REG_INT_OR).
Definition TSB_I2S_REG_MUTE_MUTEN : Z := BIT 0.

Definition TSB_I2S_FLAG_OPEN : Z := BIT 0.
Definition TSB_I2S_FLAG_CONFIGURED : Z := BIT 1.
Definition TSB_I2S_FLAG_ENABLED : Z := BIT 2.
Definition TSB_I2S_FLAG_TX_PREPARED : Z := BIT 5.
Definition TSB_I2S_FLAG_TX_ACTIVE : Z := BIT 6.

Definition DEVICE_I2S_BYTE_ORDER_BE : Z := BIT 1.
Definition DEVICE_I2S_ROLE_MASTER : Z := BIT 0.

Inductive device_i2s_event :=
  | EVENT_INVALID | EVENT_NONE | EVENT_UNSPECIFIED | EVENT_TX_COMPLETE | EVENT_RX_COMPLETE
  | EVENT_UNDERRUN | EVENT_OVERRUN | EVENT_CLOCKING | EVENT_DATA_LEN.
#[export] Instance event_eq_dec : EqDecision device_i2s_event.
Proof. solve_decision. Defined.

Inductive tsb_i2s_block := BLOCK_BRIDGE | BLOCK_SC | BLOCK_SO | BLOCK_SI.
#[export] Instance block_eq_dec : EqDecision tsb_i2s_block.
Proof. solve_decision. Defined.

(** ** The controller *)

(** [read32] and [write32] on its registers, by address; [fifo_room]: how many
    more words its transmit FIFO takes. *)
Class I2sHw (HW : Type) := {
  read32 : HW -> Z -> HW * Z;
  write32 : HW -> Z -> Z -> HW;
  fifo_room : HW -> nat;
}.

(** The fields of [struct tsb_i2s_info] the transmit side uses; the three
    [config] fields are those of [struct device_i2s_configuration]. *)
Record tsb_i2s_info := mk_tsb {
  flags : Z;
  tx_rb : Z;
  cg_base : Z; sc_base : Z; so_base : Z; si_base : Z;
  byte_order : Z;
  bytes_per_channel : Z;
  ll_bclk_role : Z;
}.

(** [written]: what was written to the registers, in order.  [usr]: the state
    of the driver's user. *)
Record world (HW E : Type) := mk_world {
  hw : HW;
  written : list (tsb_i2s_block * Z * Z);
  info : tsb_i2s_info;
  hp : heap;
  usr : E;
}.
Arguments mk_world {HW E}. Arguments hw {HW E}. Arguments written {HW E}. Arguments info {HW E}.
Arguments hp {HW E}. Arguments usr {HW E}.

Section Driver.
Context {HW E : Type} `{I2sHw HW}.
Implicit Types (w : world HW E).

Definition set_hw w h : world HW E := mk_world h (written w) (info w) (hp w) (usr w).
Definition set_hp w h : world HW E := mk_world (hw w) (written w) (info w) h (usr w).
Definition set_info w i : world HW E := mk_world (hw w) (written w) i (hp w) (usr w).
Definition set_usr w u : world HW E := mk_world (hw w) (written w) (info w) (hp w) u.
Definition with_flags (i : tsb_i2s_info) (f : Z) : tsb_i2s_info :=
  mk_tsb f (tx_rb i) (cg_base i) (sc_base i) (so_base i) (si_base i) (byte_order i) (bytes_per_channel i) (ll_bclk_role i).
Definition with_tx_rb (i : tsb_i2s_info) (p : Z) : tsb_i2s_info :=
  mk_tsb (flags i) p (cg_base i) (sc_base i) (so_base i) (si_base i) (byte_order i) (bytes_per_channel i) (ll_bclk_role i).

Definition flag (i : tsb_i2s_info) (f : Z) : bool := bool_decide (Z.land (flags i) f <> 0).
Definition tsb_i2s_device_is_open (i : tsb_i2s_info) : bool := flag i TSB_I2S_FLAG_OPEN.
Definition tsb_i2s_device_is_configured (i : tsb_i2s_info) : bool := tsb_i2s_device_is_open i && flag i TSB_I2S_FLAG_CONFIGURED.
Definition tsb_i2s_device_is_enabled (i : tsb_i2s_info) : bool := tsb_i2s_device_is_configured i && flag i TSB_I2S_FLAG_ENABLED.
Definition tsb_i2s_tx_is_prepared (i : tsb_i2s_info) : bool := tsb_i2s_device_is_enabled i && flag i TSB_I2S_FLAG_TX_PREPARED.
Definition tsb_i2s_tx_is_active (i : tsb_i2s_info) : bool := tsb_i2s_tx_is_prepared i && flag i TSB_I2S_FLAG_TX_ACTIVE.

Definition tsb_i2s_get_block_base (i : tsb_i2s_info) (b : tsb_i2s_block) : Z :=
  match b with BLOCK_BRIDGE => cg_base i | BLOCK_SC => sc_base i | BLOCK_SO => so_base i | BLOCK_SI => si_base i end.

(** On a little-endian processor [tsb_i2s_read] and [tsb_i2s_write] are the raw
    accesses. *)
Definition tsb_i2s_read_raw w (b : tsb_i2s_block) (reg : Z) : world HW E * Z :=
  let base := tsb_i2s_get_block_base (info w) b in
  if bool_decide (base = 0) then (w, 0) else
  let '(h, v) := read32 (hw w) (base + reg) in (set_hw w h, v).
Definition tsb_i2s_write_raw w (b : tsb_i2s_block) (reg v : Z) : world HW E :=
  let base := tsb_i2s_get_block_base (info w) b in
  if bool_decide (base = 0) then w else
  mk_world (write32 (hw w) (base + reg) v) (written w ++ [(b, reg, v)]) (info w) (hp w) (usr w).
Definition tsb_i2s_read := tsb_i2s_read_raw.
Definition tsb_i2s_write := tsb_i2s_write_raw.

Definition tsb_i2s_write_field w b reg mask v : world HW E :=
  let '(w, v0) := tsb_i2s_read w b reg in
  tsb_i2s_write w b reg (Z.lor (Z.ldiff v0 mask) (Z.land v mask)).
Definition tsb_i2s_mask_irqs w b mask : world HW E :=
  let '(w, v) := tsb_i2s_read w b TSB_I2S_REG_INTMASK in tsb_i2s_write w b TSB_I2S_REG_INTMASK (Z.lor v mask).
Definition tsb_i2s_unmask_irqs w b mask : world HW E :=
  let '(w, v) := tsb_i2s_read w b TSB_I2S_REG_INTMASK in tsb_i2s_write w b TSB_I2S_REG_INTMASK (Z.ldiff v mask).
Definition tsb_i2s_clear_irqs w b mask : world HW E := tsb_i2s_write w b TSB_I2S_REG_INTCLR mask.
Definition tsb_i2s_mute w b : world HW E := tsb_i2s_write_field w b TSB_I2S_REG_MUTE TSB_I2S_REG_MUTE_MUTEN 0.
Definition tsb_i2s_unmute w b : world HW E :=
  tsb_i2s_write_field w b TSB_I2S_REG_MUTE TSB_I2S_REG_MUTE_MUTEN TSB_I2S_REG_MUTE_MUTEN.

(** ** Starting and stopping *)

(** The [do] loops that wait for [v & mask = ok]: was [limit] left over? *)
Fixpoint poll (limit : nat) w b reg mask ok : world HW E * bool :=
  match limit with
  | O => (w, false)
  | S limit =>
      let '(w, v) := tsb_i2s_read w b reg in
      if bool_decide (Z.land v mask = ok) then (w, true) else poll limit w b reg mask ok
  end.

Definition is_stream (b : tsb_i2s_block) : bool := bool_decide (b = BLOCK_SO) || bool_decide (b = BLOCK_SI).

Definition tsb_i2s_start_block w b : world HW E * Z :=
  let w := tsb_i2s_write w b TSB_I2S_REG_START TSB_I2S_REG_START_START in
  let '(w, ok) := poll TSB_I2S_POLL_LIMIT w b TSB_I2S_REG_START TSB_I2S_REG_START_START 0 in
  if negb ok then (w, - EIO) else
  if is_stream b then
    let w := tsb_i2s_unmute w b in
    let w := tsb_i2s_write w b TSB_I2S_REG_START TSB_I2S_REG_START_SPK_MIC_START in
    let '(w, ok) := poll TSB_I2S_POLL_LIMIT w b TSB_I2S_REG_START TSB_I2S_REG_START_SPK_MIC_START 0 in
    (w, if ok then 0 else - EIO)
  else (w, 0).

(** The last part of [tsb_i2s_stop_block]. *)
Definition stop_now w b : world HW E * Z :=
  let w := tsb_i2s_write w b TSB_I2S_REG_STOP TSB_I2S_REG_STOP_I2S_STOP in
  let '(w, ok) := poll TSB_I2S_POLL_LIMIT w b TSB_I2S_REG_STOP TSB_I2S_REG_STOP_I2S_STOP 0 in
  (w, if ok then 0 else - EIO).
Definition tsb_i2s_stop_block w b (is_err : bool) : world HW E * Z :=
  if is_stream b then
    let '(w, ok) := if is_err then poll TSB_I2S_POLL_LIMIT w b TSB_I2S_REG_BUSY TSB_I2S_REG_BUSY_ERRBUSY 0
      else poll TSB_I2S_POLL_LIMIT w b TSB_I2S_REG_BUSY TSB_I2S_REG_BUSY_SPK_MIC_BUSY TSB_I2S_REG_BUSY_SPK_MIC_BUSY in
    if negb ok then (w, - EIO) else
    let w := tsb_i2s_mute w b in
    let '(w, ok) := poll TSB_I2S_POLL_LIMIT w b TSB_I2S_REG_BUSY TSB_I2S_REG_BUSY_SERIBUSY 0 in
    if negb ok then (w, - EIO) else stop_now w b
  else stop_now w b.

Definition is_master w : bool := bool_decide (ll_bclk_role (info w) = DEVICE_I2S_ROLE_MASTER).

Definition tsb_i2s_start w b : world HW E * Z :=
  let '(w, ret) := if is_master w then tsb_i2s_start_block w BLOCK_SC else (w, 0) in
  if bool_decide (ret <> 0) then (w, ret) else
  let '(w, ret) := tsb_i2s_start_block w b in
  if bool_decide (ret <> 0) && is_master w then (fst (tsb_i2s_stop_block w BLOCK_SC false), ret) else (w, ret).
Definition tsb_i2s_stop w b (is_err : bool) : world HW E :=
  let w := fst (tsb_i2s_stop_block w b is_err) in
  if is_master w then fst (tsb_i2s_stop_block w BLOCK_SC is_err) else w.

Definition all_ints : Z := Z.lor TSB_I2S_REG_INT_ERROR_MASK TSB_I2S_REG_INT_INT.
Definition set_flags w (f : Z) : world HW E := set_info w (with_flags (info w) f).

Definition tsb_i2s_stop_transmitter w (is_err : bool) : world HW E :=
  let w := tsb_i2s_stop w BLOCK_SO is_err in
  let w := tsb_i2s_mask_irqs w BLOCK_SO all_ints in
  let w := tsb_i2s_clear_irqs w BLOCK_SO all_ints in
  set_flags w (Z.ldiff (flags (info w)) TSB_I2S_FLAG_TX_ACTIVE).

Definition tsb_i2s_intstat2event (intstat : Z) : device_i2s_event :=
  if bool_decide (Z.land intstat TSB_I2S_REG_INT_ERROR_MASK = 0) then EVENT_NONE
  else if bool_decide (Z.land intstat TSB_I2S_REG_INT_OR <> 0) then EVENT_OVERRUN
  else if bool_decide (Z.land intstat TSB_I2S_REG_INT_UR <> 0) then EVENT_UNDERRUN
  else if bool_decide (Z.land intstat TSB_I2S_REG_INT_LRCK <> 0) then EVENT_CLOCKING
  else EVENT_UNSPECIFIED.

(** ** Filling the FIFO *)

Definition byte (w : Z) (i : Z) : Z := Z.land (Z.shiftr w (8 * i)) 255.
Definition __swap32 (x : Z) : Z :=
  Z.lor (Z.shiftl (byte x 0) 24) (Z.lor (Z.shiftl (byte x 1) 16) (Z.lor (Z.shiftl (byte x 2) 8) (byte x 3))).

(** [hw[0]] and [hw[1]] are the low and the high half of [w]; what is stored in
    them is cut to 16 bits. *)
Definition tsb_i2s_fifo_data (i : tsb_i2s_info) (w : Z) : Z :=
  if bool_decide (byte_order i = DEVICE_I2S_BYTE_ORDER_BE) then
    if bool_decide (bytes_per_channel i = 2) then
      Z.lor (wrap16 (__swap32 (wrap16 w))) (Z.shiftl (wrap16 (__swap32 (wrap16 (Z.shiftr w 16)))) 16)
    else if bool_decide (bytes_per_channel i = 3) || bool_decide (bytes_per_channel i = 4) then __swap32 w
    else w
  else w.

(** The 32-bit word at [p]. *)
Definition le_word (l : list Z) : Z :=
  match l with
  | [b0; b1; b2; b3] => b0 + 2 ^ 8 * b1 + 2 ^ 16 * b2 + 2 ^ 24 * b3
  | _ => 0
  end.
Definition read_word (h : heap) (p : Z) : outcome Z := l ← read_bytes (bytes h) p 4; Ret (le_word l).

(** The [for] loop of [tsb_i2s_fill_fifo]; [n] bounds the words left. *)
Fixpoint fill_loop (n : nat) w (dp i : Z) : outcome (world HW E * Z * device_i2s_event * Z) :=
  len ← ring_buf_len (hp w) (tx_rb (info w));
  if bool_decide (i < len) then
    match n with
    | O => Hang
    | S n =>
        let '(w, intstat) := tsb_i2s_read w BLOCK_SO TSB_I2S_REG_INTSTAT in
        if bool_decide (Z.land intstat TSB_I2S_REG_INT_ERROR_MASK <> 0)
        then Ret (w, i, tsb_i2s_intstat2event intstat, - EIO)
        else if bool_decide (Z.land intstat TSB_I2S_REG_INT_INT = 0) then Ret (w, i, EVENT_NONE, 0)
        else
          v ← read_word (hp w) dp;
          let w := tsb_i2s_write_raw w BLOCK_SO TSB_I2S_REG_LMEM00 (tsb_i2s_fifo_data (info w) v) in
          let w := tsb_i2s_clear_irqs w BLOCK_SO intstat in
          fill_loop n w (dp + 4) (i + 4)
    end
  else Ret (w, i, EVENT_NONE, 0).

Definition tsb_i2s_fill_fifo w : outcome (world HW E * device_i2s_event * Z) :=
  dp ← ring_buf_get_head (hp w) (tx_rb (info w));
  len ← ring_buf_len (hp w) (tx_rb (info w));
  r ← fill_loop (Z.to_nat (len / 4 + 1)) w dp 0;
  let '(w, i, event, ret) := (r : world HW E * Z * device_i2s_event * Z) in
  h ← ring_buf_pull (hp w) (tx_rb (info w)) i;
  Ret (set_hp w (fst h), event, ret).

(** [info->tx_callback] *)
Context (tx_callback : option (world HW E -> Z -> device_i2s_event -> outcome (world HW E))).
Definition call_back w (rb : Z) (ev : device_i2s_event) : outcome (world HW E) :=
  match tx_callback with Some f => f w rb ev | None => Ret w end.

(** How the [while] loop of [tsb_i2s_tx_data] is left. *)
Inductive tx_end := NoMoreData | FifoFull | Failed (ev : device_i2s_event) (ret : Z).

(** An iteration that does not leave the loop has filled the FIFO with at least
    one word: [n] is more than the FIFO's room. *)
Fixpoint tx_loop (n : nat) w : outcome (world HW E * tx_end) :=
  c ← ring_buf_is_consumers (hp w) (tx_rb (info w));
  if negb c then Ret (w, NoMoreData) else
  len ← ring_buf_len (hp w) (tx_rb (info w));
  if bool_decide (len mod 4 <> 0) then Ret (w, Failed EVENT_DATA_LEN (- EINVAL)) else
  r ← tsb_i2s_fill_fifo w;
  let '(w, event, ret) := (r : world HW E * device_i2s_event * Z) in
  if bool_decide (ret <> 0) then Ret (w, Failed event ret) else
  empty ← ring_buf_is_empty (hp w) (tx_rb (info w));
  if negb empty then Ret (w, FifoFull) else
  h ← ring_buf_reset (hp w) (tx_rb (info w));
  h ← ring_buf_pass h (tx_rb (info w));
  w ← call_back (set_hp w h) (tx_rb (info w)) EVENT_TX_COMPLETE;
  nxt ← ring_buf_get_next (hp w) (tx_rb (info w));
  let w := set_info w (with_tx_rb (info w) nxt) in
  match n with O => Hang | S n => tx_loop n w end.

Definition tsb_i2s_tx_data w : outcome (world HW E * Z) :=
  r ← tx_loop (fifo_room (hw w)) w;
  match (r : world HW E * tx_end) with
  | (w, FifoFull) => Ret (tsb_i2s_unmask_irqs w BLOCK_SO TSB_I2S_REG_INT_INT, 0)
  | (w, NoMoreData) => Ret (tsb_i2s_mask_irqs w BLOCK_SO TSB_I2S_REG_INT_INT, 0)
  | (w, Failed event ret) =>
      let w := tsb_i2s_stop_transmitter w true in
      w ← call_back w (tx_rb (info w)) event;
      Ret (tsb_i2s_mask_irqs w BLOCK_SO TSB_I2S_REG_INT_INT, ret)
  end.

(** ** Interrupts and requests *)

Definition tsb_i2s_irq_so_err_handler w : outcome (world HW E) :=
  let '(w, intstat) := tsb_i2s_read w BLOCK_SO TSB_I2S_REG_INTSTAT in
  let event := tsb_i2s_intstat2event intstat in
  if bool_decide (event = EVENT_NONE) then Ret (tsb_i2s_clear_irqs w BLOCK_SO intstat) else
  let w := tsb_i2s_stop_transmitter w true in
  call_back w (tx_rb (info w)) event.

Definition tsb_i2s_irq_so_handler w : outcome (world HW E) :=
  let '(w, intstat) := tsb_i2s_read w BLOCK_SO TSB_I2S_REG_INTSTAT in
  if bool_decide (Z.land intstat TSB_I2S_REG_INT_INT <> 0) then
    r ← tsb_i2s_tx_data w; Ret (fst (r : world HW E * Z))
  else Ret (tsb_i2s_clear_irqs w BLOCK_SO intstat).

Definition tsb_i2s_start_transmitter w : outcome (world HW E * Z) :=
  let '(w, ret) :=
    if tsb_i2s_tx_is_active (info w) then (w, 0) else
    let w := tsb_i2s_clear_irqs w BLOCK_SO all_ints in
    let w := tsb_i2s_unmask_irqs w BLOCK_SO TSB_I2S_REG_INT_ERROR_MASK in
    let '(w, ret) := tsb_i2s_start w BLOCK_SO in
    if bool_decide (ret <> 0) then (w, ret)
    else (set_flags w (Z.lor (flags (info w)) TSB_I2S_FLAG_TX_ACTIVE), 0) in
  if bool_decide (ret <> 0) then Ret (w, ret) else tsb_i2s_tx_data w.

Definition tsb_i2s_op_start_transmitter w : outcome (world HW E * Z) :=
  if negb (tsb_i2s_tx_is_prepared (info w)) then Ret (w, - EIO) else tsb_i2s_start_transmitter w.
Definition tsb_i2s_op_stop_transmitter w : world HW E * Z :=
  if negb (tsb_i2s_tx_is_active (info w)) then (w, - EIO) else (tsb_i2s_stop_transmitter w false, 0).

End Driver.

(** ** The Greybus receiver *)

Definition GB_OP_SUCCESS : Z := 0x00.
Definition GB_OP_INVALID : Z := 0x06.
Definition GB_I2S_EVENT_UNSPECIFIED : Z := 0x1.
Definition GB_I2S_EVENT_HALT : Z := 0x2.
Definition GB_I2S_EVENT_INTERNAL_ERROR : Z := 0x3.
Definition GB_I2S_EVENT_FAILURE : Z := 0x5.
Definition GB_I2S_EVENT_UNDERRUN : Z := 0x7.
Definition GB_I2S_EVENT_OVERRUN : Z := 0x8.
Definition GB_I2S_EVENT_CLOCKING : Z := 0x9.
Definition GB_I2S_EVENT_DATA_LEN : Z := 0xa.
Definition GB_I2S_FLAG_RX_STARTED : Z := BIT 2.
Definition GB_I2S_RX_RING_BUF_PAD : Z := 8.
(** [sizeof] of the header of an operation and of a [gb_i2s_send_data_request] *)
Definition sizeof_hdr : Z := 8.
Definition sizeof_send_data : Z := 8.

(** The fields the receiver uses.  [reports]: the events sent to the AP;
    [accepted]: what was copied into the ring, in order. *)
Record gb_i2s_info := mk_gb {
  gflags : Z;
  sample_frequency : Z;
  delay : Z;
  samples_per_message : Z;
  msg_data_size : Z;
  dummy_data : Z;
  active_rx_cports : Z;
  next_rx_sample : Z;
  rx_rb : Z;
  rx_rb_count : Z;
  reports : list Z;
  accepted : list (list Z);
}.

(** The payload of a Send Data request: [data] is what the receive buffer
    holds from [request->data] on. *)
Record send_data_request := mk_req { payload_size : Z; sample_number : Z; rsize : Z; rdata : list Z }.

Section Receiver.
Context {HW : Type} `{I2sHw HW}.
Implicit Types (w : world HW gb_i2s_info) (u : gb_i2s_info).

Definition with_rx u (gf nxt rb count : Z) (rep : list Z) (acc : list (list Z)) : gb_i2s_info :=
  mk_gb gf (sample_frequency u) (delay u) (samples_per_message u) (msg_data_size u) (dummy_data u)
    (active_rx_cports u) nxt rb count rep acc.
Definition with_count u (n : Z) : gb_i2s_info :=
  with_rx u (gflags u) (next_rx_sample u) (rx_rb u) n (reports u) (accepted u).

Definition gb_i2s_report_event w (ev : Z) : world HW gb_i2s_info :=
  let u := usr w in
  set_usr w (with_rx u (gflags u) (next_rx_sample u) (rx_rb u) (rx_rb_count u) (reports u ++ [ev]) (accepted u)).

(** [entries] of [gb_i2s_prepare_receiver]; dividing by zero is a fault. *)
Definition rx_entries u : outcome Z :=
  let d := wrap32 (samples_per_message u * 1000000) in
  if bool_decide (d = 0) then Fault else
  Ret (wrap32 (wrap32 (sample_frequency u * delay u) / d + GB_I2S_RX_RING_BUF_PAD)).

(** The ring both sides of [gb_i2s_prepare_receiver] start from. *)
Definition make_ring w : outcome (world HW gb_i2s_info) :=
  n ← rx_entries (usr w);
  r ← ring_buf_alloc_ring (Z.to_nat n) (sizeof_hdr + sizeof_send_data) (msg_data_size (usr w)) 0
        None None (hp w, usr w);
  let '(h, u, p) := (r : heap * gb_i2s_info * Z) in
  let u := with_rx u (gflags u) (next_rx_sample u) p (rx_rb_count u) (reports u) (accepted u) in
  Ret (set_info (set_usr (set_hp w h) u) (with_tx_rb (info w) p)).

(** [data]: what there is to read at the pointer. *)
Definition gb_i2s_ll_tx w (data : list Z) : outcome (world HW gb_i2s_info) :=
  let u := usr w in
  let n := Z.to_nat (msg_data_size u) in
  h ← ring_buf_reset (hp w) (rx_rb u);
  tl ← ring_buf_get_tail h (rx_rb u);
  if bool_decide (length data < n)%nat then Fault else
  m ← write_bytes (bytes h) tl (take n data);
  r ← ring_buf_put (set_bytes m h) (rx_rb u) (msg_data_size u);
  h ← ring_buf_pass (fst (r : heap * Z)) (rx_rb u);
  nxt ← ring_buf_get_next h (rx_rb u);
  Ret (set_usr (set_hp w h)
    (with_rx u (gflags u) (wrap32 (next_rx_sample u + samples_per_message u)) nxt (wrap32 (rx_rb_count u + 1))
      (reports u) (accepted u ++ [take n data]))).

(** A message of silence. *)
Definition ll_tx_dummy w : outcome (world HW gb_i2s_info) :=
  d ← read_bytes (bytes (hp w)) (dummy_data (usr w)) (Z.to_nat (msg_data_size (usr w)));
  gb_i2s_ll_tx w d.

Definition gb_event (ev : device_i2s_event) : Z :=
  match ev with
  | EVENT_UNDERRUN => GB_I2S_EVENT_UNDERRUN
  | EVENT_OVERRUN => GB_I2S_EVENT_OVERRUN
  | EVENT_CLOCKING => GB_I2S_EVENT_CLOCKING
  | EVENT_DATA_LEN => GB_I2S_EVENT_DATA_LEN
  | EVENT_UNSPECIFIED => GB_I2S_EVENT_UNSPECIFIED
  | _ => GB_I2S_EVENT_INTERNAL_ERROR
  end.

Definition gb_i2s_ll_tx_cb w (rb : Z) (ev : device_i2s_event) : outcome (world HW gb_i2s_info) :=
  if bool_decide (ev = EVENT_TX_COMPLETE) then
    let w := set_usr w (with_count (usr w) (wrap32 (rx_rb_count (usr w) - 1))) in
    if bool_decide (rx_rb_count (usr w) < 2) then ll_tx_dummy w else Ret w
  else Ret (gb_i2s_report_event (gb_i2s_report_event w (gb_event ev)) GB_I2S_EVENT_HALT).

(** The loop over the missing messages; every round takes an entry of the ring. *)
Fixpoint fill_missing (n : nat) w (sample : Z) : outcome (world HW gb_i2s_info) :=
  p ← ring_buf_is_producers (hp w) (rx_rb (usr w));
  if (p : bool) && bool_decide (next_rx_sample (usr w) < sample) then
    match n with
    | O => Hang
    | S n => w ← ll_tx_dummy w; fill_missing n w sample
    end
  else Ret w.

(** The section with the interrupts masked: [false] when the message was
    discarded. *)
Definition receive_data w (req : send_data_request) : outcome (world HW gb_i2s_info * bool) :=
  p ← ring_buf_is_producers (hp w) (rx_rb (usr w));
  if negb p then Ret (gb_i2s_report_event w GB_I2S_EVENT_OVERRUN, false) else
  w ← fill_missing (size (rbs (hp w))) w (sample_number req);
  w ← gb_i2s_ll_tx w (rdata req);
  Ret (w, true).

(** What follows it, once the transmitter was asked to start. *)
Definition start_playing w : outcome (world HW gb_i2s_info) :=
  r ← tsb_i2s_op_start_transmitter (Some gb_i2s_ll_tx_cb) w;
  let '(w, ret) := (r : world HW gb_i2s_info * Z) in
  if bool_decide (ret <> 0)
  then Ret (gb_i2s_report_event (gb_i2s_report_event w GB_I2S_EVENT_FAILURE) GB_I2S_EVENT_HALT)
  else
    let u := usr w in
    Ret (set_usr w (with_rx u (Z.lor (gflags u) GB_I2S_FLAG_RX_STARTED) (next_rx_sample u) (rx_rb u) (rx_rb_count u)
      (reports u) (accepted u))).

(** What the request is up against before the ring: [None] is to go on. *)
Definition check_request w (known : bool) (req : send_data_request) : outcome (world HW gb_i2s_info * option Z) :=
  if bool_decide (payload_size req < sizeof_send_data) then Ret (w, Some GB_OP_INVALID) else
  if negb known then Fault (* the event is reported through a NULL [info] *) else
  if bool_decide (active_rx_cports (usr w) = 0) then Ret (w, Some GB_OP_SUCCESS) else
  if bool_decide (rsize req <> msg_data_size (usr w))
  then Ret (gb_i2s_report_event w GB_I2S_EVENT_DATA_LEN, Some GB_OP_SUCCESS) else Ret (w, None).

Definition gb_i2s_receiver_send_data_req_handler w (known : bool) (req : send_data_request)
    : outcome (world HW gb_i2s_info * Z) :=
  r ← check_request w known req;
  match (r : world HW gb_i2s_info * option Z) with
  | (w, Some result) => Ret (w, result)
  | (w, None) =>
      r ← receive_data w req;
      let '(w, ok) := (r : world HW gb_i2s_info * bool) in
      if negb ok then Ret (w, GB_OP_SUCCESS) else
      w ← start_playing w; Ret (w, GB_OP_SUCCESS)
  end.

End Receiver.

(** ** The words that went to the FIFO *)

Definition fifo_word (x : tsb_i2s_block * Z * Z) : option Z :=
  let '(b, reg, v) := x in
  if bool_decide (b = BLOCK_SO) && bool_decide (reg = TSB_I2S_REG_LMEM00) then Some v else None.

(** The words in a sequence of bytes; a rest of fewer than four is not one. *)
Fixpoint words (l : list Z) : list Z :=
  match l with
  | b0 :: b1 :: b2 :: b3 :: l => le_word [b0; b1; b2; b3] :: words l
  | _ => []
  end.

Lemma words_app l l' : Nat.divide 4 (length l) -> words (l ++ l') = words l ++ words l'.
Proof.
  intros [k Hk]. revert l Hk. induction k as [|k IH]; intros l Hk.
  - destruct l; [done|simpl in Hk; lia].
  - destruct l as [|b0 [|b1 [|b2 [|b3 l]]]]; simpl in Hk; try lia. simpl. rewrite IH by lia. done.
Qed.

Section Quiet.
Context {HW E : Type} `{I2sHw HW}.
Implicit Types (w : world HW E).

Definition fifo_out w : list Z := omap fifo_word (written w).

(** Register traffic that is neither audio nor a change of the driver's data. *)
Record quiet w w' : Prop := {
  q_hp : hp w' = hp w;
  q_usr : usr w' = usr w;
  q_info : info w' = info w;
  q_out : fifo_out w' = fifo_out w;
}.

#[export] Instance quiet_preorder : PreOrder quiet.
Proof. split; [by split|]. intros ??? [] []. split; congruence. Qed.

Lemma quiet_read w b reg : quiet w (fst (tsb_i2s_read w b reg)).
Proof. unfold tsb_i2s_read, tsb_i2s_read_raw. case_bool_decide; [done|]. by destruct (read32 _ _). Qed.

Lemma quiet_write w b reg v : reg <> TSB_I2S_REG_LMEM00 -> quiet w (tsb_i2s_write w b reg v).
Proof.
  intros Hr. unfold tsb_i2s_write, tsb_i2s_write_raw. case_bool_decide; [done|].
  split; try done. unfold fifo_out. simpl. rewrite omap_app. simpl.
  rewrite (bool_decide_eq_false_2 (reg = _)), andb_false_r by done. by rewrite app_nil_r.
Qed.

Lemma quiet_write_field w b reg mask v : reg <> TSB_I2S_REG_LMEM00 -> quiet w (tsb_i2s_write_field w b reg mask v).
Proof.
  intros Hr. unfold tsb_i2s_write_field. pose proof (quiet_read w b reg). destruct (tsb_i2s_read _ _ _) as [w1 v1].
  etrans; [done|]. by apply quiet_write.
Qed.
Lemma quiet_mask w b mask : quiet w (tsb_i2s_mask_irqs w b mask).
Proof.
  unfold tsb_i2s_mask_irqs. pose proof (quiet_read w b TSB_I2S_REG_INTMASK).
  destruct (tsb_i2s_read _ _ _) as [w1 v1]. etrans; [done|]. apply quiet_write. discriminate.
Qed.
Lemma quiet_unmask w b mask : quiet w (tsb_i2s_unmask_irqs w b mask).
Proof.
  unfold tsb_i2s_unmask_irqs. pose proof (quiet_read w b TSB_I2S_REG_INTMASK).
  destruct (tsb_i2s_read _ _ _) as [w1 v1]. etrans; [done|]. apply quiet_write. discriminate.
Qed.
Lemma quiet_clear w b mask : quiet w (tsb_i2s_clear_irqs w b mask).
Proof. apply quiet_write. discriminate. Qed.

Lemma quiet_poll limit w b reg mask ok : quiet w (fst (poll limit w b reg mask ok)).
Proof.
  revert w. induction limit as [|n IH]; intros w; simpl; [done|].
  pose proof (quiet_read w b reg). destruct (tsb_i2s_read _ _ _) as [w1 v1]. case_bool_decide; [done|].
  etrans; [done|]. apply IH.
Qed.

Lemma quiet_mute w b : quiet w (tsb_i2s_mute w b).
Proof. apply quiet_write_field. discriminate. Qed.
Lemma quiet_unmute w b : quiet w (tsb_i2s_unmute w b).
Proof. apply quiet_write_field. discriminate. Qed.

Lemma quiet_read_eq w b reg w' v : tsb_i2s_read w b reg = (w', v) -> quiet w w'.
Proof. intros E1. pose proof (quiet_read w b reg) as Hq. by rewrite E1 in Hq. Qed.
Lemma quiet_poll_eq limit w b reg mask ok w' r : poll limit w b reg mask ok = (w', r) -> quiet w w'.
Proof. intros E1. pose proof (quiet_poll limit w b reg mask ok) as Hq. by rewrite E1 in Hq. Qed.

End Quiet.

#[global] Arguments poll : simpl never.

Create HintDb quiet.
#[export] Hint Resolve quiet_read_eq quiet_poll_eq : quiet.
#[export] Hint Resolve quiet_mask quiet_unmask quiet_clear quiet_mute quiet_unmute : quiet.
#[export] Hint Extern 1 (quiet _ (tsb_i2s_write _ _ _ _)) => apply quiet_write; discriminate : quiet.

(** Names the results of the reads and the poll loops of the goal, then goes
    back from the last state to the first. *)
Ltac quiet_names :=
  repeat match goal with
  | |- context [let '(_, _) := ?x in _] => let E := fresh "E" in destruct x as [? ?] eqn:E
  | |- context [if ?b then _ else _] => destruct b
  end.
Ltac quiet_back :=
  match goal with
  | |- quiet ?w ?w => reflexivity
  | E : tsb_i2s_read ?w1 _ _ = (?w', _) |- quiet _ ?w' => transitivity w1; [quiet_back|eauto with quiet]
  | E : poll _ ?w1 _ _ _ _ = (?w', _) |- quiet _ ?w' => transitivity w1; [quiet_back|eauto with quiet]
  | H : quiet ?w1 ?w' |- quiet _ ?w' => transitivity w1; [quiet_back|exact H]
  | |- quiet _ (_ ?w1 _ _ _) => transitivity w1; [quiet_back|eauto with quiet]
  | |- quiet _ (_ ?w1 _ _) => transitivity w1; [quiet_back|eauto with quiet]
  | |- quiet _ (_ ?w1 _) => transitivity w1; [quiet_back|eauto with quiet]
  end.
Ltac quiet_solve := quiet_names; simpl; quiet_back.

Section Quiet2.
Context {HW E : Type} `{I2sHw HW}.
Implicit Types (w : world HW E).

Lemma quiet_stop_now w b : quiet w (fst (stop_now w b)).
Proof. unfold stop_now. quiet_solve. Qed.
Lemma quiet_stop_block w b err : quiet w (fst (tsb_i2s_stop_block w b err)).
Proof.
  unfold tsb_i2s_stop_block. destruct err; quiet_names; simpl; try (etrans; [|apply quiet_stop_now]); quiet_back.
Qed.
Lemma quiet_start_block w b : quiet w (fst (tsb_i2s_start_block w b)).
Proof. unfold tsb_i2s_start_block. quiet_solve. Qed.
Lemma quiet_start w b : quiet w (fst (tsb_i2s_start w b)).
Proof.
  unfold tsb_i2s_start.
  assert (Hq : quiet w (fst (if is_master w then tsb_i2s_start_block w BLOCK_SC else (w, 0)))).
  { case_match; [apply quiet_start_block|done]. }
  destruct (if is_master w then _ else _) as [w1 r1]. case_bool_decide; [done|].
  pose proof (quiet_start_block w1 b) as Hq2. destruct (tsb_i2s_start_block w1 b) as [w2 r2]. simpl in *.
  case_match; simpl; [etrans; [|apply quiet_stop_block]|]; by etrans.
Qed.
Lemma quiet_stop w b err : quiet w (tsb_i2s_stop w b err).
Proof.
  unfold tsb_i2s_stop. pose proof (quiet_stop_block w b err). case_match; [|done].
  etrans; [done|]. apply quiet_stop_block.
Qed.

End Quiet2.

(** ** Filling the FIFO

    What the driver relies on: the status says that the FIFO takes a word only
    when it does, each word takes up room, and looking at the status or
    clearing it makes no new room.  (Room comes back with time, between the
    steps of the program.) *)
Class I2sHwLaws (HW : Type) `{I2sHw HW} (so : Z) := {
  so_mapped : so <> 0;
  room_read h a : (fifo_room (fst (read32 h a)) <= fifo_room h)%nat;
  room_ready h :
    Z.land (snd (read32 h (so + TSB_I2S_REG_INTSTAT))) TSB_I2S_REG_INT_ERROR_MASK = 0 ->
    Z.land (snd (read32 h (so + TSB_I2S_REG_INTSTAT))) TSB_I2S_REG_INT_INT <> 0 ->
    (0 < fifo_room (fst (read32 h (so + TSB_I2S_REG_INTSTAT))))%nat;
  room_fifo h v : (0 < fifo_room h)%nat -> (fifo_room (write32 h (so + TSB_I2S_REG_LMEM00) v) < fifo_room h)%nat;
  room_clear h v : (fifo_room (write32 h (so + TSB_I2S_REG_INTCLR) v) <= fifo_room h)%nat;
}.

Section Fill.
Context {HW E : Type} (so : Z) `{I2sHwLaws HW so}.
Implicit Types (w : world HW E).

(** One word goes to the FIFO. *)
Definition push w (intstat v : Z) : world HW E :=
  tsb_i2s_clear_irqs (tsb_i2s_write_raw w BLOCK_SO TSB_I2S_REG_LMEM00 (tsb_i2s_fifo_data (info w) v)) BLOCK_SO intstat.

Lemma push_ok w intstat v :
  so_base (info w) = so -> (0 < fifo_room (hw w))%nat ->
  hp (push w intstat v) = hp w /\ usr (push w intstat v) = usr w /\ info (push w intstat v) = info w /\
  fifo_out (push w intstat v) = fifo_out w ++ [tsb_i2s_fifo_data (info w) v] /\
  (fifo_room (hw (push w intstat v)) < fifo_room (hw w))%nat.
Proof.
  intros Hso Hroom. pose proof so_mapped. unfold push. set (w1 := tsb_i2s_write_raw _ _ _ _).
  destruct (quiet_clear w1 BLOCK_SO intstat) as [-> -> -> ->].
  assert (Hw1 : w1 = mk_world (write32 (hw w) (so + TSB_I2S_REG_LMEM00) (tsb_i2s_fifo_data (info w) v))
    (written w ++ [(BLOCK_SO, TSB_I2S_REG_LMEM00, tsb_i2s_fifo_data (info w) v)]) (info w) (hp w) (usr w)).
  { unfold w1, tsb_i2s_write_raw. simpl. rewrite Hso. by rewrite bool_decide_eq_false_2. }
  rewrite Hw1. split_and!; try done; [unfold fifo_out; simpl; by rewrite omap_app|].
  unfold tsb_i2s_clear_irqs, tsb_i2s_write, tsb_i2s_write_raw. simpl. rewrite Hso, bool_decide_eq_false_2 by done. simpl.
  eapply Nat.le_lt_trans; [apply room_clear|]. by apply room_fifo.
Qed.

Lemma read_word_ok h p (r : list Z) :
  (4 <= length r)%nat -> read_bytes (bytes h) p (length r) = Ret r ->
  exists b0 b1 b2 b3 r', r = b0 :: b1 :: b2 :: b3 :: r' /\ read_word h p = Ret (le_word [b0; b1; b2; b3]) /\
    read_bytes (bytes h) (p + 4) (length r') = Ret r'.
Proof.
  intros Hl Hr. destruct r as [|b0 [|b1 [|b2 [|b3 r']]]]; simpl in Hl; try lia.
  exists b0, b1, b2, b3, r'. split; [done|].
  change (length (b0 :: b1 :: b2 :: b3 :: r')) with (4 + length r')%nat in Hr.
  rewrite read_bytes_app in Hr. unfold read_word.
  destruct (read_bytes (bytes h) p 4) as [l4| |] eqn:E4; simpl in Hr; try done.
  assert (length l4 = 4%nat) as H4.
  { by eapply read_bytes_length. }
  change (Z.of_nat 4) with 4 in Hr. destruct (read_bytes (bytes h) (p + 4) (length r')) as [lr| |] eqn:Er; simpl in Hr; try done.
  injection Hr as Hr. destruct l4 as [|? [|? [|? [|? [|]]]]]; simplify_eq/=. done.
Qed.

Lemma intstat2event_tx intstat : tsb_i2s_intstat2event intstat <> EVENT_TX_COMPLETE.
Proof. unfold tsb_i2s_intstat2event. repeat case_bool_decide; done. Qed.

(** The outcome [o] of a loop over [rest]: it stopped after [k] of its words. *)
Definition filled w (i : Z) (rest : list Z) (o : outcome (world HW E * Z * device_i2s_event * Z)) : Prop :=
  exists w' k ev ret, o = Ret (w', i + 4 * Z.of_nat k, ev, ret) /\
    hp w' = hp w /\ usr w' = usr w /\ info w' = info w /\
    fifo_out w' = fifo_out w ++ (tsb_i2s_fifo_data (info w) <$> words (take (4 * k) rest)) /\
    (4 * k <= length rest)%nat /\ (fifo_room (hw w') + k <= fifo_room (hw w))%nat /\
    (ret <> 0 -> (4 * k < length rest)%nat) /\ ev <> EVENT_TX_COMPLETE.

Lemma filled_none w w' i rest ev ret :
  quiet w w' -> (fifo_room (hw w') <= fifo_room (hw w))%nat -> (ret <> 0 -> (0 < length rest)%nat) ->
  ev <> EVENT_TX_COMPLETE -> filled w i rest (Ret (w', i, ev, ret)).
Proof.
  intros [? ? ? ?] ? ? ?. exists w', 0%nat, ev, ret. split; [by rewrite Z.mul_0_r, Z.add_0_r|].
  split_and!; try done; [by rewrite app_nil_r|lia|lia].
Qed.

Lemma fill_loop_ok n w dp i rest :
  so_base (info w) = so -> 0 <= i ->
  (exists r, rbs (hp w) !! tx_rb (info w) = Some r /\ wrap32 (tail r - head r) = i + Z.of_nat (length rest)) ->
  Nat.divide 4 (length rest) -> (length rest < 4 * n)%nat -> read_bytes (bytes (hp w)) dp (length rest) = Ret rest ->
  filled w i rest (fill_loop n w dp i).
Proof.
  revert w dp i rest. induction n as [|n IH]; intros w dp i rest Hso Hi Hlen Hdiv Hn Hread; [lia|].
  destruct Hlen as (r & Hr & Hlen). simpl. unfold ring_buf_len, get_rb. rewrite Hr. simpl. rewrite Hlen.
  case_bool_decide as Hlt; [|by apply filled_none].
  pose proof so_mapped. pose proof (quiet_read w BLOCK_SO TSB_I2S_REG_INTSTAT) as Hq.
  unfold tsb_i2s_read, tsb_i2s_read_raw in *. simpl in *. rewrite Hso in *.
  rewrite (bool_decide_eq_false_2 (so = 0)) in * by done.
  pose proof (room_read (hw w) (so + TSB_I2S_REG_INTSTAT)) as Hrr.
  pose proof (room_ready (hw w)) as Hready.
  destruct (read32 (hw w) (so + TSB_I2S_REG_INTSTAT)) as [h1 intstat]. simpl in *.
  case_bool_decide as Herr; [apply filled_none; [done..|lia|apply intstat2event_tx]|].
  case_bool_decide as Hint; [by apply filled_none|].
  destruct Hdiv as [q Hq']. destruct (read_word_ok (hp w) dp rest) as (b0 & b1 & b2 & b3 & rest' & -> & Ew & Hread');
    [lia|done|]. rewrite Ew. simpl.
  destruct (push_ok (set_hw w h1) intstat (le_word [b0; b1; b2; b3])) as (P1 & P2 & P3 & P4 & P5); [done| |].
  { apply Hready; [lia|done]. }
  unfold push in *. simpl in P1, P2, P3, P4, P5. set (w2 := tsb_i2s_clear_irqs _ _ _) in *.
  destruct (IH w2 (dp + 4) (i + 4) rest') as (w' & k & ev & ret & -> & A1 & A2 & A3 & A4 & A5 & A6 & A7 & A8);
    [by rewrite P3|lia| | |simpl in Hn; lia|by rewrite P1|].
  { exists r. rewrite P1, P3. split; [done|]. rewrite Hlen. simpl. lia. }
  { exists (q - 1)%nat. simpl in Hq'. lia. }
  exists w', (S k), ev, ret. split; [f_equal; f_equal; f_equal; f_equal; lia|]. split_and!; try congruence; try done.
  - rewrite A4, P4, P3, <- app_assoc. unfold fifo_out. simpl.
    replace (k + S (k + S (k + S (k + 0))))%nat with (S (S (S (4 * k)))) by lia. simpl. done.
  - simpl. lia.
  - simpl in *. lia.
  - intros Hret. specialize (A7 Hret). simpl. lia.
Qed.

Lemma fill_fifo_ok w r rest :
  so_base (info w) = so -> rbs (hp w) !! tx_rb (info w) = Some r -> tail r - head r = Z.of_nat (length rest) ->
  Z.of_nat (length rest) < 2 ^ 32 -> Nat.divide 4 (length rest) ->
  read_bytes (bytes (hp w)) (head r) (length rest) = Ret rest ->
  exists w' k ev ret, tsb_i2s_fill_fifo w = Ret (w', ev, ret) /\
    hp w' = set_rbs (<[tx_rb (info w) := with_head_tail r (head r + 4 * Z.of_nat k) (tail r)]> (rbs (hp w))) (hp w) /\
    usr w' = usr w /\ info w' = info w /\
    fifo_out w' = fifo_out w ++ (tsb_i2s_fifo_data (info w) <$> words (take (4 * k) rest)) /\
    (4 * k <= length rest)%nat /\ (fifo_room (hw w') + k <= fifo_room (hw w))%nat /\
    (ret <> 0 -> (4 * k < length rest)%nat) /\ ev <> EVENT_TX_COMPLETE.
Proof.
  intros Hso Hr Hlen Hsmall Hdiv Hread. unfold tsb_i2s_fill_fifo, ring_buf_get_head, ring_buf_len, get_rb. rewrite Hr. simpl.
  rewrite Hlen, wrap32_small by lia.
  destruct (fill_loop_ok (Z.to_nat (Z.of_nat (length rest) / 4 + 1)) w (head r) 0 rest)
    as (w' & k & ev & ret & E1 & A1 & A2 & A3 & A4 & A5 & A6 & A7 & A8); try done.
  { exists r. split; [done|]. rewrite Hlen, wrap32_small; lia. }
  { destruct Hdiv as [q Hq]. rewrite Hq. rewrite Nat2Z.inj_mul, Z.div_mul by lia. lia. }
  simpl in E1. rewrite E1. simpl. unfold ring_buf_pull, put_rb, get_rb. rewrite A1, A3, Hr. simpl.
  exists (set_hp w' (set_rbs (<[tx_rb (info w) := with_head_tail r (head r + 4 * Z.of_nat k) (tail r)]> (rbs (hp w))) (hp w))), k, ev, ret.
  by split_and!.
Qed.

End Fill.

(** ** The ring between the two sides

    The entries that wait to be played hold one message each; the first may be
    partly played.  The other entries are the producer's. *)
Section Playback.
Context {HW : Type} (so : Z) `{I2sHwLaws HW so}.
(** Where the entries' data areas are, how long a message is, where the
    silence is, and what the controller's settings make of a word. *)
Context (ents : list Z) (dat : Z -> Z) (N : nat) (dummy : Z) (fd : Z -> Z).
Context (HN : (0 < N)%nat) (HN2 : Z.of_nat N < 2 ^ 31).
Context (Hdisj : forall p q, p ∈ ents -> q ∈ ents -> p <> q -> dat p + Z.of_nat N <= dat q \/ dat q + Z.of_nat N <= dat p).
Context (Hdummy : forall p, p ∈ ents -> dat p + Z.of_nat N <= dummy \/ dummy + Z.of_nat N <= dat p).
Context (Hents : Z.of_nat (length ents) < 2 ^ 32).
Implicit Types (w : world HW gb_i2s_info).

(** An entry whose message starts [off] bytes on. *)
Definition waiting (h : heap) (off : Z) (x : Z * list Z) : Prop :=
  exists r, rbs h !! x.1 = Some r /\ owner r = RING_BUF_OWNER_CONSUMER /\ data r = dat x.1 /\
    head r = dat x.1 + off /\ tail r = dat x.1 + Z.of_nat N /\ tailroom r = dat x.1 + Z.of_nat N /\
    read_bytes (bytes h) (dat x.1) N = Ret x.2.
Definition free_entry (h : heap) (p : Z) : Prop :=
  exists r, rbs h !! p = Some r /\ owner r = RING_BUF_OWNER_PRODUCER /\ data r = dat p /\
    tailroom r = dat p + Z.of_nat N.

Record inv w (cs : list (Z * list Z)) (ps : list Z) (off : nat) : Prop := {
  i_ents : cs.*1 ++ ps ≡ₚ ents;
  i_ring : is_ring (rbs (hp w)) (cs.*1 ++ ps);
  i_first x cs' : cs = x :: cs' -> waiting (hp w) (Z.of_nat off) x;
  i_rest x cs' y : cs = x :: cs' -> y ∈ cs' -> waiting (hp w) 0 y;
  i_ps p : p ∈ ps -> free_entry (hp w) p;
  i_bytes p : p ∈ ents -> has_bytes (bytes (hp w)) (dat p) (Z.of_nat N);
  i_silence : read_bytes (bytes (hp w)) dummy N = Ret (replicate N 0);
  i_off : (off < N)%nat /\ (cs = [] -> off = 0%nat) /\ Nat.divide 4 off;
  i_size : Z.of_nat N = msg_data_size (usr w);
  i_dummy : dummy_data (usr w) = dummy;
  i_rx : rx_rb (usr w) = default 0 (list.head (ps ++ cs.*1));
  i_so : so_base (info w) = so;
  i_fd v : tsb_i2s_fifo_data (info w) v = fd v;
  (** what was played and what waits is what was accepted *)
  i_played : exists played, Nat.divide 4 (length played) /\ fifo_out w = fd <$> words played /\
    concat (accepted (usr w)) = played ++ drop off (concat cs.*2);
}.

Lemma quiet_inv w w' cs ps off : quiet w w' -> inv w cs ps off -> inv w' cs ps off.
Proof. intros [Eh Eu Ei Eo] []. by split; rewrite ?Eh, ?Eu, ?Ei, ?Eo. Qed.

Lemma waiting_ext h h' off x :
  rbs h' !! x.1 = rbs h !! x.1 -> read_bytes (bytes h') (dat x.1) N = read_bytes (bytes h) (dat x.1) N ->
  waiting h off x -> waiting h' off x.
Proof. intros E1 E2 (r & ?). exists r. by rewrite E1, E2. Qed.

Lemma is_ring_update m l p r r' :
  m !! p = Some r -> next r' = next r -> is_ring m l -> is_ring (<[p := r']> m) l.
Proof.
  intros Hp Hn (Hnd & q & Hq & Hc). split; [done|]. exists q. split; [done|]. clear Hnd Hq. revert Hc.
  induction l as [|x l IH]; simpl; [done|]. intros [(rx & Hx & Hnx) Hc]. split; [|by apply IH].
  destruct (decide (p = x)) as [->|?]; [|exists rx; by rewrite lookup_insert_ne].
  exists r'. rewrite lookup_insert_eq. split; [done|]. congruence.
Qed.

Lemma ring_next m l1 p l2 r : is_ring m (l1 ++ p :: l2) -> m !! p = Some r -> next r = default 0 (list.head (l2 ++ l1 ++ [p])).
Proof.
  intros (_ & q & Hq & Hc) Hp. apply chain_app in Hc as [_ [(r' & Hr' & Hn) _]]. simplify_eq. rewrite Hn.
  destruct l2; [|done]. simpl. destruct l1; simpl in *; by simplify_eq.
Qed.

(** An entry other than [p] does not notice what happens to [p]. *)
Lemma waiting_other h p r' m off x :
  x.1 ∈ ents -> p ∈ ents -> x.1 <> p ->
  (forall a, ~ dat p <= a < dat p + Z.of_nat N -> m !! a = bytes h !! a) ->
  waiting h off x -> forall h', rbs h' = <[p := r']> (rbs h) -> bytes h' = m -> waiting h' off x.
Proof.
  intros Hx Hp Hne Hm Hw h' E1 E2. apply (waiting_ext h); [by rewrite E1, lookup_insert_ne by auto| |done].
  rewrite E2. apply read_bytes_ext. intros a Ha. apply Hm. destruct (Hdisj x.1 p); try done; lia.
Qed.

Lemma inv_apart w cs ps off p q : inv w cs ps off -> p ∈ cs.*1 -> q ∈ ps -> p <> q.
Proof.
  intros Hi Hp Hq ->. destruct (i_ring _ _ _ _ Hi) as [Hnd _]. apply NoDup_app in Hnd as (_ & Hd & _). by apply (Hd q).
Qed.
Lemma inv_in w cs ps off p : inv w cs ps off -> p ∈ cs.*1 \/ p ∈ ps -> p ∈ ents.
Proof. intros Hi Hp. rewrite <- (i_ents _ _ _ _ Hi). by apply elem_of_app. Qed.
Lemma inv_off_le w cs ps off : inv w cs ps off -> (off <= length (concat cs.*2))%nat.
Proof.
  intros Hi. destruct (i_off _ _ _ _ Hi) as (Hlt & H0' & _). destruct cs as [|x cs]; [by rewrite H0'|].
  destruct (i_first _ _ _ _ Hi x cs eq_refl) as (r & _ & _ & _ & _ & _ & _ & Hr). apply read_bytes_length in Hr.
  simpl. rewrite length_app. lia.
Qed.

(** Putting a message into the first free entry. *)
Lemma put_message w w' cs p ps off r' m msg :
  inv w cs (p :: ps) off -> rbs (hp w') = <[p := r']> (rbs (hp w)) -> bytes (hp w') = m ->
  waiting (hp w') 0 (p, msg) ->
  (forall r, rbs (hp w) !! p = Some r -> next r' = next r) ->
  (forall a, ~ dat p <= a < dat p + Z.of_nat N -> m !! a = bytes (hp w) !! a) ->
  (forall a, is_Some (bytes (hp w) !! a) -> is_Some (m !! a)) ->
  info w' = info w -> fifo_out w' = fifo_out w ->
  msg_data_size (usr w') = msg_data_size (usr w) -> dummy_data (usr w') = dummy_data (usr w) ->
  rx_rb (usr w') = default 0 (list.head (ps ++ cs.*1 ++ [p])) -> accepted (usr w') = accepted (usr w) ++ [msg] ->
  inv w' (cs ++ [(p, msg)]) ps off.
Proof.
  intros Hi Erb Eby Hnew Hnx Hm Hsome Einf Eout Esz Edu Erx Eacc.
  destruct (i_ps _ _ _ _ Hi p) as (r & Hr & _); [left|].
  assert (Hpe : p ∈ ents) by (eapply inv_in; [done|right; left]).
  assert (Hold : forall off' x, x ∈ cs -> waiting (hp w) off' x -> waiting (hp w') off' x).
  { intros off' x Hx Hw. assert (x.1 ∈ cs.*1) by (by apply list_elem_of_fmap_2).
    eapply waiting_other; try done; [by eapply inv_in; [|left]|eapply inv_apart; [done..|left]]. }
  split.
  - rewrite <- (i_ents _ _ _ _ Hi), fmap_app. simpl. by rewrite <- app_assoc.
  - rewrite Erb, fmap_app, <- app_assoc. simpl. eapply is_ring_update; [done|by apply Hnx|apply (i_ring _ _ _ _ Hi)].
  - intros x cs' E1. destruct cs as [|y cs]; simplify_eq/=.
    + destruct (i_off _ _ _ _ Hi) as (_ & -> & _); [|done]. done.
    + apply Hold; [left|]. by apply (i_first _ _ _ _ Hi x cs).
  - intros x cs' y E1 Hy. destruct cs as [|x' cs]; simplify_eq/=; [by apply elem_of_nil in Hy|].
    apply elem_of_app in Hy as [Hy|Hy%list_elem_of_singleton]; [|by subst].
    apply Hold; [by right|]. by apply (i_rest _ _ _ _ Hi x cs).
  - intros q Hq. destruct (i_ps _ _ _ _ Hi q) as (rq & Hrq & ?); [by right|]. exists rq. split; [|done].
    rewrite Erb, lookup_insert_ne; [done|]. intros <-. destruct (i_ring _ _ _ _ Hi) as [Hnd _].
    apply NoDup_app in Hnd as (_ & _ & Hnd). apply NoDup_cons in Hnd as [? _]. done.
  - intros q Hq a Ha. rewrite Eby. apply Hsome. by apply (i_bytes _ _ _ _ Hi q).
  - rewrite <- (i_silence _ _ _ _ Hi), Eby. apply read_bytes_ext. intros a Ha. apply Hm.
    destruct (Hdummy p); try done; lia.
  - destruct (i_off _ _ _ _ Hi) as (? & _ & ?). split_and!; try done. by intros [? [=]]%app_eq_nil.
  - rewrite Esz. apply (i_size _ _ _ _ Hi).
  - rewrite Edu. apply (i_dummy _ _ _ _ Hi).
  - by rewrite fmap_app, Erx.
  - rewrite Einf. apply (i_so _ _ _ _ Hi).
  - rewrite Einf. apply (i_fd _ _ _ _ Hi).
  - destruct (i_played _ _ _ _ Hi) as (pl & Hd & Hf & Hc). exists pl. split; [done|]. split; [congruence|].
    rewrite Eacc, fmap_app, !concat_app, Hc. simpl. rewrite !app_nil_r, <- app_assoc. f_equal.
    rewrite drop_app_le; [done|]. by apply (inv_off_le _ _ _ _ Hi).
Qed.

Lemma ll_tx_ok w cs p ps off d :
  inv w cs (p :: ps) off -> (N <= length d)%nat ->
  exists w', gb_i2s_ll_tx w d = Ret w' /\ inv w' (cs ++ [(p, take N d)]) ps off /\
    hw w' = hw w /\ info w' = info w /\ written w' = written w /\ size (rbs (hp w')) = size (rbs (hp w)) /\
    usr w' = with_rx (usr w) (gflags (usr w)) (wrap32 (next_rx_sample (usr w) + samples_per_message (usr w)))
      (default 0 (list.head (ps ++ cs.*1 ++ [p]))) (wrap32 (rx_rb_count (usr w) + 1)) (reports (usr w))
      (accepted (usr w) ++ [take N d]).
Proof.
  intros Hi Hd. destruct (i_ps _ _ _ _ Hi p) as (r & Hr & Ho & Hdat & Htr); [left|].
  assert (Hpe : p ∈ ents) by (eapply inv_in; [done|right; left]).
  pose proof (i_size _ _ _ _ Hi) as Hsz. pose proof (i_rx _ _ _ _ Hi) as Hrx. simpl in Hrx.
  assert (Ln : length (take N d) = N) by (rewrite length_take; lia).
  destruct (write_bytes_ok (bytes (hp w)) (dat p) (take N d)) as (m & Em & Hread & Hout & Hin).
  { rewrite Ln. apply (i_bytes _ _ _ _ Hi p Hpe). }
  rewrite Ln in Hread, Hout.
  pose proof (ring_next _ _ _ _ _ (i_ring _ _ _ _ Hi) Hr) as Hnx.
  unfold gb_i2s_ll_tx, ring_buf_reset, ring_buf_get_tail, ring_buf_put, ring_buf_pass, ring_buf_is_producers,
    ring_buf_set_owner, ring_buf_get_next, put_rb, get_rb.
  rewrite Hrx, Hr. simpl. rewrite !lookup_insert_eq. simpl. rewrite !lookup_insert_eq. simpl.
  rewrite <- Hsz, Nat2Z.id. rewrite bool_decide_eq_false_2 by lia. rewrite Hdat, Em. simpl.
  repeat (rewrite ?insert_insert_eq, ?lookup_insert_eq; simpl). rewrite Ho.
  eexists. split; [done|]. simpl. rewrite Hnx. split; [|split_and!; try done; by rewrite map_size_insert, Hr].
  eapply put_message; try done; simpl; [|by intros; simplify_eq].
  eexists. simpl. rewrite lookup_insert_eq. split; [done|]. simpl. by rewrite Z.add_0_r.
Qed.

Lemma inv_frame w w' cs ps off :
  inv w cs ps off -> hp w' = hp w -> fifo_out w' = fifo_out w ->
  so_base (info w') = so_base (info w) -> (forall v, tsb_i2s_fifo_data (info w') v = tsb_i2s_fifo_data (info w) v) ->
  msg_data_size (usr w') = msg_data_size (usr w) -> dummy_data (usr w') = dummy_data (usr w) ->
  rx_rb (usr w') = rx_rb (usr w) -> accepted (usr w') = accepted (usr w) -> inv w' cs ps off.
Proof.
  intros [] Eh Eo Eso Efd Esz Edu Erx Eacc. split; rewrite ?Eh, ?Eo, ?Eso, ?Esz, ?Edu, ?Erx, ?Eacc; try done.
  intros v. by rewrite Efd.
Qed.

(** Entries other than the head of the queue while only the head changes. *)
Lemma inv_others w h' c msg cs ps off r' :
  inv w ((c, msg) :: cs) ps off -> rbs h' = <[c := r']> (rbs (hp w)) -> bytes h' = bytes (hp w) ->
  (forall y, y ∈ cs -> waiting h' 0 y) /\ (forall p, p ∈ ps -> free_entry h' p).
Proof.
  intros Hi E1 E2. destruct (i_ring _ _ _ _ Hi) as [Hnd _]. simpl in Hnd. apply NoDup_cons in Hnd as [Hc _].
  split.
  - intros y Hy. apply (waiting_ext (hp w)); [|by rewrite E2|by apply (i_rest _ _ _ _ Hi (c, msg) cs)].
    rewrite E1, lookup_insert_ne; [done|]. intros ->. apply Hc, elem_of_app. left. by apply list_elem_of_fmap_2.
  - intros p Hp. destruct (i_ps _ _ _ _ Hi p Hp) as (rp & Hrp & ?). exists rp. split; [|done].
    rewrite E1, lookup_insert_ne; [done|]. intros ->. apply Hc, elem_of_app. by right.
Qed.

(** What is played of the head of the queue comes off the front of what waits. *)
Lemma played_more w w' msg rest off j :
  (exists played, Nat.divide 4 (length played) /\ fifo_out w = fd <$> words played /\
    concat (accepted (usr w)) = played ++ drop off (msg ++ rest)) ->
  (off + j <= length msg)%nat -> Nat.divide 4 j -> accepted (usr w') = accepted (usr w) ->
  fifo_out w' = fifo_out w ++ (fd <$> words (take j (drop off msg))) ->
  exists played, Nat.divide 4 (length played) /\ fifo_out w' = fd <$> words played /\
    concat (accepted (usr w')) = played ++ drop (off + j) (msg ++ rest).
Proof.
  intros (pl & Hd & Hf & Hc) Hj Hdj Eacc Eout. exists (pl ++ take j (drop off msg)). split_and!.
  - rewrite length_app, length_take, length_drop. rewrite Nat.min_l by lia. by apply Nat.divide_add_r.
  - by rewrite words_app, fmap_app, Eout, Hf.
  - rewrite Eacc, Hc, <- app_assoc. f_equal. rewrite !drop_app_le, app_assoc by lia. f_equal.
    by rewrite <- drop_drop, take_drop.
Qed.

(** The head of the queue moves on by [j] bytes, and may have been played to its end. *)
Lemma play_part w w' c msg cs ps off j r :
  inv w ((c, msg) :: cs) ps off -> Nat.divide 4 j -> (off + j < N)%nat ->
  rbs (hp w) !! c = Some r ->
  hp w' = set_rbs (<[c := with_head_tail r (head r + Z.of_nat j) (tail r)]> (rbs (hp w))) (hp w) ->
  usr w' = usr w -> info w' = info w ->
  fifo_out w' = fifo_out w ++ (fd <$> words (take j (drop off msg))) -> inv w' ((c, msg) :: cs) ps (off + j).
Proof.
  intros Hi Hdj Hj Hr Eh Eu Ei Eo.
  destruct (inv_others w (hp w') c msg cs ps off (with_head_tail r (head r + Z.of_nat j) (tail r)) Hi) as [Hcs Hps];
    [by rewrite Eh|by rewrite Eh|].
  destruct (i_first _ _ _ _ Hi _ _ eq_refl) as (r0 & Hr0 & Ho & Hda & Hhd & Htl & Htr & Hrd). simpl in *. simplify_eq.
  destruct (i_off _ _ _ _ Hi) as (Hlt & _ & Hdo). split; rewrite ?Eu, ?Ei; try apply Hi; try done.
  - rewrite Eh. eapply is_ring_update; [done|done|apply (i_ring _ _ _ _ Hi)].
  - intros x cs' [= <- <-]. eexists. rewrite Eh. simpl. rewrite lookup_insert_eq. split; [done|]. simpl.
    split_and!; try done. lia.
  - intros x cs' y [= <- <-]. apply Hcs.
  - rewrite Eh. apply (i_bytes _ _ _ _ Hi).
  - rewrite Eh. apply (i_silence _ _ _ _ Hi).
  - split_and!; [done|done|by apply Nat.divide_add_r].
  - rewrite <- Eu. change (concat ((c, msg) :: cs).*2) with (msg ++ concat cs.*2).
    apply (played_more w w' msg (concat cs.*2) off j); try done; [apply (i_played _ _ _ _ Hi)| |by rewrite Eu].
    apply read_bytes_length in Hrd. lia.
Qed.

Lemma play_all w w' c msg cs ps off r :
  inv w ((c, msg) :: cs) ps off -> Nat.divide 4 (N - off) -> rbs (hp w) !! c = Some r ->
  hp w' = set_rbs (<[c := mk_rb (next r) RING_BUF_OWNER_PRODUCER (priv r) (headroom r) (data r) (tailroom r) (data r) (data r)]>
            (rbs (hp w))) (hp w) ->
  usr w' = usr w -> info w' = info w ->
  fifo_out w' = fifo_out w ++ (fd <$> words (drop off msg)) -> inv w' cs (ps ++ [c]) 0.
Proof.
  intros Hi Hdj Hr Eh Eu Ei Eo.
  destruct (inv_others w (hp w') c msg cs ps off
    (mk_rb (next r) RING_BUF_OWNER_PRODUCER (priv r) (headroom r) (data r) (tailroom r) (data r) (data r)) Hi) as [Hcs Hps];
    [by rewrite Eh|by rewrite Eh|].
  destruct (i_first _ _ _ _ Hi _ _ eq_refl) as (r0 & Hr0 & Ho & Hda & Hhd & Htl & Htr & Hrd). simpl in *. simplify_eq.
  destruct (i_off _ _ _ _ Hi) as (Hlt & _ & Hdo). pose proof (read_bytes_length _ _ _ _ Hrd) as Hlm.
  split; rewrite ?Eu, ?Ei; try apply Hi; try done.
  - rewrite <- (i_ents _ _ _ _ Hi). simpl. by rewrite app_assoc, Permutation_app_comm.
  - rewrite Eh, app_assoc. apply (is_ring_rotate _ [c]). eapply is_ring_update; [done|done|apply (i_ring _ _ _ _ Hi)].
  - intros x cs' ->. apply Hcs. left.
  - intros x cs' y -> Hy. apply Hcs. by right.
  - intros p [Hp|Hp%list_elem_of_singleton]%elem_of_app; [by apply Hps|subst].
    eexists. rewrite Eh. simpl. rewrite lookup_insert_eq. by split.
  - rewrite Eh. apply (i_bytes _ _ _ _ Hi).
  - rewrite Eh. apply (i_silence _ _ _ _ Hi).
  - split_and!; [done|done|]. by exists 0%nat.
  - rewrite (i_rx _ _ _ _ Hi). simpl. by rewrite <- app_assoc.
  - rewrite <- Eu. destruct (played_more w w' msg (concat cs.*2) off (N - off)) as (pl & ? & ? & E1); try done;
      [apply (i_played _ _ _ _ Hi)|lia|by rewrite Eu|by rewrite Eo, take_ge by (rewrite length_drop; lia)|].
    exists pl. split_and!; try done. rewrite E1. replace (off + (N - off))%nat with (length msg) by lia.
    by rewrite drop_app_length.
Qed.

Definition silence : list Z := replicate N 0.

Lemma ll_tx_dummy_ok w cs p ps off :
  inv w cs (p :: ps) off ->
  exists w', ll_tx_dummy w = Ret w' /\ inv w' (cs ++ [(p, silence)]) ps off /\
    hw w' = hw w /\ info w' = info w /\ written w' = written w /\ size (rbs (hp w')) = size (rbs (hp w)) /\
    usr w' = with_rx (usr w) (gflags (usr w)) (wrap32 (next_rx_sample (usr w) + samples_per_message (usr w)))
      (default 0 (list.head (ps ++ cs.*1 ++ [p]))) (wrap32 (rx_rb_count (usr w) + 1)) (reports (usr w))
      (accepted (usr w) ++ [silence]).
Proof.
  intros Hi. unfold ll_tx_dummy. rewrite (i_dummy _ _ _ _ Hi), <- (i_size _ _ _ _ Hi), Nat2Z.id, (i_silence _ _ _ _ Hi).
  simpl. destruct (ll_tx_ok w cs p ps off (replicate N 0) Hi) as (w' & E1 & E2); [by rewrite length_replicate|].
  rewrite take_ge in E2 by (by rewrite length_replicate). by exists w'.
Qed.

Lemma inv_length w cs ps off : inv w cs ps off -> (length cs + length ps = length ents)%nat.
Proof. intros Hi. by rewrite <- (i_ents _ _ _ _ Hi), length_app, length_fmap. Qed.

(** [acc] is the messages [msgs] in order, with silence put in between. *)
Inductive padded : list (list Z) -> list (list Z) -> Prop :=
  | padded_nil : padded [] []
  | padded_silence msgs acc : padded msgs acc -> padded msgs (acc ++ [silence])
  | padded_message m msgs acc : padded msgs acc -> padded (msgs ++ [m]) (acc ++ [m]).

Section Steps.
Context (msgs : list (list Z)).

(** The callback after an entry was played: with fewer than two messages left
    it adds one of silence. *)
Lemma tx_complete_ok w cs ps off rb :
  inv w cs ps off -> ps <> [] -> rx_rb_count (usr w) = Z.of_nat (length cs) + 1 -> padded msgs (accepted (usr w)) ->
  exists w' cs' ps', gb_i2s_ll_tx_cb w rb EVENT_TX_COMPLETE = Ret w' /\ inv w' cs' ps' off /\
    cs'.*1 ++ ps' = cs.*1 ++ ps /\ rx_rb_count (usr w') = Z.of_nat (length cs') /\
    padded msgs (accepted (usr w')) /\ hw w' = hw w /\ info w' = info w.
Proof.
  intros Hi Hps Hcnt Hpad. pose proof (inv_length _ _ _ _ Hi) as Hlen.
  unfold gb_i2s_ll_tx_cb. rewrite bool_decide_eq_true_2 by done.
  replace (wrap32 (rx_rb_count (usr w) - 1)) with (Z.of_nat (length cs)) by (rewrite Hcnt, wrap32_small; lia).
  set (w1 := set_usr w _).
  assert (Hi1 : inv w1 cs ps off) by by apply (inv_frame w).
  case_bool_decide as Hlow.
  - destruct ps as [|p ps]; [done|]. destruct (ll_tx_dummy_ok w1 cs p ps off Hi1) as (w' & -> & Hi' & Eh & Ei & _ & _ & Eu).
    exists w', (cs ++ [(p, silence)]), ps. split; [done|]. split; [done|]. rewrite Eu. simpl.
    rewrite fmap_app, length_app, <- app_assoc. simpl in Hlow, Hlen. split_and!; try done; [|by constructor].
    unfold w1. simpl. rewrite wrap32_small; lia.
  - by exists w1, cs, ps.
Qed.

(** Where the transmitter is, that the count of messages is right and that what
    was accepted is the messages with silence in between. *)
Record sync w (cs : list (Z * list Z)) (ps : list Z) : Prop := {
  s_tx : tx_rb (info w) = default 0 (list.head (cs.*1 ++ ps));
  s_count : rx_rb_count (usr w) = Z.of_nat (length cs);
  s_padded : padded msgs (accepted (usr w));
}.
Definition good w : Prop := exists cs ps off, inv w cs ps off /\ sync w cs ps.

Lemma good_frame w w' :
  good w -> hp w' = hp w -> fifo_out w' = fifo_out w -> tx_rb (info w') = tx_rb (info w) ->
  so_base (info w') = so_base (info w) -> (forall v, tsb_i2s_fifo_data (info w') v = tsb_i2s_fifo_data (info w) v) ->
  msg_data_size (usr w') = msg_data_size (usr w) -> dummy_data (usr w') = dummy_data (usr w) ->
  rx_rb (usr w') = rx_rb (usr w) -> rx_rb_count (usr w') = rx_rb_count (usr w) ->
  accepted (usr w') = accepted (usr w) -> good w'.
Proof.
  intros (cs & ps & off & Hi & [Ht Hc Hpad]) E1 E2 E3 E4 E5 E6 E7 E8 E9 E10. exists cs, ps, off.
  split; [by apply (inv_frame w)|]. split; congruence.
Qed.

Lemma quiet_good w w' : quiet w w' -> good w -> good w'.
Proof. intros [Eh Eu Ei Eo] Hg. apply (good_frame w); by rewrite ?Eh, ?Eu, ?Ei. Qed.

Lemma tx_loop_eq n w :
  tx_loop (Some gb_i2s_ll_tx_cb) n w =
  (c ← ring_buf_is_consumers (hp w) (tx_rb (info w));
   if negb c then Ret (w, NoMoreData) else
   len ← ring_buf_len (hp w) (tx_rb (info w));
   if bool_decide (len mod 4 <> 0) then Ret (w, Failed EVENT_DATA_LEN (- EINVAL)) else
   r ← tsb_i2s_fill_fifo w;
   let '(w, event, ret) := (r : world HW gb_i2s_info * device_i2s_event * Z) in
   if bool_decide (ret <> 0) then Ret (w, Failed event ret) else
   empty ← ring_buf_is_empty (hp w) (tx_rb (info w));
   if negb empty then Ret (w, FifoFull) else
   h ← ring_buf_reset (hp w) (tx_rb (info w));
   h ← ring_buf_pass h (tx_rb (info w));
   w ← call_back (Some gb_i2s_ll_tx_cb) (set_hp w h) (tx_rb (info w)) EVENT_TX_COMPLETE;
   nxt ← ring_buf_get_next (hp w) (tx_rb (info w));
   let w := set_info w (with_tx_rb (info w) nxt) in
   match n with O => Hang | S n => tx_loop (Some gb_i2s_ll_tx_cb) n w end).
Proof. by destruct n. Qed.

(** After an entry was played to its end. *)
Lemma next_entry w c msg cs ps off w2 :
  inv w2 cs (ps ++ [c]) 0 -> sync w ((c, msg) :: cs) ps -> usr w2 = usr w -> tx_rb (info w2) = c ->
  inv w ((c, msg) :: cs) ps off ->
  exists w3, gb_i2s_ll_tx_cb w2 c EVENT_TX_COMPLETE = Ret w3 /\ hw w3 = hw w2 /\
    exists nxt, ring_buf_get_next (hp w3) (tx_rb (info w3)) = Ret nxt /\
      good (set_info w3 (with_tx_rb (info w3) nxt)).
Proof.
  intros Hi2 [Htx Hcnt Hpad] Eu Etx Hi. destruct (tx_complete_ok w2 cs (ps ++ [c]) 0 c Hi2) as (w3 & cs' & ps' & E3 & Hi3 & Hl & Hc & Hpad' & Eh & Ei).
  { by intros [? [=]]%app_eq_nil. }
  { rewrite Eu, Hcnt. simpl. lia. }
  { by rewrite Eu. }
  exists w3. split; [done|]. split; [done|].
  assert (Hring : is_ring (rbs (hp w3)) ((cs.*1 ++ ps) ++ [c])).
  { rewrite <- app_assoc, <- Hl. apply (i_ring _ _ _ _ Hi3). }
  destruct (chain_some (rbs (hp w3)) (cs'.*1 ++ ps') (default 0 (list.head (cs'.*1 ++ ps'))) c) as [r Hr].
  { destruct (i_ring _ _ _ _ Hi3) as (_ & q & Hq & Hch). by rewrite Hq. }
  { rewrite Hl, app_assoc. set_solver. }
  pose proof (ring_next _ _ _ _ _ Hring Hr) as Hnx.
  exists (next r). unfold ring_buf_get_next, get_rb.
  assert (tx_rb (info w3) = c) as -> by congruence. rewrite Hr. split; [done|].
  exists cs', ps', 0%nat. split; [by apply (inv_frame w3)|]. split; [|done..].
  simpl. rewrite Hnx, Hl. simpl. by rewrite <- app_assoc.
Qed.

Lemma inv_fd w cs ps off (l : list Z) : inv w cs ps off -> tsb_i2s_fifo_data (info w) <$> l = fd <$> l.
Proof. intros Hi. apply list_fmap_ext. intros i v _. apply (i_fd _ _ _ _ Hi). Qed.

Lemma tx_loop_ok n w :
  good w -> (fifo_room (hw w) <= n)%nat ->
  exists w' e, tx_loop (Some gb_i2s_ll_tx_cb) n w = Ret (w', e) /\ good w' /\ forall ret, e <> Failed EVENT_TX_COMPLETE ret.
Proof.
  revert w. induction n as [n IH] using lt_wf_ind. intros w (cs & ps & off & Hi & Hs) Hroom. rewrite tx_loop_eq.
  pose proof (s_tx _ _ _ Hs) as Htx. destruct cs as [|[c msg] cs]; simpl in Htx.
  - destruct ps as [|p ps]; [by destruct (i_ring _ _ _ _ Hi) as (_ & q & Hq & _)|].
    destruct (i_ps _ _ _ _ Hi p) as (r & Hr & Ho & _); [left|]. simpl in Htx.
    exists w, NoMoreData. split; [|by split; [exists [], (p :: ps), off|]].
    unfold ring_buf_is_consumers, get_rb. rewrite Htx, Hr. simpl. by rewrite Ho.
  - destruct (i_first _ _ _ _ Hi _ _ eq_refl) as (r & Hr & Ho & Hda & Hhd & Htl & Htr & Hrd). simpl in *.
    destruct (i_off _ _ _ _ Hi) as (Hlt & _ & Hdo). pose proof (read_bytes_length _ _ _ _ Hrd) as Hlm.
    assert (Hlen : tail r - head r = Z.of_nat (length (drop off msg))) by (rewrite length_drop; lia).
    unfold ring_buf_is_consumers at 1, ring_buf_len at 1, get_rb. rewrite Htx, Hr. simpl.
    rewrite Ho, Hlen, wrap32_small by (rewrite length_drop; lia). rewrite bool_decide_eq_true_2 by done. simpl.
    case_bool_decide as Hmod; [by eexists w, _; split; [done|]; split; [exists ((c, msg) :: cs), ps, off|]|].
    assert (Hdiv : Nat.divide 4 (length (drop off msg))).
    { exists (length (drop off msg) / 4)%nat. apply Z.mod_divide in Hmod as [k Hk]; [|lia].
      rewrite (Nat2Z.inj _ (Z.to_nat k * 4)%nat) by lia. rewrite Nat.div_mul by lia. lia. }
    destruct (fill_fifo_ok so w r (drop off msg)) as (w' & k & ev & ret & Ef & Eh & Eu & Ei & Eo & Hk & Hrm & Hret & Hev);
      [apply (i_so _ _ _ _ Hi)|by rewrite Htx|done|rewrite length_drop; lia|done|..].
    { rewrite Hhd. eapply read_bytes_drop; [done|lia]. }
    rewrite Ef. simpl. rewrite Htx in Eh.
    assert (Hpart : (4 * k < length (drop off msg))%nat -> good w').
    { intros Hlt'. exists ((c, msg) :: cs), ps, (off + 4 * k)%nat. split; [|split; by rewrite ?Ei, ?Eu; apply Hs].
      apply (play_part w w' c msg cs ps off (4 * k) r); try done; [by exists k; lia|rewrite length_drop in Hlt'; lia| |].
      - rewrite Eh. do 4 f_equal. lia.
      - by rewrite Eo, (inv_fd _ _ _ _ _ Hi). }
    case_bool_decide as Hr0; [eexists w', _; split; [done|]; split; [by apply Hpart, Hret|congruence]|].
    unfold ring_buf_is_empty, ring_buf_len, get_rb. rewrite Ei, Htx, Eh. simpl. rewrite lookup_insert_eq. simpl.
    rewrite wrap32_small by lia. case_bool_decide as Hemp; simpl.
    2: { eexists w', _. split; [done|]. split; [apply Hpart; lia|done]. }
    unfold ring_buf_reset, ring_buf_pass, ring_buf_is_producers, ring_buf_set_owner, put_rb, get_rb. simpl.
    repeat (rewrite ?insert_insert_eq, ?lookup_insert_eq; simpl). rewrite Ho. simpl.
    set (w2 := set_hp w' _).
    assert (Hi2 : inv w2 cs (ps ++ [c]) 0).
    { apply (play_all w w2 c msg cs ps off r); try done; [by rewrite <- Hlm, <- length_drop|].
      change (fifo_out w2) with (fifo_out w'). by rewrite Eo, (inv_fd _ _ _ _ _ Hi), take_ge by lia. }
    destruct (next_entry w c msg cs ps off w2) as (w3 & E3 & Eh3 & nxt & E4 & Hg); try done; [change (tx_rb (info w') = c); by rewrite Ei|].
    rewrite E3. simpl. rewrite E4. simpl. assert (Hk0 : (1 <= k)%nat) by (rewrite length_drop in *; lia).
    destruct n as [|n]; [lia|]. apply IH; [lia|done|]. simpl. rewrite Eh3. simpl. lia.
Qed.

(** ** The steps of the two sides *)

Lemma report_good w ev : good w -> good (gb_i2s_report_event w ev).
Proof. intros Hg. by apply (good_frame w). Qed.

Lemma stop_transmitter_good w err : good w -> good (tsb_i2s_stop_transmitter w err).
Proof.
  intros Hg. unfold tsb_i2s_stop_transmitter.
  set (w1 := tsb_i2s_clear_irqs _ _ _). assert (good w1).
  { unfold w1. eapply quiet_good; [apply quiet_clear|]. eapply quiet_good; [apply quiet_mask|].
    eapply quiet_good; [apply quiet_stop|done]. }
  by apply (good_frame w1).
Qed.

Lemma failed_good w rb ev : good w -> ev <> EVENT_TX_COMPLETE -> exists w', gb_i2s_ll_tx_cb w rb ev = Ret w' /\ good w'.
Proof.
  intros Hg Hev. unfold gb_i2s_ll_tx_cb. rewrite bool_decide_eq_false_2 by done.
  eexists. split; [done|]. by do 2 apply report_good.
Qed.

Lemma tx_data_good w : good w -> exists w' ret, tsb_i2s_tx_data (Some gb_i2s_ll_tx_cb) w = Ret (w', ret) /\ good w'.
Proof.
  intros Hg. unfold tsb_i2s_tx_data. destruct (tx_loop_ok (fifo_room (hw w)) w Hg) as (w1 & e & -> & Hg1 & He); [done|].
  cbn [mbind outcome_bind]. destruct e as [| |ev ret].
  - eexists _, _. split; [done|]. eapply quiet_good; [apply quiet_mask|done].
  - eexists _, _. split; [done|]. eapply quiet_good; [apply quiet_unmask|done].
  - set (w2 := tsb_i2s_stop_transmitter w1 true).
    destruct (failed_good w2 (tx_rb (info w2)) ev) as (w3 & E3 & Hg3); [by apply stop_transmitter_good| |].
    { intros ->. by apply (He ret). }
    fold w2. unfold call_back. rewrite E3. cbn [mbind outcome_bind]. eexists _, _. split; [done|]. eapply quiet_good; [apply quiet_mask|done].
Qed.

Lemma so_irq_good w : good w -> exists w', tsb_i2s_irq_so_handler (Some gb_i2s_ll_tx_cb) w = Ret w' /\ good w'.
Proof.
  intros Hg. unfold tsb_i2s_irq_so_handler. pose proof (quiet_read w BLOCK_SO TSB_I2S_REG_INTSTAT) as Hq.
  destruct (tsb_i2s_read _ _ _) as [w1 v]. simpl in Hq. apply (quiet_good _ _ Hq) in Hg. case_bool_decide.
  - destruct (tx_data_good w1 Hg) as (w2 & ret & -> & Hg2). by exists w2.
  - eexists. split; [done|]. eapply quiet_good; [apply quiet_clear|done].
Qed.

Lemma so_err_irq_good w : good w -> exists w', tsb_i2s_irq_so_err_handler (Some gb_i2s_ll_tx_cb) w = Ret w' /\ good w'.
Proof.
  intros Hg. unfold tsb_i2s_irq_so_err_handler. pose proof (quiet_read w BLOCK_SO TSB_I2S_REG_INTSTAT) as Hq.
  destruct (tsb_i2s_read _ _ _) as [w1 v]. simpl in Hq. apply (quiet_good _ _ Hq) in Hg. case_bool_decide.
  - eexists. split; [done|]. eapply quiet_good; [apply quiet_clear|done].
  - unfold call_back. apply failed_good; [by apply stop_transmitter_good|apply intstat2event_tx].
Qed.

Lemma start_good w : good w -> exists w', start_playing w = Ret w' /\ good w'.
Proof.
  intros Hg. unfold start_playing, tsb_i2s_op_start_transmitter.
  assert (exists w1 ret, (if negb (tsb_i2s_tx_is_prepared (info w)) then Ret (w, - EIO)
    else tsb_i2s_start_transmitter (Some gb_i2s_ll_tx_cb) w) = Ret (w1, ret) /\ good w1) as (w1 & ret & -> & Hg1).
  { destruct (tsb_i2s_tx_is_prepared _); simpl; [|by eexists _, _]. unfold tsb_i2s_start_transmitter.
    destruct (tsb_i2s_tx_is_active _).
    { rewrite bool_decide_eq_false_2 by auto. by apply tx_data_good. }
    set (w2 := tsb_i2s_unmask_irqs _ _ _). assert (Hg2 : good w2).
    { unfold w2. eapply quiet_good; [apply quiet_unmask|]. eapply quiet_good; [apply quiet_clear|done]. }
    pose proof (quiet_start w2 BLOCK_SO) as Hq. destruct (tsb_i2s_start w2 BLOCK_SO) as [w3 r3]. simpl in Hq.
    apply (quiet_good _ _ Hq) in Hg2. destruct (bool_decide (r3 <> 0)) eqn:Er; [rewrite Er; by eexists _, _|].
    rewrite bool_decide_eq_false_2 by auto. apply tx_data_good. by apply (good_frame w3). }
  cbn [mbind outcome_bind]. case_bool_decide.
  - eexists. split; [done|]. by do 2 apply report_good.
  - eexists. split; [done|]. by apply (good_frame w1).
Qed.

End Steps.

Lemma ll_tx_sync msgs msgs' w w' cs p ps d :
  sync msgs w cs (p :: ps) -> info w' = info w -> rx_rb_count (usr w') = wrap32 (rx_rb_count (usr w) + 1) ->
  (length cs + S (length ps) = length ents)%nat -> padded msgs' (accepted (usr w')) -> sync msgs' w' (cs ++ [(p, d)]) ps.
Proof.
  intros [Htx Hcnt Hpad] Ei Ec Hl Hpad'. split; [by rewrite Ei, Htx, fmap_app, <- app_assoc| |done].
  rewrite Ec, Hcnt, length_app, wrap32_small; simpl; lia.
Qed.

Lemma producers_rx w cs ps off :
  inv w cs ps off -> exists b, ring_buf_is_producers (hp w) (rx_rb (usr w)) = Ret b /\ (b = true <-> ps <> []).
Proof.
  intros Hi. rewrite (i_rx _ _ _ _ Hi). unfold ring_buf_is_producers, get_rb. destruct ps as [|p ps]; simpl.
  - destruct cs as [|[c msg] cs]; [by destruct (i_ring _ _ _ _ Hi) as (_ & q & Hq & _)|]. simpl.
    destruct (i_first _ _ _ _ Hi _ _ eq_refl) as (r & Hr & Ho & _).
    simpl in Hr. rewrite Hr. simpl. rewrite Ho. by exists false.
  - destruct (i_ps _ _ _ _ Hi p) as (r & Hr & Ho & _); [left|].
    rewrite Hr. simpl. rewrite Ho. by exists true.
Qed.

Lemma fill_missing_ok msgs n w cs ps off sample :
  inv w cs ps off -> sync msgs w cs ps -> (length ps <= n)%nat ->
  exists w' cs' ps', fill_missing n w sample = Ret w' /\ inv w' cs' ps' off /\ sync msgs w' cs' ps'.
Proof.
  revert w cs ps. induction n as [|n IH]; intros w cs ps Hi Hs Hn;
    destruct (producers_rx w cs ps off Hi) as (b & Eb & Hb); simpl; rewrite Eb; simpl.
  - destruct ps; [|simpl in Hn; lia]. destruct b; [by destruct (proj1 Hb eq_refl)|]. by exists w, cs, [].
  - destruct b; [|by exists w, cs, ps]. destruct ps as [|p ps]; [by destruct (proj1 Hb eq_refl)|]. simpl.
    case_bool_decide as Hgap; [|by exists w, cs, (p :: ps)].
    destruct (ll_tx_dummy_ok w cs p ps off Hi) as (w1 & -> & Hi1 & _ & Ei & _ & _ & Eu). simpl.
    apply (IH w1 (cs ++ [(p, silence)]) ps); [done| |simpl in Hn; lia].
    eapply ll_tx_sync; [done|done|by rewrite Eu|apply (inv_length _ _ _ _ Hi)|].
    rewrite Eu. constructor. apply Hs.
Qed.

(** The message's bytes are there to be read, and after filling in what is
    missing before it there is an entry left for the message itself. *)
Definition fits w (req : send_data_request) : Prop :=
  (N <= length (rdata req))%nat /\
  forall w', fill_missing (size (rbs (hp w))) w (sample_number req) = Ret w' ->
    ring_buf_is_producers (hp w) (rx_rb (usr w)) = Ret true -> ring_buf_is_producers (hp w') (rx_rb (usr w')) = Ret true.

Lemma ring_size w cs ps off : inv w cs ps off -> (length ps <= size (rbs (hp w)))%nat.
Proof.
  intros Hi. assert (Hsub : list_to_set (cs.*1 ++ ps) ⊆ dom (rbs (hp w))).
  { intros a Ha%elem_of_list_to_set. apply elem_of_dom. destruct (i_ring _ _ _ _ Hi) as (_ & q & _ & Hc).
    by eapply chain_some. }
  apply subseteq_size in Hsub. rewrite size_list_to_set, size_dom, length_app in Hsub by (apply (i_ring _ _ _ _ Hi)). lia.
Qed.

Lemma receive_data_ok msgs w req :
  good msgs w -> fits w req ->
  exists w' (b : bool), receive_data w req = Ret (w', b) /\
    good (msgs ++ (if b then [take N (rdata req)] else [])) w'.
Proof.
  intros (cs & ps & off & Hi & Hs) [Hlen Hroom]. unfold receive_data.
  destruct (producers_rx w cs ps off Hi) as (b & Eb & Hb). rewrite Eb in *. simpl. destruct b; simpl.
  2: { eexists _, false. split; [done|]. rewrite app_nil_r. apply report_good. by exists cs, ps, off. }
  destruct (fill_missing_ok msgs (size (rbs (hp w))) w cs ps off (sample_number req)) as (w1 & cs1 & ps1 & E1 & Hi1 & Hs1);
    [done..|by eapply ring_size|].
  rewrite E1. simpl. specialize (Hroom w1 E1 eq_refl).
  destruct (producers_rx w1 cs1 ps1 off Hi1) as (b1 & Eb1 & Hb1). rewrite Hroom in Eb1. injection Eb1 as <-.
  destruct ps1 as [|p ps1]; [by destruct (proj1 Hb1 eq_refl)|].
  destruct (ll_tx_ok w1 cs1 p ps1 off (rdata req) Hi1 Hlen) as (w2 & -> & Hi2 & _ & Ei & _ & _ & Eu). simpl.
  exists w2, true. split; [done|].
  exists (cs1 ++ [(p, take N (rdata req))]), ps1, off. split; [done|].
  eapply ll_tx_sync; [done|done|by rewrite Eu|apply (inv_length _ _ _ _ Hi1)|].
  rewrite Eu. constructor. apply Hs1.
Qed.

End Playback.

(** ** Runs

    What can happen, in any order: a request arrives on a known CPort, its
    handler asks the transmitter to start, the controller interrupts, and time
    passes in the controller. *)
Inductive event (HW : Type) := Message (req : send_data_request) | Start | SoIrq | SoErrIrq | Time (h : HW).
Arguments Message {HW}. Arguments Start {HW}. Arguments SoIrq {HW}. Arguments SoErrIrq {HW}. Arguments Time {HW}.

Section Runs.
Context {HW : Type} `{I2sHw HW}.
Implicit Types (w : world HW gb_i2s_info).

(** With the message that was put into the ring, if one was. *)
Definition exec w (e : event HW) : outcome (world HW gb_i2s_info * list (list Z)) :=
  match e with
  | Message req =>
      r ← check_request w true req;
      match (r : world HW gb_i2s_info * option Z) with
      | (w, Some _) => Ret (w, [])
      | (w, None) =>
          r ← receive_data w req;
          let '(w, ok) := (r : world HW gb_i2s_info * bool) in
          Ret (w, if ok then [take (Z.to_nat (msg_data_size (usr w))) (rdata req)] else [])
      end
  | Start => w ← start_playing w; Ret (w, [])
  | SoIrq => w ← tsb_i2s_irq_so_handler (Some gb_i2s_ll_tx_cb) w; Ret (w, [])
  | SoErrIrq => w ← tsb_i2s_irq_so_err_handler (Some gb_i2s_ll_tx_cb) w; Ret (w, [])
  | Time h => Ret (set_hw w h, [])
  end.

Fixpoint run w (es : list (event HW)) : outcome (world HW gb_i2s_info * list (list Z)) :=
  match es with
  | [] => Ret (w, [])
  | e :: es =>
      r ← exec w e;
      let '(w, m) := (r : world HW gb_i2s_info * list (list Z)) in
      r ← run w es;
      let '(w, ms) := (r : world HW gb_i2s_info * list (list Z)) in Ret (w, m ++ ms)
  end.

(** No message of the right size comes after a gap that takes up the whole of
    the ring, and its bytes are in the receive buffer. *)
Fixpoint fitting w (es : list (event HW)) : Prop :=
  match es with
  | [] => True
  | e :: es =>
      match e with
      | Message req => rsize req = msg_data_size (usr w) -> fits (Z.to_nat (msg_data_size (usr w))) w req
      | _ => True
      end /\ forall w' m, exec w e = Ret (w', m) -> fitting w' es
  end.

End Runs.

Section Order.
Context {HW : Type} (so : Z) `{I2sHwLaws HW so}.
Context (ents : list Z) (dat : Z -> Z) (N : nat) (dummy : Z) (fd : Z -> Z).
Context (HN : (0 < N)%nat) (HN2 : Z.of_nat N < 2 ^ 31).
Context (Hdisj : forall p q, p ∈ ents -> q ∈ ents -> p <> q -> dat p + Z.of_nat N <= dat q \/ dat q + Z.of_nat N <= dat p).
Context (Hdummy : forall p, p ∈ ents -> dat p + Z.of_nat N <= dummy \/ dummy + Z.of_nat N <= dat p).
Context (Hents : Z.of_nat (length ents) < 2 ^ 32).
Implicit Types (w : world HW gb_i2s_info).
#[local] Abbreviation ok := (good so ents dat N dummy fd).

Lemma good_size msgs w : ok msgs w -> Z.to_nat (msg_data_size (usr w)) = N.
Proof. intros (cs & ps & off & Hi & _). rewrite <- (i_size _ _ _ _ _ _ _ _ _ _ Hi). lia. Qed.

Lemma exec_quiet msgs (o : outcome (world HW gb_i2s_info)) :
  (exists w', o = Ret w' /\ ok msgs w') -> exists w' m, (w1 ← o; Ret (w1, @nil (list Z))) = Ret (w', m) /\ ok (msgs ++ m) w'.
Proof. intros (w' & -> & Hg). exists w', []. by rewrite app_nil_r. Qed.

Lemma exec_ok msgs w e :
  ok msgs w ->
  match e with Message req => rsize req = msg_data_size (usr w) -> fits (Z.to_nat (msg_data_size (usr w))) w req | _ => True end ->
  exists w' m, exec w e = Ret (w', m) /\ ok (msgs ++ m) w'.
Proof.
  intros Hg He. pose proof (good_size _ w Hg) as Hsz. destruct e as [req| | | |h]; simpl.
  - unfold check_request. simpl.
    case_bool_decide; simpl; [eexists _, []; by rewrite app_nil_r|].
    case_bool_decide; simpl; [eexists _, []; by rewrite app_nil_r|].
    case_bool_decide as Hs; simpl.
    { eexists _, []. rewrite app_nil_r. split; [done|]. by apply report_good. }
    rewrite Hsz in He. edestruct (receive_data_ok (HW := HW) so ents dat N dummy fd) as (w' & b & -> & Hg'); [done..|exact Hg|by apply He|]. simpl.
    exists w', (if b then [take N (rdata req)] else []). split; [|done]. by rewrite (good_size _ w' Hg').
  - apply exec_quiet. by apply start_good.
  - apply exec_quiet. by apply so_irq_good.
  - apply exec_quiet. by apply so_err_irq_good.
  - eexists _, []. rewrite app_nil_r. split; [done|]. by apply (good_frame _ _ _ _ _ _ _ w).
Qed.

Lemma play_run_ok es msgs w :
  ok msgs w -> fitting w es -> exists w' ms, run w es = Ret (w', ms) /\ ok (msgs ++ ms) w'.
Proof.
  revert msgs w. induction es as [|e es IH]; intros msgs w Hg Hf; simpl.
  - exists w, []. by rewrite app_nil_r.
  - destruct Hf as [He Hf]. destruct (exec_ok msgs w e Hg He) as (w1 & m & E1 & Hg1).
    rewrite E1. simpl. destruct (IH (msgs ++ m) w1 Hg1 (Hf _ _ E1)) as (w2 & ms & -> & Hg2). simpl.
    exists w2, (m ++ ms). by rewrite app_assoc.
Qed.

(** What the ring and the FIFO make of what was accepted. *)
Lemma good_stream msgs w :
  ok msgs w -> padded N msgs (accepted (usr w)) /\
    exists k, Nat.divide 4 k /\ (k <= length (concat (accepted (usr w))))%nat /\
      (length (concat (accepted (usr w))) - k <= N * length ents)%nat /\
      fifo_out w = fd <$> words (take k (concat (accepted (usr w)))).
Proof.
  intros (cs & ps & off & Hi & Hs). split; [apply Hs|].
  destruct (i_played _ _ _ _ _ _ _ _ _ _ Hi) as (pl & Hd & Ho & Hc). exists (length pl). rewrite Hc.
  split; [done|]. rewrite length_app, length_drop. split; [lia|]. split; [|by rewrite take_app_length].
  assert (Hall : forall x, x ∈ cs -> length x.2 = N).
  { intros x Hx. destruct cs as [|y cs]; [by apply elem_of_nil in Hx|]. apply elem_of_cons in Hx as [->|Hx].
    - destruct (i_first _ _ _ _ _ _ _ _ _ _ Hi y cs eq_refl) as (r & _ & _ & _ & _ & _ & _ & Hr). by eapply read_bytes_length.
    - destruct (i_rest _ _ _ _ _ _ _ _ _ _ Hi y cs x eq_refl Hx) as (r & _ & _ & _ & _ & _ & _ & Hr). by eapply read_bytes_length. }
  assert (Hlen : length (concat cs.*2) = (N * length cs)%nat).
  { clear -Hall. induction cs as [|x cs IH]; [simpl; lia|]. rewrite fmap_cons. simpl.
    rewrite length_app, (Hall x) by left. rewrite IH by (intros y Hy; apply Hall; by right). lia. }
  assert (length cs <= length ents)%nat.
  { rewrite <- (i_ents _ _ _ _ _ _ _ _ _ _ Hi), length_app, length_fmap. lia. }
  nia.
Qed.

End Order.

(** ** From the start *)

(** The data area of an entry, behind the entry itself and the headroom. *)
Definition data_area (q : Z) : Z := q + sizeof_ring_buf + (sizeof_hdr + sizeof_send_data).

Section Start.
Context {HW : Type} (so : Z) `{I2sHwLaws HW so}.
Implicit Types (w : world HW gb_i2s_info).

(** A receiver that was set up and has no ring yet: a message has [N] bytes,
    and there are as many bytes of silence. *)
Record idle w (N : nat) : Prop := {
  id_heap : heap_ok (hp w);
  id_so : so_base (info w) = so;
  id_written : written w = [];
  id_accepted : accepted (usr w) = [];
  id_count : rx_rb_count (usr w) = 0;
  id_size : msg_data_size (usr w) = Z.of_nat N;
  id_pos : (0 < N)%nat /\ Z.of_nat N < 2 ^ 31;
  id_silence : read_bytes (bytes (hp w)) (dummy_data (usr w)) N = Ret (replicate N 0);
}.

Lemma make_ring_good w N n :
  idle w N -> rx_entries (usr w) = Ret n -> 0 < n < 2 ^ 32 -> (Z.to_nat n <= budget (hp w))%nat ->
  exists w0 ents, make_ring w = Ret w0 /\ length ents = Z.to_nat n /\
    (forall p q, p ∈ ents -> q ∈ ents -> p <> q ->
       data_area p + Z.of_nat N <= data_area q \/ data_area q + Z.of_nat N <= data_area p) /\
    (forall p, p ∈ ents -> data_area p + Z.of_nat N <= dummy_data (usr w) \/ dummy_data (usr w) + Z.of_nat N <= data_area p) /\
    good so ents data_area N (dummy_data (usr w)) (tsb_i2s_fifo_data (info w)) [] w0.
Proof.
  intros [Hok Hso Hwr Hacc Hcnt Hsz [HN HN2] Hsil] En Hn Hb. unfold make_ring. rewrite En, Hsz. cbn [mbind outcome_bind].
  destruct (alloc_ring_ok (E := gb_i2s_info) None None 16 (Z.of_nat N) 0) with
    (Q := fun (p : Z) (r : ring_buf) => r = fresh_rb 16 (Z.of_nat N) 0 p) (h := hp w) (e := usr w) (entries := Z.to_nat n)
    as (h' & u' & p & E1 & Hiff & Hcase); try done; try lia.
  { unfold chunk_size, sizeof_ring_buf. lia. }
  destruct Hcase as [[Hp0 _]|(Hu & l & Hl & Hlen & Hr)]; [apply (Hiff eq_refl) in Hp0; lia|].
  rewrite (Hu eq_refl) in E1. unfold sizeof_hdr, sizeof_send_data. change (8 + 8) with 16. rewrite E1.
  cbn [mbind outcome_bind]. eexists _, l. split; [done|]. split; [done|].
  assert (Hrb : forall q, q ∈ l -> exists r, rbs h' !! q = Some r /\ owner r = RING_BUF_OWNER_PRODUCER /\
    data r = data_area q /\ tailroom r = data_area q + Z.of_nat N).
  { intros q Hq. destruct (nr_new _ _ _ _ _ _ _ Hr q Hq) as (_ & _ & _ & r & Er & Hf). exists r. split; [done|].
    unfold fresh_rb in Hf. rewrite bool_decide_eq_false_2 in Hf by lia. destruct r. unfold with_next in Hf. simpl in Hf.
    injection Hf as -> -> _ -> -> _ _. simpl. unfold data_area, sizeof_hdr, sizeof_send_data. split_and!; [done|lia|lia]. }
  assert (Hbuf : forall q a, q ∈ l -> data_area q <= a < data_area q + Z.of_nat N -> in_buffers (chunk_size 16 (Z.of_nat N) 0) l a = true).
  { intros q a Hq Ha. apply existsb_exists. exists q. split; [by apply list_elem_of_In|]. unfold in_range, chunk_size, data_area, sizeof_ring_buf, sizeof_hdr, sizeof_send_data in *.
    rewrite !bool_decide_eq_true_2 by lia. done. }
  assert (Hdum : dummy_data (usr w) + Z.of_nat N <= top (hp w)).
  { destruct (decide (dummy_data (usr w) + Z.of_nat N <= top (hp w))); [done|].
    destruct (read_bytes_has _ _ _ _ Hsil (dummy_data (usr w) + Z.of_nat N - 1)) as [b Eb]; [lia|].
    rewrite (ok_bytes _ Hok) in Eb by lia. done. }
  assert (Hfar : forall q, q ∈ l -> dummy_data (usr w) + Z.of_nat N <= data_area q).
  { intros q Hq. destruct (nr_new _ _ _ _ _ _ _ Hr q Hq) as [Hq' _]. unfold data_area, sizeof_ring_buf, sizeof_hdr, sizeof_send_data. lia. }
  split.
  { intros q q' Hq Hq' Hne. pose proof (nr_apart _ _ _ _ _ _ _ Hr q q' Hq Hq' Hne) as Ha.
    unfold chunk_size, data_area, sizeof_ring_buf, sizeof_hdr, sizeof_send_data in *. lia. }
  split; [intros q Hq; right; by apply Hfar|].
  exists [], l, 0%nat. split.
  - split; simpl; try done.
    + apply (nr_ring _ _ _ _ _ _ _ Hr).
    + intros q Hq a Ha. rewrite (nr_bytes _ _ _ _ _ _ _ Hr), (Hbuf q a Hq Ha). by eexists.
    + rewrite <- Hsil. apply read_bytes_ext. intros a Ha. rewrite (nr_bytes _ _ _ _ _ _ _ Hr).
      destruct (in_buffers _ _ _) eqn:Eb; [|done]. exfalso. apply existsb_exists in Eb as (q & Hq%list_elem_of_In & Hr').
      apply andb_true_iff in Hr' as [Hr'%bool_decide_eq_true _]. destruct (nr_new _ _ _ _ _ _ _ Hr q Hq) as [Hq' _].
      unfold sizeof_ring_buf in Hr'. lia.
    + split_and!; [lia|done|by exists 0%nat].
    + by rewrite app_nil_r, Hl.
    + exists []. split; [by exists 0%nat|]. unfold fifo_out. simpl. by rewrite Hwr, Hacc.
  - split; simpl; [by rewrite Hl|done|rewrite Hacc; constructor].
Qed.

(** C40.  From the moment the ring was made, whatever messages arrive on the
    receiver's CPort, however the controller's interrupts fall between them and
    whatever it reports, as long as a message of the right size carries its bytes
    and follows no gap as long as the free part of the ring ([fitting]): no step
    faults or fails to end; what the handlers accepted is the messages, in
    order and complete, with silence put in between; and what went to the FIFO
    is the first bytes of that, in order, with nothing lost, repeated or torn,
    at most a ring full of it still waiting. *)
Theorem i2s_plays_in_order w N n :
  idle w N -> rx_entries (usr w) = Ret n -> 0 < n < 2 ^ 32 -> (Z.to_nat n <= budget (hp w))%nat ->
  exists w0, make_ring w = Ret w0 /\
    forall es, fitting w0 es ->
      exists w' msgs, run w0 es = Ret (w', msgs) /\ padded N msgs (accepted (usr w')) /\
        exists k, Nat.divide 4 k /\ (k <= length (concat (accepted (usr w'))))%nat /\
          (length (concat (accepted (usr w'))) - k <= N * Z.to_nat n)%nat /\
          fifo_out w' = tsb_i2s_fifo_data (info w) <$> words (take k (concat (accepted (usr w')))).
Proof.
  intros Hw En Hn Hb. destruct (make_ring_good w N n Hw En Hn Hb) as (w0 & ents & E0 & Hlen & Hd1 & Hd2 & Hg).
  exists w0. split; [done|]. intros es Hf. destruct (id_pos _ _ Hw) as [HN HN2].
  destruct (play_run_ok so ents data_area N (dummy_data (usr w)) (tsb_i2s_fifo_data (info w)) HN HN2 Hd1 Hd2 ltac:(lia) es [] w0 Hg Hf)
    as (w' & ms & E1 & Hg').
  exists w', ms. split; [done|]. rewrite <- Hlen. by eapply good_stream.
Qed.

End Start.

(** ** Instances: a controller that is only its FIFO *)

Module Ex.
Definition so_base_ex : Z := 0x40000000.
#[export] Instance fifo_hw : I2sHw nat := {
  read32 h a := (h, if bool_decide (a = so_base_ex + TSB_I2S_REG_INTSTAT) && bool_decide (h <> 0%nat) then 1 else 0);
  write32 h a v := if bool_decide (a = so_base_ex + TSB_I2S_REG_LMEM00) then Nat.pred h else h;
  fifo_room h := h;
}.
#[export] Instance fifo_hw_laws : I2sHwLaws nat so_base_ex.
Proof.
  split; simpl; [done|lia|..].
  - intros h _. destruct (bool_decide (h <> 0%nat)) eqn:E1; rewrite ?andb_false_r; [|done].
    apply bool_decide_eq_true in E1. intros _. destruct h; [done|]. lia.
  - intros h _ Hh. try case_bool_decide; lia || done.
  - intros h _. try case_bool_decide; lia.
Qed.

Definition info_ex (order channel : Z) : tsb_i2s_info :=
  mk_tsb 0x27 0 0x40000100 0x40001000 so_base_ex 0x40002000 order channel 0.
Definition heap_ex : heap := mk_heap ∅ (zero_bytes ∅ 512 4) ∅ 1024 20.
Definition w_ex : world nat gb_i2s_info :=
  mk_world 3%nat [] (info_ex 4 2) heap_ex (mk_gb 0 0 0 1 4 512 1 0 0 0 [] []).
Definition msg (sample : Z) (data : list Z) : event nat := Message (mk_req (8 + Z.of_nat (length data)) sample 4 data).

Lemma w_ex_idle : idle so_base_ex w_ex 4.
Proof.
  split; try done; [|by split; [lia|]].
  split; try done; simpl; intros a Ha. by rewrite !lookup_insert_ne by lia.
Qed.

(** Runs of a few events and what reached the FIFO. *)
Definition outcome_of (es : list (event nat)) : outcome (list Z * list (list Z) * list Z) :=
  w ← make_ring w_ex; r ← run w es;
  let w := fst (r : world nat gb_i2s_info * list (list Z)) in
  Ret (fifo_out w, accepted (usr w), reports (usr w)).

(** A late message: two of silence go before it; the FIFO takes three words. *)
Example playing : outcome_of [msg 2 [1; 2; 3; 4]; msg 3 [5; 6; 7; 8]; Start; Time 1%nat; SoIrq] =
  Ret ([0; 0; 0x04030201; 0x08070605],
       [[0; 0; 0; 0]; [0; 0; 0; 0]; [1; 2; 3; 4]; [5; 6; 7; 8]; [0; 0; 0; 0]; [0; 0; 0; 0]], []).
Proof. by vm_compute. Qed.

(** A gap of more messages than the ring has entries: the message itself goes
    into the oldest entry that waits, whose ownership is passed back; nothing
    is played any more although seven messages wait. *)
Example wide_gap_stops_playing : outcome_of [msg 100 [1; 2; 3; 4]; Start; Time 9%nat; SoIrq] =
  Ret ([], replicate 8 [0; 0; 0; 0] ++ [[1; 2; 3; 4]], []).
Proof. by vm_compute. Qed.

(** A request that says it carries four bytes and carries none: what is read is
    whatever follows it in memory. *)
Example short_message_over_read : outcome_of [Message (mk_req 8 0 4 [])] = Fault.
Proof. by vm_compute. Qed.

(** The report that a CPort is unknown goes through a NULL pointer. *)
Example unknown_cport_faults :
  gb_i2s_receiver_send_data_req_handler w_ex false (mk_req 8 0 4 [1; 2; 3; 4]) = Fault.
Proof. done. Qed.

(** Big-endian 16-bit samples: a half word is swapped as a word and then cut. *)
Example big_endian_16_bits_is_silence : forall w, In w [0x12345678; 0xffffffff; 1] ->
  tsb_i2s_fifo_data (info_ex DEVICE_I2S_BYTE_ORDER_BE 2) w = 0.
Proof. intros w [<-|[<-|[<-|[]]]]; by vm_compute. Qed.

Lemma i2s_plays_in_order_witness :
  exists w0, make_ring w_ex = Ret w0 /\
    exists w' msgs, run w0 [msg 2 [1; 2; 3; 4]; Start; Time 1%nat; SoIrq] = Ret (w', msgs) /\
      padded 4 msgs (accepted (usr w')).
Proof.
  destruct (i2s_plays_in_order so_base_ex w_ex 4 8 w_ex_idle) as (w0 & E0 & Hrun); [done|lia|simpl; lia|].
  exists w0. split; [done|].
  destruct (Hrun [msg 2 [1; 2; 3; 4]; Start; Time 1%nat; SoIrq]) as (w' & msgs & E1 & Hp & _);
    [|exists w', msgs; split; [exact E1|exact Hp]].
  split; [|intros w1 m1 _; split; [exact I|]; intros w2 m2 _; split; [exact I|]; intros w3 m3 _; split; [exact I|]; intros; exact I].
  intros _.
  set (P (w : world nat gb_i2s_info) := bool_decide (Z.to_nat (msg_data_size (usr w)) = 4%nat) &&
    returns (fun w' => returns id (ring_buf_is_producers (hp w') (rx_rb (usr w')))) (fill_missing (size (rbs (hp w))) w 2)).
  assert (Ec : P w0 = true) by (apply (returns_ret P _ w0 E0); vm_compute; reflexivity).
  apply andb_true_iff in Ec as [Ea Ec]. apply bool_decide_eq_true_1 in Ea. split; [rewrite Ea; cbn; lia|].
  intros w' E1 _. cbn [sample_number] in E1. rewrite E1 in Ec. cbn [returns] in Ec.
  destruct (ring_buf_is_producers _ _) as [[]| |]; [reflexivity|discriminate Ec..].
Defined.
End Ex.

End I2s.
