(* ===== verification/Irq.v ===== *)
(** Interrupts: the lines of the controller and the table of handlers of
    [src/arch/arm/arm-v7m/irq.c], and the access to memory-mapped registers that
    drivers share.  The hardware is a parameter, a state that reads and writes
    act on.  [masked]: whether the processor takes no interrupts. *)
From S2P Require Import Prelude.
#[local] Open Scope Z_scope.

(** [read32] and [write32] at an address. *)
Class Mmio (HW : Type) := {
  read32 : HW -> Z -> HW * Z;
  write32 : HW -> Z -> Z -> HW;
}.

Module Irq.

Definition SETENA0 : Z := 0xE000E100.
Definition CLRENA0 : Z := 0xE000E180.
Definition SETPEND0 : Z := 0xE000E200.
Definition CLRPEND0 : Z := 0xE000E280.
Definition ARM_CM_NUM_EXCEPTION : Z := 16.
(** of the machine the UniPro and the I2S drivers are for *)
Definition CPU_NUM_IRQ : Z := 138.

(** A handler is a name of type [H]; what it does is its owner's. *)
Record irqs (H : Type) := mk_irqs {
  irq_global_state : Z;
  masked : bool;
  irq_state : list Z;
  irq_vector : list (H * Z);
}.
Arguments mk_irqs {H}. Arguments irq_global_state {H}. Arguments masked {H}.
Arguments irq_state {H}. Arguments irq_vector {H}.

Section Lines.
Context {HW H : Type} `{Mmio HW} (default_irq_handler : H).
Implicit Types (s : irqs H) (c : HW * irqs H).

Definition irq_disable s : irqs H :=
  mk_irqs (wrap32 (irq_global_state s + 1)) true (irq_state s) (irq_vector s).
Definition irq_enable s : irqs H :=
  let n := wrap32 (irq_global_state s - 1) in
  mk_irqs n (if bool_decide (n = 0) then false else masked s) (irq_state s) (irq_vector s).

(** [1 << (line % 32)] of the word of a line in the registers from [reg]. *)
Definition line_write (h : HW) (reg line : Z) : HW :=
  write32 h (reg + 4 * (line `div` 32)) (Z.shiftl 1 (line `mod` 32)).

(** [irq_state[line]]; an index out of the array is a fault. *)
Definition get_state s (line : Z) : outcome Z :=
  if bool_decide (line < 0) then Fault else deref (irq_state s !! Z.to_nat line).
Definition set_state s (line v : Z) : irqs H :=
  mk_irqs (irq_global_state s) (masked s) (<[Z.to_nat line := v]> (irq_state s)) (irq_vector s).

Definition irq_disable_line c (line : Z) : outcome (HW * irqs H) :=
  let '(h, s) := c in
  let s := irq_disable s in
  if bool_decide (CPU_NUM_IRQ <= line) then Ret (h, s) else
  if bool_decide (line = 255) then Ret (h, s) else
  n ← get_state s line;
  Ret (line_write h CLRENA0 line, irq_enable (set_state s line (wrap8 (n + 1)))).

(** A negative line would be a shift by a negative count. *)
Definition irq_clear (h : HW) (line : Z) : outcome HW :=
  if bool_decide (CPU_NUM_IRQ <= line) then Ret h else
  if bool_decide (line = 255) then Ret h else
  if bool_decide (line < 0) then Fault else Ret (line_write h CLRPEND0 line).
Definition irq_pend (h : HW) (line : Z) : outcome HW :=
  if bool_decide (CPU_NUM_IRQ <= line) then Ret h else
  if bool_decide (line = 255) then Ret h else
  if bool_decide (line < 0) then Fault else Ret (line_write h SETPEND0 line).

Definition irq_enable_line c (line : Z) : outcome (HW * irqs H) :=
  let '(h, s) := c in
  let s := irq_disable s in
  if bool_decide (CPU_NUM_IRQ <= line) then Ret (h, irq_enable s) else
  n ← get_state s line;
  if bool_decide (n = 0) then Ret (h, irq_enable s) else
  let s := set_state s line (n - 1) in
  Ret (if bool_decide (n - 1 = 0) then line_write h SETENA0 line else h, irq_enable s).

(** [irq_initialize] disables every line. *)
Definition irq_initialize c : outcome (HW * irqs H) :=
  foldO irq_disable_line c (Z.of_nat <$> seq 0 (Z.to_nat CPU_NUM_IRQ)).

Definition set_vector s (i : Z) (x : H * Z) : irqs H :=
  mk_irqs (irq_global_state s) (masked s) (irq_state s) (<[Z.to_nat i := x]> (irq_vector s)).

Definition irq_attach s (line : Z) (handler : H) (data : Z) : irqs H * Z :=
  if bool_decide (line < 0) then (s, - EINVAL) else
  if bool_decide (CPU_NUM_IRQ <= line) then (s, - EINVAL) else
  (set_vector s (ARM_CM_NUM_EXCEPTION + line) (handler, data), 0).
Definition irq_detach s (line : Z) : irqs H :=
  if bool_decide (line < 0) then s else
  if bool_decide (CPU_NUM_IRQ <= line) then s else
  set_vector s (ARM_CM_NUM_EXCEPTION + line) (default_irq_handler, 0).

(** [irq_get_active_line] and the common handler, on the status register. *)
Definition irq_get_active_line (psr : Z) : Z :=
  let psr := Z.land psr 255 in
  if bool_decide (psr < ARM_CM_NUM_EXCEPTION) then - 1 else psr - ARM_CM_NUM_EXCEPTION.
Definition irq_common_isr s (psr : Z) : outcome (H * Z * Z) :=
  let irq := Z.land psr 255 in
  x ← deref (irq_vector s !! Z.to_nat irq);
  Ret (fst (x : H * Z), irq - ARM_CM_NUM_EXCEPTION, snd x).

End Lines.

(** ** Lines are enabled by as many calls as disabled them *)

(** What the registers do: a line is enabled by its bit in the set registers
    and disabled by its bit in the clear registers. *)
Class Nvic (HW : Type) `{Mmio HW} := {
  enabled : HW -> Z -> bool;
  nvic_set h line l : 0 <= line < CPU_NUM_IRQ -> 0 <= l < CPU_NUM_IRQ ->
    enabled (line_write h SETENA0 line) l = bool_decide (l = line) || enabled h l;
  nvic_clear h line l : 0 <= line < CPU_NUM_IRQ -> 0 <= l < CPU_NUM_IRQ ->
    enabled (line_write h CLRENA0 line) l = negb (bool_decide (l = line)) && enabled h l;
}.

Section Nesting.
Context {HW H : Type} `{Nvic HW}.
Implicit Types (s : irqs H) (c : HW * irqs H).

(** The counts of the lines are [d], the registers agree with them. *)
Record counts c (d : Z -> nat) : Prop := {
  ct_len : length (irq_state (snd c)) = Z.to_nat CPU_NUM_IRQ;
  ct_state l : 0 <= l < CPU_NUM_IRQ -> irq_state (snd c) !! Z.to_nat l = Some (Z.of_nat (d l));
  ct_line l : 0 <= l < CPU_NUM_IRQ -> enabled (fst c) l = bool_decide (d l = 0%nat);
}.

(** Masking nests: a section with the interrupts masked leaves the rest alone. *)
Definition unmasked s : Prop := irq_global_state s = 0 /\ masked s = false.

Lemma enable_disable s (v : list Z) :
  unmasked s ->
  irq_enable (mk_irqs (irq_global_state (irq_disable s)) (masked (irq_disable s)) v (irq_vector (irq_disable s))) =
  mk_irqs (irq_global_state s) (masked s) v (irq_vector s).
Proof. destruct s as [g m st vec]. intros [Hg Hm]; simpl in *; subst. reflexivity. Qed.

Lemma enable_disable_same s : unmasked s -> irq_enable (irq_disable s) = s.
Proof. destruct s as [g m st vec]. intros [Hg Hm]; simpl in *; subst. reflexivity. Qed.

(** [d] with line [l] at [n]. *)
Definition upd (d : Z -> nat) (l : Z) (n : nat) : Z -> nat := fun x => if bool_decide (x = l) then n else d x.

Lemma get_state_ok h s d line :
  counts (h, s) d -> 0 <= line < CPU_NUM_IRQ -> get_state (irq_disable s) line = Ret (Z.of_nat (d line)).
Proof.
  intros Hc Hl. unfold get_state. rewrite bool_decide_false by lia. cbn [irq_disable irq_state].
  pose proof (ct_state _ _ Hc line Hl) as E. simpl in E. by rewrite E.
Qed.

Lemma counts_set c d h' line n :
  counts c d -> 0 <= line < CPU_NUM_IRQ ->
  (forall l, 0 <= l < CPU_NUM_IRQ -> enabled h' l = bool_decide (upd d line n l = 0%nat)) ->
  counts (h', mk_irqs (irq_global_state (snd c)) (masked (snd c))
                (<[Z.to_nat line := Z.of_nat n]> (irq_state (snd c))) (irq_vector (snd c))) (upd d line n).
Proof.
  intros [Hlen Hst _] Hl He. split; simpl; [by rewrite length_insert| |done].
  intros l Hl'. unfold upd. case_bool_decide as E; [subst l; apply list_lookup_insert_eq; lia|].
  rewrite list_lookup_insert_ne by lia. by apply Hst.
Qed.

Lemma counts_ext c d d' : counts c d -> (forall l, d' l = d l) -> counts c d'.
Proof. intros [Hlen Hst Hli] He. split; [done|..]; intros l Hl; rewrite He; auto. Qed.

Lemma irq_disable_line_ok c d line :
  counts c d -> unmasked (snd c) -> 0 <= line < CPU_NUM_IRQ -> (d line < 255)%nat ->
  exists c', irq_disable_line c line = Ret c' /\ counts c' (upd d line (S (d line))) /\ unmasked (snd c') /\
    irq_vector (snd c') = irq_vector (snd c).
Proof.
  destruct c as [h s]. intros Hc Hu Hl Hd. unfold irq_disable_line.
  rewrite bool_decide_false by lia. rewrite bool_decide_false by (unfold CPU_NUM_IRQ in *; lia).
  rewrite (get_state_ok h s d line Hc Hl). cbn [mbind outcome_bind].
  eexists. split; [reflexivity|]. unfold set_state. rewrite (enable_disable s _ Hu).
  split; [|split; [exact Hu|done]].
  rewrite wrap8_small by lia. replace (Z.of_nat (d line) + 1) with (Z.of_nat (S (d line))) by lia.
  apply (counts_set (h, s)); [done..|]. intros l Hl'. rewrite nvic_clear by done.
  pose proof (ct_line _ _ Hc l Hl') as He. simpl in He. rewrite He. unfold upd. simpl.
  destruct (bool_decide (l = line)); done.
Qed.

Lemma irq_enable_line_ok c d line :
  counts c d -> unmasked (snd c) -> 0 <= line < CPU_NUM_IRQ ->
  exists c', irq_enable_line c line = Ret c' /\ counts c' (upd d line (pred (d line))) /\ unmasked (snd c') /\
    irq_vector (snd c') = irq_vector (snd c).
Proof.
  destruct c as [h s]. intros Hc Hu Hl. unfold irq_enable_line. rewrite bool_decide_false by lia.
  rewrite (get_state_ok h s d line Hc Hl). cbn [mbind outcome_bind].
  case_bool_decide as E.
  - eexists. split; [reflexivity|]. rewrite (enable_disable_same s Hu).
    split; [|split; [exact Hu|done]]. apply (counts_ext _ d); [done|]. intros l. unfold upd.
    case_bool_decide; subst; lia.
  - eexists. split; [reflexivity|]. unfold set_state. rewrite (enable_disable s _ Hu).
    split; [|split; [exact Hu|done]].
    replace (Z.of_nat (d line) - 1) with (Z.of_nat (pred (d line))) by lia.
    apply (counts_set (h, s)); [done..|]. intros l Hl'. pose proof (ct_line _ _ Hc l Hl') as He. simpl in He.
    unfold upd. destruct (decide (Z.of_nat (pred (d line)) = 0)) as [E1|E1].
    + rewrite (bool_decide_true (Z.of_nat (pred (d line)) = 0)), nvic_set by done. rewrite He.
      destruct (bool_decide_reflect (l = line)) as [->|Hn]; [|done]. cbn [orb]. by rewrite bool_decide_true by lia.
    + rewrite (bool_decide_false (Z.of_nat (pred (d line)) = 0)) by done. rewrite He.
      destruct (bool_decide_reflect (l = line)) as [->|Hn]; [|done]. by rewrite !bool_decide_false by lia.
Qed.

(** What the callers do.  [depth]: how deep a line is disabled after a
    sequence of calls, when it was [n] deep. *)
Inductive call := Disable (line : Z) | Enable (line : Z).
Definition exec c (k : call) : outcome (HW * irqs H) :=
  match k with Disable l => irq_disable_line c l | Enable l => irq_enable_line c l end.
Definition line_of (k : call) : Z := match k with Disable l | Enable l => l end.
Definition deeper (d : Z -> nat) (k : call) : Z -> nat :=
  match k with Disable l => upd d l (S (d l)) | Enable l => upd d l (pred (d l)) end.
Definition depth (d : Z -> nat) (ks : list call) : Z -> nat := foldl deeper d ks.

(** No line goes more than 255 deep. *)
Fixpoint shallow (d : Z -> nat) (ks : list call) : Prop :=
  match ks with [] => True | k :: ks => (deeper d k (line_of k) <= 255)%nat /\ shallow (deeper d k) ks end.

Lemma call_ok c d k :
  counts c d -> unmasked (snd c) -> 0 <= line_of k < CPU_NUM_IRQ -> (deeper d k (line_of k) <= 255)%nat ->
  exists c', exec c k = Ret c' /\ counts c' (deeper d k) /\ unmasked (snd c') /\ irq_vector (snd c') = irq_vector (snd c).
Proof.
  intros Hc Hu Hl Hd. destruct k as [l|l]; simpl in *; [|by apply irq_enable_line_ok].
  apply irq_disable_line_ok; [done..|]. unfold upd in Hd. rewrite bool_decide_true in Hd by done. lia.
Qed.

Lemma execs_ok c d ks :
  counts c d -> unmasked (snd c) -> Forall (fun k => 0 <= line_of k < CPU_NUM_IRQ) ks -> shallow d ks ->
  exists c', foldO exec c ks = Ret c' /\ counts c' (depth d ks) /\ unmasked (snd c') /\ irq_vector (snd c') = irq_vector (snd c).
Proof.
  revert c d. induction ks as [|k ks IH]; intros c d Hc Hu Hf Hs; [by exists c|].
  inversion Hf; subst. destruct Hs as [Hd Hs]. destruct (call_ok c d k) as (c1 & E & Hc1 & Hu1 & Hv); [done..|].
  cbn [foldO]. rewrite E. destruct (IH c1 (deeper d k)) as (c' & E' & ? & ? & ?); [done..|].
  exists c'. split_and!; [done..|congruence].
Qed.

(** At power-on: all counts are 0, whatever the lines are. *)
Record fresh c : Prop := {
  fr_state : irq_state (snd c) = replicate (Z.to_nat CPU_NUM_IRQ) 0;
  fr_mask : unmasked (snd c);
}.

Lemma irq_initialize_from c (l : list Z) d :
  length (irq_state (snd c)) = Z.to_nat CPU_NUM_IRQ -> unmasked (snd c) ->
  (forall x, x ∈ l -> 0 <= x < CPU_NUM_IRQ) -> NoDup l ->
  (forall x, 0 <= x < CPU_NUM_IRQ -> irq_state (snd c) !! Z.to_nat x = Some (Z.of_nat (d x))) ->
  (forall x, x ∈ l -> d x = 0%nat) ->
  exists c', foldO irq_disable_line c l = Ret c' /\ unmasked (snd c') /\ irq_vector (snd c') = irq_vector (snd c) /\
    length (irq_state (snd c')) = Z.to_nat CPU_NUM_IRQ /\
    forall x, 0 <= x < CPU_NUM_IRQ ->
      irq_state (snd c') !! Z.to_nat x = Some (if bool_decide (x ∈ l) then 1 else Z.of_nat (d x)) /\
      enabled (fst c') x = negb (bool_decide (x ∈ l)) && enabled (fst c) x.
Proof.
  revert c d. induction l as [|y l IH]; intros [h s] d Hlen Hu Hr Hnd Hs Hz; simpl in *.
  - exists (h, s). split_and!; [done..|]. intros x Hx. by split; [apply Hs|].
  - apply NoDup_cons in Hnd as [Hy Hnd]. assert (Hyr : 0 <= y < CPU_NUM_IRQ) by (apply Hr; set_solver).
    unfold irq_disable_line at 1. rewrite bool_decide_false by lia. rewrite bool_decide_false by (unfold CPU_NUM_IRQ in *; lia).
    unfold get_state at 1. rewrite bool_decide_false by lia. cbn [irq_disable irq_state]. rewrite (Hs y Hyr).
    cbn [mbind outcome_bind deref]. rewrite (Hz y) by set_solver. unfold set_state. rewrite (enable_disable s _ Hu).
    destruct (IH (line_write h CLRENA0 y, mk_irqs (irq_global_state s) (masked s)
        (<[Z.to_nat y := wrap8 (Z.of_nat 0 + 1)]> (irq_state s)) (irq_vector s)) (upd d y 1))
      as (c' & E & Hu' & Hv & Hlen' & Hx); simpl.
    + by rewrite length_insert.
    + done.
    + set_solver.
    + done.
    + intros x Hx. unfold upd. case_bool_decide as E; [subst; apply list_lookup_insert_eq; lia|].
      rewrite list_lookup_insert_ne by lia. by apply Hs.
    + intros x Hx. unfold upd. rewrite bool_decide_false by set_solver. apply Hz. set_solver.
    + exists c'. split_and!; [done..|]. intros x Hxr. destruct (Hx x Hxr) as [E1 E2]. simpl in E2.
      rewrite E1, E2. unfold upd. rewrite nvic_clear by done.
      destruct (bool_decide_reflect (x = y)) as [->|Hn].
      * by rewrite (bool_decide_true (y ∈ y :: l)), (bool_decide_false (y ∈ l)) by set_solver.
      * destruct (decide (x ∈ l)); [by rewrite !bool_decide_true by set_solver|by rewrite !bool_decide_false by set_solver].
Qed.

Lemma irq_initialize_ok c :
  fresh c -> exists c', irq_initialize c = Ret c' /\ counts c' (fun _ => 1%nat) /\ unmasked (snd c') /\
    irq_vector (snd c') = irq_vector (snd c).
Proof.
  intros [Hs Hu].
  destruct (irq_initialize_from c (Z.of_nat <$> seq 0 (Z.to_nat CPU_NUM_IRQ)) (fun _ => 0%nat))
    as (c' & E & Hu' & Hv & Hlen & Hx).
  - rewrite Hs. apply length_replicate.
  - done.
  - intros x (n & -> & Hn%elem_of_seq)%list_elem_of_fmap. lia.
  - apply NoDup_fmap_2; [intros ?? ?; lia|apply NoDup_seq].
  - intros x Hx. rewrite Hs. apply lookup_replicate. unfold CPU_NUM_IRQ in *. lia.
  - done.
  - assert (Hin : forall l, 0 <= l < CPU_NUM_IRQ -> l ∈ (Z.of_nat <$> seq 0 (Z.to_nat CPU_NUM_IRQ))).
    { intros l Hl. apply list_elem_of_fmap. exists (Z.to_nat l). split; [lia|]. apply elem_of_seq. lia. }
    exists c'. split_and!; [exact E| |done..]. split; [done|..]; intros l Hl; destruct (Hx l Hl) as [E1 E2].
    + rewrite E1. by rewrite bool_decide_true by auto.
    + rewrite E2. by rewrite bool_decide_true by auto.
Qed.

(** From [irq_initialize] on, under any sequence of [irq_disable_line] and
    [irq_enable_line] that takes no line more than 255 deep, no call faults,
    interrupts are unmasked after each, the handlers stay what they were, and a
    line is enabled exactly when it was enabled as often as it was disabled. *)
Theorem lines_nest c ks :
  fresh c -> Forall (fun k => 0 <= line_of k < CPU_NUM_IRQ) ks -> shallow (fun _ => 1%nat) ks ->
  exists c', (c1 ← irq_initialize c; foldO exec c1 ks) = Ret c' /\ unmasked (snd c') /\
    irq_vector (snd c') = irq_vector (snd c) /\
    forall line, 0 <= line < CPU_NUM_IRQ ->
      enabled (fst c') line = bool_decide (depth (fun _ => 1%nat) ks line = 0%nat).
Proof.
  intros Hf Hl Hs. destruct (irq_initialize_ok c Hf) as (c1 & E1 & Hc1 & Hu1 & Hv1).
  destruct (execs_ok c1 _ ks Hc1 Hu1 Hl Hs) as (c' & E & Hc & Hu & Hv).
  exists c'. rewrite E1. cbn [mbind outcome_bind]. split_and!; [done|done|congruence|].
  intros line Hline. by apply (ct_line _ _ Hc).
Qed.

End Nesting.

(** ** A concrete controller *)

Module Ex.
(** The enabled lines as the bits of a number. *)
Definition nvic : Type := Z.
Definition in_regs (reg a : Z) : bool := bool_decide (reg <= a) && bool_decide (a < reg + 32).
#[export] Instance nvic_mmio : Mmio nvic := {|
  read32 h a := (h, 0);
  write32 h a v :=
    if in_regs SETENA0 a then Z.lor h (Z.shiftl v (32 * ((a - SETENA0) `div` 4)))
    else if in_regs CLRENA0 a then Z.ldiff h (Z.shiftl v (32 * ((a - CLRENA0) `div` 4))) else h;
|}.

Lemma in_regs_line reg line : 0 <= line < CPU_NUM_IRQ -> in_regs reg (reg + 4 * (line `div` 32)) = true.
Proof.
  unfold CPU_NUM_IRQ, in_regs. intros. pose proof (Z.div_pos line 32). pose proof (Z.div_lt_upper_bound line 32 5).
  by rewrite !bool_decide_true by lia.
Qed.

(** The bit of a line in the number. *)
Lemma line_bit reg line l :
  0 <= line -> 0 <= l ->
  Z.testbit (Z.shiftl (Z.shiftl 1 (line `mod` 32)) (32 * ((reg + 4 * (line `div` 32) - reg) `div` 4))) l = bool_decide (l = line).
Proof.
  intros Hl Hl'. replace (reg + 4 * (line `div` 32) - reg) with ((line `div` 32) * 4) by lia.
  rewrite Z.div_mul, Z.shiftl_shiftl by (try apply Z.mod_pos_bound; lia).
  rewrite <- (Z.add_comm (32 * _)), <- Z.div_mod, Z.shiftl_1_l by lia.
  case_bool_decide as E; [subst; by apply Z.pow2_bits_true|]. apply Z.pow2_bits_false. lia.
Qed.

#[export] Program Instance nvic_ok : Nvic nvic := {| enabled h l := Z.testbit h l |}.
Next Obligation.
  intros h line l Hl Hl'. unfold line_write, write32, nvic_mmio. rewrite in_regs_line by done.
  rewrite Z.lor_spec, line_bit by lia. apply orb_comm.
Qed.
Next Obligation.
  intros h line l Hl Hl'. unfold line_write, write32, nvic_mmio.
  assert (E : in_regs SETENA0 (CLRENA0 + 4 * (line `div` 32)) = false).
  { unfold in_regs, SETENA0, CLRENA0. pose proof (Z.div_pos line 32). rewrite (bool_decide_false (_ < _)) by lia. apply andb_false_r. }
  rewrite E, in_regs_line by done. rewrite Z.ldiff_spec, line_bit by lia. apply andb_comm.
Qed.

Definition cold : nvic * irqs nat :=
  (0, mk_irqs 0 false (replicate (Z.to_nat CPU_NUM_IRQ) 0) (replicate (Z.to_nat (CPU_NUM_IRQ + ARM_CM_NUM_EXCEPTION)) (0%nat, 0))).

(** Line 40 disabled once more than line 41. *)
Definition calls : list call := [Enable 41; Disable 40; Enable 40; Enable 40; Enable 5; Disable 40].

Lemma lines_nest_witness :
  fresh cold /\ exists c', (c1 ← irq_initialize cold; foldO exec c1 calls) = Ret c' /\
    enabled (fst c') 41 = true /\ enabled (fst c') 40 = false /\ enabled (fst c') 7 = false.
Proof.
  assert (Hf : fresh cold) by (split; [reflexivity|split; reflexivity]).
  split; [exact Hf|].
  destruct (lines_nest cold calls Hf) as (c' & E & _ & _ & Hl).
  - repeat constructor; vm_compute; congruence.
  - repeat (split; [vm_compute; lia|]). exact I.
  - exists c'. split; [exact E|]. rewrite !Hl by (vm_compute; split; congruence). vm_compute. auto.
Defined.

(** ** Behaviours the code does not mean to have *)

(** A line out of range leaves the processor with its interrupts masked. *)
Example disable_bad_line_masks :
  match irq_disable_line cold 138 with Ret (_, s) => masked s | _ => false end = true.
Proof. vm_compute. reflexivity. Qed.

(** The count is a byte: 256 levels are as none, the line stays disabled. *)
Example disable_256_deep :
  match (c1 ← foldO exec cold (replicate 256 (Disable 3)); foldO exec c1 (replicate 256 (Enable 3))) with
  | Ret (h, s) => (enabled h 3, irq_state s !! 3%nat) | _ => (true, None) end = (false, Some 0).
Proof. vm_compute. reflexivity. Qed.
End Ex.

End Irq.
