(* ===== verification/Unipro.v ===== *)
(** UniPro: the CPorts of [src/drivers/unipro/core.c] and the Toshiba bridge of
    [src/drivers/unipro/unipro-tsb-es2.c], with its transmit worker.
    The bridge is a parameter, a state that register accesses and stores into
    the transmit buffers act on; what is stored there is recorded in order.  The
    memory allocator is used through the [Memory] interface, and the buffers it
    returns live at addresses.  The bytes of a message are its caller's, who
    leaves them alone until the completion callback.  The queue of a CPort is
    the sequence of its buffers ([DList]).
    A section with the interrupts masked is atomic, and so is one call of
    [tsb_unipro_send_tx_buffer]: what it shares with others outside of its masked
    sections is the head of a queue, which only the worker removes. *)
From S2P Require Import Prelude Memory Irq.
#[local] Open Scope Z_scope.
Module Unipro.
Import Irq.Irq.

(** ** Registers *)

Definition CPORT_BUF_SIZE : Z := 1024.
Definition CPORT_TX_BUF_BASE : Z := 0x50000000.
Definition CPORT_TX_BUF_SIZE : Z := 0x20000.
Definition CPB_TX_BUFFER_SPACE_MASK : Z := 0x7F.
Definition CPB_TX_BUFFER_SPACE_OFFSET_MASK : Z := CPB_TX_BUFFER_SPACE_MASK.
Definition TRANSFER_MODE : Z := 2.
Definition TRANSFER_MODE_2_CTRL_0 : Z := 0xAAAAAAAA.
Definition TRANSFER_MODE_2_CTRL_1 : Z := 0xAAAAAAA5.
Definition TRANSFER_MODE_2_CTRL_2 : Z := 0x00AAAAAA.
Definition TSB_MPHY_MAP : Z := 0x7F.
Definition TSB_MPHY_MAP_TSB_REGISTER_1 : Z := 0x01.
Definition TSB_MPHY_MAP_NORMAL : Z := 0x00.
Definition TSB_MPHY_MAP_TSB_REGISTER_2 : Z := 0x81.
Definition TSB_MAILBOX : Z := 0xa000.
Definition TSB_MAIL_RESET : Z := 0.
Definition TSB_INTERRUPTENABLE : Z := 0xd080.
Definition TSB_INTERRUPTSTATUS : Z := 0xd081.
Definition TSB_INTERRUPTSTATUS_MAILBOX : Z := Z.shiftl 1 15.

Definition CPORT_STATUS_0 : Z := 0x000.
Definition CPORT_STATUS_CONNECTED : Z := 0.
Definition CPORT_STATUS_UNCONNECTED : Z := 1.
Definition UNIPRO_INT_EN : Z := 0x200.
Definition AHM_RX_EOM_INT_EN_0 : Z := 0x23C.
Definition AHM_RX_EOM_INT_BEF_0 : Z := 0x33C.
Definition AHM_RX_EOM_INT_EN_REG (id : Z) : Z := AHM_RX_EOM_INT_EN_0 + (id `div` 16) * 4.
Definition AHM_RX_EOM_INT_EN (id : Z) : Z := Z.shiftl 1 (2 * (id `mod` 16)).
Definition AHM_RX_EOM_INT_BEF_REG (id : Z) : Z := AHM_RX_EOM_INT_BEF_0 + (id `div` 16) * 4.
Definition AHM_RX_EOM_INT_BEF (id : Z) : Z := Z.shiftl 1 (2 * (id `mod` 16)).
Definition A2D_ATTRACS_INT_BEF : Z := 0x338.
Definition A2D_ATTRACS_MSTR_CTRL : Z := 0x500.
Definition REG_ATTRACS_UPD : Z := 1.
Definition REG_ATTRACS_CNT (x : Z) : Z := Z.shiftl x 16.
Definition A2D_ATTRACS_CTRL_00 : Z := 0x504.
Definition REG_ATTRACS_CTRL_PEERENA (x : bool) : Z := Z.shiftl (Z.b2z x) 29.
Definition REG_ATTRACS_CTRL_SELECT (x : Z) : Z := Z.shiftl (Z.land x 0x7FF) 16.
Definition REG_ATTRACS_CTRL_WRITE (x : bool) : Z := Z.shiftl (Z.b2z x) 28.
Definition A2D_ATTRACS_DATA_CTRL_00 : Z := 0x550.
Definition A2D_ATTRACS_STS_00 : Z := 0x590.
Definition A2D_ATTRACS_DATA_STS_00 : Z := 0x5A0.
Definition AHM_MODE_CTRL_0 : Z := 0x610.
Definition AHM_MODE_CTRL_1 : Z := 0x614.
Definition AHM_MODE_CTRL_2 : Z := 0x618.
Definition CPB_RX_E2EFC_EN_0 : Z := 0x624.
Definition CPB_RX_E2EFC_EN_1 : Z := 0x628.
Definition AHM_ADDRESS_00 : Z := 0x800.
Definition CPB_TX_BUFFER_SPACE_REG (id : Z) : Z := 0x1000 + id * 4.
Definition REG_TX_BUFFER_SPACE_OFFSET_REG (id : Z) : Z := 0x1100 + id * 4.
Definition REG_RX_PAUSE_SIZE_00 : Z := 0x1200.
Definition CPB_RX_TRANSFERRED_DATA_SIZE_00 : Z := 0x1300.

(** [x << n] of an [int] by a register of the processor, which gives 0 from 32
    on. *)
Definition lsl (x n : Z) : Z := if bool_decide (n < 32) then wrap32 (Z.shiftl x n) else 0.

(** ** State *)

(** Stores of bytes; how many reads of its status an access to an attribute
    lasts. *)
Class UniproHw (HW : Type) `{Mmio HW} := {
  store : HW -> Z -> list Z -> HW;
  attr_wait : HW -> nat;
}.

(** [callback], [driver]: 0 is NULL. *)
Record tsb_unipro_buffer := mk_buf {
  callback : Z;
  priv : Z;
  som : bool;
  byte_sent : Z;
  len : Z;
  data : list Z;
}.
Definition sizeof_buffer : Z := 32.

Record unipro_cport := mk_cport {
  is_connected : bool;
  driver : Z;
  tx_fifo : list Z;
}.

Inductive product := TSB_UNIPRO_APBRIDGE | TSB_UNIPRO_GPBRIDGE | TSB_UNIPRO_OTHER.
#[export] Instance product_eq_dec : EqDecision product.
Proof. solve_decision. Defined.
Record tsb_unipro_pdata := mk_pdata { product_id : product; cport_irq_base : Z; debug_0720 : Z }.

Inductive handler := default_irq_handler | On_rx_eom | On_unipro.

(** [written]: the stores into the transmit buffers; [calls]: the completion
    callbacks with what they were given: status, bytes, private data.
    [usr]: the state of the CPort drivers. *)
Record world (HW M E : Type) := mk_world {
  hw : HW;
  irq : irqs handler;
  mem : M;
  bufs : gmap Z tsb_unipro_buffer;
  cports : list unipro_cport;
  tx_fifo_lock : nat;
  written : list (Z * list Z);
  calls : list (Z * Z * list Z * Z);
  usr : E;
}.
Arguments mk_world {HW M E}. Arguments hw {HW M E}. Arguments irq {HW M E}. Arguments mem {HW M E}.
Arguments bufs {HW M E}. Arguments cports {HW M E}. Arguments tx_fifo_lock {HW M E}.
Arguments written {HW M E}. Arguments calls {HW M E}. Arguments usr {HW M E}.

(** What CPort drivers are: [get_buffer] and [rx_handler], which may be NULL. *)
Record unipro_cport_driver (E : Type) := mk_driver {
  get_buffer : E -> E * Z;
  rx_handler : option (Z -> Z -> Z -> E -> E);
}.
Arguments mk_driver {E}. Arguments get_buffer {E}. Arguments rx_handler {E}.

Section Bridge.
Context {HW M E : Type} `{UniproHw HW} `{MemOps M}.
Context (reg_base : Z) (pdata : tsb_unipro_pdata) (drivers : Z -> unipro_cport_driver E).
Implicit Types (w : world HW M E) (h : HW).

Definition set_hw w h : world HW M E :=
  mk_world h (irq w) (mem w) (bufs w) (cports w) (tx_fifo_lock w) (written w) (calls w) (usr w).
Definition set_irq w q : world HW M E :=
  mk_world (hw w) q (mem w) (bufs w) (cports w) (tx_fifo_lock w) (written w) (calls w) (usr w).
Definition set_bufs w b : world HW M E :=
  mk_world (hw w) (irq w) (mem w) b (cports w) (tx_fifo_lock w) (written w) (calls w) (usr w).
Definition set_mem w m : world HW M E :=
  mk_world (hw w) (irq w) m (bufs w) (cports w) (tx_fifo_lock w) (written w) (calls w) (usr w).
Definition set_cports w l : world HW M E :=
  mk_world (hw w) (irq w) (mem w) (bufs w) l (tx_fifo_lock w) (written w) (calls w) (usr w).
Definition set_lock w n : world HW M E :=
  mk_world (hw w) (irq w) (mem w) (bufs w) (cports w) n (written w) (calls w) (usr w).
Definition set_calls w l : world HW M E :=
  mk_world (hw w) (irq w) (mem w) (bufs w) (cports w) (tx_fifo_lock w) (written w) l (usr w).
Definition set_usr w u : world HW M E :=
  mk_world (hw w) (irq w) (mem w) (bufs w) (cports w) (tx_fifo_lock w) (written w) (calls w) u.

(** [&device->cports[i]]; an index out of the array is a fault. *)
Definition get_cport w (i : nat) : outcome unipro_cport := deref (cports w !! i).
Definition put_cport w (i : nat) (c : unipro_cport) : world HW M E := set_cports w (<[i := c]> (cports w)).
Definition with_fifo (c : unipro_cport) (l : list Z) : unipro_cport := mk_cport (is_connected c) (driver c) l.
Definition with_driver (c : unipro_cport) (d : Z) : unipro_cport := mk_cport (is_connected c) d (tx_fifo c).

(** ** Registers and attributes *)

Definition tsb_unipro_read h (offset : Z) : HW * Z := read32 h (reg_base + offset).
Definition tsb_unipro_write h (offset v : Z) : HW := write32 h (reg_base + offset) v.

(** [while (!read(A2D_ATTRACS_INT_BEF));] *)
Fixpoint attr_poll (n : nat) h : outcome HW :=
  let '(h, v) := tsb_unipro_read h A2D_ATTRACS_INT_BEF in
  if bool_decide (v <> 0) then Ret h else
  match n with O => Hang | S n => attr_poll n h end.

(** Returns 0, the value read (the one given when writing) and, where the caller
    asks for it ([code]), the result code. *)
Definition tsb_unipro_attr_access h (attr val selector : Z) (peer write code : bool) : outcome (HW * Z * Z) :=
  let ctrl := Z.lor (Z.lor (Z.lor (REG_ATTRACS_CTRL_PEERENA peer) (REG_ATTRACS_CTRL_SELECT selector))
                           (REG_ATTRACS_CTRL_WRITE write)) attr in
  let h := tsb_unipro_write h A2D_ATTRACS_CTRL_00 ctrl in
  let h := if write then tsb_unipro_write h A2D_ATTRACS_DATA_CTRL_00 val else h in
  let h := tsb_unipro_write h A2D_ATTRACS_MSTR_CTRL (Z.lor (REG_ATTRACS_CNT 1) REG_ATTRACS_UPD) in
  h ← attr_poll (attr_wait h) h;
  let h := tsb_unipro_write h A2D_ATTRACS_INT_BEF 1 in
  let '(h, result_code) := if code then tsb_unipro_read h A2D_ATTRACS_STS_00 else (h, 0) in
  let '(h, v) := if write then (h, val) else tsb_unipro_read h A2D_ATTRACS_DATA_STS_00 in
  Ret (h, v, result_code).

Definition unipro_get_tx_free_buffer_space h (i : nat) : HW * Z :=
  let '(h, tx_buf_space) := tsb_unipro_read h (CPB_TX_BUFFER_SPACE_REG (Z.of_nat i)) in
  let '(h, tx_buf_space_offset) := tsb_unipro_read h (REG_TX_BUFFER_SPACE_OFFSET_REG (Z.of_nat i)) in
  let tx_space := 8 * Z.land tx_buf_space CPB_TX_BUFFER_SPACE_MASK in
  (h, wrap16 (wrap32 (tx_space - 8 * Z.land tx_buf_space_offset CPB_TX_BUFFER_SPACE_OFFSET_MASK))).

(** The same on the world. *)
Definition reg_read w (offset : Z) : world HW M E * Z :=
  let '(h, v) := tsb_unipro_read (hw w) offset in (set_hw w h, v).
Definition reg_write w (offset v : Z) : world HW M E := set_hw w (tsb_unipro_write (hw w) offset v).
Definition attr_access w attr val selector peer write code : outcome (world HW M E * Z * Z) :=
  r ← tsb_unipro_attr_access (hw w) attr val selector peer write code;
  let '(h, v, result_code) := (r : HW * Z * Z) in Ret (set_hw w h, v, result_code).
Definition tsb_unipro_local_attr_read w attr selector code := attr_access w attr 0 selector false false code.
Definition tsb_unipro_local_attr_write w attr val selector code := attr_access w attr val selector false true code.
Definition tsb_unipro_peer_attr_read w attr selector code := attr_access w attr 0 selector true false code.
Definition tsb_unipro_peer_attr_write w attr val selector code := attr_access w attr val selector true true code.

(** ** Sending *)

Definition cportid_to_tx_buffer (i : nat) : Z := wrap32 (CPORT_TX_BUF_BASE + CPORT_TX_BUF_SIZE * Z.of_nat i).
Definition store_at w (a : Z) (l : list Z) : world HW M E :=
  mk_world (store (hw w) a l) (irq w) (mem w) (bufs w) (cports w) (tx_fifo_lock w) (written w ++ [(a, l)]) (calls w) (usr w).
Definition unipro_set_eom_flag w (i : nat) : world HW M E :=
  store_at w (cportid_to_tx_buffer i + CPORT_TX_BUF_SIZE - 1) [1].

(** [buf]: what there is to read at the pointer. *)
Definition _tsb_unipro_send w (i : nat) (buf : list Z) (len : Z) (som : bool) : outcome (world HW M E * Z) :=
  c ← get_cport w i;
  if negb (is_connected c) then Ret (w, - EPIPE) else
  let tx_buf := cportid_to_tx_buffer i + (if som then 0 else 4) in
  let '(h, count) := unipro_get_tx_free_buffer_space (hw w) i in
  let w := set_hw w h in
  if bool_decide (count = 0) then Ret (w, 0) else
  let count := if bool_decide (len < count) then len else count in
  if bool_decide (Z.of_nat (length buf) < count) then Fault else
  Ret (store_at w tx_buf (take (Z.to_nat count) buf), count).

(** The [while] loop of [tsb_unipro_send], up to [n] rounds. *)
Fixpoint send_loop (n : nat) w (i : nat) (buf : list Z) (len sent : Z) (som : bool) : outcome (world HW M E * Z) :=
  if bool_decide (len <= sent) then Ret (w, sent) else
  match n with
  | O => Hang
  | S n =>
      r ← _tsb_unipro_send w i (drop (Z.to_nat sent) buf) (len - sent) som;
      let '(w, retval) := (r : world HW M E * Z) in
      if bool_decide (retval < 0) then Ret (w, retval) else
      send_loop n w i buf len (sent + retval) (if bool_decide (retval <> 0) then false else som)
  end.
(** A negative result of the loop is the error it returned with. *)
Definition tsb_unipro_send (n : nat) w (i : nat) (buf : list Z) (len : Z) : outcome (world HW M E * Z) :=
  r ← send_loop n w i buf len 0 true;
  let '(w, sent) := (r : world HW M E * Z) in
  if bool_decide (sent < 0) then Ret (w, sent) else Ret (unipro_set_eom_flag w i, sent).

(** [tsb_unipro_send_async] up to the end of its section with the interrupts
    masked; its [semaphore_up] comes after it, with the interrupts enabled. *)
Definition queue_tx_buffer w (i : nat) (buf : list Z) (len cb user_priv : Z) : outcome (world HW M E * Z) :=
  c ← get_cport w i;
  if negb (is_connected c) then Ret (w, - EPIPE) else
  r ← mem_kmalloc (mem w) sizeof_buffer 0;
  let '(m, buffer) := (r : M * Z) in
  let w := set_mem w m in
  if bool_decide (buffer = 0) then Ret (w, - ENOMEM) else
  let w := set_bufs w (<[buffer := mk_buf cb user_priv true 0 (sint32 len) buf]> (bufs w)) in
  Ret (put_cport w i (with_fifo c (tx_fifo c ++ [buffer])), 0).
Definition tx_semaphore_up w : world HW M E := set_lock w (S (tx_fifo_lock w)).
Definition tsb_unipro_send_async w (i : nat) (buf : list Z) (len cb user_priv : Z) : outcome (world HW M E * Z) :=
  r ← queue_tx_buffer w i buf len cb user_priv;
  let '(w, ret) := (r : world HW M E * Z) in
  if bool_decide (ret = 0) then Ret (tx_semaphore_up w, 0) else Ret (w, ret).

(** [list_del] of a buffer, from the queue that has it. *)
Definition list_del w (buffer : Z) : world HW M E :=
  set_cports w ((fun c => with_fifo c (filter (fun p => p <> buffer) (tx_fifo c))) <$> cports w).

Definition unipro_dequeue_tx_buffer w (buffer status : Z) : outcome (world HW M E) :=
  if bool_decide (buffer = 0) then Ret w else
  b ← deref (bufs w !! buffer);
  let w := list_del w buffer in
  let w := if bool_decide (callback b = 0) then w
           else set_calls w (calls w ++ [(callback b, status, data b, priv b)]) in
  m ← mem_kfree (mem w) buffer;
  Ret (set_bufs (set_mem w m) (delete buffer (bufs w))).

Definition tsb_unipro_send_tx_buffer w (i : nat) : outcome (world HW M E * Z) :=
  c ← get_cport w i;
  match tx_fifo c with
  | [] => Ret (w, 0)
  | buffer :: _ =>
      b ← deref (bufs w !! buffer);
      r ← _tsb_unipro_send w i (drop (Z.to_nat (byte_sent b)) (data b)) (wrap32 (len b - byte_sent b)) (som b);
      let '(w, retval) := (r : world HW M E * Z) in
      if bool_decide (retval < 0) then w ← unipro_dequeue_tx_buffer w buffer retval; Ret (w, retval) else
      let b := mk_buf (callback b) (priv b) false (byte_sent b + retval) (len b) (data b) in
      let w := set_bufs w (<[buffer := b]> (bufs w)) in
      if bool_decide (len b <= byte_sent b) then
        w ← unipro_dequeue_tx_buffer (unipro_set_eom_flag w i) buffer 0; Ret (w, 0)
      else Ret (w, - EBUSY)
  end.

(** The worker: blocked on its semaphore, or at the CPort it is to try next in a
    round, which is repeated while some buffer was [is_busy]. *)
Inductive tx_worker := Blocked | Scan (i : nat) (is_busy : bool).
Definition tsb_unipro_tx_worker w (pc : tx_worker) : outcome (world HW M E * tx_worker) :=
  match pc with
  | Blocked => match tx_fifo_lock w with O => Ret (w, Blocked) | S n => Ret (set_lock w n, Scan 0 false) end
  | Scan i is_busy =>
      if bool_decide (i < length (cports w))%nat then
        r ← tsb_unipro_send_tx_buffer w i;
        let '(w, retval) := (r : world HW M E * Z) in
        Ret (w, Scan (S i) (if bool_decide (retval = - EBUSY) then true else is_busy))
      else Ret (w, if is_busy then Scan 0 false else Blocked)
  end.

(** ** Receiving *)

Definition tsb_unipro_unpause_rx w (i : nat) : outcome (world HW M E * Z) :=
  c ← get_cport w i;
  if negb (is_connected c) then Ret (w, - EINVAL) else
  Ret (reg_write w (REG_RX_PAUSE_SIZE_00 + Z.of_nat i * 4) (Z.lor (lsl 1 31) CPORT_BUF_SIZE), 0).
Definition clear_rx_interrupt w (i : nat) : world HW M E :=
  reg_write w (AHM_RX_EOM_INT_BEF_REG (Z.of_nat i)) (AHM_RX_EOM_INT_BEF (Z.of_nat i)).
Definition enable_rx_interrupt w (i : nat) : world HW M E :=
  let reg := AHM_RX_EOM_INT_EN_REG (Z.of_nat i) in
  let '(w, v) := reg_read w reg in
  reg_write w reg (Z.lor v (AHM_RX_EOM_INT_EN (Z.of_nat i))).

Definition irq_rx_eom w (i : nat) : outcome (world HW M E) :=
  c ← get_cport w i;
  let w := clear_rx_interrupt w i in
  if bool_decide (driver c = 0) then Ret w else
  let '(w, data) := reg_read w (AHM_ADDRESS_00 + Z.of_nat i * 4) in
  let '(w, xfer_size) := reg_read w (CPB_RX_TRANSFERRED_DATA_SIZE_00 + Z.of_nat i * 4) in
  match rx_handler (drivers (driver c)) with
  | Some f => Ret (set_usr w (f (Z.of_nat i) data xfer_size (usr w)))
  | None => Ret w
  end.

Definition clear_int w (i : nat) : outcome (world HW M E) :=
  let id := Z.of_nat i in
  let offset := (id `div` 16) * 4 in
  let w := reg_write w (AHM_RX_EOM_INT_BEF_0 + offset) (lsl 3 (id * 2)) in
  let '(w, int_en) := reg_read w (AHM_RX_EOM_INT_EN_0 + offset) in
  let w := reg_write w (AHM_RX_EOM_INT_EN_0 + offset) (Z.ldiff int_en (lsl 3 (id * 2))) in
  h ← irq_clear (hw w) (cport_irq_base pdata + id);
  Ret (set_hw w h).
Definition enable_int w (i : nat) : outcome (world HW M E) :=
  let irqn := cport_irq_base pdata + Z.of_nat i in
  let w := enable_rx_interrupt w i in
  let w := set_irq w (fst (irq_attach (irq w) irqn On_rx_eom (Z.of_nat i))) in
  r ← irq_enable_line (hw w, irq w) irqn;
  Ret (set_irq (set_hw w (fst (r : HW * irqs handler))) (snd r)).

Definition tsb_unipro_switch_buffer w (i : nat) (buffer : Z) : world HW M E * Z :=
  (reg_write w (AHM_ADDRESS_00 + Z.of_nat i * 4) buffer, 0).
Definition tsb_unipro_init_cport w (i : nat) : outcome (world HW M E * Z) :=
  c ← get_cport w i;
  if bool_decide (driver c = 0) then Fault else
  let '(u, buffer) := get_buffer (drivers (driver c)) (usr w) in
  let w := set_usr w u in
  if bool_decide (buffer = 0) then Ret (w, - ENOMEM) else
  Ret (reg_write w (AHM_ADDRESS_00 + Z.of_nat i * 4) buffer, 0).

(** ** Connecting *)

Definition cport_get_status w (cportid : Z) : world HW M E * Z :=
  let reg := CPORT_STATUS_0 + Z.shiftl (cportid `div` 16) 2 in
  let '(w, val) := reg_read w reg in
  (w, Z.land (Z.shiftr val (Z.shiftl (cportid `mod` 16) 1)) 3).

Definition with_connected (c : unipro_cport) : unipro_cport := mk_cport true (driver c) (tx_fifo c).
Definition configure_connected_cport w (cportid : Z) : outcome (world HW M E * Z) :=
  let '(w, rc) := cport_get_status w cportid in
  if bool_decide (rc = CPORT_STATUS_CONNECTED) then
    let i := Z.to_nat cportid in
    c ← get_cport w i;
    let w := put_cport w i (with_connected c) in
    let w := reg_write w (REG_RX_PAUSE_SIZE_00 + cportid * 4) (Z.lor (lsl 1 31) CPORT_BUF_SIZE) in
    w ← clear_int w i;
    w ← enable_int w i;
    Ret (w, 0)
  else if bool_decide (rc = CPORT_STATUS_UNCONNECTED) then Ret (w, - ENOTCONN)
  else Ret (w, - EIO).

Definition irq_unipro (line : Z) w : outcome (world HW M E) :=
  h ← irq_clear (hw w) line;
  let w := set_hw w h in
  r ← tsb_unipro_local_attr_read w TSB_INTERRUPTSTATUS 0 false;
  r ← tsb_unipro_local_attr_read (r.1.1 : world HW M E) TSB_MAILBOX 0 false;
  let '(w, cportid, _) := (r : world HW M E * Z * Z) in
  if bool_decide (cportid = 0) then Ret w else
  let cportid := cportid - 1 in
  let reg := CPB_RX_E2EFC_EN_0 + 4 * (cportid `div` 32) in
  let '(w, e2efc) := reg_read w reg in
  let w := reg_write w reg (Z.lor e2efc (Z.shiftl 1 (cportid `mod` 32))) in
  r ← configure_connected_cport w cportid;
  r ← tsb_unipro_local_attr_write (fst (r : world HW M E * Z)) TSB_MAILBOX 0 0 false;
  r ← tsb_unipro_local_attr_read (r.1.1 : world HW M E) TSB_INTERRUPTSTATUS 0 false;
  r ← tsb_unipro_local_attr_read (r.1.1 : world HW M E) TSB_MAILBOX 0 false;
  Ret (r.1.1 : world HW M E).

(** The [do] loops of [tsb_unipro_mbox_set], with [n] tries left: did one see a
    value that ends the wait? *)
Fixpoint mbox_poll (n : nat) w (attr : Z) (peer : bool) (again : Z -> bool) : outcome (world HW M E * bool) :=
  match n with
  | O => Ret (w, false)
  | S n =>
      r ← attr_access w attr 0 0 peer false false;
      let '(w, v, _) := (r : world HW M E * Z * Z) in
      if again v then mbox_poll n w attr peer again else Ret (w, true)
  end.
Definition mbox_retries : nat := 2048.
Definition tsb_unipro_mbox_set w (val : Z) (peer : bool) : outcome (world HW M E * Z) :=
  r ← attr_access w TSB_MAILBOX val 0 peer true false;
  r ← mbox_poll mbox_retries (r.1.1 : world HW M E) TSB_INTERRUPTSTATUS peer
        (fun irq_status => bool_decide (Z.land irq_status TSB_INTERRUPTSTATUS_MAILBOX <> 0));
  let '(w, ok) := (r : world HW M E * bool) in
  if negb ok then Ret (w, - ETIMEDOUT) else
  r ← mbox_poll mbox_retries w TSB_MAILBOX peer (fun val => bool_decide (val <> TSB_MAIL_RESET));
  let '(w, ok) := (r : world HW M E * bool) in
  Ret (w, if negb ok then - ETIMEDOUT else 0).

(** ** Starting *)

Record tsb_mphy_fixup := mk_fixup { attrid : Z; select_index : Z; value : Z; is_last : bool; is_magic : bool }.
Definition TSB_MPHY_FIXUP (a s v : Z) : tsb_mphy_fixup := mk_fixup a s v false false.
Definition TSB_MPHY_LAST_FIXUP (a s v : Z) : tsb_mphy_fixup := mk_fixup a s v true false.
Definition TSB_MPHY_MAGIC_R1_FIXUP : tsb_mphy_fixup := mk_fixup 0 0 0 false true.
Definition tsb_register_1_map_mphy_fixups : list tsb_mphy_fixup := [
  TSB_MPHY_MAGIC_R1_FIXUP;
  TSB_MPHY_FIXUP 0x8004 0 0xCA; TSB_MPHY_FIXUP 0x8015 0 0x01; TSB_MPHY_FIXUP 0x8022 0 0x44;
  TSB_MPHY_FIXUP 0x8023 0 0x42; TSB_MPHY_FIXUP 0x80A2 0 0x00; TSB_MPHY_FIXUP 0x80AA 0 0xA8;
  TSB_MPHY_FIXUP 0x80BA 0 0x20;
  TSB_MPHY_FIXUP 0x80A2 1 0x00; TSB_MPHY_FIXUP 0x80AA 1 0xA8; TSB_MPHY_FIXUP 0x80BA 1 0x20;
  TSB_MPHY_FIXUP 0x8094 4 0x09; TSB_MPHY_FIXUP 0x809A 4 0x06; TSB_MPHY_FIXUP 0x809B 4 0x03;
  TSB_MPHY_FIXUP 0x809C 4 0x00; TSB_MPHY_FIXUP 0x80AA 4 0x0F; TSB_MPHY_FIXUP 0x80B4 4 0x50;
  TSB_MPHY_FIXUP 0x80B6 4 0x82; TSB_MPHY_FIXUP 0x80B7 4 0x01;
  TSB_MPHY_FIXUP 0x8094 5 0x09; TSB_MPHY_FIXUP 0x809A 5 0x06; TSB_MPHY_FIXUP 0x809B 5 0x03;
  TSB_MPHY_FIXUP 0x809C 5 0x00; TSB_MPHY_FIXUP 0x80AA 5 0x0F; TSB_MPHY_FIXUP 0x80B4 5 0x50;
  TSB_MPHY_FIXUP 0x80B6 5 0x82; TSB_MPHY_FIXUP 0x80B7 5 0x01;
  TSB_MPHY_LAST_FIXUP 0x8000 0 0x01].
Definition tsb_register_2_map_mphy_fixups : list tsb_mphy_fixup := [
  TSB_MPHY_FIXUP 0x8000 0 0x02;
  TSB_MPHY_FIXUP 0x8080 0 0x20; TSB_MPHY_FIXUP 0x8081 0 0x03;
  TSB_MPHY_FIXUP 0x8080 1 0x20; TSB_MPHY_FIXUP 0x8081 1 0x03;
  TSB_MPHY_FIXUP 0x8082 4 0x3F; TSB_MPHY_FIXUP 0x8084 4 0x10; TSB_MPHY_FIXUP 0x8086 4 0x10;
  TSB_MPHY_FIXUP 0x8087 4 0x01; TSB_MPHY_FIXUP 0x8088 4 0x10; TSB_MPHY_FIXUP 0x808D 4 0x0B;
  TSB_MPHY_FIXUP 0x808E 4 0x00; TSB_MPHY_FIXUP 0x8094 4 0x00; TSB_MPHY_FIXUP 0x8096 4 0x00;
  TSB_MPHY_FIXUP 0x8098 4 0x08; TSB_MPHY_FIXUP 0x8099 4 0x50;
  TSB_MPHY_FIXUP 0x8082 5 0x3F; TSB_MPHY_FIXUP 0x8084 5 0x10; TSB_MPHY_FIXUP 0x8086 5 0x10;
  TSB_MPHY_FIXUP 0x8087 5 0x01; TSB_MPHY_FIXUP 0x8088 5 0x10; TSB_MPHY_FIXUP 0x808D 5 0x0B;
  TSB_MPHY_FIXUP 0x808E 5 0x00; TSB_MPHY_FIXUP 0x8094 5 0x00; TSB_MPHY_FIXUP 0x8096 5 0x00;
  TSB_MPHY_FIXUP 0x8098 5 0x08; TSB_MPHY_LAST_FIXUP 0x8099 5 0x50].

(** One write, and its result code. *)
Definition attr_set w (attr val selector : Z) : outcome (world HW M E * Z) :=
  r ← tsb_unipro_local_attr_write w attr val selector true;
  let '(w, _, urc) := (r : world HW M E * Z * Z) in Ret (w, urc).

(** The [do] loops over a table, which reads on until it meets a last entry. *)
Fixpoint apply_fixups (magic_allowed : bool) w (fu : list tsb_mphy_fixup) : outcome (world HW M E * Z) :=
  match fu with
  | [] => Fault
  | fu :: l =>
      r ← (if magic_allowed && is_magic fu then attr_set w 0x8002 (Z.land (Z.shiftr (debug_0720 pdata) 1) 0x1f) 0
           else attr_set w (attrid fu) (value fu) (select_index fu));
      let '(w, urc) := (r : world HW M E * Z) in
      if bool_decide (urc <> 0) then Ret (w, urc) else
      if is_last fu then Ret (w, 0) else apply_fixups magic_allowed w l
  end.

(** Running on only while the last result is 0. *)
Definition and_then (r : outcome (world HW M E * Z)) (f : world HW M E -> outcome (world HW M E * Z)) :
    outcome (world HW M E * Z) :=
  r ← r; let '(w, urc) := (r : world HW M E * Z) in if bool_decide (urc <> 0) then Ret (w, urc) else f w.

Definition es2_fixup_mphy w : outcome (world HW M E * Z) :=
  and_then (attr_set w TSB_MPHY_MAP TSB_MPHY_MAP_TSB_REGISTER_2 0) (fun w =>
  and_then (apply_fixups false w tsb_register_2_map_mphy_fixups) (fun w =>
  and_then (attr_set w TSB_MPHY_MAP TSB_MPHY_MAP_NORMAL 0) (fun w =>
  and_then (attr_set w TSB_MPHY_MAP TSB_MPHY_MAP_TSB_REGISTER_1 0) (fun w =>
  and_then (apply_fixups true w tsb_register_1_map_mphy_fixups) (fun w =>
  attr_set w TSB_MPHY_MAP TSB_MPHY_MAP_NORMAL 0))))).

Definition configure_transfer_mode w (mode : Z) : world HW M E * Z :=
  if bool_decide (mode = 2) then
    let w := reg_write w AHM_MODE_CTRL_0 TRANSFER_MODE_2_CTRL_0 in
    (if bool_decide (product_id pdata = TSB_UNIPRO_APBRIDGE) then
       reg_write (reg_write w AHM_MODE_CTRL_1 TRANSFER_MODE_2_CTRL_1) AHM_MODE_CTRL_2 TRANSFER_MODE_2_CTRL_2
     else w, 0)
  else (w, - EINVAL).

(** ** The core *)

(** [device->cports] is NULL until the device is registered: no CPort. *)
Definition sizeof_unipro_cport : Z := 24.
Definition unipro_register_device w (cport_count : nat) : outcome (world HW M E * Z) :=
  r ← mem_kmalloc (mem w) (wrap32 (sizeof_unipro_cport * Z.of_nat cport_count)) 0;
  let '(m, p) := (r : M * Z) in
  let w := set_mem w m in
  if bool_decide (p = 0) then Ret (w, - ENOMEM) else
  Ret (set_cports w (replicate cport_count (mk_cport false 0 [])), 0).

Definition unipro_register_cport_driver w (cport : nat) (drv : Z) : outcome (world HW M E * Z) :=
  if bool_decide (cports w = []) || bool_decide (drv = 0) then Ret (w, - EINVAL) else
  if bool_decide (length (cports w) <= cport)%nat then Ret (w, - EINVAL) else
  c ← get_cport w cport;
  r ← tsb_unipro_init_cport (put_cport w cport (with_driver c drv)) cport;
  let '(w, retval) := (r : world HW M E * Z) in
  if bool_decide (retval <> 0) then
    c ← get_cport w cport; Ret (put_cport w cport (with_driver c 0), retval)
  else Ret (w, 0).
Definition unipro_unregister_cport_driver w (cport : nat) : outcome (world HW M E * Z) :=
  if bool_decide (cports w = []) then Ret (w, - EINVAL) else
  if bool_decide (length (cports w) <= cport)%nat then Ret (w, - EINVAL) else
  c ← get_cport w cport; Ret (put_cport w cport (with_driver c 0), 0).

(** [worker_made]: did [task_run] make the worker?  [priv] is the block of the
    driver's own state. *)
Definition sizeof_tsb_unipro_priv : Z := 16.
Definition tsb_unipro_probe (line : Z) w (cport_count : nat) (worker_made : bool) : outcome (world HW M E * Z) :=
  r ← mem_kmalloc (mem w) sizeof_tsb_unipro_priv 0;
  let '(m, priv) := (r : M * Z) in
  let w := set_mem w m in
  if bool_decide (priv = 0) then Ret (w, - ENOMEM) else
  r ← unipro_register_device w cport_count;
  let '(w, retval) := (r : world HW M E * Z) in
  let error w retval := m ← mem_kfree (mem w) priv; Ret (set_mem w m, retval) in
  if bool_decide (retval <> 0) then error w retval else
  let w := set_lock w 0 in
  if negb worker_made then error w (- ENOMEM) else
  r ← es2_fixup_mphy w;
  let '(w, retval) := configure_transfer_mode (fst (r : world HW M E * Z)) TRANSFER_MODE in
  if bool_decide (retval <> 0) then error w retval else
  let w := reg_write w CPB_RX_E2EFC_EN_0 0 in
  let w := if bool_decide (product_id pdata = TSB_UNIPRO_APBRIDGE) then reg_write w CPB_RX_E2EFC_EN_1 0 else w in
  let w := reg_write w UNIPRO_INT_EN 1 in
  r ← tsb_unipro_local_attr_write w TSB_INTERRUPTENABLE (Z.shiftl 1 15) 0 false;
  let w := (r.1.1 : world HW M E) in
  let w := set_irq w (fst (irq_attach (irq w) line On_unipro 0)) in
  r ← irq_enable_line (hw w, irq w) line;
  Ret (set_irq (set_hw w (fst (r : HW * irqs handler))) (snd r), 0).
End Bridge.
End Unipro.
