(* ===== verification/UniproSend.v ===== *)
(** What the UniPro bridge sends: under any interleaving of its clients, its
    worker and its interrupts, messages leave a CPort whole and in order. *)
From S2P Require Import Prelude Memory Irq Unipro.
From S2P Require Mm Mcache.
#[local] Open Scope Z_scope.
Module UniproSend.
Import Irq.Irq Unipro.Unipro.

(** ** What is on the wire *)

(** A store into a transmit buffer carries bytes, at its start when they begin a
    message, or marks the end of the message. *)
Inductive piece := Data (start : bool) (l : list Z) | Eom.
Definition piece_of (i : nat) (x : Z * list Z) : option piece :=
  let base := cportid_to_tx_buffer i in
  if bool_decide (fst x = base) then Some (Data true (snd x)) else
  if bool_decide (fst x = base + 4) then Some (Data false (snd x)) else
  if bool_decide (fst x = base + CPORT_TX_BUF_SIZE - 1) then Some Eom else None.
Definition wire (l : list (Z * list Z)) (i : nat) : list piece := omap (piece_of i) l.

Definition CPORT_MAX : nat := 44.
Lemma tx_buffer_at i : (i < CPORT_MAX)%nat -> cportid_to_tx_buffer i = CPORT_TX_BUF_BASE + CPORT_TX_BUF_SIZE * Z.of_nat i.
Proof. intros. apply wrap32_small. unfold CPORT_MAX, CPORT_TX_BUF_BASE, CPORT_TX_BUF_SIZE in *. lia. Qed.

(** The offsets of the stores. *)
Definition offset_of (p : piece) : Z :=
  match p with Data s _ => if s then 0 else 4 | Eom => CPORT_TX_BUF_SIZE - 1 end.
Definition bytes_of (p : piece) : list Z := match p with Data _ l => l | Eom => [1] end.

Lemma piece_of_store i j p :
  (i < CPORT_MAX)%nat -> (j < CPORT_MAX)%nat ->
  piece_of j (cportid_to_tx_buffer i + offset_of p, bytes_of p) = if bool_decide (i = j) then Some p else None.
Proof.
  intros Hi Hj. unfold piece_of. rewrite !tx_buffer_at by done. simpl.
  unfold CPORT_TX_BUF_BASE, CPORT_TX_BUF_SIZE, CPORT_MAX in *.
  assert (Ho : offset_of p = 0 \/ offset_of p = 4 \/ offset_of p = 0x20000 - 1) by (destruct p as [[]|]; simpl; auto).
  case_bool_decide as E1; [|case_bool_decide as E2; [|case_bool_decide as E3]].
  - destruct p as [[]|]; simpl in *; unfold CPORT_TX_BUF_SIZE in *; try lia. by rewrite bool_decide_true by lia.
  - destruct p as [[]|]; simpl in *; unfold CPORT_TX_BUF_SIZE in *; try lia. by rewrite bool_decide_true by lia.
  - destruct p as [[]|]; simpl in *; unfold CPORT_TX_BUF_SIZE in *; try lia. by rewrite bool_decide_true by lia.
  - rewrite bool_decide_false; [done|]. intros ->. unfold offset_of, CPORT_TX_BUF_SIZE in *. destruct p as [[]|]; lia.
Qed.

Lemma wire_app l l' i : wire (l ++ l') i = wire l i ++ wire l' i.
Proof. apply omap_app. Qed.
Lemma wire_store l i j p :
  (i < CPORT_MAX)%nat -> (j < CPORT_MAX)%nat ->
  wire (l ++ [(cportid_to_tx_buffer i + offset_of p, bytes_of p)]) j = wire l j ++ if bool_decide (i = j) then [p] else [].
Proof.
  intros Hi Hj. rewrite wire_app. f_equal. unfold wire. cbn [omap list_omap]. rewrite piece_of_store by done.
  by case_bool_decide.
Qed.

(** The stores of one message: [m] is the mark of the first. *)
Definition segments (m : bool) (ls : list (list Z)) : list piece :=
  match ls with [] => [] | l :: ls => Data m l :: (Data false <$> ls) end.
Lemma segments_snoc m ls l :
  segments m (ls ++ [l]) = segments m ls ++ [Data (match ls with [] => m | _ => false end) l].
Proof. destruct ls as [|l0 ls]; [done|]. cbn [app segments]. by rewrite fmap_app. Qed.

(** ** Messages *)

Record msg := mk_msg { m_cb : Z; m_data : list Z; m_priv : Z }.
Definition completion (m : msg) : option (Z * Z * list Z * Z) :=
  if bool_decide (m_cb m = 0) then None else Some (m_cb m, 0, m_data m, m_priv m).
(** The messages of a CPort among those of all. *)
Definition of_cport (i : nat) (l : list (nat * msg)) : list msg :=
  omap (fun x => if bool_decide (fst x = i) then Some (snd x) else None) l.
Lemma of_cport_snoc i l j m :
  of_cport i (l ++ [(j, m)]) = of_cport i l ++ if bool_decide (j = i) then [m] else [].
Proof. unfold of_cport. rewrite omap_app. f_equal. cbn [omap list_omap]. simpl. by case_bool_decide. Qed.

(** The bridge has room in its transmit buffers whenever it is asked. *)
Class UniproLaws (HW : Type) `{UniproHw HW} (reg_base : Z) (cport_count : nat) := {
  (** every access to an attribute ends, *)
  attr_done h attr val selector peer write code :
    exists h' v rc, tsb_unipro_attr_access reg_base h attr val selector peer write code = Ret (h', v, rc);
  (** the mailbox names a CPort the bridge has, or none. *)
  mailbox_range h h' v rc :
    tsb_unipro_attr_access reg_base h TSB_MAILBOX 0 0 false false false = Ret (h', v, rc) -> 0 <= v <= Z.of_nat cport_count;
}.

Section Sending.
Context {HW M E : Type} `{UniproLaws HW reg_base cport_count} `{MemSpec M}.
Context (pdata : tsb_unipro_pdata) (drivers : Z -> unipro_cport_driver E).
Context (Hcount : (cport_count <= CPORT_MAX)%nat) (Hbase : 0 <= cport_irq_base pdata).
Implicit Types (w : world HW M E) (h : HW).

(** There is room in a transmit buffer whenever it is asked for. *)
Definition roomy : Prop := forall h i, snd (unipro_get_tx_free_buffer_space reg_base h i) <> 0.

(** A whole message. *)
Definition frame (m : msg) (ps : list piece) : Prop :=
  exists start ls, ps = segments start ls ++ [Eom] /\ concat ls = m_data m /\ (roomy -> start = true).

(** What was sent of a buffer. *)
Definition partial (b : tsb_unipro_buffer) (ps : list piece) : Prop :=
  exists start ls, ps = segments start ls /\ concat ls = take (Z.to_nat (byte_sent b)) (data b) /\
    (som b = true -> ls = [] /\ byte_sent b = 0 /\ start = true) /\
    (som b = false -> ls = [] -> start = false) /\ (roomy -> start = true).

Definition holds (b : tsb_unipro_buffer) (m : msg) : Prop :=
  callback b = m_cb m /\ data b = m_data m /\ priv b = m_priv m /\ len b = Z.of_nat (length (data b)) /\
  0 <= byte_sent b <= len b /\ len b < 2 ^ 31.
Definition untouched (b : tsb_unipro_buffer) : Prop := som b = true /\ byte_sent b = 0.

(** The queue [l] holds the messages [pend], and [part] was sent of the first. *)
Definition queue (bs : gmap Z tsb_unipro_buffer) (l : list Z) (pend : list msg) (part : list piece) : Prop :=
  Forall2 (fun p m => exists b, bs !! p = Some b /\ holds b m) l pend /\
  match l with
  | [] => part = []
  | p :: l => (exists b, bs !! p = Some b /\ partial b part) /\
              Forall (fun q => exists b, bs !! q = Some b /\ untouched b) l
  end.

(** One CPort: [acc] was accepted, [done] completed. *)
Definition cport_ok (bs : gmap Z tsb_unipro_buffer) (l : list (Z * list Z)) (i : nat) (c : unipro_cport)
    (acc done : list msg) : Prop :=
  exists pend frames part, acc = done ++ pend /\ Forall2 frame done frames /\
    wire l i = concat frames ++ part /\ queue bs (tx_fifo c) pend part /\
    (pend <> [] -> is_connected c = true).

(** Every CPort has no more messages than the worker has units to take or clients
    [owe] it, and one more where the worker has yet to come by. *)
Definition units_ok w (pc : tx_worker) (owe : nat) : Prop :=
  forall i c, cports w !! i = Some c ->
    match pc with
    | Blocked => (length (tx_fifo c) <= tx_fifo_lock w + owe)%nat
    | Scan j is_busy => (length (tx_fifo c) <= tx_fifo_lock w + owe + if is_busy || bool_decide (j <= i)%nat then 1 else 0)%nat
    end.

Definition all_bufs w : list Z := concat (tx_fifo <$> cports w).
Record core (A0 : gmap Z nat) w (acc done : list (nat * msg)) : Prop := {
  iv_len : length (cports w) = cport_count;
  iv_nodup : NoDup (all_bufs w);
  iv_dom p : is_Some (bufs w !! p) <-> p ∈ all_bufs w;
  iv_ports i c : cports w !! i = Some c -> cport_ok (bufs w) (written w) i c (of_cport i acc) (of_cport i done);
  iv_mem : mem_holds A0 (mem w) (bufs w);
  iv_calls : calls w = omap completion (snd <$> done);
  iv_irq : length (irq_state (irq w)) = Z.to_nat CPU_NUM_IRQ;
}.

(** ** Sending one piece *)

Lemma space_nonneg h i : 0 <= snd (unipro_get_tx_free_buffer_space reg_base h i).
Proof.
  unfold unipro_get_tx_free_buffer_space. destruct (tsb_unipro_read _ _ _) as [h1 v1].
  destruct (tsb_unipro_read _ _ _) as [h2 v2]. apply wrap16_range.
Qed.

(** It sends a part that is not empty, or there was no room. *)
Lemma _tsb_unipro_send_ok w i c buf start :
  cports w !! i = Some c -> is_connected c = true ->
  exists h', (_tsb_unipro_send reg_base w i buf (Z.of_nat (length buf)) start = Ret (set_hw w h', 0) /\ ~ roomy) \/
    exists k, _tsb_unipro_send reg_base w i buf (Z.of_nat (length buf)) start =
        Ret (store_at (set_hw w h') (cportid_to_tx_buffer i + offset_of (Data start [])) (take k buf), Z.of_nat k) /\
      (k <= length buf)%nat /\ (k = 0%nat -> buf = []).
Proof.
  intros Hc Hcon. unfold _tsb_unipro_send, get_cport. rewrite Hc. cbn [mbind outcome_bind deref]. rewrite Hcon. cbn [negb].
  pose proof (space_nonneg (hw w) i) as Hs.
  destruct (unipro_get_tx_free_buffer_space reg_base (hw w) i) as [h' count] eqn:Esp. simpl in Hs.
  exists h'. destruct (bool_decide_reflect (count = 0)) as [Hz|Hz].
  - left. split; [done|]. intros Hr. specialize (Hr (hw w) i). rewrite Esp in Hr. done.
  - right. exists (Z.to_nat (if bool_decide (Z.of_nat (length buf) < count) then Z.of_nat (length buf) else count)).
    destruct (bool_decide_reflect (Z.of_nat (length buf) < count)).
    + rewrite bool_decide_false by lia. rewrite Nat2Z.id. split_and!; [done|lia|]. intros ->%length_zero_iff_nil. done.
    + rewrite bool_decide_false by lia. rewrite Z2Nat.id by lia. split_and!; [done|lia|intros ?; exfalso; lia].
Qed.

(** The pieces of a buffer of which [k] bytes more were sent. *)
Definition advance (b : tsb_unipro_buffer) (k : nat) : tsb_unipro_buffer :=
  mk_buf (callback b) (priv b) false (byte_sent b + Z.of_nat k) (len b) (data b).

Lemma partial_stalled b part :
  ~ roomy -> partial b part -> partial (advance b 0) part.
Proof.
  intros Hr (st & ls & -> & Hcc & Ht & Hf & Hro). destruct (som b) eqn:Es.
  - destruct (Ht eq_refl) as (-> & Hb & ->). exists false, []. split_and!; [done|..|done].
    + simpl. rewrite Hb. done.
    + done.
    + done.
  - exists st, ls. simpl. rewrite Z.add_0_r. split_and!; [done..|]. auto.
Qed.

Lemma partial_more b part k :
  0 <= byte_sent b -> partial b part ->
  partial (advance b k) (part ++ [Data (som b) (take k (drop (Z.to_nat (byte_sent b)) (data b)))]).
Proof.
  intros Hb (st & ls & -> & Hcc & Ht & Hf & Hro).
  exists st, (ls ++ [take k (drop (Z.to_nat (byte_sent b)) (data b))]). split_and!.
  - rewrite segments_snoc. do 2 f_equal. f_equal. destruct (som b) eqn:Es.
    + by destruct (Ht eq_refl) as (-> & _ & ->).
    + destruct ls; [by rewrite Hf|done].
  - rewrite concat_app. simpl. rewrite app_nil_r, Hcc, Z2Nat.inj_add, Nat2Z.id by lia.
    by rewrite take_add, drop_drop || rewrite <- take_take_drop.
  - done.
  - intros _ Hn. by destruct ls.
  - done.
Qed.

Lemma partial_frame b m part :
  holds b m -> byte_sent b = len b -> som b = false -> partial b part -> frame m (part ++ [Eom]).
Proof.
  intros (Hc & Hd & Hp & Hl & _) Hs Hsom (st & ls & -> & Hcc & _ & _ & Hro).
  exists st, ls. split_and!; [done| |done]. rewrite Hcc, Hs, Hl, Nat2Z.id, <- Hd. by apply firstn_all.
Qed.

(** ** Queues *)

Lemma fifo_disjoint (cs : list unipro_cport) i j c c' p :
  NoDup (concat (tx_fifo <$> cs)) -> cs !! i = Some c -> cs !! j = Some c' -> p ∈ tx_fifo c -> p ∈ tx_fifo c' -> i = j.
Proof.
  revert i j. induction cs as [|x cs IH]; intros i j Hnd Hi Hj Hp Hp'; [done|].
  cbn [fmap list_fmap concat] in Hnd. apply NoDup_app in Hnd as (_ & Hd & Hnd).
  assert (Hin : forall k y, cs !! k = Some y -> p ∈ tx_fifo y -> p ∈ concat (tx_fifo <$> cs)).
  { intros k y Hk Hy. apply list_elem_of_In, in_concat. exists (tx_fifo y). split; apply list_elem_of_In; [|done].
    apply list_elem_of_fmap. exists y. split; [done|]. by apply list_elem_of_lookup_2 with k. }
  destruct i as [|i], j as [|j]; simplify_eq/=; [done| | |f_equal; eauto].
  - exfalso. apply (Hd p Hp). eauto.
  - exfalso. apply (Hd p Hp'). eauto.
Qed.

Lemma elem_of_all_bufs w p : p ∈ all_bufs w <-> exists i c, cports w !! i = Some c /\ p ∈ tx_fifo c.
Proof.
  unfold all_bufs. split.
  - intros Hp%list_elem_of_In%in_concat. destruct Hp as (l & Hl & Hp). apply list_elem_of_In in Hl, Hp.
    apply list_elem_of_fmap in Hl as (c & -> & Hc). apply list_elem_of_lookup in Hc as [i Hi]. eauto.
  - intros (i & c & Hi & Hp). apply list_elem_of_In, in_concat. exists (tx_fifo c). split; apply list_elem_of_In; [|done].
    apply list_elem_of_fmap. exists c. split; [done|]. by apply list_elem_of_lookup_2 with i.
Qed.

(** Changing one queue in the middle of all. *)
Lemma all_bufs_split (cs : list unipro_cport) i c c' :
  cs !! i = Some c ->
  exists l1 l2, concat (tx_fifo <$> cs) = l1 ++ tx_fifo c ++ l2 /\
                concat (tx_fifo <$> <[i := c']> cs) = l1 ++ tx_fifo c' ++ l2.
Proof.
  intros Hi. exists (concat (tx_fifo <$> take i cs)), (concat (tx_fifo <$> drop (S i) cs)).
  rewrite <- (take_drop_middle cs i c Hi) at 1. rewrite insert_take_drop by (by apply lookup_lt_Some in Hi).
  by rewrite !fmap_app, !concat_app.
Qed.

Lemma list_del_head w i c p l :
  NoDup (all_bufs w) -> cports w !! i = Some c -> tx_fifo c = p :: l ->
  list_del w p = put_cport w i (with_fifo c l).
Proof.
  intros Hnd Hi Hl. unfold list_del, put_cport. f_equal. apply list_eq. intros j. rewrite list_lookup_fmap.
  destruct (decide (i = j)) as [<-|Hne].
  - rewrite Hi, list_lookup_insert_eq by (by apply lookup_lt_Some in Hi). simpl. do 2 f_equal.
    rewrite Hl, filter_cons_False by auto. apply filter_id. intros x Hx ->.
    destruct (all_bufs_split _ i c c Hi) as (l1 & l2 & E1 & _). unfold all_bufs in Hnd. rewrite E1, Hl in Hnd.
    apply NoDup_app in Hnd as (_ & _ & Hnd). cbn [app] in Hnd. apply NoDup_cons in Hnd as [Hn _]. set_solver.
  - rewrite list_lookup_insert_ne by done. destruct (cports w !! j) as [cj|] eqn:Ej; [|done]. simpl. f_equal.
    rewrite filter_id; [by destruct cj|]. intros x Hx ->. apply Hne.
    apply (fifo_disjoint (cports w) i j c cj p); [done..| |done]. rewrite Hl. by left.
Qed.

Lemma others_ok bs bs' l l' i c acc done :
  cport_ok bs l i c acc done -> (forall p, p ∈ tx_fifo c -> bs' !! p = bs !! p) -> wire l' i = wire l i ->
  cport_ok bs' l' i c acc done.
Proof.
  intros (pend & frames & part & Ha & Hf & Hw & [Hq Hh] & Hcon) Hbs Hl.
  exists pend, frames, part. split_and!; [done|done|congruence| |done]. split.
  - apply Forall2_same_length_lookup. split; [by apply Forall2_length in Hq|].
    intros k p m Hp Hm. rewrite Hbs by (by apply list_elem_of_lookup_2 with k). exact (Forall2_lookup_lr _ _ _ _ _ _ Hq Hp Hm).
  - destruct (tx_fifo c) as [|p q]; [done|]. rewrite Hbs by (by left). split; [by destruct Hh|].
    destruct Hh as [_ Hh]. rewrite Forall_forall in Hh |- *. intros x Hx. rewrite Hbs by (by right). auto.
Qed.

(** A step on CPort [i] leaves the other CPorts alone. *)
Lemma ports_step w w' i c c' acc acc' done done' :
  length (cports w) = cport_count ->
  (forall i c, cports w !! i = Some c -> cport_ok (bufs w) (written w) i c (of_cport i acc) (of_cport i done)) ->
  NoDup (all_bufs w) -> cports w !! i = Some c -> cports w' = <[i := c']> (cports w) ->
  (forall p, p ∈ all_bufs w -> p ∉ tx_fifo c -> bufs w' !! p = bufs w !! p) ->
  (forall j, j <> i -> (j < CPORT_MAX)%nat -> wire (written w') j = wire (written w) j) ->
  (forall j, j <> i -> of_cport j acc' = of_cport j acc /\ of_cport j done' = of_cport j done) ->
  cport_ok (bufs w') (written w') i c' (of_cport i acc') (of_cport i done') ->
  forall j cj, cports w' !! j = Some cj -> cport_ok (bufs w') (written w') j cj (of_cport j acc') (of_cport j done').
Proof.
  intros Hlen Hp Hnd Hi Hc Hb Hw Ho Hok j cj. rewrite Hc. intros Hj.
  destruct (decide (j = i)) as [->|Hne].
  - rewrite list_lookup_insert_eq in Hj by (by apply lookup_lt_Some in Hi). by simplify_eq.
  - rewrite list_lookup_insert_ne in Hj by done. destruct (Ho j Hne) as [-> ->].
    apply others_ok with (bufs w) (written w); [auto| |apply Hw; [done|apply lookup_lt_Some in Hj; lia]].
    intros p Hpj. apply Hb; [apply elem_of_all_bufs; eauto|]. intros Hpc. apply Hne.
    by apply (fifo_disjoint (cports w) j i cj c p).
Qed.

(** ** A visit of the worker to a CPort *)

Lemma queue_cons bs p l pend part :
  queue bs (p :: l) pend part ->
  exists b m pend', pend = m :: pend' /\ bs !! p = Some b /\ holds b m /\ partial b part /\
    Forall2 (fun p m => exists b, bs !! p = Some b /\ holds b m /\ untouched b) l pend'.
Proof.
  intros [Hq [(b & Eb & Hpa) Hu]]. inversion Hq as [|? m ? pend' (b' & Eb' & Hh) Hq']; subst.
  exists b, m, pend'. split_and!; [done|done|congruence|done|].
  apply Forall2_same_length_lookup. split; [by apply Forall2_length in Hq'|]. intros k q mq Hkq Hkm.
  destruct (Forall2_lookup_lr _ _ _ _ _ _ Hq' Hkq Hkm) as (bq & Ebq & Hhq).
  rewrite Forall_lookup in Hu. destruct (Hu k q Hkq) as (bq' & Ebq' & Huq). exists bq. split_and!; [done|done|congruence].
Qed.

(** The queue once its first message is gone. *)
Lemma queue_next (bs bs' : gmap Z tsb_unipro_buffer) (l : list Z) (pend : list msg) :
  Forall2 (fun p m => exists b, bs !! p = Some b /\ holds b m /\ untouched b) l pend ->
  (forall p, p ∈ l -> bs' !! p = bs !! p) -> queue bs' l pend [].
Proof.
  intros Hq Hbs.
  assert (Hq' : Forall2 (fun p m => exists b, bs' !! p = Some b /\ holds b m /\ untouched b) l pend).
  { apply Forall2_same_length_lookup. split; [by apply Forall2_length in Hq|]. intros k p m Hp Hm.
    rewrite Hbs by (by apply list_elem_of_lookup_2 with k). exact (Forall2_lookup_lr _ _ _ _ _ _ Hq Hp Hm). }
  split.
  - eapply Forall2_impl; [exact Hq'|]. intros p m (b & ? & ? & ?). eauto.
  - destruct Hq' as [|p m l' pend' (b & Eb & Hh & Hs & Hb) Hq']; [done|]. split.
    + exists b. split; [done|]. exists true, []. simpl. rewrite Hb. split_and!; [done..|congruence|done].
    + apply Forall_lookup. intros k q Hk. destruct (Forall2_lookup_l _ _ _ _ _ Hq' Hk) as (mq & _ & bq & ? & ? & ?). eauto.
Qed.

(** The message at the head goes: its last piece, its end, its completion. *)
Lemma dequeue_ok w i c p b l :
  NoDup (all_bufs w) -> cports w !! i = Some c -> tx_fifo c = p :: l -> bufs w !! p = Some b -> p <> 0 ->
  forall m', mem_kfree (mem w) p = Ret m' ->
  unipro_dequeue_tx_buffer w p 0 =
    Ret (mk_world (hw w) (irq w) m' (delete p (bufs w)) (<[i := with_fifo c l]> (cports w)) (tx_fifo_lock w) (written w)
      (if bool_decide (callback b = 0) then calls w else calls w ++ [(callback b, 0, data b, priv b)]) (usr w)).
Proof.
  intros Hnd Hi Hl Hb Hp m' Hm. unfold unipro_dequeue_tx_buffer. rewrite bool_decide_false by done.
  rewrite Hb. cbn [mbind outcome_bind deref]. rewrite (list_del_head w i c p l) by done.
  case_bool_decide; cbn [mem put_cport set_cports set_calls]; rewrite Hm; reflexivity.
Qed.

(** What one call sends of the buffer at the head of the queue. *)
Definition left_over (b : tsb_unipro_buffer) : Z := wrap32 (len b - byte_sent b).
Lemma left_over_ok b m : holds b m -> left_over b = Z.of_nat (length (drop (Z.to_nat (byte_sent b)) (data b))).
Proof.
  intros (_ & _ & _ & Hl & Hs & Hlt). unfold left_over. rewrite length_drop. rewrite wrap32_small by lia. lia.
Qed.

Lemma send_head w i c b m part :
  (i < CPORT_MAX)%nat -> cports w !! i = Some c -> is_connected c = true -> holds b m -> partial b part ->
  exists h' k ext pcs,
    _tsb_unipro_send reg_base w i (drop (Z.to_nat (byte_sent b)) (data b)) (left_over b) (som b) =
      Ret (mk_world h' (irq w) (mem w) (bufs w) (cports w) (tx_fifo_lock w) (written w ++ ext) (calls w) (usr w), Z.of_nat k) /\
    (forall j, (j < CPORT_MAX)%nat -> wire ext j = if bool_decide (i = j) then pcs else []) /\
    partial (advance b k) (part ++ pcs) /\ byte_sent b + Z.of_nat k <= len b.
Proof.
  intros Hi Hc Hcon Hh Hp. rewrite (left_over_ok b m Hh). destruct (Hh) as (_ & _ & _ & Hl & [Hs Hsl] & _).
  destruct (_tsb_unipro_send_ok w i c (drop (Z.to_nat (byte_sent b)) (data b)) (som b) Hc Hcon)
    as (h' & [[-> Hr]|(k & -> & Hk & _)]).
  - exists h', 0%nat, [], []. rewrite !app_nil_r. split_and!; [by destruct w| |by apply partial_stalled|lia].
    intros j _. by case_bool_decide.
  - eexists _, k, [(cportid_to_tx_buffer i + offset_of (Data (som b) []), take k (drop (Z.to_nat (byte_sent b)) (data b)))], [Data (som b) (take k (drop (Z.to_nat (byte_sent b)) (data b)))].
    split_and!; [reflexivity| |by apply partial_more|rewrite length_drop in Hk; lia].
    intros j Hj. exact (wire_store [] i j (Data (som b) (take k (drop (Z.to_nat (byte_sent b)) (data b)))) Hi Hj).
Qed.

Lemma holds_advance b m k :
  holds b m -> byte_sent b + Z.of_nat k <= len b -> holds (advance b k) m.
Proof. intros (? & ? & ? & ? & ? & ?) ?. unfold holds, advance; simpl. split_and!; try done; lia. Qed.

(** The buffer stays at the head. *)
Lemma busy_ok A0 w acc done i c p l b' h' ext pcs m pend' frames part :
  core A0 w acc done -> cports w !! i = Some c -> tx_fifo c = p :: l -> is_Some (bufs w !! p) ->
  of_cport i acc = of_cport i done ++ m :: pend' -> Forall2 frame (of_cport i done) frames ->
  wire (written w) i = concat frames ++ part -> is_connected c = true ->
  (forall j, (j < CPORT_MAX)%nat -> wire ext j = if bool_decide (i = j) then pcs else []) ->
  partial b' (part ++ pcs) -> holds b' m ->
  Forall2 (fun p m => exists b, bufs w !! p = Some b /\ holds b m /\ untouched b) l pend' ->
  core A0 (mk_world h' (irq w) (mem w) (<[p := b']> (bufs w)) (cports w) (tx_fifo_lock w) (written w ++ ext) (calls w) (usr w))
    acc done.
Proof.
  intros Hco Hi Hl Hp Hacc Hfr Hw Hcon Hext Hpa Hh Hq. destruct Hco as [Hlen Hnd Hdom Hports Hmem Hcalls Hirq].
  assert (Hic : (i < CPORT_MAX)%nat) by (apply lookup_lt_Some in Hi; lia).
  assert (Hpl : p ∉ l).
  { destruct (all_bufs_split _ i c c Hi) as (l1 & l2 & E1 & _). unfold all_bufs in Hnd. rewrite E1, Hl in Hnd.
    apply NoDup_app in Hnd as (_ & _ & Hnd). cbn [app] in Hnd. apply NoDup_cons in Hnd as [Hn _]. set_solver. }
  split; cbn [cports bufs mem calls irq written]; try done.
  - intros q. rewrite <- (Hdom q : _ <-> q ∈ all_bufs w). destruct (decide (q = p)) as [->|Hne].
    + rewrite lookup_insert_eq. split; [done|eauto].
    + by rewrite lookup_insert_ne by done.
  - refine (ports_step w (mk_world h' (irq w) (mem w) (<[p := b']> (bufs w)) (cports w) (tx_fifo_lock w)
      (written w ++ ext) (calls w) (usr w)) i c c acc acc done done Hlen Hports Hnd Hi _ _ _ _ _);
      cbn [cports bufs written].
    + symmetry. by apply list_insert_id.
    + intros q _ Hq'. apply lookup_insert_ne. rewrite Hl in Hq'. set_solver.
    + intros j Hne Hj. rewrite wire_app, Hext, bool_decide_false, app_nil_r by congruence. done.
    + done.
    + exists (m :: pend'), frames, (part ++ pcs). split_and!; [done|done| | |done].
      * rewrite wire_app, Hext, bool_decide_true, Hw, app_assoc by done. done.
      * rewrite Hl. destruct (queue_next (bufs w) (<[p:=b']> (bufs w)) l pend' Hq) as [Hq1 _].
        { intros q Hql. apply lookup_insert_ne. set_solver. }
        split; [constructor; [exists b'; by rewrite lookup_insert_eq|exact Hq1]|].
        split; [exists b'; by rewrite lookup_insert_eq|].
        apply Forall_lookup. intros k q Hk. destruct (Forall2_lookup_l _ _ _ _ _ Hq Hk) as (mq & _ & bq & ? & ? & ?).
        exists bq. rewrite lookup_insert_ne; [done|]. intros ->. apply Hpl. by apply list_elem_of_lookup_2 with k.
  - destruct Hmem as (A & Hr & Hb). exists A. split; [done|]. intros x. specialize (Hb x).
    destruct (decide (x + block_header = p)) as [<-|Hne].
    + rewrite decide_True in Hb by done. rewrite decide_True by (rewrite lookup_insert_eq; eauto). done.
    + by rewrite lookup_insert_ne by done.
Qed.

(** The buffer leaves the queue. *)
Lemma gone_ok A0 w w' acc done i c p l b m pend' frames part pcs ext :
  core A0 w acc done -> cports w !! i = Some c -> tx_fifo c = p :: l -> bufs w !! p = Some b -> holds b m ->
  of_cport i acc = of_cport i done ++ m :: pend' -> Forall2 frame (of_cport i done) frames ->
  wire (written w) i = concat frames ++ part -> is_connected c = true ->
  (forall j, (j < CPORT_MAX)%nat -> wire ext j = if bool_decide (i = j) then pcs else []) ->
  frame m (part ++ pcs) ->
  Forall2 (fun p m => exists b, bufs w !! p = Some b /\ holds b m /\ untouched b) l pend' ->
  bufs w' = delete p (bufs w) -> cports w' = <[i := with_fifo c l]> (cports w) -> written w' = written w ++ ext ->
  calls w' = (if bool_decide (callback b = 0) then calls w else calls w ++ [(callback b, 0, data b, priv b)]) ->
  irq w' = irq w -> mem_holds A0 (mem w') (bufs w') ->
  core A0 w' acc (done ++ [(i, m)]).
Proof.
  intros Hco Hi Hl Hp Hh Hacc Hfr Hw Hcon Hext Hf Hq Eb Ec Ew Ecl Eq Hm'.
  destruct Hco as [Hlen Hnd Hdom Hports Hmem Hcalls Hirq].
  assert (Hic : (i < CPORT_MAX)%nat) by (apply lookup_lt_Some in Hi; lia).
  destruct (all_bufs_split _ i c (with_fifo c l) Hi) as (l1 & l2 & E1 & E2).
  assert (Hab : all_bufs w = l1 ++ p :: l ++ l2) by (unfold all_bufs; by rewrite E1, Hl).
  assert (Hab' : all_bufs w' = l1 ++ l ++ l2) by (unfold all_bufs; by rewrite Ec, E2).
  assert (Hnd' := Hnd). rewrite Hab in Hnd'. apply NoDup_app in Hnd' as (Hn1 & Hn2 & Hn3).
  apply NoDup_cons in Hn3 as [Hn4 Hn5].
  split; try done.
  - by rewrite Ec, length_insert.
  - rewrite Hab'. apply NoDup_app. split_and!; [done| |done]. intros x Hx1 Hx2. apply (Hn2 x Hx1). by right.
  - intros q. rewrite Eb, Hab'. destruct (decide (q = p)) as [->|Hne].
    + rewrite lookup_delete_eq. split; [by intros [??]|]. rewrite elem_of_app. intros [Hq'|Hq']; [|done].
      exfalso. apply (Hn2 p Hq'). by left.
    + rewrite lookup_delete_ne by done. rewrite Hdom, Hab, !elem_of_app, elem_of_cons, elem_of_app. tauto.
  - refine (ports_step w w' i c (with_fifo c l) acc acc done _ Hlen Hports Hnd Hi Ec _ _ _ _).
    + intros q _ Hq'. rewrite Eb. apply lookup_delete_ne. rewrite Hl in Hq'. set_solver.
    + intros j Hne Hj. rewrite Ew, wire_app, Hext, bool_decide_false, app_nil_r by congruence. done.
    + intros j Hne. rewrite of_cport_snoc, bool_decide_false, app_nil_r by congruence. done.
    + exists pend', (frames ++ [part ++ pcs]), []. split_and!.
      * rewrite of_cport_snoc, bool_decide_true, Hacc, <- app_assoc by done. done.
      * rewrite of_cport_snoc, bool_decide_true by done. apply Forall2_app; [done|by constructor].
      * rewrite Ew, wire_app, Hext, bool_decide_true, Hw, concat_app by done. simpl. by rewrite !app_nil_r, app_assoc.
      * apply (queue_next (bufs w)); [done|]. intros q Hql. rewrite Eb. apply lookup_delete_ne. intros ->.
        apply Hn4. apply elem_of_app. by left.
      * done.
  - rewrite Ecl, fmap_app, omap_app, Hcalls. cbn [fmap list_fmap snd omap list_omap].
    destruct Hh as (-> & -> & -> & _). unfold completion.
    destruct (bool_decide (m_cb m = 0)); [by rewrite app_nil_r|done].
  - by rewrite Eq.
Qed.

Lemma send_tx_ok A0 w acc done i c :
  core A0 w acc done -> cports w !! i = Some c ->
  exists w' ret done' c', tsb_unipro_send_tx_buffer reg_base w i = Ret (w', ret) /\ core A0 w' acc done' /\
    cports w' = <[i := c']> (cports w) /\ tx_fifo_lock w' = tx_fifo_lock w /\
    ((ret = 0 /\ length (tx_fifo c') = pred (length (tx_fifo c))) \/
     (ret = - EBUSY /\ length (tx_fifo c') = length (tx_fifo c))).
Proof.
  intros Hco Hi. assert (Hic : (i < CPORT_MAX)%nat) by (apply lookup_lt_Some in Hi; rewrite (iv_len _ _ _ _ Hco) in Hi; lia).
  unfold tsb_unipro_send_tx_buffer, get_cport. rewrite Hi. cbn [mbind outcome_bind deref].
  destruct (tx_fifo c) as [|p l] eqn:Hl.
  { exists w, 0, done, c. rewrite list_insert_id by done. rewrite Hl. split_and!; [done..|by left]. }
  destruct (iv_ports _ _ _ _ Hco i c Hi) as (pend & frames & part & Hacc & Hfr & Hw & Hq & Hcon).
  rewrite Hl in Hq. destruct (queue_cons _ _ _ _ _ Hq) as (b & m & pend' & -> & Hb & Hh & Hpa & Hrest).
  specialize (Hcon ltac:(done)). rewrite Hb. cbn [mbind outcome_bind deref].
  destruct (send_head w i c b m part Hic Hi Hcon Hh Hpa) as (h' & k & ext & pcs & Es & Hext & Hpa' & Hk).
  unfold left_over in Es. rewrite Es. cbn [mbind outcome_bind]. rewrite bool_decide_false by lia.
  assert (Hh' := holds_advance b m k Hh Hk). fold (advance b k).
  cbn [set_bufs hw irq mem bufs cports tx_fifo_lock written calls usr].
  assert (Hco1 := busy_ok A0 w acc done i c p l (advance b k) h' ext pcs m pend' frames part Hco Hi Hl
    ltac:(eauto) Hacc Hfr Hw Hcon Hext Hpa' Hh' Hrest).
  case_bool_decide as Ee.
  2:{ eexists _, (- EBUSY), done, c. split; [reflexivity|]. split; [exact Hco1|].
      cbn [cports tx_fifo_lock]. rewrite list_insert_id by done. rewrite Hl. split_and!; [done..|by right]. }
  set (w1 := unipro_set_eom_flag _ i).
  destruct (mem_holds_free A0 (mem w) (<[p := advance b k]> (bufs w)) p (advance b k)) as (Hp0 & m' & Em & Hm');
    [exact (iv_mem _ _ _ _ Hco1)|by apply lookup_insert_eq|].
  rewrite (dequeue_ok w1 i c p (advance b k) l (iv_nodup _ _ _ _ Hco) Hi Hl (lookup_insert_eq _ _ _) Hp0 m' Em).
  cbn [mbind outcome_bind]. eexists _, 0, (done ++ [(i, m)]), (with_fifo c l). split; [reflexivity|].
  split; [|cbn [cports tx_fifo_lock with_fifo tx_fifo length]; split_and!; [done..|by left]].
  assert (Hext' : forall j, (j < CPORT_MAX)%nat ->
    wire (ext ++ [(cportid_to_tx_buffer i + CPORT_TX_BUF_SIZE - 1, [1])]) j = if bool_decide (i = j) then pcs ++ [Eom] else []).
  { intros j Hj. replace (cportid_to_tx_buffer i + CPORT_TX_BUF_SIZE - 1) with (cportid_to_tx_buffer i + offset_of Eom) by (simpl; lia).
    change [1] with (bytes_of Eom). rewrite (wire_store ext i j Eom Hic Hj), Hext by done. by case_bool_decide. }
  refine (gone_ok A0 w _ acc done i c p l b m pend' frames part (pcs ++ [Eom]) _ Hco Hi Hl Hb Hh Hacc Hfr Hw Hcon Hext' _ Hrest
    _ _ _ _ _ _); cbn [bufs cports written calls irq mem].
  - rewrite app_assoc. refine (partial_frame (advance b k) m (part ++ pcs) Hh' _ _ Hpa'); [cbn in *; lia|done].
  - unfold w1; cbn. apply delete_insert_eq.
  - done.
  - unfold w1; cbn. by rewrite app_assoc.
  - done.
  - done.
  - exact Hm'.
Qed.

(** ** What leaves the queues alone *)

Definition keeps (c c' : unipro_cport) : Prop :=
  tx_fifo c' = tx_fifo c /\ (is_connected c = true -> is_connected c' = true).
Record quiet w w' : Prop := {
  q_bufs : bufs w' = bufs w;
  q_mem : mem w' = mem w;
  q_written : written w' = written w;
  q_calls : calls w' = calls w;
  q_lock : tx_fifo_lock w' = tx_fifo_lock w;
  q_cports : Forall2 keeps (cports w) (cports w');
  q_irq : length (irq_state (irq w')) = length (irq_state (irq w));
}.
Lemma keeps_refl (l : list unipro_cport) : Forall2 keeps l l.
Proof. induction l; by constructor. Qed.
Lemma quiet_refl w : quiet w w.
Proof. split; auto using keeps_refl. Qed.
Lemma quiet_trans w1 w2 w3 : quiet w1 w2 -> quiet w2 w3 -> quiet w1 w3.
Proof.
  intros [????? Hc1 ?] [????? Hc2 ?]. split; try congruence. revert Hc2. generalize (cports w3).
  induction Hc1 as [|c c' l l' Hk Hl IH]; intros l3 Hl3; inversion Hl3 as [|? c3 ? ? Hk3]; subst; constructor; [|auto].
  destruct Hk, Hk3. split; [congruence|auto].
Qed.
Lemma quiet_hw w h : quiet w (set_hw w h).
Proof. split; auto using keeps_refl. Qed.
Lemma quiet_usr w u : quiet w (set_usr w u).
Proof. split; auto using keeps_refl. Qed.
Lemma quiet_irq w q : length (irq_state q) = length (irq_state (irq w)) -> quiet w (set_irq w q).
Proof. split; auto using keeps_refl. Qed.
Lemma quiet_cport w i c c' : cports w !! i = Some c -> keeps c c' -> quiet w (put_cport w i c').
Proof.
  intros Hi Hk. split; try done. simpl. rewrite <- (list_insert_id (cports w) i c Hi) at 1.
  apply Forall2_insert; [apply keeps_refl|done].
Qed.

Lemma quiet_fifos w w' : quiet w w' -> tx_fifo <$> cports w' = tx_fifo <$> cports w.
Proof. intros Hq. induction (q_cports _ _ Hq) as [|c c' l l' [Hf _] _ IH]; [done|]. cbn [fmap list_fmap]. by rewrite Hf, <- IH. Qed.

Lemma quiet_core A0 w w' acc done : quiet w w' -> core A0 w acc done -> core A0 w' acc done.
Proof.
  intros Hq [Hlen Hnd Hdom Hports Hmem Hcalls Hirq]. pose proof (quiet_fifos _ _ Hq) as Hf.
  assert (Hab : all_bufs w' = all_bufs w) by (unfold all_bufs; by rewrite Hf). destruct Hq as [Eb Em Ew Ec El Hc Ei].
  split; rewrite ?Hab, ?Eb, ?Em, ?Ew, ?Ec, ?Ei; try done.
  - by rewrite <- (Forall2_length _ _ _ Hc).
  - intros i c' Hi. destruct (Forall2_lookup_r _ _ _ _ _ Hc Hi) as (c & Hi' & Hk1 & Hk2).
    destruct (Hports i c Hi') as (pend & frames & part & Ha & Hfr & Hw & Hqu & Hcon).
    exists pend, frames, part. rewrite Hk1. split_and!; auto.
Qed.
Lemma quiet_units w w' pc owe : quiet w w' -> units_ok w pc owe -> units_ok w' pc owe.
Proof.
  intros Hq Hu i c' Hi. destruct (Forall2_lookup_r _ _ _ _ _ (q_cports _ _ Hq) Hi) as (c & Hi' & Hk & _).
  rewrite Hk, (q_lock _ _ Hq). exact (Hu i c Hi').
Qed.

Lemma attr_access_ok w attr val selector peer write code :
  exists h v rc, attr_access reg_base w attr val selector peer write code = Ret (set_hw w h, v, rc).
Proof.
  unfold attr_access. destruct (attr_done (hw w) attr val selector peer write code) as (h & v & rc & ->).
  by exists h, v, rc.
Qed.

Lemma irq_clear_ok (h : HW) line : 0 <= line -> exists h', irq_clear h line = Ret h'.
Proof. intros. unfold irq_clear. repeat case_bool_decide; try lia; eauto. Qed.

Lemma irq_enable_line_quiet w line :
  0 <= line -> length (irq_state (irq w)) = Z.to_nat CPU_NUM_IRQ ->
  exists h q, irq_enable_line (hw w, irq w) line = Ret (h, q) /\ length (irq_state q) = length (irq_state (irq w)).
Proof.
  intros Hl Hlen. unfold irq_enable_line. case_bool_decide; [eauto|]. unfold get_state. rewrite bool_decide_false by lia.
  destruct (lookup_lt_is_Some_2 (irq_state (irq_disable (irq w))) (Z.to_nat line)) as [n Hn];
    [change (irq_state (irq_disable (irq w))) with (irq_state (irq w)); lia|].
  rewrite Hn. cbn [mbind outcome_bind deref]. case_bool_decide; eexists _, _; (split; [reflexivity|]); [done|].
  simpl. by rewrite length_insert.
Qed.

Lemma clear_int_ok w i : exists w', clear_int reg_base pdata w i = Ret w' /\ quiet w w'.
Proof.
  unfold clear_int. destruct (reg_read _ _ _) as [w1 v] eqn:E1.
  destruct (irq_clear_ok (hw (reg_write reg_base w1 (AHM_RX_EOM_INT_EN_0 + (Z.of_nat i `div` 16) * 4) (Z.ldiff v (lsl 3 (Z.of_nat i * 2)))))
    (cport_irq_base pdata + Z.of_nat i)) as [h' ->]; [lia|].
  cbn [mbind outcome_bind]. eexists. split; [reflexivity|]. unfold reg_read in E1.
  destruct (tsb_unipro_read _ _ _) as [h1 v1]. simplify_eq. split; auto using keeps_refl.
Qed.

Lemma enable_int_ok w i :
  length (irq_state (irq w)) = Z.to_nat CPU_NUM_IRQ -> exists w', enable_int reg_base pdata w i = Ret w' /\ quiet w w'.
Proof.
  intros Hlen. unfold enable_int, enable_rx_interrupt. destruct (reg_read _ _ _) as [w1 v] eqn:E1.
  unfold reg_read in E1. destruct (tsb_unipro_read _ _ _) as [h1 v1]. simplify_eq.
  set (w2 := set_irq _ _). assert (Hq : quiet w w2).
  { split; auto using keeps_refl. simpl. unfold irq_attach. by repeat case_bool_decide. }
  destruct (irq_enable_line_quiet w2 (cport_irq_base pdata + Z.of_nat i)) as (h & q & -> & Hlq);
    [lia|by rewrite (q_irq _ _ Hq)|].
  cbn [mbind outcome_bind fst snd]. eexists. split; [reflexivity|]. apply quiet_trans with w2; [done|].
  by split; auto using keeps_refl.
Qed.

Lemma configure_connected_cport_ok w (id : nat) :
  length (cports w) = cport_count -> (id < cport_count)%nat -> length (irq_state (irq w)) = Z.to_nat CPU_NUM_IRQ ->
  exists w' ret, configure_connected_cport reg_base pdata w (Z.of_nat id) = Ret (w', ret) /\ quiet w w'.
Proof.
  intros Hlen Hid Hirq. unfold configure_connected_cport, cport_get_status, reg_read.
  destruct (tsb_unipro_read _ _ _) as [h1 v1]. case_bool_decide.
  2:{ case_bool_decide; eexists _, _; (split; [reflexivity|apply quiet_hw]). }
  rewrite Nat2Z.id. unfold get_cport. cbn [cports set_hw].
  destruct (lookup_lt_is_Some_2 (cports w) id) as [c Hc]; [lia|]. rewrite Hc. cbn [mbind outcome_bind deref].
  set (w1 := reg_write _ _ _ _). assert (Hq1 : quiet w w1).
  { apply quiet_trans with (put_cport w id (with_connected c)).
    - by apply quiet_cport with c.
    - split; auto using keeps_refl. }
  destruct (clear_int_ok w1 id) as (w2 & -> & Hq2). cbn [mbind outcome_bind].
  pose proof (quiet_trans _ _ _ Hq1 Hq2) as Hq12.
  destruct (enable_int_ok w2 id) as (w3 & -> & Hq3); [by rewrite (q_irq _ _ Hq12)|]. cbn [mbind outcome_bind].
  eexists _, _. split; [reflexivity|]. by apply quiet_trans with w2.
Qed.

Lemma irq_unipro_ok line w :
  0 <= line -> length (cports w) = cport_count -> length (irq_state (irq w)) = Z.to_nat CPU_NUM_IRQ ->
  exists w', irq_unipro reg_base pdata line w = Ret w' /\ quiet w w'.
Proof.
  intros Hl Hlen Hirq. unfold irq_unipro. destruct (irq_clear_ok (hw w) line Hl) as [h0 ->]. cbn [mbind outcome_bind].
  unfold tsb_unipro_local_attr_read, tsb_unipro_local_attr_write.
  destruct (attr_access_ok (set_hw w h0) TSB_INTERRUPTSTATUS 0 0 false false false) as (h1 & v1 & rc1 & ->).
  cbn [mbind outcome_bind fst].
  destruct (attr_done h1 TSB_MAILBOX 0 0 false false false) as (h2 & v2 & rc2 & E2).
  pose proof (mailbox_range _ _ _ _ E2) as Hv.
  assert (E2' : attr_access reg_base (set_hw (set_hw w h0) h1) TSB_MAILBOX 0 0 false false false =
    Ret (set_hw (set_hw (set_hw w h0) h1) h2, v2, rc2)) by (unfold attr_access; cbn [hw set_hw]; by rewrite E2).
  rewrite E2'. cbn [mbind outcome_bind].
  case_bool_decide as Hz; [eexists; split; [reflexivity|split; auto using keeps_refl]|].
  unfold reg_read. destruct (tsb_unipro_read _ _ _) as [h3 v3].
  set (w3 := reg_write _ _ _ _). assert (Hq3 : quiet w w3) by (split; auto using keeps_refl).
  replace (v2 - 1) with (Z.of_nat (Z.to_nat (v2 - 1))) by lia.
  destruct (configure_connected_cport_ok w3 (Z.to_nat (v2 - 1))) as (w4 & ret & -> & Hq4); [done|lia|done|].
  cbn [mbind outcome_bind fst].
  destruct (attr_access_ok w4 TSB_MAILBOX 0 0 false true false) as (h5 & v5 & rc5 & ->). cbn [mbind outcome_bind fst].
  destruct (attr_access_ok (set_hw w4 h5) TSB_INTERRUPTSTATUS 0 0 false false false) as (h6 & v6 & rc6 & ->).
  cbn [mbind outcome_bind fst].
  destruct (attr_access_ok (set_hw (set_hw w4 h5) h6) TSB_MAILBOX 0 0 false false false) as (h7 & v7 & rc7 & ->).
  cbn [mbind outcome_bind fst]. eexists. split; [reflexivity|].
  apply quiet_trans with w3; [done|]. apply quiet_trans with w4; [done|]. split; auto using keeps_refl.
Qed.

Lemma irq_rx_eom_ok w i c : cports w !! i = Some c -> exists w', irq_rx_eom reg_base drivers w i = Ret w' /\ quiet w w'.
Proof.
  intros Hi. unfold irq_rx_eom, get_cport. rewrite Hi. cbn [mbind outcome_bind deref].
  case_bool_decide; [eexists; split; [reflexivity|apply quiet_hw]|].
  unfold reg_read. destruct (tsb_unipro_read _ _ _) as [h1 v1]. destruct (tsb_unipro_read _ _ _) as [h2 v2].
  destruct (rx_handler _); eexists; (split; [reflexivity|split; auto using keeps_refl]).
Qed.

(** ** A client sends *)

Lemma partial_fresh b : untouched b -> partial b [].
Proof. intros [Hs Hb]. exists true, []. simpl. rewrite Hb. split_and!; [done..|congruence|done]. Qed.

Lemma queue_app (bs : gmap Z tsb_unipro_buffer) (l : list Z) pend part p b m :
  queue bs l pend part -> bs !! p = None -> (forall q, q ∈ l -> q <> p) -> holds b m -> untouched b ->
  queue (<[p := b]> bs) (l ++ [p]) (pend ++ [m]) part.
Proof.
  intros [Hq Hh] Hp Hl Hb Hu.
  assert (Hq' : Forall2 (fun p0 m0 => exists b0, <[p:=b]> bs !! p0 = Some b0 /\ holds b0 m0) l pend).
  { apply Forall2_same_length_lookup. split; [by apply Forall2_length in Hq|]. intros k q mq Hk Hm.
    rewrite lookup_insert_ne by (intros ->; eapply Hl; [by apply list_elem_of_lookup_2 with k|done]).
    exact (Forall2_lookup_lr _ _ _ _ _ _ Hq Hk Hm). }
  split; [apply Forall2_app; [done|]; constructor; [|constructor]; exists b; by rewrite lookup_insert_eq|].
  destruct l as [|q l].
  - subst part. simpl. split; [|constructor]. exists b. rewrite lookup_insert_eq. split; [done|]. by apply partial_fresh.
  - destruct Hh as [(b0 & Hb0 & Hpa) Hr]. cbn [app]. split.
    + exists b0. rewrite lookup_insert_ne by (intros ->; eapply Hl; [by left|done]). done.
    + apply Forall_app. split; [|constructor; [|constructor]; exists b; by rewrite lookup_insert_eq].
      rewrite Forall_forall in Hr |- *. intros x Hx. rewrite lookup_insert_ne; [auto|]. intros ->. eapply Hl; [by right|done].
Qed.

Lemma queue_tx_ok A0 w pc owe acc done i c buf cb user_priv :
  core A0 w acc done -> units_ok w pc owe -> cports w !! i = Some c -> Z.of_nat (length buf) < 2 ^ 31 ->
  exists w' ret, queue_tx_buffer w i buf (Z.of_nat (length buf)) cb user_priv = Ret (w', ret) /\
    ((ret = 0 /\ units_ok w' pc (S owe) /\ core A0 w' (acc ++ [(i, mk_msg cb buf user_priv)]) done) \/ (ret < 0 /\ units_ok w' pc owe /\ core A0 w' acc done)).
Proof.
  intros Hco Hu Hi Hlt. unfold queue_tx_buffer, get_cport. rewrite Hi. cbn [mbind outcome_bind deref].
  destruct (is_connected c) eqn:Hcon; cbn [negb]; [|exists w, (- EPIPE); split; [done|by right]].
  destruct (mem_holds_alloc A0 (mem w) (bufs w) sizeof_buffer 0 (iv_mem _ _ _ _ Hco) ltac:(done)) as (m' & p & -> & Hm). cbn [mbind outcome_bind].
  destruct Hco as [Hlen Hnd Hdom Hports Hmem Hcalls Hirq].
  case_bool_decide as Hp0.
  - destruct Hm as [[_ Hm]|[? _]]; [|lia]. eexists _, _. split; [reflexivity|]. right. split_and!; [done|exact Hu|by split].
  - destruct Hm as [[? _]|(_ & Hpn & Hm)]; [done|].
    set (b := mk_buf cb user_priv true 0 (sint32 (Z.of_nat (length buf))) buf).
    set (m := mk_msg cb buf user_priv).
    assert (Hb : holds b m) by (unfold holds, b, m; simpl; rewrite sint32_small by lia; split_and!; (done || lia)).
    assert (Hpa : p ∉ all_bufs w) by (rewrite <- Hdom, Hpn; by intros [??]).
    destruct (all_bufs_split _ i c (with_fifo c (tx_fifo c ++ [p])) Hi) as (l1 & l2 & E1 & E2). fold (all_bufs w) in E1.
    set (w' := put_cport (set_bufs (set_mem w m') (<[p := b]> (bufs w))) i (with_fifo c (tx_fifo c ++ [p]))).
    exists w', 0. split; [reflexivity|]. left. split; [done|]. split.
    { intros j cj. unfold w'. cbn [put_cport set_cports set_lock cports tx_fifo_lock set_bufs set_mem].
      destruct (decide (i = j)) as [<-|Hne].
      - rewrite list_lookup_insert_eq by (by apply lookup_lt_Some in Hi). intros [= <-]. simpl. rewrite length_app. simpl.
        specialize (Hu i c Hi). destruct pc; simpl in *; lia.
      - rewrite list_lookup_insert_ne by done. intros Hj. specialize (Hu j cj Hj). destruct pc; simpl in *; lia. }
    assert (Hab' : all_bufs w' ≡ₚ p :: all_bufs w).
    { unfold all_bufs at 1. change (cports w') with (<[i := with_fifo c (tx_fifo c ++ [p])]> (cports w)). rewrite E2, E1. simpl.
      rewrite <- app_assoc. cbn [app]. solve_Permutation. }
    split; try done; cbn [put_cport set_cports set_lock cports tx_fifo_lock set_bufs set_mem bufs mem calls irq written]; try done.
    + unfold w'; cbn. by rewrite length_insert.
    + rewrite Hab'. by constructor.
    + intros q. change (bufs w') with (<[p := b]> (bufs w)). rewrite Hab'. rewrite elem_of_cons, <- Hdom. destruct (decide (q = p)) as [->|Hne].
      * rewrite lookup_insert_eq. split; [by left|eauto].
      * rewrite lookup_insert_ne by done. tauto.
    + refine (ports_step w w' i c (with_fifo c (tx_fifo c ++ [p])) acc (acc ++ [(i, m)]) done done Hlen Hports Hnd Hi eq_refl _ _ _ _);
        unfold w'; cbn [put_cport set_cports set_lock cports tx_fifo_lock set_bufs set_mem bufs mem calls irq written].
      * intros q Hq _. apply lookup_insert_ne. intros ->. done.
      * done.
      * intros j Hne. by rewrite of_cport_snoc, bool_decide_false, app_nil_r by congruence.
      * destruct (Hports i c Hi) as (pend & frames & part & Hacc & Hfr & Hw & Hq & Hc).
        exists (pend ++ [m]), frames, part. split_and!; [|done|done| |done].
        -- by rewrite of_cport_snoc, bool_decide_true, Hacc, app_assoc by done.
        -- cbn [with_fifo tx_fifo]. apply queue_app; [done|done| |done|done]. intros q Hq' ->. apply Hpa.
           apply elem_of_all_bufs. eauto.
    + exact (Hm b).
Qed.

(** ** The worker's turn *)

Lemma worker_ok A0 w pc owe acc done :
  core A0 w acc done -> units_ok w pc owe ->
  exists w' pc' done', tsb_unipro_tx_worker reg_base w pc = Ret (w', pc') /\ core A0 w' acc done' /\ units_ok w' pc' owe.
Proof.
  intros Hco Hu. destruct pc as [|i busy]; simpl.
  - destruct (tx_fifo_lock w) as [|n] eqn:En; [by exists w, Blocked, done|].
    exists (set_lock w n), (Scan 0 false), done. split_and!; [done|by destruct Hco|].
    intros j c Hj. specialize (Hu j c Hj). simpl in *. rewrite En in Hu. lia.
  - case_bool_decide as Hi.
    + destruct (lookup_lt_is_Some_2 _ _ Hi) as [c Hc].
      destruct (send_tx_ok A0 w acc done i c Hco Hc) as (w' & ret & done' & c' & -> & Hco' & Ecp & Elk & Hl).
      cbn [mbind outcome_bind]. eexists w', _, done'. split_and!; [reflexivity|done|].
      intros j cj. rewrite Ecp, Elk. destruct (decide (i = j)) as [<-|Hne].
      * rewrite list_lookup_insert_eq by done. intros [= <-]. specialize (Hu i c Hc). simpl in Hu.
        rewrite (bool_decide_true (i <= i)%nat), orb_true_r in Hu by lia.
        destruct Hl as [[-> Hl]|[-> Hl]]; rewrite Hl; [rewrite (bool_decide_false (0 = _)) by done; destruct busy; simpl; lia|].
        rewrite bool_decide_true by done. simpl. lia.
      * rewrite list_lookup_insert_ne by done. intros Hj. specialize (Hu j cj Hj). simpl in Hu |- *.
        destruct (bool_decide (ret = - EBUSY)), busy; simpl in *; try lia; revert Hu; repeat case_bool_decide; lia.
    + eexists w, _, done. split_and!; [reflexivity|done|]. rewrite (iv_len _ _ _ _ Hco) in Hi.
      intros j c Hj. specialize (Hu j c Hj). apply lookup_lt_Some in Hj. rewrite (iv_len _ _ _ _ Hco) in Hj.
      destruct busy; simpl in *; [lia|]. rewrite bool_decide_false in Hu by lia. lia.
Qed.

(** ** Runs *)

(** [Send] is [tsb_unipro_send_async] until it enables the interrupts again, and
    [Up] its [semaphore_up]: everything else can come between them.  [Time]: the
    bridge went on by itself, to [h]. *)
Inductive event := Send (i : nat) (m : msg) | Up | Worker | Mailbox | Received (i : nat) | Unpause (i : nat) | Time (h : HW).
Definition legal (e : event) : Prop :=
  match e with
  | Send i m => (i < cport_count)%nat /\ Z.of_nat (length (m_data m)) < 2 ^ 31
  | Received i | Unpause i => (i < cport_count)%nat
  | _ => True
  end.

(** Where the worker is, and how many clients are before their [semaphore_up]. *)
Record turns := mk_turns { worker : tx_worker; owed : nat }.

(** What is accepted of a client: the message, when the call will return 0. *)
Definition exec (line : Z) w (pc : turns) (e : event) : outcome (world HW M E * turns * list (nat * msg)) :=
  match e with
  | Send i m =>
      r ← queue_tx_buffer w i (m_data m) (Z.of_nat (length (m_data m))) (m_cb m) (m_priv m);
      let '(w, ret) := (r : world HW M E * Z) in
      if bool_decide (ret = 0) then Ret (w, mk_turns (worker pc) (S (owed pc)), [(i, m)]) else Ret (w, pc, [])
  | Up => match owed pc with O => Ret (w, pc, []) | S n => Ret (tx_semaphore_up w, mk_turns (worker pc) n, []) end
  | Worker =>
      r ← tsb_unipro_tx_worker reg_base w (worker pc);
      let '(w, t) := (r : world HW M E * tx_worker) in Ret (w, mk_turns t (owed pc), [])
  | Mailbox => w ← irq_unipro reg_base pdata line w; Ret (w : world HW M E, pc, [])
  | Received i => w ← irq_rx_eom reg_base drivers w i; Ret (w : world HW M E, pc, [])
  | Unpause i => r ← tsb_unipro_unpause_rx reg_base w i; Ret (fst (r : world HW M E * Z), pc, [])
  | Time h => Ret (set_hw w h, pc, [])
  end.
Fixpoint run (line : Z) w (pc : turns) (es : list event) : outcome (world HW M E * turns * list (nat * msg)) :=
  match es with
  | [] => Ret (w, pc, [])
  | e :: es =>
      r ← exec line w pc e;
      let '(w, pc, acc) := (r : world HW M E * turns * list (nat * msg)) in
      r ← run line w pc es;
      let '(w, pc, acc') := (r : world HW M E * turns * list (nat * msg)) in Ret (w, pc, acc ++ acc')
  end.

(** Nothing in between, the two steps are the call. *)
Lemma send_then_up line w pc i m w' ret :
  tsb_unipro_send_async w i (m_data m) (Z.of_nat (length (m_data m))) (m_cb m) (m_priv m) = Ret (w', ret) ->
  run line w pc (Send i m :: if bool_decide (ret = 0) then [Up] else []) = Ret (w', pc, if bool_decide (ret = 0) then [(i, m)] else []).
Proof.
  unfold tsb_unipro_send_async. cbn [run exec]. destruct (queue_tx_buffer _ _ _ _ _ _) as [[w1 r1]| |]; [|done..].
  cbn [mbind outcome_bind]. case_bool_decide as Hr; intros [= <- <-].
  - rewrite bool_decide_true by done. by destruct pc.
  - by rewrite bool_decide_false by done.
Qed.

Lemma bridge_exec_ok A0 line w pc acc done e :
  0 <= line -> core A0 w acc done -> units_ok w (worker pc) (owed pc) -> legal e ->
  exists w' pc' acc' done', exec line w pc e = Ret (w', pc', acc') /\ core A0 w' (acc ++ acc') done' /\
    units_ok w' (worker pc') (owed pc').
Proof.
  intros Hline Hco Hu Hl. pose proof (iv_len _ _ _ _ Hco) as Hlen. pose proof (iv_irq _ _ _ _ Hco) as Hirq.
  assert (Hquiet : forall w', quiet w w' -> core A0 w' (acc ++ []) done /\ units_ok w' (worker pc) (owed pc)).
  { intros w' Hq. rewrite app_nil_r. split; [by apply quiet_core with w|by apply quiet_units with w]. }
  destruct e as [i m| | | |i|i|h]; simpl in *.
  - destruct Hl as [Hi Hm]. destruct (lookup_lt_is_Some_2 (cports w) i) as [c Hc]; [lia|].
    destruct (queue_tx_ok A0 w (worker pc) (owed pc) acc done i c (m_data m) (m_cb m) (m_priv m) Hco Hu Hc Hm) as (w' & ret & -> & Hr).
    cbn [mbind outcome_bind]. destruct Hr as [(-> & Hu' & Hco')|(Hr & Hu' & Hco')].
    + eexists w', _, [(i, m)], done. split_and!; [reflexivity| |done]. by destruct m.
    + rewrite bool_decide_false by lia. exists w', pc, [], done. rewrite app_nil_r. split_and!; done.
  - destruct (owed pc) as [|n] eqn:En; [exists w, pc, [], done; rewrite app_nil_r, En; by split_and!|].
    exists (tx_semaphore_up w), (mk_turns (worker pc) n), [], done. rewrite app_nil_r. split; [done|].
    split; [by destruct Hco|]. intros i c Hi. specialize (Hu i c Hi). simpl in *. destruct (worker pc); simpl in *; lia.
  - destruct (worker_ok A0 w (worker pc) (owed pc) acc done Hco Hu) as (w' & t & done' & -> & Hco' & Hu'). cbn [mbind outcome_bind].
    exists w', (mk_turns t (owed pc)), [], done'. by rewrite app_nil_r.
  - destruct (irq_unipro_ok line w Hline Hlen Hirq) as (w' & -> & Hq). cbn [mbind outcome_bind].
    exists w', pc, [], done. split; [done|auto].
  - destruct (lookup_lt_is_Some_2 (cports w) i) as [c Hc]; [lia|].
    destruct (irq_rx_eom_ok w i c Hc) as (w' & -> & Hq). cbn [mbind outcome_bind]. exists w', pc, [], done. split; [done|auto].
  - destruct (lookup_lt_is_Some_2 (cports w) i) as [c Hc]; [lia|].
    unfold tsb_unipro_unpause_rx, get_cport. rewrite Hc. cbn [mbind outcome_bind deref].
    destruct (is_connected c); cbn [negb mbind outcome_bind fst]; eexists _, pc, [], done; (split; [reflexivity|]);
      apply Hquiet; first [apply quiet_refl|apply quiet_hw].
  - exists (set_hw w h), pc, [], done. split; [done|]. apply Hquiet, quiet_hw.
Qed.

Lemma run_core A0 line es : forall w pc acc done,
  0 <= line -> core A0 w acc done -> units_ok w (worker pc) (owed pc) -> Forall legal es ->
  exists w' pc' acc' done', run line w pc es = Ret (w', pc', acc') /\ core A0 w' (acc ++ acc') done' /\
    units_ok w' (worker pc') (owed pc').
Proof.
  induction es as [|e es IH]; intros w pc acc done Hline Hco Hu Hl.
  - exists w, pc, [], done. by rewrite app_nil_r.
  - inversion Hl; subst. destruct (bridge_exec_ok A0 line w pc acc done e) as (w1 & pc1 & acc1 & done1 & E1 & Hco1 & Hu1); [done..|].
    destruct (IH w1 pc1 (acc ++ acc1) done1) as (w' & pc' & acc' & done' & E' & Hco' & Hu'); [done..|].
    exists w', pc', (acc1 ++ acc'), done'. cbn [run]. rewrite E1. cbn [mbind outcome_bind]. rewrite E'. cbn [mbind outcome_bind].
    by rewrite app_assoc.
Qed.

(** As [tsb_unipro_probe] leaves it: nothing queued, the worker blocked. *)
Record booted (A0 : gmap Z nat) w : Prop := {
  bt_cports : cports w = replicate cport_count (mk_cport false 0 []);
  bt_bufs : bufs w = ∅;
  bt_mem : mem_rep (mem w) A0;
  bt_written : written w = [];
  bt_calls : calls w = [];
  bt_irq : length (irq_state (irq w)) = Z.to_nat CPU_NUM_IRQ;
}.

Lemma booted_core A0 w : booted A0 w -> core A0 w [] [].
Proof.
  intros [Hc Hb Hm Hw Hca Hi].
  assert (Hab : all_bufs w = []).
  { unfold all_bufs. rewrite Hc. clear. induction cport_count; [done|]. by cbn [replicate fmap list_fmap concat]. }
  split; rewrite ?Hab; try done.
  - by rewrite Hc, length_replicate.
  - constructor.
  - intros p. rewrite Hb. split; [by intros [??]|by intros ?%elem_of_nil].
  - intros i c Hi'. rewrite Hc in Hi'. apply lookup_replicate in Hi' as [-> _]. exists [], [], [].
    split_and!; [done|constructor|by rewrite Hw| |done]. split; [constructor|done].
  - exists A0. split; [done|]. intros b. rewrite Hb, decide_False; [done|by intros [??]].
Qed.
Lemma booted_units A0 w : booted A0 w -> units_ok w Blocked 0.
Proof. intros Hb i c Hi. rewrite (bt_cports _ _ Hb) in Hi. apply lookup_replicate in Hi as [-> _]. simpl. lia. Qed.

(** Nothing is queued any more: the memory is what it was. *)
Lemma drained A0 w acc done :
  core A0 w acc done -> (forall i c, cports w !! i = Some c -> tx_fifo c = []) -> bufs w = ∅ /\ mem_rep (mem w) A0.
Proof.
  intros Hco Hq. assert (Hb : bufs w = ∅).
  { apply map_eq. intros p. rewrite lookup_empty. destruct (bufs w !! p) eqn:Ep; [|done]. exfalso.
    assert (Hp : p ∈ all_bufs w) by (apply (iv_dom _ _ _ _ Hco); eauto).
    apply elem_of_all_bufs in Hp as (i & c & Hi & Hp). rewrite (Hq i c Hi) in Hp. by apply elem_of_nil in Hp. }
  split; [done|]. destruct (iv_mem _ _ _ _ Hco) as (A & Hr & HA).
  replace A0 with A; [done|]. apply map_eq. intros x. specialize (HA x). rewrite Hb, decide_False in HA; [done|by intros [??]].
Qed.

(** C22.  Under any interleaving of clients that send (in two steps, the queueing
    and the [semaphore_up]), turns of the worker, mailbox and receive interrupts
    and changes of the bridge, no step faults.
    On every CPort the stores into its transmit buffer are the messages it
    accepted, each whole, in order and followed by its end mark, and a beginning
    of the first that is still queued; each completed message is called back
    once, with status 0; and when the worker has no more units to take and no
    client is about to give it one nothing is queued and all the memory is given back.  A message begins with the start
    mark if the bridge has room whenever it is asked. *)
Theorem unipro_sends_in_order A0 line w es :
  0 <= line -> booted A0 w -> Forall legal es ->
  exists w' pc' acc done, run line w (mk_turns Blocked 0) es = Ret (w', pc', acc) /\
    calls w' = omap completion (snd <$> done) /\
    (forall i, (i < cport_count)%nat -> exists pend frames part,
      of_cport i acc = of_cport i done ++ pend /\ Forall2 frame (of_cport i done) frames /\
      wire (written w') i = concat frames ++ part /\
      match pend with
      | [] => part = []
      | m :: _ => exists start ls rest, part = segments start ls /\ concat ls ++ rest = m_data m
      end /\
      (pc' = mk_turns Blocked 0 -> tx_fifo_lock w' = 0%nat -> pend = [])) /\
    (pc' = mk_turns Blocked 0 -> tx_fifo_lock w' = 0%nat -> mem_rep (mem w') A0).
Proof.
  intros Hline Hb Hl.
  destruct (run_core A0 line es w (mk_turns Blocked 0) [] [] Hline (booted_core _ _ Hb) (booted_units _ _ Hb) Hl)
    as (w' & pc' & acc & done & E1 & Hco & Hu).
  exists w', pc', acc, done. split; [done|]. split; [exact (iv_calls _ _ _ _ Hco)|].
  assert (Hdry : pc' = mk_turns Blocked 0 -> tx_fifo_lock w' = 0%nat -> forall i c, cports w' !! i = Some c -> tx_fifo c = []).
  { intros -> Hz i c Hi. specialize (Hu i c Hi). simpl in Hu. apply length_zero_iff_nil. lia. }
  split; [|intros Hp Hz; exact (proj2 (drained A0 w' _ done Hco (Hdry Hp Hz)))].
  intros i Hi. destruct (lookup_lt_is_Some_2 (cports w') i) as [c Hc]; [by rewrite (iv_len _ _ _ _ Hco)|].
  destruct (iv_ports _ _ _ _ Hco i c Hc) as (pend & frames & part & Ha & Hf & Hw & Hq & _).
  exists pend, frames, part. split_and!; [done..| |].
  - destruct (tx_fifo c) as [|p l]; [destruct Hq as [Hq ->]; by inversion Hq|].
    destruct (queue_cons _ _ _ _ _ Hq) as (b & m & pend' & -> & _ & (_ & <- & _) & (st & ls & -> & Hcc & _) & _).
    exists st, ls, (drop (Z.to_nat (byte_sent b)) (data b)). split; [done|]. rewrite Hcc. apply take_drop.
  - intros Hp Hz. rewrite (Hdry Hp Hz i c Hc) in Hq. destruct Hq as [Hq _]. by inversion Hq.
Qed.

(** ** Sending at once *)

Lemma send_loop_ok n : forall w i c buf ls (sent : nat),
  roomy -> (i < CPORT_MAX)%nat -> cports w !! i = Some c -> is_connected c = true ->
  (sent <= length buf)%nat -> (length buf - sent <= n)%nat -> concat ls = take sent buf ->
  exists w' ls', send_loop reg_base n w i buf (Z.of_nat (length buf)) (Z.of_nat sent) (bool_decide (ls = [])) =
      Ret (w', Z.of_nat (length buf)) /\
    concat (ls ++ ls') = buf /\ (cports w' = cports w /\ bufs w' = bufs w /\ calls w' = calls w) /\
    forall pre, wire (written w) i = pre ++ segments true ls -> wire (written w') i = pre ++ segments true (ls ++ ls').
Proof.
  induction n as [|n IH]; intros w i c buf ls sent Hr Hi Hc Hcon Hs Hn Hls; cbn [send_loop].
  - rewrite bool_decide_true by lia. exists w, []. rewrite app_nil_r, Hls. replace (Z.of_nat sent) with (Z.of_nat (length buf)) by lia.
    split_and!; [done|apply take_ge; lia|done..].
  - case_bool_decide as Hz.
    { exists w, []. rewrite app_nil_r, Hls. replace (Z.of_nat sent) with (Z.of_nat (length buf)) by lia.
      split_and!; [done|apply take_ge; lia|done..]. }
    rewrite Nat2Z.id. replace (Z.of_nat (length buf) - Z.of_nat sent) with (Z.of_nat (length (drop sent buf)))
      by (rewrite length_drop; lia).
    destruct (_tsb_unipro_send_ok w i c (drop sent buf) (bool_decide (ls = [])) Hc Hcon) as (h' & [[_ Hnr]|(k & -> & Hk & Hk0)]); [done|].
    cbn [mbind outcome_bind]. rewrite bool_decide_false by lia. rewrite length_drop in Hk.
    assert (Hkp : (0 < k)%nat).
    { destruct k; [|lia]. specialize (Hk0 eq_refl). apply (f_equal length) in Hk0. rewrite length_drop in Hk0. simpl in Hk0. lia. }
    rewrite (bool_decide_true (Z.of_nat k <> 0)) by lia.
    set (l := take k (drop sent buf)). set (w1 := store_at _ _ _).
    replace false with (bool_decide (ls ++ [l] = [])) by (rewrite bool_decide_false; [done|by destruct ls]).
    rewrite <- Nat2Z.inj_add.
    destruct (IH w1 i c buf (ls ++ [l]) (sent + k)%nat Hr Hi Hc Hcon) as (w' & ls' & E1 & Hcc & Hq & Hw); [lia|lia| |].
    { rewrite concat_app, Hls. simpl. rewrite app_nil_r. unfold l. by rewrite take_take_drop. }
    exists w', (l :: ls'). rewrite E1. rewrite <- app_assoc in Hcc. cbn [app] in Hcc. split; [done|].
    split; [done|]. split; [exact Hq|]. intros pre Hpre. rewrite <- app_assoc in Hw. cbn [app] in Hw. apply Hw.
      assert (Hw1 : wire (written w1) i = wire (written w) i ++ [Data (bool_decide (ls = [])) l]).
      { unfold w1. cbn [store_at written set_hw].
        pose proof (wire_store (written w) i i (Data (bool_decide (ls = [])) l) Hi Hi) as Hws.
        rewrite (bool_decide_true (i = i)) in Hws by done. exact Hws. }
      rewrite Hw1, Hpre, segments_snoc, app_assoc. do 2 f_equal. f_equal. by destruct ls.
Qed.

(** With room in the bridge a message of any length goes out whole, marked at
    both ends, and nothing else is changed. *)
Lemma tsb_unipro_send_whole w i c buf :
  roomy -> (i < CPORT_MAX)%nat -> cports w !! i = Some c -> is_connected c = true ->
  exists w' ls, tsb_unipro_send reg_base (length buf) w i buf (Z.of_nat (length buf)) = Ret (w', Z.of_nat (length buf)) /\
    concat ls = buf /\ wire (written w') i = wire (written w) i ++ segments true ls ++ [Eom] /\
    cports w' = cports w /\ bufs w' = bufs w /\ calls w' = calls w.
Proof.
  intros Hr Hi Hc Hcon. unfold tsb_unipro_send.
  destruct (send_loop_ok (length buf) w i c buf [] 0 Hr Hi Hc Hcon) as (w' & ls & E1 & Hcc & Hq & Hw); [lia|lia|done|].
  rewrite bool_decide_true in E1 by done. change (Z.of_nat 0) with 0 in E1. rewrite E1. cbn [mbind outcome_bind].
  rewrite bool_decide_false by lia. exists (unipro_set_eom_flag w' i), ls. split_and!; try done.
  - unfold unipro_set_eom_flag, store_at. cbn [written].
    replace (cportid_to_tx_buffer i + CPORT_TX_BUF_SIZE - 1) with (cportid_to_tx_buffer i + offset_of Eom) by (simpl; lia).
    change [1] with (bytes_of Eom). rewrite (wire_store (written w') i i Eom Hi Hi), bool_decide_true by done.
    specialize (Hw (wire (written w) i)). rewrite app_nil_r in Hw. rewrite (Hw eq_refl). cbn [app]. by rewrite app_assoc.
  - apply Hq.
  - apply Hq.
  - apply Hq.
Qed.
End Sending.

(** ** A bridge with three CPorts *)

Module Ex.
#[local] Existing Instance Mm.Mm.mm_mem_ops.
#[local] Existing Instance Mm.Mm.mm_mem_spec.
#[local] Existing Instance Irq.Irq.Ex.nvic_mmio.

(** [mail]: what the mailbox holds; [space]: the units of room in each transmit
    buffer; [attr]: the attribute of the last access. *)
Record bridge := mk_bridge { nv : Irq.Irq.Ex.nvic; mail : Z; space : Z; attr : Z }.
Definition base : Z := 0x40000000.
Definition in_spaces (a : Z) : bool := bool_decide (base + 0x1000 <= a) && bool_decide (a < base + 0x1100).
Definition reads (h : bridge) (a : Z) : Z :=
  if bool_decide (a = base + A2D_ATTRACS_INT_BEF) then 1
  else if bool_decide (a = base + A2D_ATTRACS_DATA_STS_00) then
    (if bool_decide (attr h = TSB_MAILBOX) then Z.max 0 (Z.min 3 (mail h)) else 0)
  else if in_spaces a then space h else 0.
#[export] Instance bridge_mmio : Mmio bridge := {|
  read32 h a := (h, reads h a);
  write32 h a v :=
    if bool_decide (a = base + A2D_ATTRACS_CTRL_00) then mk_bridge (nv h) (mail h) (space h) (Z.land v 0xFFFF)
    else mk_bridge (write32 (nv h) a v) (mail h) (space h) (attr h);
|}.
#[export] Instance bridge_hw : UniproHw bridge := {| store h _ _ := h; attr_wait _ := 0%nat |}.

Lemma reads_status h : 0 <= reads h (base + A2D_ATTRACS_DATA_STS_00) <= 3.
Proof. unfold reads. rewrite bool_decide_false, bool_decide_true by done. case_bool_decide; lia. Qed.
Lemma poll_ex h : attr_poll base (attr_wait h) h = Ret h.
Proof. reflexivity. Qed.
Lemma access_ex h at_ val selector peer write code :
  exists h' v rc, tsb_unipro_attr_access base h at_ val selector peer write code = Ret (h', v, rc) /\
    (write = false -> 0 <= v <= 3).
Proof.
  unfold tsb_unipro_attr_access. cbv zeta. rewrite poll_ex. cbn [mbind outcome_bind]. unfold tsb_unipro_read, read32, bridge_mmio.
  destruct write, code; eexists _, _, _; (split; [reflexivity|]); intros ?; try done; apply reads_status.
Qed.
#[export] Program Instance bridge_laws : UniproLaws bridge base 3.
Next Obligation.
  intros. destruct (access_ex h attr0 val selector peer write code) as (h' & v & rc & E & _). eauto.
Qed.
Next Obligation.
  intros h h' v rc E. destruct (access_ex h TSB_MAILBOX 0 0 false false false) as (h1 & v1 & rc1 & E1 & Hv).
  rewrite E1 in E. simplify_eq. apply Hv. done.
Qed.

Definition pdata_ex : tsb_unipro_pdata := mk_pdata TSB_UNIPRO_GPBRIDGE 20 0.
(** The driver of a CPort keeps what it received. *)
Definition drivers_ex (d : Z) : unipro_cport_driver (list (Z * Z * Z)) :=
  mk_driver (fun u => (u, 4096)) (Some (fun cport a n u => u ++ [(cport, a, n)])).
Definition world_ex (mail space : Z) (n : nat) : world bridge Mm.Mm.mm (list (Z * Z * Z)) :=
  mk_world (mk_bridge 0 mail space 0)
    (mk_irqs 0 false (replicate 138 1) (replicate 154 (default_irq_handler, 0)))
    Mcache.Mcache.heap_ex ∅ (replicate n (mk_cport false 0 [])) 0 [] [] [].

(** CPort 1 is connected, CPort 0 is not; two messages and many turns, the
    second message being sent before its client gives the unit for it. *)
Definition script : list (event (HW := bridge)) :=
  [Mailbox; Send 0 (mk_msg 7 [1; 2] 70); Send 1 (mk_msg 8 (Z.of_nat <$> seq 0 20) 80); Worker; Up; Worker;
   Send 1 (mk_msg 0 [5; 6; 7] 90)] ++ replicate 24 Worker ++ [Up] ++ replicate 6 Worker.

Lemma unipro_sends_in_order_witness :
  booted (cport_count := 3) ∅ (world_ex 2 1 3) /\
  exists w', run (reg_base := base) pdata_ex drivers_ex 10 (world_ex 2 1 3) (mk_turns Blocked 0) script =
      Ret (w', mk_turns Blocked 0, [(1%nat, mk_msg 8 (Z.of_nat <$> seq 0 20) 80); (1%nat, mk_msg 0 [5; 6; 7] 90)]) /\
    wire (written w') 1 = [Data true (Z.of_nat <$> seq 0 8); Data false (Z.of_nat <$> seq 8 8); Data false (Z.of_nat <$> seq 16 4);
                           Eom; Data true [5; 6; 7]; Eom] /\
    calls w' = [(8, 0, Z.of_nat <$> seq 0 20, 80)] /\ mem_rep (mem w') ∅.
Proof.
  assert (Hb : booted (cport_count := 3) ∅ (world_ex 2 1 3)).
  { split; try reflexivity. exact Mcache.Mcache.heap_ex_rep. }
  split; [exact Hb|].
  destruct (unipro_sends_in_order (cport_count := 3) pdata_ex drivers_ex ltac:(unfold CPORT_MAX; lia) ltac:(vm_compute; congruence)
    ∅ 10 (world_ex 2 1 3) script ltac:(lia) Hb) as (w' & pc' & acc & done & E & _ & _ & Hmem).
  { repeat constructor; vm_compute; congruence. }
  assert (Hr : match run (reg_base := base) pdata_ex drivers_ex 10 (world_ex 2 1 3) (mk_turns Blocked 0) script with
    | Ret (w, pc, acc) => (pc, tx_fifo_lock w, acc, wire (written w) 1, calls w) | _ => (mk_turns Blocked 1, 0%nat, [], [], []) end =
    (mk_turns Blocked 0, 0%nat, [(1%nat, mk_msg 8 (Z.of_nat <$> seq 0 20) 80); (1%nat, mk_msg 0 [5; 6; 7] 90)],
     [Data true (Z.of_nat <$> seq 0 8); Data false (Z.of_nat <$> seq 8 8); Data false (Z.of_nat <$> seq 16 4); Eom;
      Data true [5; 6; 7]; Eom], [(8, 0, Z.of_nat <$> seq 0 20, 80)])) by (vm_compute; reflexivity).
  rewrite E in Hr. injection Hr as -> Hl -> Hw Hc. exists w'. split; [exact E|]. split; [exact Hw|]. split; [exact Hc|].
  by apply Hmem.
Defined.

(** ** Behaviours the code does not mean to have *)

(** When the buffer of the CPort is full at the first attempt, the message is
    sent without its start mark. *)
Example full_buffer_loses_start :
  match run (reg_base := base) pdata_ex drivers_ex 10 (world_ex 2 0 3) (mk_turns Blocked 0)
          ([Mailbox; Send 1 (mk_msg 8 [1; 2; 3] 80); Up; Worker; Worker; Worker; Time (mk_bridge 0 0 1 0)] ++ replicate 8 Worker) with
  | Ret (w, _, _) => wire (written w) 1 | _ => [] end = [Data false [1; 2; 3]; Eom].
Proof. vm_compute. reflexivity. Qed.

(** From CPort 16 on, [clear_int] clears and disables nothing: it shifts by the
    number of the CPort, not by its place in the register. *)
Definition log_mmio : Mmio (list (Z * Z)) := {| read32 h _ := (h, 0xFFFFFFFF); write32 h a v := h ++ [(a, v)] |}.
#[local] Existing Instance log_mmio.
Definition log_hw : UniproHw (list (Z * Z)) := {| store h _ _ := h; attr_wait _ := 0%nat |}.
Definition cleared (i : nat) : list (Z * Z) :=
  match clear_int (M := Mm.Mm.mm) base pdata_ex
          (mk_world [] (mk_irqs 0 false [] []) Mcache.Mcache.heap_ex ∅ [] 0 [] [] tt) i with
  | Ret w => take 2 (hw w) | _ => [] end.
Example clear_int_2 : cleared 2 = [(base + AHM_RX_EOM_INT_BEF_0, 0x30); (base + AHM_RX_EOM_INT_EN_0, 0xFFFFFFCF)].
Proof. vm_compute. reflexivity. Qed.
Example clear_int_beyond_16 : cleared 18 = [(base + AHM_RX_EOM_INT_BEF_0 + 4, 0); (base + AHM_RX_EOM_INT_EN_0 + 4, 0xFFFFFFFF)].
Proof. vm_compute. reflexivity. Qed.

(** A mailbox value beyond the CPorts of the bridge is used as an index. *)
Example mailbox_out_of_range_faults :
  irq_unipro base pdata_ex 10 (world_ex 3 0 2) = Fault.
Proof. vm_compute. reflexivity. Qed.

(** A probe that cannot start its worker frees its state, not the CPorts. *)
Example probe_leaks_cports :
  match tsb_unipro_probe base pdata_ex 10 (world_ex 0 0 0) 3 false with
  | Ret (w, r) => (r, length (cports w)) | _ => (0, 0%nat) end = (- ENOMEM, 3%nat).
Proof. vm_compute. reflexivity. Qed.
End Ex.
End UniproSend.
