(* ===== verification/Switch.v ===== *)
(** The UniPro switch as the supervisory controller drives it,
    [src/apps/svc/tsb_switch.c]: device identifiers, routes between ports, and
    connections between CPorts, made of commands that the switch may refuse.
    The driver of the switch is the table [tsb_switch_ops] of functions on its
    state [HW], any of which may be missing.  The numbers of the UniPro
    attributes and flags come from headers outside of the repository and are
    parameters.  The link power modes, whose structures do too, are left out:
    the boards of the controller are built without them. *)
From S2P Require Import Prelude.
#[local] Open Scope Z_scope.
Module Switch.

Definition SWITCH_UNIPORT_MAX : Z := 14.
Definition SWITCH_PORT_ID : Z := SWITCH_UNIPORT_MAX.
Definition SWITCH_PORT_MAX : Z := SWITCH_UNIPORT_MAX + 1.
Definition INVALID_PORT : Z := 0xFF.
Definition SWITCH_DEVICE_ID : Z := 0.
Definition CPORT_DEFAULT_TOKENVALUE : Z := 32.
Definition CPORT_DEFAULT_T_PROTOCOLID : Z := 0.
Definition CPORT_DEFAULT_TSB_MAXSEGMENTCONFIG : Z := 0x118.
Definition SWVER : Z := 0x0000.
Definition SWSTA : Z := 0x0003.
Definition L4_CPORT_SVC_TO_CC : Z := 0.
Definition L4_CPORT_CC_TO_SVC : Z := 2.
Definition L4_PEERCPORT_SVC_TO_CC : Z := 3.
Definition L4_PEERCPORT_CC_TO_SVC : Z := 2.
Definition CPORT_ENABLE : Z := 0.
Definition IRT_DISABLE : Z := 0.
Definition IRT_ENABLE : Z := 1.

(** UniPro's numbers. *)
Class UniproAttrs := {
  T_CONNECTIONSTATE : Z; T_PEERDEVICEID : Z; T_PEERCPORTID : Z; T_TRAFFICCLASS : Z; T_PROTOCOLID : Z;
  T_TXTOKENVALUE : Z; T_RXTOKENVALUE : Z; T_CPORTFLAGS : Z; T_LOCALBUFFERSPACE : Z; T_CPORTMODE : Z;
  T_CREDITSTOSEND : Z; TSB_MAXSEGMENTCONFIG : Z; N_DEVICEID : Z; N_DEVICEID_VALID : Z;
  UNIPRO_SELINDEX_NULL : Z; CPORT_MODE_APPLICATION : Z; CPORT_FLAGS_E2EFC : Z; CPORT_FLAGS_CSD_N : Z;
  CPORT_FLAGS_CSV_N : Z; DME_DDBL1_MANUFACTURERID : Z; DME_DDBL1_PRODUCTID : Z;
}.

(** The functions of a driver: port, attribute and selector, value. *)
Record tsb_switch_ops (HW : Type) := mk_ops {
  op_set : option (HW -> Z -> Z -> Z -> Z -> HW * Z);
  op_get : option (HW -> Z -> Z -> Z -> HW * Z * Z);
  op_peer_set : option (HW -> Z -> Z -> Z -> Z -> HW * Z);
  op_peer_get : option (HW -> Z -> Z -> Z -> HW * Z * Z);
  op_lut_set : option (HW -> Z -> Z -> Z -> HW * Z);
  op_dev_id_mask_get : option (HW -> Z -> HW * list Z * Z);
  op_dev_id_mask_set : option (HW -> Z -> list Z -> HW * Z);
  op_switch_attr_get : option (HW -> Z -> HW * Z * Z);
  op_switch_id_set : option (HW -> Z -> Z -> Z -> Z -> HW * Z);
  op_switch_attr_set : option (HW -> Z -> Z -> HW * Z);
}.
Arguments mk_ops {HW}. Arguments op_set {HW}. Arguments op_get {HW}. Arguments op_peer_set {HW}. Arguments op_peer_get {HW}.
Arguments op_lut_set {HW}. Arguments op_dev_id_mask_get {HW}. Arguments op_dev_id_mask_set {HW}.
Arguments op_switch_attr_get {HW}. Arguments op_switch_id_set {HW}. Arguments op_switch_attr_set {HW}.

(** [dev_ids]: the device identifier of each port. *)
Record tsb_switch (HW : Type) := mk_switch { hw : HW; ops : tsb_switch_ops HW; dev_ids : list Z }.
Arguments mk_switch {HW}. Arguments hw {HW}. Arguments ops {HW}. Arguments dev_ids {HW}.

Record unipro_connection := mk_conn {
  port_id0 : Z; device_id0 : Z; cport_id0 : Z;
  port_id1 : Z; device_id1 : Z; cport_id1 : Z;
  tc : Z; flags : Z;
}.

Section Switch.
Context {HW : Type} `{UniproAttrs}.
Implicit Types (sw : tsb_switch HW).

Definition set_hw sw (h : HW) : tsb_switch HW := mk_switch h (ops sw) (dev_ids sw).
Definition set_dev_ids sw (l : list Z) : tsb_switch HW := mk_switch (hw sw) (ops sw) l.

(** ** Commands *)

Definition switch_dme_set sw (portid attrid select_index attr_value : Z) : tsb_switch HW * Z :=
  match op_set (ops sw) with
  | None => (sw, - EOPNOTSUPP)
  | Some f => let '(h, rc) := f (hw sw) portid attrid select_index attr_value in (set_hw sw h, rc)
  end.
Definition switch_dme_peer_set sw (portid attrid select_index attr_value : Z) : tsb_switch HW * Z :=
  match op_peer_set (ops sw) with
  | None => (sw, - EOPNOTSUPP)
  | Some f => let '(h, rc) := f (hw sw) portid attrid select_index attr_value in (set_hw sw h, rc)
  end.
(** The getters return the value before the result code. *)
Definition switch_dme_get sw (portid attrid select_index : Z) : tsb_switch HW * Z * Z :=
  match op_get (ops sw) with
  | None => (sw, 0, - EOPNOTSUPP)
  | Some f => let '(h, v, rc) := f (hw sw) portid attrid select_index in (set_hw sw h, v, rc)
  end.
Definition switch_dme_peer_get sw (portid attrid select_index : Z) : tsb_switch HW * Z * Z :=
  match op_peer_get (ops sw) with
  | None => (sw, 0, - EOPNOTSUPP)
  | Some f => let '(h, v, rc) := f (hw sw) portid attrid select_index in (set_hw sw h, v, rc)
  end.
Definition switch_lut_set sw (unipro_portid addr dst_portid : Z) : tsb_switch HW * Z :=
  match op_lut_set (ops sw) with
  | None => (sw, - EOPNOTSUPP)
  | Some f => let '(h, rc) := f (hw sw) unipro_portid addr dst_portid in (set_hw sw h, rc)
  end.
Definition switch_internal_getattr sw (attrid : Z) : tsb_switch HW * Z * Z :=
  match op_switch_attr_get (ops sw) with
  | None => (sw, 0, - EOPNOTSUPP)
  | Some f => let '(h, v, rc) := f (hw sw) attrid in (set_hw sw h, v, rc)
  end.
Definition switch_internal_setattr sw (attrid val : Z) : tsb_switch HW * Z :=
  match op_switch_attr_set (ops sw) with
  | None => (sw, - EOPNOTSUPP)
  | Some f => let '(h, rc) := f (hw sw) attrid val in (set_hw sw h, rc)
  end.
Definition switch_internal_set_id sw (cportid peercportid dis irt : Z) : tsb_switch HW * Z :=
  match op_switch_id_set (ops sw) with
  | None => (sw, - EOPNOTSUPP)
  | Some f => let '(h, rc) := f (hw sw) cportid peercportid dis irt in (set_hw sw h, rc)
  end.
(** [id_mask] is an array on the stack of the caller: [None] until it is filled. *)
Definition switch_dev_id_mask_get sw (unipro_portid : Z) (id_mask : option (list Z)) : tsb_switch HW * option (list Z) * Z :=
  match op_dev_id_mask_get (ops sw) with
  | None => (sw, id_mask, - EOPNOTSUPP)
  | Some f => let '(h, m, rc) := f (hw sw) unipro_portid in (set_hw sw h, Some m, rc)
  end.
Definition switch_dev_id_mask_set sw (unipro_portid : Z) (id_mask : option (list Z)) : outcome (tsb_switch HW * Z) :=
  match op_dev_id_mask_set (ops sw) with
  | None => Ret (sw, - EOPNOTSUPP)
  | Some f => m ← deref id_mask; let '(h, rc) := f (hw sw) unipro_portid m in Ret (set_hw sw h, rc)
  end.

(** ** Connections *)

(** Running on only while the last result is 0. *)
Definition and_then (r : tsb_switch HW * Z) (f : tsb_switch HW -> tsb_switch HW * Z) : tsb_switch HW * Z :=
  let '(sw, rc) := r in if bool_decide (rc <> 0) then (sw, rc) else f sw.

Definition switch_set_port_l4attr sw (portid attrid selector val : Z) : tsb_switch HW * Z :=
  if bool_decide (portid = SWITCH_PORT_ID) then switch_dme_set sw portid attrid selector val
  else switch_dme_peer_set sw portid attrid selector val.
Definition switch_get_port_l4attr sw (portid attrid selector : Z) : tsb_switch HW * Z * Z :=
  if bool_decide (portid = SWITCH_PORT_ID) then switch_dme_get sw portid attrid selector
  else switch_dme_peer_get sw portid attrid selector.

Definition switch_set_pair_attr sw (c : unipro_connection) (attrid val0 val1 : Z) : tsb_switch HW * Z :=
  and_then (switch_set_port_l4attr sw (port_id0 c) attrid (cport_id0 c) val0) (fun sw =>
  switch_set_port_l4attr sw (port_id1 c) attrid (cport_id1 c) val1).

(** The copy of the buffer spaces. *)
Definition buffer_space sw (c : unipro_connection) : tsb_switch HW * Z :=
  let '(sw, cport0_local, rc) := switch_get_port_l4attr sw (port_id0 c) T_LOCALBUFFERSPACE (cport_id0 c) in
  if bool_decide (rc <> 0) then (sw, rc) else
  let '(sw, cport1_local, rc) := switch_get_port_l4attr sw (port_id1 c) T_LOCALBUFFERSPACE (cport_id1 c) in
  if bool_decide (rc <> 0) then (sw, rc) else
  switch_set_pair_attr sw c T_LOCALBUFFERSPACE cport0_local cport1_local.

Definition switch_cport_connect sw (c : unipro_connection) : tsb_switch HW * Z :=
  let e2efc_enabled := bool_decide (Z.land (flags c) CPORT_FLAGS_E2EFC <> 0) in
  let csd_enabled := bool_decide (Z.land (flags c) CPORT_FLAGS_CSD_N = 0) in
  and_then (switch_set_pair_attr sw c T_CONNECTIONSTATE 0 0) (fun sw =>
  and_then (switch_set_pair_attr sw c T_PEERDEVICEID (device_id1 c) (device_id0 c)) (fun sw =>
  and_then (switch_set_pair_attr sw c T_PEERCPORTID (cport_id1 c) (cport_id0 c)) (fun sw =>
  and_then (switch_set_pair_attr sw c T_TRAFFICCLASS (tc c) (tc c)) (fun sw =>
  and_then (switch_set_pair_attr sw c T_PROTOCOLID CPORT_DEFAULT_T_PROTOCOLID CPORT_DEFAULT_T_PROTOCOLID) (fun sw =>
  and_then (switch_set_pair_attr sw c T_TXTOKENVALUE CPORT_DEFAULT_TOKENVALUE CPORT_DEFAULT_TOKENVALUE) (fun sw =>
  and_then (switch_set_pair_attr sw c T_RXTOKENVALUE CPORT_DEFAULT_TOKENVALUE CPORT_DEFAULT_TOKENVALUE) (fun sw =>
  and_then (switch_set_pair_attr sw c T_CPORTFLAGS (flags c) (flags c)) (fun sw =>
  and_then (if e2efc_enabled || (negb e2efc_enabled && csd_enabled) then buffer_space sw c else (sw, 0)) (fun sw =>
  and_then (switch_set_pair_attr sw c T_CPORTMODE CPORT_MODE_APPLICATION CPORT_MODE_APPLICATION) (fun sw =>
  and_then (switch_set_pair_attr sw c T_CREDITSTOSEND 0 0) (fun sw =>
  and_then (switch_set_pair_attr sw c TSB_MAXSEGMENTCONFIG CPORT_DEFAULT_TSB_MAXSEGMENTCONFIG CPORT_DEFAULT_TSB_MAXSEGMENTCONFIG) (fun sw =>
  switch_set_pair_attr sw c T_CONNECTIONSTATE 1 1)))))))))))).

(** The CPort numbers are passed as bytes. *)
Definition switch_cport_disconnect sw (port_id0 cport_id0 port_id1 cport_id1 : Z) : tsb_switch HW * Z :=
  let '(sw, rc0) := switch_dme_peer_set sw port_id0 T_CONNECTIONSTATE (wrap8 cport_id0) 0 in
  let '(sw, rc1) := switch_dme_peer_set sw port_id1 T_CONNECTIONSTATE (wrap8 cport_id1) 0 in
  (sw, if bool_decide (rc0 <> 0) || bool_decide (rc1 <> 0) then 1 else 0).

Definition switch_connection_create sw (c : unipro_connection) : tsb_switch HW * Z :=
  let '(sw, rc) := switch_cport_connect sw c in
  if bool_decide (rc <> 0) then
    let '(sw, _) := switch_cport_disconnect sw (port_id0 c) (cport_id0 c) (port_id1 c) (cport_id1 c) in (sw, rc)
  else (sw, 0).

(** ** Device identifiers and routes *)

(** [sw->dev_ids[port_id]]; an index out of the table is a fault. *)
Definition dev_ids_update sw (port_id dev_id : Z) : outcome (tsb_switch HW) :=
  if bool_decide (SWITCH_PORT_MAX <= port_id) then Fault else
  Ret (set_dev_ids sw (<[Z.to_nat port_id := dev_id]> (dev_ids sw))).
Definition dev_ids_port_to_dev sw (port_id : Z) : Z :=
  if bool_decide (SWITCH_PORT_MAX <= port_id) then INVALID_PORT else
  default INVALID_PORT (dev_ids sw !! Z.to_nat port_id).
Definition dev_ids_destroy sw : tsb_switch HW := set_dev_ids sw (replicate (Z.to_nat SWITCH_PORT_MAX) INVALID_PORT).

Definition switch_if_dev_id_get sw (port_id : Z) : Z * Z :=
  let dev := dev_ids_port_to_dev sw port_id in (dev, if bool_decide (dev = INVALID_PORT) then - EINVAL else 0).
Definition switch_if_dev_id_set sw (port_id dev_id : Z) : outcome (tsb_switch HW * Z) :=
  if bool_decide (SWITCH_UNIPORT_MAX <= port_id) then Ret (sw, - EINVAL) else
  let '(sw, rc) := and_then (switch_dme_peer_set sw port_id N_DEVICEID UNIPRO_SELINDEX_NULL dev_id)
                     (fun sw => switch_dme_peer_set sw port_id N_DEVICEID_VALID UNIPRO_SELINDEX_NULL 1) in
  if bool_decide (rc <> 0) then Ret (sw, rc) else
  sw ← dev_ids_update sw port_id dev_id; Ret (sw, 0).

(** [id_mask[15 - entry / 8] |= 1 << entry % 8] *)
Definition SET_VALID_ENTRY (id_mask : option (list Z)) (entry : Z) : outcome (option (list Z)) :=
  if bool_decide (15 < entry `div` 8) then Fault else
  Ret ((fun m => alter (fun b => Z.lor b (Z.shiftl 1 (entry `mod` 8))) (Z.to_nat (15 - entry `div` 8)) m) <$> id_mask).

(** The mask of one port. *)
Definition update_mask sw (id_mask : option (list Z)) (port_id device_id : Z) : outcome (tsb_switch HW * option (list Z) * Z) :=
  let '(sw, id_mask, rc) := switch_dev_id_mask_get sw port_id id_mask in
  if bool_decide (rc <> 0) && bool_decide (rc <> - EOPNOTSUPP) then Ret (sw, id_mask, rc) else
  id_mask ← SET_VALID_ENTRY id_mask device_id;
  r ← switch_dev_id_mask_set sw port_id id_mask;
  let '(sw, rc) := (r : tsb_switch HW * Z) in
  if bool_decide (rc <> 0) && bool_decide (rc <> - EOPNOTSUPP) then Ret (sw, id_mask, rc) else Ret (sw, id_mask, 0).

(** One direction of the routing table. *)
Definition route sw (port_id device_id dst : Z) : tsb_switch HW * Z :=
  let '(sw, rc) := switch_lut_set sw port_id device_id dst in
  if bool_decide (rc <> 0) then
    let '(sw, _) := switch_dme_peer_set sw port_id N_DEVICEID_VALID UNIPRO_SELINDEX_NULL 0 in (sw, rc)
  else (sw, 0).

Definition switch_setup_routing_table sw (device_id_0 port_id_0 device_id_1 port_id_1 : Z) : outcome (tsb_switch HW * Z) :=
  r ← update_mask sw None port_id_0 device_id_1;
  let '(sw, id_mask, rc) := (r : tsb_switch HW * option (list Z) * Z) in
  if bool_decide (rc <> 0) then Ret (sw, rc) else
  r ← update_mask sw id_mask port_id_1 device_id_0;
  let '(sw, id_mask, rc) := (r : tsb_switch HW * option (list Z) * Z) in
  if bool_decide (rc <> 0) then Ret (sw, rc) else
  Ret (and_then (route sw port_id_0 device_id_1 port_id_1) (fun sw => route sw port_id_1 device_id_0 port_id_0)).

(** The part of [switch_init] that talks to the switch. *)
Definition set_ids sw : tsb_switch HW * Z :=
  and_then (switch_internal_set_id sw L4_CPORT_SVC_TO_CC L4_PEERCPORT_SVC_TO_CC CPORT_ENABLE IRT_ENABLE) (fun sw =>
  switch_internal_set_id sw L4_CPORT_CC_TO_SVC L4_PEERCPORT_CC_TO_SVC CPORT_ENABLE IRT_DISABLE).

End Switch.

(** ** What the commands do

    The switch as its attributes, by side (its own or the peer's), port,
    attribute and selector, and the tables of its ports. *)
Record view := mk_view { attrs : gmap (bool * Z * Z * Z) Z; luts : gmap (Z * Z) Z; masks : gmap Z (list Z) }.

(** A command that the switch accepts does what it says, one that it refuses
    does nothing. *)
Class SwitchSpec (HW : Type) (o : tsb_switch_ops HW) := {
  view_of : HW -> view;
  spec_set f h p a s v h' rc : op_set o = Some f -> f h p a s v = (h', rc) ->
    view_of h' = if bool_decide (rc = 0)
                 then mk_view (<[(false, p, a, s) := v]> (attrs (view_of h))) (luts (view_of h)) (masks (view_of h)) else view_of h;
  spec_peer_set f h p a s v h' rc : op_peer_set o = Some f -> f h p a s v = (h', rc) ->
    view_of h' = if bool_decide (rc = 0)
                 then mk_view (<[(true, p, a, s) := v]> (attrs (view_of h))) (luts (view_of h)) (masks (view_of h)) else view_of h;
  spec_get f h p a s h' v rc : op_get o = Some f -> f h p a s = (h', v, rc) ->
    view_of h' = view_of h /\ (rc = 0 -> attrs (view_of h) !! (false, p, a, s) = Some v);
  spec_peer_get f h p a s h' v rc : op_peer_get o = Some f -> f h p a s = (h', v, rc) ->
    view_of h' = view_of h /\ (rc = 0 -> attrs (view_of h) !! (true, p, a, s) = Some v);
  spec_lut_set f h p a d h' rc : op_lut_set o = Some f -> f h p a d = (h', rc) ->
    view_of h' = if bool_decide (rc = 0)
                 then mk_view (attrs (view_of h)) (<[(p, a) := d]> (luts (view_of h))) (masks (view_of h)) else view_of h;
  spec_mask_get f h p h' m rc : op_dev_id_mask_get o = Some f -> f h p = (h', m, rc) ->
    view_of h' = view_of h /\ rc <> - EOPNOTSUPP /\ (rc = 0 -> masks (view_of h) !! p = Some m /\ length m = 16%nat);
  spec_mask_set f h p m h' rc : op_dev_id_mask_set o = Some f -> f h p m = (h', rc) ->
    view_of h' = if bool_decide (rc = 0)
                 then mk_view (attrs (view_of h)) (luts (view_of h)) (<[p := m]> (masks (view_of h))) else view_of h;
  spec_mask_set_supported f h p m : op_dev_id_mask_set o = Some f -> snd (f h p m) <> - EOPNOTSUPP;
}.

Section Spec.
Context {HW : Type} (o : tsb_switch_ops HW) `{UniproAttrs} `{!SwitchSpec HW o}.
Implicit Types (sw : tsb_switch HW) (c : unipro_connection).
Definition vw sw : view := view_of (hw sw).

(** The attribute of a CPort: that of the switch's own CPorts on its side. *)
Definition key (p a s : Z) : bool * Z * Z * Z := (negb (bool_decide (p = SWITCH_PORT_ID)), p, a, s).










(** ** Connections *)










(** ** Routes *)

(** The bit of a device in a mask of 16 bytes, the last byte first. *)
Definition mask_bit (m : list Z) (d : Z) : bool := Z.testbit (default 0 (m !! Z.to_nat (15 - d `div` 8))) (d `mod` 8).
Definition valid (v : view) (p d : Z) : bool := match masks v !! p with Some m => mask_bit m d | None => false end.

Lemma mask_bit_alter m e d :
  length m = 16%nat -> 0 <= e < 128 -> 0 <= d < 128 ->
  mask_bit (alter (fun b => Z.lor b (Z.shiftl 1 (e `mod` 8))) (Z.to_nat (15 - e `div` 8)) m) d = mask_bit m d || bool_decide (d = e).
Proof.
  intros Hm He Hd. unfold mask_bit.
  assert (Hb : forall x, 0 <= x < 128 -> 0 <= x `div` 8 < 16 /\ 0 <= x `mod` 8 < 8 /\ x = 8 * (x `div` 8) + x `mod` 8).
  { intros x Hx. split; [split; [apply Z.div_pos|apply Z.div_lt_upper_bound]; lia|]. split; [by apply Z.mod_pos_bound|by apply Z.div_mod]. }
  destruct (Hb e He) as (E1 & E2 & E3), (Hb d Hd) as (D1 & D2 & D3).
  destruct (decide (Z.to_nat (15 - e `div` 8) = Z.to_nat (15 - d `div` 8))) as [Eq|Ne].
  - rewrite Eq, list_lookup_alter_eq. destruct (lookup_lt_is_Some_2 m (Z.to_nat (15 - d `div` 8))) as [b ->]; [lia|].
    cbn [fmap option_fmap option_map default]. unfold id. rewrite Z.lor_spec. f_equal. rewrite Z.shiftl_1_l.
    destruct (decide (d = e)) as [->|Hne].
    + rewrite bool_decide_true by done. apply Z.pow2_bits_true. lia.
    + rewrite bool_decide_false by done. apply Z.pow2_bits_false. lia.
  - rewrite list_lookup_alter_ne by done. rewrite bool_decide_false, orb_false_r; [done|]. congruence.
Qed.

(** The switch has masks, or it has not. *)
Definition with_masks : Prop := is_Some (op_dev_id_mask_get o) /\ is_Some (op_dev_id_mask_set o).
Definition without_masks : Prop := op_dev_id_mask_get o = None /\ op_dev_id_mask_set o = None.

Lemma update_mask_ok sw id_mask p d :
  ops sw = o -> with_masks \/ without_masks -> 0 <= d < 128 ->
  exists sw' id_mask' rc, update_mask sw id_mask p d = Ret (sw', id_mask', rc) /\ ops sw' = o /\ dev_ids sw' = dev_ids sw /\
    attrs (vw sw') = attrs (vw sw) /\ luts (vw sw') = luts (vw sw) /\
    (rc = 0 -> with_masks -> forall q x, 0 <= x < 128 ->
       valid (vw sw') q x = valid (vw sw) q x || (bool_decide (q = p) && bool_decide (x = d))).
Proof.
  intros Ho Hm Hd. unfold update_mask, switch_dev_id_mask_get, switch_dev_id_mask_set, SET_VALID_ENTRY. rewrite Ho.
  assert (Hd8 : d `div` 8 < 16) by (apply Z.div_lt_upper_bound; lia).
  rewrite (bool_decide_false (15 < d `div` 8)) by lia.
  destruct Hm as [[[fg Eg] [fs Es]]|[Eg Es]]; rewrite ?Eg.
  2:{ cbn -[Z.div]. rewrite Ho, Es. cbn. eexists _, _, _. split; [reflexivity|]. split_and!; try done. intros _ [[? ?] _]. congruence. }
  destruct (fg (hw sw) p) as [[h m] rc] eqn:Er. destruct (spec_mask_get _ _ _ _ _ _ Eg Er) as (V & Hs & Vm).
  rewrite (bool_decide_true (rc <> - EOPNOTSUPP)), andb_true_r by done.
  destruct (bool_decide_reflect (rc <> 0)) as [Hz|Hz].
  { eexists _, _, _. split; [reflexivity|]. unfold vw. cbn [hw set_hw]. rewrite V. split_and!; done. }
  destruct (Vm ltac:(lia)) as [Em Hlen]. cbn [mbind outcome_bind fmap option_fmap option_map ops set_hw]. rewrite Ho, Es.
  cbn [mbind outcome_bind deref]. set (m' := alter _ _ m). cbn [hw set_hw].
  destruct (fs h p m') as [h' rc'] eqn:Er'. pose proof (spec_mask_set _ _ _ _ _ _ Es Er') as V'.
  pose proof (spec_mask_set_supported _ h p m' Es) as Hs'. rewrite Er' in Hs'. cbn [snd] in Hs'. cbn [mbind outcome_bind].
  rewrite (bool_decide_true (rc' <> - EOPNOTSUPP)), andb_true_r by done.
  assert (Hv : attrs (view_of h') = attrs (vw sw) /\ luts (view_of h') = luts (vw sw))
    by (rewrite V'; case_bool_decide; simpl; rewrite V; done).
  destruct (bool_decide_reflect (rc' <> 0)) as [Hz'|Hz']; (eexists _, _, _; split; [reflexivity|]; split_and!; try apply Hv; try done).
  intros _ _ q x Hx. unfold vw. cbn [hw set_hw]. rewrite V', bool_decide_true by lia. unfold valid. cbn [masks]. rewrite V.
  destruct (decide (q = p)) as [->|Hne].
  - rewrite lookup_insert_eq, Em, bool_decide_true by done. cbn [andb]. by apply mask_bit_alter.
  - by rewrite lookup_insert_ne, bool_decide_false, orb_false_r by done.
Qed.

Lemma route_ok sw p d q :
  ops sw = o ->
  exists sw' rc, route sw p d q = (sw', rc) /\ ops sw' = o /\ dev_ids sw' = dev_ids sw /\ masks (vw sw') = masks (vw sw) /\
    (rc = 0 -> attrs (vw sw') = attrs (vw sw) /\ luts (vw sw') = <[(p, d) := q]> (luts (vw sw))) /\
    (rc <> 0 -> luts (vw sw') = luts (vw sw)).
Proof.
  intros Ho. unfold route, switch_lut_set, switch_dme_peer_set. rewrite Ho.
  assert (Hundo : forall h v, view_of h = v -> forall rc, rc <> 0 ->
    exists sw' rc', (let '(sw1, _) := match op_peer_set (ops (set_hw sw h)) with
        | Some f => let '(h', rc0) := f h p N_DEVICEID_VALID UNIPRO_SELINDEX_NULL 0 in (set_hw (set_hw sw h) h', rc0)
        | None => (set_hw sw h, - EOPNOTSUPP) end in (sw1, rc)) = (sw', rc') /\ rc' = rc /\
      ops sw' = o /\ dev_ids sw' = dev_ids sw /\ masks (vw sw') = masks v /\ luts (vw sw') = luts v).
  { intros h v <- rc Hrc. cbn [ops set_hw]. rewrite Ho. destruct (op_peer_set o) as [f|] eqn:Ef.
    - destruct (f h p N_DEVICEID_VALID UNIPRO_SELINDEX_NULL 0) as [h' rc0] eqn:Er.
      pose proof (spec_peer_set _ _ _ _ _ _ _ _ Ef Er) as V. eexists _, _. split; [reflexivity|]. unfold vw. cbn [hw set_hw].
      rewrite V. split_and!; try done; by case_bool_decide.
    - eexists _, _. by split_and!. }
  destruct (op_lut_set o) as [f|] eqn:Ef.
  - destruct (f (hw sw) p d q) as [h rc] eqn:Er. pose proof (spec_lut_set _ _ _ _ _ _ _ Ef Er) as V.
    destruct (bool_decide_reflect (rc <> 0)) as [Hz|Hz].
    + rewrite bool_decide_false in V by lia. destruct (Hundo h _ V rc Hz) as (sw' & rc' & E & -> & ? & ? & ? & ?).
      exists sw', rc. split_and!; try done.
    + rewrite bool_decide_true in V by lia. exists (set_hw sw h), 0. unfold vw. cbn [hw set_hw]. rewrite V. by split_and!.
  - rewrite bool_decide_true by done. destruct (Hundo (hw sw) _ eq_refl (- EOPNOTSUPP) ltac:(done)) as (sw' & rc' & E & -> & ? & ? & ? & ?).
    exists sw', (- EOPNOTSUPP). assert (Hsw : set_hw sw (hw sw) = sw) by (by destruct sw). rewrite Hsw in E. split_and!; try done.
Qed.

(** When [switch_setup_routing_table] returns 0, each of the two ports
    sends what is for the device of the other to the port of the other, each
    accepts that device besides those it accepted, and no attribute and no other
    route changes.  It never faults for device numbers below 128. *)
Theorem routes_both_ways sw d0 p0 d1 p1 :
  ops sw = o -> with_masks \/ without_masks -> 0 <= d0 < 128 -> 0 <= d1 < 128 ->
  exists sw' rc, switch_setup_routing_table sw d0 p0 d1 p1 = Ret (sw', rc) /\ ops sw' = o /\ dev_ids sw' = dev_ids sw /\
    (rc = 0 ->
       luts (vw sw') = <[(p1, d0) := p0]> (<[(p0, d1) := p1]> (luts (vw sw))) /\ attrs (vw sw') = attrs (vw sw) /\
       (with_masks -> forall q x, 0 <= x < 128 ->
          valid (vw sw') q x = valid (vw sw) q x || (bool_decide (q = p0) && bool_decide (x = d1))
                                                 || (bool_decide (q = p1) && bool_decide (x = d0)))).
Proof.
  intros Ho Hm H0 H1. unfold switch_setup_routing_table.
  destruct (update_mask_ok sw None p0 d1 Ho Hm H1) as (sw1 & m1 & rc1 & -> & O1 & I1 & A1 & L1 & V1). cbn [mbind outcome_bind].
  case_bool_decide as Z1; [by exists sw1, rc1|].
  destruct (update_mask_ok sw1 m1 p1 d0 O1 Hm H0) as (sw2 & m2 & rc2 & -> & O2 & I2 & A2 & L2 & V2). cbn [mbind outcome_bind].
  case_bool_decide as Z2; [exists sw2, rc2; split_and!; try done; congruence|].
  destruct (route_ok sw2 p0 d1 p1 O2) as (sw3 & rc3 & -> & O3 & I3 & M3 & R3 & _). unfold and_then.
  case_bool_decide as Z3; [exists sw3, rc3; split_and!; try done; congruence|].
  destruct (route_ok sw3 p1 d0 p0 O3) as (sw4 & rc4 & -> & O4 & I4 & M4 & R4 & _).
  exists sw4, rc4. split_and!; try done; [congruence|]. intros Z4.
  destruct (R3 Z3) as [RA3 RL3], (R4 Z4) as [RA4 RL4]. split_and!; [congruence|congruence|].
  intros Hw q x Hx. unfold valid. rewrite M4, M3. fold (valid (vw sw2) q x). by rewrite (V2 Z2 Hw q x Hx), (V1 Z1 Hw q x Hx).
Qed.

(** The table of device identifiers follows what was set. *)
Lemma dev_id_set_get sw p d :
  length (dev_ids sw) = Z.to_nat SWITCH_PORT_MAX -> 0 <= p -> d <> INVALID_PORT ->
  exists sw' rc, switch_if_dev_id_set sw p d = Ret (sw', rc) /\ ops sw' = ops sw /\
    (rc = 0 -> p < SWITCH_UNIPORT_MAX /\ switch_if_dev_id_get sw' p = (d, 0) /\
       forall q, 0 <= q -> q <> p -> switch_if_dev_id_get sw' q = switch_if_dev_id_get sw q) /\
    (rc <> 0 -> dev_ids sw' = dev_ids sw).
Proof.
  intros Hlen Hp Hd. unfold switch_if_dev_id_set. case_bool_decide as Hr; [by exists sw, (- EINVAL)|].
  assert (Hset : forall sw1 a v, exists sw2 rc, switch_dme_peer_set sw1 p a UNIPRO_SELINDEX_NULL v = (sw2, rc) /\
    ops sw2 = ops sw1 /\ dev_ids sw2 = dev_ids sw1).
  { intros sw1 a v. unfold switch_dme_peer_set. destruct (op_peer_set (ops sw1)) as [f|]; [|eauto].
    destruct (f _ _ _ _ _) as [h rc]. eauto. }
  unfold and_then. destruct (Hset sw N_DEVICEID d) as (sw1 & rc1 & -> & O1 & I1).
  destruct (Hset sw1 N_DEVICEID_VALID 1) as (sw2 & rc2 & E2 & O2 & I2). rewrite E2.
  destruct (bool_decide_reflect (rc1 <> 0)); [rewrite bool_decide_true by done; exists sw1, rc1; by split_and!|].
  case_bool_decide; [exists sw2, rc2; split_and!; try done; congruence|].
  unfold dev_ids_update. rewrite bool_decide_false by (unfold SWITCH_PORT_MAX; lia). cbn [mbind outcome_bind].
  eexists _, 0. split; [reflexivity|]. split; [cbn; congruence|]. split; [|done]. intros _. split; [lia|].
  unfold switch_if_dev_id_get, dev_ids_port_to_dev. cbn [dev_ids set_dev_ids]. rewrite I2, I1. split.
  - rewrite (bool_decide_false (_ <= p)) by (unfold SWITCH_PORT_MAX; lia).
    rewrite list_lookup_insert_eq by (rewrite Hlen; unfold SWITCH_PORT_MAX in *; lia). simpl. by rewrite bool_decide_false.
  - intros q Hq Hne. by rewrite list_lookup_insert_ne by lia.
Qed.
End Spec.

(** ** A switch that can be told which commands to refuse *)

Module Ex.
#[export] Instance attrs_ex : UniproAttrs := {|
  T_CONNECTIONSTATE := 1; T_PEERDEVICEID := 2; T_PEERCPORTID := 3; T_TRAFFICCLASS := 4; T_PROTOCOLID := 5;
  T_TXTOKENVALUE := 6; T_RXTOKENVALUE := 7; T_CPORTFLAGS := 8; T_LOCALBUFFERSPACE := 9; T_CPORTMODE := 10;
  T_CREDITSTOSEND := 11; TSB_MAXSEGMENTCONFIG := 12; N_DEVICEID := 13; N_DEVICEID_VALID := 14;
  UNIPRO_SELINDEX_NULL := 0; CPORT_MODE_APPLICATION := 1; CPORT_FLAGS_E2EFC := 1; CPORT_FLAGS_CSD_N := 2;
  CPORT_FLAGS_CSV_N := 4; DME_DDBL1_MANUFACTURERID := 15; DME_DDBL1_PRODUCTID := 16;
|}.
Record switch_ex := mk_ex { now : view; refuse : list bool }.
Definition refused (h : switch_ex) : bool := default false (head (refuse h)).
Definition command (h : switch_ex) (v : view) : switch_ex * Z :=
  (mk_ex (if refused h then now h else v) (tail (refuse h)), if refused h then 5 else 0).
Definition put_attr (b : bool) (h : switch_ex) (p a s v : Z) : switch_ex * Z :=
  command h (mk_view (<[(b, p, a, s) := v]> (attrs (now h))) (luts (now h)) (masks (now h))).
Definition get_attr (b : bool) (h : switch_ex) (p a s : Z) : switch_ex * Z * Z :=
  match attrs (now h) !! (b, p, a, s) with
  | Some v => let '(h', rc) := command h (now h) in (h', v, rc)
  | None => (mk_ex (now h) (tail (refuse h)), 0, 1)
  end.
Definition ops_ex : tsb_switch_ops switch_ex :=
  mk_ops (Some (put_attr false)) (Some (get_attr false)) (Some (put_attr true)) (Some (get_attr true))
    (Some (fun h p a d => command h (mk_view (attrs (now h)) (<[(p, a) := d]> (luts (now h))) (masks (now h)))))
    (Some (fun h p => match masks (now h) !! p with
                      | Some m => if bool_decide (length m = 16%nat) then let '(h', rc) := command h (now h) in (h', m, rc)
                                  else (h, [], 1)
                      | None => (h, [], 1) end))
    (Some (fun h p m => command h (mk_view (attrs (now h)) (luts (now h)) (<[p := m]> (masks (now h))))))
    None None None.

Lemma command_spec h v h' rc : command h v = (h', rc) -> now h' = (if bool_decide (rc = 0) then v else now h) /\ rc <> - EOPNOTSUPP.
Proof. unfold command. destruct (refused h); intros [= <- <-]; done. Qed.
Lemma get_attr_spec b h p a s h' v rc :
  get_attr b h p a s = (h', v, rc) -> now h' = now h /\ (rc = 0 -> attrs (now h) !! (b, p, a, s) = Some v).
Proof.
  unfold get_attr. destruct (attrs (now h) !! _) eqn:E.
  - destruct (command h (now h)) as [h1 rc1] eqn:Ec. apply command_spec in Ec as [Ec _]. intros [= H1 H2 H3].
    rewrite <- H1, H2, Ec. by case_bool_decide.
  - by intros [= <- <- <-].
Qed.
#[export] Program Instance spec_ex : SwitchSpec switch_ex ops_ex := {| view_of := now |}.
Next Obligation. intros f h p a s v h' rc [= <-] [E _]%command_spec. exact E. Qed.
Next Obligation. intros f h p a s v h' rc [= <-] [E _]%command_spec. exact E. Qed.
Next Obligation. intros f h p a s h' v rc [= <-] E. exact (get_attr_spec _ _ _ _ _ _ _ _ E). Qed.
Next Obligation. intros f h p a s h' v rc [= <-] E. exact (get_attr_spec _ _ _ _ _ _ _ _ E). Qed.
Next Obligation. intros f h p a d h' rc [= <-] [E _]%command_spec. exact E. Qed.
Next Obligation.
  intros f h p h' m rc [= <-]. destruct (masks (now h) !! p) as [m0|]; [|by intros [= <- <- <-]].
  case_bool_decide; [|by intros [= <- <- <-]]. intros [= <- <- <-].
  cbn [now]. by destruct (refused h).
Qed.
Next Obligation. intros f h p m h' rc [= <-] [E _]%command_spec. exact E. Qed.
Next Obligation.
  intros f h p m [= <-]. destruct (command _ _) as [h' rc] eqn:E. exact (proj2 (command_spec _ _ _ _ E)).
Qed.

Definition sw_ex (p0 s0 p1 s1 : Z) (refuse : list bool) : tsb_switch switch_ex :=
  mk_switch (mk_ex (mk_view (<[key p0 T_LOCALBUFFERSPACE s0 := 100]> (<[key p1 T_LOCALBUFFERSPACE s1 := 200]> ∅)) ∅
                      (<[3 := replicate 16 0]> (<[7 := replicate 16 0]> ∅))) refuse)
    ops_ex (replicate 15 INVALID_PORT).
Definition conn_ex (p0 s0 p1 s1 : Z) : unipro_connection := mk_conn p0 10 s0 p1 11 s1 0 7.
Definition get_ex (sw : tsb_switch switch_ex) (p a s : Z) : option Z := attrs (now (hw sw)) !! key p a s.


Lemma routes_both_ways_witness :
  with_masks ops_ex /\ exists sw', switch_setup_routing_table (sw_ex 3 5 7 2 []) 10 3 11 7 = Ret (sw', 0) /\
    luts (now (hw sw')) !! (3, 11) = Some 7 /\ luts (now (hw sw')) !! (7, 10) = Some 3 /\
    valid (now (hw sw')) 3 11 = true /\ valid (now (hw sw')) 3 10 = false.
Proof.
  assert (Hm : with_masks ops_ex) by (split; eexists; reflexivity). split; [exact Hm|].
  destruct (routes_both_ways ops_ex (sw_ex 3 5 7 2 []) 10 3 11 7 eq_refl (or_introl Hm) ltac:(lia) ltac:(lia))
    as (sw' & rc & E & _ & _ & Hr).
  assert (Hrc : match switch_setup_routing_table (sw_ex 3 5 7 2 []) 10 3 11 7 with Ret (_, rc) => rc | _ => 1 end = 0)
    by (vm_compute; reflexivity).
  rewrite E in Hrc. simpl in Hrc. subst rc. exists sw'. split; [exact E|].
  destruct (Hr eq_refl) as (Hl & _ & Hv). unfold vw in Hl. cbn [view_of spec_ex] in Hl. rewrite Hl.
  split; [reflexivity|]. split; [reflexivity|]. specialize (Hv Hm). split.
  - exact (eq_trans (Hv 3 11 ltac:(lia)) eq_refl).
  - exact (eq_trans (Hv 3 10 ltac:(lia)) eq_refl).
Defined.

(** ** Behaviours the code does not mean to have *)

(** When the last command of a connection of the switch's own CPort is refused,
    the peer's side of that port is cleared and not the CPort itself. *)
Example own_cport_left_connected :
  let '(sw, rc) := switch_connection_create (sw_ex 14 4 7 2 (replicate 27 false ++ [true])) (conn_ex 14 4 7 2) in
  (rc, get_ex sw 14 T_CONNECTIONSTATE 4) = (5, Some 1).
Proof. vm_compute. reflexivity. Qed.

(** After a connection the buffer spaces are what they were: the peer's is not
    told. *)
Example buffer_space_not_told :
  let '(sw, rc) := switch_connection_create (sw_ex 3 5 7 2 []) (conn_ex 3 5 7 2) in
  (get_ex sw 3 T_LOCALBUFFERSPACE 5, get_ex sw 7 T_LOCALBUFFERSPACE 2) = (Some 100, Some 200).
Proof. vm_compute. reflexivity. Qed.

(** A device number from 128 on writes before the array of the mask. *)
Example device_128_faults : switch_setup_routing_table (sw_ex 3 5 7 2 []) 128 3 11 7 = Fault.
Proof. vm_compute. reflexivity. Qed.
End Ex.
End Switch.
