(* ===== verification/SwitchEs2.v ===== *)
(** The driver of the second version of the UniPro switch,
    [src/apps/svc/tsb_switch_es2.c], over the SPI controller of
    [src/drivers/spi/spi-stm32.c]: frames, their status, and the commands of the
    NCP protocol.  The switch is at the other end of the bus: [spi_word] is what
    it does with one word and [spi_cs] what it does when it is selected.  The
    NCP commands and the reception of data run one at a time. *)
From S2P Require Import Prelude Switch.
#[local] Open Scope Z_scope.

(** ** The bus *)

(** A word goes out while one comes in. *)
Class SpiBus (D : Type) := { spi_word : D -> Z -> D * Z; spi_cs : D -> bool -> D }.

Module SwitchEs2.
Import Switch.

Record spi_msg := mk_msg { tx_buffer : option (list Z); rx_buffer : bool; msg_length : nat }.
Definition tx (l : list Z) : spi_msg := mk_msg (Some l) false (length l).
Definition rx (n : nat) : spi_msg := mk_msg None true n.

Definition ES2_SWITCH_NUM_UNIPORTS : Z := 14.
Definition ES2_IRQ_MAX : Z := 16.
Definition ES2_CPORT_RX_MAX_SIZE : nat := 16 + 5 + 272 + 2.
Definition ES2_CPORT_NCP_MAX_PAYLOAD : Z := 256.
Definition ES2_CPORT_DATA_MAX_PAYLOAD : Z := 272.
Definition LNUL : Z := 0x00.
Definition STRW : Z := 0x01.
Definition STRR : Z := 0x02.
Definition SRPT : Z := 0x03.
Definition NACK : Z := 0x04.
Definition ENDP : Z := 0x06.
Definition INIT : Z := 0x08.
Definition HNUL : Z := 0xff.
Definition CPORT_NCP : Z := 0x03.
Definition CPORT_DATA4 : Z := 0x04.
Definition CPORT_DATA5 : Z := 0x05.
Definition WSTATUS0_TXENTFIFOREMAIN_MASK : Z := 0x03.
Definition WSTATUS1_TXENTFIFOREMAIN_MASK : Z := 0xff.
Definition WSTATUS2_TXDATAFIFOREMAIN_MASK : Z := 0x7f.
Definition WSTATUS3_LENERR_MASK : Z := 0x40.
Definition WSTATUS3_TXENTFIFOFULL_MASK : Z := 0x02.
Definition WSTATUS3_TXDATAFIFOFULL_MASK : Z := 0x01.
Definition SWITCH_WAIT_REPLY_LEN : nat := 16.
Definition SWITCH_WRITE_STATUS_LEN : nat := 11.
Definition SWITCH_WRITE_STATUS_NNULL : nat := SWITCH_WAIT_REPLY_LEN + SWITCH_WRITE_STATUS_LEN.
Definition SRPT_SIZE : nat := 19 + 16.
Definition SRPT_REPORT_SIZE : nat := 12.
Definition NCP_SETREQ : Z := 0x00.
Definition NCP_SETCNF : Z := 0x01.
Definition NCP_PEERSETREQ : Z := 0x02.
Definition NCP_PEERSETCNF : Z := 0x03.
Definition NCP_GETREQ : Z := 0x04.
Definition NCP_GETCNF : Z := 0x05.
Definition NCP_PEERGETREQ : Z := 0x06.
Definition NCP_PEERGETCNF : Z := 0x07.
Definition NCP_LUTSETREQ : Z := 0x10.
Definition NCP_LUTSETCNF : Z := 0x11.
Definition NCP_LUTGETREQ : Z := 0x12.
Definition NCP_LUTGETCNF : Z := 0x13.
Definition NCP_SETDEVICEIDMASKREQ : Z := 0x14.
Definition NCP_SETDEVICEIDMASKCNF : Z := 0x15.
Definition NCP_GETDEVICEIDMASKREQ : Z := 0x16.
Definition NCP_GETDEVICEIDMASKCNF : Z := 0x17.
Definition NCP_SWITCHATTRSETREQ : Z := 0x20.
Definition NCP_SWITCHATTRSETCNF : Z := 0x21.
Definition NCP_SWITCHATTRGETREQ : Z := 0x22.
Definition NCP_SWITCHATTRGETCNF : Z := 0x23.
Definition NCP_SWITCHIDSETREQ : Z := 0x24.
Definition NCP_SWITCHIDSETCNF : Z := 0x25.
Definition NCP_SYSCTRLSETREQ : Z := 0x30.
Definition NCP_SYSCTRLSETCNF : Z := 0x31.
Definition NCP_SYSCTRLGETREQ : Z := 0x32.
Definition NCP_SYSCTRLGETCNF : Z := 0x33.
Definition NCP_RESERVED : Z := 0x00.

(** The state of the driver: the switch, the buffer of each CPort, and what was
    given to [unipro_if_rx] (CPort, data) and to the listeners of the switch
    (port, value of its mailbox) so far. *)
Record sw_es2_priv (D : Type) := mk_priv { spi : D; ncp_rxbuf : list Z; data4_rxbuf : list Z; data5_rxbuf : list Z;
  received : list (Z * list Z); events : list (Z * Z) }.
Arguments mk_priv {D}. Arguments spi {D}. Arguments ncp_rxbuf {D}. Arguments data4_rxbuf {D}. Arguments data5_rxbuf {D}. Arguments received {D}. Arguments events {D}.

(** The fixups of the M-PHY, [tsb_es2_mphy_fixups.c]. *)
Record tsb_mphy_fixup := mk_fixup { attrid : Z; select_index : Z; value : Z; flags : Z }.
Definition TSB_MPHY_FIXUP_LAST : Z := 0x1.
Definition TSB_MPHY_FIXUP_MAGIC_R1 : Z := 0x2.
Definition TSB_MPHY_FIXUP (a s v : Z) : tsb_mphy_fixup := mk_fixup a s v 0.
Definition TSB_MPHY_LAST_FIXUP (a s v : Z) : tsb_mphy_fixup := mk_fixup a s v TSB_MPHY_FIXUP_LAST.
Definition TSB_MPHY_MAGIC_R1_FIXUP : tsb_mphy_fixup := mk_fixup 0 0 0 TSB_MPHY_FIXUP_MAGIC_R1.
Definition tsb_mphy_fixup_is_last (fu : tsb_mphy_fixup) : bool := negb (bool_decide (Z.land (flags fu) TSB_MPHY_FIXUP_LAST = 0)).
Definition tsb_mphy_r1_fixup_is_magic (fu : tsb_mphy_fixup) : bool := negb (bool_decide (Z.land (flags fu) TSB_MPHY_FIXUP_MAGIC_R1 = 0)).
Definition tsb_register_1_map_mphy_fixups : list tsb_mphy_fixup := [
  TSB_MPHY_MAGIC_R1_FIXUP; TSB_MPHY_FIXUP 0x8004 0 0xCA; TSB_MPHY_FIXUP 0x8015 0 0x01; TSB_MPHY_FIXUP 0x8022 0 0x44;
   TSB_MPHY_FIXUP 0x8023 0 0x42; TSB_MPHY_FIXUP 0x80A2 0 0x00; TSB_MPHY_FIXUP 0x80AA 0 0xA8;
   TSB_MPHY_FIXUP 0x80BA 0 0x20; TSB_MPHY_FIXUP 0x80A2 1 0x00; TSB_MPHY_FIXUP 0x80AA 1 0xA8;
   TSB_MPHY_FIXUP 0x80BA 1 0x20; TSB_MPHY_FIXUP 0x8094 4 0x09; TSB_MPHY_FIXUP 0x809A 4 0x06;
   TSB_MPHY_FIXUP 0x809B 4 0x03; TSB_MPHY_FIXUP 0x809C 4 0x00; TSB_MPHY_FIXUP 0x80AA 4 0x0F;
   TSB_MPHY_FIXUP 0x80B4 4 0x50; TSB_MPHY_FIXUP 0x80B6 4 0x82; TSB_MPHY_FIXUP 0x80B7 4 0x01;
   TSB_MPHY_FIXUP 0x8094 5 0x09; TSB_MPHY_FIXUP 0x809A 5 0x06; TSB_MPHY_FIXUP 0x809B 5 0x03;
   TSB_MPHY_FIXUP 0x809C 5 0x00; TSB_MPHY_FIXUP 0x80AA 5 0x0F; TSB_MPHY_FIXUP 0x80B4 5 0x50;
   TSB_MPHY_FIXUP 0x80B6 5 0x82; TSB_MPHY_FIXUP 0x80B7 5 0x01; TSB_MPHY_LAST_FIXUP 0x8000 0 0x01].
Definition tsb_register_2_map_mphy_fixups : list tsb_mphy_fixup := [
  TSB_MPHY_FIXUP 0x8000 0 0x02; TSB_MPHY_FIXUP 0x8080 0 0x20; TSB_MPHY_FIXUP 0x8081 0 0x03;
   TSB_MPHY_FIXUP 0x8080 1 0x20; TSB_MPHY_FIXUP 0x8081 1 0x03; TSB_MPHY_FIXUP 0x8082 4 0x3F;
   TSB_MPHY_FIXUP 0x8084 4 0x10; TSB_MPHY_FIXUP 0x8086 4 0x10; TSB_MPHY_FIXUP 0x8087 4 0x01;
   TSB_MPHY_FIXUP 0x8088 4 0x10; TSB_MPHY_FIXUP 0x808D 4 0x0B; TSB_MPHY_FIXUP 0x808E 4 0x00;
   TSB_MPHY_FIXUP 0x8094 4 0x00; TSB_MPHY_FIXUP 0x8096 4 0x00; TSB_MPHY_FIXUP 0x8098 4 0x08;
   TSB_MPHY_FIXUP 0x8099 4 0x50; TSB_MPHY_FIXUP 0x8082 5 0x3F; TSB_MPHY_FIXUP 0x8084 5 0x10;
   TSB_MPHY_FIXUP 0x8086 5 0x10; TSB_MPHY_FIXUP 0x8087 5 0x01; TSB_MPHY_FIXUP 0x8088 5 0x10;
   TSB_MPHY_FIXUP 0x808D 5 0x0B; TSB_MPHY_FIXUP 0x808E 5 0x00; TSB_MPHY_FIXUP 0x8094 5 0x00;
   TSB_MPHY_FIXUP 0x8096 5 0x00; TSB_MPHY_FIXUP 0x8098 5 0x08; TSB_MPHY_LAST_FIXUP 0x8099 5 0x50].

Section Driver.
Context {D : Type} `{SpiBus D}.
Implicit Types (s : sw_es2_priv D) (d : D) (rxbuf : list Z).

Definition set_spi s d : sw_es2_priv D := mk_priv d (ncp_rxbuf s) (data4_rxbuf s) (data5_rxbuf s) (received s) (events s).
Definition with_received s (l : list (Z * list Z)) : sw_es2_priv D := mk_priv (spi s) (ncp_rxbuf s) (data4_rxbuf s) (data5_rxbuf s) l (events s).
Definition with_events s (l : list (Z * Z)) : sw_es2_priv D := mk_priv (spi s) (ncp_rxbuf s) (data4_rxbuf s) (data5_rxbuf s) (received s) l.

(** ** Transfers *)

(** The words of a message, 0xff where it has no data to send. *)
Definition words_of (m : spi_msg) : list Z :=
  match tx_buffer m with Some l => take (msg_length m) l | None => replicate (msg_length m) 0xff end.
Fixpoint exchange d (ws : list Z) : D * list Z :=
  match ws with
  | [] => (d, [])
  | w :: ws => let '(d, r) := spi_word d w in let '(d, rs) := exchange d ws in (d, r :: rs)
  end.
(** [memcpy(rxbuf + at, l, length l)]. *)
Definition store rxbuf (l : list Z) : outcome (list Z) :=
  if bool_decide (length rxbuf < length l)%nat then Fault else Ret (l ++ drop (length l) rxbuf).
Definition stm32_spi_transfer_one8 d rxbuf (m : spi_msg) : outcome (D * list Z) :=
  let '(d, rs) := exchange d (words_of m) in
  if rx_buffer m then rxbuf ← store rxbuf rs; Ret (d, rxbuf) else Ret (d, rxbuf).
(** The messages of this driver that receive do so into one buffer. *)
Definition spi_transfer d rxbuf (msgs : list spi_msg) : outcome (D * list Z) :=
  foldO (fun '(d, rxbuf) m => stm32_spi_transfer_one8 d rxbuf m) (d, rxbuf) msgs.
Definition es2_spi_select d (select : bool) : D := spi_cs d (negb select).

Definition cport_to_rxbuf s (cportid : Z) : option (list Z) :=
  if bool_decide (cportid = CPORT_NCP) then Some (ncp_rxbuf s)
  else if bool_decide (cportid = CPORT_DATA4) then Some (data4_rxbuf s)
  else if bool_decide (cportid = CPORT_DATA5) then Some (data5_rxbuf s) else None.
Definition put_rxbuf s (cportid : Z) rxbuf : sw_es2_priv D :=
  if bool_decide (cportid = CPORT_NCP) then mk_priv (spi s) rxbuf (data4_rxbuf s) (data5_rxbuf s) (received s) (events s)
  else if bool_decide (cportid = CPORT_DATA4) then mk_priv (spi s) (ncp_rxbuf s) rxbuf (data5_rxbuf s) (received s) (events s)
  else mk_priv (spi s) (ncp_rxbuf s) (data4_rxbuf s) rxbuf (received s) (events s).

(** ** Status of a write *)

(** Where the status report is in the block, or an error. *)
Fixpoint find_strw (l : list Z) (i : nat) : nat + Z :=
  match l with
  | [] => inr (- EPROTO)
  | b :: l => if bool_decide (b = STRW) then inl i
              else if bool_decide (b = HNUL) || bool_decide (b = LNUL) then find_strw l (S i) else inr (- EPROTO)
  end.
Definition be16 (hi lo : Z) : Z := Z.lor (Z.shiftl hi 8) lo.
Definition check_status (strw cport len1 len0 s0 s1 s2 s3 endp : Z) : Z :=
  if bool_decide (be16 len1 len0 <> 4) then - EPROTO
  else if bool_decide (endp <> ENDP) then - EPROTO else
  let tx_ent_remain := Z.lor (Z.shiftl (Z.land s0 WSTATUS0_TXENTFIFOREMAIN_MASK) 8) (Z.land s1 WSTATUS1_TXENTFIFOREMAIN_MASK) in
  let tx_data_remain := Z.land s2 WSTATUS2_TXDATAFIFOREMAIN_MASK in
  let len_err := negb (bool_decide (Z.land s3 WSTATUS3_LENERR_MASK = 0)) in
  let tx_ent_full := negb (bool_decide (Z.land s3 WSTATUS3_TXENTFIFOFULL_MASK = 0)) in
  let tx_data_full := negb (bool_decide (Z.land s3 WSTATUS3_TXDATAFIFOFULL_MASK = 0)) in
  if bool_decide (tx_ent_remain = 0) && negb tx_ent_full then - EPROTO
  else if bool_decide (tx_data_remain = 0) && negb tx_data_full then - EPROTO
  else if len_err then - EIO
  else if tx_ent_full then - EAGAIN
  else if tx_data_full then - EAGAIN else 0.
(** [status_block] is the receive buffer, of which the first [size] bytes are searched. *)
Definition es2_transfer_check_write_status (status_block : list Z) (size : nat) : outcome Z :=
  match find_strw (take size status_block) 0 with
  | inr rc => Ret rc
  | inl i => match take 9 (drop i status_block) with
             | [strw; cport; len1; len0; s0; s1; s2; s3; endp] => Ret (check_status strw cport len1 len0 s0 s1 s2 s3 endp)
             | _ => Fault
             end
  end.

(** ** Status of the queues of a CPort *)

Record srpt_read_status_report := mk_rpt { tx_fifo_size : Z; rx_fifo_size : Z }.
Definition srpt_cmd (cport : Z) : list Z := [HNUL; SRPT; cport; 0; 0; ENDP; HNUL].
Definition srpt_report_header (cport : Z) : list Z := [HNUL; SRPT; cport; 0x00; 0xC].
(** The first of [n] offsets from [i] where [l] has the bytes of [h]. *)
Fixpoint find_header (h l : list Z) (i n : nat) : option nat :=
  match n with
  | O => None
  | S n => if bool_decide (take (length h) l = h) then Some i else find_header h (tail l) (S i) n
  end.
Definition es2_read_status s (cport : Z) : outcome (sw_es2_priv D * option srpt_read_status_report * Z) :=
  rxbuf ← deref (cport_to_rxbuf s cport);
  r ← spi_transfer (es2_spi_select (spi s) true) rxbuf [tx (srpt_cmd cport); rx SRPT_SIZE];
  let '(d, rxbuf) := (r : D * list Z) in
  let s := put_rxbuf (set_spi s (es2_spi_select d false)) cport rxbuf in
  match find_header (srpt_report_header cport) rxbuf 0 (SRPT_SIZE - SRPT_REPORT_SIZE) with
  | None => Ret (s, None, - ENOMSG)
  | Some offset =>
      let raw := take 12 (drop (offset + 5) rxbuf) in
      r8 ← deref (raw !! 8%nat); r9 ← deref (raw !! 9%nat); r10 ← deref (raw !! 10%nat); r11 ← deref (raw !! 11%nat);
      Ret (s, Some (mk_rpt (be16 r8 r9) (wrap32 (576 - be16 r10 r11))), 0)
  end.

(** ** Frames *)

Definition write_header (cportid : Z) (tx_size : nat) : list Z :=
  [LNUL; STRW; cportid; Z.shiftr (Z.land (Z.of_nat tx_size) 0xFF00) 8; Z.land (Z.of_nat tx_size) 0xFF].
Definition write_trailer : list Z := [ENDP; LNUL].
(** The padding that makes the number of bytes even. *)
Definition pad (size : nat) : list Z := if Nat.odd size then [LNUL] else [].
(** Is there room for the message?  0 or an error. *)
Definition es2_write_room s (cportid : Z) (tx_size : Z) : outcome (sw_es2_priv D * Z) :=
  if bool_decide (cportid = CPORT_NCP) then
    Ret (s, if bool_decide (ES2_CPORT_NCP_MAX_PAYLOAD <= tx_size) then - ENOMEM else 0)
  else if bool_decide (cportid = CPORT_DATA4) || bool_decide (cportid = CPORT_DATA5) then
    r ← es2_read_status s cportid;
    match r with
    | (s, Some rpt, 0) =>
        Ret (s, if bool_decide (ES2_CPORT_DATA_MAX_PAYLOAD <= tx_size) then - EINVAL
                else if bool_decide (tx_fifo_size rpt <= tx_size) then - ENOMEM else 0)
    | (s, _, rc) => Ret (s, rc)
    end
  else Ret (s, - EINVAL).
Definition es2_write s (cportid : Z) (tx_buf : list Z) : outcome (sw_es2_priv D * Z) :=
  r ← es2_write_room s cportid (Z.of_nat (length tx_buf));
  let '(s, rc) := (r : sw_es2_priv D * Z) in
  if bool_decide (rc <> 0) then Ret (s, rc) else
  rxbuf ← deref (cport_to_rxbuf s cportid);
  let size := (5 + length tx_buf + 2 + SWITCH_WRITE_STATUS_NNULL)%nat in
  r ← spi_transfer (es2_spi_select (spi s) true) rxbuf
        [tx (write_header cportid (length tx_buf)); tx tx_buf; tx write_trailer; rx SWITCH_WRITE_STATUS_NNULL; tx (pad size)];
  let '(d, rxbuf) := (r : D * list Z) in
  rc ← es2_transfer_check_write_status rxbuf SWITCH_WRITE_STATUS_NNULL;
  Ret (put_rxbuf (set_spi s (es2_spi_select d false)) cportid rxbuf, rc).

Definition read_header (cportid : Z) : list Z := [LNUL; STRR; cportid; 0; 0; ENDP; LNUL].
(** The loop over the [n] bytes from [i]: where an answer starts, and whether
    only nulls were seen. *)
Fixpoint scan rxbuf (i n : nat) (null_rxbuf : bool) : outcome (option nat * bool) :=
  match n with
  | O => Ret (None, null_rxbuf)
  | S n =>
      b ← deref (rxbuf !! i);
      let null_rxbuf := if bool_decide (b <> LNUL) && bool_decide (b <> HNUL) then false else null_rxbuf in
      if bool_decide (b = STRR) then Ret (Some i, null_rxbuf)
      else if bool_decide (b = NACK) then Ret (None, null_rxbuf)
      else scan rxbuf (S i) n null_rxbuf
  end.
(** [memcpy] of an answer: all of its bytes are in the buffer and there is
    [room] for them. *)
Definition response rxbuf (i room : nat) : outcome (list Z) :=
  hi ← deref (rxbuf !! (i + 2)%nat); lo ← deref (rxbuf !! (i + 3)%nat);
  let resp_len := Z.to_nat (be16 hi lo) in
  if bool_decide (length rxbuf < i + 4 + resp_len)%nat || bool_decide (room < resp_len)%nat then Fault
  else Ret (take resp_len (drop (i + 4) rxbuf)).
(** The loop, for [fuel] rounds: the bus, the buffer, the answer and the
    result. *)
Fixpoint read_loop (fuel : nat) d rxbuf (cportid : Z) (rx_size room : nat) : outcome (D * list Z * list Z * Z) :=
  match fuel with
  | O => Hang
  | S fuel =>
      let size := (SWITCH_WAIT_REPLY_LEN + rx_size + 7)%nat in
      r ← spi_transfer d rxbuf [tx (read_header cportid); rx (size - 7); tx (pad size)];
      let '(d, rxbuf) := (r : D * list Z) in
      found ← scan rxbuf 0 size true;
      match (found : option nat * bool) with
      | (Some i, _) => resp ← response rxbuf i room; Ret (d, rxbuf, resp, 0)
      | (None, true) => Ret (d, rxbuf, [], - EIO)
      | (None, false) => read_loop fuel d rxbuf cportid rx_size room
      end
  end.
(** [rx_buf] is given by the [room] there is in it; the bytes written there are
    returned. *)
Definition es2_read (fuel : nat) s (cportid : Z) (rx_size room : nat) : outcome (sw_es2_priv D * list Z * Z) :=
  rxbuf ← deref (cport_to_rxbuf s cportid);
  r ← read_loop fuel (es2_spi_select (spi s) true) rxbuf cportid rx_size room;
  let '(d, rxbuf, resp, rc) := (r : D * list Z * list Z * Z) in
  Ret (put_rxbuf (set_spi s (es2_spi_select d false)) cportid rxbuf, resp, rc).

Definition es2_ncp_transfer (fuel : nat) s (tx_buf : list Z) (rx_size : nat) : outcome (sw_es2_priv D * list Z * Z) :=
  r ← es2_write s CPORT_NCP tx_buf;
  let '(s, rc) := (r : sw_es2_priv D * Z) in
  if bool_decide (rc <> 0) then Ret (s, [], rc) else es2_read fuel s CPORT_NCP rx_size rx_size.

(** Data that came in: the queue of the CPort is drained into its buffer and
    given to UniPro. *)
Definition es2_irq_fifo_rx (fuel : nat) s (cportid : Z) : outcome (sw_es2_priv D * Z) :=
  if negb (bool_decide (cportid = CPORT_DATA4) || bool_decide (cportid = CPORT_DATA5)) then Ret (s, - EINVAL) else
  r ← es2_read_status s cportid;
  match (r : sw_es2_priv D * option srpt_read_status_report * Z) with
  | (s, Some rpt, 0) =>
      let len := Z.to_nat (rx_fifo_size rpt) in
      r ← es2_read fuel s cportid len ES2_CPORT_RX_MAX_SIZE;
      let '(s, resp, rc) := (r : sw_es2_priv D * list Z * Z) in
      if bool_decide (rc <> 0) then Ret (s, - EIO) else
      rxbuf ← deref (cport_to_rxbuf s cportid);
      rxbuf ← store rxbuf resp;
      Ret (with_received (put_rxbuf s cportid rxbuf) (received s ++ [(cportid, take len rxbuf)]), 0)
  | (s, _, _) => Ret (s, - EIO)
  end.
Definition es2_data_send s (data : list Z) : outcome (sw_es2_priv D * Z) := es2_write s CPORT_DATA4 data.

(** ** Commands *)

(** The bytes of a number, the most significant first. *)
Definition bytes16 (x : Z) : list Z := [wrap8 (Z.shiftr x 8); wrap8 x].
Definition bytes32 (x : Z) : list Z := [wrap8 (Z.shiftr x 24); wrap8 (Z.shiftr x 16); wrap8 (Z.shiftr x 8); wrap8 x].
Definition be32 (l : list Z) (i : nat) : outcome Z :=
  b3 ← deref (l !! i); b2 ← deref (l !! (i + 1)%nat); b1 ← deref (l !! (i + 2)%nat); b0 ← deref (l !! (i + 3)%nat);
  Ret (Z.lor (Z.shiftl (be16 b3 b2) 16) (be16 b1 b0)).

(** What the commands have in common: a transfer, the check of the function of
    the confirmation, its result code, at [rc_at].  The confirmation is returned
    if it is of the right function. *)
Definition command (fuel : nat) s (req : list Z) (sizeof_cnf : nat) (function_id : Z) (rc_at : nat) :
    outcome (sw_es2_priv D * option (list Z) * Z) :=
  r ← es2_ncp_transfer fuel s req sizeof_cnf;
  let '(s, cnf, rc) := (r : sw_es2_priv D * list Z * Z) in
  if bool_decide (rc <> 0) then Ret (s, None, rc) else
  f ← deref (cnf !! 1%nat);
  if bool_decide (f <> function_id) then Ret (s, None, - EPROTO) else
  rc ← deref (cnf !! rc_at); Ret (s, Some cnf, rc).
(** A command without a value, and one whose value is a word at [at]: [None]
    when the word is not written. *)
Definition set_command (fuel : nat) s (req : list Z) (sizeof_cnf : nat) (function_id : Z) (rc_at : nat) : outcome (sw_es2_priv D * Z) :=
  r ← command fuel s req sizeof_cnf function_id rc_at; Ret (r.1.1, r.2).
Definition get_command (fuel : nat) s (req : list Z) (sizeof_cnf : nat) (function_id : Z) (rc_at val_at : nat) :
    outcome (sw_es2_priv D * option Z * Z) :=
  r ← command fuel s req sizeof_cnf function_id rc_at;
  match (r : sw_es2_priv D * option (list Z) * Z) with
  | (s, Some cnf, rc) => v ← be32 cnf val_at; Ret (s, Some v, rc)
  | (s, None, rc) => Ret (s, None, rc)
  end.

Definition es2_set fuel s (port_id attrid select_index val : Z) : outcome (sw_es2_priv D * Z) :=
  set_command fuel s ([SWITCH_DEVICE_ID; wrap8 port_id; NCP_SETREQ] ++ bytes16 attrid ++ bytes16 select_index ++ bytes32 val) 4 NCP_SETCNF 3.
Definition es2_get fuel s (port_id attrid select_index : Z) : outcome (sw_es2_priv D * option Z * Z) :=
  get_command fuel s ([SWITCH_DEVICE_ID; wrap8 port_id; NCP_GETREQ] ++ bytes16 attrid ++ bytes16 select_index) 8 NCP_GETCNF 3 4.
Definition es2_peer_set fuel s (port_id attrid select_index val : Z) : outcome (sw_es2_priv D * Z) :=
  set_command fuel s ([SWITCH_DEVICE_ID; wrap8 port_id; NCP_PEERSETREQ] ++ bytes16 attrid ++ bytes16 select_index ++ bytes32 val)
    4 NCP_PEERSETCNF 3.
Definition es2_peer_get fuel s (port_id attrid select_index : Z) : outcome (sw_es2_priv D * option Z * Z) :=
  get_command fuel s ([SWITCH_DEVICE_ID; wrap8 port_id; NCP_PEERGETREQ] ++ bytes16 attrid ++ bytes16 select_index) 8 NCP_PEERGETCNF 3 4.
Definition es2_lut_set fuel s (unipro_portid lut_address dest_portid : Z) : outcome (sw_es2_priv D * Z) :=
  set_command fuel s [SWITCH_DEVICE_ID; wrap8 lut_address; NCP_LUTSETREQ; wrap8 unipro_portid; wrap8 dest_portid] 4 NCP_LUTSETCNF 0.
Definition es2_lut_get fuel s (unipro_portid lut_address : Z) : outcome (sw_es2_priv D * option Z * Z) :=
  r ← command fuel s [SWITCH_DEVICE_ID; wrap8 lut_address; NCP_LUTGETREQ; wrap8 unipro_portid; NCP_RESERVED] 4 NCP_LUTGETCNF 0;
  match (r : sw_es2_priv D * option (list Z) * Z) with
  | (s, Some cnf, rc) => p ← deref (cnf !! 3%nat); Ret (s, Some p, rc)
  | (s, None, rc) => Ret (s, None, rc)
  end.
Definition es2_sys_ctrl_set fuel s (sc_addr val : Z) : outcome (sw_es2_priv D * Z) :=
  set_command fuel s ([SWITCH_DEVICE_ID; NCP_RESERVED; NCP_SYSCTRLSETREQ] ++ bytes16 sc_addr ++ bytes32 val) 2 NCP_SYSCTRLSETCNF 0.
(** The value is taken from the result code, a byte that is then swapped as a word. *)
Definition es2_sys_ctrl_get fuel s (sc_addr : Z) : outcome (sw_es2_priv D * option Z * Z) :=
  r ← command fuel s ([SWITCH_DEVICE_ID; NCP_RESERVED; NCP_SYSCTRLGETREQ] ++ bytes16 sc_addr) 6 NCP_SYSCTRLGETCNF 0;
  match (r : sw_es2_priv D * option (list Z) * Z) with
  | (s, Some cnf, rc) => if bool_decide (rc = 0) then v ← be32 [rc; 0; 0; 0] 0; Ret (s, Some v, rc) else Ret (s, None, rc)
  | (s, None, rc) => Ret (s, None, rc)
  end.
Definition es2_dev_id_mask_set fuel s (unipro_portid : Z) (mask : list Z) : outcome (sw_es2_priv D * Z) :=
  if bool_decide (length mask < 16)%nat then Fault else
  set_command fuel s ([SWITCH_DEVICE_ID; wrap8 unipro_portid; NCP_SETDEVICEIDMASKREQ] ++ take 16 mask) 4 NCP_SETDEVICEIDMASKCNF 0.
Definition es2_dev_id_mask_get fuel s (unipro_portid : Z) : outcome (sw_es2_priv D * option (list Z) * Z) :=
  r ← command fuel s [SWITCH_DEVICE_ID; wrap8 unipro_portid; NCP_GETDEVICEIDMASKREQ] 20 NCP_GETDEVICEIDMASKCNF 0;
  match (r : sw_es2_priv D * option (list Z) * Z) with
  | (s, Some cnf, rc) => if bool_decide (length cnf < 20)%nat then Fault else Ret (s, Some (take 16 (drop 4 cnf)), rc)
  | (s, None, rc) => Ret (s, None, rc)
  end.
Definition es2_switch_attr_set fuel s (attrid val : Z) : outcome (sw_es2_priv D * Z) :=
  set_command fuel s ([SWITCH_DEVICE_ID; NCP_RESERVED; NCP_SWITCHATTRSETREQ] ++ bytes16 attrid ++ bytes32 val) 2 NCP_SWITCHATTRSETCNF 0.
Definition es2_switch_attr_get fuel s (attrid : Z) : outcome (sw_es2_priv D * option Z * Z) :=
  get_command fuel s ([SWITCH_DEVICE_ID; NCP_RESERVED; NCP_SWITCHATTRGETREQ] ++ bytes16 attrid) 6 NCP_SWITCHATTRGETCNF 0 2.
Definition es2_switch_id_set fuel s (cportid peer_cportid dis irt : Z) : outcome (sw_es2_priv D * Z) :=
  set_command fuel s [SWITCH_DEVICE_ID; wrap8 (Z.lor (Z.shiftl dis 2) irt); NCP_SWITCHIDSETREQ; SWITCH_DEVICE_ID; wrap8 cportid;
    SWITCH_DEVICE_ID; wrap8 peer_cportid; NCP_RESERVED; SWITCH_PORT_ID] 2 NCP_SWITCHIDSETCNF 0.

(** ** Bringing the switch up *)

Definition SC_MPHY_TRIM0 : Z := 0x0720.
Definition SC_MPHY_TRIM1 : Z := 0x0724.
Definition SC_MPHY_TRIM2 : Z := 0x0728.
Definition SC_MPHY_TRIM3 : Z := 0x072C.
Definition TSB_MPHY_MAP : Z := 0x7F.
Definition TSB_MPHY_MAP_TSB_REGISTER_1 : Z := 0x01.
Definition TSB_MPHY_MAP_NORMAL : Z := 0x00.
Definition TSB_MPHY_MAP_TSB_REGISTER_2 : Z := 0x81.

Definition es2_mphy_trim_fixup_value (mphy_trim : list Z) (port : Z) : outcome Z :=
  if bool_decide (14 <= port) then Fault else
  word ← deref (mphy_trim !! Z.to_nat (port `div` 4));
  Ret (Z.land (Z.shiftr word (port `mod` 4 * 8 + 1)) 0x1f).

(** Running on only while the last result is 0. *)
Definition on_success (r : outcome (sw_es2_priv D * Z)) (f : sw_es2_priv D -> outcome (sw_es2_priv D * Z)) : outcome (sw_es2_priv D * Z) :=
  r ← r; if bool_decide (r.2 <> 0) then Ret r else f r.1.
(** [switch_sys_ctrl_get] into the next of the words. *)
Definition get_trim fuel (sc_addr : Z) (r : outcome (sw_es2_priv D * list (option Z) * bool)) : outcome (sw_es2_priv D * list (option Z) * bool) :=
  r ← r;
  let '(s, l, failed) := (r : sw_es2_priv D * list (option Z) * bool) in
  if (failed : bool) then Ret (s, l, failed) else
  r ← es2_sys_ctrl_get fuel s sc_addr;
  let '(s, v, rc) := (r : sw_es2_priv D * option Z * Z) in Ret (s, l ++ [v], bool_decide (rc <> 0)).
(** The fixups of one map, up to the last. *)
Fixpoint apply_fixups fuel s (port : Z) (mpt : Z) (fu : list tsb_mphy_fixup) : outcome (sw_es2_priv D * Z) :=
  match fu with
  | [] => Fault
  | x :: fu =>
      on_success (if tsb_mphy_r1_fixup_is_magic x then es2_set fuel s port 0x8002 0 mpt
                  else es2_set fuel s port (attrid x) (select_index x) (value x)) (fun s =>
      if tsb_mphy_fixup_is_last x then Ret (s, 0) else apply_fixups fuel s port mpt fu)
  end.
Definition fixup_port fuel (mphy_trim : list Z) s (port : Z) : outcome (sw_es2_priv D * Z) :=
  on_success (es2_set fuel s port TSB_MPHY_MAP 0 TSB_MPHY_MAP_TSB_REGISTER_2) (fun s =>
  on_success (apply_fixups fuel s port 0 tsb_register_2_map_mphy_fixups) (fun s =>
  on_success (es2_set fuel s port TSB_MPHY_MAP 0 TSB_MPHY_MAP_NORMAL) (fun s =>
  on_success (es2_set fuel s port TSB_MPHY_MAP 0 TSB_MPHY_MAP_TSB_REGISTER_1) (fun s =>
  mpt ← es2_mphy_trim_fixup_value mphy_trim port;
  on_success (apply_fixups fuel s port mpt tsb_register_1_map_mphy_fixups) (fun s =>
  es2_set fuel s port TSB_MPHY_MAP 0 TSB_MPHY_MAP_NORMAL))))).
Definition es2_fixup_mphy fuel s : outcome (sw_es2_priv D * Z) :=
  r ← get_trim fuel SC_MPHY_TRIM3 (get_trim fuel SC_MPHY_TRIM2 (get_trim fuel SC_MPHY_TRIM1 (get_trim fuel SC_MPHY_TRIM0 (Ret (s, [], false)))));
  let '(s, l, failed) := (r : sw_es2_priv D * list (option Z) * bool) in
  if (failed : bool) then Ret (s, 1) else
  mphy_trim ← deref (mapM (M := option) id l);
  foldO (fun r port => on_success (Ret r) (fun s => fixup_port fuel mphy_trim s (Z.of_nat port))) (s, 0) (seq 0 (Z.to_nat ES2_SWITCH_NUM_UNIPORTS)).

(** [INIT] then [LNUL] somewhere in the answer. *)
Definition es2_init_seq fuel s : outcome (sw_es2_priv D * Z) :=
  r ← spi_transfer (es2_spi_select (spi s) true) (ncp_rxbuf s) [tx [INIT; INIT]; rx SWITCH_WAIT_REPLY_LEN];
  let '(d, rxbuf) := (r : D * list Z) in
  let s := put_rxbuf (set_spi s (es2_spi_select d false)) CPORT_NCP rxbuf in
  match find_header [INIT; LNUL] rxbuf 0 (SWITCH_WAIT_REPLY_LEN - 1) with
  | None => Ret (s, -1)
  | Some _ => es2_fixup_mphy fuel s
  end.

(** ** Interrupts *)

Definition SWINT : Z := 0x0010.
Definition SWINS : Z := 0x0016.
Definition SPICES : Z := 0x0044.
Definition SPI3ES : Z := 0x0046.
Definition SPI4ES : Z := 0x0048.
Definition SPI5ES : Z := 0x004a.
Definition IRQ_STATUS_MAILBOX : nat := 0xf.
Definition TSB_INTERRUPTSTATUS : Z := 0xd081.
Definition unipro_irq_attr : list Z :=
  [0xd012; 0xd021; 0xd022; 0xd031; 0xd033; 0xd040; 0xd051; 0xd060; 0xd061; 0xd062; 0; 0xd064; 0xd062; 0xd09d; 0xd020; 0xa000].

(** A variable that a getter may write: [None] while it was not. *)
Definition written (old new : option Z) : option Z := match new with Some v => Some v | None => old end.
(** Reading a status of the switch when a bit of [swins] is set. *)
Definition read_status fuel (bit : Z) (attrid : Z) swins (r : sw_es2_priv D * option Z) : outcome (sw_es2_priv D * option Z) :=
  let '(s, attr_value) := r in
  if Z.testbit swins bit then
    r ← es2_switch_attr_get fuel s attrid;
    let '(s, v, _) := (r : sw_es2_priv D * option Z * Z) in Ret (s, written attr_value v)
  else Ret (s, attr_value).
Definition internal_irq fuel (swins : option Z) (r : sw_es2_priv D * option Z) : outcome (sw_es2_priv D * option Z * option Z) :=
  let '(s, attr_value) := r in
  r ← es2_switch_attr_get fuel s SWINS;
  let '(s, v, _) := (r : sw_es2_priv D * option Z * Z) in
  let swins := written swins v in
  w ← deref swins;
  r ← read_status fuel 15 SPICES w (s, attr_value); r ← read_status fuel 11 SPI3ES w r;
  r ← read_status fuel 12 SPI4ES w r; r ← read_status fuel 13 SPI5ES w r;
  Ret ((r : sw_es2_priv D * option Z), swins).
(** One source of interrupts of port [i]. *)
Definition line_irq fuel (i : Z) (port_irq_status : Z) (r : sw_es2_priv D * option Z) (j : nat) : outcome (sw_es2_priv D * option Z) :=
  let '(s, attr_value) := r in
  attr ← deref (unipro_irq_attr !! j);
  if Z.testbit port_irq_status (Z.of_nat j) && negb (bool_decide (attr = 0)) then
    r ← es2_get fuel s i attr 0;
    let '(s, v, _) := (r : sw_es2_priv D * option Z * Z) in
    let attr_value := written attr_value v in
    if bool_decide (j = IRQ_STATUS_MAILBOX) then
      val ← deref attr_value; Ret (with_events s (events s ++ [(i, val)]), attr_value)
    else Ret (s, attr_value)
  else Ret (s, attr_value).
(** Port [i]; the flag says that the loop over the ports was left. *)
Definition port_irq fuel (swint : Z) (r : sw_es2_priv D * option Z * bool) (i : nat) : outcome (sw_es2_priv D * option Z * bool) :=
  let '(s, attr_value, broken) := r in
  if (broken : bool) || negb (Z.testbit swint (Z.of_nat i)) then Ret (s, attr_value, broken) else
  r ← es2_get fuel s (Z.of_nat i) TSB_INTERRUPTSTATUS 0;
  let '(s, v, rc) := (r : sw_es2_priv D * option Z * Z) in
  if bool_decide (rc <> 0) then Ret (s, attr_value, true) else
  port_irq_status ← deref v;
  r ← foldO (line_irq fuel (Z.of_nat i) port_irq_status) (s, attr_value) (seq 0 (Z.to_nat ES2_IRQ_MAX));
  Ret ((r : sw_es2_priv D * option Z), false).
Definition fifo_irq fuel (swint bit cportid : Z) s : outcome (sw_es2_priv D) :=
  if Z.testbit swint bit then r ← es2_irq_fifo_rx fuel s cportid; Ret (r.1) else Ret s.
(** The [rounds] are those of the loop, [fuel] that of the commands. *)
Fixpoint irq_loop (rounds fuel : nat) s (attr_value swins : option Z) : outcome (sw_es2_priv D * Z) :=
  match rounds with
  | O => Hang
  | S rounds =>
      r ← es2_switch_attr_get fuel s SWINT;
      let '(s, v, rc) := (r : sw_es2_priv D * option Z * Z) in
      if bool_decide (rc <> 0) then Ret (s, - EIO) else
      swint ← deref v;
      r ← (if Z.testbit swint 31 then internal_irq fuel swins (s, attr_value) else Ret (s, attr_value, swins));
      let '(s, attr_value, swins) := (r : sw_es2_priv D * option Z * option Z) in
      s ← fifo_irq fuel swint 20 4 s; s ← fifo_irq fuel swint 21 5 s;
      r ← foldO (port_irq fuel swint) (s, attr_value, false) (seq 0 (Z.to_nat SWITCH_PORT_MAX));
      let '(s, attr_value, _) := (r : sw_es2_priv D * option Z * bool) in
      if bool_decide (swint <> 0) then irq_loop rounds fuel s attr_value swins else Ret (s, 0)
  end.
Definition es2_switch_irq_handler (rounds fuel : nat) s : outcome (sw_es2_priv D * Z) := irq_loop rounds fuel s None None.

Definition TSB_INTERRUPTENABLE : Z := 0xd080.
Definition TSB_INTERRUPTENABLE_ALL : Z := 0xFFFF.
Definition es2_port_irq_enable fuel s (port_id : Z) (enable : bool) : outcome (sw_es2_priv D * Z) :=
  r ← es2_set fuel s port_id TSB_INTERRUPTENABLE 0 (if enable then TSB_INTERRUPTENABLE_ALL else 0);
  Ret (r.1, if bool_decide (r.2 <> 0) then - EIO else 0).
Definition SWINE : Z := 0x0015.
Definition SPIINTE : Z := 0x0042.
Definition SPICEE : Z := 0x0043.
Definition SPI3EE : Z := 0x0045.
Definition SPI4EE : Z := 0x0047.
Definition SPI5EE : Z := 0x0049.
Definition SWINE_ENABLE_ALL : Z := 0x7FFFB805.
Definition SPIINTE_ENABLE_ALL : Z := 0x3.
Definition SPICEE_ENABLE_ALL : Z := 0x3.
Definition SPI3EE_ENABLE_ALL : Z := 0x6F.
Definition SPI45EE_ENABLE_ALL : Z := 0xFE00006F.
Definition TSB_L4_INTERRUPTENABLE_ALL : Z := 0x2800.
(** The part of [es2_switch_irq_enable] that talks to the switch. *)
Definition or_eio (r : outcome (sw_es2_priv D * Z)) (f : sw_es2_priv D -> outcome (sw_es2_priv D * Z)) : outcome (sw_es2_priv D * Z) :=
  r ← r; if bool_decide (r.2 <> 0) then Ret (r.1, - EIO) else f r.1.
Definition enable_sources fuel s : outcome (sw_es2_priv D * Z) :=
  or_eio (es2_switch_attr_set fuel s SWINE SWINE_ENABLE_ALL) (fun s =>
  or_eio (es2_set fuel s SWITCH_PORT_ID TSB_INTERRUPTENABLE 0 TSB_L4_INTERRUPTENABLE_ALL) (fun s =>
  or_eio (es2_switch_attr_set fuel s SPIINTE SPIINTE_ENABLE_ALL) (fun s =>
  or_eio (es2_switch_attr_set fuel s SPICEE SPICEE_ENABLE_ALL) (fun s =>
  or_eio (es2_switch_attr_set fuel s SPI3EE SPI3EE_ENABLE_ALL) (fun s =>
  or_eio (es2_switch_attr_set fuel s SPI4EE SPI45EE_ENABLE_ALL) (fun s =>
  or_eio (es2_switch_attr_set fuel s SPI5EE SPI45EE_ENABLE_ALL) (fun s => Ret (s, 0)))))))).
Definition SPICTLB : Z := 0x0041.
Definition tsb_switch_es2_fct_enable fuel s : outcome (sw_es2_priv D * Z) := es2_switch_attr_set fuel s SPICTLB 0xC.
End Driver.
End SwitchEs2.
