(* ===== verification/SwitchNcp.v ===== *)
(** The commands of [SwitchEs2] reach the switch: against any switch that keeps to
    the NCP protocol, written down here from its bytes, each function of the
    driver returns, with the result and the value of the switch. *)
From S2P Require Import Prelude Switch SwitchEs2.
#[local] Open Scope Z_scope.

Module SwitchNcp.
Import Switch SwitchEs2.

(** ** The switch at the other end of the bus

    What the protocol of the switch, NCP, says of commands and confirmations. *)
Inductive ncp_command :=
  | Set_ (p a sel v : Z) | Get (p a sel : Z) | PeerSet (p a sel v : Z) | PeerGet (p a sel : Z)
  | LutSet (p addr dst : Z) | LutGet (p addr : Z) | SysSet (a v : Z) | SysGet (a : Z)
  | MaskSet (p : Z) (m : list Z) | MaskGet (p : Z) | AttrSet (a v : Z) | AttrGet (a : Z) | IdSet (dis irt cport peer : Z).
Inductive ncp_value := VNone | VWord (v : Z) | VMask (m : list Z).

(** What the bytes of a request say. *)
Definition n16 (b1 b0 : Z) : Z := b1 * 2 ^ 8 + b0.
Definition n32 (b3 b2 b1 b0 : Z) : Z := b3 * 2 ^ 24 + b2 * 2 ^ 16 + b1 * 2 ^ 8 + b0.
Definition ncp_parse (req : list Z) : option ncp_command :=
  match req with
  | dev :: p :: f :: args =>
      match f, args with
      | 0x00, [a1; a0; s1; s0; v3; v2; v1; v0] => Some (Set_ p (n16 a1 a0) (n16 s1 s0) (n32 v3 v2 v1 v0))
      | 0x04, [a1; a0; s1; s0] => Some (Get p (n16 a1 a0) (n16 s1 s0))
      | 0x02, [a1; a0; s1; s0; v3; v2; v1; v0] => Some (PeerSet p (n16 a1 a0) (n16 s1 s0) (n32 v3 v2 v1 v0))
      | 0x06, [a1; a0; s1; s0] => Some (PeerGet p (n16 a1 a0) (n16 s1 s0))
      | 0x10, [port; dst] => Some (LutSet port p dst)
      | 0x12, [port; _] => Some (LutGet port p)
      | 0x30, [a1; a0; v3; v2; v1; v0] => Some (SysSet (n16 a1 a0) (n32 v3 v2 v1 v0))
      | 0x32, [a1; a0] => Some (SysGet (n16 a1 a0))
      | 0x14, m => if bool_decide (length m = 16%nat) then Some (MaskSet p m) else None
      | 0x16, [] => Some (MaskGet p)
      | 0x20, [a1; a0; v3; v2; v1; v0] => Some (AttrSet (n16 a1 a0) (n32 v3 v2 v1 v0))
      | 0x22, [a1; a0] => Some (AttrGet (n16 a1 a0))
      | 0x24, [_; cport; _; peer; _; _] => Some (IdSet (p `div` 4) (p mod 4) cport peer)
      | _, _ => None
      end
  | _ => None
  end.
(** The bytes of a confirmation. *)
Definition word_bytes (v : Z) : list Z := [v `div` 2 ^ 24; v `div` 2 ^ 16 mod 2 ^ 8; v `div` 2 ^ 8 mod 2 ^ 8; v mod 2 ^ 8].
Definition value_bytes (v : ncp_value) : list Z := match v with VNone => [] | VWord v => word_bytes v | VMask m => m end.
Definition ncp_confirm (c : ncp_command) (rc : Z) (v : ncp_value) : list Z :=
  match c with
  | Set_ p _ _ _ => [p; 0x01; 0; rc]
  | Get p _ _ => [p; 0x05; 0; rc] ++ value_bytes v
  | PeerSet p _ _ _ => [p; 0x03; 0; rc]
  | PeerGet p _ _ => [p; 0x07; 0; rc] ++ value_bytes v
  | LutSet p _ _ => [rc; 0x11; p; 0]
  | LutGet p _ => [rc; 0x13; p; match v with VWord w => w | _ => 0 end]
  | SysSet _ _ => [rc; 0x31]
  | SysGet _ => [rc; 0x33] ++ value_bytes v
  | MaskSet p _ => [rc; 0x15; p; 0]
  | MaskGet p => [rc; 0x17; p; 0] ++ value_bytes v
  | AttrSet _ _ => [rc; 0x21]
  | AttrGet _ => [rc; 0x23] ++ value_bytes v
  | IdSet _ _ _ _ => [rc; 0x25]
  end.
(** The values there are. *)
Definition value_of (c : ncp_command) (v : ncp_value) : Prop :=
  match c, v with
  | (Get _ _ _ | PeerGet _ _ _ | SysGet _ | AttrGet _), VWord w => 0 <= w < 2 ^ 32
  | LutGet _ _, VWord w => 0 <= w < 2 ^ 8
  | MaskGet _, VMask m => length m = 16%nat
  | (Set_ _ _ _ _ | PeerSet _ _ _ _ | LutSet _ _ _ | SysSet _ _ | MaskSet _ _ | AttrSet _ _ | IdSet _ _ _ _), VNone => True
  | _, _ => False
  end.

Definition nulls (l : list Z) : Prop := Forall (fun b => b = LNUL \/ b = HNUL) l.
(** The status of a write that was taken. *)
Definition taken (rs : list Z) : Prop :=
  exists pre cport s0 s1 s2 s3 post,
    rs = pre ++ [STRW; cport; 0; 4; s0; s1; s2; s3; ENDP] ++ post /\ nulls pre /\
    check_status STRW cport 0 4 s0 s1 s2 s3 ENDP = 0.

(** A switch that keeps to the protocol.  When it is selected and given a frame
    it says so, and owes the confirmation; a reader is put off at most [patience]
    times, after which the confirmation comes behind at most [slowness] nulls. *)
Class NcpSwitch (D : Type) `{SpiBus D} := {
  at_rest : D -> Prop;
  serve : D -> ncp_command -> D * Z * ncp_value;
  owes : D -> nat -> list Z -> D -> Prop;
  patience : nat;
  slowness : nat;
  ncp_served d c : let '(d', rc, v) := serve d c in 0 <= rc < 2 ^ 8 /\ value_of c v;
  ncp_taken d c req d1 rs1 d2 rs d3 rs3 :
    at_rest d -> ncp_parse req = Some c -> (length req < 256)%nat ->
    exchange (es2_spi_select d true) (write_header CPORT_NCP (length req) ++ req ++ write_trailer) = (d1, rs1) ->
    exchange d1 (replicate SWITCH_WRITE_STATUS_NNULL 0xff) = (d2, rs) ->
    exchange d2 (pad (5 + length req + 2 + SWITCH_WRITE_STATUS_NNULL)) = (d3, rs3) ->
    taken rs /\
    exists k, (k < patience)%nat /\
      owes (es2_spi_select (es2_spi_select d3 false) true) k (ncp_confirm c (serve d c).1.2 (serve d c).2) (serve d c).1.1;
  ncp_put_off d k resp d' n d1 rs1 d2 rs d3 rs3 :
    owes d (S k) resp d' -> exchange d (read_header CPORT_NCP) = (d1, rs1) ->
    exchange d1 (replicate (16 + n) 0xff) = (d2, rs) -> exchange d2 (pad (16 + n + 7)) = (d3, rs3) ->
    owes d3 k resp d' /\ exists pre post, rs = pre ++ NACK :: post /\ nulls pre;
  ncp_answers d resp d' n d1 rs1 d2 rs d3 rs3 :
    owes d 0 resp d' -> (length resp <= n)%nat -> exchange d (read_header CPORT_NCP) = (d1, rs1) ->
    exchange d1 (replicate (16 + n) 0xff) = (d2, rs) -> exchange d2 (pad (16 + n + 7)) = (d3, rs3) ->
    es2_spi_select d3 false = d' /\ at_rest d' /\
    exists pre post, rs = pre ++ [STRR; CPORT_NCP; 0; Z.of_nat (length resp)] ++ resp ++ post /\ nulls pre /\ (length pre <= slowness)%nat;
}.

(** ** Transfers *)

Section Transfers.
Context {D : Type} `{SpiBus D}.
Implicit Types (d : D) (rxbuf : list Z).

Lemma exchange_length ws d : length (exchange d ws).2 = length ws.
Proof.
  revert d. induction ws as [|w ws IH]; intros d; simpl; [done|].
  destruct (spi_word d w) as [d1 r]. specialize (IH d1). destruct (exchange d1 ws). simpl in *. by rewrite IH.
Qed.
Lemma transfer_tx d rxbuf l ms : spi_transfer d rxbuf (tx l :: ms) = spi_transfer (exchange d l).1 rxbuf ms.
Proof.
  unfold spi_transfer. cbn [foldO stm32_spi_transfer_one8]. unfold stm32_spi_transfer_one8, words_of, tx. cbn.
  rewrite take_ge by done. by destruct (exchange d l).
Qed.
Lemma transfer_rx d rxbuf n ms :
  (n <= length rxbuf)%nat ->
  spi_transfer d rxbuf (rx n :: ms) =
    spi_transfer (exchange d (replicate n 0xff)).1 ((exchange d (replicate n 0xff)).2 ++ drop n rxbuf) ms.
Proof.
  intros Hn. unfold spi_transfer. cbn [foldO]. unfold stm32_spi_transfer_one8, words_of, rx. cbn.
  pose proof (exchange_length (replicate n 0xff) d) as Hl. rewrite length_replicate in Hl.
  destruct (exchange d (replicate n 255)) as [d1 rs]. cbn in *. unfold store.
  rewrite bool_decide_false by lia. cbn. by rewrite Hl.
Qed.
Lemma transfer_end d rxbuf : spi_transfer d rxbuf [] = Ret (d, rxbuf).
Proof. done. Qed.

(** A message out, one in, and the padding. *)
Lemma transfer_out_in d rxbuf l n p :
  (n <= length rxbuf)%nat ->
  exists d1 rs1 d2 rs d3 rs3, exchange d l = (d1, rs1) /\ exchange d1 (replicate n 0xff) = (d2, rs) /\ exchange d2 p = (d3, rs3) /\
    length rs = n /\ spi_transfer d rxbuf [tx l; rx n; tx p] = Ret (d3, rs ++ drop n rxbuf).
Proof.
  intros Hn. destruct (exchange d l) as [d1 rs1] eqn:E1. destruct (exchange d1 (replicate n 0xff)) as [d2 rs] eqn:E2.
  destruct (exchange d2 p) as [d3 rs3] eqn:E3. exists d1, rs1, d2, rs, d3, rs3. split_and!; try done.
  - pose proof (exchange_length (replicate n 0xff) d1) as Hl. rewrite E2, length_replicate in Hl. exact Hl.
  - rewrite transfer_tx, E1. cbn [fst]. rewrite transfer_rx, E2 by done. cbn [fst snd]. by rewrite transfer_tx, E3.
Qed.
Lemma exchange_app d l1 l2 : (exchange d (l1 ++ l2)).1 = (exchange (exchange d l1).1 l2).1.
Proof.
  revert d. induction l1 as [|w l1 IH]; intros d; [done|]. cbn. destruct (spi_word d w) as [d1 r]. specialize (IH d1).
  destruct (exchange d1 (l1 ++ l2)), (exchange d1 l1). done.
Qed.
Lemma transfer_app d rxbuf l1 l2 ms : spi_transfer d rxbuf (tx l1 :: tx l2 :: ms) = spi_transfer d rxbuf (tx (l1 ++ l2) :: ms).
Proof. by rewrite !transfer_tx, exchange_app. Qed.

(** ** Reading what came in *)

Lemma find_strw_at pre l i : nulls pre -> find_strw (pre ++ STRW :: l) i = inl (i + length pre)%nat.
Proof.
  revert i. induction pre as [|b pre IH]; intros i Hn; [by rewrite Nat.add_0_r|]. apply Forall_cons in Hn as [Hb Hn].
  cbn [find_strw app]. rewrite bool_decide_false by (destruct Hb as [->| ->]; done).
  replace (bool_decide (b = HNUL) || bool_decide (b = LNUL)) with true by (destruct Hb as [->| ->]; done).
  rewrite IH by done. cbn. f_equal. lia.
Qed.
Lemma write_status_ok rs rest n : taken rs -> length rs = n -> es2_transfer_check_write_status (rs ++ rest) n = Ret 0.
Proof.
  intros (pre & cport & s0 & s1 & s2 & s3 & post & -> & Hn & Hc) <-. unfold es2_transfer_check_write_status.
  rewrite take_app_length. cbn [app]. rewrite find_strw_at by done. cbn [Nat.add].
  rewrite <- app_assoc, drop_app_length. cbn. by rewrite Hc.
Qed.

Lemma scan_nulls pre rest n i pfx b0 :
  nulls pre -> length pfx = i -> scan (pfx ++ pre ++ rest) i (length pre + n) b0 = scan (pfx ++ pre ++ rest) (i + length pre) n b0.
Proof.
  revert i pfx. induction pre as [|b pre IH]; intros i pfx Hn Hi; [by rewrite Nat.add_0_r|]. apply Forall_cons in Hn as [Hb Hn].
  cbn [length Nat.add scan app]. rewrite list_lookup_middle by done. cbn [deref mbind outcome_bind].
  replace (bool_decide (b <> LNUL) && bool_decide (b <> HNUL)) with false by (destruct Hb as [->| ->]; done).
  rewrite !bool_decide_false by (destruct Hb as [->| ->]; done).
  specialize (IH (S i) (pfx ++ [b]) Hn). rewrite <- !app_assoc in IH. cbn [app] in IH.
  rewrite IH by (rewrite length_app; cbn; lia). f_equal. lia.
Qed.
Lemma scan_strr pre rest n : nulls pre -> (length pre < n)%nat -> scan (pre ++ STRR :: rest) 0 n true = Ret (Some (length pre), false).
Proof.
  intros Hn Hl. replace n with (length pre + S (n - length pre - 1))%nat by lia.
  rewrite (scan_nulls pre (STRR :: rest) _ 0 [] true Hn eq_refl). cbn [app Nat.add scan].
  by rewrite list_lookup_middle.
Qed.
Lemma scan_nack pre rest n : nulls pre -> (length pre < n)%nat -> scan (pre ++ NACK :: rest) 0 n true = Ret (None, false).
Proof.
  intros Hn Hl. replace n with (length pre + S (n - length pre - 1))%nat by lia.
  rewrite (scan_nulls pre (NACK :: rest) _ 0 [] true Hn eq_refl). cbn [app Nat.add scan].
  by rewrite list_lookup_middle.
Qed.
Lemma response_at pre x resp rest room :
  (length resp < 256)%nat -> (length resp <= room)%nat ->
  response (pre ++ [STRR; x; 0; Z.of_nat (length resp)] ++ resp ++ rest) (length pre) room = Ret resp.
Proof.
  intros H1 H2. unfold response. rewrite (lookup_app_r pre _ (length pre + 2)), (lookup_app_r pre _ (length pre + 3)) by lia.
  replace (length pre + 2 - length pre)%nat with 2%nat by lia. replace (length pre + 3 - length pre)%nat with 3%nat by lia.
  cbn [app lookup list_lookup deref mbind outcome_bind]. change (be16 0 (Z.of_nat (length resp))) with (Z.of_nat (length resp)). rewrite Nat2Z.id.
  rewrite !length_app. cbn [length]. rewrite length_app.
  rewrite (bool_decide_false (_ < _)%nat) by lia. rewrite bool_decide_false by lia. cbn [orb].
  rewrite drop_app_add. cbn [drop]. by rewrite drop_0, take_app_length.
Qed.
End Transfers.

Section Refinement.
Context {D : Type} `{!SpiBus D} `{!NcpSwitch D}.
Implicit Types (s : sw_es2_priv D) (d : D).

(** The 16 words a read waits for an answer take in the 4 bytes in front of the
    confirmation, too: it must come behind 12 nulls at most. *)
Definition fast_enough : Prop := (slowness <= 12)%nat.

Definition bufs_ok s : Prop :=
  length (ncp_rxbuf s) = ES2_CPORT_RX_MAX_SIZE /\ length (data4_rxbuf s) = ES2_CPORT_RX_MAX_SIZE /\
  length (data5_rxbuf s) = ES2_CPORT_RX_MAX_SIZE.

Lemma write_ok s c req :
  bufs_ok s -> at_rest (spi s) -> ncp_parse req = Some c -> (length req < 256)%nat ->
  exists d rxbuf k, es2_write s CPORT_NCP req = Ret (put_rxbuf (set_spi s d) CPORT_NCP rxbuf, 0) /\
    length rxbuf = ES2_CPORT_RX_MAX_SIZE /\ (k < patience)%nat /\
    owes (es2_spi_select d true) k (ncp_confirm c (serve (spi s) c).1.2 (serve (spi s) c).2) (serve (spi s) c).1.1.
Proof.
  intros (Hb & _) Hr Hp Hl. unfold es2_write, es2_write_room, cport_to_rxbuf.
  rewrite (bool_decide_true (CPORT_NCP = CPORT_NCP) eq_refl). rewrite (bool_decide_false (_ <= _)) by (unfold ES2_CPORT_NCP_MAX_PAYLOAD; lia).
  cbn [mbind outcome_bind deref]. rewrite (bool_decide_false (0 <> 0)) by tauto.
  rewrite !transfer_app, <- app_assoc.
  destruct (transfer_out_in (es2_spi_select (spi s) true) (ncp_rxbuf s) (write_header CPORT_NCP (length req) ++ req ++ write_trailer)
    SWITCH_WRITE_STATUS_NNULL (pad (5 + length req + 2 + SWITCH_WRITE_STATUS_NNULL))) as (d1 & rs1 & d2 & rs & d3 & rs3 & E1 & E2 & E3 & Hrs & ->).
  { rewrite Hb. by apply Nat.leb_le. }
  cbn [mbind outcome_bind]. destruct (ncp_taken _ _ _ _ _ _ _ _ _ Hr Hp Hl E1 E2 E3) as (Ht & k & Hk & Ho).
  rewrite (write_status_ok _ _ _ Ht Hrs). cbn [mbind outcome_bind]. eexists _, _, k. split; [done|].
  split; [|done]. rewrite length_app, length_drop, Hrs, Hb. done.
Qed.

Lemma read_loop_ok k d rxbuf resp d' n fuel :
  fast_enough -> owes d k resp d' -> (length resp <= n)%nat -> (n < 256)%nat -> length rxbuf = ES2_CPORT_RX_MAX_SIZE -> (k < fuel)%nat ->
  exists d1 rxbuf', read_loop fuel d rxbuf CPORT_NCP n n = Ret (d1, rxbuf', resp, 0) /\
    length rxbuf' = ES2_CPORT_RX_MAX_SIZE /\ es2_spi_select d1 false = d' /\ at_rest d'.
Proof.
  unfold fast_enough. intros Hq Ho Hl Hn. revert d rxbuf fuel Ho. induction k as [|k IH]; intros d rxbuf [|fuel] Ho Hb Hf; try lia; cbn [read_loop].
  all: replace (SWITCH_WAIT_REPLY_LEN + n + 7 - 7)%nat with (16 + n)%nat by (unfold SWITCH_WAIT_REPLY_LEN; lia).
  all: destruct (transfer_out_in d rxbuf (read_header CPORT_NCP) (16 + n) (pad (SWITCH_WAIT_REPLY_LEN + n + 7)))
    as (d1 & rs1 & d2 & rs & d3 & rs3 & E1 & E2 & E3 & Hrs & ->); [rewrite Hb; unfold ES2_CPORT_RX_MAX_SIZE; lia|].
  all: cbn [mbind outcome_bind]; assert (Hb' : length (rs ++ drop (16 + n) rxbuf) = ES2_CPORT_RX_MAX_SIZE)
    by (rewrite length_app, length_drop, Hrs, Hb; unfold ES2_CPORT_RX_MAX_SIZE; lia).
  - destruct (ncp_answers _ _ _ _ _ _ _ _ _ _ Ho Hl E1 E2 E3) as (Hd & Hr & pre & post & -> & Hp & Hlp).
    rewrite <- !app_assoc. set (rest := post ++ drop (16 + n) rxbuf).
    assert (Es : scan (pre ++ [STRR; CPORT_NCP; 0; Z.of_nat (length resp)] ++ resp ++ rest) 0 (SWITCH_WAIT_REPLY_LEN + n + 7) true
      = Ret (Some (length pre), false)) by (apply (scan_strr pre); [done|unfold SWITCH_WAIT_REPLY_LEN; lia]).
    rewrite Es. cbn [mbind outcome_bind]. rewrite (response_at pre CPORT_NCP resp) by lia. cbn [mbind outcome_bind].
    eexists d3, _. split_and!; try done.
    rewrite <- Hb'. f_equal. by rewrite <- !app_assoc.
  - destruct (ncp_put_off _ _ _ _ _ _ _ _ _ _ _ Ho E1 E2 E3) as (Ho' & pre & post & -> & Hp).
    rewrite <- app_assoc. cbn [app]. rewrite scan_nack.
    + cbn [mbind outcome_bind]. apply IH; [done| |lia]. rewrite <- Hb', <- app_assoc. done.
    + done.
    + rewrite length_app in Hrs. cbn in Hrs. unfold SWITCH_WAIT_REPLY_LEN. lia.
Qed.

(** A command is carried out by the switch and its confirmation comes back. *)
Lemma transfer_ok fuel s c req n :
  fast_enough -> bufs_ok s -> at_rest (spi s) -> ncp_parse req = Some c -> (length req < 256)%nat -> (n < 256)%nat -> (patience <= fuel)%nat ->
  let '(d', rc, v) := serve (spi s) c in
  (length (ncp_confirm c rc v) <= n)%nat ->
  exists rxbuf, es2_ncp_transfer fuel s req n = Ret (put_rxbuf (set_spi s d') CPORT_NCP rxbuf, ncp_confirm c rc v, 0) /\
    length rxbuf = ES2_CPORT_RX_MAX_SIZE /\ at_rest d'.
Proof.
  intros Hq Hb Hr Hp Hl Hn Hf. destruct (write_ok s c req Hb Hr Hp Hl) as (d & rxbuf & k & Ew & Hlr & Hk & Ho).
  destruct (serve (spi s) c) as [[d' rc] v]. cbn [fst snd] in Ho. intros Hc. unfold es2_ncp_transfer. rewrite Ew.
  cbn [mbind outcome_bind]. rewrite (bool_decide_false (0 <> 0)) by tauto. unfold es2_read.
  destruct (read_loop_ok k (es2_spi_select d true) rxbuf _ d' n fuel Hq Ho Hc Hn Hlr ltac:(lia)) as (d1 & rxbuf' & Er & Hl' & Hd & Hr').
  unfold cport_to_rxbuf, put_rxbuf. rewrite !(bool_decide_true (CPORT_NCP = CPORT_NCP) eq_refl). cbn [deref mbind outcome_bind ncp_rxbuf spi set_spi].
  rewrite Er. cbn [mbind outcome_bind]. rewrite Hd. by exists rxbuf'.
Qed.

(** The command with its value, on the driver. *)
Definition word_value (o : option Z) : ncp_value := match o with Some w => VWord w | None => VNone end.
Definition run (fuel : nat) s (c : ncp_command) : outcome (sw_es2_priv D * Z * ncp_value) :=
  let no_value (r : outcome (sw_es2_priv D * Z)) := r ← r; Ret (r.1, r.2, VNone) in
  let word (r : outcome (sw_es2_priv D * option Z * Z)) := r ← r; Ret (r.1.1, r.2, word_value r.1.2) in
  match c with
  | Set_ p a sel v => no_value (es2_set fuel s p a sel v)
  | Get p a sel => word (es2_get fuel s p a sel)
  | PeerSet p a sel v => no_value (es2_peer_set fuel s p a sel v)
  | PeerGet p a sel => word (es2_peer_get fuel s p a sel)
  | LutSet p addr dst => no_value (es2_lut_set fuel s p addr dst)
  | LutGet p addr => word (es2_lut_get fuel s p addr)
  | SysSet a v => no_value (es2_sys_ctrl_set fuel s a v)
  | SysGet a => word (es2_sys_ctrl_get fuel s a)
  | MaskSet p m => no_value (es2_dev_id_mask_set fuel s p m)
  | MaskGet p => r ← es2_dev_id_mask_get fuel s p; Ret (r.1.1, r.2, match r.1.2 with Some m => VMask m | None => VNone end)
  | AttrSet a v => no_value (es2_switch_attr_set fuel s a v)
  | AttrGet a => word (es2_switch_attr_get fuel s a)
  | IdSet dis irt cport peer => no_value (es2_switch_id_set fuel s cport peer dis irt)
  end.

(** The arguments fit the types of the functions. *)
Definition u8 (x : Z) : Prop := 0 <= x < 2 ^ 8.
Definition u16 (x : Z) : Prop := 0 <= x < 2 ^ 16.
Definition u32 (x : Z) : Prop := 0 <= x < 2 ^ 32.
Definition typed (c : ncp_command) : Prop :=
  match c with
  | Set_ p a sel v | PeerSet p a sel v => u8 p /\ u16 a /\ u16 sel /\ u32 v
  | Get p a sel | PeerGet p a sel => u8 p /\ u16 a /\ u16 sel
  | LutSet p addr dst => u8 p /\ u8 addr /\ u8 dst
  | LutGet p addr => u8 p /\ u8 addr
  | SysSet a v | AttrSet a v => u16 a /\ u32 v
  | SysGet a | AttrGet a => u16 a
  | MaskSet p m => u8 p /\ length m = 16%nat
  | MaskGet p => u8 p
  | IdSet dis irt cport peer => 0 <= dis < 64 /\ 0 <= irt < 4 /\ u8 cport /\ u8 peer
  end.
(** What the caller sees of the value: of a system control word, 0. *)
Definition seen (c : ncp_command) (rc : Z) (v : ncp_value) : ncp_value :=
  match c with SysGet _ => if bool_decide (rc = 0) then VWord 0 else VNone | _ => v end.

(** [s'] is [s] with the switch in state [d'], at rest. *)
Record moved s s' d' : Prop := {
  mv_spi : spi s' = d'; mv_rest : at_rest d'; mv_bufs : bufs_ok s';
  mv_received : received s' = received s; mv_events : events s' = events s;
}.

Lemma n16_bytes x : u16 x -> n16 (wrap8 (Z.shiftr x 8)) (wrap8 x) = x.
Proof. unfold u16, n16, wrap8. rewrite Z.shiftr_div_pow2 by lia. cbn. Z.div_mod_to_equations. lia. Qed.
Lemma n32_bytes x : u32 x -> n32 (wrap8 (Z.shiftr x 24)) (wrap8 (Z.shiftr x 16)) (wrap8 (Z.shiftr x 8)) (wrap8 x) = x.
Proof. unfold u32, n32, wrap8. rewrite !Z.shiftr_div_pow2 by lia. cbn. Z.div_mod_to_equations. lia. Qed.
Lemma lor_shift hi lo k : 0 <= k -> 0 <= lo < 2 ^ k -> Z.lor (Z.shiftl hi k) lo = hi * 2 ^ k + lo.
Proof.
  intros Hk Hl. rewrite <- (Z.shiftl_mul_pow2 hi k) by lia.
  rewrite <- Z.lxor_lor, <- Z.add_nocarry_lxor; [done|..]; apply Z.bits_inj'; intros n Hn;
    rewrite Z.land_spec, Z.bits_0; destruct (decide (n < k)).
  all: try (by rewrite Z.shiftl_spec_low by lia).
  all: rewrite <- (Z.mod_small lo (2 ^ k)) by lia; rewrite (Z.mod_pow2_bits_high lo k n) by lia; apply andb_false_r.
Qed.
Lemma be32_word pre v : u32 v -> be32 (pre ++ word_bytes v) (length pre) = Ret v.
Proof.
  intros Hv. unfold be32, word_bytes.
  rewrite (lookup_app_r pre _ (length pre)), (lookup_app_r pre _ (length pre + 1)), (lookup_app_r pre _ (length pre + 2)),
    (lookup_app_r pre _ (length pre + 3)) by lia.
  rewrite Nat.sub_diag. replace (length pre + 1 - length pre)%nat with 1%nat by lia.
  replace (length pre + 2 - length pre)%nat with 2%nat by lia. replace (length pre + 3 - length pre)%nat with 3%nat by lia.
  cbn [lookup list_lookup deref mbind outcome_bind]. f_equal. unfold u32 in Hv. unfold be16.
  rewrite !(lor_shift _ _ 8), (lor_shift _ _ 16) by (try lia; Z.div_mod_to_equations; lia).
  Z.div_mod_to_equations. lia.
Qed.

Lemma command_ok fuel s c req n fid rc_at :
  fast_enough -> bufs_ok s -> at_rest (spi s) -> ncp_parse req = Some c -> (length req < 256)%nat -> (n < 256)%nat -> (patience <= fuel)%nat ->
  let '(d', rc, v) := serve (spi s) c in
  (length (ncp_confirm c rc v) <= n)%nat -> ncp_confirm c rc v !! 1%nat = Some fid -> ncp_confirm c rc v !! rc_at = Some rc ->
  exists s', command fuel s req n fid rc_at = Ret (s', Some (ncp_confirm c rc v), rc) /\ moved s s' d'.
Proof.
  intros Hq Hb Hr Hp Hl Hn Hf. pose proof (transfer_ok fuel s c req n Hq Hb Hr Hp Hl Hn Hf) as Ht.
  destruct (serve (spi s) c) as [[d' rc] v]. intros Hc Hfid Hrc. destruct (Ht Hc) as (rxbuf & Et & Hlr & Hr'). unfold command. rewrite Et.
  cbn [mbind outcome_bind]. rewrite (bool_decide_false (0 <> 0)) by tauto. rewrite Hfid. cbn [deref mbind outcome_bind].
  rewrite (bool_decide_false (fid <> fid)) by tauto. rewrite Hrc. cbn [deref mbind outcome_bind]. eexists. split; [done|].
  destruct Hb as (? & ? & ?). by split.
Qed.

(** The requests of the driver say what was asked. *)
Definition request (c : ncp_command) : list Z :=
  match c with
  | Set_ p a sel v => [SWITCH_DEVICE_ID; wrap8 p; NCP_SETREQ] ++ bytes16 a ++ bytes16 sel ++ bytes32 v
  | Get p a sel => [SWITCH_DEVICE_ID; wrap8 p; NCP_GETREQ] ++ bytes16 a ++ bytes16 sel
  | PeerSet p a sel v => [SWITCH_DEVICE_ID; wrap8 p; NCP_PEERSETREQ] ++ bytes16 a ++ bytes16 sel ++ bytes32 v
  | PeerGet p a sel => [SWITCH_DEVICE_ID; wrap8 p; NCP_PEERGETREQ] ++ bytes16 a ++ bytes16 sel
  | LutSet p addr dst => [SWITCH_DEVICE_ID; wrap8 addr; NCP_LUTSETREQ; wrap8 p; wrap8 dst]
  | LutGet p addr => [SWITCH_DEVICE_ID; wrap8 addr; NCP_LUTGETREQ; wrap8 p; NCP_RESERVED]
  | SysSet a v => [SWITCH_DEVICE_ID; NCP_RESERVED; NCP_SYSCTRLSETREQ] ++ bytes16 a ++ bytes32 v
  | SysGet a => [SWITCH_DEVICE_ID; NCP_RESERVED; NCP_SYSCTRLGETREQ] ++ bytes16 a
  | MaskSet p m => [SWITCH_DEVICE_ID; wrap8 p; NCP_SETDEVICEIDMASKREQ] ++ take 16 m
  | MaskGet p => [SWITCH_DEVICE_ID; wrap8 p; NCP_GETDEVICEIDMASKREQ]
  | AttrSet a v => [SWITCH_DEVICE_ID; NCP_RESERVED; NCP_SWITCHATTRSETREQ] ++ bytes16 a ++ bytes32 v
  | AttrGet a => [SWITCH_DEVICE_ID; NCP_RESERVED; NCP_SWITCHATTRGETREQ] ++ bytes16 a
  | IdSet dis irt cport peer =>
      [SWITCH_DEVICE_ID; wrap8 (Z.lor (Z.shiftl dis 2) irt); NCP_SWITCHIDSETREQ; SWITCH_DEVICE_ID; wrap8 cport;
       SWITCH_DEVICE_ID; wrap8 peer; NCP_RESERVED; SWITCH_PORT_ID]
  end.
Lemma parse_request c : typed c -> ncp_parse (request c) = Some c.
Proof.
  destruct c; cbn [typed request]; intros Ht; destruct_and?; unfold bytes16, bytes32; cbn [app ncp_parse SWITCH_DEVICE_ID NCP_RESERVED].
  all: cbn; rewrite ?n16_bytes, ?n32_bytes by done; unfold u8 in *; rewrite ?(wrap8_small p), ?(wrap8_small addr), ?(wrap8_small dst) by done; try done.
  - rewrite take_ge by lia. rewrite bool_decide_true by done. done.
  - rewrite !(wrap8_small cport), !(wrap8_small peer) by done. rewrite lor_shift by lia. rewrite wrap8_small by lia.
    repeat f_equal; cbn; Z.div_mod_to_equations; lia.
Qed.

(** One command. *)
Lemma es2_run_ok fuel s c :
  fast_enough -> bufs_ok s -> at_rest (spi s) -> typed c -> (patience <= fuel)%nat ->
  let '(d', rc, v) := serve (spi s) c in
  exists s', run fuel s c = Ret (s', rc, seen c rc v) /\ moved s s' d'.
Proof.
  intros Hfast Hb Hr Ht Hf. pose proof (ncp_served (spi s) c) as Hs. pose proof (parse_request c Ht) as Hq.
  assert (Hcmd : forall req n fid at_, ncp_parse req = Some c -> (length req < 256)%nat -> (n < 256)%nat ->
    let '(d', rc, v) := serve (spi s) c in
    (length (ncp_confirm c rc v) <= n)%nat -> ncp_confirm c rc v !! 1%nat = Some fid -> ncp_confirm c rc v !! at_ = Some rc ->
    exists s', command fuel s req n fid at_ = Ret (s', Some (ncp_confirm c rc v), rc) /\ moved s s' d').
  { intros. by apply command_ok. }
  destruct (serve (spi s) c) as [[d' rc] v]. destruct Hs as [Hrc Hv].
  destruct c; cbn [typed] in Ht; destruct_and?; cbn [value_of] in Hv; destruct v; try done; cbn [run seen].
  all: unfold es2_set, es2_get, es2_peer_set, es2_peer_get, es2_lut_set, es2_lut_get, es2_sys_ctrl_set, es2_sys_ctrl_get,
    es2_dev_id_mask_set, es2_dev_id_mask_get, es2_switch_attr_set, es2_switch_attr_get, es2_switch_id_set, set_command, get_command.
  all: try (rewrite bool_decide_false by lia).
  all: match goal with |- context [command _ _ ?req ?n ?fid ?ix] =>
         destruct (Hcmd req n fid ix) as (s' & -> & Hm); [..|exists s'; cbn [mbind outcome_bind fst snd]] end.
  all: try exact Hq. all: try (cbn; lia). all: try done.
  all: cbn [ncp_confirm value_bytes length].
  all: try (rewrite (be32_word [_; _; _; _]) by done; done). all: try (rewrite (be32_word [_; _]) by done; done).
  - by case_bool_decide; [subst rc|].
  - cbn. rewrite length_take. lia.
  - rewrite bool_decide_false by (rewrite length_app; cbn [length]; lia). cbn [app drop mbind outcome_bind fst snd].
    by rewrite drop_0, take_ge by lia.
Qed.

(** A sequence of commands, on the driver and on the switch. *)
Fixpoint run_all (fuel : nat) s (cs : list ncp_command) : outcome (sw_es2_priv D * list (Z * ncp_value)) :=
  match cs with
  | [] => Ret (s, [])
  | c :: cs => r ← run fuel s c; rest ← run_all fuel r.1.1 cs; Ret (rest.1, (r.1.2, r.2) :: rest.2)
  end.
Fixpoint serve_all d (cs : list ncp_command) : D * list (Z * ncp_value) :=
  match cs with
  | [] => (d, [])
  | c :: cs => let '(d, rc, v) := serve d c in let '(d, rest) := serve_all d cs in (d, (rc, seen c rc v) :: rest)
  end.

(** C24.  Against any switch that keeps to the protocol and sends a confirmation
    behind 12 nulls at most (the driver means to allow 16, see
    [late_confirmation]), whatever its state, any sequence of commands of the
    driver returns: each request is read by the switch as the command it was made
    for, and the driver returns its result code and its value, except for
    [es2_sys_ctrl_get], which returns 0 whatever the value
    ([sys_ctrl_get_zero]). *)
Theorem es2_commands_refine fuel s cs :
  fast_enough -> bufs_ok s -> at_rest (spi s) -> Forall typed cs -> (patience <= fuel)%nat ->
  exists s', run_all fuel s cs = Ret (s', (serve_all (spi s) cs).2) /\ moved s s' (serve_all (spi s) cs).1.
Proof.
  intros Hq Hb Hr Ht Hf. revert s Hb Hr. induction Ht as [|c cs Hc _ IH]; intros s Hb Hr; cbn [run_all serve_all].
  { exists s. split; [done|]. by split. }
  pose proof (es2_run_ok fuel s c Hq Hb Hr Hc Hf) as H1. destruct (serve (spi s) c) as [[d1 rc] v].
  destruct H1 as (s1 & -> & [E1 R1 B1 V1 T1]). cbn [mbind outcome_bind fst snd]. subst d1.
  destruct (IH s1 B1 R1) as (s' & -> & [E2 R2 B2 V2 T2]). destruct (serve_all (spi s1) cs) as [d2 rest]. cbn [mbind outcome_bind fst snd] in *.
  exists s'. split; [done|]. split; congruence || done.
Qed.
End Refinement.

(** ** A switch *)

Module Ex.
(** The switch as its memory, what it owes, and the words since it was selected. *)
Record dev := mk_dev { words : gmap (Z * Z * Z * Z) Z; tables : gmap Z (list Z); pending : list Z; inp : list Z }.
Definition set_word (d : dev) (k : Z * Z * Z * Z) (v : Z) : dev := mk_dev (<[k := v]> (words d)) (tables d) (pending d) (inp d).
Definition get_word (d : dev) (k : Z * Z * Z * Z) (m : Z) : dev * Z * ncp_value :=
  match words d !! k with Some v => (d, 0, VWord (v mod m)) | None => (d, 1, VWord 0) end.
Definition serve_ex (d : dev) (c : ncp_command) : dev * Z * ncp_value :=
  match c with
  | Set_ p a sel v => (set_word d (0, p, a, sel) v, 0, VNone)
  | Get p a sel => get_word d (0, p, a, sel) (2 ^ 32)
  | PeerSet p a sel v => (set_word d (1, p, a, sel) v, 0, VNone)
  | PeerGet p a sel => get_word d (1, p, a, sel) (2 ^ 32)
  | LutSet p addr dst => (set_word d (2, p, addr, 0) dst, 0, VNone)
  | LutGet p addr => get_word d (2, p, addr, 0) (2 ^ 8)
  | SysSet a v => (set_word d (3, a, 0, 0) v, 0, VNone)
  | SysGet a => get_word d (3, a, 0, 0) (2 ^ 32)
  | MaskSet p m => (mk_dev (words d) (<[p := m]> (tables d)) (pending d) (inp d), 0, VNone)
  | MaskGet p => (d, 0, VMask (take 16 (default [] (tables d !! p) ++ replicate 16 0)))
  | AttrSet a v => (set_word d (4, a, 0, 0) v, 0, VNone)
  | AttrGet a => get_word d (4, a, 0, 0) (2 ^ 32)
  | IdSet _ _ _ _ => (d, 0, VNone)
  end.
(** The request in a frame that was written. *)
Definition frame_of (h : list Z) : option (list Z) :=
  match h with
  | 0 :: 1 :: _ :: _ :: len :: rest => Some (take (Z.to_nat len) rest)
  | _ => None
  end.
Definition out (d : dev) : list Z :=
  match frame_of (inp d) with
  | Some req => replicate (7 + length req) 0 ++ [0; 0xff; STRW; 3; 0; 4; 0; 1; 1; 0; ENDP]
  | None => replicate 7 0 ++ [STRR; 3; 0; Z.of_nat (length (pending d))] ++ pending d ++ [ENDP]
  end.
#[export] Instance bus_ex : SpiBus dev := {|
  spi_word d w := (mk_dev (words d) (tables d) (pending d) (inp d ++ [w]), default 0 (out d !! length (inp d)));
  spi_cs d high :=
    if (high : bool) then
      match frame_of (inp d) ≫= ncp_parse with
      | Some c => let '(d', rc, v) := serve_ex d c in mk_dev (words d') (tables d') (ncp_confirm c rc v) []
      | None => mk_dev (words d) (tables d) [] []
      end
    else mk_dev (words d) (tables d) (pending d) []
|}.

Definition with_inp (d : dev) (l : list Z) : dev := mk_dev (words d) (tables d) (pending d) l.
Lemma exchange_ex d ws :
  exchange d ws = (with_inp d (inp d ++ ws),
                   imap (fun i _ => default 0 (out (with_inp d (inp d ++ take i ws)) !! (length (inp d) + i)%nat)) ws).
Proof.
  revert d. induction ws as [|w ws IH]; intros d; cbn [exchange]; [rewrite app_nil_r; by destruct d|].
  cbn [spi_word bus_ex]. rewrite IH. unfold with_inp. cbn [words tables pending inp]. rewrite <- app_assoc. cbn [app imap].
  rewrite take_0, app_nil_r, Nat.add_0_r. destruct d as [w0 t0 p0 i0]. cbn [words tables pending inp]. f_equal. f_equal.
  apply imap_ext. intros i x _. cbn [compose firstn app]. rewrite <- app_assoc, length_app. cbn [length app].
  by replace (length i0 + 1 + i)%nat with (length i0 + S i)%nat by lia.
Qed.
(** What comes back during [n] words is the beginning of [l], then nulls. *)
Lemma imap_answer (l ws : list Z) (n : nat) :
  length ws = n -> imap (fun i _ => default 0 (l !! i)) ws = take n (l ++ replicate n 0).
Proof.
  intros <-. apply list_eq. intros i. rewrite list_lookup_imap. destruct (decide (i < length ws)%nat) as [Hi|Hi].
  - destruct (lookup_lt_is_Some_2 ws i Hi) as [w ->]. rewrite lookup_take_lt by done. cbn.
    destruct (l !! i) eqn:E; [by rewrite (lookup_app_l_Some _ _ _ _ E)|].
    rewrite lookup_app_r by (by apply lookup_ge_None). rewrite lookup_replicate_2; [done|].
    apply lookup_ge_None in E. lia.
  - rewrite (lookup_ge_None_2 ws) by lia. symmetry. apply lookup_ge_None_2. rewrite length_take. lia.
Qed.
Lemma low_byte n : 0 <= n < 256 -> Z.land n 0xFF = n.
Proof. intros. change 0xFF with (Z.ones 8). rewrite Z.land_ones by lia. by apply Z.mod_small. Qed.
Lemma frame_ex req x :
  (length req < 256)%nat -> frame_of ((write_header CPORT_NCP (length req) ++ req ++ write_trailer) ++ x) = Some req.
Proof.
  intros Hl. cbn. rewrite low_byte by lia. rewrite Nat2Z.id, <- app_assoc. by rewrite take_app_length.
Qed.

(** What the bus gives after some input that settles the answer. *)
Lemma exchange_settled d ws l :
  (forall i, out (with_inp d (inp d ++ take i ws)) = l) ->
  (exchange d ws).2 = take (length ws) (drop (length (inp d)) l ++ replicate (length ws) 0).
Proof.
  intros Hl. rewrite exchange_ex. cbn [snd]. rewrite <- (imap_answer _ ws) by done. apply imap_ext. intros i x _.
  by rewrite Hl, lookup_drop.
Qed.
Lemma serve_ex_state d c p i :
  serve_ex (mk_dev (words d) (tables d) p i) c =
    let '(d', rc, v) := serve_ex d c in (mk_dev (words d') (tables d') p i, rc, v).
Proof. destruct c; cbn; unfold get_word; cbn; try destruct (words d !! _); done. Qed.
Definition frame (req : list Z) : list Z := write_header CPORT_NCP (length req) ++ req ++ write_trailer.
Lemma length_frame req : length (frame req) = (7 + length req)%nat.
Proof. unfold frame. rewrite !length_app. cbn. lia. Qed.
Lemma written_ex d req :
  (length req < 256)%nat -> inp d = frame req -> taken (exchange d (replicate SWITCH_WRITE_STATUS_NNULL 0xff)).2.
Proof.
  intros Hl Hi. rewrite (exchange_settled _ _ (replicate (7 + length req) 0 ++ [0; 0xff; STRW; 3; 0; 4; 0; 1; 1; 0; ENDP])).
  - rewrite Hi, length_frame, length_replicate. rewrite <- (length_replicate (7 + length req) 0) at 1. rewrite drop_app_length.
    exists [0; 0xff], 3, 0, 1, 1, 0, (replicate 16 0). split; [reflexivity|]. split; [|reflexivity].
    constructor; [by left|]. constructor; [by right|constructor].
  - intros i. unfold out. cbn [inp with_inp]. rewrite Hi. unfold frame. by rewrite frame_ex.
Qed.
Lemma read_ex d n :
  inp d = read_header CPORT_NCP -> (length (pending d) <= n)%nat ->
  exists post, (exchange d (replicate (16 + n) 0xff)).2 = [STRR; 3; 0; Z.of_nat (length (pending d))] ++ pending d ++ post.
Proof.
  intros Hi Hl. rewrite (exchange_settled _ _ (replicate 7 0 ++ [STRR; 3; 0; Z.of_nat (length (pending d))] ++ pending d ++ [ENDP])).
  - rewrite Hi, length_replicate. change (length (read_header CPORT_NCP)) with (length (replicate 7 0)). rewrite drop_app_length.
    rewrite <- !app_assoc. rewrite (take_app_ge [_; _; _; _]) by (cbn; lia). rewrite take_app_ge by (cbn; lia). by eexists.
  - intros i. unfold out. cbn [inp with_inp]. by rewrite Hi.
Qed.
Lemma deselect_ex d c req x :
  (length req < 256)%nat -> ncp_parse req = Some c -> inp d = frame req ++ x ->
  es2_spi_select d false = let '(d', rc, v) := serve_ex d c in mk_dev (words d') (tables d') (ncp_confirm c rc v) [].
Proof.
  intros Hl Hp Hi. unfold es2_spi_select. cbn [spi_cs bus_ex negb]. rewrite Hi. unfold frame. rewrite frame_ex by done.
  cbn [mbind option_bind]. by rewrite Hp.
Qed.
#[export] Program Instance ncp_ex : NcpSwitch dev := {|
  at_rest d := inp d = [] /\ pending d = [];
  serve d c := let '(d', rc, v) := serve_ex d c in (mk_dev (words d') (tables d') [] [], rc, v);
  owes d k resp d' := k = 0%nat /\ inp d = [] /\ pending d = resp /\ d' = mk_dev (words d) (tables d) [] [];
  patience := 1;
  slowness := 0;
|}.
Next Obligation.
  intros d c. unfold serve_ex, get_word.
  destruct c; try destruct (words d !! _); cbn -[Z.pow Z.modulo length take replicate]; split_and!; try done; try lia;
    try (apply Z.mod_pos_bound; lia).
  rewrite length_take, length_app, length_replicate. lia.
Qed.
Next Obligation.
  intros d c req d1 rs1 d2 rs d3 rs3 [Hi Hq] Hp Hl E1 E2 E3. rewrite exchange_ex in E1. apply (f_equal fst) in E1. cbn [fst] in E1.
  assert (H1 : inp d1 = frame req) by (by rewrite <- E1). split.
  - pose proof (written_ex d1 req Hl H1) as Ht. by rewrite E2 in Ht.
  - exists 0%nat. split; [lia|]. rewrite exchange_ex in E2, E3. apply (f_equal fst) in E2, E3. cbn [fst] in E2, E3.
    assert (H3 : d3 = mk_dev (words d) (tables d) (pending d) (inp d3)) by (rewrite <- E3, <- E2, <- E1; done).
    assert (Hi3 : exists x, inp d3 = frame req ++ x) by (rewrite <- E3, <- E2; cbn [inp with_inp]; rewrite H1, <- app_assoc; by eexists). destruct Hi3 as [x Hx].
    rewrite (deselect_ex d3 c req x Hl Hp Hx), H3, serve_ex_state. by destruct (serve_ex d c) as [[d' rc] v].
Qed.
Next Obligation. intros d k resp d' n d1 rs1 d2 rs d3 rs3 [Hk _]. discriminate Hk. Qed.
Next Obligation.
  intros d resp d' n d1 rs1 d2 rs d3 rs3 (_ & Hi & <- & ->) Hl E1 E2 E3.
  rewrite exchange_ex in E1, E3. apply (f_equal fst) in E1, E3. cbn [fst] in E1, E3. rewrite Hi in E1. cbn [app] in E1.
  destruct (read_ex d1 n) as [post Hr]; [by rewrite <- E1|by rewrite <- E1|].
  rewrite E2 in Hr. cbn [snd] in Hr. split_and!.
  - rewrite exchange_ex in E2. apply (f_equal fst) in E2. cbn [fst] in E2. rewrite <- E3, <- E2, <- E1. done.
  - done.
  - done.
  - exists [], post. split_and!; [|constructor|cbn; lia]. rewrite Hr, <- E1. done.
Qed.

Definition priv_ex {D} (d : D) : sw_es2_priv D := mk_priv d (replicate 295 0) (replicate 295 0) (replicate 295 0) [] [].
Definition cmds_ex : list ncp_command :=
  [Set_ 3 0x1234 5 0xdeadbeef; PeerSet 3 0x1234 5 7; Get 3 0x1234 5; PeerGet 3 0x1234 5; PeerGet 4 0x1234 5; LutSet 3 9 7; LutGet 3 9;
   SysSet 0x720 0x12345678; SysGet 0x720; MaskSet 2 (replicate 16 0x80); MaskGet 2; AttrSet 0x15 0xFE00006F; AttrGet 0x15; IdSet 0 1 2 3].
Lemma es2_commands_refine_witness :
  bufs_ok (priv_ex (mk_dev ∅ ∅ [] [])) /\ Forall typed cmds_ex /\
  exists s', run_all 1 (priv_ex (mk_dev ∅ ∅ [] [])) cmds_ex =
    Ret (s', [(0, VNone); (0, VNone); (0, VWord 0xdeadbeef); (0, VWord 7); (1, VWord 0); (0, VNone); (0, VWord 7); (0, VNone);
              (0, VWord 0); (0, VNone); (0, VMask (replicate 16 0x80)); (0, VNone); (0, VWord 0xFE00006F); (0, VNone)]).
Proof.
  assert (Hb : bufs_ok (priv_ex (mk_dev ∅ ∅ [] []))) by done.
  assert (Ht : Forall typed cmds_ex) by (repeat constructor; unfold u8, u16, u32; cbn; lia). split; [exact Hb|]. split; [exact Ht|].
  assert (Hr : at_rest (spi (priv_ex (mk_dev ∅ ∅ [] [])))) by (vm_compute; split; reflexivity).
  assert (Hq : fast_enough (D := dev)) by exact (Nat.le_0_l 12).
  destruct (es2_commands_refine 1 (priv_ex (mk_dev ∅ ∅ [] [])) cmds_ex Hq Hb Hr Ht (le_n 1)) as (s' & E & _).
  exists s'. rewrite E. vm_compute. reflexivity.
Defined.

(** The words that a system control register holds are read as 0. *)
Example sys_ctrl_get_zero :
  (r ← run_all 1 (priv_ex (mk_dev ∅ ∅ [] [])) [SysSet 0x720 0x12345678; SysGet 0x720]; Ret r.2) = Ret [(0, VNone); (0, VWord 0)].
Proof. vm_compute. reflexivity. Qed.

(** ** Switches that do not answer as expected *)

(** The bus as the words still to come, then nulls. *)
Definition script_bus : SpiBus (list Z) := {| spi_word d _ := (tail d, default 0 (head d)); spi_cs d _ := d |}.
(** The bus of a switch that only ever says one word. *)
Definition const_bus (b : Z) : SpiBus unit := {| spi_word d _ := (d, b); spi_cs d _ := d |}.

(** A round that changes nothing is repeated for ever. *)
Lemma read_loop_stuck `{SpiBus D} (d : D) rxbuf cportid n room :
  spi_transfer d rxbuf [tx (read_header cportid); rx (SWITCH_WAIT_REPLY_LEN + n + 7 - 7); tx (pad (SWITCH_WAIT_REPLY_LEN + n + 7))] = Ret (d, rxbuf) ->
  scan rxbuf 0 (SWITCH_WAIT_REPLY_LEN + n + 7) true = Ret (None, false) ->
  forall fuel, read_loop fuel d rxbuf cportid n room = Hang.
Proof. intros Et Es fuel. induction fuel as [|fuel IH]; [done|]. cbn [read_loop]. rewrite Et. cbn [mbind outcome_bind]. by rewrite Es. Qed.

(** A switch that puts the reader off for ever is asked for ever. *)
Example nack_for_ever fuel :
  es2_read (H := const_bus NACK) fuel (mk_priv () (replicate 295 NACK) [] [] [] []) CPORT_NCP 8 8 = Hang.
Proof.
  unfold es2_read. change (cport_to_rxbuf _ _) with (Some (replicate 295 NACK)). cbn [deref mbind outcome_bind].
  by rewrite read_loop_stuck by (vm_compute; reflexivity).
Qed.
(** A switch that does not answer is reported as such only when the bytes after
    those received, which the search looks at too, are null. *)
Example stale_byte_hangs fuel :
  es2_read (H := const_bus LNUL) fuel (mk_priv () (<[30%nat := 0x55]> (replicate 295 0)) [] [] [] []) CPORT_NCP 8 8 = Hang.
Proof.
  unfold es2_read. change (cport_to_rxbuf _ _) with (Some (<[30%nat := 0x55]> (replicate 295 0))). cbn [deref mbind outcome_bind].
  by rewrite read_loop_stuck by (vm_compute; reflexivity).
Qed.
(** With 13 nulls in front of it the end of a confirmation is not read. *)
Example late_confirmation :
  (r ← es2_read (H := script_bus) 1 (mk_priv (replicate (7 + 13) 0 ++ [STRR; 3; 0; 4; 9; NCP_SETCNF; 0; 1; ENDP]) (replicate 295 0) [] [] [] []) CPORT_NCP 4 4;
   Ret (r.1.2, r.2)) = Ret ([9; NCP_SETCNF; 0; 0], 0).
Proof. vm_compute. reflexivity. Qed.
(** The length in a confirmation is believed. *)
Example long_confirmation_faults :
  es2_read (H := script_bus) 1 (mk_priv (replicate 7 0 ++ [STRR; 3; 0; 5; 9; NCP_SETCNF; 0; 1; 0; ENDP]) (replicate 295 0) [] [] [] []) CPORT_NCP 4 4 = Fault.
Proof. vm_compute. reflexivity. Qed.
(** More than 279 bytes in the queue of a data CPort do not fit its buffer. *)
Example full_fifo_faults :
  es2_irq_fifo_rx (H := script_bus) 1
    (mk_priv (replicate 7 0 ++ srpt_report_header 4 ++ replicate 8 0 ++ [0; 0; 1; 0x28]) [] (replicate 295 0) [] [] []) CPORT_DATA4 = Fault.
Proof. vm_compute. reflexivity. Qed.
End Ex.
End SwitchNcp.
