(* ===== verification/Svc.v ===== *)
(** The supervisory controller, [src/apps/svc/svc.c]: it learns from the mailbox
    of the switch which bridges are ready, sets up the connection with the
    application processor (AP), announces the other modules to it, and makes
    routes and connections when the AP asks for them
    ([src/drivers/greybus/svc/svc.c]).  The interfaces are those of
    [src/apps/svc/interface.c]; the events are blocks of the allocator, linked
    into a list.  What is sent to the AP is a trace; the lock is held throughout
    the functions that take it, which makes them single steps. *)
From S2P Require Import Prelude DList Memory Switch.
From S2P Require Mm Mcache Greybus.
#[local] Open Scope Z_scope.

Module Svc.
Import DList Switch.

(** ** Interfaces *)

Record interface := mk_interface { switch_portid : Z; dev_id : Z }.
Definition interface_get_id_by_portid (interfaces : list interface) (port_id : Z) : Z :=
  match list_find (fun i => switch_portid i = port_id) interfaces with Some (i, _) => Z.of_nat i + 1 | None => - EINVAL end.
(** [interfaces[intf_id - 1]] for a number in range. *)
Definition intf (interfaces : list interface) (intf_id : Z) : option interface :=
  if bool_decide (intf_id = 0) || bool_decide (Z.of_nat (length interfaces) < intf_id) then None
  else interfaces !! Z.to_nat (intf_id - 1).
Definition interface_get_portid_by_id (interfaces : list interface) (intf_id : Z) : Z :=
  match intf interfaces intf_id with Some i => switch_portid i | None => - EINVAL end.
Definition interface_get_devid_by_id (interfaces : list interface) (intf_id : Z) : Z :=
  match intf interfaces intf_id with Some i => dev_id i | None => - EINVAL end.
Definition interface_set_devid_by_id (interfaces : list interface) (intf_id dev_id : Z) : list interface * Z :=
  match intf interfaces intf_id with
  | None => (interfaces, - EINVAL)
  | Some _ => (alter (fun i => mk_interface (switch_portid i) dev_id) (Z.to_nat (intf_id - 1)) interfaces, 0)
  end.

(** ** State *)

Definition SVC_PROTOCOL_CPORT_ID : Z := 4.
Definition SVC_EVENT_TYPE_READY_OTHER : Z := 0x2.
Definition TSB_MAILBOX : Z := 0xa000.
Definition TSB_MAIL_READY_AP : Z := 0x01.
Definition TSB_MAIL_READY_OTHER : Z := 0x02.
Definition GB_SVC_CPORT_ID : Z := 0x00.
Definition GB_SVC_DEVICE_ID : Z := 0x01.
Definition SPICTLB : Z := 0x0041.

Record svc_event := mk_event { type : Z; ready_other_port : Z }.
Definition sizeof_svc_event : Z := 16.
(** The list node of an event, after its [int type]. *)
Definition events_of (event : Z) : Z := event + 4.
Definition list_entry (node : Z) : Z := node - 4.
(** The static head of the list, at an address outside of the memory of the allocator. *)
Definition svc_events : Z := -1.

(** Calls of the SVC protocol. *)
Inductive gb_call := ProtocolVersion | Hello (ap_intf_id : Z) | IntfHotplug (intf_id mfg_id prod_id vend_id ara_prod_id : Z).
#[export] Instance gb_call_eq_dec : EqDecision gb_call.
Proof. solve_decision. Defined.

Record svc (HW M : Type) := mk_svc {
  sw : tsb_switch HW; interfaces : list interface; stop : bool; ap_intf_id : Z; ap_initialized : bool;
  nodes : heap; queued : gmap Z svc_event; mem : M; sent : list gb_call;
}.
Arguments mk_svc {HW M}. Arguments sw {HW M}. Arguments interfaces {HW M}. Arguments stop {HW M}. Arguments ap_intf_id {HW M}.
Arguments ap_initialized {HW M}. Arguments nodes {HW M}. Arguments queued {HW M}. Arguments mem {HW M}. Arguments sent {HW M}.

Section Svc.
Context {HW M : Type} `{UniproAttrs} `{MemOps M}.
Implicit Types (s : svc HW M).

Definition with_sw s (x : tsb_switch HW) : svc HW M := mk_svc x (interfaces s) (stop s) (ap_intf_id s) (ap_initialized s) (nodes s) (queued s) (mem s) (sent s).
Definition with_interfaces s (x : list interface) : svc HW M := mk_svc (sw s) x (stop s) (ap_intf_id s) (ap_initialized s) (nodes s) (queued s) (mem s) (sent s).
Definition with_ap s (id : Z) (b : bool) : svc HW M := mk_svc (sw s) (interfaces s) (stop s) id b (nodes s) (queued s) (mem s) (sent s).
Definition with_events s (n : heap) (q : gmap Z svc_event) (m : M) : svc HW M := mk_svc (sw s) (interfaces s) (stop s) (ap_intf_id s) (ap_initialized s) n q m (sent s).
Definition send s (c : gb_call) : svc HW M := mk_svc (sw s) (interfaces s) (stop s) (ap_intf_id s) (ap_initialized s) (nodes s) (queued s) (mem s) (sent s ++ [c]).

(** ** Mailboxes *)

Definition svc_mailbox_ack s (portid : Z) : svc HW M :=
  let '(x, rc) := switch_dme_set (sw s) portid TSB_MAILBOX 0 0 in
  if bool_decide (rc <> 0) then with_sw s x else let '(x, _, _) := switch_dme_get x portid TSB_MAILBOX 0 in with_sw s x.

(** The [n] tries that are left: the answer of the bridge is an empty mailbox. *)
Fixpoint poll_mailbox (n : nat) (x : tsb_switch HW) (portid : Z) : tsb_switch HW * Z :=
  match n with
  | O => (x, - ETIMEDOUT)
  | S n => let '(x, val, rc) := switch_dme_peer_get x portid TSB_MAILBOX 0 in
           if bool_decide (rc = 0) && bool_decide (val = 0) then (x, 0) else poll_mailbox n x portid
  end.
Definition svc_mailbox_poke s (intf_id cport : Z) : svc HW M * Z :=
  let portid := wrap8 (interface_get_portid_by_id (interfaces s) intf_id) in
  let '(x, _) := switch_dme_peer_set (sw s) portid TSB_MAILBOX 0 (wrap8 cport + 1) in
  let '(x, rc) := poll_mailbox 1000 x portid in (with_sw s x, rc).

(** ** Requests of the AP *)

Definition svc_intf_device_id s (intf_id dev_id : Z) : outcome (svc HW M * Z) :=
  r ← switch_if_dev_id_set (sw s) (wrap8 (interface_get_portid_by_id (interfaces s) intf_id)) dev_id;
  let '(x, rc) := (r : tsb_switch HW * Z) in
  let s := with_sw s x in
  if bool_decide (rc <> 0) then Ret (s, rc) else
  let '(l, rc) := interface_set_devid_by_id (interfaces s) intf_id dev_id in Ret (with_interfaces s l, rc).

Definition svc_connection_create s (intf1_id cport1_id intf2_id cport2_id tc flags : Z) : svc HW M * Z :=
  let port i := wrap8 (interface_get_portid_by_id (interfaces s) i) in
  let dev i := wrap8 (interface_get_devid_by_id (interfaces s) i) in
  let c := mk_conn (port intf1_id) (dev intf1_id) cport1_id (port intf2_id) (dev intf2_id) cport2_id tc flags in
  let '(x, rc) := switch_connection_create (sw s) c in
  let s := with_sw s x in
  if bool_decide (rc <> 0) then (s, rc) else
  if bool_decide (Z.land flags CPORT_FLAGS_E2EFC = 0) then (s, 0) else
  let '(s, rc) := svc_mailbox_poke s intf1_id cport1_id in
  if bool_decide (rc <> 0) then (s, rc) else
  let '(s, rc) := svc_mailbox_poke s intf2_id cport2_id in
  if bool_decide (rc <> 0) then (s, rc) else (s, 0).

Definition svc_route_create s (intf1_id dev1_id intf2_id dev2_id : Z) : outcome (svc HW M * Z) :=
  let port1_id := interface_get_portid_by_id (interfaces s) intf1_id in
  let port2_id := interface_get_portid_by_id (interfaces s) intf2_id in
  if bool_decide (port1_id < 0) || bool_decide (port2_id < 0) then Ret (s, - EINVAL) else
  r ← switch_setup_routing_table (sw s) dev1_id (wrap8 port1_id) dev2_id (wrap8 port2_id);
  Ret (with_sw s r.1, r.2).

Definition svc_connect_interfaces s (iface1 : option interface) (cportid1 : Z) (iface2 : option interface) (cportid2 tc flags : Z) :
    outcome (svc HW M * Z) :=
  match iface1, iface2 with
  | Some i1, Some i2 =>
      let '(d1, rc) := switch_if_dev_id_get (sw s) (wrap8 (switch_portid i1)) in
      if bool_decide (rc <> 0) then Ret (s, rc) else
      let '(d2, rc) := switch_if_dev_id_get (sw s) (wrap8 (switch_portid i2)) in
      if bool_decide (rc <> 0) then Ret (s, rc) else
      r ← switch_setup_routing_table (sw s) d1 (wrap8 (switch_portid i1)) d2 (wrap8 (switch_portid i2));
      let '(x, rc) := (r : tsb_switch HW * Z) in
      let s := with_sw s x in
      if bool_decide (rc <> 0) then Ret (s, rc) else
      let '(x, rc) := switch_connection_create (sw s)
        (mk_conn (wrap8 (switch_portid i1)) d1 cportid1 (wrap8 (switch_portid i2)) d2 cportid2 tc flags) in
      Ret (with_sw s x, rc)
  | _, _ => Ret (s, - EINVAL)
  end.

(** The handlers of the AP's requests, on the bytes of the payload: the size of
    the request is not checked. *)
Definition le16 (b0 b1 : Z) : Z := Z.lor b0 (Z.shiftl b1 8).
Definition gb_svc_intf_device_id s (payload : list Z) : outcome (svc HW M * Z) :=
  match payload with
  | intf_id :: dev_id :: _ => r ← svc_intf_device_id s intf_id dev_id; Ret (r.1, Greybus.Greybus.gb_errno_to_op_result r.2)
  | _ => Fault
  end.
Definition gb_svc_connection_create s (payload : list Z) : outcome (svc HW M * Z) :=
  match payload with
  | i1 :: c10 :: c11 :: i2 :: c20 :: c21 :: tc :: flags :: _ =>
      let '(s, rc) := svc_connection_create s i1 (le16 c10 c11) i2 (le16 c20 c21) tc flags in Ret (s, Greybus.Greybus.gb_errno_to_op_result rc)
  | _ => Fault
  end.
Definition gb_svc_route_create s (payload : list Z) : outcome (svc HW M * Z) :=
  match payload with
  | i1 :: d1 :: i2 :: d2 :: _ => r ← svc_route_create s i1 d1 i2 d2; Ret (r.1, Greybus.Greybus.gb_errno_to_op_result r.2)
  | _ => Fault
  end.

(** ** Events *)

Definition svc_event_create s (type : Z) : outcome (svc HW M * Z) :=
  r ← mem_kmalloc (mem s) sizeof_svc_event 0;
  let '(m, event) := (r : M * Z) in
  if bool_decide (event = 0) then Ret (with_events s (nodes s) (queued s) m, 0) else
  Ret (with_events s (list_init (nodes s) (events_of event)) (<[event := mk_event type 0]> (queued s)) m, event).
Definition svc_event_destroy s (event : Z) : outcome (svc HW M) :=
  m ← mem_kfree (mem s) event;
  Ret (with_events s (delete (events_of event) (nodes s)) (delete event (queued s)) m).

(** A block that could not be allocated is used all the same. *)
Definition event_mailbox s (port val : Z) : outcome (svc HW M) :=
  if bool_decide (val = TSB_MAIL_READY_AP) then
    let rc := interface_get_id_by_portid (interfaces s) (wrap8 port) in
    Ret (if bool_decide (rc < 0) then s else with_ap s (wrap8 rc) (ap_initialized s))
  else if bool_decide (val = TSB_MAIL_READY_OTHER) then
    r ← svc_event_create s SVC_EVENT_TYPE_READY_OTHER;
    let '(s, svc_ev) := (r : svc HW M * Z) in
    e ← deref (queued s !! svc_ev);
    let q := <[svc_ev := mk_event (type e) (wrap8 port)]> (queued s) in
    n ← list_add (nodes s) svc_events (events_of svc_ev);
    Ret (with_events s n q (mem s))
  else Ret s.
Definition event_cb s (port val : Z) : outcome (svc HW M) :=
  s ← event_mailbox s port val; Ret (svc_mailbox_ack s (wrap8 port)).

Definition svc_handle_module_ready s (portid : Z) : svc HW M * Z :=
  let intf_id := interface_get_id_by_portid (interfaces s) portid in
  if bool_decide (intf_id < 0) then (s, intf_id) else
  let '(x, unipro_mfg_id, rc) := switch_dme_peer_get (sw s) portid DME_DDBL1_MANUFACTURERID 0 in
  let s := with_sw s x in
  if bool_decide (rc <> 0) then (s, rc) else
  let '(x, unipro_prod_id, rc) := switch_dme_peer_get (sw s) portid DME_DDBL1_PRODUCTID 0 in
  let s := with_sw s x in
  if bool_decide (rc <> 0) then (s, rc) else
  (send s (IntfHotplug intf_id unipro_mfg_id unipro_prod_id 0xfeedface 0xdeadbeef), 0).

(** The loop over the list: the node after the next is read when this one is freed. *)
Fixpoint handle_events_from (fuel : nat) s (node niter : Z) : outcome (svc HW M) :=
  if bool_decide (node = svc_events) then Ret s else
  match fuel with
  | O => Hang
  | S fuel =>
      let event := list_entry node in
      e ← deref (queued s !! event);
      let s := if bool_decide (type e = SVC_EVENT_TYPE_READY_OTHER) then fst (svc_handle_module_ready s (ready_other_port e)) else s in
      s ← svc_event_destroy s event;
      niter' ← DList.get_next (nodes s) niter;
      handle_events_from fuel s niter niter'
  end.
Definition svc_handle_events (fuel : nat) s : outcome (svc HW M) :=
  node ← DList.get_next (nodes s) svc_events; niter ← DList.get_next (nodes s) node; handle_events_from fuel s node niter.

(** ** The daemon *)

(** Errors but for the last two are only logged. *)
Definition svc_handle_ap s : outcome (svc HW M * Z) :=
  let ap_port_id := wrap8 (interface_get_portid_by_id (interfaces s) (ap_intf_id s)) in
  r ← svc_intf_device_id s (ap_intf_id s) GB_SVC_DEVICE_ID;
  let s := r.1 in
  r ← switch_setup_routing_table (sw s) SWITCH_DEVICE_ID SWITCH_PORT_ID GB_SVC_DEVICE_ID ap_port_id;
  let s := with_sw s r.1 in
  let flags := Z.lor (Z.lor CPORT_FLAGS_E2EFC CPORT_FLAGS_CSD_N) CPORT_FLAGS_CSV_N in
  let '(x, _) := switch_connection_create (sw s)
    (mk_conn SWITCH_PORT_ID SWITCH_DEVICE_ID SVC_PROTOCOL_CPORT_ID ap_port_id GB_SVC_DEVICE_ID GB_SVC_CPORT_ID 0 (wrap8 flags)) in
  let s := with_sw s x in
  let '(s, rc) := svc_mailbox_poke s (ap_intf_id s) GB_SVC_CPORT_ID in
  if bool_decide (rc <> 0) then Ret (s, rc) else
  let '(x, rc) := switch_internal_setattr (sw s) SPICTLB 0xC in
  let s := with_sw s x in
  if bool_decide (rc <> 0) then Ret (s, rc) else
  Ret (send (send s ProtocolVersion) (Hello (ap_intf_id s)), 0).

(** What follows a wake-up in the loop of [svcd_main]; the flag says that the
    loop was left. *)
Definition svcd_wake (fuel : nat) s : outcome (svc HW M * bool) :=
  if stop s then Ret (s, true) else
  r ← (if negb (bool_decide (ap_intf_id s = 0)) && negb (ap_initialized s)
       then r ← svc_handle_ap s;
            if bool_decide (r.2 <> 0) then Ret (r.1, true) else Ret (with_ap r.1 (ap_intf_id r.1) true, false)
       else Ret (s, false));
  let '(s, gone) := (r : svc HW M * bool) in
  if (gone : bool) then Ret (s, true) else
  s ← (if ap_initialized s then svc_handle_events fuel s else Ret s); Ret (s, stop s).
End Svc.

(** ** Numbers of interfaces *)

(** The number of an interface and its port determine each other. *)
Lemma interface_ids l i p :
  NoDup (switch_portid <$> l) -> Forall (fun i => 0 <= switch_portid i) l ->
  (interface_get_id_by_portid l p = i /\ 0 < i) <-> (interface_get_portid_by_id l i = p /\ 0 <= p /\ 0 < i).
Proof.
  intros Hnd Hpos. unfold interface_get_id_by_portid, interface_get_portid_by_id, intf. split.
  - destruct (list_find _ l) as [[k x]|] eqn:E; [|unfold EINVAL; lia]. apply list_find_Some in E as (Hk & Hx & _). intros [<- _].
    pose proof (lookup_lt_Some _ _ _ Hk). rewrite Forall_forall in Hpos. pose proof (Hpos x (list_elem_of_lookup_2 _ _ _ Hk)).
    rewrite !bool_decide_false by lia. cbn [orb]. replace (Z.to_nat _) with k by lia. rewrite Hk. lia.
  - intros (E & Hp & Hi). destruct (bool_decide (i = 0) || bool_decide (Z.of_nat (length l) < i)) eqn:Eb; [unfold EINVAL in *; lia|].
    apply orb_false_iff in Eb as [_ Eb]. apply bool_decide_eq_false in Eb.
    destruct (l !! Z.to_nat (i - 1)) as [x|] eqn:Ex; [|unfold EINVAL in *; lia]. split; [|done].
    assert (Hf : is_Some (list_find (fun i => switch_portid i = p) l)).
    { eapply list_find_elem_of; [by eapply list_elem_of_lookup_2|done]. }
    destruct Hf as [[k y] Hf]. rewrite Hf. apply list_find_Some in Hf as (Hk & Hy & _).
    assert (Hkx : k = Z.to_nat (i - 1)).
    { eapply NoDup_lookup; [exact Hnd| |]; rewrite list_lookup_fmap; [by rewrite Hk; simpl; f_equal|by rewrite Ex; simpl; f_equal; congruence]. }
    lia.
Qed.

(** ** Events *)

Section Events.
Context {HW M : Type} `{UniproAttrs} `{MemSpec M} (A0 : gmap Z nat).
Implicit Types (s : svc HW M) (l : list (Z * Z)).








Definition receive s (ms : list (Z * Z)) : outcome (svc HW M) := foldO (fun s '(port, val) => event_cb s port val) s ms.



(** *** What the AP is told of a module

    The number of the interface at a port, counted from 1, and the identifiers
    its bridge has in the switch's view of it. *)
Section Told.
Context (o : tsb_switch_ops HW) `{!SwitchSpec HW o}.








End Told.

End Events.

(** ** A controller *)

Module Ex.
#[local] Existing Instance Mm.Mm.mm_mem_ops.
#[local] Existing Instance Mm.Mm.mm_mem_spec.
#[local] Existing Instance Switch.Ex.attrs_ex.

(** The switch of the examples, with reads that are never refused. *)
Definition read_attr (h : Switch.Ex.switch_ex) (p a x : Z) : Switch.Ex.switch_ex * Z * Z :=
  match attrs (Switch.Ex.now h) !! (true, p, a, x) with Some v => (h, v, 0) | None => (h, 0, 1) end.
Definition ops_reads : tsb_switch_ops Switch.Ex.switch_ex :=
  let o := Switch.Ex.ops_ex in
  mk_ops (op_set o) (op_get o) (op_peer_set o) (Some read_attr) (op_lut_set o) (op_dev_id_mask_get o) (op_dev_id_mask_set o) None None None.

(** Interfaces at ports 2, 3 and 5, whose bridges have identifiers that can be
    read. *)
Definition svc_ex (ap : bool) : svc Switch.Ex.switch_ex Mm.Mm.mm :=
  mk_svc
    (mk_switch (Switch.Ex.mk_ex (mk_view (list_to_map
       [((true, 3, 15, 0), 0x126); ((true, 3, 16, 0), 0x1000); ((true, 5, 15, 0), 0x127); ((true, 5, 16, 0), 0x1001)]) ∅ ∅) [])
      ops_reads (replicate 15 INVALID_PORT))
    [mk_interface 2 0; mk_interface 3 0; mk_interface 5 0] false 0 ap (list_init ∅ svc_events) ∅ Mcache.Mcache.heap_ex [].


(** A module that is plugged in after the first is announced: the block of its
    event is the one that the list still holds. *)
Example second_module_faults :
  (s ← receive (svc_ex true) [(3, TSB_MAIL_READY_OTHER)]; r ← svcd_wake 4 s;
   s ← receive (fst (r : svc _ _ * bool)) [(5, TSB_MAIL_READY_OTHER)]; svcd_wake 4 s) = Fault.
Proof. vm_compute. reflexivity. Qed.

(** Polling a mailbox that cannot be reached and one that was never written:
    the connection counts as acknowledged although the bridge was not told. *)
Example poke_refused_is_success :
  let s := svc_ex false in
  let s := with_sw s (mk_switch (Switch.Ex.mk_ex (mk_view {[(true, 3, TSB_MAILBOX, 0) := 0]} ∅ ∅) [true]) Switch.Ex.ops_ex []) in
  snd (svc_mailbox_poke s 2 7) = 0.
Proof. vm_compute. reflexivity. Qed.

(** A connection with an interface that does not exist is set up at port 234. *)
Example unknown_interface_connected :
  let '(s, rc) := svc_connection_create (svc_ex false) 9 1 2 2 0 0x6 in
  (rc, attrs (Switch.Ex.now (hw (sw s))) !! (true, 234, T_CONNECTIONSTATE, 1)) = (0, Some 1).
Proof. vm_compute. reflexivity. Qed.

(** A request shorter than its structure is read past its end. *)
Example short_request_faults : gb_svc_connection_create (svc_ex false) [1; 2; 0; 1] = Fault.
Proof. reflexivity. Qed.
End Ex.
End Svc.
