(* ===== verification/I2c.v ===== *)
(** The I2C core, [src/drivers/i2c/core.c]: messages, and the dispatch to the
    controller of a bus.  What a controller does is its driver's code, a
    function on the state [B] of the bus.  The table of masters is used through
    the interface [Table]. *)
From stdpp Require Import pretty.
From S2P Require Import Prelude Table Tty.
From S2P Require Hashtable Devnum.
#[local] Open Scope Z_scope.
Module I2c.

Definition I2C_M_READ : Z := 1.
Definition I2C_TRANSFER : Z := 1.
Definition I2C_SET_FREQUENCY : Z := 0.

(** [struct i2c_msg]; [buffer]: the bytes at the address it has, those that are
    sent, or those that are there before the bytes received are written. *)
Record i2c_msg := mk_msg { m_addr : Z; m_flags : Z; buffer : list Z; m_length : Z }.
Definition is_read (m : i2c_msg) : bool := bool_decide (Z.land (m_flags m) I2C_M_READ <> 0).

(** A transfer returns the bytes each message that reads has received. *)
Record i2c_master (B : Type) := mk_master {
  transfer : option (B -> list i2c_msg -> B * list (list Z) * Z);
  set_frequency : option (B -> Z -> B * Z);
  bus : B;
}.
Arguments mk_master {B}. Arguments transfer {B}. Arguments set_frequency {B}. Arguments bus {B}.

Section Core.
Context {B : Type}.
Implicit Types (master : i2c_master B).

Definition set_bus master (b : B) : i2c_master B := mk_master (transfer master) (set_frequency master) b.

Definition i2c_transfer master (msgs : list i2c_msg) : i2c_master B * list (list Z) * Z :=
  match transfer master with
  | None => (master, [], - ENOSYS)
  | Some f => let '(b, l, ret) := f (bus master) msgs in (set_bus master b, l, ret)
  end.
Definition i2c_set_frequency master (freq : Z) : i2c_master B * Z :=
  match set_frequency master with
  | None => (master, - ENOSYS)
  | Some f => let '(b, ret) := f (bus master) freq in (set_bus master b, ret)
  end.

(** The arguments that follow the command. *)
Inductive ioctl_args := TransferArgs (msgs : list i2c_msg) | FrequencyArg (freq : Z).
Definition i2c_master_ioctl master (cmd : Z) (vl : ioctl_args) : outcome (i2c_master B * list (list Z) * Z) :=
  if bool_decide (cmd = I2C_TRANSFER) then
    match vl with TransferArgs msgs => Ret (i2c_transfer master msgs) | FrequencyArg _ => Fault end
  else if bool_decide (cmd = I2C_SET_FREQUENCY) then
    match vl with
    | FrequencyArg freq => let '(master, ret) := i2c_set_frequency master freq in Ret (master, [], ret)
    | TransferArgs _ => Fault
    end
  else Ret (master, [], - EINVAL).
End Core.

(** ** Registration *)

#[local] Existing Instances Devnum.Devnum.null_Z Hashtable.Hashtable.hashtable_ops Hashtable.Hashtable.uint_key.

Section Masters.
Context {T : Type} `{!TableOps Z Z T}.
#[local] Notation registry := (@Tty.Tty.registry T).

Record masters := mk_masters { master_table : T; chrdevs : registry }.

(** The loop over the numbers in use. *)
Fixpoint first_free_id (n : nat) (t : T) (i : Z) : outcome Z :=
  used ← tbl_has t i;
  if (used : bool) then match n with O => Hang | S n => first_free_id n t (i + 1) end else Ret i.

(** [asprintf]: whether the name could be made; [known]: whether the driver of
    the device is registered.  The number becomes the [id] of the master. *)
Definition i2c_master_register (fuel : nat) (master devnum : Z) (known asprintf : bool) (w : masters) :
    outcome (Z * option Z * masters) :=
  if bool_decide (master = 0) then Ret (- EINVAL, None, w) else
  i ← first_free_id fuel (master_table w) 0;
  t ← tbl_add (master_table w) i master;
  if negb asprintf then Ret (- ENOMEM, Some i, mk_masters t (chrdevs w)) else
  '(retval, c) ← Tty.Tty.chrdev_register known devnum ("i2c-" +:+ pretty i) (chrdevs w);
  Ret (retval, Some i, mk_masters t c).

Definition i2c_master_unregister (master id : Z) (w : masters) : outcome (Z * masters) :=
  if bool_decide (master = 0) then Ret (- EINVAL, w) else
  t ← tbl_remove (master_table w) id; Ret (0, mk_masters t (chrdevs w)).

Context `{!TableSpec Z Z T}.

(** As many numbers as there are masters and one more: one of them is free. *)
Lemma some_free (m : gmap Z Z) : exists i, 0 <= i <= Z.of_nat (size m) /\ m !! i = None.
Proof.
  set (l := seqZ 0 (Z.of_nat (size m) + 1)).
  destruct (decide (Exists (fun i => m !! i = None) l)) as [(i & Hi & E)%Exists_exists|Hno].
  - exists i. unfold l in Hi. apply elem_of_seqZ in Hi. split; [lia|done].
  - exfalso. assert (Hsub : l ⊆+ (map_to_list m).*1).
    { apply NoDup_submseteq; [apply NoDup_seqZ|]. intros i Hi.
      destruct (m !! i) as [v|] eqn:E; [|exfalso; apply Hno, Exists_exists; by exists i]. apply list_elem_of_fmap. exists (i, v). split; [done|]. by apply elem_of_map_to_list. }
    apply submseteq_length in Hsub. unfold l in Hsub. rewrite length_seqZ, length_fmap, length_map_to_list in Hsub. lia.
Qed.

Lemma first_free_ok n t m r i k : tbl_rep t m (S r) -> (forall j, 0 <= j -> tbl_key_ok j) -> 0 <= i ->
  (forall j v, m !! j = Some v -> v <> 0) -> m !! k = None -> i <= k <= i + Z.of_nat n ->
  exists j, first_free_id n t i = Ret j /\ i <= j <= k /\ m !! j = None /\ forall j', i <= j' < j -> m !! j' <> None.
Proof.
  intros Ht Hk Hi Hnn. revert i Hi. induction n as [|n IH]; intros i Hi Hfree Hb; cbn [first_free_id]; unfold mbind, outcome_bind;
    rewrite (tbl_has_ok t m r i Ht) by (by apply Hk); destruct (m !! i) as [v|] eqn:E; cbn [default id].
  - replace k with i in Hfree by lia. congruence.
  - rewrite bool_decide_eq_false_2 by (intros H; by apply H). exists i. split_and!; done || lia || (intros; lia).
  - rewrite bool_decide_eq_true_2 by (by apply (Hnn i)). assert (i <> k) by congruence.
    destruct (IH (i + 1)) as (j & -> & Hj & Hn & Hl); [lia|done|lia|]. exists j. split_and!; [done|lia|lia|done|].
    intros j' Hj'. destruct (decide (j' = i)) as [->|]; [by rewrite E|]. apply Hl. lia.
  - rewrite bool_decide_eq_false_2 by (intros H; by apply H). exists i. split_and!; done || lia || (intros; lia).
Qed.

(** Registering gives a master the least number no other has and its device
    node; the search ends after at most as many steps as there are masters. *)
Theorem master_register_least w m r fuel master devnum : tbl_rep (master_table w) m (S r) -> (forall j, 0 <= j -> tbl_key_ok j) ->
  (forall j v, m !! j = Some v -> v <> 0) -> master <> 0 -> (size m <= fuel)%nat ->
  exists i t, i2c_master_register fuel master devnum true true w =
      Ret (0, Some i, mk_masters t (Tty.Tty.mk_registry (Tty.Tty.numbers (chrdevs w)) (Tty.Tty.nodes (chrdevs w) ++ [("i2c-" +:+ pretty i, devnum)]))) /\
    0 <= i <= Z.of_nat (size m) /\ m !! i = None /\ (forall j, 0 <= j < i -> m !! j <> None) /\ tbl_rep t (<[i := master]> m) r.
Proof.
  intros Ht Hk Hnn Hm Hf. destruct (some_free m) as (k & Hb & Hfree).
  destruct (first_free_ok fuel (master_table w) m r 0 k Ht Hk) as (i & E & Hi & Hn & Hl); [lia|done|done|lia|].
  destruct (tbl_add_ok (master_table w) m r i master Ht) as (t & Ea & Hr); [apply Hk; lia|].
  exists i, t. unfold i2c_master_register. rewrite bool_decide_eq_false_2 by done. rewrite E. simpl. rewrite Ea. simpl.
  split_and!; [done|lia|lia|done|done|done].
Qed.
End Masters.

(** A defect: a master that is unregistered leaves its device node behind, and
    the next one that gets its number a second node of the same name. *)
Example node_left_behind :
  (w ← (let w := mk_masters Hashtable.Hashtable.new_uint (Tty.Tty.mk_registry Devnum.Devnum.no_devices []) in
        '(_, w) ← i2c_master_register 8 100 1 true true w; '(_, w) ← i2c_master_unregister 100 0 w;
        '(_, w) ← i2c_master_register 8 200 2 true true w; Ret w);
   Ret (Tty.Tty.nodes (chrdevs w))) = Ret [("i2c-0", 1); ("i2c-0", 2)].
Proof. vm_compute. reflexivity. Qed.
End I2c.
