(* ===== verification/Tca64xx.v ===== *)
(** The GPIO expanders of [src/drivers/gpio/tca64xx.c]: chips on an I2C bus with
    a register per eight lines for inputs, outputs, polarity and direction.
    The chips only signal that some input changed; the driver finds out which,
    and makes edge and level interrupts of it in software.

    The bus is the master of [I2c].  What the driver asks of the lines its reset
    and interrupt pins are connected to is a trace: it ignores the answers. *)
From S2P Require Import Prelude Gpio I2c.
#[local] Open Scope Z_scope.
Module Tca64xx.
Import I2c.

(** Arithmetic with divisions by constants. *)
Ltac zdiv := Z.to_euclidean_division_equations; lia.

Inductive tca64xx_part := TCA6408_PART | TCA6416_PART | TCA6424_PART.
#[export] Instance part_eq_dec : EqDecision tca64xx_part.
Proof. solve_decision. Defined.

Definition TCA6408_INPUT_REG : Z := 0x00.
Definition TCA6408_OUTPUT_REG : Z := 0x01.
Definition TCA6408_POLARITY_REG : Z := 0x02.
Definition TCA6408_CONFIG_REG : Z := 0x03.
Definition TCA6416_INPUT0_REG : Z := 0x00.
Definition TCA6416_OUTPUT0_REG : Z := 0x02.
Definition TCA6416_POLARITY0_REG : Z := 0x04.
Definition TCA6416_CONFIG0_REG : Z := 0x06.
Definition TCA6424_INPUT0_REG : Z := 0x00.
Definition TCA6424_OUTPUT0_REG : Z := 0x04.
Definition TCA6424_POLARITY0_REG : Z := 0x08.
Definition TCA6424_CONFIG0_REG : Z := 0x0C.
Definition TCA64XX_NR_GPIO_MAX : nat := 24.
Definition TCA64XX_IO_UNUSED : Z := 2 ^ 31.

Definition TCA64XX_IRQ_TYPE_EDGE_BOTH : Z := 0.
Definition TCA64XX_IRQ_TYPE_EDGE_RISING : Z := 1.
Definition TCA64XX_IRQ_TYPE_EDGE_FALLING : Z := 2.
Definition TCA64XX_IRQ_TYPE_LEVEL_HIGH : Z := 1.
Definition TCA64XX_IRQ_TYPE_LEVEL_LOW : Z := 2.
Definition TCA64XX_IRQ_TYPE_EDGE : Z := 0.
Definition TCA64XX_IRQ_TYPE_LEVEL : Z := 1.

Definition IRQ_TYPE_NONE : Z := 0.
Definition IRQ_TYPE_EDGE_RISING : Z := 1.
Definition IRQ_TYPE_EDGE_FALLING : Z := 2.
Definition IRQ_TYPE_EDGE_BOTH : Z := 3.
Definition IRQ_TYPE_LEVEL_HIGH : Z := 4.
Definition IRQ_TYPE_LEVEL_LOW : Z := 8.

(** ** Registers

    They are [uint8_t]: the error for a line the chip does not have is the
    number of a register. *)

Definition get_nr_gpios (part : tca64xx_part) : Z :=
  match part with TCA6408_PART => 8 | TCA6416_PART => 16 | TCA6424_PART => 24 end.
Definition get_config_reg (part : tca64xx_part) (which : Z) : Z :=
  let reg := match part with
    | TCA6408_PART => TCA6408_CONFIG_REG | TCA6416_PART => TCA6416_CONFIG0_REG | TCA6424_PART => TCA6424_CONFIG0_REG end in
  if bool_decide (get_nr_gpios part <= which) then wrap8 (- EINVAL) else wrap8 (reg + which / 8).
Definition get_polarity_reg (part : tca64xx_part) (which : Z) : Z :=
  let reg := match part with
    | TCA6408_PART => TCA6408_POLARITY_REG | TCA6416_PART => TCA6416_POLARITY0_REG | TCA6424_PART => TCA6424_POLARITY0_REG end in
  if bool_decide (get_nr_gpios part <= which) then wrap8 (- EINVAL) else wrap8 (reg + which / 8).
Definition get_output_reg (part : tca64xx_part) (which : Z) : Z :=
  let reg := match part with
    | TCA6408_PART => TCA6408_OUTPUT_REG | TCA6416_PART => TCA6416_OUTPUT0_REG | TCA6424_PART => TCA6424_OUTPUT0_REG end in
  if bool_decide (get_nr_gpios part <= which) then wrap8 (- EINVAL) else wrap8 (reg + which / 8).
Definition get_input_reg (part : tca64xx_part) (which : Z) : Z :=
  let reg := match part with
    | TCA6408_PART => TCA6408_INPUT_REG | TCA6416_PART => TCA6416_INPUT0_REG | TCA6424_PART => TCA6424_INPUT0_REG end in
  if bool_decide (get_nr_gpios part <= which) then wrap8 (- EINVAL) else wrap8 (reg + which / 8).

(** [struct tca64xx_platform_data].  [work]: the jobs in the work queue, if it
    was ever created.  [lines] are the requests made on other controllers'
    lines, [calls] the handlers called with their argument. *)
Record tca64xx (B : Type) := mk_tca {
  part : tca64xx_part; master : option (i2c_master B); addr : Z; reset : Z; irq : Z;
  in_ : Z; intstat : Z; mask : Z; trigger : Z; level : Z;
  irq_vector : list Z; gpio_base : list Z;
  work : option nat; worker_exit : bool;
  lines : list (Gpio.request * Z); calls : list (Z * Z);
}.
Arguments mk_tca {B}. Arguments part {B}. Arguments master {B}. Arguments addr {B}. Arguments reset {B}. Arguments irq {B}.
Arguments in_ {B}. Arguments intstat {B}. Arguments mask {B}. Arguments trigger {B}. Arguments level {B}.
Arguments irq_vector {B}. Arguments gpio_base {B}. Arguments work {B}. Arguments worker_exit {B}. Arguments lines {B}. Arguments calls {B}.

(** Shifts of 32-bit values: by 32 or more they are undefined. *)
Definition shr32 (v s : Z) : outcome Z := if bool_decide (s < 32) then Ret (Z.shiftr v s) else Fault.
Definition shl32 (v s : Z) : outcome Z := if bool_decide (s < 32) then Ret (wrap32 (Z.shiftl v s)) else Fault.
Definition compl32 (v : Z) : Z := Z.ldiff (2 ^ 32 - 1) v.

Section Driver.
Context {B : Type}.
Implicit Types (t : tca64xx B).

Definition set_master t (m : i2c_master B) : tca64xx B :=
  mk_tca (part t) (Some m) (addr t) (reset t) (irq t) (in_ t) (intstat t) (mask t) (trigger t) (level t) (irq_vector t) (gpio_base t) (work t) (worker_exit t) (lines t) (calls t).
Definition set_state t (i st m tr lv : Z) : tca64xx B :=
  mk_tca (part t) (master t) (addr t) (reset t) (irq t) i st m tr lv (irq_vector t) (gpio_base t) (work t) (worker_exit t) (lines t) (calls t).
Definition set_in t (i st : Z) : tca64xx B := set_state t i st (mask t) (trigger t) (level t).
Definition set_mask t (m : Z) : tca64xx B := set_state t (in_ t) (intstat t) m (trigger t) (level t).
Definition set_vector t (v b : list Z) : tca64xx B :=
  mk_tca (part t) (master t) (addr t) (reset t) (irq t) (in_ t) (intstat t) (mask t) (trigger t) (level t) v b (work t) (worker_exit t) (lines t) (calls t).
Definition set_work t (n : nat) : tca64xx B :=
  mk_tca (part t) (master t) (addr t) (reset t) (irq t) (in_ t) (intstat t) (mask t) (trigger t) (level t) (irq_vector t) (gpio_base t) (Some n) (worker_exit t) (lines t) (calls t).
Definition set_worker_exit t (b : bool) : tca64xx B :=
  mk_tca (part t) (master t) (addr t) (reset t) (irq t) (in_ t) (intstat t) (mask t) (trigger t) (level t) (irq_vector t) (gpio_base t) (work t) b (lines t) (calls t).
Definition line t (r : Gpio.request) (l : Z) : tca64xx B :=
  mk_tca (part t) (master t) (addr t) (reset t) (irq t) (in_ t) (intstat t) (mask t) (trigger t) (level t) (irq_vector t) (gpio_base t) (work t) (worker_exit t) (lines t ++ [(r, l)]) (calls t).
Definition call t (h pin : Z) : tca64xx B :=
  mk_tca (part t) (master t) (addr t) (reset t) (irq t) (in_ t) (intstat t) (mask t) (trigger t) (level t) (irq_vector t) (gpio_base t) (work t) (worker_exit t) (lines t) (calls t ++ [(h, pin)]).

(** ** The bus *)

(** The value is what the transfer has left at [val]. *)
Definition i2c_get t (regaddr : Z) : tca64xx B * option Z * Z :=
  match master t with
  | None => (t, None, - EINVAL)
  | Some m =>
      let '(m, l, ret) := i2c_transfer m [mk_msg (addr t) 0 [regaddr] 1; mk_msg (addr t) I2C_M_READ [] 1] in
      (set_master t m, match l with [v] :: _ => Some v | _ => None end, ret)
  end.
Definition i2c_set t (regaddr val : Z) : tca64xx B * Z :=
  match master t with
  | None => (t, - EINVAL)
  | Some m =>
      let '(m, _, ret) := i2c_transfer m [mk_msg (addr t) 0 [regaddr; val] 2] in (set_master t m, ret)
  end.

(** ** Lines *)

Definition tca64xx_reset t (en : bool) : tca64xx B * Z :=
  let t := line t (Gpio.DirectionOut 0) (reset t) in
  (if en then t else line t (Gpio.DirectionOut 1) (reset t), 0).

Definition tca64xx_set t (which value : Z) : outcome (tca64xx B * Z) :=
  let reg := get_output_reg (part t) (wrap8 which) in
  let '(t, val, ret) := i2c_get t reg in
  if bool_decide (ret <> 0) then Ret (t, ret) else
  val ← deref val;
  let bit := Z.shiftl 1 (which mod 8) in
  Ret (i2c_set t reg (if bool_decide (value <> 0) then Z.lor val bit else Z.ldiff val bit)).

Definition tca64xx_set_direction_in t (which : Z) : outcome (tca64xx B * Z) :=
  let reg := get_config_reg (part t) (wrap8 which) in
  let '(t, val, ret) := i2c_get t reg in
  if bool_decide (ret <> 0) then Ret (t, ret) else
  val ← deref val;
  Ret (i2c_set t reg (Z.lor val (Z.shiftl 1 (which mod 8)))).

Definition tca64xx_set_direction_out t (which value : Z) : outcome (tca64xx B * Z) :=
  let reg := get_config_reg (part t) (wrap8 which) in
  let '(t, val, ret) := i2c_get t reg in
  if bool_decide (ret <> 0) then Ret (t, ret) else
  val ← deref val;
  let '(t, ret) := i2c_set t reg (Z.ldiff val (Z.shiftl 1 (which mod 8))) in
  if bool_decide (ret <> 0) then Ret (t, ret) else tca64xx_set t which value.

Definition tca64xx_get_direction t (which : Z) : outcome (tca64xx B * Z) :=
  let reg := get_config_reg (part t) (wrap8 which) in
  let '(t, val, ret) := i2c_get t reg in
  if bool_decide (ret <> 0) then Ret (t, - EIO) else
  direction ← deref val;
  Ret (t, Z.shiftr (Z.land direction (Z.shiftl 1 (which mod 8))) (which mod 8)).

Definition tca64xx_set_polarity_inverted t (which inverted : Z) : outcome (tca64xx B * Z) :=
  let reg := get_polarity_reg (part t) which in
  let '(t, val, ret) := i2c_get t reg in
  if bool_decide (ret <> 0) then Ret (t, - EIO) else
  polarity ← deref val;
  let bit := Z.shiftl 1 (which mod 8) in
  let '(t, ret) := i2c_set t reg (if bool_decide (inverted <> 0) then Z.lor polarity bit else Z.ldiff polarity bit) in
  if bool_decide (ret <> 0) then Ret (t, - EIO) else Ret (t, 0).

Definition tca64xx_get_polarity_inverted t (which : Z) : outcome (tca64xx B * Z) :=
  let reg := get_polarity_reg (part t) which in
  let '(t, val, ret) := i2c_get t reg in
  if bool_decide (ret <> 0) then Ret (t, - EIO) else
  polarity ← deref val;
  Ret (t, Z.shiftr (Z.land polarity (Z.shiftl 1 (which mod 8))) (which mod 8)).

(** ** Interrupts *)

Definition tca64xx_get_gpio_triggering_type t (which : Z) : outcome Z := v ← shr32 (trigger t) which; Ret (Z.land v 1).
Definition tca64xx_get_gpio_triggering_level t (which : Z) : outcome Z := v ← shr32 (level t) (2 * which); Ret (Z.land v 3).

(** The body of the loop on the pins: is [intstat] set?  The low bits of [diff]
    and [i] are the pin's. *)
Definition pin_fires t (pin diff i : Z) : outcome bool :=
  ty ← tca64xx_get_gpio_triggering_type t pin;
  if bool_decide (ty = TCA64XX_IRQ_TYPE_EDGE) && Z.odd diff then
    lv ← tca64xx_get_gpio_triggering_level t pin;
    Ret (bool_decide (lv = TCA64XX_IRQ_TYPE_EDGE_BOTH) ||
         (negb (Z.odd i) && bool_decide (lv = TCA64XX_IRQ_TYPE_EDGE_FALLING)) ||
         (Z.odd i && bool_decide (lv = TCA64XX_IRQ_TYPE_EDGE_RISING)))
  else if bool_decide (ty = TCA64XX_IRQ_TYPE_LEVEL) then
    lv ← tca64xx_get_gpio_triggering_level t pin;
    Ret ((Z.odd i && bool_decide (lv = TCA64XX_IRQ_TYPE_LEVEL_HIGH)) ||
         (negb (Z.odd i) && bool_decide (lv = TCA64XX_IRQ_TYPE_LEVEL_LOW)))
  else Ret false.
Fixpoint update_pins (n : nat) t (pin diff i st : Z) : outcome Z :=
  match n with
  | O => Ret st
  | S n =>
      fires ← pin_fires t pin diff i;
      update_pins n t (pin + 1) (Z.shiftr diff 1) (Z.shiftr i 1) (if fires : bool then Z.lor st (Z.shiftl 1 pin) else st)
  end.
Definition intstat_update t (i : Z) : outcome (tca64xx B) :=
  let diff := Z.lxor (in_ t) i in
  if bool_decide (diff = 0) then Ret t else
  let t := set_in t i (intstat t) in
  st ← update_pins (Z.to_nat (get_nr_gpios (part t))) t 0 diff i (intstat t);
  Ret (set_in t i st).

(** The input registers of the [n] ports from the pin [i] on; [None] when one
    cannot be read. *)
Fixpoint read_ports (n : nat) t (i acc : Z) : outcome (tca64xx B * option Z) :=
  match n with
  | O => Ret (t, Some acc)
  | S n =>
      let '(t, val, ret) := i2c_get t (get_input_reg (part t) (wrap8 i)) in
      if bool_decide (ret <> 0) then Ret (t, None) else
      val ← deref val;
      read_ports n t (i + 8) (Z.lor acc (Z.shiftl val i))
  end.
Definition tca64xx_registers_update t : outcome (tca64xx B) :=
  '(t, i) ← read_ports (Z.to_nat (get_nr_gpios (part t) / 8)) t 0 0;
  match i with None => Ret t | Some i => intstat_update t i end.

(** [in] is a byte here, and the port is shifted by its number. *)
Definition tca64xx_get t (which : Z) : outcome (tca64xx B * Z) :=
  let reg := get_input_reg (part t) (wrap8 which) in
  let '(t, val, ret) := i2c_get t reg in
  if bool_decide (ret <> 0) then Ret (t, - EIO) else
  val ← deref val;
  t ← intstat_update t (wrap8 (Z.shiftl val (wrap8 which / 8)));
  Ret (t, if bool_decide (Z.land val (Z.shiftl 1 (which mod 8)) <> 0) then 1 else 0).

Definition tca64xx_line_count t : Z := get_nr_gpios (part t).

Definition tca64xx_gpio_mask_irq t (which : Z) : outcome (tca64xx B * Z) :=
  b ← shl32 1 which; Ret (set_mask t (Z.lor (mask t) b), 0).
Definition tca64xx_gpio_unmask_irq t (which : Z) : outcome (tca64xx B * Z) :=
  b ← shl32 1 which; Ret (set_mask t (Z.ldiff (mask t) b), 0).
Definition tca64xx_gpio_clear_interrupt t (which : Z) : outcome (tca64xx B * Z) :=
  b ← shl32 1 which; Ret (set_in t (in_ t) (Z.ldiff (intstat t) b), 0).
Definition tca64xx_gpio_get_interrupt t : Z := Z.land (intstat t) (compl32 (mask t)).

Definition tca64xx_set_gpio_trigger t (which trig : Z) : outcome (tca64xx B) :=
  b ← shl32 TCA64XX_IRQ_TYPE_LEVEL which;
  let tr := if bool_decide (trig <> 0) then Z.lor (trigger t) b else Z.ldiff (trigger t) b in
  Ret (set_state t (in_ t) (intstat t) (mask t) tr (level t)).
Definition tca64xx_set_gpio_level t (which lv : Z) : outcome (tca64xx B) :=
  b ← shl32 0x03 (2 * which);
  v ← shl32 lv (2 * which);
  Ret (set_state t (in_ t) (intstat t) (mask t) (trigger t) (Z.lor (Z.ldiff (level t) b) v)).

Definition set_both t (which trig lv : Z) : outcome (tca64xx B) := t ← tca64xx_set_gpio_trigger t which trig; tca64xx_set_gpio_level t which lv.
(** [which] is cut to a byte by the two functions above. *)
Definition tca64xx_set_gpio_triggering t (which trig : Z) : outcome (tca64xx B * Z) :=
  let which := wrap8 which in
  t ← (if bool_decide (trig = IRQ_TYPE_NONE) || bool_decide (trig = IRQ_TYPE_EDGE_BOTH) then
         set_both t which TCA64XX_IRQ_TYPE_EDGE TCA64XX_IRQ_TYPE_EDGE_BOTH
       else if bool_decide (trig = IRQ_TYPE_EDGE_RISING) then set_both t which TCA64XX_IRQ_TYPE_EDGE TCA64XX_IRQ_TYPE_EDGE_RISING
       else if bool_decide (trig = IRQ_TYPE_EDGE_FALLING) then set_both t which TCA64XX_IRQ_TYPE_EDGE TCA64XX_IRQ_TYPE_EDGE_FALLING
       else if bool_decide (trig = IRQ_TYPE_LEVEL_HIGH) then set_both t which TCA64XX_IRQ_TYPE_LEVEL TCA64XX_IRQ_TYPE_LEVEL_HIGH
       else if bool_decide (trig = IRQ_TYPE_LEVEL_LOW) then set_both t which TCA64XX_IRQ_TYPE_LEVEL TCA64XX_IRQ_TYPE_LEVEL_LOW
       else Ret t);
  Ret (t, 0).

(** [dev_base] is [dev->base]. *)
Definition tca64xx_gpio_irq_attach (dev_base : Z) t (which isr : Z) : outcome (tca64xx B * Z) :=
  _ ← deref (irq_vector t !! Z.to_nat which);
  _ ← deref (gpio_base t !! Z.to_nat which);
  Ret (set_vector t (<[Z.to_nat which := isr]> (irq_vector t)) (<[Z.to_nat which := wrap16 dev_base]> (gpio_base t)), 0).

(** What an attached handler does, given its argument. *)
Context (isr : Z -> Z -> tca64xx B -> outcome (tca64xx B)).

(** [tca64xx_gpio_clear_interrupt (data, pin)]: [data] is the driver's structure,
    not a [gpio_device].  What is read as its [device.priv], 48 bytes in, is
    [irq_vector[0]]: the structure that is written to is the code of the handler
    of pin 0. *)
Definition clear_interrupt_of_data : outcome (tca64xx B) := Fault.

(** One pass over the pins that are left; the bits not looked at are returned. *)
Fixpoint deliver (n : nat) t (pin irqstat : Z) : outcome (tca64xx B * Z) :=
  match n with
  | O => Ret (t, irqstat)
  | S n =>
      if bool_decide (irqstat = 0) then Ret (t, irqstat) else
      t ← (if Z.odd irqstat then
             base ← deref (gpio_base t !! Z.to_nat pin);
             h ← deref (irq_vector t !! Z.to_nat pin);
             _ ← (if bool_decide (h <> 0) then isr h (base + pin) (call t h (base + pin)) else Ret t);
             clear_interrupt_of_data
           else Ret t);
      deliver n t (pin + 1) (Z.shiftr irqstat 1)
  end.
Fixpoint deliver_all (fuel : nat) t (irqstat : Z) : outcome (tca64xx B) :=
  match fuel with
  | O => Hang
  | S fuel =>
      if bool_decide (irqstat = 0) then Ret t else
      '(t, irqstat) ← deliver (Z.to_nat (get_nr_gpios (part t))) t 0 irqstat;
      deliver_all fuel t irqstat
  end.
(** Every pass takes at least eight of the 32 bits. *)
Definition _tca64xx_gpio_irq_handler t : outcome (tca64xx B) :=
  t ← tca64xx_registers_update t;
  t ← deliver_all 5 t (tca64xx_gpio_get_interrupt t);
  Ret (line (line t Gpio.IrqClear (irq t)) Gpio.IrqUnmask (irq t)).

(** A round of [tca64xx_polling_worker]. *)
Definition polling_round t : outcome (tca64xx B) := if worker_exit t then Ret t else tca64xx_registers_update t.

(** ** The expanders of the system *)

Record system := mk_system { chips : gmap Z (tca64xx B); irq_pdata_list : list Z }.
Definition put_chip (s : system) (p : Z) t : system := mk_system (<[p := t]> (chips s)) (irq_pdata_list s).

Fixpoint find_pdata (s : system) (n : Z) (l : list Z) : outcome (option Z) :=
  match l with
  | [] => Ret None
  | p :: l =>
      t ← deref (chips s !! p);
      if bool_decide (irq t <> TCA64XX_IO_UNUSED) && bool_decide (irq t = n) then Ret (Some p) else find_pdata s n l
  end.
Definition get_pdata (s : system) (n : Z) : outcome (option Z) := find_pdata s n (irq_pdata_list s).

(** The job is run later, by the worker of the queue. *)
Definition tca64xx_gpio_irq_handler (s : system) (n : Z) : outcome system :=
  p ← get_pdata s n;
  match p with
  | None => Ret s
  | Some p =>
      t ← deref (chips s !! p);
      let t := line t Gpio.IrqMask (irq t) in
      jobs ← deref (work t);
      Ret (put_chip s p (set_work t (S jobs)))
  end.
Definition run_job (s : system) (p : Z) : outcome system :=
  t ← deref (chips s !! p);
  match work t with
  | Some (S jobs) => t ← _tca64xx_gpio_irq_handler (set_work t jobs); Ret (put_chip s p t)
  | _ => Ret s
  end.

(** [struct tca64xx_platform]. *)
Record tca64xx_platform := mk_platform { p_master : option (i2c_master B); p_part : tca64xx_part; p_addr : Z; p_reset_gpio : Z; p_irq : Z }.

(** [p] is what [malloc] returns and [junk] what is there; [handler] is the
    address of [tca64xx_gpio_irq_handler]; [registered] is what
    [gpio_device_register] returns, [task] whether there is room for a task. *)
Definition tca64xx_probe (p handler : Z) (junk : tca64xx B) (pdata : tca64xx_platform) (registered : Z) (task : bool) (s : system) : outcome (system * Z) :=
  if bool_decide (p = 0) then Ret (s, - ENOMEM) else
  let t := mk_tca (p_part pdata) (p_master pdata) (p_addr pdata) (p_reset_gpio pdata) (p_irq pdata) 0 0
    (Z.shiftl 1 (get_nr_gpios (p_part pdata)) - 1) (trigger junk) (level junk) (irq_vector junk) (gpio_base junk)
    (work junk) (worker_exit junk) [] [] in
  let t := if bool_decide (p_reset_gpio pdata <> TCA64XX_IO_UNUSED) then (tca64xx_reset t false).1 else t in
  t ← tca64xx_registers_update t;
  if bool_decide (registered <> 0) then Ret (mk_system (delete p (chips s)) (irq_pdata_list s), registered) else
  if bool_decide (p_irq pdata = TCA64XX_IO_UNUSED) then Ret (put_chip s p t, 0) else
  let t := fold_left (fun t r => line t r (irq t))
    [Gpio.Activate; Gpio.DirectionIn; Gpio.IrqAttach handler; Gpio.IrqSetTriggering IRQ_TYPE_EDGE_BOTH; Gpio.IrqClear; Gpio.IrqUnmask] t in
  Ret (mk_system (<[p := set_worker_exit t false]> (chips s)) (irq_pdata_list s ++ [p]), if task then 0 else - EINVAL).

(** The table of [gpio_ops] of a device registered at [dev_base]. *)
Definition tca64xx_gpio_ops (dev_base : Z) : Gpio.gpio_ops :=
  Gpio.mk_ops (Some tca64xx_get_direction) (Some tca64xx_set_direction_in) (Some tca64xx_set_direction_out) None None
    (Some tca64xx_get) (Some tca64xx_set) None (Some (tca64xx_gpio_irq_attach dev_base)) (Some tca64xx_set_gpio_triggering)
    (Some tca64xx_gpio_mask_irq) (Some tca64xx_gpio_unmask_irq) (Some tca64xx_gpio_clear_interrupt).
End Driver.
Arguments system B : clear implicits.
Arguments tca64xx_platform B : clear implicits.

(** ** Lines: the specification *)

(** The latches of a port [i]: output, polarity and direction. *)
Definition port_latches (part : tca64xx_part) (i : Z) : list Z :=
  [get_output_reg part (8 * i); get_polarity_reg part (8 * i); get_config_reg part (8 * i)].
Definition latches (part : tca64xx_part) : list Z :=
  mjoin (port_latches part <$> (Z.of_nat <$> seq 0 (Z.to_nat (get_nr_gpios part / 8)))).

(** A chip on a bus: reading a latch gives what was written last, writing one
    changes no other, and a transfer that fails says so.  [failures] counts the
    transfers that failed so far. *)
Class Expander {B} (f : B -> list i2c_msg -> B * list (list Z) * Z) (a : Z) (part : tca64xx_part) := {
  latch : B -> Z -> Z;
  failures : B -> nat;
  latch_byte b r : 0 <= latch b r < 2 ^ 8;
  chip_read b r : let '(b', l, ret) := f b [mk_msg a 0 [r] 1; mk_msg a I2C_M_READ [] 1] in
    (forall r', latch b' r' = latch b r') /\
    (ret <= 0 /\ if bool_decide (ret = 0) then failures b' = failures b else (failures b < failures b')%nat) /\
    (ret = 0 -> exists v, l = [[v]] /\ 0 <= v < 2 ^ 8 /\ (r ∈ latches part -> v = latch b r));
  chip_write b r v : 0 <= v < 2 ^ 8 -> r ∈ latches part -> let '(b', _, ret) := f b [mk_msg a 0 [r; v] 2] in
    (forall r', r' <> r -> latch b' r' = latch b r') /\
    (ret <= 0 /\ if bool_decide (ret = 0) then failures b' = failures b else (failures b < failures b')%nat) /\ (latch b' r = v \/ ret <> 0 /\ latch b' r = latch b r);
}.

(** A line: is it an input, is its input inverted, what is it driven to. *)
Record pin := mk_pin { pin_in : bool; pin_inverted : bool; pin_out : bool }.
Inductive line_op := DirectionIn | DirectionOut (v : Z) | SetValue (v : Z) | GetDirection | SetInverted (v : Z) | GetInverted.
Definition nonzero (v : Z) : bool := bool_decide (v <> 0).
Definition line_spec (op : line_op) (p : pin) : pin * Z :=
  match op with
  | DirectionIn => (mk_pin true (pin_inverted p) (pin_out p), 0)
  | DirectionOut v => (mk_pin false (pin_inverted p) (nonzero v), 0)
  | SetValue v => (mk_pin (pin_in p) (pin_inverted p) (nonzero v), 0)
  | GetDirection => (p, Z.b2z (pin_in p))
  | SetInverted v => (mk_pin (pin_in p) (nonzero v) (pin_out p), 0)
  | GetInverted => (p, Z.b2z (pin_inverted p))
  end.
Definition run_op {B} (op : line_op) (which : Z) (t : tca64xx B) : outcome (tca64xx B * Z) :=
  match op with
  | DirectionIn => tca64xx_set_direction_in t which
  | DirectionOut v => tca64xx_set_direction_out t which v
  | SetValue v => tca64xx_set t which v
  | GetDirection => tca64xx_get_direction t which
  | SetInverted v => tca64xx_set_polarity_inverted t which v
  | GetInverted => tca64xx_get_polarity_inverted t which
  end.
Fixpoint run_ops {B} (l : list (line_op * Z)) (t : tca64xx B) : outcome (tca64xx B * list Z) :=
  match l with
  | [] => Ret (t, [])
  | (op, which) :: l => '(t, r) ← run_op op which t; '(t, rs) ← run_ops l t; Ret (t, r :: rs)
  end.

(** An operation is done and no transfer of it failed, or one did and its line
    alone may be in between; [n] counts the transfers that failed. *)
Inductive line_step (which : Z) (op : line_op) (P P' : Z -> pin) (n n' : nat) (r : Z) : Prop :=
  | line_done : n' = n -> P' which = (line_spec op (P which)).1 -> r = (line_spec op (P which)).2 -> line_step which op P P' n n' r
  | line_failed : (n < n')%nat -> r < 0 -> line_step which op P P' n n' r.
Inductive line_steps (nr : Z) : (Z -> pin) -> nat -> list (line_op * Z) -> list Z -> (Z -> pin) -> nat -> Prop :=
  | steps_nil P P' n : (forall w, 0 <= w < nr -> P' w = P w) -> line_steps nr P n [] [] P' n
  | steps_cons which op l r rs P Q P' n m n' : line_step which op P Q n m r ->
      (forall w, 0 <= w < nr -> w <> which -> Q w = P w) ->
      line_steps nr Q m l rs P' n' -> line_steps nr P n ((op, which) :: l) (r :: rs) P' n'.

Section Lines.
Context {B : Type} {f : B -> list i2c_msg -> B * list (list Z) * Z} {a : Z} {P : tca64xx_part} `{!Expander f a P}.
Implicit Types (t : tca64xx B) (b : B).

(** The three latches of a line. *)
Inductive latch_kind := Output | Polarity | Config.
#[local] Instance kind_eq_dec : EqDecision latch_kind.
Proof. solve_decision. Defined.
Definition reg_of (k : latch_kind) (which : Z) : Z :=
  match k with Output => get_output_reg P which | Polarity => get_polarity_reg P which | Config => get_config_reg P which end.
Definition bit_of (k : latch_kind) (b : B) (which : Z) : bool := Z.testbit (latch b (reg_of k which)) (which mod 8).
Definition in_range (which : Z) : Prop := 0 <= which < get_nr_gpios P.

Definition reg_base (k : latch_kind) : Z :=
  match k, P with
  | Output, TCA6408_PART => 1 | Polarity, TCA6408_PART => 2 | Config, TCA6408_PART => 3
  | Output, TCA6416_PART => 2 | Polarity, TCA6416_PART => 4 | Config, TCA6416_PART => 6
  | Output, TCA6424_PART => 4 | Polarity, TCA6424_PART => 8 | Config, TCA6424_PART => 12
  end.
Lemma reg_of_base k w : in_range w -> reg_of k w = reg_base k + w / 8 /\ 0 <= w / 8 < get_nr_gpios P / 8.
Proof.
  unfold in_range. intros Hw. assert (Hd : 0 <= w / 8 < get_nr_gpios P / 8) by (destruct P; unfold get_nr_gpios in *; zdiv). split; [|done].
  destruct k; unfold reg_of, get_output_reg, get_polarity_reg, get_config_reg, reg_base; rewrite bool_decide_eq_false_2 by lia;
    destruct P; unfold get_nr_gpios in Hd; apply wrap8_small; clear Hw.
  all: unfold TCA6408_OUTPUT_REG, TCA6416_OUTPUT0_REG, TCA6424_OUTPUT0_REG, TCA6408_POLARITY_REG, TCA6416_POLARITY0_REG,
    TCA6424_POLARITY0_REG, TCA6408_CONFIG_REG, TCA6416_CONFIG0_REG, TCA6424_CONFIG0_REG; zdiv.
Qed.
Lemma reg_of_inj k k' w w' : in_range w -> in_range w' -> reg_of k w = reg_of k' w' -> k = k' /\ w / 8 = w' / 8.
Proof.
  intros Hw Hw'. destruct (reg_of_base k w Hw) as [-> H1], (reg_of_base k' w' Hw') as [-> H2].
  destruct k, k'; unfold reg_base; destruct P; unfold get_nr_gpios in *; intros E; (split; [done|zdiv]) || zdiv.
Qed.
Lemma reg_of_latches k w : in_range w -> reg_of k w ∈ latches P.
Proof.
  intros Hw. destruct (reg_of_base k w Hw) as [E H]. rewrite E.
  assert (Hl : latches P = match P with TCA6408_PART => [1; 2; 3] | TCA6416_PART => [2; 4; 6; 3; 5; 7] | TCA6424_PART => [4; 8; 12; 5; 9; 13; 6; 10; 14] end)
    by (destruct P; reflexivity).
  rewrite Hl. assert (Hc : w / 8 = 0 \/ w / 8 = 1 \/ w / 8 = 2) by (destruct P; unfold get_nr_gpios in H; zdiv).
  destruct Hc as [Hc|[Hc|Hc]]; rewrite Hc in H |- *; unfold reg_base; destruct P, k; unfold get_nr_gpios in H; (exfalso; zdiv) || (apply (bool_decide_unpack _); vm_compute; exact I).
Qed.
Lemma in_range_byte w : in_range w -> wrap8 w = w.
Proof. unfold in_range. intros H. apply wrap8_small. destruct P; unfold get_nr_gpios in H; lia. Qed.

Definition pins (b : B) (which : Z) : pin := mk_pin (bit_of Config b which) (bit_of Polarity b which) (bit_of Output b which).

(** A result and whether a transfer failed. *)
Definition counted (b b' : B) (ret : Z) : Prop :=
  ret <= 0 /\ if bool_decide (ret = 0) then failures b' = failures b else (failures b < failures b')%nat.
Lemma counted_done b b' : counted b b' 0 -> failures b' = failures b.
Proof. by intros [_ H]. Qed.
Lemma counted_failed b b' ret : counted b b' ret -> ret <> 0 -> (failures b < failures b')%nat /\ ret < 0.
Proof. intros [H H'] Hn. rewrite bool_decide_eq_false_2 in H' by done. split; [done|lia]. Qed.
Lemma counted_after b1 b2 b3 ret : counted b1 b2 0 -> counted b2 b3 ret -> counted b1 b3 ret.
Proof. intros E%counted_done [H H']. split; [done|]. by rewrite <- E. Qed.

(** The driver's structure is for this chip, whose bus is in the state [b]. *)
Definition for_chip t b : Prop := part t = P /\ addr t = a /\ exists sf, master t = Some (mk_master (Some f) sf b).

Lemma i2c_get_spec t b r : for_chip t b -> exists b' val ret t', i2c_get t r = (t', val, ret) /\ for_chip t' b' /\
  (forall r', latch b' r' = latch b r') /\ counted b b' ret /\
  (ret = 0 -> exists v, val = Some v /\ 0 <= v < 2 ^ 8 /\ (r ∈ latches P -> v = latch b r)).
Proof.
  intros (HP & Ha & sf & Hm). unfold i2c_get, i2c_transfer. rewrite Hm. cbn [transfer bus]. rewrite Ha.
  pose proof (chip_read b r) as Hr. destruct (f b _) as [[b' l] ret]. destruct Hr as (H1 & H2 & H3).
  eexists b', _, ret, _. split; [reflexivity|]. split; [by repeat split; [..|exists sf]|]. split; [done|]. split; [done|].
  intros E. destruct (H3 E) as (v & -> & ? & ?). by exists v.
Qed.

Lemma i2c_set_spec t b r v : for_chip t b -> 0 <= v < 2 ^ 8 -> r ∈ latches P -> exists b' ret t', i2c_set t r v = (t', ret) /\ for_chip t' b' /\
  (forall r', r' <> r -> latch b' r' = latch b r') /\ counted b b' ret /\ (latch b' r = v \/ ret <> 0 /\ latch b' r = latch b r).
Proof.
  intros (HP & Ha & sf & Hm) Hv Hr. unfold i2c_set, i2c_transfer. rewrite Hm. cbn [transfer bus]. rewrite Ha.
  pose proof (chip_write b r v Hv Hr) as Hw. destruct (f b _) as [[b' l] ret]. destruct Hw as (H1 & H2 & H3).
  eexists b', ret, _. split; [reflexivity|]. split; [by repeat split; [..|exists sf]|]. done.
Qed.

(** Changing a bit of a byte. *)
Definition with_bit (v k : Z) (x : bool) : Z := if x then Z.lor v (Z.shiftl 1 k) else Z.ldiff v (Z.shiftl 1 k).
Lemma with_bit_testbit v k x i : 0 <= k -> 0 <= i -> Z.testbit (with_bit v k x) i = if decide (i = k) then x else Z.testbit v i.
Proof.
  intros Hk Hi. unfold with_bit. assert (Hb : Z.testbit (Z.shiftl 1 k) i = bool_decide (i = k)).
  { rewrite Z.shiftl_spec by done. case_bool_decide as E; [by subst; rewrite Z.sub_diag|]. destruct (decide (i < k)); [by rewrite Z.testbit_neg_r by lia|].
    rewrite Z.bits_above_log2; [done|done|cbn; lia]. }
  destruct x; [rewrite Z.lor_spec|rewrite Z.ldiff_spec]; rewrite Hb; case_bool_decide; case_decide; try done.
  all: by rewrite ?orb_true_r, ?andb_false_r, ?orb_false_r, ?andb_true_r.
Qed.
Lemma with_bit_byte v k x : 0 <= v < 2 ^ 8 -> 0 <= k < 8 -> 0 <= with_bit v k x < 2 ^ 8.
Proof.
  intros Hv Hk. assert (H0 : 0 <= with_bit v k x).
  { unfold with_bit. assert (0 <= Z.shiftl 1 k) by (by apply Z.shiftl_nonneg). destruct x; [apply Z.lor_nonneg; lia|apply Z.ldiff_nonneg; lia]. }
  split; [done|]. apply Z.nle_gt. intros Hge.
  assert (8 <= Z.log2 (with_bit v k x)) as Hl by (change 8 with (Z.log2 (2 ^ 8)); by apply Z.log2_le_mono).
  pose proof (Z.bit_log2 (with_bit v k x) ltac:(lia)) as Hb. rewrite with_bit_testbit in Hb by lia. case_decide; [lia|].
  rewrite Z.bits_above_log2 in Hb; [done|lia|]. destruct (decide (v = 0)) as [->|]; [cbn; lia|].
  assert (Z.log2 v < 8) by (apply Z.log2_lt_pow2; lia). lia.
Qed.

(** Reading a latch and writing it with the bit of a line changed. *)
Definition rmw t (r which : Z) (x : bool) : outcome (tca64xx B * Z) :=
  let '(t, val, ret) := i2c_get t r in
  if bool_decide (ret <> 0) then Ret (t, ret) else val ← deref val; Ret (i2c_set t r (with_bit val (which mod 8) x)).

(** All the bits are as before, but that of a latch of a line, which is [y]. *)
Definition bits_but (b b' : B) (k : latch_kind) (which : Z) (y : bool) : Prop :=
  forall k' w, in_range w -> bit_of k' b' w = if decide (k' = k /\ w = which) then y else bit_of k' b w.

Lemma bits_but_self b b' k which : (forall r, latch b' r = latch b r) -> bits_but b b' k which (bit_of k b which).
Proof. intros H k' w Hw. unfold bit_of. rewrite H. case_decide as E; [by destruct E as [-> ->]|done]. Qed.

Lemma rmw_spec t b k which x : for_chip t b -> in_range which ->
  exists t' ret b' y, rmw t (reg_of k which) which x = Ret (t', ret) /\ for_chip t' b' /\ counted b b' ret /\
    bits_but b b' k which y /\ (ret = 0 -> y = x).
Proof.
  intros Hc Hw. unfold rmw. destruct (i2c_get_spec t b (reg_of k which) Hc) as (b1 & val & ret & t1 & -> & Hc1 & Hl & Hr & Hv).
  case_bool_decide as Hz.
  { exists t1, ret, b1, (bit_of k b which). split_and!; [done|done|exact Hr|by apply bits_but_self|done]. }
  assert (ret = 0) as -> by lia. destruct (Hv eq_refl) as (v & -> & Hb & Ev). specialize (Ev (reg_of_latches k which Hw)). cbn [deref]. unfold mbind, outcome_bind.
  destruct (i2c_set_spec t1 b1 (reg_of k which) (with_bit v (which mod 8) x) Hc1) as (b2 & ret2 & t2 & -> & Hc2 & Hl2 & Hr2 & Hv2);
    [apply with_bit_byte; [done|zdiv]|by apply reg_of_latches|].
  destruct Hv2 as [E|(Hn & E)].
  - exists t2, ret2, b2, x. split_and!; [done|done|exact (counted_after _ _ _ _ Hr Hr2)| |done]. intros k' w Hw'. unfold bit_of.
    destruct (decide (reg_of k' w = reg_of k which)) as [Er|Er].
    + destruct (reg_of_inj _ _ _ _ Hw' Hw Er) as [-> Ed]. rewrite Er, E, with_bit_testbit, Ev by zdiv.
      repeat case_decide; try done; [|exfalso; naive_solver]. exfalso. assert (w = which) by zdiv. naive_solver.
    + rewrite Hl2, Hl by done. case_decide as E'; [by destruct E' as [-> ->]|done].
  - exists t2, ret2, b2, (bit_of k b which). split_and!; [done|done|exact (counted_after _ _ _ _ Hr Hr2)| |done]. apply bits_but_self.
    intros r'. destruct (decide (r' = reg_of k which)) as [->|]; [by rewrite E, Hl|by rewrite Hl2, Hl].
Qed.

(** Reading the bit of a line. *)
Lemma read_bit t b k which : for_chip t b -> in_range which ->
  exists t' ret val b', i2c_get t (reg_of k which) = (t', val, ret) /\ for_chip t' b' /\ counted b b' ret /\ (forall r, latch b' r = latch b r) /\
    (ret = 0 -> exists v, val = Some v /\ Z.shiftr (Z.land v (Z.shiftl 1 (which mod 8))) (which mod 8) = Z.b2z (bit_of k b which)).
Proof.
  intros Hc Hw. destruct (i2c_get_spec t b (reg_of k which) Hc) as (b1 & val & ret & t1 & -> & Hc1 & Hl & Hr & Hv).
  exists t1, ret, val, b1. split_and!; [done..|]. intros E. destruct (Hv E) as (v & -> & _ & Ev). exists v. split; [done|].
  unfold bit_of. rewrite <- Ev by (by apply reg_of_latches). rewrite Z.shiftr_land, Z.shiftr_shiftl_l, Z.sub_diag by zdiv.
  change (Z.shiftl 1 0) with (Z.ones 1). rewrite Z.land_ones, <- Z.bit0_mod, Z.shiftr_spec by lia. done.
Qed.

Lemma bits_but_other b b' k which y w : bits_but b b' k which y -> in_range w -> w <> which -> pins b' w = pins b w.
Proof. intros H Hw Hn. unfold pins. rewrite !H by done. by repeat case_decide; [naive_solver..|]. Qed.
Lemma bits_but_line b b' k which y : bits_but b b' k which y -> in_range which ->
  pins b' which = mk_pin (if decide (k = Config) then y else pin_in (pins b which))
    (if decide (k = Polarity) then y else pin_inverted (pins b which)) (if decide (k = Output) then y else pin_out (pins b which)).
Proof. intros H Hw. unfold pins. rewrite !H by done. cbn. repeat case_decide; naive_solver. Qed.

(** What an operation comes to. *)
Definition op_result (op : line_op) (which : Z) b (res : outcome (tca64xx B * Z)) : Prop :=
  exists t' r b', res = Ret (t', r) /\ for_chip t' b' /\ line_step which op (pins b) (pins b') (failures b) (failures b') r /\
    forall w, in_range w -> w <> which -> pins b' w = pins b w.

Lemma set_rmw t which v : part t = P -> tca64xx_set t which v = rmw t (get_output_reg P (wrap8 which)) which (nonzero v).
Proof.
  intros HP. unfold tca64xx_set, rmw, with_bit, nonzero. rewrite HP. destruct (i2c_get t _) as [[t' val] ret]. by repeat case_bool_decide.
Qed.

Lemma set_spec t b which v : for_chip t b -> in_range which -> op_result (SetValue v) which b (tca64xx_set t which v).
Proof.
  intros Hc Hw. rewrite set_rmw by apply Hc. rewrite in_range_byte by done.
  destruct (rmw_spec t b Output which (nonzero v) Hc Hw) as (t' & ret & b' & y & E & Hc' & Hr & Hb & Hy).
  exists t', ret, b'. split; [exact E|]. split; [done|]. split; [|intros w ? ?; by eapply bits_but_other].
  destruct (decide (ret = 0)) as [->|Hz]; [|by apply line_failed; apply (counted_failed _ _ _ Hr Hz)].
  apply line_done; [by apply counted_done| |done].
  rewrite (bits_but_line _ _ _ _ _ Hb) by done. cbn. by rewrite Hy.
Qed.

Lemma direction_in_spec t b which : for_chip t b -> in_range which -> op_result DirectionIn which b (tca64xx_set_direction_in t which).
Proof.
  intros Hc Hw. destruct (rmw_spec t b Config which true Hc Hw) as (t' & ret & b' & y & E & Hc' & Hr & Hb & Hy).
  exists t', ret, b'. split. { unfold tca64xx_set_direction_in. destruct Hc as (-> & _). rewrite in_range_byte by done. exact E. }
  split; [done|]. split; [|intros w ? ?; by eapply bits_but_other].
  destruct (decide (ret = 0)) as [->|Hz]; [|by apply line_failed; apply (counted_failed _ _ _ Hr Hz)].
  apply line_done; [by apply counted_done| |done].
  rewrite (bits_but_line _ _ _ _ _ Hb) by done. cbn. by rewrite Hy.
Qed.

Lemma direction_out_rmw t which v : part t = P ->
  tca64xx_set_direction_out t which v =
  ('(t, ret) ← rmw t (get_config_reg P (wrap8 which)) which false; if bool_decide (ret <> 0) then Ret (t, ret) else tca64xx_set t which v).
Proof.
  intros HP. unfold tca64xx_set_direction_out, rmw, with_bit. rewrite HP. destruct (i2c_get t _) as [[t' val] ret].
  unfold mbind, outcome_bind. case_bool_decide; [by rewrite bool_decide_eq_true_2|]. destruct val; [|done]. cbn [deref].
  by destruct (i2c_set _ _ _).
Qed.

Lemma direction_out_spec t b which v : for_chip t b -> in_range which -> op_result (DirectionOut v) which b (tca64xx_set_direction_out t which v).
Proof.
  intros Hc Hw. rewrite direction_out_rmw by apply Hc. rewrite in_range_byte by done.
  destruct (rmw_spec t b Config which false Hc Hw) as (t1 & ret & b1 & y & E & Hc1 & Hr & Hb & Hy). cbn [reg_of] in E.
  rewrite E. unfold mbind, outcome_bind. case_bool_decide as Hz.
  { exists t1, ret, b1. split; [done|]. split; [done|]. split; [by apply line_failed; apply (counted_failed _ _ _ Hr Hz)|]. intros w ? ?. by eapply bits_but_other. }
  destruct (set_spec t1 b1 which v Hc1 Hw) as (t2 & r2 & b2 & E2 & Hc2 & Hs & Ho). exists t2, r2, b2. split; [done|]. split; [done|].
  split; [|intros w ? ?; rewrite Ho by done; by eapply bits_but_other].
  assert (ret = 0) as -> by lia. apply counted_done in Hr. rewrite Hr in Hs.
  destruct Hs as [Hn Hp Hr2|Hn Hf]; [|by apply line_failed]. apply line_done; [done| |done]. rewrite Hp, (bits_but_line _ _ _ _ _ Hb) by done. cbn.
  by rewrite Hy by lia.
Qed.

Lemma inverted_spec t b which v : for_chip t b -> in_range which ->
  op_result (SetInverted v) which b (tca64xx_set_polarity_inverted t which v).
Proof.
  intros Hc Hw. destruct (rmw_spec t b Polarity which (nonzero v) Hc Hw) as (t' & ret & b' & y & E & Hc' & Hr & Hb & Hy).
  exists t', (if bool_decide (ret = 0) then 0 else - EIO), b'. split.
  { unfold tca64xx_set_polarity_inverted. destruct Hc as (-> & _). revert E. unfold rmw, with_bit, nonzero. cbn [reg_of].
    destruct (i2c_get t _) as [[t1 val] ret1]. case_bool_decide as Hz; [intros [= <- <-]; by rewrite bool_decide_eq_false_2 by lia|].
    destruct val; [|done]. cbn [deref]. unfold mbind, outcome_bind. destruct (i2c_set _ _ _) as [t2 ret2].
    intros [= <- <-]. by repeat case_bool_decide; try lia. }
  split; [done|]. split; [|intros w ? ?; by eapply bits_but_other].
  case_bool_decide as Hz; [subst ret|apply line_failed; [by apply (counted_failed _ _ _ Hr Hz)|by unfold EIO]].
  apply line_done; [by apply counted_done| |done].
  rewrite (bits_but_line _ _ _ _ _ Hb) by done. cbn. by rewrite Hy.
Qed.

Lemma getter_spec k op t b which : for_chip t b -> in_range which ->
  (forall p, line_spec op p = (p, Z.b2z match k with Config => pin_in p | Polarity => pin_inverted p | Output => pin_out p end)) ->
  op_result op which b
    (let '(t, val, ret) := i2c_get t (reg_of k which) in
     if bool_decide (ret <> 0) then Ret (t, - EIO) else
     v ← deref val; Ret (t, Z.shiftr (Z.land v (Z.shiftl 1 (which mod 8))) (which mod 8))).
Proof.
  intros Hc Hw Hop. destruct (read_bit t b k which Hc Hw) as (t' & ret & val & b' & -> & Hc' & Hr & Hl & Hv).
  assert (Hsame : forall w, pins b' w = pins b w) by (intros w; unfold pins, bit_of; by rewrite !Hl).
  case_bool_decide as Hz.
  - exists t', (- EIO), b'. split; [done|]. split; [done|]. split; [apply line_failed; [by apply (counted_failed _ _ _ Hr Hz)|by unfold EIO]|]. intros w _ _. apply Hsame.
  - assert (ret = 0) as -> by lia. destruct (Hv eq_refl) as (v & -> & Ev). exists t', (Z.b2z (bit_of k b which)), b'. cbn [deref]. unfold mbind, outcome_bind. rewrite Ev.
    split; [done|]. split; [done|]. split; [|intros w _ _; apply Hsame]. apply line_done; [by apply counted_done|..]; rewrite Hop; cbn; [apply Hsame|by destruct k].
Qed.

Lemma line_op_spec op t b which : for_chip t b -> in_range which -> op_result op which b (run_op op which t).
Proof.
  intros Hc Hw. destruct op; cbn [run_op].
  - by apply direction_in_spec.
  - by apply direction_out_spec.
  - by apply set_spec.
  - unfold tca64xx_get_direction. rewrite (proj1 Hc), in_range_byte by done. by apply (getter_spec Config).
  - by apply inverted_spec.
  - unfold tca64xx_get_polarity_inverted. rewrite (proj1 Hc). by apply (getter_spec Polarity).
Qed.

(** C26.  Any sequence of operations on lines of an expander returns and does to
    the lines what the sequence means: as long as no transfer on the bus fails,
    each operation has its effect and its result on its own line; an operation of
    which a transfer fails gives an error, and leaves in doubt nothing but its
    own line.  No operation touches another line, although eight share each
    register. *)
Theorem expander_lines_refine l t b : for_chip t b -> (forall op which, (op, which) ∈ l -> 0 <= which < get_nr_gpios P) ->
  exists t' rs b', run_ops l t = Ret (t', rs) /\ for_chip t' b' /\
    line_steps (get_nr_gpios P) (pins b) (failures b) l rs (pins b') (failures b').
Proof.
  revert t b. induction l as [|[op which] l IH]; intros t b Hc Hl; [exists t, [], b; split_and!; [done|done|by apply steps_nil]|].
  cbn [run_ops]. destruct (line_op_spec op t b which Hc) as (t1 & r & b1 & -> & Hc1 & Hs & Ho); [apply (Hl op); left|].
  unfold mbind, outcome_bind. destruct (IH t1 b1 Hc1) as (t2 & rs & b2 & -> & Hc2 & Hss); [intros op' w' H; apply (Hl op'); by right|].
  exists t2, (r :: rs), b2. split; [done|]. split; [done|]. econstructor; [exact Hs|exact Ho|exact Hss].
Qed.
End Lines.

(** ** Interrupts: the specification *)

Inductive trigger_type := EdgeBoth | EdgeRising | EdgeFalling | LevelHigh | LevelLow.
Definition irq_type (ty : trigger_type) : Z :=
  match ty with
  | EdgeBoth => IRQ_TYPE_EDGE_BOTH | EdgeRising => IRQ_TYPE_EDGE_RISING | EdgeFalling => IRQ_TYPE_EDGE_FALLING
  | LevelHigh => IRQ_TYPE_LEVEL_HIGH | LevelLow => IRQ_TYPE_LEVEL_LOW
  end.
Definition fires_on (ty : trigger_type) (was now : bool) : bool :=
  match ty with
  | EdgeBoth => xorb was now | EdgeRising => negb was && now | EdgeFalling => was && negb now
  | LevelHigh => now | LevelLow => negb now
  end.

(** An interrupt line on its own. *)
Record irq_line := mk_irq { want : trigger_type; was : bool; pending : bool; masked : bool }.
Inductive irq_event := SetTrigger (which : Z) (ty : trigger_type) | Inputs (i : Z) | Mask (which : Z) | Unmask (which : Z) | Clear (which : Z).

(** What an event does to the line [w], when [last] are the inputs of the chip last
    seen.  The chip says no more than that some input is not what it was: then,
    and only then, every line takes a sample of its own input. *)
Definition irq_step (w last : Z) (e : irq_event) (a : irq_line) : irq_line :=
  match e with
  | SetTrigger which ty => if decide (w = which) then mk_irq ty (was a) (pending a) (masked a) else a
  | Mask which => if decide (w = which) then mk_irq (want a) (was a) (pending a) true else a
  | Unmask which => if decide (w = which) then mk_irq (want a) (was a) (pending a) false else a
  | Clear which => if decide (w = which) then mk_irq (want a) (was a) false (masked a) else a
  | Inputs i =>
      if decide (i = last) then a
      else mk_irq (want a) (Z.testbit i w) (pending a || fires_on (want a) (was a) (Z.testbit i w)) (masked a)
  end.
Definition seen_inputs (last : Z) (e : irq_event) : Z := match e with Inputs i => i | _ => last end.
Fixpoint irq_run (w last : Z) (l : list irq_event) (a : irq_line) : irq_line :=
  match l with [] => a | e :: l => irq_run w (seen_inputs last e) l (irq_step w last e a) end.
Definition event_ok (nr : Z) (e : irq_event) : Prop :=
  match e with SetTrigger which _ | Mask which | Unmask which | Clear which => 0 <= which < nr | Inputs i => 0 <= i < 2 ^ nr end.

Section Interrupts.
Context {B : Type}.
Implicit Types (t : tca64xx B) (A : Z -> irq_line).

Definition run_event (e : irq_event) t : outcome (tca64xx B) :=
  match e with
  | SetTrigger which ty => '(t, _) ← tca64xx_set_gpio_triggering t which (irq_type ty); Ret t
  | Inputs i => intstat_update t i
  | Mask which => '(t, _) ← tca64xx_gpio_mask_irq t which; Ret t
  | Unmask which => '(t, _) ← tca64xx_gpio_unmask_irq t which; Ret t
  | Clear which => '(t, _) ← tca64xx_gpio_clear_interrupt t which; Ret t
  end.

Definition is_level (ty : trigger_type) : bool := match ty with LevelHigh | LevelLow => true | _ => false end.
Definition low_bit (ty : trigger_type) : bool := match ty with EdgeRising | LevelHigh => true | _ => false end.
Definition high_bit (ty : trigger_type) : bool := match ty with EdgeFalling | LevelLow => true | _ => false end.

(** The bits that stand for a line. *)
Record trigger_bits t (w : Z) (ty : trigger_type) : Prop := {
  tb_type : Z.testbit (trigger t) w = is_level ty;
  tb_low : Z.testbit (level t) (2 * w) = low_bit ty;
  tb_high : Z.testbit (level t) (2 * w + 1) = high_bit ty;
}.
Record line_bits t (w : Z) (a : irq_line) : Prop := {
  lb_trigger : trigger_bits t w (want a);
  lb_was : Z.testbit (in_ t) w = was a;
  lb_pending : Z.testbit (intstat t) w = pending a;
  lb_masked : Z.testbit (mask t) w = masked a;
}.
Record irqs_are t A : Prop := {
  ia_bits w : 0 <= w < get_nr_gpios (part t) -> line_bits t w (A w);
  ia_in : 0 <= in_ t < 2 ^ get_nr_gpios (part t);
}.

Lemma land3 v : Z.land v 3 = Z.b2z (Z.testbit v 0) + 2 * Z.b2z (Z.testbit v 1).
Proof.
  change 3 with (Z.ones 2). rewrite Z.land_ones by lia.  rewrite (Z.testbit_spec' v 0), (Z.testbit_spec' v 1) by lia. change (2 ^ 0) with 1. change (2 ^ 1) with 2. change (2 ^ 2) with 4. zdiv.
Qed.
Lemma triggering_level t w : 0 <= w < 16 ->
  tca64xx_get_gpio_triggering_level t w = Ret (Z.b2z (Z.testbit (level t) (2 * w)) + 2 * Z.b2z (Z.testbit (level t) (2 * w + 1))).
Proof.
  intros Hw. unfold tca64xx_get_gpio_triggering_level, shr32. rewrite bool_decide_eq_true_2 by lia. unfold mbind, outcome_bind.
  by rewrite land3, !Z.shiftr_spec, Z.add_0_l, (Z.add_comm 1) by lia.
Qed.
Lemma triggering_type t w : 0 <= w < 16 -> tca64xx_get_gpio_triggering_type t w = Ret (Z.b2z (Z.testbit (trigger t) w)).
Proof.
  intros Hw. unfold tca64xx_get_gpio_triggering_type, shr32. rewrite bool_decide_eq_true_2 by lia. unfold mbind, outcome_bind.
  change 1 with (Z.ones 1). rewrite Z.land_ones, <- Z.bit0_mod, Z.shiftr_spec by lia. done.
Qed.

Lemma pin_fires_spec t w ty x D I : 0 <= w < 16 -> trigger_bits t w ty -> Z.testbit D w = xorb x (Z.testbit I w) ->
  pin_fires t w (Z.shiftr D w) (Z.shiftr I w) = Ret (fires_on ty x (Z.testbit I w)).
Proof.
  intros Hw [Ht Hl Hh] HD. unfold pin_fires. rewrite triggering_type, triggering_level by done. unfold mbind, outcome_bind.
  rewrite Ht, Hl, Hh, <- !Z.bit0_odd, !Z.shiftr_spec, Z.add_0_l, HD by lia.
  destruct ty, x, (Z.testbit I w); reflexivity.
Qed.

Lemma update_pins_spec t A D I n w st : 0 <= w -> w + Z.of_nat n <= 16 ->
  (forall k, w <= k < w + Z.of_nat n -> trigger_bits t k (want (A k)) /\ Z.testbit D k = xorb (was (A k)) (Z.testbit I k)) ->
  exists st', update_pins n t w (Z.shiftr D w) (Z.shiftr I w) st = Ret st' /\
    forall k, 0 <= k -> Z.testbit st' k = Z.testbit st k ||
      (bool_decide (w <= k < w + Z.of_nat n) && fires_on (want (A k)) (was (A k)) (Z.testbit I k)).
Proof.
  revert w st. induction n as [|n IH]; intros w st Hw Hn Hl.
  { exists st. split; [done|]. intros k Hk. rewrite bool_decide_eq_false_2 by lia. by rewrite orb_false_r. }
  destruct (Hl w) as [Hb HD]; [lia|]. cbn [update_pins]. rewrite (pin_fires_spec t w (want (A w)) (was (A w))) by (done || lia).
  unfold mbind, outcome_bind. rewrite !Z.shiftr_shiftr by lia.
  set (st1 := if fires_on _ _ _ then _ else _). destruct (IH (w + 1) st1) as (st' & E & Hst); [lia..|intros k Hk; apply Hl; lia|].
  exists st'. split; [exact E|]. intros k Hk. rewrite Hst by done.
  assert (Es : Z.testbit st1 k = Z.testbit st k || (bool_decide (k = w) && fires_on (want (A k)) (was (A k)) (Z.testbit I k))).
  { unfold st1. case_bool_decide as Ek; [subst k|].
    - destruct (fires_on _ _ _); cbn; [|by rewrite orb_false_r]. change (Z.lor st (Z.shiftl 1 w)) with (with_bit st w true).
      rewrite with_bit_testbit by lia. case_decide; [by rewrite orb_true_r|done].
    - rewrite orb_false_r. destruct (fires_on _ _ _); [|done]. change (Z.lor st (Z.shiftl 1 w)) with (with_bit st w true).
      rewrite with_bit_testbit by lia. by case_decide. }
  rewrite Es. repeat case_bool_decide; try lia; destruct (Z.testbit st k), (fires_on (want (A k)) _ _); done.
Qed.

Lemma nr_cases t : 0 < get_nr_gpios (part t) <= 24.
Proof. destruct (part t); cbn; lia. Qed.

(** All the lines after an event. *)
Definition stepped t (e : irq_event) A : Z -> irq_line := fun w => irq_step w (in_ t) e (A w).

Lemma inputs_event t A i : get_nr_gpios (part t) <= 16 -> irqs_are t A -> 0 <= i < 2 ^ get_nr_gpios (part t) ->
  exists t', intstat_update t i = Ret t' /\ part t' = part t /\ in_ t' = i /\ irqs_are t' (stepped t (Inputs i) A).
Proof.
  intros Hnr [Hb Hin] Hi. pose proof (nr_cases t) as Hn. set (nr := get_nr_gpios (part t)) in *. unfold intstat_update, stepped. cbn [irq_step].
  destruct (decide (i = in_ t)) as [E|E].
  - rewrite bool_decide_eq_true_2 by (by apply Z.lxor_eq_0_iff). exists t. by split_and!.
  - rewrite bool_decide_eq_false_2 by (rewrite Z.lxor_eq_0_iff; congruence).
    destruct (update_pins_spec (set_in t i (intstat t)) A (Z.lxor (in_ t) i) i (Z.to_nat nr) 0 (intstat t)) as (st & Est & Hst); [lia|lia| |].
    { intros k Hk. rewrite Z.lxor_spec. destruct (Hb k ltac:(lia)) as [[? ? ?] Hwas ? ?]. by rewrite Hwas. }
    rewrite !Z.shiftr_0_r in Est. change (part (set_in t i (intstat t))) with (part t). change (intstat (set_in t i (intstat t))) with (intstat t). fold nr. rewrite Est. unfold mbind, outcome_bind.
    eexists. split; [reflexivity|]. split; [done|]. split; [done|]. split; [|done]. intros w Hw. destruct (Hb w Hw) as [[? ? ?] Hwas Hp ?].
    split; cbn; [by split|done| |done].
    assert (0 <= w < nr) by exact Hw. rewrite Hst, bool_decide_eq_true_2, Hp by lia. done.
Qed.

(** Whatever the triggers are, and whatever it is told the inputs are. *)
Lemma update_pins_returns t n : forall w D I st, 0 <= w -> w + Z.of_nat n <= 16 -> exists st', update_pins n t w D I st = Ret st'.
Proof.
  induction n as [|n IH]; intros w D I st Hw Hn; [by exists st|]. cbn [update_pins]. unfold pin_fires.
  rewrite triggering_type, triggering_level by lia. unfold mbind, outcome_bind. destruct (_ && _); [|case_bool_decide]; apply IH; lia.
Qed.
Lemma intstat_update_returns t i : get_nr_gpios (part t) <= 16 -> exists i' st, intstat_update t i = Ret (set_in t i' st).
Proof.
  intros Hnr. unfold intstat_update. pose proof (nr_cases t). case_bool_decide; [exists (in_ t), (intstat t); by destruct t|].
  destruct (update_pins_returns (set_in t i (intstat t)) (Z.to_nat (get_nr_gpios (part t))) 0 (Z.lxor (in_ t) i) i (intstat t)) as (st & E); [lia..|].
  exists i, st. change (part (set_in t i (intstat t))) with (part t). change (intstat (set_in t i (intstat t))) with (intstat t). by rewrite E.
Qed.

Lemma with_field_testbit v c s j : 0 <= c < 4 -> 0 <= s -> s + 1 < 32 -> 0 <= j ->
  Z.testbit (Z.lor (Z.ldiff v (wrap32 (Z.shiftl 3 s))) (wrap32 (Z.shiftl c s))) j =
  if decide (j = s) then Z.testbit c 0 else if decide (j = s + 1) then Z.testbit c 1 else Z.testbit v j.
Proof.
  intros Hc Hs Hs' Hj. assert (Hw : forall x, 0 <= x < 4 -> wrap32 (Z.shiftl x s) = Z.shiftl x s).
  { intros x Hx. apply wrap32_small. rewrite Z.shiftl_mul_pow2 by done.
    assert (2 ^ s <= 2 ^ 30) by (apply Z.pow_le_mono_r; lia). assert (0 < 2 ^ s) by (apply Z.pow_pos_nonneg; lia). nia. }
  rewrite !Hw by lia. rewrite Z.lor_spec, Z.ldiff_spec, !Z.shiftl_spec by done.
  destruct (decide (j < s)). { rewrite !(Z.testbit_neg_r _ (j - s)) by lia. repeat case_decide; try lia. by rewrite orb_false_r, andb_true_r. }
  case_decide as E0; [subst; rewrite Z.sub_diag; cbn; by rewrite andb_false_r|].
  case_decide as E1; [subst; replace (s + 1 - s) with 1 by lia; by rewrite andb_false_r|].
  assert (Hhi : forall x, 0 <= x < 4 -> Z.testbit x (j - s) = false).
  { intros x Hx. rewrite <- (Z.mod_small x (2 ^ 2)) by done. apply Z.mod_pow2_bits_high. lia. }
  rewrite !Hhi by lia. by rewrite orb_false_r, andb_true_r.
Qed.

Lemma shl1 w : 0 <= w < 24 -> shl32 1 w = Ret (Z.shiftl 1 w).
Proof.
  intros Hw. unfold shl32. rewrite bool_decide_eq_true_2 by lia. f_equal. apply wrap32_small. rewrite Z.shiftl_1_l.
  split; [by apply Z.pow_nonneg|]. apply Z.pow_lt_mono_r; lia.
Qed.

Definition irq_level (ty : trigger_type) : Z := Z.b2z (low_bit ty) + 2 * Z.b2z (high_bit ty).
Lemma set_triggering_both t w ty : 0 <= w < 24 ->
  tca64xx_set_gpio_triggering t w (irq_type ty) = (t ← set_both t w (Z.b2z (is_level ty)) (irq_level ty); Ret (t, 0)).
Proof. intros Hw. unfold tca64xx_set_gpio_triggering. rewrite wrap8_small by lia. by destruct ty. Qed.

Lemma trigger_event t A w ty : get_nr_gpios (part t) <= 16 -> irqs_are t A -> 0 <= w < get_nr_gpios (part t) ->
  exists t', run_event (SetTrigger w ty) t = Ret t' /\ part t' = part t /\ in_ t' = in_ t /\ irqs_are t' (stepped t (SetTrigger w ty) A).
Proof.
  intros Hnr [Hb Hin] Hw. cbn [run_event]. rewrite set_triggering_both by lia.
  unfold set_both, tca64xx_set_gpio_trigger, tca64xx_set_gpio_level, TCA64XX_IRQ_TYPE_LEVEL. rewrite shl1 by lia.
  unfold shl32. rewrite !bool_decide_eq_true_2 by lia. unfold mbind, outcome_bind. eexists. split; [reflexivity|]. split; [done|]. split; [done|].
  split; [|done]. intros k Hk. cbn [part set_state] in Hk. destruct (Hb k Hk) as [[Ht Hl Hh] ? ? ?]. unfold stepped. cbn [irq_step].
  assert (Hc : 0 <= irq_level ty < 4) by (by destruct ty).
  assert (Htr : Z.testbit (if bool_decide (Z.b2z (is_level ty) <> 0) then Z.lor (trigger t) (Z.shiftl 1 w) else Z.ldiff (trigger t) (Z.shiftl 1 w)) k =
    if decide (k = w) then is_level ty else Z.testbit (trigger t) k).
  { rewrite <- (with_bit_testbit (trigger t) w (is_level ty) k) by lia. by destruct ty. }
  split; cbn; [|by case_decide..].
  split; cbn; rewrite ?Htr, ?with_field_testbit by lia; (case_decide; [subst k|]); cbn; try done.
  - rewrite decide_True by lia. by destruct ty.
  - by rewrite !decide_False by lia.
  - rewrite decide_False, decide_True by lia. by destruct ty.
  - by rewrite !decide_False by lia.
Qed.

(** Setting or clearing one bit of the masks. *)
Lemma bit_event t A e t' w : irqs_are t A -> 0 <= w < get_nr_gpios (part t) ->
  part t' = part t -> in_ t' = in_ t -> trigger t' = trigger t -> level t' = level t ->
  (forall k, 0 <= k < get_nr_gpios (part t) -> let a := stepped t e A k in
    want a = want (A k) /\ was a = was (A k) /\ Z.testbit (intstat t') k = pending a /\ Z.testbit (mask t') k = masked a) ->
  irqs_are t' (stepped t e A).
Proof.
  intros [Hb Hin] Hw Hp Hi Htr Hlv Hk. split; rewrite ?Hp, ?Hi; [|done]. intros k Hkr. destruct (Hb k Hkr) as [[? ? ?] Hwas ? ?].
  destruct (Hk k Hkr) as (E1 & E2 & E3 & E4). split; [split|..]; by rewrite ?Hi, ?Htr, ?Hlv, ?E1, ?E2, ?E3, ?E4.
Qed.

Lemma event_spec t A e : get_nr_gpios (part t) <= 16 -> irqs_are t A -> event_ok (get_nr_gpios (part t)) e ->
  exists t', run_event e t = Ret t' /\ part t' = part t /\ in_ t' = seen_inputs (in_ t) e /\ irqs_are t' (stepped t e A).
Proof.
  intros Hnr HA He. destruct e as [w ty|i|w|w|w]; cbn [event_ok] in He; [by apply trigger_event|by apply inputs_event|..];
    cbn [run_event]; unfold tca64xx_gpio_mask_irq, tca64xx_gpio_unmask_irq, tca64xx_gpio_clear_interrupt; rewrite shl1 by lia;
    unfold mbind, outcome_bind; (eexists; split; [reflexivity|]; split; [done|]; split; [done|]); apply (bit_event _ _ _ _ w HA He); try done;
    intros k Hk; destruct (ia_bits _ _ HA k Hk) as [_ _ Hp Hm]; unfold stepped; cbn.
  - change (Z.lor (mask t) (Z.shiftl 1 w)) with (with_bit (mask t) w true). rewrite with_bit_testbit by lia. by case_decide.
  - change (Z.ldiff (mask t) (Z.shiftl 1 w)) with (with_bit (mask t) w false). rewrite with_bit_testbit by lia. by case_decide.
  - change (Z.ldiff (intstat t) (Z.shiftl 1 w)) with (with_bit (intstat t) w false). rewrite with_bit_testbit by lia. by case_decide.
Qed.

(** C27.  The interrupts that the driver makes in software, on a chip with at most
    16 lines: under any sequence of inputs that the chip reports and of calls that
    configure, mask, unmask and clear lines, what is latched for a line is what
    the line would latch alone, given its own configuration and the samples of its
    own input, one for each report in which some input of the chip is not what it
    was: an edge of its input latches it, and a level does when a sample is taken
    at that level (so a level line latches again when another line changes, and
    not when none does).  Masks do not keep a line from latching, and what is
    reported at the end is what is latched and not masked. *)
Theorem expander_interrupts_refine l t A : get_nr_gpios (part t) <= 16 -> irqs_are t A -> Forall (event_ok (get_nr_gpios (part t))) l ->
  exists t', foldO (fun t e => run_event e t) t l = Ret t' /\
    forall w, 0 <= w < get_nr_gpios (part t) -> let a' := irq_run w (in_ t) l (A w) in
      line_bits t' w a' /\ Z.testbit (tca64xx_gpio_get_interrupt t') w = pending a' && negb (masked a').
Proof.
  revert t A. induction l as [|e l IH]; intros t A Hnr HA Hl; cbn [foldO].
  - exists t. split; [done|]. intros w Hw. pose proof (ia_bits _ _ HA w Hw) as Hb. split; [exact Hb|].
    destruct Hb as [_ _ Hp Hm]. unfold tca64xx_gpio_get_interrupt, compl32. rewrite Z.land_spec, Z.ldiff_spec, Hp, Hm.
    change (2 ^ 32 - 1) with (Z.ones 32). by rewrite Z.ones_spec_low by lia.
  - apply Forall_cons in Hl as [He Hl]. destruct (event_spec t A e Hnr HA He) as (t1 & -> & Ep & Ei & HA1). rewrite <- Ep in *.
    destruct (IH t1 _ Hnr HA1 Hl) as (t' & E & H). exists t'. split; [exact E|]. intros w Hw. cbn [irq_run]. rewrite <- Ei. exact (H w Hw).
Qed.
End Interrupts.

(** ** The handler of the chip's interrupt *)

(** It only returns when nothing is pending that is not masked: otherwise it
    calls one handler and writes through a pointer it does not have. *)
Lemma deliver_faults {B} (isr : Z -> Z -> tca64xx B -> outcome (tca64xx B)) n t w v : (forall h l x, isr h l x = Ret x) ->
  0 <= v < 2 ^ Z.of_nat n -> v <> 0 -> deliver isr n t w v = Fault.
Proof.
  intros Hisr. revert w v. induction n as [|n IH]; intros w v Hv Hn; [cbn in Hv; lia|]. cbn [deliver]. rewrite bool_decide_eq_false_2 by done.
  destruct (Z.odd v) eqn:Eo; unfold mbind, outcome_bind.
  - destruct (gpio_base t !! _); [|done]. destruct (irq_vector t !! _); [|done]. cbn [deref]. by case_bool_decide; rewrite ?Hisr.
  - rewrite Z.shiftr_div_pow2 by done. apply IH.
    + replace (Z.of_nat (S n)) with (Z.succ (Z.of_nat n)) in Hv by lia. rewrite Z.pow_succ_r in Hv by lia. change (2 ^ 1) with 2. zdiv.
    + change (2 ^ 1) with 2. rewrite Zodd_mod in Eo. intros E. apply Hn. rewrite (Z.div_mod v 2), E by lia. apply Zeq_bool_neq in Eo.
      pose proof (Z.mod_pos_bound v 2). lia.
Qed.

(** ** Instances *)

Module Ex.

(** A chip with 16 lines at the address 0x20; nothing but the chip itself drives
    its lines. *)
Definition reg_at (b : gmap Z Z) (r : Z) : Z := wrap8 (default 0 (b !! r)).
Definition chip (b : gmap Z Z) (msgs : list i2c_msg) : gmap Z Z * list (list Z) * Z :=
  match msgs with
  | [mk_msg 0x20 0 [r] 1; mk_msg 0x20 1 _ 1] =>
      (b, [[if bool_decide (r < 2) then Z.lxor (Z.ldiff (reg_at b (r + 2)) (reg_at b (r + 6))) (reg_at b (r + 4)) else reg_at b r]], 0)
  | [mk_msg 0x20 0 [r; v] 2] => (<[r := v]> b, [], 0)
  | _ => (b, [], - EIO)
  end.
Lemma byte_bits x : (0 <= x < 2 ^ 8) <-> (0 <= x /\ forall k, 8 <= k -> Z.testbit x k = false).
Proof.
  split.
  - intros H. split; [lia|]. intros k Hk. rewrite <- (Z.mod_small x (2 ^ 8)) by done. by apply Z.mod_pow2_bits_high.
  - intros [H0 H]. split; [done|]. destruct (decide (x = 0)) as [->|]; [done|]. apply Z.nle_gt. intros Hge.
    assert (8 <= Z.log2 x) by (change 8 with (Z.log2 (2 ^ 8)); by apply Z.log2_le_mono).
    pose proof (Z.bit_log2 x ltac:(lia)). rewrite H in *; done.
Qed.
#[local] Instance chip_expander : Expander chip 0x20 TCA6416_PART.
Proof.
  apply (Build_Expander _ _ _ _ reg_at (fun _ => 0%nat)).
  - intros b r. apply wrap8_range.
  - intros b r. cbn. split; [done|]. split; [done|]. intros _. eexists. split; [reflexivity|]. case_bool_decide as E.
    + split.
      * pose proof (wrap8_range (default 0 (b !! (r + 2)))) as H2. pose proof (wrap8_range (default 0 (b !! (r + 4)))) as H4.
        apply byte_bits in H2 as [? H2], H4 as [? H4]. apply byte_bits. split; [apply Z.lxor_nonneg; split; intros _; [done|apply Z.ldiff_nonneg; by left]|].
        intros k Hk. rewrite Z.lxor_spec, Z.ldiff_spec. unfold reg_at. by rewrite H2, H4.
      * intros Hr. exfalso. change (latches TCA6416_PART) with [2; 4; 6; 3; 5; 7] in Hr. rewrite !elem_of_cons, elem_of_nil in Hr. lia.
    + split; [apply wrap8_range|done].
  - intros b r v Hv _. cbn. split; [intros r' Hr; unfold reg_at; by rewrite lookup_insert_ne|]. split; [done|]. left.
    unfold reg_at. rewrite lookup_insert_eq. by apply wrap8_small.
Defined.

(** The driver after [tca64xx_probe]: all lines inputs, no interrupt used yet. *)
Definition fresh (junk : option nat) : tca64xx (gmap Z Z) :=
  mk_tca TCA6416_PART (Some (mk_master (Some chip) None (<[6 := 255]> (<[7 := 255]> ∅)))) 0x20 TCA64XX_IO_UNUSED 7 0 0 65535 0 0
    (replicate 24 0) (replicate 24 0) junk false [] [].

(** The chip on a bus that fails the transfers it is told to. *)
Record unsure := mk_unsure { regs : gmap Z Z; fail_next : list bool; failed : nat }.
Definition unsure_chip (b : unsure) (msgs : list i2c_msg) : unsure * list (list Z) * Z :=
  match fail_next b with
  | true :: l => (mk_unsure (regs b) l (S (failed b)), [], - EIO)
  | l => let '(r, v, ret) := chip (regs b) msgs in
         (mk_unsure r (tail l) (if bool_decide (ret = 0) then failed b else S (failed b)), v, ret)
  end.
#[local] Instance unsure_expander : Expander unsure_chip 0x20 TCA6416_PART.
Proof.
  apply (Build_Expander _ _ _ _ (fun b => reg_at (regs b)) failed).
  - intros b r. apply wrap8_range.
  - intros [b l n] r. unfold unsure_chip. cbn [fail_next regs failed].
    pose proof (chip_read (Expander := chip_expander) b r) as H. destruct (chip b _) as [[b' v] ret]. destruct H as (H1 & (H2 & _) & H3).
    assert (Hn : let n' := if bool_decide (ret = 0) then n else S n in if bool_decide (ret = 0) then n' = n else (n < n')%nat)
      by (case_bool_decide; lia).
    destruct l as [|[] l]; [by repeat split| |by repeat split]. split; [done|]. split; [split; [done|rewrite bool_decide_eq_false_2 by done; cbn; lia]|done].
  - intros [b l n] r v Hv Hr. unfold unsure_chip. cbn [fail_next regs failed].
    pose proof (chip_write (Expander := chip_expander) b r v Hv Hr) as H. destruct (chip b _) as [[b' w] ret]. destruct H as (H1 & (H2 & _) & H3).
    assert (Hn : let n' := if bool_decide (ret = 0) then n else S n in if bool_decide (ret = 0) then n' = n else (n < n')%nat)
      by (case_bool_decide; lia).
    destruct l as [|[] l]; [by repeat split| |by repeat split]. split; [done|]. split; [split; [done|rewrite bool_decide_eq_false_2 by done; cbn; lia]|]. by right.
Defined.

(** The second transfer of the first operation on line 8 fails: the bit of line 9
    in the same register stays. *)
Definition some_ops : list (line_op * Z) :=
  [(DirectionOut 1, 9); (SetInverted 1, 8); (GetDirection, 9); (SetInverted 1, 8); (GetDirection, 8); (GetInverted, 8)].
Definition some_failures : unsure := mk_unsure (<[6 := 255]> (<[7 := 255]> ∅)) [false; false; false; false; false; true] 0.
Definition on_unsure : tca64xx unsure :=
  mk_tca TCA6416_PART (Some (mk_master (Some unsure_chip) None some_failures)) 0x20 TCA64XX_IO_UNUSED 7 0 0 65535 0 0
    (replicate 24 0) (replicate 24 0) None false [] [].
Lemma expander_lines_refine_witness : exists t' rs b', run_ops some_ops on_unsure = Ret (t', rs) /\
  rs = [0; - EIO; 0; 0; 1; 1] /\ line_steps 16 (pins some_failures) 0 some_ops rs (pins b') (failed b').
Proof.
  destruct (expander_lines_refine some_ops on_unsure some_failures) as (t' & rs & b' & E & _ & H).
  - split; [reflexivity|]. split; [reflexivity|]. exists None. reflexivity.
  - intros op which Hin. unfold some_ops in Hin. rewrite !elem_of_cons, elem_of_nil in Hin. cbn. naive_solver lia.
  - exists t', rs, b'. split; [exact E|]. split; [|exact H].
    apply (bool_decide_eq_true_1 (snd (t', rs) = [0; - EIO; 0; 0; 1; 1])),
      (returns_ret (fun r => bool_decide (snd r = [0; - EIO; 0; 0; 1; 1])) _ (t', rs) E).
    vm_compute. reflexivity.
Defined.

Definition quiet (w : Z) : irq_line := mk_irq EdgeBoth false false true.
Lemma fresh_irqs j : irqs_are (fresh j) quiet.
Proof.
  split; [|cbn; lia]. intros w Hw. cbn in Hw. split; [split|..]; cbn [fresh trigger level in_ intstat mask want was pending masked quiet is_level low_bit high_bit];
    try apply Z.bits_0. change 65535 with (Z.ones 16). apply Z.ones_spec_low. lia.
Qed.

(** Line 2 rises while masked, line 3 is not of interest. *)
Lemma expander_interrupts_refine_witness : exists t',
  foldO (fun t e => run_event e t) (fresh None) [SetTrigger 2 EdgeRising; SetTrigger 3 EdgeFalling; Inputs 12; Inputs 0; Unmask 2; Unmask 3; Clear 3] = Ret t' /\
  Z.testbit (tca64xx_gpio_get_interrupt t') 2 = true /\ Z.testbit (tca64xx_gpio_get_interrupt t') 3 = false.
Proof.
  destruct (expander_interrupts_refine [SetTrigger 2 EdgeRising; SetTrigger 3 EdgeFalling; Inputs 12; Inputs 0; Unmask 2; Unmask 3; Clear 3]
    (fresh None) quiet) as (t' & E & H).
  - cbn. lia.
  - apply fresh_irqs.
  - repeat constructor; cbn; lia.
  - exists t'. split; [exact E|]. split; [rewrite (proj2 (H 2 ltac:(cbn; lia)))|rewrite (proj2 (H 3 ltac:(cbn; lia)))]; vm_compute; reflexivity.
Defined.

(** ** What modelling showed *)

Definition returned {A} (m : outcome A) : bool := match m with Ret _ => true | _ => false end.

(** Reading line 9, high and unchanged, notes the port shifted by one bit as the
    state of all the lines: 9 seems to have fallen and 2 to have risen. *)
Example get_forges_edges :
  (r ← intstat_update (set_master (fresh None) (mk_master (Some chip) None {[ 3 := 2 ]})) 0x200;
   r ← tca64xx_gpio_clear_interrupt r 9; r ← tca64xx_get r.1 9; Ret (r.2, in_ r.1, intstat r.1)) = Ret (1, 4, 0x204).
Proof. vm_compute. reflexivity. Qed.

(** A level that stays is reported once: while nothing changes, [Clear] is final. *)
Example level_not_repeated :
  (t ← foldO (fun t e => run_event e t) (fresh None) [SetTrigger 2 LevelHigh; Unmask 2; Inputs 4; Clear 2; Inputs 4]; Ret (tca64xx_gpio_get_interrupt t)) = Ret 0.
Proof. vm_compute. reflexivity. Qed.

(** Line 2 is high; it latches again after it was cleared when line 3 rises. *)
Example level_latches_with_others :
  (t ← foldO (fun t e => run_event e t) (fresh None) [SetTrigger 2 LevelHigh; Unmask 2; Inputs 4; Clear 2; Inputs 12]; Ret (tca64xx_gpio_get_interrupt t)) = Ret 4.
Proof. vm_compute. reflexivity. Qed.

(** A line the chip does not have: another register is read and written. *)
Example bad_line_writes_register : get_output_reg TCA6416_PART 16 = 234 /\
  (r ← tca64xx_set (fresh None) 16 1; Ret r.2) = Ret 0.
Proof. vm_compute. split; reflexivity. Qed.

(** Two bits for each of 24 lines do not fit in 32. *)
Example third_port_shifts_too_far : forall sf b,
  intstat_update (mk_tca TCA6424_PART (Some (mk_master (Some chip) sf b)) 0x20 0 0 0 0 0 0 0 [] [] None false [] []) (2 ^ 16) = Fault.
Proof. reflexivity. Qed.

(** The queue of the interrupt's job is never created. *)
Example first_interrupt_faults :
  tca64xx_gpio_irq_handler (mk_system {[ 5 := fresh None ]} [5]) 7 = Fault.
Proof. vm_compute. reflexivity. Qed.

(** Were it created, delivering an interrupt clears it through [data]. *)
Example delivery_faults :
  (t ← foldO (fun t e => run_event e t) (fresh (Some 0%nat)) [SetTrigger 2 EdgeRising; Unmask 2];
   _tca64xx_gpio_irq_handler (fun _ _ t => Ret t)
     (set_master t (mk_master (Some (fun b l => (b, [[match l with mk_msg _ _ [0] _ :: _ => 4 | _ => 0 end]], 0))) None ∅))) = Fault.
Proof. vm_compute. reflexivity. Qed.
End Ex.
End Tca64xx.
