(* ===== verification/GbI2c.v ===== *)
(** The Greybus I2C protocol of a module, [src/drivers/greybus/module/i2c.c]: a
    host's request for a transfer becomes messages for the controller [I2c],
    whose buffers are parts of the payloads of the request and the response. *)
From S2P Require Import Prelude I2c.
From S2P Require Greybus.
#[local] Open Scope Z_scope.
Module GbI2c.
Import I2c.I2c Greybus.Greybus.

Definition GB_I2C_PROTOCOL_VERSION : Z := 0x01.
Definition GB_I2C_PROTOCOL_FUNCTIONALITY : Z := 0x02.
Definition GB_I2C_PROTOCOL_TIMEOUT : Z := 0x03.
Definition GB_I2C_PROTOCOL_RETRIES : Z := 0x04.
Definition GB_I2C_PROTOCOL_TRANSFER : Z := 0x05.
Definition GB_I2C_VERSION_MAJOR : Z := 0.
Definition GB_I2C_VERSION_MINOR : Z := 1.
Definition I2C_FUNC_I2C : Z := 0x00000001.
Definition I2C_FUNC_SMBUS_READ_BYTE : Z := 0x00020000.
Definition I2C_FUNC_SMBUS_WRITE_BYTE : Z := 0x00040000.
Definition I2C_M_RD : Z := 0x0001.
Definition sizeof_req : nat := 2.
Definition sizeof_desc : nat := 6.

(** Little-endian fields of a payload; beyond its end is an access to another
    object. *)
Definition byte_at (payload : list Z) (i : nat) : outcome Z := deref (payload !! i).
Definition le16_at (payload : list Z) (i : nat) : outcome Z :=
  lo ← byte_at payload i; hi ← byte_at payload (i + 1); Ret (lo + 2 ^ 8 * hi).
Definition slice (payload : list Z) (i n : nat) : outcome (list Z) :=
  if bool_decide (i + n <= length payload)%nat then Ret (take n (drop i payload)) else Fault.
Definition le32_bytes (v : Z) : list Z := [v mod 2 ^ 8; v / 2 ^ 8 mod 2 ^ 8; v / 2 ^ 16 mod 2 ^ 8; v / 2 ^ 24 mod 2 ^ 8].

Record gb_i2c_transfer_desc := mk_desc { d_addr : Z; d_flags : Z; d_size : Z }.
Definition desc_at (payload : list Z) (i : nat) : outcome gb_i2c_transfer_desc :=
  let at_ := (sizeof_req + sizeof_desc * i)%nat in
  a ← le16_at payload at_; fl ← le16_at payload (at_ + 2); sz ← le16_at payload (at_ + 4); Ret (mk_desc a fl sz).
Definition read_op (desc : gb_i2c_transfer_desc) : bool := bool_decide (Z.land (d_flags desc) I2C_M_RD <> 0).

Section Protocol.
Context {B : Type}.
Implicit Types (master : i2c_master B) (payload : list Z).

(** What a handler leaves: the controller, the result of the operation, and the
    payload of the response, if there is one. *)
Definition handled : Type := i2c_master B * Z * option (list Z).

(** [ok]: there is memory for the response. *)
Definition gb_i2c_protocol_version (ok : bool) master : handled :=
  if ok then (master, GB_OP_SUCCESS, Some [GB_I2C_VERSION_MAJOR; GB_I2C_VERSION_MINOR]) else (master, GB_OP_NO_MEMORY, None).
Definition gb_i2c_protocol_functionality (ok : bool) master : handled :=
  if ok then (master, GB_OP_SUCCESS, Some (le32_bytes (Z.lor (Z.lor I2C_FUNC_I2C I2C_FUNC_SMBUS_READ_BYTE) I2C_FUNC_SMBUS_WRITE_BYTE)))
  else (master, GB_OP_NO_MEMORY, None).
Definition gb_i2c_protocol_timeout master : handled := (master, GB_OP_SUCCESS, None).
Definition gb_i2c_protocol_retries master : handled := (master, GB_OP_SUCCESS, None).

(** The bytes to read, in 32 bits. *)
Fixpoint read_size (n i : nat) payload (size : Z) : outcome Z :=
  match n with
  | O => Ret size
  | S n => d ← desc_at payload i; read_size n (S i) payload (if read_op d then wrap32 (size + d_size d) else size)
  end.
(** The messages from the descriptor [i] on, with the place in the response of
    what each is to receive; [write_data] is an offset in the request. *)
Fixpoint build (n i : nat) payload (write_data read_count : nat) : outcome (list (i2c_msg * nat)) :=
  match n with
  | O => Ret []
  | S n =>
      d ← desc_at payload i;
      let sz := Z.to_nat (d_size d) in
      if read_op d then
        l ← build n (S i) payload write_data (read_count + sz);
        Ret ((mk_msg (d_addr d) I2C_M_READ [] (d_size d), read_count) :: l)
      else
        data ← slice payload write_data sz;
        l ← build n (S i) payload (write_data + sz) read_count;
        Ret ((mk_msg (d_addr d) 0 data (d_size d), read_count) :: l)
  end.
(** The controller stores what it has received where the messages say. *)
Fixpoint store (msgs : list (i2c_msg * nat)) (received : list (list Z)) (response : list Z) : outcome (list Z) :=
  match msgs with
  | [] => Ret response
  | (m, at_) :: msgs =>
      if is_read m then
        match received with
        | [] => Ret response
        | l :: received =>
            if bool_decide (at_ + length l <= length response)%nat then
              store msgs received (take at_ response ++ l ++ drop (at_ + length l) response)
            else Fault
        end
      else store msgs received response
  end.

(** [msg_ok]: there is memory for the messages; none of none. *)
Definition gb_i2c_protocol_transfer (msg_ok ok : bool) payload master : outcome handled :=
  op_count ← le16_at payload 0;
  let n := Z.to_nat op_count in
  size ← read_size n 0 payload 0;
  if negb msg_ok || bool_decide (op_count = 0) then Ret (master, GB_OP_NO_MEMORY, None) else
  if negb ok then Ret (master, GB_OP_NO_MEMORY, None) else
  msgs ← build n 0 payload (sizeof_req + sizeof_desc * n) 0;
  let '(master, received, ret) := i2c_transfer master (fst <$> msgs) in
  response ← store msgs received (replicate (Z.to_nat size) 0);
  Ret (master, if bool_decide (ret = - EIO) then GB_OP_NONEXISTENT else if bool_decide (ret <> 0) then GB_OP_UNKNOWN_ERROR else GB_OP_SUCCESS,
    Some response).

(** The table [gb_i2c_handlers]. *)
Definition gb_i2c_handlers (msg_ok ok : bool) (type : Z) payload master : option (outcome handled) :=
  if bool_decide (type = GB_I2C_PROTOCOL_VERSION) then Some (Ret (gb_i2c_protocol_version ok master))
  else if bool_decide (type = GB_I2C_PROTOCOL_FUNCTIONALITY) then Some (Ret (gb_i2c_protocol_functionality ok master))
  else if bool_decide (type = GB_I2C_PROTOCOL_TIMEOUT) then Some (Ret (gb_i2c_protocol_timeout master))
  else if bool_decide (type = GB_I2C_PROTOCOL_RETRIES) then Some (Ret (gb_i2c_protocol_retries master))
  else if bool_decide (type = GB_I2C_PROTOCOL_TRANSFER) then Some (gb_i2c_protocol_transfer msg_ok ok payload master)
  else None.

(** [i2c_master] is the one controller there can be; [registered] is what
    [gb_register_driver] returns. *)
Definition gb_i2c_probe (i2c_master : Z) (real_device : Z) (registered : Z) : Z * Z :=
  if bool_decide (i2c_master <> 0) then (i2c_master, - ENOTSUP) else
  if bool_decide (registered <> 0) then (0, registered) else (real_device, registered).
End Protocol.
Arguments handled B : clear implicits.

(** ** The host's side *)

Inductive host_op := HostRead (addr : Z) (n : nat) | HostWrite (addr : Z) (data : list Z).
Definition le16_bytes (v : Z) : list Z := [v mod 2 ^ 8; v / 2 ^ 8 mod 2 ^ 8].
Definition host_desc (o : host_op) : list Z :=
  match o with
  | HostRead a n => le16_bytes a ++ le16_bytes I2C_M_RD ++ le16_bytes (Z.of_nat n)
  | HostWrite a data => le16_bytes a ++ le16_bytes 0 ++ le16_bytes (Z.of_nat (length data))
  end.
Definition host_data (o : host_op) : list Z := match o with HostRead _ _ => [] | HostWrite _ data => data end.
(** The descriptors, then what is to be written. *)
Definition host_request (l : list host_op) : list Z :=
  le16_bytes (Z.of_nat (length l)) ++ mjoin (host_desc <$> l) ++ mjoin (host_data <$> l).
Definition host_msg (o : host_op) : i2c_msg :=
  match o with
  | HostRead a n => mk_msg a I2C_M_READ [] (Z.of_nat n)
  | HostWrite a data => mk_msg a 0 data (Z.of_nat (length data))
  end.
Definition host_op_ok (o : host_op) : Prop :=
  match o with
  | HostRead a n => 0 <= a < 2 ^ 16 /\ Z.of_nat n < 2 ^ 16
  | HostWrite a data => 0 <= a < 2 ^ 16 /\ Z.of_nat (length data) < 2 ^ 16
  end.
Definition host_reads (l : list host_op) : list nat := omap (fun o => match o with HostRead _ n => Some n | _ => None end) l.

(** ** Decoding what the host encodes *)

Lemma le16_bytes_at pre v post : 0 <= v < 2 ^ 16 -> le16_at (pre ++ le16_bytes v ++ post) (length pre) = Ret v.
Proof.
  intros Hv. unfold le16_at, byte_at. rewrite (lookup_app_r pre _ (length pre)), Nat.sub_diag by done.
  rewrite (lookup_app_r pre _ (length pre + 1)) by lia. replace (length pre + 1 - length pre)%nat with 1%nat by lia.
  cbn. f_equal. Z.to_euclidean_division_equations. lia.
Qed.

Definition desc_of (o : host_op) : gb_i2c_transfer_desc :=
  match o with
  | HostRead a n => mk_desc a I2C_M_RD (Z.of_nat n)
  | HostWrite a data => mk_desc a 0 (Z.of_nat (length data))
  end.
Lemma host_desc_fields o : host_desc o = le16_bytes (d_addr (desc_of o)) ++ le16_bytes (d_flags (desc_of o)) ++ le16_bytes (d_size (desc_of o)).
Proof. by destruct o. Qed.

Lemma desc_at_host pre o post i : host_op_ok o -> length pre = (sizeof_req + sizeof_desc * i)%nat ->
  desc_at (pre ++ host_desc o ++ post) i = Ret (desc_of o).
Proof.
  intros Ho Hl. assert (Hd : 0 <= d_addr (desc_of o) < 2 ^ 16 /\ 0 <= d_flags (desc_of o) < 2 ^ 16 /\ 0 <= d_size (desc_of o) < 2 ^ 16).
  { destruct o as [a n|a data]; cbn [host_op_ok desc_of d_addr d_flags d_size] in *; unfold I2C_M_RD; lia. }
  destruct Hd as (Ha & Hf & Hs). unfold desc_at. rewrite <- Hl, host_desc_fields, <- !app_assoc. rewrite le16_bytes_at by done.
  unfold mbind, outcome_bind. rewrite (app_assoc pre). replace (length pre + 2)%nat with (length (pre ++ le16_bytes (d_addr (desc_of o)))) by (rewrite length_app; done).
  rewrite le16_bytes_at by done. rewrite (app_assoc (pre ++ _)).
  replace (length pre + 4)%nat with (length ((pre ++ le16_bytes (d_addr (desc_of o))) ++ le16_bytes (d_flags (desc_of o)))) by (rewrite !length_app; cbn; lia).
  rewrite le16_bytes_at by done. by destruct o.
Qed.
Lemma length_host_desc o : length (host_desc o) = sizeof_desc.
Proof. by destruct o. Qed.
Lemma length_host_descs l : length (mjoin (host_desc <$> l)) = (sizeof_desc * length l)%nat.
Proof.
  induction l as [|o l IH]; [done|]. change (length (host_desc o ++ mjoin (host_desc <$> l)) = (sizeof_desc * S (length l))%nat).
  rewrite length_app, length_host_desc, IH. lia.
Qed.

Fixpoint total (l : list host_op) : nat :=
  match l with [] => 0 | HostRead _ n :: l => n + total l | HostWrite _ _ :: l => total l end.
Lemma total_bound l : Forall host_op_ok l -> Z.of_nat (total l) <= Z.of_nat (length l) * 65535.
Proof.
  induction 1 as [|o l Ho Hl IH]; [done|]. rewrite length_cons. destruct o; cbn [total host_op_ok] in *; lia.
Qed.

Lemma read_size_host l : forall pre post i size, Forall host_op_ok l -> length pre = (sizeof_req + sizeof_desc * i)%nat ->
  0 <= size -> size + Z.of_nat (total l) < 2 ^ 32 ->
  read_size (length l) i (pre ++ mjoin (host_desc <$> l) ++ post) size = Ret (size + Z.of_nat (total l)).
Proof.
  induction l as [|o l IH]; intros pre post i size Hok Hp H0 Hs; [cbn; f_equal; lia|].
  apply Forall_cons in Hok as [Ho Hok]. cbn [length read_size fmap list_fmap mjoin list_join]. rewrite <- app_assoc, desc_at_host by done.
  unfold mbind, outcome_bind. rewrite (app_assoc pre).
  assert (Hp' : length (pre ++ host_desc o) = (sizeof_req + sizeof_desc * S i)%nat) by (rewrite length_app, length_host_desc, Hp; unfold sizeof_req, sizeof_desc; lia).
  destruct o as [a n|a data]; cbn [read_op desc_of d_flags d_size total] in *.
  - change (read_op (mk_desc a I2C_M_RD (Z.of_nat n))) with true. cbn iota. rewrite wrap32_small by lia. rewrite (IH _ _ (S i)) by (done || lia).
    f_equal. lia.
  - change (read_op (mk_desc a 0 (Z.of_nat (length data)))) with false. cbn iota. by rewrite (IH _ _ (S i)) by (done || lia).
Qed.

(** The messages and their places in the response. *)
Fixpoint placed (rc : nat) (l : list host_op) : list (i2c_msg * nat) :=
  match l with
  | [] => []
  | o :: l => (host_msg o, rc) :: placed (match o with HostRead _ n => rc + n | HostWrite _ _ => rc end)%nat l
  end.
Lemma placed_msgs rc l : fst <$> placed rc l = host_msg <$> l.
Proof. revert rc. induction l as [|o l IH]; intros rc; [done|]. cbn. f_equal. apply IH. Qed.

Lemma build_host l : forall payload pre post rest i wd rc, Forall host_op_ok l -> length pre = (sizeof_req + sizeof_desc * i)%nat ->
  payload = pre ++ mjoin (host_desc <$> l) ++ post -> drop wd payload = mjoin (host_data <$> l) ++ rest -> (wd <= length payload)%nat ->
  build (length l) i payload wd rc = Ret (placed rc l).
Proof.
  induction l as [|o l IH]; intros payload pre post rest i wd rc Hok Hp E Hd Hwd; [done|]. apply Forall_cons in Hok as [Ho Hok].
  cbn [length build fmap list_fmap mjoin list_join placed] in *.
  assert (Edesc : desc_at payload i = Ret (desc_of o)) by (rewrite E, <- app_assoc; by apply desc_at_host).
  rewrite Edesc. unfold mbind, outcome_bind.
  assert (Hp' : length (pre ++ host_desc o) = (sizeof_req + sizeof_desc * S i)%nat) by (rewrite length_app, length_host_desc, Hp; unfold sizeof_req, sizeof_desc; lia).
  assert (E' : payload = (pre ++ host_desc o) ++ mjoin (host_desc <$> l) ++ post) by (by rewrite E, <- !app_assoc).
  destruct o as [a n|a data]; cbn [desc_of d_addr d_size host_data host_msg] in *.
  - change (read_op (mk_desc a I2C_M_RD (Z.of_nat n))) with true. cbn iota. by rewrite Nat2Z.id, (IH payload (pre ++ host_desc (HostRead a n)) post rest (S i)) by done.
  - change (read_op (mk_desc a 0 (Z.of_nat (length data)))) with false. cbn iota. rewrite Nat2Z.id.
    assert (Hlen : (wd + length data <= length payload)%nat).
    { apply (f_equal length) in Hd. rewrite length_drop, !length_app in Hd. lia. }
    unfold slice. rewrite bool_decide_eq_true_2 by done. rewrite Hd, <- app_assoc, take_app_length.
    rewrite (IH payload (pre ++ host_desc (HostWrite a data)) post rest (S i)); [done|done|done|done| |done].
    rewrite <- drop_drop, Hd, <- app_assoc. by rewrite drop_app_length.
Qed.

(** What the controller receives fills the response. *)
Lemma store_host l : forall pre received, length <$> received = host_reads l ->
  store (placed (length pre) l) received (pre ++ replicate (total l) 0) = Ret (pre ++ mjoin received).
Proof.
  unfold host_reads. induction l as [|o l IH]; intros pre received Hr; [by apply fmap_nil_inv in Hr as ->|].
  destruct o as [a n|a data]; cbn [placed store omap list_omap total] in *.
  - destruct received as [|x received]; [done|]. cbn in Hr. injection Hr as Hx Hr. subst n.
    change (is_read (host_msg (HostRead a (length x)))) with true. cbn iota. rewrite length_app, length_replicate.
    rewrite bool_decide_eq_true_2 by lia. rewrite take_app_length.
    assert (Hd : drop (length pre + length x) (pre ++ replicate (length x + total l) 0) = replicate (total l) 0).
    { rewrite replicate_add, app_assoc. rewrite <- (length_replicate (length x) 0) at 1. by rewrite <- length_app, drop_app_length. }
    rewrite Hd, app_assoc, <- length_app, IH by done. cbn. by rewrite <- app_assoc.
  - change (is_read (host_msg (HostWrite a data))) with false. cbn iota. by apply IH.
Qed.

(** C30.  The controller is given exactly the reads and writes that the host has
    put in the request, in their order and with their data, in one transfer,
    and the host gets what was received, in order, with the outcome; no byte
    outside of the request and of the response is touched. *)
Theorem i2c_transfer_round_trip {B} (master : i2c_master B) l : l <> [] -> Z.of_nat (length l) < 2 ^ 16 -> Forall host_op_ok l ->
  let '(master', received, ret) := i2c_transfer master (host_msg <$> l) in
  length <$> received = host_reads l ->
  gb_i2c_protocol_transfer true true (host_request l) master =
  Ret (master', if decide (ret = 0) then GB_OP_SUCCESS else if decide (ret = - EIO) then GB_OP_NONEXISTENT else GB_OP_UNKNOWN_ERROR, Some (mjoin received)).
Proof.
  intros Hne Hlen Hok. destruct (i2c_transfer master (host_msg <$> l)) as [[master' received] ret] eqn:Et. intros Hr.
  unfold gb_i2c_protocol_transfer, host_request. change 0%nat with (@length Z []) at 1.
  rewrite <- (app_nil_l (le16_bytes _ ++ _)) at 1. rewrite le16_bytes_at by lia. unfold mbind, outcome_bind. rewrite Nat2Z.id.
  assert (Ht := total_bound l Hok). rewrite (read_size_host l (le16_bytes (Z.of_nat (length l))) _ 0) by (done || lia).
  rewrite bool_decide_eq_false_2 by (destruct l; [done|cbn; lia]). cbn [negb orb].
  assert (Hlp : length (le16_bytes (Z.of_nat (length l)) ++ mjoin (host_desc <$> l)) = (sizeof_req + sizeof_desc * length l)%nat)
    by (by rewrite length_app, length_host_descs).
  rewrite (build_host l _ (le16_bytes (Z.of_nat (length l))) (mjoin (host_data <$> l)) []).
  - rewrite placed_msgs, Et, Z.add_0_l, Nat2Z.id. pose proof (store_host l [] received Hr) as Hst. cbn [length app] in Hst. rewrite Hst.
    repeat (case_bool_decide || case_decide); subst; done.
  - done.
  - done.
  - done.
  - rewrite app_nil_r, app_assoc. rewrite <- Hlp. by rewrite drop_app_length.
  - rewrite <- Hlp, !length_app. lia.
Qed.

Module Ex.
(** A bus with a device at 0x50 that answers reads with its number and counts
    the messages it was sent. *)
Definition echo (n : Z) (msgs : list i2c_msg) : Z * list (list Z) * Z :=
  (n + Z.of_nat (length msgs), omap (fun m => if is_read m then Some (replicate (Z.to_nat (m_length m)) (m_addr m)) else None) msgs,
   if forallb (fun m => bool_decide (m_addr m = 0x50)) msgs then 0 else - EIO).
Definition a_master : i2c_master Z := mk_master (Some echo) None 0.

Lemma i2c_transfer_round_trip_witness :
  gb_i2c_protocol_transfer true true (host_request [HostWrite 0x50 [1; 2]; HostRead 0x50 3; HostRead 0x50 1]) a_master =
  Ret (mk_master (Some echo) None 3, GB_OP_SUCCESS, Some [0x50; 0x50; 0x50; 0x50]).
Proof.
  apply (i2c_transfer_round_trip a_master [HostWrite 0x50 [1; 2]; HostRead 0x50 3; HostRead 0x50 1]).
  - discriminate.
  - cbn. lia.
  - repeat constructor; cbn; lia.
  - reflexivity.
Defined.

(** ** What modelling showed *)

(** The request's size is not looked at: a descriptor, or data, that is not
    there is read from whatever follows. *)
Example short_transfer_faults : gb_i2c_protocol_transfer true true (take 7 (host_request [HostRead 0x50 3])) a_master = Fault.
Proof. vm_compute. reflexivity. Qed.
Example missing_data_faults : gb_i2c_protocol_transfer true true (take 9 (host_request [HostWrite 0x50 [1; 2]])) a_master = Fault.
Proof. vm_compute. reflexivity. Qed.

(** A transfer of nothing is out of memory: [malloc (0)] is NULL. *)
Example empty_transfer_no_memory : gb_i2c_protocol_transfer true true (host_request []) a_master = Ret (a_master, GB_OP_NO_MEMORY, None).
Proof. vm_compute. reflexivity. Qed.

(** Only -EIO is told apart: that there is nothing to transfer with is an
    unknown error. *)
Example no_controller_is_unknown_error :
  gb_i2c_protocol_transfer true true (host_request [HostWrite 0x50 []]) (mk_master None None 0) = Ret (mk_master None None 0, GB_OP_UNKNOWN_ERROR, Some []).
Proof. vm_compute. reflexivity. Qed.
End Ex.
End GbI2c.
