(* ===== verification/GbGpio.v ===== *)
(** The Greybus GPIO protocol of a module, [src/drivers/greybus/module/gpio.c]:
    requests of the host on the lines of the module, numbered by [Gpio], and the
    interrupts that are reported to it.

    A handler is given the payload of the request; it leaves the lines, the
    result of the operation, and the payload of the response if there is one. *)
From stdpp Require Import sorting.
From S2P Require Import Prelude Gpio I2c Tca64xx.
From S2P Require Greybus.
#[local] Open Scope Z_scope.
Module GbGpio.
Import Gpio.Gpio.
#[local] Notation GB_OP_SUCCESS := Greybus.Greybus.GB_OP_SUCCESS.
#[local] Notation GB_OP_NO_MEMORY := Greybus.Greybus.GB_OP_NO_MEMORY.
#[local] Notation GB_OP_INVALID := Greybus.Greybus.GB_OP_INVALID.
#[local] Notation GB_OP_UNKNOWN_ERROR := Greybus.Greybus.GB_OP_UNKNOWN_ERROR.

Definition GB_GPIO_TYPE_PROTOCOL_VERSION : Z := 0x01.
Definition GB_GPIO_TYPE_LINE_COUNT : Z := 0x02.
Definition GB_GPIO_TYPE_ACTIVATE : Z := 0x03.
Definition GB_GPIO_TYPE_DEACTIVATE : Z := 0x04.
Definition GB_GPIO_TYPE_GET_DIRECTION : Z := 0x05.
Definition GB_GPIO_TYPE_DIRECTION_IN : Z := 0x06.
Definition GB_GPIO_TYPE_DIRECTION_OUT : Z := 0x07.
Definition GB_GPIO_TYPE_GET_VALUE : Z := 0x08.
Definition GB_GPIO_TYPE_SET_VALUE : Z := 0x09.
Definition GB_GPIO_TYPE_SET_DEBOUNCE : Z := 0x0a.
Definition GB_GPIO_TYPE_IRQ_TYPE : Z := 0x0b.
Definition GB_GPIO_TYPE_IRQ_MASK : Z := 0x0c.
Definition GB_GPIO_TYPE_IRQ_UNMASK : Z := 0x0d.
Definition GB_GPIO_VERSION_MAJOR : Z := 0.
Definition GB_GPIO_VERSION_MINOR : Z := 1.
Definition GB_GPIO_IRQ_TYPE_EDGE_RISING : Z := 0x01.
Definition GB_GPIO_IRQ_TYPE_EDGE_FALLING : Z := 0x02.
Definition GB_GPIO_IRQ_TYPE_EDGE_BOTH : Z := 0x03.
Definition GB_GPIO_IRQ_TYPE_LEVEL_HIGH : Z := 0x04.
Definition GB_GPIO_IRQ_TYPE_LEVEL_LOW : Z := 0x08.

Section Protocol.
Context {D : Type} (irq_event : Z).
Notation lines := (world (D := D)).
Implicit Types (w : lines) (payload : list Z) (ok : bool).

Definition handled : Type := lines * Z * option (list Z).

(** A byte of the request; beyond its end is an access to another object. *)
Definition byte_at payload (i : nat) : outcome Z := deref (payload !! i).

(** [ok]: there is memory for the response. *)
Definition gb_gpio_protocol_version ok w : outcome handled :=
  if ok then Ret (w, GB_OP_SUCCESS, Some [GB_GPIO_VERSION_MAJOR; GB_GPIO_VERSION_MINOR]) else Ret (w, GB_OP_NO_MEMORY, None).

(** The response is allocated, and zero, before the count is known. *)
Definition gb_gpio_line_count ok w : outcome handled :=
  if negb ok then Ret (w, GB_OP_NO_MEMORY, None) else
  let count := sint32 (gpio_line_count w) in
  if bool_decide (count = 0) then Ret (w, GB_OP_UNKNOWN_ERROR, Some [0]) else Ret (w, GB_OP_SUCCESS, Some [wrap8 (count - 1)]).

(** What the requests on a line begin with. *)
Definition on_line payload w (f : Z -> outcome handled) : outcome handled :=
  which ← byte_at payload 0;
  if bool_decide (gpio_line_count w <= which) then Ret (w, GB_OP_INVALID, None) else f which.
(** The result of the operation on the line is ignored. *)
Definition ignore (m : outcome (Z * lines)) : outcome handled := r ← m; Ret ((r : Z * lines).2, GB_OP_SUCCESS, None).
(** It is the byte of the response. *)
Definition reply ok w (m : outcome (Z * lines)) : outcome handled :=
  if negb ok then Ret (w, GB_OP_NO_MEMORY, None) else r ← m; Ret ((r : Z * lines).2, GB_OP_SUCCESS, Some [wrap8 (r : Z * lines).1]).

Definition gb_gpio_activate payload w := on_line payload w (fun which => ignore (gpio_activate which w)).
Definition gb_gpio_deactivate payload w := on_line payload w (fun which => ignore (gpio_deactivate which w)).
Definition gb_gpio_get_direction ok payload w := on_line payload w (fun which => reply ok w (gpio_get_direction which w)).
Definition gb_gpio_direction_in payload w := on_line payload w (fun which => ignore (gpio_direction_in which w)).
Definition gb_gpio_direction_out payload w :=
  on_line payload w (fun which => v ← byte_at payload 1; ignore (gpio_direction_out which v w)).
Definition gb_gpio_get_value ok payload w := on_line payload w (fun which => reply ok w (gpio_get_value which w)).
Definition gb_gpio_set_value payload w :=
  on_line payload w (fun which => v ← byte_at payload 1; ignore (gpio_set_value which v w)).
Definition gb_gpio_set_debounce payload w :=
  on_line payload w (fun which =>
    lo ← byte_at payload 1; hi ← byte_at payload 2;
    r ← gpio_set_debounce which (lo + 2 ^ 8 * hi) w;
    Ret ((r : Z * lines).2, if bool_decide ((r : Z * lines).1 <> 0) then GB_OP_UNKNOWN_ERROR else GB_OP_SUCCESS, None)).
Definition gb_gpio_irq_mask payload w := on_line payload w (fun which => ignore (gpio_irq_mask which w)).
Definition gb_gpio_irq_unmask payload w := on_line payload w (fun which => ignore (gpio_irq_unmask which w)).

Definition trigger_of (type : Z) : option Z :=
  if bool_decide (type = GB_GPIO_IRQ_TYPE_EDGE_RISING) then Some Tca64xx.IRQ_TYPE_EDGE_RISING
  else if bool_decide (type = GB_GPIO_IRQ_TYPE_EDGE_FALLING) then Some Tca64xx.IRQ_TYPE_EDGE_FALLING
  else if bool_decide (type = GB_GPIO_IRQ_TYPE_EDGE_BOTH) then Some Tca64xx.IRQ_TYPE_EDGE_BOTH
  else if bool_decide (type = GB_GPIO_IRQ_TYPE_LEVEL_HIGH) then Some Tca64xx.IRQ_TYPE_LEVEL_HIGH
  else if bool_decide (type = GB_GPIO_IRQ_TYPE_LEVEL_LOW) then Some Tca64xx.IRQ_TYPE_LEVEL_LOW
  else None.
(** [irq_event] is the address of [gb_gpio_irq_event]. *)
Definition gb_gpio_irq_type payload w :=
  on_line payload w (fun which =>
    type ← byte_at payload 1;
    match trigger_of type with
    | None => Ret (w, GB_OP_INVALID, None)
    | Some trigger =>
        r ← gpio_irq_set_triggering which trigger w;
        let '(ret, w) := (r : Z * lines) in
        if bool_decide (ret <> 0) then Ret (w, GB_OP_INVALID, None) else
        r ← gpio_irq_attach which irq_event w;
        let '(ret, w) := (r : Z * lines) in
        if bool_decide (ret <> 0) then Ret (w, GB_OP_UNKNOWN_ERROR, None) else Ret (w, GB_OP_SUCCESS, None)
    end).

(** The table [gb_gpio_handlers]. *)
Definition gb_gpio_handlers (type : Z) : option (bool -> list Z -> lines -> outcome handled) :=
  if bool_decide (type = GB_GPIO_TYPE_PROTOCOL_VERSION) then Some (fun ok _ w => gb_gpio_protocol_version ok w)
  else if bool_decide (type = GB_GPIO_TYPE_LINE_COUNT) then Some (fun ok _ w => gb_gpio_line_count ok w)
  else if bool_decide (type = GB_GPIO_TYPE_ACTIVATE) then Some (fun _ => gb_gpio_activate)
  else if bool_decide (type = GB_GPIO_TYPE_DEACTIVATE) then Some (fun _ => gb_gpio_deactivate)
  else if bool_decide (type = GB_GPIO_TYPE_GET_DIRECTION) then Some gb_gpio_get_direction
  else if bool_decide (type = GB_GPIO_TYPE_DIRECTION_IN) then Some (fun _ => gb_gpio_direction_in)
  else if bool_decide (type = GB_GPIO_TYPE_DIRECTION_OUT) then Some (fun _ => gb_gpio_direction_out)
  else if bool_decide (type = GB_GPIO_TYPE_GET_VALUE) then Some gb_gpio_get_value
  else if bool_decide (type = GB_GPIO_TYPE_SET_VALUE) then Some (fun _ => gb_gpio_set_value)
  else if bool_decide (type = GB_GPIO_TYPE_SET_DEBOUNCE) then Some (fun _ => gb_gpio_set_debounce)
  else if bool_decide (type = GB_GPIO_TYPE_IRQ_TYPE) then Some (fun _ => gb_gpio_irq_type)
  else if bool_decide (type = GB_GPIO_TYPE_IRQ_MASK) then Some (fun _ => gb_gpio_irq_mask)
  else if bool_decide (type = GB_GPIO_TYPE_IRQ_UNMASK) then Some (fun _ => gb_gpio_irq_unmask)
  else None.

(** An interrupt is reported once the line is masked; [ok]: there is memory for
    the operation.  The events sent are a trace. *)
Definition gb_gpio_irq_event ok (irq : Z) w (events : list Z) : outcome (lines * list Z) :=
  if negb ok then Ret (w, events) else
  r ← gpio_irq_mask (wrap32 irq) w;
  Ret ((r : Z * lines).2, events ++ [wrap8 irq]).

(** [gb_device] and [gpio_cport]; [registered] is what [gb_register_driver] returns. *)
Definition gb_gpio_probe (device cport registered : Z) (globals : Z * Z) : (Z * Z) * Z := ((device, cport), registered).
End Protocol.
Arguments handled D : clear implicits.

(** The entry of the table for a type. *)
Ltac find_handler :=
  match goal with |- context [@gb_gpio_handlers ?d ?e ?t] =>
    let h := eval hnf in (@gb_gpio_handlers d e t) in change (@gb_gpio_handlers d e t) with h; cbn iota beta end.

(** ** What requests can do *)

Section Contained.
Context {D : Type} (irq_event : Z).
Notation lines := (world (D := D)).
Implicit Types (w : lines) (L : Z -> Prop).

(** Only the drivers that own one of the lines [L] have changed their state. *)
Definition contained L w w' : Prop :=
  devices w' = devices w /\ line_count w' = line_count w /\
  forall p, match devs w !! p with
            | None => devs w' !! p = None
            | Some d => exists s, devs w' !! p = Some (with_drv d s) /\ ((forall line, L line -> ~ base d <= line < base d + count d) -> s = drv d)
            end.

Lemma with_drv_self (d : gpio_device (D := D)) : with_drv d (drv d) = d.
Proof. by destruct d. Qed.
Lemma contained_refl L w : contained L w w.
Proof.
  split_and!; [done..|]. intros p. destruct (devs w !! p) as [d|]; [|done]. exists (drv d). by rewrite with_drv_self.
Qed.
Lemma contained_trans L L' w w1 w2 : contained L w w1 -> contained L' w1 w2 -> contained (fun l => L l \/ L' l) w w2.
Proof.
  intros (E1 & E2 & H1) (E3 & E4 & H2). split; [congruence|]. split; [congruence|]. intros p. specialize (H1 p). specialize (H2 p).
  destruct (devs w !! p) as [d|]; [|by rewrite H1 in H2]. destruct H1 as (s1 & Ew1 & Hs1). rewrite Ew1 in H2. destruct H2 as (s2 & Ew2 & Hs2).
  exists s2. split; [exact Ew2|]. intros Hn. rewrite Hs2; [cbn; apply Hs1|]; intros l Hl; apply Hn; tauto.
Qed.
Lemma contained_mono L L' w w' : (forall l, L l -> L' l) -> contained L w w' -> contained L' w w'.
Proof.
  intros HL (? & ? & H). split_and!; [done..|]. intros p. specialize (H p). destruct (devs w !! p); [|done].
  destruct H as (s & ? & Hs). exists s. split; [done|]. intros Hn. apply Hs. intros l Hl. by apply Hn, HL.
Qed.

Lemma sorted_bases (m m' : gmap Z gpio_device) l : (forall p d, m !! p = Some d -> exists s, m' !! p = Some (with_drv (D := D) d s)) ->
  StronglySorted (before m) l -> StronglySorted (before m') l.
Proof.
  intros H. induction 1 as [|x l Hs IH Hx]; constructor; [done|]. rewrite Forall_forall in Hx |- *. intros y Hy.
  destruct (Hx y Hy) as (d & e & Ed & Ee & ?). destruct (H _ _ Ed) as (s1 & ?), (H _ _ Ee) as (s2 & ?). by exists (with_drv d s1), (with_drv e s2).
Qed.
Lemma contained_ok L w w' : contained L w w' -> registry_ok w -> registry_ok w'.
Proof.
  intros (E1 & _ & H) [Hd Ha].
  assert (Hk : forall p d, devs w !! p = Some d -> exists s, devs w' !! p = Some (with_drv d s)).
  { intros p d E. specialize (H p). rewrite E in H. destruct H as (s & ? & _). by exists s. }
  split; rewrite E1; [|by eapply sorted_bases]. intros p Hp. destruct (Hd p Hp) as (d & E & Hf). destruct (Hk p d E) as (s & E').
  by exists (with_drv d s).
Qed.

(** The drivers return, whatever state they are in. *)
Definition drivers_return w : Prop := forall p d o r f s line, devs w !! p = Some d -> ops d = Some o -> member r o = Some f ->
  0 <= line < count d -> exists s' res, f s line = Ret (s', res).
Lemma contained_return L w w' : contained L w w' -> drivers_return w -> drivers_return w'.
Proof.
  intros (_ & _ & H) Hr p d o r f s line Ed. specialize (H p). destruct (devs w !! p) as [d0|] eqn:E; [|by rewrite H in Ed].
  destruct H as (s0 & E' & _). rewrite E' in Ed. injection Ed as <-. apply (Hr p d0 o r f s line E).
Qed.

(** An operation on a line is that of the controller the line belongs to, on its
    line of that number less the controller's first; or an error. *)
Inductive effect (q : request) (line : Z) w : Z -> lines -> Prop :=
  | effect_done p d o f s res : p ∈ devices w -> devs w !! p = Some d -> base d <= line < base d + count d ->
      ops d = Some o -> member q o = Some f -> f (drv d) (line - base d) = Ret (s, res) -> effect q line w res (put_dev p (with_drv d s) w)
  | effect_unsupported p d : p ∈ devices w -> devs w !! p = Some d -> base d <= line < base d + count d ->
      (ops d ≫= member q) = None -> effect q line w (if decide (ops d = None) then - EINVAL else - ENOSYS) w
  | effect_no_line : (forall p d, p ∈ devices w -> devs w !! p = Some d -> ~ base d <= line < base d + count d) -> effect q line w (- ENODEV) w.

Lemma run_request_contained r line w : registry_ok w -> drivers_return w -> 0 <= line ->
  exists res w', run_request r line w = Ret (res, w') /\ contained (eq line) w w' /\ effect r line w res w'.
Proof.
  intros Hok Hr Hl. rewrite run_request_dispatch. unfold dispatch, gpio_get_device, mbind, outcome_bind.
  destruct (find_cases w line Hok) as [(-> & Hno)|(p & d & -> & Hp & Hd & Ho)].
  { eexists _, _. split; [done|]. split; [apply contained_refl|]. apply effect_no_line. intros p d Hp Hd Hin.
    destruct (ok_devices _ Hok p Hp) as (d' & Hd' & Hf). simplify_eq. specialize (Hno p d Hp Hd). by rewrite (proj2 (owns_iff d line Hf Hl) Hin) in Hno. }
  rewrite Hd. cbn [deref]. destruct (ok_devices _ Hok p Hp) as (d' & Hd' & Hf). simplify_eq. apply owns_iff in Ho; [|done|done].
  destruct (ops d) as [o|] eqn:Eo.
  2:{ eexists _, _. split; [done|]. split; [apply contained_refl|]. pose proof (effect_unsupported r line w p d Hp Hd Ho) as He. rewrite Eo in He. by apply He. }
  destruct (member r o) as [f|] eqn:Ef.
  2:{ eexists _, _. split; [done|]. split; [apply contained_refl|]. pose proof (effect_unsupported r line w p d Hp Hd Ho) as He. rewrite Eo in He.
      rewrite decide_False in He by done. apply He. exact Ef. }
  destruct (Hr p d o r f (drv d) (line - base d) Hd Eo Ef ltac:(lia)) as (s & res & E).
  rewrite wrap32_small by (destruct Hf as (? & ? & ?); lia). rewrite E. exists res. eexists. split; [done|].
  split; [|by eapply effect_done]. split_and!; [done..|]. intros q. cbn [devs put_dev]. destruct (decide (q = p)) as [->|Hq].
  - rewrite Hd, lookup_insert_eq. exists s. split; [done|]. intros Hn. exfalso. by apply (Hn line).
  - rewrite lookup_insert_ne by done. destruct (devs w !! q) as [e|]; [|done]. exists (drv e). by rewrite with_drv_self.
Qed.

(** How much of the payload a handler reads. *)
Definition payload_size (type : Z) : nat :=
  if bool_decide (type <= GB_GPIO_TYPE_LINE_COUNT) then 0
  else if bool_decide (type = GB_GPIO_TYPE_SET_DEBOUNCE) then 3
  else if bool_decide (type = GB_GPIO_TYPE_DIRECTION_OUT) || bool_decide (type = GB_GPIO_TYPE_SET_VALUE) || bool_decide (type = GB_GPIO_TYPE_IRQ_TYPE) then 2
  else 1.
Record gb_request := mk_request { rq_ok : bool; rq_type : Z; rq_payload : list Z }.
Definition request_ok (r : gb_request) : Prop :=
  GB_GPIO_TYPE_PROTOCOL_VERSION <= rq_type r <= GB_GPIO_TYPE_IRQ_UNMASK /\ (payload_size (rq_type r) <= length (rq_payload r))%nat /\
  Forall (fun b => 0 <= b < 2 ^ 8) (rq_payload r).
Definition handle (r : gb_request) w : outcome (handled D) :=
  match gb_gpio_handlers irq_event (rq_type r) with Some h => h (rq_ok r) (rq_payload r) w | None => Fault end.
Fixpoint handle_all (l : list gb_request) w : outcome (lines * list (Z * option (list Z))) :=
  match l with
  | [] => Ret (w, [])
  | r :: l => '(w, result, response) ← handle r w; '(w, rs) ← handle_all l w; Ret (w, (result, response) :: rs)
  end.
Definition addresses (r : gb_request) (line : Z) : Prop := rq_payload r !! 0%nat = Some line.

(** What each type of request asks of the line it names, by the numbers of the
    protocol: the operation on the line, with the bytes that follow. *)
Definition asks (type : Z) (args : list Z) : option request :=
  match type, args with
  | 3, _ => Some Activate | 4, _ => Some Deactivate | 5, _ => Some GetDirection | 6, _ => Some DirectionIn
  | 7, v :: _ => Some (DirectionOut v) | 8, _ => Some GetValue | 9, v :: _ => Some (SetValue v)
  | 10, lo :: hi :: _ => Some (SetDebounce (lo + 256 * hi)) | 12, _ => Some IrqMask | 13, _ => Some IrqUnmask
  | _, _ => None
  end.
(** The triggers of the protocol. *)
Definition asks_trigger (type : Z) : option Tca64xx.trigger_type :=
  match type with
  | 1 => Some Tca64xx.EdgeRising | 2 => Some Tca64xx.EdgeFalling | 3 => Some Tca64xx.EdgeBoth | 4 => Some Tca64xx.LevelHigh | 8 => Some Tca64xx.LevelLow
  | _ => None
  end.
(** Types answered with the result of the operation, in a byte. *)
Definition asks_answer (type : Z) : bool := bool_decide (type = 5) || bool_decide (type = 8).

(** A request for the trigger of a line: the trigger is set, then the handler. *)
Inductive triggered (line type : Z) w : lines -> Z -> Prop :=
  | trigger_unknown : asks_trigger type = None -> triggered line type w w GB_OP_INVALID
  | trigger_refused ty res w' : asks_trigger type = Some ty -> effect (IrqSetTriggering (Tca64xx.irq_type ty)) line w res w' -> res <> 0 ->
      triggered line type w w' GB_OP_INVALID
  | trigger_set ty w1 res w' : asks_trigger type = Some ty -> effect (IrqSetTriggering (Tca64xx.irq_type ty)) line w 0 w1 ->
      effect (IrqAttach irq_event) line w1 res w' -> triggered line type w w' (if decide (res = 0) then GB_OP_SUCCESS else GB_OP_UNKNOWN_ERROR).

(** What the answer to a request is, and what it does to the lines. *)
Inductive answers (r : gb_request) w : lines -> Z -> option (list Z) -> Prop :=
  | answer_version : rq_type r = 1 -> rq_ok r = true -> answers r w w GB_OP_SUCCESS (Some [0; 1])
  | answer_count : rq_type r = 2 -> rq_ok r = true -> sint32 (line_count w) <> 0 -> answers r w w GB_OP_SUCCESS (Some [wrap8 (line_count w - 1)])
  | answer_no_lines : rq_type r = 2 -> rq_ok r = true -> sint32 (line_count w) = 0 -> answers r w w GB_OP_UNKNOWN_ERROR (Some [0])
  | answer_no_memory : rq_ok r = false -> rq_type r = 1 \/ rq_type r = 2 \/ asks_answer (rq_type r) = true ->
      (forall line, 2 < rq_type r -> addresses r line -> line < line_count w) -> answers r w w GB_OP_NO_MEMORY None
  | answer_bad_line line : 3 <= rq_type r <= 13 -> addresses r line -> line_count w <= line -> answers r w w GB_OP_INVALID None
  | answer_done line args q res w' : rq_payload r = line :: args -> line < line_count w -> asks (rq_type r) args = Some q ->
      (asks_answer (rq_type r) = true -> rq_ok r = true) -> effect q line w res w' ->
      answers r w w' (if decide (rq_type r = 10 /\ res <> 0) then GB_OP_UNKNOWN_ERROR else GB_OP_SUCCESS)
        (if asks_answer (rq_type r) then Some [wrap8 res] else None)
  | answer_trigger line type args w' result : rq_type r = 11 -> rq_payload r = line :: type :: args -> line < line_count w ->
      triggered line type w w' result -> answers r w w' result None.
Inductive all_answered : list gb_request -> lines -> lines -> list (Z * option (list Z)) -> Prop :=
  | answered_nil w : all_answered [] w w []
  | answered_cons r l w w1 w' result response rs : answers r w w1 result response -> all_answered l w1 w' rs ->
      all_answered (r :: l) w w' ((result, response) :: rs).

Definition handled_ok (r : gb_request) w (m : outcome (handled D)) : Prop :=
  exists w' result response, m = Ret (w', result, response) /\ contained (addresses r) w w' /\ answers r w w' result response /\
    result ∈ [GB_OP_SUCCESS; GB_OP_NO_MEMORY; GB_OP_INVALID; GB_OP_UNKNOWN_ERROR] /\
    Forall (fun b => 0 <= b < 2 ^ 8) (default [] response).

Lemma handled_intro L' (r : gb_request) w w' result response : contained L' w w' -> (forall l, L' l -> addresses r l) ->
  result ∈ [GB_OP_SUCCESS; GB_OP_NO_MEMORY; GB_OP_INVALID; GB_OP_UNKNOWN_ERROR] -> Forall (fun b => 0 <= b < 2 ^ 8) (default [] response) ->
  answers r w w' result response -> handled_ok r w (Ret (w', result, response)).
Proof. intros Hc HL Hr Hb Ha. exists w', result, response. split_and!; [done| |done|done|done]. by eapply contained_mono. Qed.
Lemma handled_same (r : gb_request) w result response :
  result ∈ [GB_OP_SUCCESS; GB_OP_NO_MEMORY; GB_OP_INVALID; GB_OP_UNKNOWN_ERROR] -> Forall (fun b => 0 <= b < 2 ^ 8) (default [] response) ->
  answers r w w result response -> handled_ok r w (Ret (w, result, response)).
Proof. intros. apply (handled_intro (fun _ => False)); [apply contained_refl|by intros ? []|done..]. Qed.

Ltac results :=
  cbn; first [set_solver | repeat first [by apply Forall_nil | apply Forall_cons; split | apply wrap8_range | by split]].

Lemma byte_at_ok (l : list Z) i : (i < length l)%nat -> Forall (fun b => 0 <= b < 2 ^ 8) l -> exists b, byte_at l i = Ret b /\ l !! i = Some b /\ 0 <= b < 2 ^ 8.
Proof.
  intros Hi Hl. destruct (lookup_lt_is_Some_2 l i Hi) as (b & E). exists b. unfold byte_at. rewrite E. split_and!; [done..| |];
    by apply (Forall_lookup_1 _ _ _ _ Hl E).
Qed.

Section Handlers.
Context (r : gb_request) (w : lines) (Hok : registry_ok w) (Hret : drivers_return w) (Hr : request_ok r).

Lemma payload_cons (n : nat) : (S n <= length (rq_payload r))%nat -> exists line args, rq_payload r = line :: args /\ 0 <= line < 2 ^ 8 /\
  addresses r line /\ (n <= length args)%nat /\ Forall (fun b => 0 <= b < 2 ^ 8) args.
Proof.
  intros Hl. destruct Hr as (_ & _ & Hb). unfold addresses. destruct (rq_payload r) as [|line args]; [cbn in Hl; lia|].
  apply Forall_cons in Hb as [Hb Ha]. exists line, args. cbn in Hl. split_and!; [done|lia|lia|done|lia|done].
Qed.

Lemma on_line_ok (n : nat) f : 3 <= rq_type r <= 13 -> (S n <= length (rq_payload r))%nat ->
  (forall which args, 0 <= which -> rq_payload r = which :: args -> addresses r which -> which < line_count w -> (n <= length args)%nat ->
     handled_ok r w (f which)) ->
  handled_ok r w (on_line (rq_payload r) w f).
Proof.
  intros Ht Hl Hf. destruct (payload_cons n Hl) as (which & args & E & ? & Ha & Hn & _). specialize (Hf which args ltac:(lia) E Ha).
  unfold on_line, byte_at. rewrite E. cbn [lookup list_lookup deref]. unfold mbind, outcome_bind, gpio_line_count.
  case_bool_decide; [|by apply Hf; lia]. apply handled_same; [results..|]. by apply (answer_bad_line r w which).
Qed.

(** The requests that are one operation whose result is not returned. *)
Lemma ignore_ok q which args : 0 <= which -> rq_payload r = which :: args -> addresses r which -> which < line_count w ->
  asks (rq_type r) args = Some q -> asks_answer (rq_type r) = false -> rq_type r <> 10 -> handled_ok r w (ignore (run_request q which w)).
Proof.
  intros Hw Hp Ha Hc Hq Hn H10. destruct (run_request_contained q which w Hok Hret Hw) as (res & w' & E & Hcont & Heff). unfold ignore. rewrite E.
  unfold mbind, outcome_bind. apply (handled_intro (eq which)); [done|by intros l <-|results..|].
  pose proof (answer_done r w which args q res w' Hp Hc Hq ltac:(congruence) Heff) as H. rewrite Hn, decide_False in H by tauto. exact H.
Qed.
(** The requests whose response is the result of the operation. *)
Lemma reply_ok q which args : 0 <= which -> rq_payload r = which :: args -> addresses r which -> which < line_count w ->
  asks (rq_type r) args = Some q -> asks_answer (rq_type r) = true -> rq_type r <> 10 -> handled_ok r w (reply (rq_ok r) w (run_request q which w)).
Proof.
  intros Hw Hp Ha Hc Hq Hn H10. destruct (run_request_contained q which w Hok Hret Hw) as (res & w' & E & Hcont & Heff). unfold reply. rewrite E.
  unfold mbind, outcome_bind. destruct (rq_ok r) eqn:Eok; cbn [negb].
  - apply (handled_intro (eq which)); [done|by intros l <-|results..|].
    pose proof (answer_done r w which args q res w' Hp Hc Hq ltac:(done) Heff) as H. rewrite Hn, decide_False in H by tauto. exact H.
  - apply handled_same; [results..|]. apply answer_no_memory; [done|by right; right|]. intros line _ Hal. unfold addresses in *. congruence.
Qed.

Lemma set_debounce_ok : rq_type r = 10 -> (3 <= length (rq_payload r))%nat -> handled_ok r w (gb_gpio_set_debounce (rq_payload r) w).
Proof.
  intros Ht Hl. apply (on_line_ok 2); [lia|done|]. intros which args Hw Hp Ha Hc Hargs. unfold byte_at. rewrite Hp.
  destruct args as [|lo [|hi args]]; [cbn in Hargs; lia..|]. cbn [lookup list_lookup deref]. unfold mbind, outcome_bind.
  destruct (run_request_contained (SetDebounce (lo + 2 ^ 8 * hi)) which w Hok Hret Hw) as (res & w' & E & Hcont & Heff).
  cbn [run_request] in E. rewrite E. apply (handled_intro (eq which)); [done|by intros l <-|case_bool_decide; results|results|].
  pose proof (answer_done r w which _ (SetDebounce (lo + 2 ^ 8 * hi)) res w' Hp Hc) as H. rewrite Ht in H. specialize (H eq_refl ltac:(done) Heff).
  cbn [asks_answer] in H. case_bool_decide; [rewrite decide_True in H by done|rewrite decide_False in H by tauto]; exact H.
Qed.

Lemma trigger_of_asks type : trigger_of type = Tca64xx.irq_type <$> asks_trigger type.
Proof.
  unfold trigger_of. repeat (case_bool_decide as E; [subst type; reflexivity|]).
  unfold GB_GPIO_IRQ_TYPE_EDGE_RISING, GB_GPIO_IRQ_TYPE_EDGE_FALLING, GB_GPIO_IRQ_TYPE_EDGE_BOTH, GB_GPIO_IRQ_TYPE_LEVEL_HIGH, GB_GPIO_IRQ_TYPE_LEVEL_LOW in *.
  unfold asks_trigger. by repeat case_match; subst; try lia.
Qed.

Lemma irq_type_ok : rq_type r = 11 -> (2 <= length (rq_payload r))%nat -> handled_ok r w (gb_gpio_irq_type irq_event (rq_payload r) w).
Proof.
  intros Ht Hl. apply (on_line_ok 1); [lia|done|]. intros which args Hw Hp Ha Hc Hargs. unfold byte_at. rewrite Hp.
  destruct args as [|type args]; [cbn in Hargs; lia|]. cbn [lookup list_lookup deref]. unfold mbind, outcome_bind.
  assert (Hans : forall w' result, triggered which type w w' result -> answers r w w' result None) by (intros; by eapply answer_trigger).
  rewrite trigger_of_asks. destruct (asks_trigger type) as [ty|] eqn:Ety; cbn [fmap option_fmap option_map].
  2:{ apply handled_same; [results..|]. by apply Hans, trigger_unknown. }
  destruct (run_request_contained (IrqSetTriggering (Tca64xx.irq_type ty)) which w Hok Hret Hw) as (res & w1 & E & Hc1 & He1). cbn [run_request] in E. rewrite E.
  case_bool_decide as Hz.
  { apply (handled_intro (eq which)); [done|by intros l <-|results..|]. by eapply Hans, trigger_refused. }
  assert (res = 0) as -> by lia.
  destruct (run_request_contained (IrqAttach irq_event) which w1) as (res2 & w2 & E2 & Hc2 & He2); [by eapply contained_ok|by eapply contained_return|done|].
  cbn [run_request] in E2. rewrite E2. pose proof (Hans _ _ (trigger_set which type w ty w1 res2 w2 Ety He1 He2)) as H.
  case_bool_decide; [rewrite decide_False in H by done|rewrite decide_True in H by lia];
    (apply (handled_intro (fun l => which = l \/ which = l)); [by eapply contained_trans|by intros l [<-|<-]|results..|exact H]).
Qed.

Lemma version_ok : rq_type r = 1 -> handled_ok r w (gb_gpio_protocol_version (rq_ok r) w).
Proof.
  intros Ht. unfold gb_gpio_protocol_version. destruct (rq_ok r) eqn:Eok; (apply handled_same; [results..|]).
  - by apply answer_version.
  - apply answer_no_memory; [done|by left|lia].
Qed.
Lemma wrap8_sint32 x : wrap8 (sint32 x - 1) = wrap8 (x - 1).
Proof. unfold sint32, wrap8, wrap32. case_bool_decide; Z.div_mod_to_equations; lia. Qed.
Lemma line_count_ok : rq_type r = 2 -> handled_ok r w (gb_gpio_line_count (rq_ok r) w).
Proof.
  intros Ht. unfold gb_gpio_line_count, gpio_line_count. destruct (rq_ok r) eqn:Eok; cbn [negb]; cbv zeta.
  - case_bool_decide; (apply handled_same; [results..|]); [by apply answer_no_lines|].
    assert (wrap8 (sint32 (line_count w) - 1) = wrap8 (line_count w - 1)) as -> by apply wrap8_sint32. by apply answer_count.
  - apply handled_same; [results..|]. apply answer_no_memory; [done|by right; left|lia].
Qed.

Lemma handle_ok : handled_ok r w (handle r w).
Proof.
  pose proof Hr as (Ht & Hl & Hb). unfold handle.
  assert (Hc : rq_type r ∈ seqZ 1 13) by (apply elem_of_seqZ; unfold GB_GPIO_TYPE_PROTOCOL_VERSION, GB_GPIO_TYPE_IRQ_UNMASK in *; lia).
  change (seqZ 1 13) with [1; 2; 3; 4; 5; 6; 7; 8; 9; 10; 11; 12; 13] in Hc.
  assert (Hign : forall q, (forall args, (payload_size (rq_type r) <= S (length args))%nat -> rq_payload r = default 0 (rq_payload r !! 0%nat) :: args -> asks (rq_type r) args = Some q) ->
    3 <= rq_type r <= 13 -> asks_answer (rq_type r) = false -> rq_type r <> 10 -> (1 <= length (rq_payload r))%nat ->
    handled_ok r w (on_line (rq_payload r) w (fun which => ignore (run_request q which w)))).
  { intros q Hq H3 Hn H10 H1. apply (on_line_ok 0); [done|done|]. intros which args Hw Hp Ha Hcw _. apply (ignore_ok q which args); try done.
    apply Hq; [rewrite Hp in Hl; cbn in Hl; lia|by rewrite Hp]. }
  repeat (apply elem_of_cons in Hc as [Hc|Hc]); [..|by apply elem_of_nil in Hc]; rewrite Hc in Hl |- *;
    match type of Hl with (?n <= _)%nat => let m := eval vm_compute in n in change n with m in Hl end; find_handler.
  - by apply version_ok.
  - by apply line_count_ok.
  - apply (Hign Activate); rewrite ?Hc; try done; lia.
  - apply (Hign Deactivate); rewrite ?Hc; try done; lia.
  - apply (on_line_ok 0); [lia|done|]. intros which args ? Hp ? ? _. apply (reply_ok GetDirection which args); rewrite ?Hc; done.
  - apply (Hign DirectionIn); rewrite ?Hc; try done; lia.
  - apply (on_line_ok 1); [lia|done|]. intros which args ? Hp ? ? Hn. destruct args as [|v args]; [cbn in Hn; lia|].
    unfold byte_at. rewrite Hp. cbn [lookup list_lookup deref]. unfold mbind, outcome_bind. apply (ignore_ok (DirectionOut v) which (v :: args)); rewrite ?Hc; done.
  - apply (on_line_ok 0); [lia|done|]. intros which args ? Hp ? ? _. apply (reply_ok GetValue which args); rewrite ?Hc; done.
  - apply (on_line_ok 1); [lia|done|]. intros which args ? Hp ? ? Hn. destruct args as [|v args]; [cbn in Hn; lia|].
    unfold byte_at. rewrite Hp. cbn [lookup list_lookup deref]. unfold mbind, outcome_bind. apply (ignore_ok (SetValue v) which (v :: args)); rewrite ?Hc; done.
  - by apply set_debounce_ok.
  - by apply irq_type_ok.
  - apply (Hign IrqMask); rewrite ?Hc; try done; lia.
  - apply (Hign IrqUnmask); rewrite ?Hc; try done; lia.
Qed.
End Handlers.

(** C29.  Whatever requests a host sends, in any order and with any bytes in
    payloads of the size of their type, each is answered as its type says: a
    request that names a line from the line count on is invalid and changes
    nothing; any other does to the line it names, through the controller of the
    line and on nothing else, the operation of its type with the bytes that
    follow, and the response is the operation's result in a byte for the types
    that ask for one, if there is memory for it.  The numbering of the lines
    stays as it is, and a controller whose lines no request names is left
    alone. *)
Theorem gb_gpio_requests_contained l w : registry_ok w -> drivers_return w -> Forall request_ok l ->
  exists w' rs, handle_all l w = Ret (w', rs) /\ all_answered l w w' rs /\ registry_ok w' /\
    contained (fun line => exists r, r ∈ l /\ addresses r line) w w' /\
    Forall (fun x => x.1 ∈ [GB_OP_SUCCESS; GB_OP_NO_MEMORY; GB_OP_INVALID; GB_OP_UNKNOWN_ERROR] /\ Forall (fun b => 0 <= b < 2 ^ 8) (default [] x.2)) rs.
Proof.
  revert w. induction l as [|r l IH]; intros w Hok Hret Hl.
  { exists w, []. split_and!; [done|constructor|done|apply contained_refl|done]. }
  apply Forall_cons in Hl as [Hr Hl]. destruct (handle_ok r w Hok Hret Hr) as (w1 & result & response & E & Hc & Ha & Hres & Hb).
  cbn [handle_all]. rewrite E. unfold mbind, outcome_bind.
  destruct (IH w1) as (w2 & rs & -> & Hall & Hok2 & Hc2 & Hrs); [by eapply contained_ok|by eapply contained_return|done|].
  exists w2, ((result, response) :: rs). split_and!; [done|by econstructor|done| |by constructor].
  eapply contained_mono; [|by eapply contained_trans]. intros line [Hal|(x & Hx & Hal)]; [exists r|exists x]; (split; [|done]); [left|by right].
Qed.

End Contained.

(** ** From the host to the pin and back *)

Section Expander.
Import I2c.I2c.
Context {B : Type} {f : B -> list i2c_msg -> B * list (list Z) * Z} {a : Z} {P : Tca64xx.tca64xx_part} `{!Tca64xx.Expander f a P} (irq_event : Z).
Notation lines := (world (D := Tca64xx.tca64xx B)).
Implicit Types (w : lines) (t : Tca64xx.tca64xx B) (b : B).

(** The bus works, and nothing but the expander drives its outputs. *)
Definition read_reg (r : Z) : list i2c_msg := [mk_msg a 0 [r] 1; mk_msg a I2C_M_READ [] 1].
Definition bus_works : Prop := (forall b r, (f b (read_reg r)).2 = 0) /\ (forall b r v, (f b [mk_msg a 0 [r; v] 2]).2 = 0).
Definition outputs_read_back : Prop := forall b which v, 0 <= which < Tca64xx.get_nr_gpios P ->
  Tca64xx.pin_in (Tca64xx.pins b which) = false -> Tca64xx.pin_inverted (Tca64xx.pins b which) = false ->
  (f b (read_reg (Tca64xx.get_input_reg P which))).1.2 = [[v]] -> Z.testbit v (which mod 8) = Tca64xx.pin_out (Tca64xx.pins b which).

(** The controller at [p] of the lines is this expander. *)
Definition is_expander w p (d : gpio_device) b : Prop :=
  registry_ok w /\ p ∈ devices w /\ devs w !! p = Some d /\ ops d = Some (Tca64xx.tca64xx_gpio_ops (base d)) /\
  count d = Tca64xx.get_nr_gpios P /\ Tca64xx.for_chip (drv d) b (f := f) (a := a) (P := P).

Lemma run_request_expander q g w p d b line : is_expander w p d b -> base d <= line < base d + count d ->
  member q (Tca64xx.tca64xx_gpio_ops (base d)) = Some g -> run_request q line w = ('(s, res) ← g (drv d) (line - base d); Ret (res, put_dev p (with_drv d s) w)).
Proof.
  intros (Hok & Hp & Hd & Ho & _) Hl Hg. destruct (ok_devices _ Hok p Hp) as (d' & Hd' & Hf). simplify_eq. pose proof Hf as (? & ? & ?).
  rewrite run_request_dispatch. unfold dispatch, gpio_get_device, mbind, outcome_bind. rewrite (find_owner w line p d) by (done || lia || (apply owns_iff; (done || lia))).
  rewrite Hd. cbn [deref]. by rewrite Ho, Hg, wrap32_small by lia.
Qed.
Lemma put_expander w p d b t b' : is_expander w p d b -> Tca64xx.for_chip t b' (f := f) (a := a) (P := P) -> is_expander (put_dev p (with_drv d t) w) p (with_drv d t) b'.
Proof.
  intros (Hok & Hp & Hd & Ho & Hc & _) Ht. split; [|split_and!; [done|by cbn; rewrite lookup_insert_eq|done|done|done]].
  apply (contained_ok (fun _ => True) w); [|done]. split_and!; [done..|]. intros q. cbn [devs put_dev]. destruct (decide (q = p)) as [->|].
  - rewrite Hd, lookup_insert_eq. exists t. split; [done|]. intros Hn. exfalso. apply (Hn (base d) I). destruct (ok_devices _ Hok p Hp) as (d' & Hd' & ? & ? & ?). simplify_eq. lia.
  - rewrite lookup_insert_ne by done. destruct (devs w !! q) as [e|]; [|done]. exists (drv e). by rewrite with_drv_self.
Qed.

Lemma get_works t b r : bus_works -> Tca64xx.for_chip t b (f := f) (a := a) (P := P) -> (Tca64xx.i2c_get t r).2 = 0.
Proof.
  intros [Hb _] (_ & Ha & sf & Hm). unfold Tca64xx.i2c_get, i2c_transfer. rewrite Hm. cbn [transfer bus]. rewrite Ha.
  specialize (Hb b r). unfold read_reg in Hb. by destruct (f b _) as [[b' l] ret].
Qed.
Lemma set_works t b r v : bus_works -> Tca64xx.for_chip t b (f := f) (a := a) (P := P) -> (Tca64xx.i2c_set t r v).2 = 0.
Proof.
  intros [_ Hb] (_ & Ha & sf & Hm). unfold Tca64xx.i2c_set, i2c_transfer. rewrite Hm. cbn [transfer bus]. rewrite Ha.
  specialize (Hb b r v). by destruct (f b _) as [[b' l] ret].
Qed.
Lemma rmw_works t b r which x t' ret : bus_works -> Tca64xx.for_chip t b (f := f) (a := a) (P := P) -> Tca64xx.rmw t r which x = Ret (t', ret) -> ret = 0.
Proof.
  intros Hb Hc. unfold Tca64xx.rmw. destruct (Tca64xx.i2c_get_spec t b r Hc) as (b1 & val & ret1 & t1 & E & Hc1 & _).
  pose proof (get_works t b r Hb Hc) as Hg. rewrite E in Hg |- *. cbn in Hg. subst ret1. rewrite bool_decide_eq_false_2 by tauto.
  destruct val as [v|]; [|done]. cbn [deref]. unfold mbind, outcome_bind. intros [= E2].
  pose proof (set_works t1 b1 r (Tca64xx.with_bit v (which mod 8) x) Hb Hc1) as Hs. by rewrite E2 in Hs.
Qed.

(** An output is set, whatever it was. *)
Lemma direction_out_works t b which v : bus_works -> Tca64xx.for_chip t b (f := f) (a := a) (P := P) -> 0 <= which < Tca64xx.get_nr_gpios P ->
  exists t' b', Tca64xx.tca64xx_set_direction_out t which v = Ret (t', 0) /\ Tca64xx.for_chip t' b' (f := f) (a := a) (P := P) /\
    Tca64xx.pins b' which = Tca64xx.mk_pin false (Tca64xx.pin_inverted (Tca64xx.pins b which)) (Tca64xx.nonzero v).
Proof.
  intros Hb Hc Hw. destruct (Tca64xx.direction_out_spec t b which v Hc Hw) as (t' & r & b' & E & Hc' & Hs & _).
  exists t', b'. assert (Hr : r = 0).
  { revert E. rewrite Tca64xx.direction_out_rmw by apply Hc. rewrite Tca64xx.in_range_byte by done.
    destruct (Tca64xx.rmw_spec t b Tca64xx.Config which false Hc Hw) as (t1 & ret & b1 & y & E & Hc1 & _). cbn [Tca64xx.reg_of] in E.
    rewrite E. unfold mbind, outcome_bind. apply rmw_works with (b := b) in E; [|done|done]. subst ret. rewrite bool_decide_eq_false_2 by tauto.
    rewrite Tca64xx.set_rmw by apply Hc1. intros E2. by apply rmw_works with (b := b1) in E2. }
  subst r. split; [done|]. split; [done|]. by destruct Hs.
Qed.

Lemma testbit_masked v k : 0 <= k -> bool_decide (Z.land v (Z.shiftl 1 k) <> 0) = Z.testbit v k.
Proof.
  intros Hk. rewrite Z.shiftl_1_l. destruct (Z.testbit v k) eqn:E.
  - apply bool_decide_eq_true_2. intros Hz. apply (f_equal (fun x => Z.testbit x k)) in Hz. by rewrite Z.land_spec, E, Z.pow2_bits_true, Z.bits_0 in Hz.
  - apply bool_decide_eq_false_2. intros Hz. apply Hz. apply Z.bits_inj'. intros i Hi. rewrite Z.land_spec, Z.pow2_bits_eqb, Z.bits_0 by done.
    destruct (Z.eqb_spec k i) as [<-|]; [by rewrite E|by rewrite andb_false_r].
Qed.

Lemma get_value t b r t' v : Tca64xx.for_chip t b (f := f) (a := a) (P := P) -> Tca64xx.i2c_get t r = (t', Some v, 0) -> (f b (read_reg r)).1.2 = [[v]].
Proof.
  intros (_ & Ha & sf & Hm). unfold Tca64xx.i2c_get, i2c_transfer. rewrite Hm. cbn [transfer bus]. rewrite Ha. unfold read_reg.
  pose proof (Tca64xx.chip_read b r) as Hr. destruct (f b _) as [[b' l] ret]. intros [= _ Hv ->].
  destruct Hr as (_ & _ & Hr). destruct (Hr eq_refl) as (x & -> & _). cbn in Hv |- *. by injection Hv as ->.
Qed.

(** And read back. *)
Lemma get_reads t b which : bus_works -> outputs_read_back -> Tca64xx.get_nr_gpios P <= 16 -> Tca64xx.for_chip t b (f := f) (a := a) (P := P) ->
  0 <= which < Tca64xx.get_nr_gpios P -> Tca64xx.pin_in (Tca64xx.pins b which) = false -> Tca64xx.pin_inverted (Tca64xx.pins b which) = false ->
  exists t' b', Tca64xx.tca64xx_get t which = Ret (t', Z.b2z (Tca64xx.pin_out (Tca64xx.pins b which))) /\ Tca64xx.for_chip t' b' (f := f) (a := a) (P := P) /\
    Tca64xx.pins b' which = Tca64xx.pins b which.
Proof.
  intros Hb Ho Hnr Hc Hw Hi Hv. unfold Tca64xx.tca64xx_get. rewrite (proj1 Hc), Tca64xx.in_range_byte by done.
  pose proof (get_works t b (Tca64xx.get_input_reg P which) Hb Hc) as Hg.
  destruct (Tca64xx.i2c_get_spec t b (Tca64xx.get_input_reg P which) Hc) as (b1 & val & ret & t1 & E & Hc1 & Hl & _ & Hval).
  rewrite E in Hg |- *. cbn in Hg. subst ret. rewrite bool_decide_eq_false_2 by tauto. destruct (Hval eq_refl) as (v & -> & _).
  cbn [deref]. unfold mbind, outcome_bind.
  destruct (Tca64xx.intstat_update_returns t1 (wrap8 (Z.shiftl v (which / 8)))) as (i' & st & ->); [by rewrite (proj1 Hc1)|].
  exists (Tca64xx.set_in t1 i' st), b1. split; [|split; [exact Hc1|unfold Tca64xx.pins, Tca64xx.bit_of; by rewrite !Hl]].
  do 2 f_equal. rewrite <- (Ho b which v) by (done || by eapply get_value).
  pose proof (testbit_masked v (which mod 8) ltac:(Tca64xx.zdiv)) as Hbit. case_bool_decide as Hx; rewrite <- Hbit; by rewrite ?bool_decide_eq_true_2, ?bool_decide_eq_false_2 by done.
Qed.

Lemma direction_reads t b which : bus_works -> Tca64xx.for_chip t b (f := f) (a := a) (P := P) -> 0 <= which < Tca64xx.get_nr_gpios P ->
  exists t', Tca64xx.tca64xx_get_direction t which = Ret (t', Z.b2z (Tca64xx.pin_in (Tca64xx.pins b which))).
Proof.
  intros Hb Hc Hw. unfold Tca64xx.tca64xx_get_direction. rewrite (proj1 Hc), Tca64xx.in_range_byte by done.
  pose proof (get_works t b (Tca64xx.get_config_reg P which) Hb Hc) as Hg.
  destruct (Tca64xx.read_bit t b Tca64xx.Config which Hc Hw) as (t' & ret & val & b' & E & _ & _ & _ & Hv). cbn [Tca64xx.reg_of] in E.
  rewrite E in Hg |- *. cbn in Hg. subst ret. rewrite bool_decide_eq_false_2 by tauto. destruct (Hv eq_refl) as (x & -> & Ex). exists t'.
  cbn [deref]. unfold mbind, outcome_bind. by rewrite Ex.
Qed.

(** Handlers of requests on lines that exist. *)
Lemma handle_out w line v : line < gpio_line_count w ->
  handle irq_event (mk_request true GB_GPIO_TYPE_DIRECTION_OUT [line; v]) w = ignore (run_request (DirectionOut v) line w).
Proof. intros Hl. unfold handle. cbn [rq_type rq_payload rq_ok]. find_handler. unfold gb_gpio_direction_out, on_line. cbn. by rewrite bool_decide_eq_false_2 by lia. Qed.
Lemma handle_value w line : line < gpio_line_count w ->
  handle irq_event (mk_request true GB_GPIO_TYPE_GET_VALUE [line]) w = reply true w (run_request GetValue line w).
Proof. intros Hl. unfold handle. cbn [rq_type rq_payload rq_ok]. find_handler. unfold gb_gpio_get_value, on_line. cbn. by rewrite bool_decide_eq_false_2 by lia. Qed.
Lemma handle_direction w line : line < gpio_line_count w ->
  handle irq_event (mk_request true GB_GPIO_TYPE_GET_DIRECTION [line]) w = reply true w (run_request GetDirection line w).
Proof. intros Hl. unfold handle. cbn [rq_type rq_payload rq_ok]. find_handler. unfold gb_gpio_get_direction, on_line. cbn. by rewrite bool_decide_eq_false_2 by lia. Qed.

(** C28.  A line of the module that an expander with at most 16 lines drives, whose
    number is below the count of lines and whose polarity is not inverted, over a
    bus that works, end to end: after the host's request to make it an output with some value, the request for its
    value is answered with that value, and the one for its direction with
    output.  The requests go through the protocol, the numbering of lines, the
    driver of the expander and the I2C bus. *)
Theorem host_line_round_trip w p d b line v : bus_works -> outputs_read_back -> Tca64xx.get_nr_gpios P <= 16 -> is_expander w p d b ->
  0 <= base d <= line -> line < base d + count d -> line < gpio_line_count w -> Tca64xx.pin_inverted (Tca64xx.pins b (line - base d)) = false ->
  exists w', handle_all irq_event
      [mk_request true GB_GPIO_TYPE_DIRECTION_OUT [line; v]; mk_request true GB_GPIO_TYPE_GET_VALUE [line]; mk_request true GB_GPIO_TYPE_GET_DIRECTION [line]] w =
    Ret (w', [(GB_OP_SUCCESS, None); (GB_OP_SUCCESS, Some [if decide (v = 0) then 0 else 1]); (GB_OP_SUCCESS, Some [0])]).
Proof.
  intros Hb Ho Hnr He [Hb0 Hl1] Hl2 Hl3 Hinv. pose proof He as (_ & _ & _ & _ & Hcount & Hc).
  assert (Hw : 0 <= line - base d < Tca64xx.get_nr_gpios P) by lia.
  destruct (direction_out_works (drv d) b (line - base d) v Hb Hc Hw) as (t1 & b1 & E1 & Hc1 & Hp1).
  pose proof (put_expander w p d b t1 b1 He Hc1) as He1.
  destruct (get_reads t1 b1 (line - base d) Hb Ho Hnr Hc1 Hw) as (t2 & b2 & E2 & Hc2 & Hp2); [by rewrite Hp1..|].
  pose proof (put_expander _ p _ b1 t2 b2 He1 Hc2) as He2.
  destruct (direction_reads t2 b2 (line - base d) Hb Hc2 Hw) as (t3 & E3). rewrite Hp2, Hp1 in E3. rewrite Hp1 in E2. cbn in E2, E3.
  cbn [handle_all]. rewrite handle_out by done. rewrite (run_request_expander (DirectionOut v) _ w p d b line He ltac:(lia) eq_refl). cbn beta. rewrite E1.
  unfold mbind, outcome_bind. cbn [ignore]. unfold ignore, mbind, outcome_bind. cbn [snd].
  rewrite handle_value by done. rewrite (run_request_expander GetValue _ _ p _ b1 line He1 ltac:(cbn; lia) eq_refl). change (drv (with_drv d t1)) with t1. change (base (with_drv d t1)) with (base d). rewrite E2.
  unfold mbind, outcome_bind, reply. cbn [negb fst snd]. unfold mbind, outcome_bind. cbn [fst snd].
  rewrite handle_direction by done. rewrite (run_request_expander GetDirection _ _ p _ b2 line He2 ltac:(cbn; lia) eq_refl). change (drv (with_drv (with_drv d t1) t2)) with t2. change (base (with_drv (with_drv d t1) t2)) with (base d). rewrite E3.
  unfold mbind, outcome_bind, reply. cbn [negb fst snd]. unfold mbind, outcome_bind. eexists. unfold Tca64xx.nonzero.
  do 2 f_equal. case_bool_decide; case_decide; done.
Qed.

End Expander.

(** ** Instances *)

Module Ex.
Import Gpio.Gpio.

Lemma an_ops_return : drivers_return two_controllers.
Proof.
  intros p d o r f s line Hd Ho Hf _. assert (o = an_ops) as ->.
  { unfold two_controllers in Hd. cbn [devs] in Hd. rewrite !lookup_insert_Some, lookup_singleton_Some in Hd.
    repeat (destruct Hd as [[_ <-]|[_ Hd]]; [by simplify_eq/=|]). destruct Hd as [_ <-]. done. }
  destruct r; cbn in Hf; try discriminate Hf; injection Hf as <-; by eexists _, _.
Qed.

(** Lines 0 to 3 and 10 to 13 exist: a request for line 2, one for line 9, and
    a change of trigger that the controller does not support. *)
Lemma gb_gpio_requests_contained_witness :
  exists w', handle_all 77 [mk_request true 8 [2]; mk_request true 7 [3; 9]; mk_request true 8 [9]; mk_request true 11 [2; 1]] two_controllers =
    Ret (w', [(0, Some [0]); (0, None); (6, None); (6, None)]) /\ registry_ok w'.
Proof.
  destruct (gb_gpio_requests_contained 77 [mk_request true 8 [2]; mk_request true 7 [3; 9]; mk_request true 8 [9]; mk_request true 11 [2; 1]] two_controllers)
    as (w' & rs & E & _ & Hok & _).
  - apply two_controllers_ok.
  - apply an_ops_return.
  - repeat constructor; cbn; try (unfold payload_size, GB_GPIO_TYPE_PROTOCOL_VERSION, GB_GPIO_TYPE_IRQ_UNMASK; cbn); lia.
  - exists w'. split; [rewrite E; vm_compute in E; injection E as <- <-; vm_compute; reflexivity|exact Hok].
Defined.

(** An expander with sixteen lines, from line 0. *)
Definition module_lines : world (D := Tca64xx.tca64xx (gmap Z Z)) :=
  mk_world {[ 5 := mk_gpio (Some (Tca64xx.tca64xx_gpio_ops 0)) 0 16 (Tca64xx.Ex.fresh None) ]} [5] 16.
#[local] Existing Instance Tca64xx.Ex.chip_expander.

Lemma chip_works : bus_works (f := Tca64xx.Ex.chip) (a := 0x20).
Proof. split; reflexivity. Qed.
Lemma chip_reads_back : outputs_read_back (f := Tca64xx.Ex.chip) (a := 0x20) (P := Tca64xx.TCA6416_PART).
Proof.
  intros b which v Hw. cbn in Hw. assert (Hd : which / 8 = 0 \/ which / 8 = 1) by Tca64xx.zdiv.
  unfold Tca64xx.pins, Tca64xx.bit_of, Tca64xx.reg_of, Tca64xx.get_config_reg, Tca64xx.get_polarity_reg, Tca64xx.get_output_reg, Tca64xx.get_input_reg.
  rewrite !bool_decide_eq_false_2 by (cbn; lia).
  assert (Hm : 0 <= which mod 8) by Tca64xx.zdiv. revert Hm. generalize (which mod 8). intros k Hk Hc Hp.
  destruct Hd as [E|E]; rewrite E in Hc, Hp |- *.
  - change (Z.testbit (Tca64xx.Ex.reg_at b 6) k = false) in Hc. change (Z.testbit (Tca64xx.Ex.reg_at b 4) k = false) in Hp.
    intros Hv. assert (v = Z.lxor (Z.ldiff (Tca64xx.Ex.reg_at b 2) (Tca64xx.Ex.reg_at b 6)) (Tca64xx.Ex.reg_at b 4)) as -> by (by injection Hv as <-).
    rewrite Z.lxor_spec, Z.ldiff_spec, Hc, Hp. cbn [negb]. by rewrite andb_true_r, xorb_false_r.
  - change (Z.testbit (Tca64xx.Ex.reg_at b 7) k = false) in Hc. change (Z.testbit (Tca64xx.Ex.reg_at b 5) k = false) in Hp.
    intros Hv. assert (v = Z.lxor (Z.ldiff (Tca64xx.Ex.reg_at b 3) (Tca64xx.Ex.reg_at b 7)) (Tca64xx.Ex.reg_at b 5)) as -> by (by injection Hv as <-).
    rewrite Z.lxor_spec, Z.ldiff_spec, Hc, Hp. cbn [negb]. by rewrite andb_true_r, xorb_false_r.
Qed.

Lemma host_line_round_trip_witness :
  exists w', handle_all 77 [mk_request true 7 [9; 1]; mk_request true 8 [9]; mk_request true 5 [9]] module_lines =
    Ret (w', [(0, None); (0, Some [1]); (0, Some [0])]).
Proof.
  apply (host_line_round_trip (P := Tca64xx.TCA6416_PART) 77 module_lines 5 (mk_gpio (Some (Tca64xx.tca64xx_gpio_ops 0)) 0 16 (Tca64xx.Ex.fresh None)) (<[6 := 255]> (<[7 := 255]> ∅)) 9 1).
  - apply chip_works.
  - apply chip_reads_back.
  - cbn. lia.
  - split; [|split; [left|split; [reflexivity|split; [reflexivity|split; [reflexivity|]]]]].
    + split; cbn [devices module_lines].
      * intros p [->|[]%elem_of_nil]%elem_of_cons. eexists. split; [reflexivity|]. unfold fits. cbn. lia.
      * repeat constructor.
    + split; [reflexivity|]. split; [reflexivity|]. exists None. reflexivity.
  - cbn. lia.
  - cbn. lia.
  - cbn. lia.
  - vm_compute. reflexivity.
Defined.

(** ** What modelling showed *)

(** The answer is a success whatever the controller says, and the code of its
    error is the value: a direction of 168 is -ENOSYS. *)
Example errors_are_values :
  (r ← handle 77 (mk_request true GB_GPIO_TYPE_GET_DIRECTION [2]) two_controllers; let '(_, result, response) := r in Ret (result, response)) = Ret (0, Some [168]) /\
  (r ← handle 77 (mk_request true GB_GPIO_TYPE_ACTIVATE [2]) two_controllers; let '(_, result, response) := r in Ret (result, response)) = Ret (0, None).
Proof. vm_compute. split; reflexivity. Qed.

(** Lines are checked against how many there are, not against their numbers:
    there is no line 4, and line 12 cannot be reached. *)
Example numbers_with_holes :
  (r ← handle 77 (mk_request true GB_GPIO_TYPE_DIRECTION_OUT [4; 1]) two_controllers; let '(_, result, response) := r in Ret (result, response)) = Ret (0, None) /\
  (r ← handle 77 (mk_request true GB_GPIO_TYPE_DIRECTION_OUT [12; 1]) two_controllers; let '(_, result, response) := r in Ret (result, response)) = Ret (6, None).
Proof. vm_compute. split; reflexivity. Qed.

(** More than 256 lines are reported as what is left of their number in a byte. *)
Example line_count_wraps : gb_gpio_line_count true (mk_world (D := Z) ∅ [] 257) = Ret (mk_world ∅ [] 257, 0, Some [0]).
Proof. reflexivity. Qed.

(** The size of a payload is not looked at. *)
Example short_payload_faults : handle 77 (mk_request true GB_GPIO_TYPE_SET_VALUE [2]) two_controllers = Fault.
Proof. vm_compute. reflexivity. Qed.
End Ex.
End GbGpio.
