(* ===== verification/GbAp.v ===== *)
(** The side of the application processor (AP) of Greybus,
    [src/drivers/greybus/ap]: the requests to the SVC and to the control protocol
    of an interface, the CPorts of the AP, bringing up an interface and its
    CPorts, and the drivers of remote GPIO lines and I2C buses.

    What becomes of a request is the interface [Wire].  The table of the CPorts in
    use is the interface [Table]. *)
From S2P Require Import Prelude Table.
From S2P Require Hashtable Devnum Greybus Gpio I2c GbGpio GbI2c Svc.
#[local] Open Scope Z_scope.

(** The outcome of a request that waits for its answer: no operation, an error
    of [gb_operation_send_request_sync], a time-out, or an answer with its result
    and payload. *)
Inductive reply := NoMemory | NotSent (err : Z) | NoAnswer | Answer (result : Z) (payload : list Z).
(** [wire g cport type payload]. *)
Class Wire (G : Type) := wire : G -> Z -> Z -> list Z -> outcome (G * reply).

Module GbAp.
#[local] Existing Instance Devnum.Devnum.null_Z.

Definition GB_SVC_CPORT : Z := 0.
Definition GB_AP_DEVICE_ID : Z := 1.
Definition GB_CONTROL_CPORT : Z := 0.
Definition GB_SVC_TYPE_INTF_DEVICE_ID : Z := 0x03.
Definition GB_SVC_TYPE_CONN_CREATE : Z := 0x07.
Definition GB_SVC_TYPE_CONN_DESTROY : Z := 0x08.
Definition GB_SVC_TYPE_ROUTE_CREATE : Z := 0x0b.
Definition GB_CONTROL_TYPE_GET_MANIFEST_SIZE : Z := 0x03.
Definition GB_CONTROL_TYPE_GET_MANIFEST : Z := 0x04.
Definition GB_CONTROL_TYPE_CONNECTED : Z := 0x05.
Definition GB_CONTROL_TYPE_DISCONNECTED : Z := 0x06.

Definition le16_bytes (v : Z) : list Z := [v mod 2 ^ 8; v / 2 ^ 8 mod 2 ^ 8].
Definition byte_at (payload : list Z) (i : nat) : outcome Z := deref (payload !! i).

(** [struct gb_connection], whose ends are the identifiers of interfaces, and
    what matters of [struct gb_interface].  [interface1] is NULL until the AP has
    an interface of its own. *)
Record gb_connection := mk_connection { interface1 : option Z; cport1 : Z; interface2 : Z; cport2 : Z }.
Record gb_interface := mk_interface { if_id : Z; device_id : Z; control_connection : gb_connection }.

Section Ap.
Context {G T : Type} `{Wire G} `{!TableOps Z Z T}.

(** [devices]: the CPorts of the [gb_device]s that exist, [registered]: of those
    registered with the driver core; [sent]: the requests made. *)
Record ap := mk_ap { net : G; cport_map : T; devices : list Z; registered : list Z; workqueues : nat; next_devid : Z; sent : list (Z * Z * list Z) }.
Implicit Types (s : ap).
Definition with_map s (t : T) : ap := mk_ap (net s) t (devices s) (registered s) (workqueues s) (next_devid s) (sent s).
Definition with_devices s (d r : list Z) : ap := mk_ap (net s) (cport_map s) d r (workqueues s) (next_devid s) (sent s).
Definition with_workqueues s (n : nat) : ap := mk_ap (net s) (cport_map s) (devices s) (registered s) n (next_devid s) (sent s).
Definition with_next_devid s (n : Z) : ap := mk_ap (net s) (cport_map s) (devices s) (registered s) (workqueues s) n (sent s).

(** What all requests share: creating, sending, the result; [bad] is the error
    for a result that is not success. *)
Definition transact (bad : Z) (g : G) (cport type : Z) (payload : list Z) : outcome (G * (Z + list Z)) :=
  '(g, r) ← wire g cport type payload;
  Ret (g, match r with
          | NoMemory => inl (- ENOMEM)
          | NotSent err => inl err
          | NoAnswer => inl bad
          | Answer result payload => if bool_decide (result <> Greybus.Greybus.GB_OP_SUCCESS) then inl bad else inr payload
          end).
Definition request (cport type : Z) (payload : list Z) s : outcome (ap * (Z + list Z)) :=
  '(g, r) ← transact (- EIO) (net s) cport type payload;
  Ret (mk_ap g (cport_map s) (devices s) (registered s) (workqueues s) (next_devid s) (sent s ++ [(cport, type, payload)]), r).
Definition request_ok (cport type : Z) (payload : list Z) s : outcome (ap * Z) :=
  '(s, r) ← request cport type payload s; Ret (s, match r with inl e => e | inr _ => 0 end).

(** ** The SVC *)

Definition gb_svc_create_connection (c : gb_connection) s : outcome (ap * Z) :=
  i1 ← deref (interface1 c);
  request_ok GB_SVC_CPORT GB_SVC_TYPE_CONN_CREATE
    ([wrap8 i1] ++ le16_bytes (cport1 c) ++ [wrap8 (interface2 c)] ++ le16_bytes (cport2 c) ++ [0; 7]) s.
Definition gb_svc_destroy_connection (c : gb_connection) s : outcome (ap * Z) :=
  i1 ← deref (interface1 c);
  request_ok GB_SVC_CPORT GB_SVC_TYPE_CONN_DESTROY
    ([wrap8 i1] ++ le16_bytes (cport1 c) ++ [wrap8 (interface2 c)] ++ le16_bytes (cport2 c)) s.
(** [self]: the interface of the AP itself, once the SVC has said hello. *)
Definition gb_svc_create_route (self : option Z) (iface : gb_interface) s : outcome (ap * Z) :=
  self ← deref self;
  request_ok GB_SVC_CPORT GB_SVC_TYPE_ROUTE_CREATE [wrap8 self; GB_AP_DEVICE_ID; wrap8 (if_id iface); wrap8 (device_id iface)] s.
Definition gb_svc_assign_device_id (iface : gb_interface) s : outcome (ap * Z) :=
  request_ok GB_SVC_CPORT GB_SVC_TYPE_INTF_DEVICE_ID [wrap8 (if_id iface); wrap8 (device_id iface)] s.

(** ** The control protocol *)

Definition control_cport (iface : gb_interface) : Z := cport1 (control_connection iface).
Definition gb_control_get_manifest_size (iface : gb_interface) s : outcome (ap * Z) :=
  '(s, r) ← request (control_cport iface) GB_CONTROL_TYPE_GET_MANIFEST_SIZE [] s;
  match r with
  | inl e => Ret (s, e)
  | inr p => lo ← byte_at p 0; hi ← byte_at p 1; Ret (s, lo + 2 ^ 8 * hi)
  end.
(** [size] bytes of the answer are copied, whatever its size. *)
Definition gb_control_get_manifest_data (iface : gb_interface) (size : Z) s : outcome (ap * Z * list Z) :=
  '(s, r) ← request (control_cport iface) GB_CONTROL_TYPE_GET_MANIFEST [] s;
  match r with
  | inl e => Ret (s, e, [])
  | inr p => if bool_decide (Z.of_nat (length p) < size) then Fault else Ret (s, 0, take (Z.to_nat size) p)
  end.
(** [ok]: there is memory for the manifest. *)
Definition gb_control_get_manifest (ok : bool) (iface : gb_interface) s : outcome (ap * Z * list Z) :=
  '(s, size) ← gb_control_get_manifest_size iface s;
  if bool_decide (size < 0) then Ret (s, size, []) else
  if bool_decide (size = 0) then Ret (s, - EIO, []) else
  if negb ok then Ret (s, - ENOMEM, []) else
  gb_control_get_manifest_data iface size s.
Definition gb_control_connect_cport (iface : gb_interface) (cport : Z) s : outcome (ap * Z) :=
  request_ok (control_cport iface) GB_CONTROL_TYPE_CONNECTED (le16_bytes cport) s.
Definition gb_control_disconnect_cport (iface : gb_interface) (cport : Z) s : outcome (ap * Z) :=
  request_ok (control_cport iface) GB_CONTROL_TYPE_DISCONNECTED (le16_bytes cport) s.

(** ** CPorts *)

Fixpoint allocate_from (n : nat) (i : Z) s : outcome (ap * Z) :=
  match n with
  | O => Ret (s, - EBUSY)
  | S n =>
      b ← tbl_has (cport_map s) i;
      if b : bool then allocate_from n (i + 1) s else
      t ← tbl_add (cport_map s) i 1; Ret (with_map s t, i)
  end.
(** [cport_count] is that of the UniPro device. *)
Definition gb_cport_allocate (cport_count : nat) s : outcome (ap * Z) := allocate_from cport_count 0 s.
Definition gb_cport_deallocate (cport : Z) s : outcome ap :=
  b ← tbl_has (cport_map s) cport;
  if b : bool then t ← tbl_remove (cport_map s) cport; Ret (with_map s t) else Ret s.

(** [known]: the protocol of the CPort has been registered; [ok]: there is
    memory for the device. *)
Definition gb_cport_connect (cport_count : nat) (self : option Z) (known ok : bool) (iface : gb_interface) (id : Z) s : outcome (ap * Z) :=
  if negb known then Ret (s, - ENOTSUP) else
  '(s, cportid) ← gb_cport_allocate cport_count s;
  if bool_decide (cportid < 0) then Ret (s, cportid) else
  if negb ok then s ← gb_cport_deallocate cportid s; Ret (s, - ENOMEM) else
  let s := with_devices s (devices s ++ [cportid]) (registered s) in
  let connection := mk_connection self cportid (if_id iface) id in
  let error_create_connection s retval :=
    s ← gb_cport_deallocate cportid (with_devices s (filter (fun c => c <> cportid) (devices s)) (registered s)); Ret (s, retval) in
  '(s, retval) ← gb_svc_create_connection connection s;
  if bool_decide (retval <> 0) then error_create_connection s retval else
  '(s, retval) ← gb_control_connect_cport iface id s;
  if bool_decide (retval <> 0) then
    '(s, _) ← gb_svc_destroy_connection connection s; error_create_connection s retval
  else Ret (with_devices s (devices s) (registered s ++ [cportid]), 0).

(** ** Interfaces *)

(** [ok], [wq_ok]: there is memory for the interface and for its work queue. *)
Definition gb_interface_create (cport_count : nat) (self : option Z) (ok wq_ok : bool) (id : Z) s : outcome (ap * option gb_interface) :=
  if negb ok then Ret (s, None) else
  if negb wq_ok then Ret (s, None) else
  let s := with_workqueues s (S (workqueues s)) in
  '(s, cport) ← gb_cport_allocate cport_count s;
  if bool_decide (cport < 0) then Ret (s, None) else
  Ret (s, Some (mk_interface id 0 (mk_connection self cport id GB_CONTROL_CPORT))).

(** The bundles, which the parser of manifests has made, go with the interface. *)
Definition gb_interface_destroy (iface : gb_interface) s : outcome ap :=
  s ← gb_cport_deallocate (control_cport iface) s;
  match workqueues s with O => Fault | S n => Ret (with_workqueues s n) end.

(** The CPorts of all bundles, each with whether its protocol is known; what
    [gb_cport_connect] returns is not looked at. *)
Fixpoint gb_interface_initialize_bundles (cport_count : nat) (self : option Z) (iface : gb_interface) (l : list (Z * bool)) s : outcome ap :=
  match l with
  | [] => Ret s
  | (id, known) :: l => '(s, _) ← gb_cport_connect cport_count self known true iface id s; gb_interface_initialize_bundles cport_count self iface l s
  end.

(** [device_ok]: there is memory for the control device; [parse] is the parser
    of manifests, with the CPorts it makes.  Without the traffic that is sent as
    a test when all is done. *)
Definition gb_interface_init (cport_count : nat) (self : option Z) (device_ok data_ok : bool) (parse : list Z -> outcome (Z * list (Z * bool)))
    (iface : gb_interface) s : outcome (ap * gb_interface * Z) :=
  let iface := mk_interface (if_id iface) (next_devid s) (control_connection iface) in
  let s := with_next_devid s (wrap32 (next_devid s + 1)) in
  '(s, retval) ← gb_svc_assign_device_id iface s;
  if bool_decide (retval <> 0) then Ret (s, iface, retval) else
  '(s, retval) ← gb_svc_create_route self iface s;
  if bool_decide (retval <> 0) then Ret (s, iface, retval) else
  '(s, retval) ← gb_svc_create_connection (control_connection iface) s;
  if bool_decide (retval <> 0) then Ret (s, iface, retval) else
  if negb device_ok then Ret (s, iface, retval) else
  let s := with_devices s (devices s ++ [control_cport iface]) (registered s ++ [control_cport iface]) in
  '(s, retval, data) ← gb_control_get_manifest data_ok iface s;
  if bool_decide (retval <> 0) then Ret (s, iface, retval) else
  '(retval, cports) ← parse data;
  if bool_decide (retval <> 0) then Ret (s, iface, retval) else
  s ← gb_interface_initialize_bundles cport_count self iface cports s;
  Ret (s, iface, 0).
End Ap.
Arguments ap G T : clear implicits.

(** ** Remote GPIO lines, [gpio.c] *)

Section ApGpio.
Context {G : Type} `{Wire G}.

(** The one global [gb_device], here its CPort, and what is behind the wire. *)
Record ap_gpio := mk_ap_gpio { gb_device : option Z; gnet : G }.
Implicit Types (s : ap_gpio).

Definition gpio_request (type : Z) (payload : list Z) s : outcome (ap_gpio * (Z + list Z)) :=
  cport ← deref (gb_device s);
  '(g, r) ← transact (- EPROTO) (gnet s) cport type payload; Ret (mk_ap_gpio (gb_device s) g, r).
Definition gpio_done (m : outcome (ap_gpio * (Z + list Z))) : outcome (ap_gpio * Z) :=
  '(s, r) ← m; Ret (s, match r with inl e => e | inr _ => 0 end).
Definition gpio_byte (m : outcome (ap_gpio * (Z + list Z))) : outcome (ap_gpio * Z) :=
  '(s, r) ← m; match r with inl e => Ret (s, e) | inr p => v ← byte_at p 0; Ret (s, v) end.

Definition gb_gpio_get_direction s (line : Z) := gpio_byte (gpio_request GbGpio.GbGpio.GB_GPIO_TYPE_GET_DIRECTION [wrap8 line] s).
Definition gb_gpio_direction_in s (line : Z) := gpio_done (gpio_request GbGpio.GbGpio.GB_GPIO_TYPE_DIRECTION_IN [wrap8 line] s).
Definition gb_gpio_direction_out s (line value : Z) := gpio_done (gpio_request GbGpio.GbGpio.GB_GPIO_TYPE_DIRECTION_OUT [wrap8 line; wrap8 value] s).
Definition gb_gpio_activate s (line : Z) := gpio_done (gpio_request GbGpio.GbGpio.GB_GPIO_TYPE_ACTIVATE [wrap8 line] s).
Definition gb_gpio_deactivate s (line : Z) := gpio_done (gpio_request GbGpio.GbGpio.GB_GPIO_TYPE_DEACTIVATE [wrap8 line] s).
Definition gb_gpio_set_value s (line value : Z) := gpio_done (gpio_request GbGpio.GbGpio.GB_GPIO_TYPE_SET_VALUE [wrap8 line; wrap8 value] s).
Definition gb_gpio_get_value s (line : Z) := gpio_byte (gpio_request GbGpio.GbGpio.GB_GPIO_TYPE_GET_VALUE [wrap8 line] s).

Definition gb_gpio_device_ops : Gpio.Gpio.gpio_ops (D := ap_gpio) :=
  Gpio.Gpio.mk_ops (Some gb_gpio_get_direction) (Some gb_gpio_direction_in) (Some gb_gpio_direction_out) (Some gb_gpio_activate) (Some gb_gpio_deactivate)
    (Some gb_gpio_get_value) (Some gb_gpio_set_value) None None None None None None.

(** The device that the answer to a request for the number of lines makes; [ok]:
    there is memory for it.  The result of registering it is not looked at. *)
Definition gb_gpio_line_count_cb (ok : bool) (r : reply) (s : ap_gpio) : outcome (option (Gpio.Gpio.gpio_device (D := ap_gpio))) :=
  match r with
  | Answer result p =>
      if bool_decide (result <> Greybus.Greybus.GB_OP_SUCCESS) then Ret None else
      if negb ok then Ret None else
      count ← byte_at p 0; Ret (Some (Gpio.Gpio.mk_gpio (Some gb_gpio_device_ops) (2 ^ 32 - 1) (count + 1) s))
  | _ => Ret None
  end.
(** The newest device is the one all operations go to.  [registered] is what
    [gb_register_driver] returns; the answer to the request for the number of
    lines, here at once, makes the GPIO device. *)
Definition gb_gpio_probe (ok : bool) (cport registered : Z) s : outcome (ap_gpio * option (Gpio.Gpio.gpio_device (D := ap_gpio)) * Z) :=
  let s := mk_ap_gpio (Some cport) (gnet s) in
  if bool_decide (registered <> 0) then Ret (s, None, registered) else
  '(g, r) ← wire (gnet s) cport GbGpio.GbGpio.GB_GPIO_TYPE_LINE_COUNT [];
  let s := mk_ap_gpio (gb_device s) g in
  dev ← gb_gpio_line_count_cb ok r s; Ret (s, dev, 0).
End ApGpio.
Arguments ap_gpio G : clear implicits.

(** ** Remote I2C buses, [i2c.c] *)

(** The descriptors, all of them of the first message, and no data. *)
Definition transfer_request (msgs : list I2c.I2c.i2c_msg) : list Z :=
  le16_bytes (Z.of_nat (length msgs)) ++
  match msgs with
  | [] => []
  | m :: _ => mjoin (replicate (length msgs) (le16_bytes (I2c.I2c.m_addr m) ++ le16_bytes (I2c.I2c.m_flags m) ++ le16_bytes (I2c.I2c.m_length m)))
  end.
(** What is received is not stored anywhere. *)
Definition gb_i2c_transfer {G} `{Wire G} (cport : Z) (g : G) (msgs : list I2c.I2c.i2c_msg) : outcome (G * Z) :=
  '(g, r) ← transact (- EIO) g cport GbI2c.GbI2c.GB_I2C_PROTOCOL_TRANSFER (transfer_request msgs);
  Ret (g, match r with inl e => e | inr _ => 0 end).


(** ** Connecting a CPort *)

(** Requests come to an end, and an error is one. *)
Class WireSpec (G : Type) `{Wire G} := {
  wire_returns g cport type payload : exists g' r, wire g cport type payload = Ret (g', r) /\ match r with NotSent e => e < 0 | _ => True end;
}.

Section Connect.
Context {G T : Type} `{WireSpec G} `{!TableOps Z Z T, !TableSpec Z Z T}.
Implicit Types (s : ap G T) (m : gmap Z Z).

Definition used m (c : Z) : bool := bool_decide (default 0 (m !! c) <> 0).

Lemma request_ok_spec cport type payload s : exists s' ret g, request_ok cport type payload s = Ret (s', ret) /\ ret <= 0 /\
  s' = mk_ap g (cport_map s) (devices s) (registered s) (workqueues s) (next_devid s) (sent s ++ [(cport, type, payload)]).
Proof.
  unfold request_ok, request, transact. destruct (wire_returns (net s) cport type payload) as (g & r & -> & Hr). unfold mbind, outcome_bind.
  eexists _, _, g. split; [reflexivity|]. split; [|reflexivity].
  destruct r as [|e| |result p]; [by unfold ENOMEM|lia|by unfold EIO|]. case_bool_decide; [by unfold EIO|done].
Qed.

Lemma allocate_spec m r n i s : tbl_rep (cport_map s) m (S r) -> (forall c, i <= c < i + Z.of_nat n -> tbl_key_ok c) -> 0 <= i ->
  (exists c t, allocate_from n i s = Ret (with_map s t, c) /\ i <= c < i + Z.of_nat n /\ used m c = false /\
     (forall c', i <= c' < c -> used m c' = true) /\ tbl_rep t (<[c := 1]> m) r) \/
  (allocate_from n i s = Ret (s, - EBUSY) /\ forall c, i <= c < i + Z.of_nat n -> used m c = true).
Proof.
  intros Hr. revert i. induction n as [|n IH]; intros i Hk Hi; [right; split; [done|lia]|]. cbn [allocate_from].
  rewrite (tbl_has_ok _ m r i) by (done || apply Hk; lia). unfold mbind, outcome_bind.
  change (bool_decide (default null (m !! i) <> null)) with (used m i). destruct (used m i) eqn:Eu.
  - destruct (IH (i + 1)) as [(c & t & E & Hc & Hf & Hb & Ht)|(E & Hall)]; [intros c Hc; apply Hk; lia|lia| |].
    + left. exists c, t. split_and!; [done|lia|lia|done| |done]. intros c' Hc'. destruct (decide (c' = i)) as [->|]; [done|apply Hb; lia].
    + right. split; [done|]. intros c Hc. destruct (decide (c = i)) as [->|]; [done|apply Hall; lia].
  - destruct (tbl_add_ok _ m r i 1 Hr) as (t & -> & Ht); [apply Hk; lia|]. left. exists i, t. split_and!; [done|lia|lia|done|lia|done].
Qed.

Lemma deallocate_spec m r c s : tbl_rep (cport_map s) (<[c := 1]> m) (S r) -> tbl_key_ok c -> used m c = false ->
  exists t m', gb_cport_deallocate c s = Ret (with_map s t) /\ tbl_rep t m' (S r) /\ forall i, used m' i = used m i.
Proof.
  intros Hr Hk Hu. unfold gb_cport_deallocate. rewrite (tbl_has_ok _ (<[c := 1]> m) r) by done. unfold mbind, outcome_bind. rewrite lookup_insert_eq.
  rewrite bool_decide_eq_true_2 by done. destruct (tbl_remove_ok _ _ r c Hr Hk) as (t & -> & Ht). exists t, (delete c (<[c := 1]> m)). split_and!; [done|done|].
  intros i. unfold used. destruct (decide (i = c)) as [->|]; [by rewrite lookup_delete_eq|by rewrite lookup_delete_ne, lookup_insert_ne].
Qed.

(** The requests of a connection. *)
Definition create_request (self cportid other id : Z) : Z * Z * list Z :=
  (GB_SVC_CPORT, GB_SVC_TYPE_CONN_CREATE, [wrap8 self] ++ le16_bytes cportid ++ [wrap8 other] ++ le16_bytes id ++ [0; 7]).
Definition destroy_request (self cportid other id : Z) : Z * Z * list Z :=
  (GB_SVC_CPORT, GB_SVC_TYPE_CONN_DESTROY, [wrap8 self] ++ le16_bytes cportid ++ [wrap8 other] ++ le16_bytes id).
Definition connected_request (iface : gb_interface) (id : Z) : Z * Z * list Z :=
  (control_cport iface, GB_CONTROL_TYPE_CONNECTED, le16_bytes id).

(** C31.  Connecting a CPort is all or nothing: it succeeds with the least CPort
    of the AP that is free, connected by the SVC and announced to the interface;
    or it fails, whatever failed, with the CPorts and devices as they were, and
    the connection taken back if the SVC had made it. *)
Theorem connect_all_or_nothing n self known ok iface id m r s :
  tbl_rep (cport_map s) m (S (S r)) -> (forall c, 0 <= c < Z.of_nat n -> tbl_key_ok c) -> (forall c, c ∈ devices s -> used m c = true) ->
  exists s' ret, gb_cport_connect n (Some self) known ok iface id s = Ret (s', ret) /\ ret <= 0 /\
    if decide (ret = 0) then
      exists c, 0 <= c < Z.of_nat n /\ used m c = false /\ (forall c', 0 <= c' < c -> used m c' = true) /\
        tbl_rep (cport_map s') (<[c := 1]> m) (S r) /\ devices s' = devices s ++ [c] /\ registered s' = registered s ++ [c] /\
        sent s' = sent s ++ [create_request self c (if_id iface) id; connected_request iface id]
    else devices s' = devices s /\ registered s' = registered s /\ (exists m', tbl_rep (cport_map s') m' (S r) /\ forall i, used m' i = used m i) /\
      (sent s' = sent s \/ exists c, sent s' = sent s ++ [create_request self c (if_id iface) id] \/
         sent s' = sent s ++ [create_request self c (if_id iface) id; connected_request iface id; destroy_request self c (if_id iface) id]).
Proof.
  intros Hr Hk Hd. assert (Hweak : tbl_rep (cport_map s) m (S r)) by (eapply tbl_rep_weaken; [exact Hr|lia]).
  assert (Hsame : exists m', tbl_rep (cport_map s) m' (S r) /\ forall i, used m' i = used m i) by (by exists m).
  unfold gb_cport_connect. destruct known; cbn [negb].
  2: { exists s, (- ENOTSUP). split_and!; [done|done|]. split_and!; [done..|by left]. }
  destruct (allocate_spec m (S r) n 0 s Hr Hk ltac:(lia)) as [(c & t & E & Hc & Hf & Hb & Ht)|(E & _)]; unfold gb_cport_allocate; rewrite E; unfold mbind, outcome_bind.
  2: { exists s, (- EBUSY). split_and!; [done|done|]. split_and!; [done..|by left]. }
  rewrite bool_decide_eq_false_2 by lia.
  assert (Hdel : forall x : ap G T, cport_map x = t -> exists t' m', gb_cport_deallocate c x = Ret (with_map x t') /\ tbl_rep t' m' (S r) /\ forall i, used m' i = used m i).
  { intros x Ex. apply deallocate_spec; [by rewrite Ex|apply Hk; lia|done]. }
  destruct ok; cbn [negb].
  2: { destruct (Hdel (with_map s t) eq_refl) as (t' & m' & -> & Ht' & Hm'). eexists _, _. split; [reflexivity|]. split; [done|].
       split_and!; [done|done|by exists m'|by left]. }
  set (s1 := with_devices (with_map s t) (devices (with_map s t) ++ [c]) (registered (with_map s t))).
  assert (Hfil : filter (fun x => x <> c) (devices s ++ [c]) = devices s).
  { rewrite filter_app, filter_cons_False, filter_nil, app_nil_r by tauto. apply filter_id. intros x Hx ->. by rewrite Hd in Hf. }
  unfold gb_svc_create_connection, gb_svc_destroy_connection. cbn [interface1 deref cport1 interface2 cport2]. unfold mbind, outcome_bind.
  destruct (request_ok_spec GB_SVC_CPORT GB_SVC_TYPE_CONN_CREATE ([wrap8 self] ++ le16_bytes c ++ [wrap8 (if_id iface)] ++ le16_bytes id ++ [0; 7]) s1) as (s2 & ret & g & -> & Hret & ->).
  case_bool_decide as Hz.
  { match goal with |- context [gb_cport_deallocate c ?x] => destruct (Hdel x eq_refl) as (t' & m' & -> & Ht' & Hm') end.
    eexists _, _. split; [reflexivity|]. split; [done|]. rewrite decide_False by done. cbn.
    split_and!; [exact Hfil|done|by exists m'|right; exists c; by left]. }
  unfold gb_control_connect_cport.
  match goal with |- context [request_ok ?a ?b ?d ?x] => destruct (request_ok_spec a b d x) as (s3 & ret3 & g3 & -> & Hret3 & ->) end.
  case_bool_decide as Hz3.
  - match goal with |- context [request_ok ?a ?b ?d ?x] => destruct (request_ok_spec a b d x) as (s4 & ret4 & g4 & -> & Hret4 & ->) end.
    match goal with |- context [gb_cport_deallocate c ?x] => destruct (Hdel x eq_refl) as (t' & m' & -> & Ht' & Hm') end.
    eexists _, _. split; [reflexivity|]. split; [done|]. rewrite decide_False by done. cbn.
    split_and!; [exact Hfil|done|by exists m'|right; exists c; right]. by rewrite <- !app_assoc.
  - eexists _, _. split; [reflexivity|]. split; [done|]. cbn. exists c. split_and!; [lia|lia|done|done|done|done|done|]. by rewrite <- app_assoc.
Qed.
End Connect.

(** ** The two ends together *)

(** The SVC takes from a request for a connection what the AP has put in it. *)
Lemma svc_understands_connection {HW M} `{Switch.Switch.UniproAttrs} `{Memory.MemOps M} (sv : Svc.Svc.svc HW M) i1 c1 i2 c2 :
  0 <= i1 < 2 ^ 8 -> 0 <= i2 < 2 ^ 8 -> 0 <= c1 < 2 ^ 16 -> 0 <= c2 < 2 ^ 16 ->
  Svc.Svc.gb_svc_connection_create sv ([wrap8 i1] ++ le16_bytes c1 ++ [wrap8 i2] ++ le16_bytes c2 ++ [0; 7]) =
  (let '(sv, rc) := Svc.Svc.svc_connection_create sv i1 c1 i2 c2 0 7 in Ret (sv, Greybus.Greybus.gb_errno_to_op_result rc)).
Proof.
  intros. assert (Hle : forall v, 0 <= v < 2 ^ 16 -> Svc.Svc.le16 (v mod 2 ^ 8) (v / 2 ^ 8 mod 2 ^ 8) = v).
  { intros v Hv. unfold Svc.Svc.le16. rewrite <- Z.add_nocarry_lor.
    - rewrite Z.shiftl_mul_pow2 by done. change (2 ^ 8) with 256 in *. change (2 ^ 16) with 65536 in *. Z.to_euclidean_division_equations. lia.
    - apply Z.bits_inj'. intros k Hk. rewrite Z.land_spec, Z.shiftl_spec, Z.bits_0 by done.
      destruct (decide (k < 8)); [by rewrite (Z.testbit_neg_r _ (k - 8)), andb_false_r by lia|by rewrite Z.mod_pow2_bits_high by lia]. }
  unfold Svc.Svc.gb_svc_connection_create. cbn [app le16_bytes]. by rewrite !wrap8_small, !Hle by done.
Qed.

(** A module whose lines are [w] answers requests on any CPort at once. *)
Section Remote.
Import Gpio.Gpio GbGpio.GbGpio.
Context {D : Type} (irq_event : Z).
Notation lines := (world (D := D)).
#[local] Instance module_wire : Wire lines := fun w _ type payload =>
  match gb_gpio_handlers irq_event type with
  | Some h => '(w, result, response) ← h true payload w; Ret (w, Answer result (default [] response))
  | None => Ret (w, Answer Greybus.Greybus.GB_OP_INVALID [])
  end.

(** The operations that the driver of remote lines has; what the module does for
    each, the value of a line being one byte of a request; and what the AP is
    told when the module's own operation returns [r]. *)
Definition remote (q : Gpio.Gpio.request) : bool :=
  match q with GetDirection | DirectionIn | DirectionOut _ | Activate | Deactivate | GetValue | SetValue _ => true | _ => false end.
Definition in_a_byte (q : Gpio.Gpio.request) : Gpio.Gpio.request :=
  match q with DirectionOut v => DirectionOut (wrap8 v) | SetValue v => SetValue (wrap8 v) | _ => q end.
Definition told (q : Gpio.Gpio.request) (r : Z) : Z := match q with GetDirection | GetValue => wrap8 r | _ => 0 end.

Fixpoint run_local (l : list (Gpio.Gpio.request * Z)) (w : lines) : outcome (lines * list Z) :=
  match l with
  | [] => Ret (w, [])
  | (q, line) :: l => '(r, w) ← run_request q line w; '(w, rs) ← run_local l w; Ret (w, r :: rs)
  end.
Fixpoint run_remote (l : list (Gpio.Gpio.request * Z)) (s : ap_gpio lines) : outcome (ap_gpio lines * list Z) :=
  match l with
  | [] => Ret (s, [])
  | (q, line) :: l =>
      '(s, r) ← match member q gb_gpio_device_ops with Some f => f s line | None => Ret (s, - ENOSYS) end;
      '(s, rs) ← run_remote l s; Ret (s, r :: rs)
  end.

Lemma remote_op q line c w : remote q = true -> 0 <= line < 2 ^ 8 -> line < gpio_line_count w ->
  exists f, member q gb_gpio_device_ops = Some f /\
    f (mk_ap_gpio (Some c) w) line = ('(r, w) ← run_request (in_a_byte q) line w; Ret (mk_ap_gpio (Some c) w, told q r)).
Proof.
  intros Hq Hl Hc. destruct q; try discriminate Hq; eexists; (split; [reflexivity|]).
  all: cbn; unfold gb_gpio_get_direction, gb_gpio_direction_in, gb_gpio_direction_out, gb_gpio_activate, gb_gpio_deactivate, gb_gpio_set_value, gb_gpio_get_value,
    gpio_done, gpio_byte, gpio_request, transact, wire, module_wire, mbind, outcome_bind; cbn [gb_device gnet deref]; find_handler.
  all: rewrite ?(wrap8_small line) by lia; unfold GbGpio.GbGpio.gb_gpio_activate, GbGpio.GbGpio.gb_gpio_deactivate, GbGpio.GbGpio.gb_gpio_get_direction,
    GbGpio.GbGpio.gb_gpio_direction_in, GbGpio.GbGpio.gb_gpio_direction_out, GbGpio.GbGpio.gb_gpio_get_value, GbGpio.GbGpio.gb_gpio_set_value, on_line;
    cbn; unfold mbind, outcome_bind; rewrite bool_decide_eq_false_2 by lia; unfold ignore, reply; cbn [negb]; unfold mbind, outcome_bind;
    match goal with |- context [match ?x with _ => _ end] => destruct x as [[? ?]| |]; reflexivity end.
Qed.

(** C32.  Lines of another module, used through the AP's driver, are as good as
    the module's own: any sequence of operations does to the lines of the module
    exactly what the same operations do when the module makes them, and returns
    their values, cut to a byte; only the errors of the operations that have no
    value are lost.  A value to set reaches the module modulo 256, one byte of
    the request.  The lines are below 256 and below the module's count, and the
    module is the one the driver was probed with last, since the driver has one
    variable for it; every request finds memory and is answered in time. *)
Theorem remote_lines_refine l w c : registry_ok w -> drivers_return w ->
  Forall (fun x => remote x.1 = true /\ 0 <= x.2 < 2 ^ 8 /\ x.2 < gpio_line_count w) l ->
  exists w' rs, run_local (prod_map in_a_byte id <$> l) w = Ret (w', rs) /\
    run_remote l (mk_ap_gpio (Some c) w) = Ret (mk_ap_gpio (Some c) w', zip_with (fun x r => told x.1 r) l rs).
Proof.
  revert w. induction l as [|[q line] l IH]; intros w Hok Hret Hl; [by exists w, []|].
  apply Forall_cons in Hl as [(Hq & Hline & Hc) Hl]. cbn [fst snd] in *.
  destruct (run_request_contained (in_a_byte q) line w Hok Hret) as (r & w1 & E & Hcon & _); [lia|].
  destruct (remote_op q line c w Hq Hline Hc) as (f & Ef & Hf). rewrite E in Hf. unfold mbind, outcome_bind in Hf.
  destruct (IH w1) as (w2 & rs & El & Er); [by eapply contained_ok|by eapply contained_return| |].
  { eapply Forall_impl; [exact Hl|]. intros x (? & ? & ?). destruct Hcon as (_ & Hlc & _). unfold gpio_line_count in *. by rewrite Hlc. }
  exists w2, (r :: rs). cbn [fmap list_fmap prod_map fst snd id run_local run_remote zip_with]. rewrite E, Ef, Hf. unfold mbind, outcome_bind. rewrite El, Er. done.
Qed.
End Remote.
(** ** Instances, with the hash table *)

Module Ex.
Import Hashtable.Hashtable.
Notation table := (Hashtable.Hashtable.hashtable Z Z).

(** Requests of one type are refused; the CPorts asked are noted. *)
#[local] Instance refusing : Wire (Z * list Z) := fun g cport type _ =>
  Ret ((g.1, g.2 ++ [cport]), Answer (if bool_decide (type = g.1) then 6 else 0) []).
#[local] Instance refusing_spec : WireSpec (Z * list Z).
Proof. split. intros g cport type payload. by eexists _, _. Qed.

Definition ap_ex (refused : Z) : ap (Z * list Z) table := mk_ap (refused, []) Hashtable.Hashtable.new_uint [] [] 0 2 [].
Definition an_interface : gb_interface := mk_interface 7 3 (mk_connection (Some 1) 0 7 GB_CONTROL_CPORT).

(** The second request, to the interface, is refused. *)
Lemma connect_all_or_nothing_witness :
  exists s', gb_cport_connect 4 (Some 1) true true an_interface 9 (ap_ex GB_CONTROL_TYPE_CONNECTED) = Ret (s', - EIO) /\ devices s' = [] /\
    (exists m', tbl_rep (cport_map s') m' 7 /\ forall i, used m' i = used ∅ i) /\ length (sent s') = 3%nat.
Proof.
  destruct (connect_all_or_nothing 4 1 true true an_interface 9 ∅ 6 (ap_ex GB_CONTROL_TYPE_CONNECTED)) as (s' & ret & E & _ & H).
  - apply (Devnum.Devnum.dn_fresh _ _ _ _ _ Devnum.Devnum.no_devices_rep).
  - intros c Hc. simpl. lia.
  - intros c Hc. by apply elem_of_nil in Hc.
  - pose proof E as E'. vm_compute in E'. injection E' as <- <-. rewrite decide_False in H by done. destruct H as (Hd & _ & Hm & _).
    eexists. split; [exact E|]. split; [exact Hd|]. split; [exact Hm|reflexivity].
Defined.

Lemma remote_lines_refine_witness :
  exists w', run_remote 77 [(Gpio.Gpio.DirectionOut 265, 3); (Gpio.Gpio.GetValue, 2); (Gpio.Gpio.Activate, 1)]
    (mk_ap_gpio (Some 4) Gpio.Gpio.two_controllers) = Ret (mk_ap_gpio (Some 4) w', [0; 9; 0]) /\
  run_local [(Gpio.Gpio.DirectionOut 9, 3); (Gpio.Gpio.GetValue, 2); (Gpio.Gpio.Activate, 1)] Gpio.Gpio.two_controllers = Ret (w', [0; 9; - ENOSYS]).
Proof.
  destruct (remote_lines_refine 77 [(Gpio.Gpio.DirectionOut 265, 3); (Gpio.Gpio.GetValue, 2); (Gpio.Gpio.Activate, 1)] Gpio.Gpio.two_controllers 4) as (w' & rs & E & Er).
  - apply Gpio.Gpio.two_controllers_ok.
  - apply GbGpio.GbGpio.Ex.an_ops_return.
  - repeat constructor; cbn; lia.
  - change (prod_map in_a_byte id <$> _) with [(Gpio.Gpio.DirectionOut 9, 3); (Gpio.Gpio.GetValue, 2); (Gpio.Gpio.Activate, 1)] in E.
    exists w'. rewrite Er, E. pose proof E as E'. vm_compute in E'. injection E' as _ <-. split; reflexivity.
Defined.

(** ** What modelling showed *)

(** With two modules of GPIO lines, the operations on the first go to the second. *)
Example second_module_takes_over :
  ('(s, _, _) ← gb_gpio_probe true 4 0 (mk_ap_gpio None (2, [])); '(s, _, _) ← gb_gpio_probe true 5 0 s;
   '(s, _) ← gb_gpio_activate s 0; Ret (gnet s).2) = Ret [4; 5; 5].
Proof. reflexivity. Qed.

(** A value is cut to a byte before it is looked at: 256 is low on the line of a
    module, and high on a line of the AP's own. *)
Example value_cut_to_zero : forall G (W : Wire G) s, gb_gpio_set_value s 3 256 = gb_gpio_set_value s 3 0.
Proof. reflexivity. Qed.

(** No data follows the descriptors: the module reads it beyond the request; and
    every descriptor is that of the first message. *)
Example remote_write_faults :
  GbI2c.GbI2c.gb_i2c_protocol_transfer true true (transfer_request [I2c.I2c.mk_msg 0x50 0 [1; 2] 2]) GbI2c.GbI2c.Ex.a_master = Fault.
Proof. vm_compute. reflexivity. Qed.
Example every_descriptor_is_the_first :
  transfer_request [I2c.I2c.mk_msg 0x50 0 [] 0; I2c.I2c.mk_msg 0x51 1 [] 4] = transfer_request [I2c.I2c.mk_msg 0x50 0 [] 0; I2c.I2c.mk_msg 0x50 0 [] 0].
Proof. reflexivity. Qed.

(** Without memory for the control device the interface counts as brought up. *)
Example no_device_is_success :
  (r ← gb_interface_init 4 (Some 1) false true (fun _ => Fault) an_interface (ap_ex 99); Ret r.2) = Ret 0.
Proof. reflexivity. Qed.

(** Out of CPorts, the work queue of the interface is lost. *)
Example workqueue_leaked :
  (r ← gb_interface_create 0 (Some 1) true true 8 (ap_ex 99); Ret (r.2, workqueues r.1)) = Ret (None, 1%nat).
Proof. reflexivity. Qed.

(** An answer shorter than the manifest it is to hold is read beyond its end. *)
Example short_manifest_faults : gb_control_get_manifest_data an_interface 4 (ap_ex 99) = Fault.
Proof. reflexivity. Qed.
End Ex.
End GbAp.
